(* ===== verification/_CoqProject ===== *)
-Q . S2P
Prelude.v
KeyCodec.v
LevelDb.v
ValueCodec.v
Store.v
Outputs.v
StoreFacts.v
Rollback.v
Parsing.v
Apply.v
Spend.v
Block.v
Roundtrip.v
Tracker.v
Window.v
Reorg.v
SyncLoop.v
Batch.v
Undo.v
Chain.v
Forward.v
Indexing.v
Utxo.v
CommitLock.v
ChainParams.v
Queries.v
Json.v
Startup.v
Mempool.v
Wire.v
AuxPow.v
Decoder.v
Connector.v
Server.v
Api.v
Restore.v
RecordFiles.v
Heap.v
ExternalSort.v
SortFacts.v
AntiJoin.v
SeedStreams.v
Xdmp.v
Dump.v
ValidateChain.v
ConnectorFacts.v
WorkDir.v
DeriveKeys.v
Loader.v
LoadFacts.v
Seeder.v
Orchestrator.v
StreamFacts.v
ValidateFacts.v
RangeFacts.v
SeedChain.v
DeriveFacts.v
MergeFacts.v
PhaseFacts.v
DumpFacts.v
SeedParity.v
RunFacts.v
BulkFacts.v
Concrete.v
ConnectorTheorems.v
CodecTheorems.v
ChainTheorems.v
ReorgTheorems.v
WindowTheorems.v
LifecycleTheorems.v
LoopTheorems.v
RecoveryTheorems.v
QueryTheorems.v
Staging.v
MempoolTheorems.v
DecoderTheorems.v
SeedTheorems.v
BulkTheorems.v
