(* ===== verification/Prelude.v ===== *)
(** * The XChain UTXO tracker

    The tracker follows a Bitcoin-like node block by block and keeps, in a LevelDB store,
    the outputs of the chain that are unspent, with enough recovery records to walk back
    the last blocks when the node changes its chain.  A second, in-memory store mirrors
    the node's mempool; address queries read both.  A connector talks to the node over
    JSON-RPC, with retries, batches and failover.  A bulk seeder builds the same store
    from a dump of the chain, by sorting and joining files.  An HTTP server hands the
    queries out behind a gate and restores published stores on demand.  This library models that
    program, [src/src/XChainUtxoTracker.js] with the modules it is split in, the store
    [src/src/store/level_up_db.js] and the seeder [src/src/bulk_sync], as executable
    definitions, and proves what makes it correct.

    ** How the model reads the code

    Every operation is a Gallina function of the same name.  A method that may throw runs
    in [M St A := St -> res A * St]: a throw keeps the mutations made before it, as in
    JavaScript, and [try_catch] resumes from the state at the throw.  [St] is the store
    ([Store.store]), the tracker ([Tracker.tracker]), the loop ([SyncLoop.loop]: tracker
    and loop variables), the poller ([Mempool.refresh]), the process
    ([Startup.process]), the connector ([Connector.connector]), a dump's connector and
    output directory ([Dump.dumper]), the seeder's work directory ([WorkDir.work_dir]),
    the database it loads ([Loader.load]) or all of a seeding run ([Orchestrator.run]).  Bytes
    are [list byte]; a JS number is a [Z], [option Z] where it can be [null], [undefined] or [NaN]; Buffer writes refuse out-of-range integers as
    Node does, [>>> 0] reduces modulo 2^32, amounts are unbounded as BigInts are.  A JS
    [Map] or [Set] is a [gmap] or a [gset].  An [await] ends a turn of the task only
    where another task can interfere; the one place where interleaving matters, the
    store-commit lock, is a transition system ([CommitLock]).

    What is not the repository's code is a parameter: the database ([LevelDb], with
    [LevelDbLaws] for the documented behaviour of an ordered map), Node's [allocUnsafe]
    and SHA-256 ([Node]), the servers behind the connector's endpoints and the clock
    ([RpcServers]), the node's replies and decoded blocks call by call where the tracker's
    tasks are modelled ([NodeRpc], [LoopEnv], [MempoolEnv]), bitcoinjs-lib's parsers ([Bitcoinjs]),
    transaction hashes ([TxHash]) and address functions ([AddressLib]), the binary-search package ([BinarySearch]), the environment
    ([Environment]), the files, [tar] and the signature check of a restore ([ArchiveHost],
    [DataDir]).  [faults] in the store lets any batch commit be refused by the
    database.

    ** The model, file by file

    - [KeyCodec] and [ValueCodec]: [store/level_up_db/key_codec.js], [value_codec.js] and
      [constants.js], the keys and values of the 14 record types; [key] and [enc] are the
      schema itself.
    - [LevelDb]: the interface of the database, a concrete instance for evaluation, and
      prefix scans.
    - [Store], [Outputs]: the class LevelUpStore, method by method
      ([blocks_and_transactions.js], [store_lifecycle.js], [inputs.js], [outputs.js],
      [output_scripts.js], [output_cleanup.js]).
    - [Parsing]: [transaction_parsing.js] and the two passes of [parseBlockTransactions].
    - [Tracker]: the fields of the tracker; [Window]: [last_blocks_window.js]; [Reorg]:
      [reorg_verification.js], [reorg_node_reads.js] and the tip tests of
      [catch_up_helpers.js].
    - [SyncLoop]: [sync_loop.js] with [sync_loop_block_apply.js],
      [sync_loop_block_fetch.js], [sync_loop_node_tip.js] and the failure streaks of
      [fetch_failures_and_halt.js]; [pollSyncLoop] is one pass.
    - [Startup]: [start], the layout gate ([store_layout.js]), the halt marker
      ([halt_marker.js]) and the stop ([status_and_stop.js]); [Json]: the texts of the
      marker.
    - [Mempool]: [mempool_refresh.js] with [deleteAndCompareTxsNotInList].
    - [Queries]: [address_queries.js] and [computeFreshness].
    - [CommitLock]: [store_commit_lock.js]; a task's turn is the code between two awaits.
    - [Wire], [AuxPow]: [chain/blockchain_connector/auxpow_codec.js], with the Buffer reads
      and the serialization grammar; [Decoder]: [chain/XChainBlockDecoder.js].
    - [ChainParams]: [chain/undo_blocks.js], [chain/coinbase_maturity.js] and
      [config/env_int.js].
    - [Connector]: [chain/blockchain_connector.js] with its parts
      ([transport_and_mempool.js], [block_queries.js], [batch_fetch.js],
      [rpc_helpers.js]) and [chain/txindex_check.js]; [rpcPost] is the one POST path.
    - [Server]: [server/concurrency_gate.js] and [server/shutdown.js], transition systems over
      the events of the process; [Api]: the admin guard and page options of [api/startup.js]
      and the surfaces a caller gates on ([api/sync_status.js], [getFreshnessMeta]);
      [Restore]: [bootstrap/], [api/errors.js], [api/compression.js] and the admin
      operations of [api/routes.js] over the calls of [start()] that [launchTracker] of
      [api.js] makes and the flags by which [stopParsing], the loop and the halt meet.
    - [RecordFiles]: buffered readers and writers of fixed-size records
      ([merger/streaming_join.js], [writers.js], [derive_keys/record_layout.js]); a file is
      its bytes.  [Heap], [ExternalSort]: [merger/external_sort.js]; [AntiJoin]: the join of
      [streaming_join.js].
    - [SeedStreams]: [process_block.js], [writers.js], the range parse of
      [parse_worker.js], the concatenation of [orchestrator/file_ops.js] and
      [merger/meta_reader.js].
    - [WorkDir], [Seeder]: [orchestrator/phases.js] with [merger/resume_manifest.js] and
      the CleanupManager of [orchestrator.js]; when the disk runs short of space, and
      whether an unlink succeeds, is an oracle in the state.
    - [DeriveKeys]: [merger/derive_keys/]; [Loader]: [merger/loader.js].
    - [Xdmp]: [xdmp_writer.js] and [xdmp_reader.js]; [Dump]: [dump.js]; [ValidateChain]:
      [validate_chain.js].
    - [Orchestrator]: [orchestrator.js], [orchestrator/cli_options.js], the dump and parse
      phases and the main of [parse_worker.js]; [orchestrate] is a whole run.

    ** The proofs, file by file

    [StoreFacts] reduces every store operation to the list of writes it stages, and types
    what the scans of a well-formed store find.  [Apply], [Spend] and
    [Block] show that staging a block implements an abstract transition on records
    ([Block.committed]); [Rollback] and [Undo] evaluate the rollback of a block and
    [Roundtrip] shows that it inverts that transition.  [Batch], [Forward] and
    [Indexing] carry this to batches of blocks and their flush, [Undo] to the cleanup of
    aged blocks, [Chain] to the reorg walk; rollbacks the database refuses are in [Undo].
    [Staging] is for the poller.  [Utxo] is the abstract
    specification, a set of unspent outputs to which a block is applied, and its
    simulation by the records.  [Concrete] is the environment the theorems are
    instantiated at.

    For the seeder, [SortFacts] shows each run and the merge of the external sort;
    [StreamFacts] and [RangeFacts] what a parse writes and that consecutive ranges
    concatenate to the parse of the whole; [SeedChain] describes the records of an indexed
    chain one kind at a time and the fields of the derived records, which [DeriveFacts]
    shows to be derived; [MergeFacts] and [PhaseFacts] run the merge in a small logic of
    steps that return ([returns]) over directories whose freed files are tracked ([dir]),
    the anti-join included; [LoadFacts] and [SeedParity] run the load and compare it with
    [SeedChain].  [ConnectorFacts] bounds the requests of every fetch and the effect of an
    answer ([asks]), follows failovers, and evaluates the batches of an honest node
    ([honest]: answers in any order, up to nine timeouts in a row); [DumpFacts],
    [RunFacts] and [BulkFacts] run the dump, its check, the parse and the whole
    orchestration over such a node; [ValidateFacts] is about the check itself.

    ** What the theorems say

    - [ChainTheorems]: a flushed batch leaves exactly the records of its chain and the
      unspent outputs of the specification; a reorg walk restores the records of the fork
      point; a rolled-back block is undone; a refused rollback changes nothing; cleanup
      prunes aged blocks only.
    - [RecoveryTheorems]: the loop's recovery from a block that is not a child of our tip,
      with a batch open, ends on the fork point with nothing in flight.
    - [ReorgTheorems]: a walk never goes past the window; a deeper fork stops at its end;
      a tip too far below deletes nothing; a lower tip is believed only when repeated.
    - [WindowTheorems]: the window slides, loads in height order, and its pending list
      survives a restart.
    - [LifecycleTheorems]: restart, halt and its marker, stop, layout gate.
    - [LoopTheorems]: bounds of the batch, the prefetch queue and the failure streaks
      through any pass; the outcomes of a fetch.
    - [MempoolTheorems]: the listing is sorted; the prune leaves what the node still
      lists; a pass always ends with the poller released, and ready only when everything
      landed.
    - [QueryTheorems]: amounts are exact, pages partition the outputs, only spendable
      outputs are served, balances count every output once.
    - [DecoderTheorems]: the AuxPoW strip leaves exactly the header and the body; an MWEB
      transaction is read whole; blocks handed out are intact.
    - [CommitLock]: a commit is exclusive, preferred, and nobody is starved.
    - [ConnectorTheorems]: batches are matched by id, fetches make boundedly many
      requests, failover reaches the endpoint that answers.
    - [Server]: the gate counts its slots and sheds only at its cap, tracked work outlives
      the socket, a shutdown drains in order and always ends.  [Api]: admin methods need the
      key, readiness is never overstated.  [Restore]: the data directory is wiped only for
      an archive that passed every gate; admin operations exclude each other, and unless a
      run meets one of two races ([Admin.races]) the tracker is paused while one works
      and afterwards boots, indexes or is halted.
    - [CodecTheorems]: builders follow the schema, keys are unambiguous, scans are exact,
      values and cursors round trip.
    - [ChainParams]: windows and maturities are positive, knobs are read whole.
    - [SeedTheorems]: the external sort is the stable sort, the anti-join keeps the
      unmatched records, an unfinished load advertises no tip, a concatenated meta
      stream is never reused; seeding a chain from its dumps leaves the records of
      indexing it block by block, less those a seeding never writes ([SeedParity.kept]),
      and the tracker indexes on over a seeded store.
    - [BulkTheorems]: a whole run from an honest node's RPC to the loaded store leaves what
      pruned indexing leaves, except the recovery records (K, M) of spent outputs and, on
      Bitcoin, the transaction records (T, X, Y); the dump ends below the undo window; a dump file reads back as
      written and not when cut short; a checked dump is a chain, pinned by its last hash.

    ** Fuel and bounds

    The reorg walk ([walkLoop]) has no bound in the code, as an unreachable node keeps it
    retrying; it takes a fuel, runs out as [None], and the theorems that it returns ask
    only for more fuel than there are blocks to roll back.  The settling reads have the
    code's own budget of ten.  The chunks of a mempool pass are bounded by the number of
    transactions; the search of an unpacked archive pops each of its directories once
    ([find_complete]); the retries of the connector have the code's own budget of ten, and the
    waves of a fetch and the chunks of a dump the number of their items.  The loops over
    record files take the length of the file as fuel, which
    is at least the number of its records.  Everything else is structural.

    ** Not modelled

    Log lines, timings, progress estimates and sleeps; the texts of most errors (their
    tags are kept).  The post-reorg mempool pass runs beside the loop: the loop's part,
    withdrawing readiness, is modelled, the pass is [Mempool.updateMempool].  A flush's
    wait for the mempool mutex is over when [commitWithMempoolCleanup] runs.  Of the
    server, Express and the routing of [api/routes.js], rate limits, CORS, the single-flight
    node read, the bulk-sync boot and the crash handlers are outside, and of a restore the
    progress comment of the archive and its temporary directory; a [bootstrap.json] is read
    by [Json.parse], which has no fractions.  The coin registry's data files and their
    consensus pin, configuration, memory sizing and metrics are outside.  Of the bulk
    seeder, the orchestrator's command line and the scripts that check a finished store
    are outside, and of its files the handles, syncs and, but for the dumps, the temporary
    names; a child process is its main function, and parse workers, which write different
    files, run one after the other.  The requests of a wave of raw transactions are made
    one after the other.  *)

From Stdlib Require Export ZArith Lia Strings.Byte Strings.Ascii.
From stdpp Require Export base tactics list gmap sets strings sorting.
From stdpp Require Import numbers.

#[export] Set Default Goal Selector "!".
#[local] Open Scope string_scope.
#[local] Open Scope nat_scope.
#[local] Open Scope list_scope.

(** * Bytes

    A Node [Buffer] is a list of bytes; its length is the list's length and
    indexing past the end never happens without a JS range error. *)

Abbreviation bytes := (list byte).

#[global] Instance byte_eq_dec : EqDecision byte := Byte.byte_eq_dec.

#[global] Instance byte_countable : Countable byte.
Proof. exact (inj_countable Byte.to_N Byte.of_N Byte.of_to_N). Defined.

Definition Z_of_byte (b : byte) : Z := Z.of_N (Byte.to_N b).

Definition byte_of_Z (z : Z) : byte :=
  match Byte.of_N (Z.to_N (z mod 256)) with Some b => b | None => x00 end.

Lemma Z_of_byte_range b : (0 <= Z_of_byte b < 256)%Z.
Proof.
  unfold Z_of_byte. pose proof (Byte.to_N_bounded b). lia.
Qed.

Lemma byte_of_Z_of_byte b : byte_of_Z (Z_of_byte b) = b.
Proof.
  unfold byte_of_Z. rewrite Z.mod_small by apply Z_of_byte_range.
  unfold Z_of_byte. by rewrite N2Z.id, Byte.of_to_N.
Qed.

Lemma Z_of_byte_of_Z z : Z_of_byte (byte_of_Z z) = (z mod 256)%Z.
Proof.
  unfold byte_of_Z. pose proof (Z.mod_pos_bound z 256 ltac:(lia)).
  destruct (Byte.of_N _) as [b|] eqn:E.
  - apply Byte.to_of_N in E. unfold Z_of_byte. rewrite E. lia.
  - apply Byte.of_N_None_iff in E. lia.
Qed.

Lemma Z_of_byte_inj b1 b2 : Z_of_byte b1 = Z_of_byte b2 -> b1 = b2.
Proof. intros H. by rewrite <- (byte_of_Z_of_byte b1), H, byte_of_Z_of_byte. Qed.

(** * Big-endian fixed-width integers

    [be n z] is what [writeUIntBE] leaves in [n] bytes, [unbe] what
    [readUIntBE] reads back. *)

Fixpoint be (n : nat) (z : Z) : bytes :=
  match n with
  | O => []
  | S n' => byte_of_Z (z / 256 ^ Z.of_nat n') :: be n' z
  end.

Fixpoint unbe_acc (acc : Z) (b : bytes) : Z :=
  match b with
  | [] => acc
  | x :: b' => unbe_acc (acc * 256 + Z_of_byte x) b'
  end.

Definition unbe (b : bytes) : Z := unbe_acc 0 b.

Lemma length_be n z : length (be n z) = n.
Proof. induction n; simpl; auto. Qed.

Lemma unbe_acc_be n z acc :
  unbe_acc acc (be n z) = (acc * 256 ^ Z.of_nat n + z mod 256 ^ Z.of_nat n)%Z.
Proof.
  revert acc. induction n as [|n IH]; intros acc; cbn [be unbe_acc].
  - rewrite Z.mod_1_r. lia.
  - rewrite IH, Z_of_byte_of_Z.
    rewrite Nat2Z.inj_succ, Z.pow_succ_r by lia.
    rewrite (Z.mul_comm 256). rewrite Z.rem_mul_r by lia. lia.
Qed.

Lemma unbe_be n z : (0 <= z < 256 ^ Z.of_nat n)%Z -> unbe (be n z) = z.
Proof. intros H. unfold unbe. rewrite unbe_acc_be, Z.mod_small; lia. Qed.

Lemma unbe_acc_split acc b :
  unbe_acc acc b = (acc * 256 ^ Z.of_nat (length b) + unbe_acc 0 b)%Z.
Proof.
  revert acc. induction b as [|x b IH]; intros acc; cbn [unbe_acc length].
  - lia.
  - rewrite IH, (IH (0 * 256 + Z_of_byte x)%Z), Nat2Z.inj_succ, Z.pow_succ_r; lia.
Qed.

Lemma unbe_range b : (0 <= unbe b < 256 ^ Z.of_nat (length b))%Z.
Proof.
  unfold unbe. induction b as [|x b IH]; cbn [unbe_acc length]; [lia|].
  rewrite unbe_acc_split, Nat2Z.inj_succ, Z.pow_succ_r by lia.
  pose proof (Z_of_byte_range x). nia.
Qed.

Lemma be_mod n z : be n (z mod 256 ^ Z.of_nat n) = be n z.
Proof.
  induction n as [|n IH] in z |- *; cbn [be]; [done|].
  rewrite Nat2Z.inj_succ, Z.pow_succ_r by lia.
  assert (0 < 256 ^ Z.of_nat n)%Z by lia.
  f_equal.
  - rewrite (Z.mul_comm 256), Z.rem_mul_r by lia.
    rewrite Z.mul_comm, Z.div_add by lia.
    rewrite (Z.div_small (z mod _)) by (apply Z.mod_pos_bound; lia).
    apply Z_of_byte_inj. rewrite !Z_of_byte_of_Z. by rewrite Z.add_0_l, Zmod_mod.
  - rewrite <- (IH (z mod _)%Z), <- (IH z). f_equal.
    rewrite (Z.mul_comm 256), Z.rem_mul_r by lia.
    rewrite Z.mul_comm, Z_mod_plus_full, Zmod_mod. done.
Qed.

Lemma be_unbe b : be (length b) (unbe b) = b.
Proof.
  unfold unbe. induction b as [|x b IH]; cbn [be unbe_acc length]; [done|].
  rewrite unbe_acc_split. pose proof (unbe_range b) as Hr. unfold unbe in Hr.
  f_equal.
  - rewrite Z.div_add_l by lia. rewrite Z.div_small by lia.
    rewrite Z.mul_0_l, Z.add_0_l, Z.add_0_r. apply byte_of_Z_of_byte.
  - rewrite <- be_mod, Z.add_comm, Z_mod_plus_full, Z.mod_small by lia. done.
Qed.

Lemma be_inj n z1 z2 :
  (0 <= z1 < 256 ^ Z.of_nat n)%Z -> (0 <= z2 < 256 ^ Z.of_nat n)%Z ->
  be n z1 = be n z2 -> z1 = z2.
Proof. intros H1 H2 E. by rewrite <- (unbe_be n z1), E, unbe_be. Qed.

(** * Hexadecimal strings

    [h2b] is [Buffer.from(hex, 'hex')]: pairs of digits, stopping at the first
    pair that is not two hex digits (and dropping a trailing odd digit), and
    [b2h] is [buf.toString('hex')], always lower case. *)

Definition nib (c : Ascii.ascii) : option Z :=
  let n := Z.of_N (Ascii.N_of_ascii c) in
  if bool_decide (48 <= n <= 57)%Z then Some (n - 48)%Z
  else if bool_decide (97 <= n <= 102)%Z then Some (n - 87)%Z
  else if bool_decide (65 <= n <= 70)%Z then Some (n - 55)%Z
  else None.

Definition hex_digit (z : Z) : Ascii.ascii :=
  Ascii.ascii_of_N (Z.to_N (if bool_decide (z < 10)%Z then z + 48 else z + 87)).

Fixpoint h2b (s : string) : bytes :=
  match s with
  | String.String a (String.String b r) =>
      match nib a, nib b with
      | Some x, Some y => byte_of_Z (16 * x + y) :: h2b r
      | _, _ => []
      end
  | _ => []
  end.

Fixpoint b2h (b : bytes) : string :=
  match b with
  | [] => String.EmptyString
  | x :: r =>
      String.String (hex_digit (Z_of_byte x / 16))
        (String.String (hex_digit (Z_of_byte x mod 16)) (b2h r))
  end.

(** A lower-case hex digit, the only kind [toString('hex')] prints. *)
Definition is_lower_hex (c : Ascii.ascii) : bool :=
  match nib c with
  | Some _ => negb (bool_decide (65 <= Z.of_N (Ascii.N_of_ascii c) <= 70)%Z)
  | None => false
  end.

Fixpoint all_lower_hex (s : string) : bool :=
  match s with
  | String.EmptyString => true
  | String.String c r => is_lower_hex c && all_lower_hex r
  end.

(** The hashes and txids the tracker passes around: 64 lower-case digits. *)
Definition is_hash (s : string) : Prop :=
  String.length s = 64 /\ all_lower_hex s = true.

#[global] Instance is_hash_dec s : Decision (is_hash s).
Proof. unfold is_hash. apply _. Defined.

Lemma hex_digit_all (P : Z -> bool) :
  forallb P [0;1;2;3;4;5;6;7;8;9;10;11;12;13;14;15]%Z = true ->
  forall z, (0 <= z < 16)%Z -> P z = true.
Proof.
  intros HP z Hz. rewrite forallb_forall in HP. apply HP. simpl. lia.
Qed.

Lemma nib_hex_digit z : (0 <= z < 16)%Z -> nib (hex_digit z) = Some z.
Proof.
  intros H. apply (bool_decide_eq_true (nib (hex_digit z) = Some z)).
  revert z H. by apply hex_digit_all.
Qed.

Lemma is_lower_hex_digit z : (0 <= z < 16)%Z -> is_lower_hex (hex_digit z) = true.
Proof. revert z. by apply hex_digit_all. Qed.

Lemma nib_lower c z :
  nib c = Some z -> is_lower_hex c = true -> (0 <= z < 16)%Z /\ hex_digit z = c.
Proof.
  unfold is_lower_hex, hex_digit. intros Hn. rewrite Hn. revert Hn. unfold nib.
  intros Hn Hl.
  assert (Hid : Ascii.ascii_of_N (Ascii.N_of_ascii c) = c) by apply Ascii.ascii_N_embedding.
  repeat case_bool_decide; simplify_eq/=; try lia;
    (split; [lia|]); (etransitivity; [|exact Hid]); f_equal; lia.
Qed.

Lemma h2b_b2h b : h2b (b2h b) = b.
Proof.
  induction b as [|x b IH]; cbn [b2h h2b]; [done|].
  pose proof (Z_of_byte_range x).
  rewrite !nib_hex_digit
    by ((split; [apply Z.div_pos; lia | apply Z.div_lt_upper_bound; lia])
        || (apply Z.mod_pos_bound; lia)).
  rewrite IH. f_equal.
  rewrite <- Z.div_mod by lia. apply byte_of_Z_of_byte.
Qed.

Lemma b2h_inj b1 b2 : b2h b1 = b2h b2 -> b1 = b2.
Proof. intros H. by rewrite <- (h2b_b2h b1), H, h2b_b2h. Qed.

Lemma length_append a b : String.length (String.append a b) = String.length a + String.length b.
Proof. induction a as [|c a IH]; [done|]. apply (f_equal S), IH. Qed.

Lemma length_b2h b : String.length (b2h b) = 2 * length b.
Proof. induction b as [|x b IH]; cbn [b2h String.length length]; lia. Qed.

Lemma all_lower_b2h b : all_lower_hex (b2h b) = true.
Proof.
  induction b as [|x b IH]; cbn [b2h all_lower_hex]; [done|].
  pose proof (Z_of_byte_range x).
  rewrite !is_lower_hex_digit, IH; [done| |].
  - apply Z.mod_pos_bound; lia.
  - split; [apply Z.div_pos; lia | apply Z.div_lt_upper_bound; lia].
Qed.

Lemma b2h_is_hash b : length b = 32 -> is_hash (b2h b).
Proof. intros H. split; [rewrite length_b2h; lia | apply all_lower_b2h]. Qed.

Lemma b2h_h2b_aux n s :
  String.length s = 2 * n -> all_lower_hex s = true -> b2h (h2b s) = s /\ length (h2b s) = n.
Proof.
  revert s. induction n as [|n IH]; intros s Hlen Hl.
  - by destruct s.
  - destruct s as [|a [|b r]]; cbn [String.length] in Hlen; try lia.
    cbn [all_lower_hex] in Hl. apply andb_true_iff in Hl as [Ha Hl].
    apply andb_true_iff in Hl as [Hb Hl].
    destruct (nib a) as [x|] eqn:Ea; [|unfold is_lower_hex in Ha; rewrite Ea in Ha; done].
    destruct (nib b) as [y|] eqn:Eb; [|unfold is_lower_hex in Hb; rewrite Eb in Hb; done].
    destruct (IH r) as [IH1 IH2]; [lia|done|].
    apply nib_lower in Ea as [Hx <-]; [|done]. apply nib_lower in Eb as [Hy <-]; [|done].
    cbn [h2b]. rewrite !nib_hex_digit by done. cbn [b2h length]. rewrite IH1, IH2.
    rewrite Z_of_byte_of_Z. rewrite Z.mod_small by lia.
    split; [|done]. do 2 f_equal.
    + replace (16 * x + y)%Z with (x * 16 + y)%Z by lia.
      rewrite Z.div_add_l, Z.div_small; lia.
    + f_equal. replace (16 * x + y)%Z with (y + x * 16)%Z by lia.
      rewrite Z_mod_plus_full, Z.mod_small; lia.
Qed.

Lemma b2h_h2b s : is_hash s -> b2h (h2b s) = s.
Proof. intros [Hl Hx]. by apply (b2h_h2b_aux 32). Qed.

Lemma length_h2b s : is_hash s -> length (h2b s) = 32.
Proof. intros [Hl Hx]. by apply (b2h_h2b_aux 32). Qed.

Lemma h2b_inj s1 s2 : is_hash s1 -> is_hash s2 -> h2b s1 = h2b s2 -> s1 = s2.
Proof. intros H1 H2 E. by rewrite <- (b2h_h2b s1), E, b2h_h2b. Qed.

Lemma is_hash_length s : is_hash s -> String.length s = 64.
Proof. by intros []. Qed.

(** * Numbers as strings

    [to_radix base z] is [z.toString(base)] for an integer, [parseInt] the
    global function of that name on the texts the tracker reads: leading white
    space and a sign are skipped, then the longest run of digits counts, [None]
    being [NaN]. *)

Definition digit_val (base : Z) (c : Ascii.ascii) : option Z :=
  match nib c with
  | Some d => if bool_decide (d < base)%Z then Some d else None
  | None => None
  end.

Fixpoint parse_run (base acc : Z) (seen : bool) (s : string) : option Z :=
  match s with
  | String.EmptyString => if seen then Some acc else None
  | String.String c r =>
      match digit_val base c with
      | Some d => parse_run base (acc * base + d) true r
      | None => if seen then Some acc else None
      end
  end.

Definition is_space (c : Ascii.ascii) : bool :=
  let n := Ascii.N_of_ascii c in
  bool_decide (n = 32 \/ 9 <= n <= 13)%N.

Fixpoint trim_start (s : string) : string :=
  match s with
  | String.String c r => if is_space c then trim_start r else s
  | String.EmptyString => s
  end.

Definition parseInt (s : string) (radix : Z) : option Z :=
  match trim_start s with
  | String.String "-"%char r => Z.opp <$> parse_run radix 0 false r
  | String.String "+"%char r => parse_run radix 0 false r
  | r => parse_run radix 0 false r
  end.

Fixpoint radix_digits (fuel : nat) (base n : Z) (acc : string) : string :=
  match fuel with
  | O => acc
  | S f =>
      let acc' := String.String (hex_digit (n mod base)) acc in
      if bool_decide (n < base)%Z then acc' else radix_digits f base (n / base) acc'
  end.

(** Every digit divides the number by at least two, so as many steps as the
    number has bits (plus one for zero) print all of it. *)
Definition to_radix (base z : Z) : string :=
  let digits n := radix_digits (S (Z.to_nat (Z.log2 n))) base n String.EmptyString in
  if bool_decide (z < 0)%Z then String.String "-"%char (digits (- z)%Z) else digits z.

Lemma digit_val_hex_digit base d :
  (0 <= d < base)%Z -> (base <= 16)%Z -> digit_val base (hex_digit d) = Some d.
Proof.
  intros Hd Hb. unfold digit_val. rewrite nib_hex_digit by lia.
  by rewrite bool_decide_eq_true_2 by lia.
Qed.

Lemma parse_run_digits base fuel n acc b :
  (2 <= base <= 16)%Z -> (0 <= n)%Z -> (n < 2 ^ Z.of_nat fuel)%Z -> (0 < fuel) ->
  parse_run base 0 b (radix_digits fuel base n acc) = parse_run base n true acc.
Proof.
  intros Hb. revert n acc b. induction fuel as [|f IH]; intros n acc b Hn Hlt Hf; [lia|].
  cbn [radix_digits]. pose proof (Z.mod_pos_bound n base ltac:(lia)).
  case_bool_decide.
  - cbn [parse_run]. rewrite digit_val_hex_digit by lia.
    by rewrite Z.mod_small by lia.
  - rewrite Nat2Z.inj_succ, Z.pow_succ_r in Hlt by lia.
    assert (n / base <= n / 2)%Z by (apply Z.div_le_compat_l; lia).
    assert (n / 2 < 2 ^ Z.of_nat f)%Z by (apply Z.div_lt_upper_bound; lia).
    assert (1 <= n / base)%Z by (apply Z.div_le_lower_bound; lia).
    destruct f as [|f]; [cbn in *; lia|].
    rewrite IH by lia.
    cbn [parse_run]. rewrite digit_val_hex_digit by lia.
    f_equal. rewrite Z.mul_comm. symmetry. apply Z.div_mod. lia.
Qed.

Lemma is_space_hex_digit d : (0 <= d < 16)%Z -> is_space (hex_digit d) = false.
Proof.
  intros Hd. apply negb_true_iff. revert d Hd.
  by apply (hex_digit_all (fun d => negb (is_space (hex_digit d)))).
Qed.

Lemma radix_digits_head fuel base n acc :
  (2 <= base <= 16)%Z -> (0 < fuel) ->
  exists d r, (0 <= d < 16)%Z /\ radix_digits fuel base n acc = String.String (hex_digit d) r.
Proof.
  intros Hb. revert n acc. induction fuel as [|f IH]; intros n acc Hf; [lia|].
  cbn [radix_digits]. pose proof (Z.mod_pos_bound n base ltac:(lia)).
  case_bool_decide; [by exists (n mod base)%Z, acc; split; [lia|]|].
  destruct f as [|f]; [|by apply IH; lia].
  exists (n mod base)%Z, acc. split; [lia|done].
Qed.

Lemma parseInt_to_radix base z :
  (2 <= base <= 16)%Z -> parseInt (to_radix base z) base = Some z.
Proof.
  intros Hb. unfold to_radix.
  assert (Hfuel : forall n, (0 <= n)%Z -> (n < 2 ^ Z.of_nat (S (Z.to_nat (Z.log2 n))))%Z).
  { intros n Hn. rewrite Nat2Z.inj_succ, Z2Nat.id by apply Z.log2_nonneg.
    destruct (decide (n = 0)%Z) as [->|]; [done|]. apply Z.log2_spec. lia. }
  case_bool_decide as Hz.
  - unfold parseInt. cbn [trim_start].
    replace (is_space "-"%char) with false by (vm_compute; done). cbv iota.
    rewrite parse_run_digits by (try apply Hfuel; lia). cbn. f_equal. lia.
  - set (f := S _).
    destruct (radix_digits_head f base z "" Hb) as (d & r & Hd & E); [lia|].
    assert (Hp : parse_run base 0 false (radix_digits f base z "") = Some z)
      by (rewrite parse_run_digits by (try apply Hfuel; lia); done).
    rewrite E in Hp |- *. unfold parseInt, trim_start.
    pose proof (is_space_hex_digit d Hd) as Hsp.
    rewrite Hsp.
    assert (Hdash : forall c, nib c = None -> hex_digit d <> c)
      by (intros c Hc Heq; rewrite <- Heq, nib_hex_digit in Hc by done; done).
    pose proof (Hdash "-"%char eq_refl). pose proof (Hdash "+"%char eq_refl).
    repeat case_match; simplify_eq; done.
Qed.

(** * Filters *)

Lemma filter_ext_elem {A} (P Q : A -> Prop) `{!forall x, Decision (P x)} `{!forall x, Decision (Q x)} (l : list A) :
  (forall x, x ∈ l -> P x <-> Q x) -> filter P l = filter Q l.
Proof.
  induction l as [|x l IH]; intros Hl; [done|]. rewrite !filter_cons.
  rewrite IH by (intros y Hy; apply Hl; by right). pose proof (Hl x ltac:(by left)).
  repeat case_decide; naive_solver.
Qed.

Lemma filter_id {A} (P : A -> Prop) `{!forall x, Decision (P x)} (l : list A) :
  (forall x, x ∈ l -> P x) -> filter P l = l.
Proof.
  induction l as [|x l IH]; intros Hl; [done|]. rewrite filter_cons_True by (apply Hl; by left).
  f_equal. apply IH. intros y Hy. apply Hl. by right.
Qed.

Lemma filter_none {A} (P : A -> Prop) `{!forall x, Decision (P x)} (l : list A) :
  (forall x, x ∈ l -> ~ P x) -> filter P l = [].
Proof.
  induction l as [|x l IH]; intros Hl; [done|]. rewrite filter_cons_False by (apply Hl; by left).
  apply IH. intros y Hy. apply Hl. by right.
Qed.

(** * Latin-1 strings

    [buf.toString('latin1')] and its inverse [Buffer.from(s, 'latin1')]: one
    character per byte. *)

Fixpoint to_latin1 (b : bytes) : string :=
  match b with
  | [] => String.EmptyString
  | x :: r => String.String (Ascii.ascii_of_byte x) (to_latin1 r)
  end.

Fixpoint from_latin1 (s : string) : bytes :=
  match s with
  | String.EmptyString => []
  | String.String c r => Ascii.byte_of_ascii c :: from_latin1 r
  end.

Lemma from_to_latin1 b : from_latin1 (to_latin1 b) = b.
Proof.
  induction b as [|x b IH]; cbn [from_latin1 to_latin1]; [done|].
  by rewrite Ascii.byte_of_ascii_of_byte, IH.
Qed.

Lemma to_from_latin1 s : to_latin1 (from_latin1 s) = s.
Proof.
  induction s as [|c s IH]; cbn [from_latin1 to_latin1]; [done|].
  by rewrite Ascii.ascii_of_byte_of_ascii, IH.
Qed.

(** * Buffers

    [buf_write buf off src] is [buf.write(src, off)] and [src.copy(buf, off)]:
    the bytes land at [off], what does not fit is dropped, the rest of the
    buffer keeps what it held. *)

Definition buf_write (buf : bytes) (off : nat) (src : bytes) : bytes :=
  take off buf ++ take (length buf - off) src ++ drop (off + length src) buf.

(** [buf.slice(a, b)]. *)
Definition slice (a b : nat) (buf : bytes) : bytes := take (b - a) (drop a buf).

Lemma length_buf_write buf off src : length (buf_write buf off src) = length buf.
Proof.
  unfold buf_write. rewrite !length_app, !length_take, length_drop. lia.
Qed.

Lemma buf_write_fill pre old src rest :
  length old = length src ->
  buf_write (pre ++ old ++ rest) (length pre) src = pre ++ src ++ rest.
Proof.
  intros H. unfold buf_write. rewrite take_app_length.
  rewrite (take_ge src) by (rewrite !length_app; lia).
  replace (length pre + length src) with (length (pre ++ old)) by (rewrite length_app; lia).
  by rewrite (app_assoc pre old), drop_app_length.
Qed.

(** Node's own library, as far as the tracker relies on it: [allocUnsafe] hands
    out a buffer of the asked size with unspecified content, SHA-256 a 32-byte
    digest. *)
Class Node := {
  allocUnsafe : nat -> bytes;
  length_allocUnsafe : forall n, length (allocUnsafe n) = n;
  sha256 : bytes -> bytes;
  length_sha256 : forall b, length (sha256 b) = 32;
}.

(** * Errors

    A thrown JS [Error]: what it says, and the own properties the tracker's
    handlers test. *)

Inductive err_kind :=
  | EWidth (builder field : string)
  | ERange
  | EMissingOutput (txid : string) (vout : Z)
  | EMissingOutputHint (txid : string) (vout : Z)
  | EUnknownTransactionType
  | EBatch
  | EAddressTooLarge (maxOutputs : Z)
  | EInvalidCursor
  | EBadRequest
  | ELayout
  | ERpc (code : option string) (response : option (option Z))
  | EMsg (s : string).

Record js_error := mkError {
  e_kind : err_kind;
  e_unrecoverableReorg : bool;
  e_tipBelowCommittedTip : bool;
  e_auxPowParseFailure : bool;
}.

(** [new Error(...)], with none of the tags set. *)
Definition Error (k : err_kind) : js_error := mkError k false false false.

(** * Results and the state monad

    [M S A] is a JS function body over the mutable state [S]: it returns or
    throws, and a throw keeps every mutation made before it. *)

Inductive res (A : Type) :=
  | Ok (a : A)
  | Err (e : js_error).
Arguments Ok {_} _.
Arguments Err {_} _.

Definition M (S A : Type) : Type := S -> res A * S.

#[global] Instance res_ret : MRet res := fun A a => Ok a.
#[global] Instance res_bind : MBind res :=
  fun A B f m => match m with Ok a => f a | Err e => Err e end.

#[global] Instance M_ret S : MRet (M S) := fun A a s => (Ok a, s).
#[global] Instance M_bind S : MBind (M S) :=
  fun A B f m s => match m s with (Ok a, s') => f a s' | (Err e, s') => (Err e, s') end.

Definition throw {S A} (e : js_error) : M S A := fun s => (Err e, s).
Definition get {S} : M S S := fun s => (Ok s, s).
Definition gets {S A} (f : S -> A) : M S A := fun s => (Ok (f s), s).
Definition modify {S} (f : S -> S) : M S unit := fun s => (Ok tt, f s).
Definition lift_res {S A} (r : res A) : M S A := fun s => (r, s).
Definition when {S} (b : bool) (m : M S unit) : M S unit := if b then m else mret tt.

(** [try { m } catch (err) { h err }]. *)
Definition try_catch {S A} (m : M S A) (h : js_error -> M S A) : M S A :=
  fun s => match m s with (Ok a, s') => (Ok a, s') | (Err e, s') => h e s' end.

(** [for (const x of l) f(x)]. *)
Fixpoint forM {S A} (l : list A) (f : A -> M S unit) : M S unit :=
  match l with
  | [] => mret tt
  | x :: l' => _ ← f x; forM l' f
  end.

(** [for (const x of l) out.push(f(x))]. *)
Fixpoint mapM_list {S A B} (l : list A) (f : A -> M S B) : M S (list B) :=
  match l with
  | [] => mret []
  | x :: l' => y ← f x; ys ← mapM_list l' f; mret (y :: ys)
  end.

Section monad_run.
Context {S A B : Type}.

Lemma run_bind_ok (m : M S A) (f : A -> M S B) s a s' :
  m s = (Ok a, s') -> (m ≫= f) s = f a s'.
Proof. intros E. unfold mbind, M_bind. by rewrite E. Qed.

Lemma run_bind_err (m : M S A) (f : A -> M S B) s e s' :
  m s = (Err e, s') -> (m ≫= f) s = (Err e, s').
Proof. intros E. unfold mbind, M_bind. by rewrite E. Qed.

Lemma run_bind_inv (m : M S A) (f : A -> M S B) s b s' :
  (m ≫= f) s = (Ok b, s') -> exists a s1, m s = (Ok a, s1) /\ f a s1 = (Ok b, s').
Proof.
  unfold mbind, M_bind. destruct (m s) as [[a|e] s1]; [by eauto | done].
Qed.

Lemma run_forM_app (l1 l2 : list A) (f : A -> M S unit) s s1 :
  forM l1 f s = (Ok tt, s1) -> forM (l1 ++ l2) f s = forM l2 f s1.
Proof.
  revert s. induction l1 as [|x l1 IH]; intros s; cbn [forM app].
  - intros [= ->]. done.
  - unfold mbind, M_bind. destruct (f x s) as [[[]|e] s2]; [apply IH | done].
Qed.
End monad_run.

(** * Tactics *)

(** Runs one monadic step whose outcome is known from [H]. *)
Ltac run_ok H := rewrite (run_bind_ok _ _ _ _ _ H).
