(* ===== verification/KeyCodec.v ===== *)
(** The key schema of the store ([src/store/level_up_db/key_codec.js] and the
    constants it takes from [constants.js]): the builders of the binary keys
    with their width guards, the upper bound of a prefix scan, and the pagination
    cursor.  [key] is the schema itself, one constructor per record type, and
    [enc] its byte layout; the theorems tie every builder to it. *)

From S2P Require Import Prelude.

#[local] Open Scope string_scope.
#[local] Open Scope nat_scope.
#[local] Open Scope list_scope.

(** * Constants *)

Definition P_BLOCK : byte := x42.
Definition P_TX : byte := x54.
Definition P_INPUT : byte := x49.
Definition P_OUTPUT : byte := x4f.
Definition P_OUT_HINT : byte := x48.
Definition P_IN_HINT : byte := x4a.
Definition P_SCRIPT_BLK : byte := x53.
Definition P_BLK_SCRIPT : byte := x5a.
Definition P_OUT_DEL : byte := x4b.
Definition P_HINT_DEL : byte := x4d.
Definition P_STORED_BLK : byte := x4e.
Definition P_OUT_BLK : byte := x57.
Definition P_TX_EXACT : byte := x58.
Definition P_TX_BLOCK_RECOVERY : byte := x59.

(** [Buffer.from("...")] of an ASCII text. *)
Definition PREFIX_LAST_BLOCK_HEIGHT : bytes := from_latin1 "LAST_BLOCK_HEIGHT".
Definition PREFIX_LAST_BLOCK_HASH : bytes := from_latin1 "LAST_BLOCK_HASH".
Definition PREFIX_LAYOUT_VERSION : bytes := from_latin1 "LAYOUT_VERSION".

(** Single-byte records: the pending-cleanup list and the undo watermark of the
    tracker, the halt marker of the store. *)
Definition P_PENDING_CLEANUP_KEY : bytes := [x50].
Definition Q_UNDO_WATERMARK_KEY : bytes := [x51].
Definition HALT_MARKER_KEY : bytes := [x52].

(** * Helpers *)

Definition pb (p : byte) : bytes := [p].

(** [n >>> 0]. *)
Definition ushr0 (n : Z) : Z := (n mod 4294967296)%Z.

Definition idxBuf (n : Z) : bytes := be 4 (ushr0 n).

Definition MAX_KEY_LEN : nat := 101.

Definition rangeEnd (prefix : bytes) : bytes :=
  prefix ++ replicate (Nat.max 64 (MAX_KEY_LEN - length prefix)) xff.

Definition toMapKey (key : bytes) : string := to_latin1 key.

(** * The pagination cursor *)

(** [s.indexOf(':')], then the two slices around it. *)
Fixpoint split_colon (s : string) : option (string * string) :=
  match s with
  | String.EmptyString => None
  | String.String c r =>
      if bool_decide (c = ":"%char) then Some (String.EmptyString, r)
      else '(a, b) ← split_colon r; Some (String.String c a, b)
  end.

Fixpoint all_hex (s : string) : bool :=
  match s with
  | String.EmptyString => true
  | String.String c r => bool_decide (is_Some (nib c)) && all_hex r
  end.

Fixpoint all_digits (s : string) : bool :=
  match s with
  | String.EmptyString => true
  | String.String c r => bool_decide (is_Some (digit_val 10 c)) && all_digits r
  end.

Definition lower (c : Ascii.ascii) : Ascii.ascii :=
  let n := Ascii.N_of_ascii c in
  if bool_decide (65 <= n <= 90)%N then Ascii.ascii_of_N (n + 32) else c.

Fixpoint toLowerCase (s : string) : string :=
  match s with
  | String.EmptyString => String.EmptyString
  | String.String c r => String.String (lower c) (toLowerCase r)
  end.

(** [None] for the argument is a value that is not a string. *)
Definition parseOutputCursor (cursor : option string) : option (string * Z) :=
  match cursor with
  | None => None
  | Some cursor =>
      match split_colon cursor with
      | None => None
      | Some (txidHex, voutStr) =>
          if bool_decide (txidHex = "") then None
          else if negb (bool_decide (String.length txidHex = 64) && all_hex txidHex) then None
          else if negb (bool_decide (voutStr <> "") && all_digits voutStr) then None
          else match parse_run 10 0 false voutStr with
               | None => None
               | Some vout =>
                   if bool_decide (vout < 0 \/ 4294967295 < vout)%Z then None
                   else Some (toLowerCase txidHex, vout)
               end
      end
  end.

(** What [nextPageCursor] prints: [txid + ':' + vout]. *)
Definition print_cursor (txid : string) (vout : Z) : string :=
  String.append txid (String.append ":" (to_radix 10 vout)).

(** * Key constructors

    Each builder takes its buffer from [allocUnsafe], so a field that is not
    written would keep whatever that memory held. *)

Section builders.
Context {node : Node}.

Definition width_error (builder field : string) : js_error := Error (EWidth builder field).

(** [if (hex.length !== 64) throw ...]. *)
Definition guard64 (builder field hex : string) : res unit :=
  if bool_decide (String.length hex = 64) then Ok tt else Err (width_error builder field).

Definition assertTxid (builder field hex : string) : res unit := guard64 builder field hex.

(** [if (buf.length !== 32) throw ...]. *)
Definition guard32 (builder field : string) (b : bytes) : res unit :=
  if bool_decide (length b = 32) then Ok tt else Err (width_error builder field).

Definition write_hex (buf : bytes) (off : nat) (hex : string) : bytes :=
  buf_write buf off (h2b hex).

Definition writeUInt32BE (buf : bytes) (off : nat) (n : Z) : bytes :=
  buf_write buf off (be 4 (ushr0 n)).

(** A fresh [n]-byte buffer with [buf[0] = p]. *)
Definition alloc_prefixed (n : nat) (p : byte) : bytes := buf_write (allocUnsafe n) 0 [p].

Definition kBlock (blockHashHex : string) : res bytes :=
  _ ← guard64 "kBlock" "blockHash" blockHashHex;
  let buf := alloc_prefixed 33 P_BLOCK in
  Ok (write_hex buf 1 blockHashHex).

Definition kTx (txidHex : string) : res bytes :=
  _ ← assertTxid "kTx" "txid" txidHex;
  let buf := alloc_prefixed 33 P_TX in
  Ok (write_hex buf 1 txidHex).

Definition kInput (prevTxidHex : string) (idx : Z) : res bytes :=
  _ ← assertTxid "kInput" "prevTxid" prevTxidHex;
  let buf := alloc_prefixed 37 P_INPUT in
  let buf := write_hex buf 1 prevTxidHex in
  Ok (writeUInt32BE buf 33 idx).

Definition kOutput (scriptHex txidHex : string) (idx : Z) : res bytes :=
  _ ← guard64 "kOutput" "scriptPubKey" scriptHex;
  _ ← assertTxid "kOutput" "txid" txidHex;
  let buf := alloc_prefixed 69 P_OUTPUT in
  let buf := write_hex buf 1 scriptHex in
  let buf := write_hex buf 33 txidHex in
  Ok (writeUInt32BE buf 65 idx).

Definition kOutHint (txidHex : string) (idx : Z) : res bytes :=
  _ ← assertTxid "kOutHint" "txid" txidHex;
  let buf := alloc_prefixed 37 P_OUT_HINT in
  let buf := write_hex buf 1 txidHex in
  Ok (writeUInt32BE buf 33 idx).

Definition kInHint (txidHex prevTxidHex : string) (idx : Z) : res bytes :=
  _ ← assertTxid "kInHint" "txid" txidHex;
  _ ← assertTxid "kInHint" "prevTxid" prevTxidHex;
  let buf := alloc_prefixed 69 P_IN_HINT in
  let buf := write_hex buf 1 txidHex in
  let buf := write_hex buf 33 prevTxidHex in
  Ok (writeUInt32BE buf 65 idx).

Definition kScriptBlk (scriptHex : string) : res bytes :=
  _ ← guard64 "kScriptBlk" "scriptPubKey" scriptHex;
  let buf := alloc_prefixed 33 P_SCRIPT_BLK in
  Ok (write_hex buf 1 scriptHex).

Definition kScriptBlkFromBuf (scriptBuf : bytes) : res bytes :=
  _ ← guard32 "kScriptBlkFromBuf" "scriptPubKey" scriptBuf;
  let buf := alloc_prefixed 33 P_SCRIPT_BLK in
  Ok (buf_write buf 1 (take 32 scriptBuf)).

Definition kBlkScript (blockHashHex scriptHex : string) : res bytes :=
  _ ← guard64 "kBlkScript" "blockHash" blockHashHex;
  _ ← guard64 "kBlkScript" "scriptPubKey" scriptHex;
  let buf := alloc_prefixed 65 P_BLK_SCRIPT in
  let buf := write_hex buf 1 blockHashHex in
  Ok (write_hex buf 33 scriptHex).

Definition kBlkScriptFromBuf (blockHashHex : string) (scriptBuf : bytes) : res bytes :=
  _ ← guard64 "kBlkScriptFromBuf" "blockHash" blockHashHex;
  _ ← guard32 "kBlkScriptFromBuf" "scriptPubKey" scriptBuf;
  let buf := alloc_prefixed 65 P_BLK_SCRIPT in
  let buf := write_hex buf 1 blockHashHex in
  Ok (buf_write buf 33 (take 32 scriptBuf)).

Definition kOutDel (blockHashHex scriptHex txidHex : string) (idx : Z) : res bytes :=
  _ ← guard64 "kOutDel" "blockHash" blockHashHex;
  _ ← guard64 "kOutDel" "scriptPubKey" scriptHex;
  _ ← assertTxid "kOutDel" "txid" txidHex;
  let buf := alloc_prefixed 101 P_OUT_DEL in
  let buf := write_hex buf 1 blockHashHex in
  let buf := write_hex buf 33 scriptHex in
  let buf := write_hex buf 65 txidHex in
  Ok (writeUInt32BE buf 97 idx).

Definition kHintDel (blockHashHex txidHex : string) (idx : Z) : res bytes :=
  _ ← guard64 "kHintDel" "blockHash" blockHashHex;
  _ ← assertTxid "kHintDel" "txid" txidHex;
  let buf := alloc_prefixed 69 P_HINT_DEL in
  let buf := write_hex buf 1 blockHashHex in
  let buf := write_hex buf 33 txidHex in
  Ok (writeUInt32BE buf 65 idx).

Definition kStoredBlk (blockHashHex : string) : res bytes :=
  _ ← guard64 "kStoredBlk" "blockHash" blockHashHex;
  let buf := alloc_prefixed 33 P_STORED_BLK in
  Ok (write_hex buf 1 blockHashHex).

Definition kOutBlk (blockHashHex txidHex : string) (idx : Z) : res bytes :=
  _ ← guard64 "kOutBlk" "blockHash" blockHashHex;
  _ ← assertTxid "kOutBlk" "txid" txidHex;
  let buf := alloc_prefixed 69 P_OUT_BLK in
  let buf := write_hex buf 1 blockHashHex in
  let buf := write_hex buf 33 txidHex in
  Ok (writeUInt32BE buf 65 idx).

Definition kTxExact (txidHex : string) : res bytes :=
  _ ← guard64 "kTxExact" "txid" txidHex;
  let buf := alloc_prefixed 33 P_TX_EXACT in
  Ok (write_hex buf 1 txidHex).

Definition kTxBlockRecovery (blockHashHex txidHex : string) : res bytes :=
  _ ← guard64 "kTxBlockRecovery" "blockHash" blockHashHex;
  _ ← assertTxid "kTxBlockRecovery" "txid" txidHex;
  let buf := alloc_prefixed 65 P_TX_BLOCK_RECOVERY in
  let buf := write_hex buf 1 blockHashHex in
  Ok (write_hex buf 33 txidHex).

Definition kOutputFromBuf (scriptPubKeyBuf : bytes) (txidHex : string) (idx : Z) : res bytes :=
  _ ← guard32 "kOutputFromBuf" "scriptPubKey" scriptPubKeyBuf;
  _ ← assertTxid "kOutputFromBuf" "txid" txidHex;
  let buf := alloc_prefixed 69 P_OUTPUT in
  let buf := buf_write buf 1 (take 32 scriptPubKeyBuf) in
  let buf := write_hex buf 33 txidHex in
  Ok (writeUInt32BE buf 65 idx).

Definition kOutDelFromBuf (blockHashHex : string) (scriptPubKeyBuf : bytes)
    (txidHex : string) (idx : Z) : res bytes :=
  _ ← guard64 "kOutDelFromBuf" "blockHash" blockHashHex;
  _ ← guard32 "kOutDelFromBuf" "scriptPubKey" scriptPubKeyBuf;
  _ ← assertTxid "kOutDelFromBuf" "txid" txidHex;
  let buf := alloc_prefixed 101 P_OUT_DEL in
  let buf := write_hex buf 1 blockHashHex in
  let buf := buf_write buf 33 (take 32 scriptPubKeyBuf) in
  let buf := write_hex buf 65 txidHex in
  Ok (writeUInt32BE buf 97 idx).
End builders.

(** * The schema

    One constructor per record type of the store, with its fields as raw
    bytes, and [enc] the byte layout of the header of [level_up_db.js]. *)

Inductive meta_key :=
  | LAST_BLOCK_HEIGHT | LAST_BLOCK_HASH | LAYOUT_VERSION
  | PENDING_CLEANUP | UNDO_WATERMARK | HALT_MARKER.

Inductive key :=
  | KBlock (bh : bytes)
  | KTx (t : bytes)
  | KInput (t : bytes) (i : Z)
  | KOutput (sh t : bytes) (i : Z)
  | KOutHint (t : bytes) (i : Z)
  | KInHint (t pt : bytes) (i : Z)
  | KScriptBlk (sh : bytes)
  | KBlkScript (bh sh : bytes)
  | KOutDel (bh sh t : bytes) (i : Z)
  | KHintDel (bh t : bytes) (i : Z)
  | KStoredBlk (bh : bytes)
  | KOutBlk (bh t : bytes) (i : Z)
  | KTxExact (t : bytes)
  | KTxBlockRecovery (bh t : bytes)
  | KMeta (m : meta_key).

#[global] Instance meta_key_eq_dec : EqDecision meta_key.
Proof. solve_decision. Defined.

#[global] Instance key_eq_dec : EqDecision key.
Proof. solve_decision. Defined.

Definition enc_meta (m : meta_key) : bytes :=
  match m with
  | LAST_BLOCK_HEIGHT => PREFIX_LAST_BLOCK_HEIGHT
  | LAST_BLOCK_HASH => PREFIX_LAST_BLOCK_HASH
  | LAYOUT_VERSION => PREFIX_LAYOUT_VERSION
  | PENDING_CLEANUP => P_PENDING_CLEANUP_KEY
  | UNDO_WATERMARK => Q_UNDO_WATERMARK_KEY
  | HALT_MARKER => HALT_MARKER_KEY
  end.

Definition enc (k : key) : bytes :=
  match k with
  | KBlock bh => [P_BLOCK] ++ bh
  | KTx t => [P_TX] ++ t
  | KInput t i => [P_INPUT] ++ t ++ be 4 i
  | KOutput sh t i => [P_OUTPUT] ++ sh ++ t ++ be 4 i
  | KOutHint t i => [P_OUT_HINT] ++ t ++ be 4 i
  | KInHint t pt i => [P_IN_HINT] ++ t ++ pt ++ be 4 i
  | KScriptBlk sh => [P_SCRIPT_BLK] ++ sh
  | KBlkScript bh sh => [P_BLK_SCRIPT] ++ bh ++ sh
  | KOutDel bh sh t i => [P_OUT_DEL] ++ bh ++ sh ++ t ++ be 4 i
  | KHintDel bh t i => [P_HINT_DEL] ++ bh ++ t ++ be 4 i
  | KStoredBlk bh => [P_STORED_BLK] ++ bh
  | KOutBlk bh t i => [P_OUT_BLK] ++ bh ++ t ++ be 4 i
  | KTxExact t => [P_TX_EXACT] ++ t
  | KTxBlockRecovery bh t => [P_TX_BLOCK_RECOVERY] ++ bh ++ t
  | KMeta m => enc_meta m
  end.

Definition hash32 (b : bytes) : Prop := length b = 32.
Definition u32 (i : Z) : Prop := (0 <= i < 4294967296)%Z.

#[global] Instance hash32_dec b : Decision (hash32 b).
Proof. unfold hash32. apply _. Defined.
#[global] Instance u32_dec i : Decision (u32 i).
Proof. unfold u32. apply _. Defined.

Definition wf_key (k : key) : Prop :=
  match k with
  | KBlock h | KTx h | KScriptBlk h | KStoredBlk h | KTxExact h => hash32 h
  | KInput t i | KOutHint t i => hash32 t /\ u32 i
  | KOutput a b i | KInHint a b i | KHintDel a b i | KOutBlk a b i =>
      hash32 a /\ hash32 b /\ u32 i
  | KBlkScript a b | KTxBlockRecovery a b => hash32 a /\ hash32 b
  | KOutDel a b c i => hash32 a /\ hash32 b /\ hash32 c /\ u32 i
  | KMeta _ => True
  end.

#[global] Instance wf_key_dec k : Decision (wf_key k).
Proof. destruct k; simpl; apply _. Defined.

(** * Facts about the layout *)

Lemma h2b_hash32 s : is_hash s -> hash32 (h2b s).
Proof. apply length_h2b. Qed.

Lemma ushr0_u32 n : u32 (ushr0 n).
Proof. unfold u32, ushr0. apply Z.mod_pos_bound. lia. Qed.

Lemma ushr0_id n : u32 n -> ushr0 n = n.
Proof. unfold u32, ushr0. intros. by apply Z.mod_small. Qed.

Lemma be4_inj i j : u32 i -> u32 j -> be 4 i = be 4 j -> i = j.
Proof. intros Hi Hj. by apply be_inj. Qed.

Lemma unbe_be4 i : u32 i -> unbe (be 4 i) = i.
Proof. intros Hi. by apply unbe_be. Qed.

Create HintDb store_keys.
#[export] Hint Resolve h2b_hash32 ushr0_u32 length_h2b length_be : store_keys.

Lemma length_enc k : wf_key k -> length (enc k) <= MAX_KEY_LEN.
Proof.
  unfold MAX_KEY_LEN, hash32.
  destruct k as [| | | | | | | | | | | | | |[]]; cbn [wf_key enc];
    unfold hash32; intros H; destruct_and?; rewrite ?length_app, ?length_be;
    cbn; lia.
Qed.

Lemma app_inj_32 (a b c d : bytes) :
  a ++ b = c ++ d -> hash32 a -> hash32 c -> a = c /\ b = d.
Proof. unfold hash32. intros E Ha Hc. apply app_inj_1 in E; [done|lia]. Qed.

(** Splits an equation between two concatenations of 32-byte fields. *)
Ltac split_fields :=
  repeat match goal with
  | H : hash32 ?a, H' : hash32 ?c, E : ?a ++ _ = ?c ++ _ |- _ =>
      apply app_inj_32 in E as [? E]; [|exact H|exact H']
  | E : be 4 _ = be 4 _ |- _ => apply be4_inj in E; [|done|done]
  end.

(** The schema is unambiguous: two well-formed keys with the same bytes are the
    same record of the same type. *)
Lemma enc_inj k1 k2 : wf_key k1 -> wf_key k2 -> enc k1 = enc k2 -> k1 = k2.
Proof.
  intros H1 H2 E.
  destruct k1 as [| | | | | | | | | | | | | |m1], k2 as [| | | | | | | | | | | | | |m2];
    try (destruct m1); try (destruct m2); cbn [enc] in E; try discriminate E; try done;
    cbn [wf_key] in *; destruct_and?; apply (f_equal tail) in E;
    cbn [tail app] in E; split_fields; congruence.
Qed.

(** * The builders implement the schema *)

Section builder_facts.
Context {node : Node}.

Lemma alloc_prefixed_split n p :
  exists r, alloc_prefixed (S n) p = [p] ++ r /\ length r = n.
Proof.
  unfold alloc_prefixed, buf_write. pose proof (length_allocUnsafe (S n)) as Hl.
  destruct (allocUnsafe (S n)) as [|x r]; [done|].
  exists r. cbn in *. rewrite take_nil. split; [done | lia].
Qed.

(** Writing fields one right after the other. *)
Fixpoint fill (buf : bytes) (off : nat) (fields : list bytes) : bytes :=
  match fields with
  | [] => buf
  | f :: fs => fill (buf_write buf off f) (off + length f) fs
  end.

Lemma fill_spec fields pre r :
  length r = length (concat fields) ->
  fill (pre ++ r) (length pre) fields = pre ++ concat fields.
Proof.
  revert pre r. induction fields as [|f fs IH]; intros pre r Hr; cbn [fill concat] in *.
  - apply nil_length_inv in Hr as ->. done.
  - rewrite length_app in Hr.
    rewrite <- (take_drop (length f) r), buf_write_fill by (rewrite length_take; lia).
    rewrite !app_assoc, <- length_app. apply IH. rewrite length_drop. lia.
Qed.

Lemma alloc_fill n p fields :
  n = S (length (concat fields)) ->
  fill (alloc_prefixed n p) 1 fields = [p] ++ concat fields.
Proof.
  intros ->. destruct (alloc_prefixed_split (length (concat fields)) p) as (r & -> & Hr).
  by apply (fill_spec fields [p]).
Qed.

Lemma guard64_ok b f s : is_hash s -> guard64 b f s = Ok tt.
Proof. intros [H _]. unfold guard64. by rewrite bool_decide_eq_true_2. Qed.

Lemma guard32_ok b f s : hash32 s -> guard32 b f s = Ok tt.
Proof. intros H. unfold guard32. by rewrite bool_decide_eq_true_2. Qed.

Lemma take32 b : hash32 b -> take 32 b = b.
Proof. intros H. apply take_ge. unfold hash32 in H. lia. Qed.

Ltac build fields :=
  repeat rewrite guard64_ok by done; repeat rewrite guard32_ok by done;
  cbn [mbind res_bind]; unfold write_hex, writeUInt32BE; f_equal;
  rewrite ?take32 by done;
  lazymatch goal with
  | |- context [alloc_prefixed ?n ?p] =>
      let H := fresh "H" in
      pose proof (alloc_fill n p fields) as H;
      cbn [fill concat] in H; unfold hash32 in *;
      rewrite ?length_app, ?length_be, ?length_h2b, ?app_nil_r in H by done;
      repeat match goal with Hl : length _ = 32 |- _ => rewrite !Hl in H; clear Hl end;
      apply H; reflexivity
  end.

Lemma kBlock_ok h : is_hash h -> kBlock h = Ok (enc (KBlock (h2b h))).
Proof. intros. unfold kBlock. build [h2b h]. Qed.

Lemma kTx_ok t : is_hash t -> kTx t = Ok (enc (KTx (h2b t))).
Proof. intros. unfold kTx, assertTxid. build [h2b t]. Qed.

Lemma kInput_ok t i : is_hash t -> kInput t i = Ok (enc (KInput (h2b t) (ushr0 i))).
Proof. intros. unfold kInput, assertTxid. build [h2b t; be 4 (ushr0 i)]. Qed.

Lemma kOutput_ok sh t i :
  is_hash sh -> is_hash t ->
  kOutput sh t i = Ok (enc (KOutput (h2b sh) (h2b t) (ushr0 i))).
Proof. intros. unfold kOutput, assertTxid. build [h2b sh; h2b t; be 4 (ushr0 i)]. Qed.

Lemma kOutHint_ok t i : is_hash t -> kOutHint t i = Ok (enc (KOutHint (h2b t) (ushr0 i))).
Proof. intros. unfold kOutHint, assertTxid. build [h2b t; be 4 (ushr0 i)]. Qed.

Lemma kInHint_ok t pt i :
  is_hash t -> is_hash pt ->
  kInHint t pt i = Ok (enc (KInHint (h2b t) (h2b pt) (ushr0 i))).
Proof. intros. unfold kInHint, assertTxid. build [h2b t; h2b pt; be 4 (ushr0 i)]. Qed.

Lemma kScriptBlk_ok sh : is_hash sh -> kScriptBlk sh = Ok (enc (KScriptBlk (h2b sh))).
Proof. intros. unfold kScriptBlk. build [h2b sh]. Qed.

Lemma kScriptBlkFromBuf_ok sh : hash32 sh -> kScriptBlkFromBuf sh = Ok (enc (KScriptBlk sh)).
Proof. intros. unfold kScriptBlkFromBuf. build [sh]. Qed.

Lemma kBlkScript_ok bh sh :
  is_hash bh -> is_hash sh -> kBlkScript bh sh = Ok (enc (KBlkScript (h2b bh) (h2b sh))).
Proof. intros. unfold kBlkScript. build [h2b bh; h2b sh]. Qed.

Lemma kBlkScriptFromBuf_ok bh sh :
  is_hash bh -> hash32 sh -> kBlkScriptFromBuf bh sh = Ok (enc (KBlkScript (h2b bh) sh)).
Proof. intros. unfold kBlkScriptFromBuf. build [h2b bh; sh]. Qed.

Lemma kOutDel_ok bh sh t i :
  is_hash bh -> is_hash sh -> is_hash t ->
  kOutDel bh sh t i = Ok (enc (KOutDel (h2b bh) (h2b sh) (h2b t) (ushr0 i))).
Proof.
  intros. unfold kOutDel, assertTxid. build [h2b bh; h2b sh; h2b t; be 4 (ushr0 i)].
Qed.

Lemma kHintDel_ok bh t i :
  is_hash bh -> is_hash t ->
  kHintDel bh t i = Ok (enc (KHintDel (h2b bh) (h2b t) (ushr0 i))).
Proof. intros. unfold kHintDel, assertTxid. build [h2b bh; h2b t; be 4 (ushr0 i)]. Qed.

Lemma kStoredBlk_ok h : is_hash h -> kStoredBlk h = Ok (enc (KStoredBlk (h2b h))).
Proof. intros. unfold kStoredBlk. build [h2b h]. Qed.

Lemma kOutBlk_ok bh t i :
  is_hash bh -> is_hash t ->
  kOutBlk bh t i = Ok (enc (KOutBlk (h2b bh) (h2b t) (ushr0 i))).
Proof. intros. unfold kOutBlk, assertTxid. build [h2b bh; h2b t; be 4 (ushr0 i)]. Qed.

Lemma kTxExact_ok t : is_hash t -> kTxExact t = Ok (enc (KTxExact (h2b t))).
Proof. intros. unfold kTxExact. build [h2b t]. Qed.

Lemma kTxBlockRecovery_ok bh t :
  is_hash bh -> is_hash t ->
  kTxBlockRecovery bh t = Ok (enc (KTxBlockRecovery (h2b bh) (h2b t))).
Proof. intros. unfold kTxBlockRecovery, assertTxid. build [h2b bh; h2b t]. Qed.

Lemma kOutputFromBuf_ok sh t i :
  hash32 sh -> is_hash t ->
  kOutputFromBuf sh t i = Ok (enc (KOutput sh (h2b t) (ushr0 i))).
Proof.
  intros. unfold kOutputFromBuf, assertTxid. build [sh; h2b t; be 4 (ushr0 i)].
Qed.

Lemma kOutDelFromBuf_ok bh sh t i :
  is_hash bh -> hash32 sh -> is_hash t ->
  kOutDelFromBuf bh sh t i = Ok (enc (KOutDel (h2b bh) sh (h2b t) (ushr0 i))).
Proof.
  intros. unfold kOutDelFromBuf, assertTxid.
  build [h2b bh; sh; h2b t; be 4 (ushr0 i)].
Qed.
End builder_facts.
