(* ===== verification/LevelDb.v ===== *)
(** The database underneath the store.  [classic-level] and [memory-level] are
    npm packages, so the store is written against this interface: [LevelDb] has
    the operations the tracker calls (abstract-level's [get], [put], [del],
    [batch], [iterator]) and [LevelDbLaws] the documented behaviour it relies
    on, an ordered map over byte strings.  [mapdb] is a concrete instance (a
    finite map) for evaluation.  The second half relates prefix scans to
    [rangeEnd] of the key codec. *)

From S2P Require Import Prelude KeyCodec.
#[local] Open Scope list_scope.

(** * Byte order *)

(** The bytewise comparison LevelDB orders keys by. *)
Fixpoint ble (a b : bytes) : bool :=
  match a, b with
  | [], _ => true
  | _ :: _, [] => false
  | x :: a', y :: b' =>
      bool_decide (Z_of_byte x < Z_of_byte y)%Z
      || (bool_decide (x = y) && ble a' b')
  end.

Definition blt (a b : bytes) : bool := ble a b && negb (bool_decide (a = b)).

Lemma ble_refl a : ble a a = true.
Proof.
  induction a as [|x a IH]; cbn [ble]; [done|].
  rewrite (bool_decide_eq_true_2 (x = x)) by done. by rewrite IH, orb_true_r.
Qed.

Lemma ble_cons x y a b :
  ble (x :: a) (y :: b) = true <->
  (Z_of_byte x < Z_of_byte y)%Z \/ (x = y /\ ble a b = true).
Proof.
  cbn [ble]. rewrite orb_true_iff, andb_true_iff, !bool_decide_eq_true. done.
Qed.

Lemma ble_trans a b c : ble a b = true -> ble b c = true -> ble a c = true.
Proof.
  revert b c. induction a as [|x a IH]; intros [|y b] [|z c]; try done.
  rewrite !ble_cons. intros [?|[-> ?]] [?|[-> ?]]; [left; lia|left; lia|left; lia|].
  right. eauto.
Qed.

Lemma ble_antisym a b : ble a b = true -> ble b a = true -> a = b.
Proof.
  revert b. induction a as [|x a IH]; intros [|y b]; try done.
  rewrite !ble_cons. intros [?|[-> ?]] [?|[? ?]]; subst; try lia.
  f_equal. auto.
Qed.

Lemma ble_total a b : ble a b = true \/ ble b a = true.
Proof.
  revert b. induction a as [|x a IH]; intros [|y b]; [by left|by left|by right|].
  rewrite !ble_cons.
  destruct (Z.lt_total (Z_of_byte x) (Z_of_byte y)) as [?|[E|?]]; [tauto| |tauto].
  apply Z_of_byte_inj in E as ->. destruct (IH b); tauto.
Qed.

Lemma ble_app_l p a b : ble (p ++ a) (p ++ b) = ble a b.
Proof.
  induction p as [|x p IH]; [done|].
  apply eq_true_iff_eq. cbn [app]. rewrite ble_cons, IH. split; [|auto].
  intros [?|[_ ?]]; [lia|done].
Qed.

(** * The interface *)

Inductive optype := put | del | other (t : string).

(** A batch item / staged write: [{ type, key, value }], [None] being [null]. *)
Record item := mkItem { i_type : optype; i_value : option bytes }.

Record range := mkRange {
  r_gt : option bytes;
  r_gte : option bytes;
  r_lte : option bytes;
  r_limit : option nat;
}.

Definition in_range (r : range) (k : bytes) : bool :=
  match r_gt r with Some b => blt b k | None => true end
  && match r_gte r with Some b => ble b k | None => true end
  && match r_lte r with Some b => ble k b | None => true end.

Definition take_limit {A} (o : option nat) (l : list A) : list A :=
  match o with Some n => take n l | None => l end.

Class LevelDb (DB : Type) := {
  db_get : DB -> bytes -> option bytes;
  db_put : DB -> bytes -> bytes -> DB;
  db_del : DB -> bytes -> DB;
  db_batch : DB -> list (bytes * item) -> DB;
  db_iterator : DB -> range -> list (bytes * bytes);
}.

(** What a batch item does to its key: a [put] sets it to its value. *)
Definition apply_item (it : item) (old : option bytes) : option bytes :=
  match i_type it with
  | put => match i_value it with Some v => Some v | None => old end
  | del => None
  | other _ => old
  end.

(** A batch the database accepts: puts carry a value, no other type occurs. *)
Definition valid_item (it : item) : Prop :=
  match i_type it with put => is_Some (i_value it) | del => True | other _ => False end.

#[global] Instance valid_item_dec it : Decision (valid_item it).
Proof. unfold valid_item. destruct (i_type it); apply _. Defined.

Definition key_le (a b : bytes * bytes) : Prop := ble a.1 b.1 = true.

Class LevelDbLaws (DB : Type) `{LevelDb DB} : Prop := {
  get_put : forall d k v k',
    db_get (db_put d k v) k' = if decide (k = k') then Some v else db_get d k';
  get_del : forall d k k',
    db_get (db_del d k) k' = if decide (k = k') then None else db_get d k';
  (** Items are applied in order, all or nothing. *)
  get_batch_nil : forall d k, db_get (db_batch d []) k = db_get d k;
  get_batch_snoc : forall d l k it k',
    db_get (db_batch d (l ++ [(k, it)])) k'
    = if decide (k = k') then apply_item it (db_get (db_batch d l) k')
      else db_get (db_batch d l) k';
  (** Entries come in strictly ascending key order, [limit] cutting the list. *)
  iterator_limit : forall d r,
    db_iterator d r
    = take_limit (r_limit r) (db_iterator d (mkRange (r_gt r) (r_gte r) (r_lte r) None));
  iterator_sorted : forall d r,
    StronglySorted (fun a b => ble a.1 b.1 = true /\ a.1 <> b.1) (db_iterator d r);
  iterator_elem : forall d r k v,
    r_limit r = None ->
    (k, v) ∈ db_iterator d r <-> db_get d k = Some v /\ in_range r k = true;
}.

(** * A concrete instance *)

Abbreviation mapdb := (gmap bytes bytes).

Definition mapdb_apply (d : mapdb) (x : bytes * item) : mapdb :=
  match i_type x.2, i_value x.2 with
  | put, Some v => <[x.1:=v]> d
  | del, _ => delete x.1 d
  | _, _ => d
  end.

#[global] Instance key_le_dec : RelDecision key_le.
Proof. intros a b. unfold key_le. apply _. Defined.

#[global] Instance mapdb_leveldb : LevelDb mapdb := {
  db_get d k := d !! k;
  db_put d k v := <[k:=v]> d;
  db_del d k := delete k d;
  db_batch d l := foldl mapdb_apply d l;
  db_iterator d r :=
    take_limit (r_limit r)
      (merge_sort key_le (filter (fun e => in_range r e.1 = true) (map_to_list d)));
}.

#[local] Instance key_le_total : Total key_le.
Proof. intros a b. apply ble_total. Qed.

#[local] Instance key_le_trans : Transitive key_le.
Proof. intros a b c. apply ble_trans. Qed.

(** Sorted by key, and no two elements share a key: strictly sorted. *)
Lemma StronglySorted_strict (l : list (bytes * bytes)) :
  StronglySorted key_le l -> NoDup l.*1 ->
  StronglySorted (fun a b => ble a.1 b.1 = true /\ a.1 <> b.1) l.
Proof.
  induction 1 as [|x l Hs IH Hx]; intros Hnd; [constructor|].
  rewrite fmap_cons in Hnd. apply NoDup_cons in Hnd as [Hnx Hnd].
  constructor; [auto|]. rewrite Forall_forall in Hx |- *. intros y Hy.
  split; [by apply Hx|]. intros E. apply Hnx. rewrite E.
  apply list_elem_of_fmap. by exists y.
Qed.

Lemma mapdb_iterator_sorted (d : mapdb) r :
  r_limit r = None ->
  StronglySorted (fun a b => ble a.1 b.1 = true /\ a.1 <> b.1) (db_iterator d r).
Proof.
  intros Hl. cbn. rewrite Hl. apply StronglySorted_strict.
  - apply StronglySorted_merge_sort; apply _.
  - rewrite merge_sort_Permutation. apply (sublist_NoDup _ (map_to_list d).*1); [apply (NoDup_fst_map_to_list d)|].
    apply fmap_sublist, sublist_filter.
Qed.

Lemma StronglySorted_take {A} (R : relation A) n (l : list A) :
  StronglySorted R l -> StronglySorted R (take n l).
Proof.
  intros H. revert n. induction H as [|x l Hs IH Hx]; intros [|n]; try constructor; [auto|].
  by apply Forall_take.
Qed.

#[global] Instance mapdb_laws : LevelDbLaws mapdb.
Proof.
  split.
  - intros d k v k'. apply lookup_insert.
  - intros d k k'. apply lookup_delete.
  - done.
  - intros d l k it k'. cbn. rewrite foldl_snoc. unfold mapdb_apply at 1, apply_item. cbn.
    destruct (i_type it), (i_value it); cbn;
      rewrite ?lookup_insert, ?lookup_delete; by case_decide.
  - done.
  - intros d r. destruct (r_limit r) as [n|] eqn:E; [|by apply mapdb_iterator_sorted].
    cbn. rewrite E. apply StronglySorted_take.
    by apply (mapdb_iterator_sorted d (mkRange (r_gt r) (r_gte r) (r_lte r) None)).
  - intros d r k v Hl. cbn. rewrite Hl. cbn.
    rewrite (merge_sort_Permutation key_le), list_elem_of_filter, elem_of_map_to_list. tauto.
Qed.

(** * Prefix scans *)

(** [{ gte: prefix, lte: rangeEnd(prefix) }]. *)
Definition prefix_range (prefix : bytes) : range :=
  mkRange None (Some prefix) (Some (rangeEnd prefix)) None.

Lemma ble_replicate_ff s n : length s <= n -> ble s (replicate n xff) = true.
Proof.
  revert n. induction s as [|x s IH]; intros [|n] H; cbn in H; try done; try lia.
  cbn [replicate]. apply ble_cons. pose proof (Z_of_byte_range x).
  destruct (decide (x = xff)) as [->|Hne].
  - right. split; [done|]. apply IH. lia.
  - left. assert (Z_of_byte x <> Z_of_byte xff) by (intros E; by apply Z_of_byte_inj in E).
    change (Z_of_byte xff) with 255%Z in *. lia.
Qed.

Lemma ble_between_prefix p k f :
  ble p k = true -> ble k (p ++ f) = true -> p `prefix_of` k.
Proof.
  revert k. induction p as [|x p IH]; intros k H1 H2; [apply prefix_nil|].
  destruct k as [|y k]; [done|]. cbn [app] in H2. rewrite !ble_cons in *.
  destruct H1 as [?|[-> H1]], H2 as [?|[E H2]]; subst; try lia.
  apply prefix_cons. auto.
Qed.

(** A scan bounded by [rangeEnd] meets exactly the keys with the prefix, for
    every key the schema allows: no key is dropped at the top of the range and
    none of the next prefix leaks in. *)
Lemma in_prefix_range p k :
  length k <= MAX_KEY_LEN -> in_range (prefix_range p) k = true <-> p `prefix_of` k.
Proof.
  intros Hk. unfold in_range, prefix_range, rangeEnd. cbn. rewrite andb_true_iff. split.
  - intros [H1 H2]. by eapply ble_between_prefix.
  - intros [s ->]. rewrite length_app in Hk. split.
    + rewrite <- (app_nil_r p) at 1. by rewrite ble_app_l.
    + rewrite ble_app_l. apply ble_replicate_ff. unfold MAX_KEY_LEN in *. lia.
Qed.

(** * Consequences of the laws *)

Section laws.
Context {DB : Type} `{LevelDbLaws DB}.

(** The keys of a store the schema admits. *)
Definition keys_bounded (d : DB) : Prop :=
  forall k v, db_get d k = Some v -> length k <= MAX_KEY_LEN.

Definition prefix_scan (d : DB) (p : bytes) : list (bytes * bytes) :=
  db_iterator d (prefix_range p).

Lemma elem_of_prefix_scan d p k v :
  keys_bounded d ->
  (k, v) ∈ prefix_scan d p <-> db_get d k = Some v /\ p `prefix_of` k.
Proof.
  intros Hb. unfold prefix_scan. rewrite iterator_elem by done.
  split; intros [Hg Hp]; (split; [done|]); apply in_prefix_range in Hp || apply in_prefix_range;
    eauto.
Qed.

Lemma strictly_sorted_NoDup (l : list (bytes * bytes)) :
  StronglySorted (fun a b => ble a.1 b.1 = true /\ a.1 <> b.1) l -> NoDup l.*1.
Proof.
  induction 1 as [|x l Hs IH Hx]; [constructor|]. rewrite fmap_cons.
  constructor; [|done]. rewrite Forall_forall in Hx.
  intros (y & E & Hy)%list_elem_of_fmap. by destruct (Hx y Hy).
Qed.

Lemma NoDup_prefix_scan d p : NoDup (prefix_scan d p).*1.
Proof. apply strictly_sorted_NoDup, iterator_sorted. Qed.

(** Two databases with the same contents are scanned alike. *)
Lemma iterator_ext (d1 d2 : DB) r :
  (forall k, db_get d1 k = db_get d2 k) -> db_iterator d1 r = db_iterator d2 r.
Proof.
  intros Hext. rewrite (iterator_limit d1), (iterator_limit d2). f_equal.
  set (r' := mkRange _ _ _ None).
  pose proof (iterator_sorted d1 r') as Hs1. pose proof (iterator_sorted d2 r') as Hs2.
  eapply StronglySorted_unique_strong; [|exact Hs1|exact Hs2|].
  - intros x1 x2 _ _ [H1 Hne] [H2 _]. exfalso. by apply Hne, ble_antisym.
  - apply NoDup_Permutation.
    + by eapply NoDup_fmap_1, strictly_sorted_NoDup.
    + by eapply NoDup_fmap_1, strictly_sorted_NoDup.
    + intros [k v]. by rewrite !iterator_elem, Hext.
Qed.

Lemma get_batch_notin (d : DB) l k : k ∉ l.*1 -> db_get (db_batch d l) k = db_get d k.
Proof.
  induction l as [|[k' it] l IH] using rev_ind; intros Hk; [apply get_batch_nil|].
  rewrite fmap_app, not_elem_of_app in Hk. destruct Hk as [Hk Hk'].
  rewrite get_batch_snoc. rewrite decide_False; [auto|].
  intros ->. apply Hk'. cbn. by left.
Qed.

Lemma get_batch_in (d : DB) l k it :
  NoDup l.*1 -> (k, it) ∈ l -> db_get (db_batch d l) k = apply_item it (db_get d k).
Proof.
  induction l as [|[k' it'] l IH] using rev_ind; intros Hnd Hin; [by apply elem_of_nil in Hin|].
  rewrite fmap_app, NoDup_app in Hnd. destruct Hnd as (Hnd & Hdisj & _).
  rewrite get_batch_snoc.
  apply elem_of_app in Hin as [Hin|Hin].
  - rewrite decide_False; [auto|]. intros ->. apply (Hdisj k).
    + apply list_elem_of_fmap. by exists (k, it).
    + cbn. by left.
  - apply list_elem_of_singleton in Hin as [= -> ->]. rewrite decide_True by done.
    f_equal. apply get_batch_notin. intros Hin. apply (Hdisj k' Hin). cbn. by left.
Qed.

(** The write buffer of the store is flushed as the batch of its entries. *)
Lemma get_batch_map (d : DB) (t : gmap bytes item) k :
  db_get (db_batch d (map_to_list t)) k
  = match t !! k with
    | Some it => apply_item it (db_get d k)
    | None => db_get d k
    end.
Proof.
  destruct (t !! k) as [it|] eqn:E.
  - apply get_batch_in; [apply NoDup_fst_map_to_list|]. by apply elem_of_map_to_list.
  - apply get_batch_notin. intros ([k' it] & Hk & Hin)%list_elem_of_fmap.
    cbn in Hk. subst k'. apply elem_of_map_to_list in Hin. congruence.
Qed.
End laws.
