(* ===== verification/ValueCodec.v ===== *)
(** The value layouts of the store ([src/store/level_up_db/value_codec.js]):
    block, transaction, output, hint and first-seen records, with the width and
    range errors of the Buffer writers, and their round trips. *)

From S2P Require Import Prelude KeyCodec.

#[local] Open Scope string_scope.
#[local] Open Scope nat_scope.
#[local] Open Scope list_scope.

(** * Fixed-width accessors

    The Buffer methods the codecs call, with the [RangeError] they throw on a
    value (or an offset) out of range. *)

Definition write_u32 (buf : bytes) (n : Z) (off : nat) : res bytes :=
  if bool_decide (u32 n) then Ok (buf_write buf off (be 4 n)) else Err (Error ERange).

Definition i32 (n : Z) : Prop := (-2147483648 <= n < 2147483648)%Z.
Definition u64 (n : Z) : Prop := (0 <= n < 18446744073709551616)%Z.

#[global] Instance i32_dec n : Decision (i32 n).
Proof. unfold i32. apply _. Defined.
#[global] Instance u64_dec n : Decision (u64 n).
Proof. unfold u64. apply _. Defined.

Definition write_i32 (buf : bytes) (n : Z) (off : nat) : res bytes :=
  if bool_decide (i32 n) then Ok (buf_write buf off (be 4 (n mod 4294967296))) else Err (Error ERange).

Definition write_u64 (buf : bytes) (n : Z) (off : nat) : res bytes :=
  if bool_decide (u64 n) then Ok (buf_write buf off (be 8 n)) else Err (Error ERange).

Definition read_field (buf : bytes) (off len : nat) : res bytes :=
  if bool_decide (off + len <= length buf) then Ok (slice off (off + len) buf) else Err (Error ERange).

Definition read_u32 (buf : bytes) (off : nat) : res Z :=
  b ← read_field buf off 4; Ok (unbe b).

Definition read_i32 (buf : bytes) (off : nat) : res Z :=
  n ← read_u32 buf off;
  Ok (if bool_decide (n < 2147483648)%Z then n else n - 4294967296)%Z.

Definition read_u64 (buf : bytes) (off : nat) : res Z :=
  b ← read_field buf off 8; Ok (unbe b).

Definition zeros (n : nat) : bytes := replicate n x00.

(** * Codecs *)

Definition ZERO_HASH : string := b2h (zeros 32).

(** B value: [height(4)][timestamp(4)][previousHash(32)]. *)
Definition encodeBlock (height timestamp : Z) (previousHashHex : string) : res bytes :=
  _ ← guard64 "encodeBlock" "previousHash" previousHashHex;
  let buf := zeros 40 in
  buf ← write_u32 buf height 0;
  buf ← write_u32 buf timestamp 4;
  Ok (buf_write buf 8 (h2b previousHashHex)).

Record block_rec := mkBlockRec { b_h : Z; b_t : Z; b_ph : string }.

Definition decodeBlock (buf : bytes) : res block_rec :=
  h ← read_u32 buf 0;
  t ← read_u32 buf 4;
  Ok (mkBlockRec h t (b2h (slice 8 40 buf))).

(** A missing or empty block hash is written as zeros. *)
Definition encodeTx (blockHashHex : option string) : res bytes :=
  let hex := match blockHashHex with
             | Some s => if bool_decide (s = "") then ZERO_HASH else s
             | None => ZERO_HASH
             end in
  _ ← guard64 "encodeTx" "blockHash" hex;
  Ok (h2b hex).

Definition decodeTx (buf : bytes) : string := b2h (slice 0 32 buf).

Definition encodeInputVal (txidHex : string) : res bytes :=
  _ ← guard64 "encodeInputVal" "txid" txidHex;
  Ok (h2b txidHex).

(** O value: [value(8)][height(4)][fullTxHash(32)] and one flag byte for a
    coinbase output only. *)
Definition encodeOutput (value : Z) (height : option Z) (fullTxHashHex : option string)
    (isCoinbase : bool) : res bytes :=
  let buf := zeros (if isCoinbase then 45 else 44) in
  buf ← write_u64 buf value 0;
  buf ← write_i32 buf (default (-1)%Z height) 8;
  buf ← match fullTxHashHex with
        | Some hex =>
            if bool_decide (hex = "") then Ok buf
            else
              _ ← guard64 "encodeOutput" "fullTxHash" hex;
              Ok (buf_write buf 12 (h2b hex))
        | None => Ok buf
        end;
  Ok (if isCoinbase then buf_write buf 44 [x01] else buf).

(** [v] is the exact integer whose decimal string the code returns. *)
Record output_rec := mkOutputRec { o_v : Z; o_h : Z; o_t : option string; o_cb : bool }.

Definition decodeOutput (buf : bytes) : res output_rec :=
  let fullTxHash := b2h (slice 12 44 buf) in
  v ← read_u64 buf 0;
  h ← read_i32 buf 8;
  Ok (mkOutputRec v h
        (if bool_decide (fullTxHash = ZERO_HASH) then None else Some fullTxHash)
        (bool_decide (44 < length buf) && bool_decide (buf !! 44 = Some x01))).

Definition encodeOutHint (scriptHex : string) : res bytes :=
  _ ← guard64 "encodeOutHint" "scriptPubKey" scriptHex;
  Ok (h2b scriptHex).

Definition encodeScriptBlk (height : Z) : res bytes := write_u32 (zeros 4) height 0.

Definition decodeScriptBlk (buf : bytes) : res Z := read_u32 buf 0.

(** * Layout facts *)

Lemma slice_mid a b c n m :
  length a = n -> length b = m - n -> n <= m -> slice n m (a ++ b ++ c) = b.
Proof.
  intros Ha Hb Hle. unfold slice. rewrite <- Ha at 2. rewrite drop_app_length.
  rewrite <- Hb. by rewrite take_app_length.
Qed.

Lemma read_field_mid a b c n m :
  length a = n -> length b = m -> read_field (a ++ b ++ c) n m = Ok b.
Proof.
  intros Ha Hb. unfold read_field. rewrite bool_decide_eq_true_2 by (rewrite !length_app; lia).
  f_equal. apply slice_mid; lia.
Qed.

Lemma read_field_head b c m : length b = m -> read_field (b ++ c) 0 m = Ok b.
Proof. intros Hb. by apply (read_field_mid [] b c). Qed.

Lemma buf_write_mid a b c src n :
  length a = n -> length src = length b -> buf_write (a ++ b ++ c) n src = a ++ src ++ c.
Proof. intros <- H. by apply buf_write_fill. Qed.

(** The bytes [encodeBlock] and [encodeOutput] lay out. *)
Definition block_val (h t : Z) (ph : bytes) : bytes := be 4 h ++ be 4 t ++ ph.

Definition output_val (v h : Z) (t : bytes) (cb : bool) : bytes :=
  be 8 v ++ be 4 (h mod 4294967296) ++ t ++ (if cb then [x01] else []).

Lemma encodeBlock_ok h t ph :
  u32 h -> u32 t -> is_hash ph -> encodeBlock h t ph = Ok (block_val h t (h2b ph)).
Proof.
  intros Hh Ht Hp. unfold encodeBlock, write_u32.
  rewrite guard64_ok by done.
  rewrite !bool_decide_eq_true_2 by done. cbn [mbind res_bind]. f_equal.
  change (zeros 40) with ([] ++ zeros 4 ++ zeros 36).
  rewrite buf_write_mid by (rewrite ?length_be; done). cbn [app].
  change (zeros 36) with (zeros 4 ++ zeros 32).
  rewrite buf_write_mid by (rewrite ?length_be; done).
  rewrite <- (app_nil_r (zeros 32)), (app_assoc (be 4 h)).
  rewrite buf_write_mid by (rewrite ?length_app, ?length_be, ?length_h2b by done; done).
  unfold block_val. by rewrite app_nil_r, <- app_assoc.
Qed.

Lemma decodeBlock_val h t ph :
  u32 h -> u32 t -> hash32 ph -> decodeBlock (block_val h t ph) = Ok (mkBlockRec h t (b2h ph)).
Proof.
  intros Hh Ht Hp. unfold decodeBlock, block_val, read_u32.
  rewrite (read_field_head (be 4 h) (be 4 t ++ ph) 4) by (rewrite ?length_be; done).
  rewrite (read_field_mid (be 4 h) (be 4 t) ph 4 4) by (rewrite ?length_be; done).
  cbn [mbind res_bind]. rewrite !unbe_be4 by done.
  assert (E : slice 8 40 (be 4 h ++ be 4 t ++ ph) = ph); [|by rewrite E].
  pose proof (slice_mid (be 4 h ++ be 4 t) ph [] 8 40) as E.
  rewrite app_nil_r, <- app_assoc in E.
  apply E; rewrite ?length_app, ?length_be; done || lia.
Qed.

Lemma encodeOutput_ok v h t cb :
  u64 v -> i32 h -> is_hash t ->
  encodeOutput v (Some h) (Some t) cb = Ok (output_val v h (h2b t) cb).
Proof.
  intros Hv Hh Ht. unfold encodeOutput, write_u64, write_i32. cbn [default].
  rewrite (bool_decide_eq_true_2 (u64 v)), (bool_decide_eq_true_2 (i32 h)) by done. cbn [mbind res_bind].
  rewrite bool_decide_eq_false_2 by (intros ->; by destruct Ht).
  rewrite guard64_ok by done.
  cbn [mbind res_bind]. f_equal. set (tail := if cb then [x00] else []).
  replace (zeros (if cb then 45 else 44)) with ([] ++ zeros 8 ++ zeros 4 ++ zeros 32 ++ tail)
    by (unfold tail; by destruct cb).
  rewrite buf_write_mid by (rewrite ?length_be; done). cbn [app].
  rewrite buf_write_mid by (rewrite ?length_be; done).
  rewrite (app_assoc (be 8 v)).
  rewrite buf_write_mid by (rewrite ?length_app, ?length_be, ?length_h2b by done; done).
  unfold output_val, tail. destruct cb; rewrite <- !app_assoc; [|done].
  rewrite <- (app_nil_r [x00]), !(app_assoc _ _ ([x00] ++ [])).
  rewrite buf_write_mid by (rewrite ?length_app, ?length_be, ?length_h2b by done; done).
  by rewrite app_nil_r, <- !app_assoc.
Qed.

(** Without a transaction hash the field keeps the zeros of the allocation. *)
Lemma encodeOutput_no_txid v oh tx cb :
  u64 v -> i32 (default (-1)%Z oh) -> tx = None \/ tx = Some "" ->
  encodeOutput v oh tx cb = Ok (output_val v (default (-1)%Z oh) (zeros 32) cb).
Proof.
  intros Hv Hh Ht. unfold encodeOutput, write_u64, write_i32. set (h := default (-1)%Z oh) in *.
  rewrite (bool_decide_eq_true_2 (u64 v)), (bool_decide_eq_true_2 (i32 h)) by done. cbn [mbind res_bind].
  replace (match tx with Some hex => _ | None => _ end)
    with (Ok (buf_write (buf_write (zeros (if cb then 45 else 44)) 0 (be 8 v)) 8
                        (be 4 (h mod 4294967296))) : res bytes) by (destruct Ht as [->| ->]; reflexivity).
  cbn [mbind res_bind]. f_equal. set (tail := if cb then [x00] else []).
  replace (zeros (if cb then 45 else 44)) with ([] ++ zeros 8 ++ zeros 4 ++ zeros 32 ++ tail)
    by (unfold tail; by destruct cb).
  rewrite buf_write_mid by (rewrite ?length_be; done). cbn [app].
  rewrite buf_write_mid by (rewrite ?length_be; done).
  unfold output_val, tail. destruct cb; [|done].
  rewrite <- (app_nil_r [x00]), !(app_assoc _ _ ([x00] ++ [])).
  rewrite buf_write_mid by (rewrite ?length_app, ?length_be; done).
  by rewrite app_nil_r, <- !app_assoc.
Qed.

(** A value or a height out of range throws before the transaction hash is looked at. *)
Lemma encodeOutput_refuses v oh tx cb :
  ~ (u64 v /\ i32 (default (-1)%Z oh)) -> encodeOutput v oh tx cb = Err (Error ERange).
Proof.
  intros Hn. unfold encodeOutput, write_u64, write_i32.
  destruct (decide (u64 v)) as [Hv|Hv]; [|by rewrite (bool_decide_eq_false_2 (u64 v))].
  rewrite (bool_decide_eq_true_2 (u64 v)) by done. cbn [mbind res_bind].
  rewrite (bool_decide_eq_false_2 (i32 _)) by (intros ?; by apply Hn). reflexivity.
Qed.

Lemma encodeBlock_refuses h t ph :
  String.length ph = 64 -> ~ (u32 h /\ u32 t) -> encodeBlock h t ph = Err (Error ERange).
Proof.
  intros Hp Hn. unfold encodeBlock, guard64, write_u32.
  rewrite (bool_decide_eq_true_2 (String.length ph = 64)) by done. cbn [mbind res_bind].
  destruct (decide (u32 h)) as [Hh|Hh]; [|by rewrite (bool_decide_eq_false_2 (u32 h))].
  rewrite (bool_decide_eq_true_2 (u32 h)) by done. cbn [mbind res_bind].
  rewrite (bool_decide_eq_false_2 (u32 t)) by (intros ?; by apply Hn). reflexivity.
Qed.

Lemma scriptBlk_round_trip h : u32 h -> (b ← encodeScriptBlk h; decodeScriptBlk b) = Ok h.
Proof.
  intros Hh. unfold encodeScriptBlk, write_u32. rewrite bool_decide_eq_true_2 by done. cbn [mbind res_bind].
  unfold decodeScriptBlk, read_u32.
  pose proof (buf_write_mid [] (zeros 4) [] (be 4 h) 0 eq_refl ltac:(rewrite length_be; done)) as E.
  cbn [app] in E. rewrite !app_nil_r in E. rewrite E.
  pose proof (read_field_head (be 4 h) [] 4 ltac:(rewrite length_be; done)) as E2.
  rewrite app_nil_r in E2. rewrite E2. cbn [mbind res_bind]. f_equal. by apply unbe_be4.
Qed.

Lemma length_output_val v h t cb :
  hash32 t -> length (output_val v h t cb) = if cb then 45 else 44.
Proof.
  intros Ht. unfold output_val. rewrite !length_app, !length_be, Ht. by destruct cb.
Qed.

Lemma i32_wrap h : i32 h ->
  (let n := h mod 4294967296 in if bool_decide (n < 2147483648) then n else n - 4294967296)%Z = h.
Proof.
  unfold i32. intros Hh. cbv zeta. destruct (decide (0 <= h)%Z).
  - rewrite Z.mod_small by lia. by rewrite bool_decide_eq_true_2 by lia.
  - assert (Hm : (h mod 4294967296 = h + 4294967296)%Z)
      by (symmetry; apply (Z.mod_unique _ _ (-1)); lia).
    rewrite Hm.
    rewrite bool_decide_eq_false_2 by lia. lia.
Qed.

Lemma decodeOutput_val v h t cb :
  u64 v -> i32 h -> hash32 t ->
  decodeOutput (output_val v h t cb)
  = Ok (mkOutputRec v h (if bool_decide (b2h t = ZERO_HASH) then None else Some (b2h t)) cb).
Proof.
  intros Hv Hh Ht. unfold decodeOutput, read_u64, read_i32, read_u32.
  rewrite length_output_val by done. unfold output_val. set (tl := if cb then [x01] else []).
  rewrite (read_field_head (be 8 v) (be 4 (h mod 4294967296) ++ t ++ tl) 8)
    by (rewrite ?length_be; done).
  rewrite (read_field_mid (be 8 v) (be 4 (h mod 4294967296)) (t ++ tl) 8 4)
    by (rewrite ?length_be; done).
  cbn [mbind res_bind]. rewrite unbe_be by done.
  rewrite unbe_be4 by (apply Z.mod_pos_bound; lia).
  rewrite i32_wrap by done. f_equal. rewrite (app_assoc (be 8 v)).
  rewrite slice_mid by (rewrite ?length_app, ?length_be; done || lia).
  f_equal. unfold tl. rewrite app_assoc. destruct cb.
  - rewrite (bool_decide_eq_true_2 (44 < 45)) by lia. cbn [andb].
    apply bool_decide_eq_true. rewrite lookup_app_r; rewrite !length_app, !length_be, Ht; done.
  - by rewrite (bool_decide_eq_false_2 (44 < 44)) by lia.
Qed.
