(* ===== verification/Store.v ===== *)
(** The LevelUpStore class ([src/store/level_up_db.js] and the method modules of
    [src/store/level_up_db/]): the write buffer ([blocks_and_transactions.js]),
    the batch lifecycle and tip pointers ([store_lifecycle.js]), and every
    operation on the records: blocks and transactions, inputs, outputs and their
    spends ([outputs.js]), reorg recovery and pruning ([output_cleanup.js],
    [output_scripts.js]) and the scans the API reads.  Log lines, trace counters
    and timings are not modelled; methods the code starts concurrently with
    [Promise.all] run one after the other, in list order. *)

From S2P Require Import Prelude KeyCodec ValueCodec LevelDb.

#[local] Open Scope string_scope.
#[local] Open Scope nat_scope.
#[local] Open Scope list_scope.

(** * State *)

(** One instance's fields, with the two process-wide caches that every instance
    reads through [LevelUpStore].  A cache key [txHash + 2 chars] is the pair of
    the hash and the unsigned 32-bit index the two UTF-16 units encode.  [faults]
    scripts the environment: the next batch commits that the disk refuses. *)
Record store (DB : Type) := mkStore {
  disk : DB;
  transactionArray : option (gmap bytes item);
  deletedTransactionArray : option (gmap string (gmap bytes (option bytes)));
  outputCache : gmap (string * Z) bytes;
  knownScripts : gset string;
  faults : list bool;
}.
Arguments mkStore {_}.
Arguments disk {_}.
Arguments transactionArray {_}.
Arguments deletedTransactionArray {_}.
Arguments outputCache {_}.
Arguments knownScripts {_}.
Arguments faults {_}.

Section setters.
Context {DB : Type}.
Implicit Type s : store DB.

Definition set_disk d s : store DB :=
  mkStore d (transactionArray s) (deletedTransactionArray s) (outputCache s) (knownScripts s) (faults s).
Definition set_tx t s : store DB :=
  mkStore (disk s) t (deletedTransactionArray s) (outputCache s) (knownScripts s) (faults s).
Definition set_dtx t s : store DB :=
  mkStore (disk s) (transactionArray s) t (outputCache s) (knownScripts s) (faults s).
Definition set_cache c s : store DB :=
  mkStore (disk s) (transactionArray s) (deletedTransactionArray s) c (knownScripts s) (faults s).
Definition set_known k s : store DB :=
  mkStore (disk s) (transactionArray s) (deletedTransactionArray s) (outputCache s) k (faults s).
Definition set_faults f s : store DB :=
  mkStore (disk s) (transactionArray s) (deletedTransactionArray s) (outputCache s) (knownScripts s) f.
End setters.

(** * Arguments and results *)

(** A script hash: a 32-byte Buffer on the block path, hex elsewhere. *)
Inductive script_arg := SBuf (b : bytes) | SHex (s : string).

Record block_arg := mkBlockArg {
  ba_hash : string; ba_height : Z; ba_timestamp : Z; ba_previousHash : string }.

Record tx_arg := mkTxArg { ta_hash : string; ta_blockHash : option string }.

Record output_arg := mkOutputArg {
  oa_scriptPubKey : script_arg; oa_txHash : string; oa_outputIndex : Z; oa_value : Z;
  oa_height : option Z; oa_fullTxHash : option string; oa_coinbase : bool }.

(** [{prevTxHash, prevOutputIndex, blockHash}] of a spend. *)
Record spend_arg := mkSpendArg {
  sp_prevTxHash : string; sp_prevOutputIndex : Z; sp_blockHash : string }.

(** [{prevTxHash, prevOutputIndex, txHash}] of a mempool input. *)
Record input_arg := mkInputArg {
  in_prevTxHash : string; in_prevOutputIndex : Z; in_txHash : string }.

Record utxo_row := mkRow {
  u_txid : string; u_fullTxid : option string; u_vout : Z; u_value : Z;
  u_height : Z; u_coinbase : bool }.

Record last_block := mkLastBlock {
  lb_hash : string; lb_height : Z; lb_timestamp : Z; lb_previousHash : string }.

(** [!x] of a possibly missing string. *)
Definition falsy (o : option string) : bool :=
  match o with None => true | Some s => bool_decide (s = "") end.

Definition OUTPUT_CACHE_MAX : Z := 2000000.
Definition KNOWN_SCRIPTS_MAX : Z := 2000000.

Definition EMPTY : bytes := [].

(** [TypeError]: a method call on [null]. *)
Definition type_error : js_error := Error (EMsg "TypeError").

Section ops.
Context {node : Node} {DB : Type} `{LevelDb DB}.

Abbreviation SM := (M (store DB)).

Definition dbGet (k : bytes) : SM (option bytes) := gets (fun s => db_get (disk s) k).
Definition dbIterator (r : range) : SM (list (bytes * bytes)) :=
  gets (fun s => db_iterator (disk s) r).
(** [{ gte: prefix, lte: rangeEnd(prefix) }]. *)
Definition dbScan (prefix : bytes) : SM (list (bytes * bytes)) :=
  dbIterator (prefix_range prefix).

(** ** The write buffer *)

Definition getTransactionValue (key : bytes) : SM (option bytes) :=
  gets (fun s =>
    match transactionArray s with
    | None => None
    | Some t => match t !! key with Some it => i_value it | None => None end
    end).

Definition addTransaction (type : optype) (key : bytes) (value : option bytes) : SM bool :=
  s ← get;
  match transactionArray s with
  | Some t => _ ← modify (set_tx (Some (<[key := mkItem type value]> t))); mret true
  | None =>
      match type, value with
      | put, Some v => _ ← modify (set_disk (db_put (disk s) key v)); mret true
      | put, None => throw type_error
      | del, _ => _ ← modify (set_disk (db_del (disk s) key)); mret true
      | other _, _ => throw (Error EUnknownTransactionType)
      end
  end.

Definition removeTransactionIfExists (key : bytes) : SM bool :=
  s ← get;
  match transactionArray s with
  | Some t =>
      match t !! key with
      | Some it =>
          match i_type it with
          | put => _ ← modify (set_tx (Some (delete key t))); mret true
          | _ => mret false
          end
      | None => mret false
      end
  | None => mret false
  end.

Definition removeTransaction (key : bytes) (deletedKey : string) : SM bool :=
  s ← get;
  match transactionArray s with
  | None => throw type_error
  | Some t =>
      match t !! key with
      | None => mret false
      | Some it =>
          match deletedTransactionArray s with
          | None => throw type_error
          | Some dt =>
              let inner := default ∅ (dt !! deletedKey) in
              _ ← modify (set_dtx (Some (<[deletedKey := <[key := i_value it]> inner]> dt)));
              _ ← modify (set_tx (Some (delete key t)));
              mret true
          end
      end
  end.

(** ** Lifecycle *)

(** A fresh instance: both staging maps are live from construction. *)
Definition new_store (d : DB) (s : store DB) : store DB :=
  mkStore d (Some ∅) (Some ∅) (outputCache s) (knownScripts s) (faults s).

Definition resetCaches : SM unit :=
  _ ← modify (set_cache ∅); modify (set_known ∅).

(** [d]: what the opened directory (or the new in-memory store) holds. *)
Definition createDatabase (d : DB) : SM unit :=
  _ ← resetCaches; modify (set_disk d).

Definition beginTransaction : SM unit :=
  _ ← modify (set_tx (Some ∅)); modify (set_dtx (Some ∅)).

(** The batch reaches the disk whole or not at all; a refused one leaves the
    staged writes in place. *)
Definition endTransaction (batch : bool) : SM unit :=
  _ ← when (negb batch) (modify (set_known ∅));
  _ ← when batch (
    s ← get;
    match transactionArray s with
    | None => throw (Error EBatch)
    | Some t =>
        if negb (bool_decide (map_Forall (fun _ it => valid_item it) t)) then throw (Error EBatch)
        else match faults s with
             | true :: fs => _ ← modify (set_faults fs); throw (Error EBatch)
             | fs =>
                 _ ← modify (set_faults (tail fs));
                 modify (set_disk (db_batch (disk s) (map_to_list t)))
             end
    end);
  _ ← modify (set_tx None);
  modify (set_dtx None).

(** ** Tip pointers *)

(** [None]: the stored text is not a number ([NaN]). *)
Definition getLastBlockHeight : SM (option Z) :=
  value ← dbGet PREFIX_LAST_BLOCK_HEIGHT;
  match value with
  | None => mret (Some (-1)%Z)
  | Some v => mret (parseInt (to_latin1 v) 16)
  end.

Definition setLastBlockHeight (height : Z) : SM bool :=
  _ ← addTransaction put PREFIX_LAST_BLOCK_HEIGHT (Some (from_latin1 (to_radix 16 height)));
  mret true.

Definition getLastBlockHash : SM (option string) :=
  value ← dbGet PREFIX_LAST_BLOCK_HASH;
  mret (to_latin1 <$> value).

Definition setLastBlockHash (hash : string) : SM bool :=
  addTransaction put PREFIX_LAST_BLOCK_HASH (Some (from_latin1 hash)).

(** ** Stored blocks (N) *)

Definition addLastStoredBlock (blockHash : string) : SM bool :=
  k ← lift_res (kStoredBlk blockHash);
  addTransaction put k (Some EMPTY).

Definition removeLastStoredBlock (blockHash : string) : SM bool :=
  key ← lift_res (kStoredBlk blockHash);
  gone ← removeTransactionIfExists key;
  if (gone : bool) then mret true else addTransaction del key None.

Definition better_block (best : option last_block) (hash : string) (b : block_rec) : option last_block :=
  let this := mkLastBlock hash (b_h b) (b_t b) (b_ph b) in
  match best with
  | None => Some this
  | Some m => if bool_decide (lb_height m < b_h b)%Z then Some this else best
  end.

Fixpoint lastBlockLoop (rows : list (bytes * bytes)) (best : option last_block)
    : SM (option last_block) :=
  match rows with
  | [] => mret best
  | (key, value) :: rest =>
      decoded ← lift_res (decodeBlock value);
      lastBlockLoop rest (better_block best (b2h (drop 1 key)) decoded)
  end.

Definition getLastBlock : SM (option last_block) :=
  rows ← dbScan (pb P_BLOCK);
  lastBlockLoop rows None.

Definition getLastStoredBlocks : SM (list string) :=
  rows ← dbScan (pb P_STORED_BLK);
  mret ((fun e => b2h (drop 1 e.1)) <$> rows).

(** ** Blocks (B) *)

Definition insertBlock (block : block_arg) : SM bool :=
  k ← lift_res (kBlock (ba_hash block));
  v ← lift_res (encodeBlock (ba_height block) (ba_timestamp block) (ba_previousHash block));
  addTransaction put k (Some v).

Definition getBlock (blockHash : string) : SM (option block_rec) :=
  k ← lift_res (kBlock blockHash);
  buf ← dbGet k;
  match buf with
  | None => mret None
  | Some b => r ← lift_res (decodeBlock b); mret (Some r)
  end.

(** ** Transactions (T, X, Y) *)

Definition insertTransaction (tx : tx_arg) : SM bool :=
  k ← lift_res (kTx (ta_hash tx));
  bh ← lift_res (encodeTx (ta_blockHash tx));
  tWrite ← addTransaction put k (Some (bh ++ h2b (ta_hash tx)));
  match ta_blockHash tx with
  | None => mret tWrite
  | Some blockHash =>
      if bool_decide (blockHash = "") then mret tWrite
      else
        kx ← lift_res (kTxExact (ta_hash tx));
        vx ← lift_res (encodeTx (Some blockHash));
        _ ← addTransaction put kx (Some vx);
        ky ← lift_res (kTxBlockRecovery blockHash (ta_hash tx));
        addTransaction put ky (Some (h2b (ta_hash tx)))
  end.

Definition deleteTransaction (txid : string) : SM bool :=
  let txidLower := toLowerCase txid in
  kx ← lift_res (kTxExact txidLower);
  _ ← addTransaction del kx None;
  kt ← lift_res (kTx txidLower);
  addTransaction del kt None.

Definition deleteTxBlockRecord (txidHex blockHash : string) : SM bool :=
  recoveryKey ← lift_res (kTxBlockRecovery blockHash txidHex);
  recoveredTxid ← dbGet recoveryKey;
  match recoveredTxid with
  | None => deleteTransaction txidHex
  | Some _ =>
      kt ← lift_res (kTx txidHex);
      tValue ← dbGet kt;
      _ ← match tValue with
          | Some v =>
              if bool_decide (decodeTx v = blockHash) then addTransaction del kt None else mret false
          | None => mret false
          end;
      kx ← lift_res (kTxExact txidHex);
      xValue ← dbGet kx;
      _ ← match xValue with
          | Some v =>
              if bool_decide (decodeTx v = blockHash) then addTransaction del kx None else mret false
          | None => mret false
          end;
      addTransaction del recoveryKey None
  end.

Fixpoint deleteTxLoop (blockHash : string) (rows : list (bytes * bytes)) (seen : gset string)
    : SM nat :=
  match rows with
  | [] => mret (size seen)
  | (key, _) :: rest =>
      let txidHex := b2h (slice 33 65 key) in
      if bool_decide (txidHex ∈ seen) then deleteTxLoop blockHash rest seen
      else
        _ ← deleteTxBlockRecord txidHex blockHash;
        deleteTxLoop blockHash rest ({[txidHex]} ∪ seen)
  end.

Definition deleteTransactionsInBlock (blockHash : string) : SM nat :=
  rows ← dbScan (pb P_OUT_BLK ++ h2b blockHash);
  deleteTxLoop blockHash rows ∅.

Definition deleteBlock (blockHash : string) : SM bool :=
  _ ← deleteTransactionsInBlock blockHash;
  k ← lift_res (kBlock blockHash);
  addTransaction del k None.

Definition removeTxBlockRecoveryIndexOnly (blockHash : string) : SM unit :=
  rows ← dbScan (pb P_TX_BLOCK_RECOVERY ++ h2b blockHash);
  forM rows (fun '(key, _) => _ ← addTransaction del key None; mret tt).

Record tx_block := mkTxBlock {
  tb_block_hash : string; tb_block_height : Z;
  tb_committed_height : option Z; tb_committed_hash : option string }.

(** [None] for the argument is a value that is not a string. *)
Definition getTxBlock (txid : option string) : SM (option tx_block) :=
  match txid with
  | None => mret None
  | Some txid =>
      let txidLower := toLowerCase txid in
      if negb (bool_decide (String.length txidLower = 64) && all_lower_hex txidLower) then mret None
      else
        k ← lift_res (kTxExact txidLower);
        buf ← dbGet k;
        match buf with
        | None => mret None
        | Some buf =>
            let blockHashHex := decodeTx buf in
            block ← getBlock blockHashHex;
            match block with
            | None => mret None
            | Some block =>
                h ← getLastBlockHeight;
                hash ← getLastBlockHash;
                mret (Some (mkTxBlock blockHashHex (b_h block) h hash))
            end
        end
  end.

(** The entries' [txid] carries a leading ["T"] the caller strips. *)
Definition getTransactions (txHashPrefix : string) : SM (list (string * string)) :=
  rows ← dbScan (pb P_TX ++ h2b txHashPrefix);
  mret ((fun e => (String.append "T" (b2h (drop 1 e.1)), decodeTx e.2)) <$> rows).

Definition getTransaction (txHashWithPrefix : string) : SM (option bytes) :=
  dbGet (h2b txHashWithPrefix).

(** ** Inputs (I, J) *)

Definition insertInput (input : input_arg) : SM bool :=
  k ← lift_res (kInput (in_prevTxHash input) (in_prevOutputIndex input));
  v ← lift_res (encodeInputVal (in_txHash input));
  addTransaction put k (Some v).

Definition getInput (txid : string) (outputIndex : Z) : SM (option bytes) :=
  k ← lift_res (kInput txid outputIndex);
  dbGet k.

Definition hasOutputForTx (txid : string) (outputIndex : Z) : SM bool :=
  k ← lift_res (kOutHint txid outputIndex);
  value ← dbGet k;
  mret (bool_decide (is_Some value)).

Definition insertInputHint (input : input_arg) : SM bool :=
  k ← lift_res (kInHint (in_txHash input) (in_prevTxHash input) (in_prevOutputIndex input));
  addTransaction put k (Some EMPTY).

Definition deleteInputsByHint (txid : string) : SM nat :=
  rows ← dbScan (pb P_IN_HINT ++ h2b txid);
  _ ← forM rows (fun '(key, _) =>
    let prevTxidBuf := slice 33 65 key in
    let idxBytes := slice 65 69 key in
    _ ← addTransaction del (pb P_INPUT ++ prevTxidBuf ++ idxBytes) None;
    _ ← addTransaction del key None;
    mret tt);
  mret (length rows).

Definition deleteInputsByHints (txids : list string) : SM nat :=
  counts ← mapM_list txids deleteInputsByHint;
  mret (sum_list counts).

(** ** Outputs (O, H, W) *)

Definition kOutputArg (sh : script_arg) (txid : string) (idx : Z) : res bytes :=
  match sh with
  | SBuf b => kOutputFromBuf b txid idx
  | SHex s => kOutput s txid idx
  end.

(** [Buffer.isBuffer(s) ? s : encodeOutHint(s)]. *)
Definition hintVal (sh : script_arg) : res bytes :=
  match sh with SBuf b => Ok b | SHex s => encodeOutHint s end.

Definition cacheOutput (output : output_arg) (oVal : bytes) : SM unit :=
  match oa_height output with
  | Some h =>
      if bool_decide (0 <= h)%Z then
        c ← gets outputCache;
        let c := <[(oa_txHash output, ushr0 (oa_outputIndex output)) := oVal]> c in
        modify (set_cache (if bool_decide (OUTPUT_CACHE_MAX < Z.of_nat (size c))%Z then ∅ else c))
      else mret tt
  | None => mret tt
  end.

Definition insertOutput (output : output_arg) : SM bool :=
  oVal ← lift_res (encodeOutput (oa_value output) (oa_height output) (oa_fullTxHash output)
                     (oa_coinbase output));
  _ ← cacheOutput output oVal;
  oKey ← lift_res (kOutputArg (oa_scriptPubKey output) (oa_txHash output) (oa_outputIndex output));
  addTransaction put oKey (Some oVal).

Definition insertOutputHint (output : output_arg) : SM bool :=
  v ← lift_res (hintVal (oa_scriptPubKey output));
  k ← lift_res (kOutHint (oa_txHash output) (oa_outputIndex output));
  addTransaction put k (Some v).

Definition insertOutputBlock (output : output_arg) (blockHash : option string) : SM bool :=
  if falsy blockHash then mret true
  else
    wVal ← lift_res (hintVal (oa_scriptPubKey output));
    k ← lift_res (kOutBlk (default "" blockHash) (oa_txHash output) (oa_outputIndex output));
    addTransaction put k (Some wVal).
End ops.
