(* ===== verification/Outputs.v ===== *)
(** The output records of the store: the first-seen index and the spends
    ([outputs.js], [output_scripts.js]), reorg recovery and pruning
    ([output_cleanup.js]), and the address and key-pattern scans. *)

From S2P Require Import Prelude KeyCodec ValueCodec LevelDb Store.

#[local] Open Scope string_scope.
#[local] Open Scope nat_scope.
#[local] Open Scope list_scope.

Section ops.
Context {node : Node} {DB : Type} `{LevelDb DB}.

Abbreviation SM := (M (store DB)).

(** ** First-seen index (S, Z) *)

Definition scriptKey (sh : script_arg) : string :=
  match sh with SBuf b => to_latin1 b | SHex s => s end.

Definition kScriptBlkArg (sh : script_arg) : res bytes :=
  match sh with SBuf b => kScriptBlkFromBuf b | SHex s => kScriptBlk s end.

Definition kBlkScriptArg (blockHash : string) (sh : script_arg) : res bytes :=
  match sh with SBuf b => kBlkScriptFromBuf blockHash b | SHex s => kBlkScript blockHash s end.

Definition rememberScript (k : string) : SM unit :=
  modify (fun s => set_known ({[k]} ∪ knownScripts s) s).

Definition insertOutputScriptBlock (outputScript : script_arg) (blockHash : option string)
    (blockHeight : Z) : SM bool :=
  if falsy blockHash then mret true
  else
    let bh := default "" blockHash in
    _ ← modify (fun s =>
          if bool_decide (KNOWN_SCRIPTS_MAX < Z.of_nat (size (knownScripts s)))%Z
          then set_known ∅ s else s);
    known ← gets knownScripts;
    if bool_decide (scriptKey outputScript ∈ known) then mret true
    else
      sKey ← lift_res (kScriptBlkArg outputScript);
      staged ← getTransactionValue sKey;
      match staged with
      | Some _ => _ ← rememberScript (scriptKey outputScript); mret true
      | None =>
          onDisk ← dbGet sKey;
          match onDisk with
          | Some _ => _ ← rememberScript (scriptKey outputScript); mret true
          | None =>
              v ← lift_res (encodeScriptBlk blockHeight);
              _ ← addTransaction put sKey (Some v);
              zKey ← lift_res (kBlkScriptArg bh outputScript);
              _ ← addTransaction put zKey (Some EMPTY);
              _ ← rememberScript (scriptKey outputScript);
              mret true
          end
      end.

Definition getOutputScriptBlock (outputScript : string) : SM (option Z) :=
  k ← lift_res (kScriptBlk outputScript);
  buf ← dbGet k;
  match buf with
  | None => mret None
  | Some b => h ← lift_res (decodeScriptBlk b); mret (Some h)
  end.

Definition removeOutputScriptsInBlock (blockHash : string) : SM unit :=
  rows ← dbScan (pb P_BLK_SCRIPT ++ h2b blockHash);
  _ ← forM rows (fun '(key, _) =>
    let scriptBuf := drop 33 key in
    _ ← addTransaction del (pb P_SCRIPT_BLK ++ scriptBuf) None;
    _ ← addTransaction del key None;
    mret tt);
  when (negb (bool_decide (length rows = 0))) (modify (set_known ∅)).

(** Deletes every record under [prefix || blockHash]: the index-only prunes. *)
Definition deleteScan (prefix : byte) (blockHash : string) : SM unit :=
  rows ← dbScan (pb prefix ++ h2b blockHash);
  forM rows (fun '(key, _) => _ ← addTransaction del key None; mret tt).

Definition removeOutputScriptsBlockIndexOnly (blockHash : string) : SM unit :=
  deleteScan P_BLK_SCRIPT blockHash.

Definition removeCreatedOutputsBlockIndexOnly (blockHash : string) : SM unit :=
  deleteScan P_OUT_BLK blockHash.

(** ** Spends (K, M) *)

Definition spendBlockHeightInBatch (blockHashHex : string) : SM (option Z) :=
  k ← lift_res (kBlock blockHashHex);
  blkVal ← getTransactionValue k;
  match blkVal with
  | None => mret None
  | Some v => b ← lift_res (decodeBlock v); mret (Some (b_h b))
  end.

(** Stages the two restore records of a spend. *)
Definition stageRecovery (input : spend_arg) (script oVal : bytes) : SM unit :=
  mKey ← lift_res (kHintDel (sp_blockHash input) (sp_prevTxHash input) (sp_prevOutputIndex input));
  kKey ← lift_res (kOutDelFromBuf (sp_blockHash input) script (sp_prevTxHash input)
                     (sp_prevOutputIndex input));
  _ ← addTransaction put mKey (Some script);
  _ ← addTransaction put kKey (Some oVal);
  mret tt.

Definition writeCrossBlockSpendRecovery (input : spend_arg) (scriptPubKeyBuf : bytes)
    (oVal : option bytes) : SM bool :=
  match oVal with
  | None => mret false
  | Some oVal =>
      d ← lift_res (decodeOutput oVal);
      spendHeight ← spendBlockHeightInBatch (sp_blockHash input);
      match spendHeight with
      | None => mret false
      | Some spendHeight =>
          if bool_decide (o_h d < 0)%Z then mret false
          else if bool_decide (spendHeight <= o_h d)%Z then mret false
          else _ ← stageRecovery input scriptPubKeyBuf oVal; mret true
      end
  end.

(** Drops the staged O and H writes of an output spent in its own batch and
    returns the value that was staged. *)
Definition unstageInMemorySpend (inp : spend_arg) (script hKey : bytes) : SM (option bytes) :=
  inMemOKey ← lift_res (kOutputFromBuf script (sp_prevTxHash inp) (sp_prevOutputIndex inp));
  inMemOVal ← getTransactionValue inMemOKey;
  okO ← removeTransaction inMemOKey (sp_blockHash inp);
  if negb okO then throw (Error (EMissingOutput (sp_prevTxHash inp) (sp_prevOutputIndex inp)))
  else
    okH ← removeTransaction hKey (sp_blockHash inp);
    if negb okH then throw (Error (EMissingOutputHint (sp_prevTxHash inp) (sp_prevOutputIndex inp)))
    else mret inMemOVal.

(** The archive path: restore records in, live records out. *)
Definition archiveSpend (inp : spend_arg) (script oVal oKey hKey : bytes) : SM unit :=
  _ ← stageRecovery inp script oVal;
  _ ← addTransaction del oKey None;
  _ ← addTransaction del hKey None;
  mret tt.

Definition removeOutputWithInput (input : spend_arg) : SM bool :=
  hKey ← lift_res (kOutHint (sp_prevTxHash input) (sp_prevOutputIndex input));
  _ ← lift_res (kHintDel (sp_blockHash input) (sp_prevTxHash input) (sp_prevOutputIndex input));
  scriptPubKeyBuf ← dbGet hKey;
  live ← match scriptPubKeyBuf with
         | None => mret None
         | Some script =>
             oKey ← lift_res (kOutputFromBuf script (sp_prevTxHash input) (sp_prevOutputIndex input));
             oVal ← dbGet oKey;
             mret ((fun v => (script, oKey, v)) <$> oVal)
         end;
  match live with
  | Some (script, oKey, oVal) =>
      _ ← archiveSpend input script oVal oKey hKey;
      mret true
  | None =>
      inMemScript ← getTransactionValue hKey;
      match inMemScript with
      | Some script =>
          inMemOVal ← unstageInMemorySpend input script hKey;
          _ ← writeCrossBlockSpendRecovery input script inMemOVal;
          mret true
      | None => mret true
      end
  end.

(** *** The batched spend pass

    [removeOutputsWithInputsBatch] works on one slot per input:
    [None] once the hint lookup has given up on it. *)

Record slot := mkSlot {
  r_hKey : bytes; r_script : option bytes; r_inMem : bool;
  r_oKey : option bytes; r_oVal : option bytes; r_queued : bool }.

(** Phase 1: hints staged in this batch. *)
Definition queueHintLookup (inp : spend_arg) : SM slot :=
  hKey ← lift_res (kOutHint (sp_prevTxHash inp) (sp_prevOutputIndex inp));
  inMem ← getTransactionValue hKey;
  mret (match inMem with
        | Some script => mkSlot hKey (Some script) true None None false
        | None => mkSlot hKey None false None None true
        end).

(** Phase 1: the hints one read brought back. *)
Definition applyHintValue (r : slot) : SM (option slot) :=
  if r_queued r then
    script ← dbGet (r_hKey r);
    mret ((fun sh => mkSlot (r_hKey r) (Some sh) false None None false) <$> script)
  else mret (Some r).

(** Phase 2: the recent-output cache, dropping the entry it serves. *)
Definition queueOutputLookup (x : spend_arg * option slot) : SM (option slot) :=
  let '(inp, r) := x in
  match r with
  | None => mret None
  | Some r =>
      match r_script r with
      | None => mret (Some r)
      | Some script =>
          if r_inMem r then mret (Some r)
          else
            oKey ← lift_res (kOutputFromBuf script (sp_prevTxHash inp) (sp_prevOutputIndex inp));
            cache ← gets outputCache;
            let cacheKey := (sp_prevTxHash inp, ushr0 (sp_prevOutputIndex inp)) in
            match cache !! cacheKey with
            | Some v =>
                _ ← modify (set_cache (delete cacheKey cache));
                mret (Some (mkSlot (r_hKey r) (Some script) false (Some oKey) (Some v) false))
            | None => mret (Some (mkSlot (r_hKey r) (Some script) false (Some oKey) None true))
            end
      end
  end.

(** Phase 2: the values one read brought back. *)
Definition applyOutputValue (r : option slot) : SM (option slot) :=
  match r with
  | Some r =>
      if r_queued r then
        v ← dbGet (default [] (r_oKey r));
        mret (Some (mkSlot (r_hKey r) (r_script r) false (r_oKey r) v false))
      else mret (Some r)
  | None => mret None
  end.

(** Phase 3: stage one input's deletes. *)
Definition stageSpend (x : spend_arg * option slot) : SM unit :=
  let '(inp, r) := x in
  match r with
  | None => mret tt
  | Some r =>
      let script := default [] (r_script r) in
      if r_inMem r then
        inMemOVal ← unstageInMemorySpend inp script (r_hKey r);
        _ ← writeCrossBlockSpendRecovery inp script inMemOVal;
        mret tt
      else
        match r_oVal r with
        | None => mret tt
        | Some oVal => archiveSpend inp script oVal (default [] (r_oKey r)) (r_hKey r)
        end
  end.

Definition removeOutputsWithInputsBatch (inputs : list spend_arg) : SM nat :=
  if bool_decide (length inputs = 0) then mret 0
  else
    resolved ← mapM_list inputs queueHintLookup;
    resolved ← mapM_list resolved applyHintValue;
    resolved ← mapM_list (zip inputs resolved) queueOutputLookup;
    resolved ← mapM_list resolved applyOutputValue;
    _ ← forM (zip inputs resolved) stageSpend;
    mret (length inputs).

(** ** Deleting a mempool transaction's outputs *)

Definition deleteOutputsByHint (txid : string) : SM nat :=
  let txidBuf := h2b txid in
  rows ← dbScan (pb P_OUT_HINT ++ txidBuf);
  _ ← forM rows (fun '(key, value) =>
    let idxPart := slice 33 37 key in
    _ ← addTransaction del (pb P_OUTPUT ++ value ++ txidBuf ++ idxPart) None;
    _ ← addTransaction del key None;
    mret tt);
  mret (length rows).

Definition deleteOutputsByHints (txids : list string) : SM nat :=
  counts ← mapM_list txids deleteOutputsByHint;
  mret (sum_list counts).

(** ** Reorg recovery *)

Definition processDeletedOutputsInDb (blockHash : string) (recover processOutputHints : bool)
    : SM unit :=
  let prefixBuf := pb (if processOutputHints then P_HINT_DEL else P_OUT_DEL) ++ h2b blockHash in
  rows ← dbScan prefixBuf;
  forM rows (fun '(key, value) =>
    _ ← when recover (
      let suffix := drop 33 key in
      let restoreKey := pb (if processOutputHints then P_OUT_HINT else P_OUTPUT) ++ suffix in
      _ ← addTransaction put restoreKey (Some value);
      mret tt);
    _ ← addTransaction del key None;
    mret tt).

(** [innerMap.forEach]: a staged item keeps its type and takes the value back,
    an absent one is staged again as a put. *)
Definition restoreStaged (inner : gmap bytes (option bytes)) (t : gmap bytes item)
    : gmap bytes item :=
  merge (fun (v : option (option bytes)) (it : option item) =>
           match v, it with
           | None, _ => it
           | Some v, Some it => Some (mkItem (i_type it) v)
           | Some v, None => Some (mkItem put v)
           end) inner t.

Definition processDeletedOutputs (blockHash : string) (recover : bool) : SM unit :=
  s ← get;
  _ ← match deletedTransactionArray s with
      | Some dt =>
          match dt !! blockHash with
          | Some inner =>
              _ ← when recover
                    match transactionArray s with
                    | Some t => modify (set_tx (Some (restoreStaged inner t)))
                    | None => if bool_decide (inner = ∅) then mret tt else throw type_error
                    end;
              modify (set_dtx (Some (delete blockHash dt)))
          | None => mret tt
          end
      | None => mret tt
      end;
  _ ← processDeletedOutputsInDb blockHash recover false;
  processDeletedOutputsInDb blockHash recover true.

Definition removeCreatedOutputsInBlock (blockHash : string) : SM unit :=
  rows ← dbScan (pb P_OUT_BLK ++ h2b blockHash);
  forM rows (fun '(key, value) =>
    let txidBuf := slice 33 65 key in
    let idxBytes := slice 65 69 key in
    _ ← addTransaction del (pb P_OUTPUT ++ value ++ txidBuf ++ idxBytes) None;
    _ ← addTransaction del (pb P_OUT_HINT ++ txidBuf ++ idxBytes) None;
    _ ← addTransaction del key None;
    mret tt).

(** ** Queries *)

Definition decodeRow (e : bytes * bytes) : res utxo_row :=
  let '(key, value) := e in
  n ← read_u32 key 65;
  decoded ← decodeOutput value;
  Ok (mkRow (b2h (slice 33 65 key)) (o_t decoded) n (o_v decoded) (o_h decoded) (o_cb decoded)).

Fixpoint rowsLoop (ceiling : option Z) (rows : list (bytes * bytes)) (n : Z)
    : res (list utxo_row) :=
  match rows with
  | [] => Ok []
  | e :: rest =>
      if match ceiling with Some c => bool_decide (c <= n)%Z | None => false end
      then Err (Error (EAddressTooLarge (default 0%Z ceiling)))
      else
        r ← decodeRow e;
        out ← rowsLoop ceiling rest (n + 1)%Z;
        Ok (r :: out)
  end.

(** [Number.isFinite(limit) && limit > 0 ? Math.floor(limit) : null], on the
    integers the API passes. *)
Definition page_limit (limit : option Z) : option nat :=
  match limit with
  | Some l => if bool_decide (0 < l)%Z then Some (Z.to_nat l) else None
  | None => None
  end.

(** [after]: [None] for no cursor, else the cursor string. *)
Definition getOutputsScriptPubKey (scriptPubKey : string) (limit : option Z)
    (after : option string) (maxOutputs : option Z) : SM (list utxo_row) :=
  let prefix := pb P_OUTPUT ++ h2b scriptPubKey in
  bounds ← match after with
           | Some cursor =>
               match parseOutputCursor (Some cursor) with
               | None => throw (Error EInvalidCursor)
               | Some (txidHex, vout) => mret (Some (prefix ++ h2b txidHex ++ idxBuf vout), None)
               end
           | None => mret (None, Some prefix)
           end;
  let pageLimit := page_limit limit in
  rows ← dbIterator (mkRange bounds.1 bounds.2 (Some (rangeEnd prefix)) pageLimit);
  lift_res (rowsLoop (match pageLimit with None => maxOutputs | Some _ => None end) rows 0).

Fixpoint valuesLoop (ceiling : option Z) (rows : list (bytes * bytes)) (n : Z)
    : res (list (string * string)) :=
  match rows with
  | [] => Ok []
  | (k, v) :: rest =>
      if match ceiling with Some c => bool_decide (c <= n)%Z | None => false end
      then Err (Error (EAddressTooLarge (default 0%Z ceiling)))
      else out ← valuesLoop ceiling rest (n + 1)%Z; Ok ((b2h k, b2h v) :: out)
  end.

Definition getValuesFromKeyPattern (pattern : script_arg) (maxValues : option Z)
    : SM (list (string * string)) :=
  let patternBuf := match pattern with SBuf b => b | SHex s => h2b s end in
  if bool_decide (length patternBuf < 2) then throw (Error EBadRequest)
  else
    rows ← dbScan patternBuf;
    lift_res (valuesLoop maxValues rows 0).
End ops.
