(* ===== verification/StoreFacts.v ===== *)
(** How the store's operations act.  [view] is what a key reads as once the open
    batch commits; [stage ws] is the effect of a run of [addTransaction] calls.
    Every operation that reads the disk and stages writes is characterised by the
    list of writes it stages; [endTransaction] turns the view into the disk. *)

From S2P Require Import Prelude KeyCodec LevelDb ValueCodec Store Outputs.

#[local] Open Scope string_scope.
#[local] Open Scope nat_scope.
#[local] Open Scope list_scope.

(** * Writes *)

(** A staged write: [Some v] a put, [None] a delete. *)
Definition write : Type := bytes * option bytes.

Definition item_of (o : option bytes) : item :=
  match o with Some v => mkItem put (Some v) | None => mkItem del None end.

Fixpoint stage_all (ws : list write) (t : gmap bytes item) : gmap bytes item :=
  match ws with
  | [] => t
  | (k, o) :: ws' => stage_all ws' (<[k := item_of o]> t)
  end.

(** The last write to [k], if any. *)
Fixpoint last_write (ws : list write) (k : bytes) : option (option bytes) :=
  match ws with
  | [] => None
  | (k', o) :: ws' =>
      match last_write ws' k with
      | Some x => Some x
      | None => if decide (k' = k) then Some o else None
      end
  end.

Lemma last_write_app ws1 ws2 k :
  last_write (ws1 ++ ws2) k
  = match last_write ws2 k with Some x => Some x | None => last_write ws1 k end.
Proof.
  induction ws1 as [|[k' o] ws1 IH]; cbn [last_write app]; [by destruct (last_write ws2 k)|].
  rewrite IH. by destruct (last_write ws2 k).
Qed.

Lemma last_write_none ws k : k ∉ ws.*1 -> last_write ws k = None.
Proof.
  induction ws as [|[k' o] ws IH]; intros Hk; cbn [last_write]; [done|].
  rewrite fmap_cons, not_elem_of_cons in Hk. destruct Hk as [Hne Hk].
  rewrite IH by done. rewrite decide_False; [done|]. intros ->. by apply Hne.
Qed.

(** All the writes to [k] agree: that is what [k] gets. *)
Lemma last_write_uniform ws k o :
  (k, o) ∈ ws -> (forall o', (k, o') ∈ ws -> o' = o) -> last_write ws k = Some o.
Proof.
  induction ws as [|[k' o1] ws IH]; intros Hin Hall; [by apply elem_of_nil in Hin|].
  cbn [last_write].
  assert (Hall' : forall o', (k, o') ∈ ws -> o' = o) by (intros o' ?; apply Hall; by right).
  destruct (decide ((k, o) ∈ ws)) as [Hws|Hws]; [by rewrite IH|].
  apply elem_of_cons in Hin as [[= -> ->]|?]; [|done].
  rewrite last_write_none, decide_True; [done..|].
  intros ([k2 o2] & E & Hin)%list_elem_of_fmap. cbn in E. subst k2.
  assert (o2 = o1) as -> by (apply Hall; by right). done.
Qed.

Lemma last_write_in ws k o : last_write ws k = Some o -> (k, o) ∈ ws.
Proof.
  induction ws as [|[k' o'] ws IH]; cbn [last_write]; [done|].
  destruct (last_write ws k) as [x|].
  - intros [= ->]. right. auto.
  - case_decide as E; [|done]. intros [= ->]. subst. by left.
Qed.

Lemma stage_all_app ws1 ws2 t : stage_all (ws1 ++ ws2) t = stage_all ws2 (stage_all ws1 t).
Proof. revert t. induction ws1 as [|[k o] ws1 IH]; intros t; cbn [stage_all app]; auto. Qed.

Lemma lookup_stage_all ws t k :
  stage_all ws t !! k
  = match last_write ws k with Some o => Some (item_of o) | None => t !! k end.
Proof.
  revert t. induction ws as [|[k' o] ws IH]; intros t; cbn [stage_all last_write]; [done|].
  rewrite IH. destruct (last_write ws k); [done|].
  rewrite lookup_insert. by repeat case_decide.
Qed.

Definition valid_tx (t : gmap bytes item) : Prop := map_Forall (fun _ it => valid_item it) t.

Lemma valid_item_of o : valid_item (item_of o).
Proof. destruct o; cbn; eauto. Qed.

Lemma valid_stage_all ws t : valid_tx t -> valid_tx (stage_all ws t).
Proof.
  revert t. induction ws as [|[k o] ws IH]; intros t Ht; cbn [stage_all]; [done|].
  apply IH. apply map_Forall_insert_2; [apply valid_item_of|done].
Qed.

(** * Views *)

Section view.
Context {node : Node} {DB : Type} `{LevelDbLaws DB}.
Implicit Type s : store DB.

(** What [k] holds once the open batch is committed. *)
Definition view s (k : bytes) : option bytes :=
  match transactionArray s with
  | Some t =>
      match t !! k with
      | Some it => apply_item it (db_get (disk s) k)
      | None => db_get (disk s) k
      end
  | None => db_get (disk s) k
  end.

Definition vk s (k : key) : option bytes := view s (enc k).

(** An open batch whose items the database accepts. *)
Definition in_batch s : Prop :=
  exists t, transactionArray s = Some t /\ valid_tx t.

(** Appends writes to the open batch. *)
Definition stage (ws : list write) s : store DB :=
  match transactionArray s with
  | Some t => set_tx (Some (stage_all ws t)) s
  | None => s
  end.

Lemma stage_nil s : stage [] s = s.
Proof. unfold stage. destruct s as [? [t|] ? ? ? ?]; done. Qed.

Lemma stage_app ws1 ws2 s : stage (ws1 ++ ws2) s = stage ws2 (stage ws1 s).
Proof.
  unfold stage. destruct (transactionArray s) as [t|] eqn:E; [|by rewrite E].
  cbn. by rewrite stage_all_app.
Qed.

Lemma stage_2 w1 w2 s : stage [w1; w2] s = stage [w2] (stage [w1] s).
Proof. apply (stage_app [w1] [w2]). Qed.

Lemma stage_3 w1 w2 w3 s : stage [w1; w2; w3] s = stage [w3] (stage [w2] (stage [w1] s)).
Proof. by rewrite <- stage_2, <- (stage_app [w1] [w2; w3]). Qed.

Lemma disk_stage ws s : disk (stage ws s) = disk s.
Proof. unfold stage. by destruct (transactionArray s). Qed.

Lemma cache_stage ws s : outputCache (stage ws s) = outputCache s.
Proof. unfold stage. by destruct (transactionArray s). Qed.

Lemma known_stage ws s : knownScripts (stage ws s) = knownScripts s.
Proof. unfold stage. by destruct (transactionArray s). Qed.

Lemma dtx_stage ws s : deletedTransactionArray (stage ws s) = deletedTransactionArray s.
Proof. unfold stage. by destruct (transactionArray s). Qed.

Lemma faults_stage ws s : faults (stage ws s) = faults s.
Proof. unfold stage. by destruct (transactionArray s). Qed.

Lemma in_batch_stage ws s : in_batch s -> in_batch (stage ws s).
Proof.
  intros (t & E & Ht). unfold stage, in_batch. rewrite E. cbn.
  eexists. split; [done|]. by apply valid_stage_all.
Qed.

Lemma view_stage ws s k :
  in_batch s -> view (stage ws s) k = default (view s k) (last_write ws k).
Proof.
  intros (t & E & _). unfold stage, view. rewrite E. cbn. rewrite lookup_stage_all.
  destruct (last_write ws k) as [[v|]|]; done.
Qed.

Lemma view_disk s k : transactionArray s = None -> view s k = db_get (disk s) k.
Proof. intros E. unfold view. by rewrite E. Qed.

(** ** Running the primitive operations *)

Lemma run_addTransaction s ty k v :
  in_batch s ->
  (ty = put /\ is_Some v) \/ (ty = del /\ v = None) ->
  addTransaction ty k v s = (Ok true, stage [(k, v)] s).
Proof.
  intros (t & E & _) Hv. unfold addTransaction, mbind, M_bind, get, stage. rewrite E. cbn.
  destruct Hv as [[-> [x ->]]|[-> ->]]; done.
Qed.

Lemma run_put s k v : in_batch s -> addTransaction put k (Some v) s = (Ok true, stage [(k, Some v)] s).
Proof. intros. apply run_addTransaction; eauto. Qed.

Lemma run_del s k : in_batch s -> addTransaction del k None s = (Ok true, stage [(k, None)] s).
Proof. intros. apply run_addTransaction; eauto. Qed.

Lemma run_getTransactionValue s k :
  getTransactionValue k s
  = (Ok (match transactionArray s with
         | Some t => match t !! k with Some it => i_value it | None => None end
         | None => None
         end), s).
Proof. done. Qed.

(** A loop whose body stages the writes [g x]. *)
Lemma run_forM_stage {A} (l : list A) (f : A -> M (store DB) unit) (g : A -> list write) s :
  in_batch s ->
  (forall x s', x ∈ l -> in_batch s' -> disk s' = disk s -> f x s' = (Ok tt, stage (g x) s')) ->
  forM l f s = (Ok tt, stage (flat_map g l) s).
Proof.
  revert s. induction l as [|x l IH]; intros s Hb Hf; cbn [forM flat_map].
  - by rewrite stage_nil.
  - rewrite (run_bind_ok _ _ s tt (stage (g x) s)) by (apply Hf; [by left|done|done]).
    rewrite stage_app. apply IH; [by apply in_batch_stage|].
    intros y s' Hy Hs' Hd. apply Hf; [by right|done|]. by rewrite Hd, disk_stage.
Qed.

(** ** Lifecycle *)

Lemma run_beginTransaction s :
  beginTransaction s = (Ok tt, set_dtx (Some ∅) (set_tx (Some ∅) s)).
Proof. done. Qed.

Lemma in_batch_begin s : in_batch (set_dtx (Some ∅) (set_tx (Some ∅) s)).
Proof. eexists. split; [done|]. apply map_Forall_empty. Qed.

Lemma view_begin s k : view (set_dtx (Some ∅) (set_tx (Some ∅) s)) k = db_get (disk s) k.
Proof. unfold view. cbn. by rewrite lookup_empty. Qed.

(** The next commit the disk accepts. *)
Definition commit_ok s : Prop := head (faults s) <> Some true.

Lemma run_endTransaction_commit s :
  in_batch s -> commit_ok s ->
  exists s', endTransaction true s = (Ok tt, s')
    /\ (forall k, db_get (disk s') k = view s k)
    /\ transactionArray s' = None /\ deletedTransactionArray s' = None
    /\ outputCache s' = outputCache s /\ knownScripts s' = knownScripts s
    /\ faults s' = tail (faults s).
Proof.
  intros (t & E & Ht) Hf. unfold endTransaction, when, mbind, M_bind, mret, M_ret, get, modify.
  cbn. rewrite E. rewrite bool_decide_eq_true_2 by done. cbn.
  unfold commit_ok in Hf.
  destruct (faults s) as [|[] fs]; cbn in *; try done;
    (eexists; split; [done|]; cbn; split; [|done]; intros k;
     unfold view; rewrite E; cbn; apply get_batch_map).
Qed.

Lemma run_endTransaction_refused s fs :
  in_batch s -> faults s = true :: fs ->
  endTransaction true s = (Err (Error EBatch), set_faults fs s).
Proof.
  intros (t & E & Ht) Hf. unfold endTransaction, when, mbind, M_bind, mret, M_ret, get, modify.
  cbn. rewrite E. rewrite bool_decide_eq_true_2 by done. cbn. by rewrite Hf.
Qed.

Lemma run_endTransaction_discard s :
  endTransaction false s = (Ok tt, set_dtx None (set_tx None (set_known ∅ s))).
Proof. done. Qed.
End view.

#[export] Hint Resolve in_batch_stage in_batch_begin : store_keys.

(** * Well-formed stores and what the prefix scans of the store find in them *)

(** The records whose value is a script hash. *)
Definition wf_val (k : key) (v : bytes) : Prop :=
  match k with
  | KOutHint _ _ | KOutBlk _ _ _ | KHintDel _ _ _ => hash32 v
  | _ => True
  end.

(** * Prefixes of schema keys *)

Lemma app_inv_32 (a b c d : bytes) :
  hash32 a -> hash32 c -> a ++ b = c ++ d -> a = c.
Proof. intros Ha Hc E. apply app_inj_1 in E as [? _]; [done|]. unfold hash32 in *; lia. Qed.

Ltac prefix_cases :=
  match goal with
  | |- context [enc ?k0] =>
      let m := fresh "m" in destruct k0 as [| | | | | | | | | | | | | |m]; try (destruct m)
  end;
  let Hp := fresh in let Hw := fresh in let r := fresh in let E := fresh in
  cbn [enc wf_key pb app]; intros Hp Hw [r E];
  try discriminate E;
  apply (f_equal tail) in E; cbn [tail app] in E;
  rewrite <- ?app_assoc in E; destruct_and?;
  apply app_inv_32 in E as ->; eauto.

Section prefixes.
Context (bh : bytes).

Lemma prefix_out_del k :
  hash32 bh -> wf_key k -> pb P_OUT_DEL ++ bh `prefix_of` enc k ->
  exists sh t i, k = KOutDel bh sh t i.
Proof. prefix_cases. Qed.

Lemma prefix_hint_del k :
  hash32 bh -> wf_key k -> pb P_HINT_DEL ++ bh `prefix_of` enc k ->
  exists t i, k = KHintDel bh t i.
Proof. prefix_cases. Qed.

Lemma prefix_out_blk k :
  hash32 bh -> wf_key k -> pb P_OUT_BLK ++ bh `prefix_of` enc k ->
  exists t i, k = KOutBlk bh t i.
Proof. prefix_cases. Qed.

Lemma prefix_blk_script k :
  hash32 bh -> wf_key k -> pb P_BLK_SCRIPT ++ bh `prefix_of` enc k ->
  exists sh, k = KBlkScript bh sh.
Proof. prefix_cases. Qed.

Lemma prefix_tx_recovery k :
  hash32 bh -> wf_key k -> pb P_TX_BLOCK_RECOVERY ++ bh `prefix_of` enc k ->
  exists t, k = KTxBlockRecovery bh t.
Proof. prefix_cases. Qed.

Lemma prefix_output k :
  hash32 bh -> wf_key k -> pb P_OUTPUT ++ bh `prefix_of` enc k ->
  exists t i, k = KOutput bh t i.
Proof. prefix_cases. Qed.

Lemma prefix_out_hint k :
  hash32 bh -> wf_key k -> pb P_OUT_HINT ++ bh `prefix_of` enc k ->
  exists i, k = KOutHint bh i.
Proof. prefix_cases. Qed.

Lemma prefix_in_hint k :
  hash32 bh -> wf_key k -> pb P_IN_HINT ++ bh `prefix_of` enc k ->
  exists pt i, k = KInHint bh pt i.
Proof. prefix_cases. Qed.
End prefixes.

Lemma prefix_stored_blk k : wf_key k -> pb P_STORED_BLK `prefix_of` enc k -> exists bh, k = KStoredBlk bh.
Proof.
  destruct k as [| | | | | | | | | | | | | |m]; try (destruct m); cbn; intros _ [r E];
    try discriminate E; eauto.
Qed.

Lemma prefix_block k : wf_key k -> pb P_BLOCK `prefix_of` enc k -> exists bh, k = KBlock bh.
Proof.
  destruct k as [| | | | | | | | | | | | | |m]; try (destruct m); cbn; intros _ [r E];
    try discriminate E; eauto.
Qed.

Lemma prefix_tx k : wf_key k -> pb P_TX `prefix_of` enc k -> exists t, k = KTx t.
Proof.
  destruct k as [| | | | | | | | | | | | | |m]; try (destruct m); cbn; intros _ [r E];
    try discriminate E; eauto.
Qed.

(** * Well-formed databases *)

Section db_wf.
Context {DB : Type} `{LevelDbLaws DB}.
Implicit Type d : DB.

Definition dk d (k : key) : option bytes := db_get d (enc k).

Definition db_wf d : Prop :=
  forall b v, db_get d b = Some v -> exists k, b = enc k /\ wf_key k /\ wf_val k v.

Lemma db_wf_bounded d : db_wf d -> keys_bounded d.
Proof. intros Hw b v Hg. destruct (Hw b v Hg) as (k & -> & Hk & _). by apply length_enc. Qed.

Lemma db_wf_val d k v : db_wf d -> wf_key k -> dk d k = Some v -> wf_val k v.
Proof.
  intros Hw Hk Hg. destruct (Hw _ _ Hg) as (k' & E & Hk' & Hv).
  by apply enc_inj in E as <-.
Qed.

(** A prefix scan finds the well-formed records under the prefix. *)
Lemma elem_of_scan d p b v :
  db_wf d ->
  (b, v) ∈ prefix_scan d p <->
  exists k, b = enc k /\ wf_key k /\ wf_val k v /\ dk d k = Some v /\ p `prefix_of` enc k.
Proof.
  intros Hw. rewrite elem_of_prefix_scan by by apply db_wf_bounded. split.
  - intros [Hg Hp]. destruct (Hw _ _ Hg) as (k & -> & ? & ?). by exists k.
  - intros (k & -> & _ & _ & Hg & Hp). done.
Qed.
End db_wf.

(** * Slices of schema keys *)

Lemma drop_1_32 (p : byte) (h r : bytes) : hash32 h -> drop 33 (p :: h ++ r) = r.
Proof. intros Hh. cbn [drop]. by apply drop_app_length'. Qed.

Lemma slice_33_65 (p : byte) (h t r : bytes) :
  hash32 h -> hash32 t -> slice 33 65 (p :: h ++ t ++ r) = t.
Proof.
  intros Hh Ht. apply (slice_mid (p :: h) t r 33 65); cbn; unfold hash32 in *; lia.
Qed.

Lemma slice_65_69 (p : byte) (h t r : bytes) :
  hash32 h -> hash32 t -> length r = 4 -> slice 65 69 (p :: h ++ t ++ r) = r.
Proof.
  intros Hh Ht Hr. pose proof (slice_mid (p :: h ++ t) r [] 65 69) as E.
  rewrite app_nil_r in E. cbn [app] in E. rewrite <- app_assoc in E.
  apply E; cbn; rewrite ?length_app; unfold hash32 in *; lia.
Qed.

Lemma slice_33_37 (p : byte) (t r : bytes) :
  hash32 t -> length r = 4 -> slice 33 37 (p :: t ++ r) = r.
Proof.
  intros Ht Hr. pose proof (slice_mid (p :: t) r [] 33 37) as E.
  rewrite app_nil_r in E. cbn [app] in E. apply E; cbn; unfold hash32 in *; lia.
Qed.

Lemma elem_of_flat_map {A B} (f : A -> list B) (l : list A) (y : B) :
  y ∈ flat_map f l <-> exists x, x ∈ l /\ y ∈ f x.
Proof.
  rewrite list_elem_of_In, in_flat_map. by setoid_rewrite list_elem_of_In.
Qed.
