(* ===== verification/Rollback.v ===== *)
(** What the reorg and pruning operations of the store stage: for each of them the
    list of writes, and for each record of the schema the last write to it.  The
    result is [rollback_writes], the write set of one rolled-back block, and its
    typed reading [lw_rollback]. *)

From S2P Require Import Prelude KeyCodec ValueCodec LevelDb Store Outputs StoreFacts.

#[local] Open Scope string_scope.
#[local] Open Scope nat_scope.
#[local] Open Scope list_scope.

(** * Write sets *)

(** One scanned record's writes, per operation. *)
Definition gZ (e : bytes * bytes) : list write :=
  [(pb P_SCRIPT_BLK ++ drop 33 e.1, None); (e.1, None)].
Definition gK (hints : bool) (e : bytes * bytes) : list write :=
  [(pb (if hints then P_OUT_HINT else P_OUTPUT) ++ drop 33 e.1, Some e.2); (e.1, None)].
Definition gW (e : bytes * bytes) : list write :=
  [(pb P_OUTPUT ++ e.2 ++ slice 33 65 e.1 ++ slice 65 69 e.1, None);
   (pb P_OUT_HINT ++ slice 33 65 e.1 ++ slice 65 69 e.1, None);
   (e.1, None)].
Definition gDel (e : bytes * bytes) : list write := [(e.1, None)].

(** The txids of a block's creation-index records. *)
Definition scan_txids (rows : list (bytes * bytes)) : list bytes :=
  (fun e : bytes * bytes => slice 33 65 e.1) <$> rows.

Section writes.
Context {node : Node} {DB : Type} `{LevelDbLaws DB}.
Implicit Type d : DB.

Definition scan d (p : byte) (bh : bytes) : list (bytes * bytes) := prefix_scan d (pb p ++ bh).

Definition wZ d bh := flat_map gZ (scan d P_BLK_SCRIPT bh).
Definition wK d bh := flat_map (gK false) (scan d P_OUT_DEL bh).
Definition wM d bh := flat_map (gK true) (scan d P_HINT_DEL bh).
Definition wW d bh := flat_map gW (scan d P_OUT_BLK bh).

(** One transaction's T/X/Y deletes. *)
Definition tx_writes d (bh t : bytes) : list write :=
  match dk d (KTxBlockRecovery bh t) with
  | None => [(enc (KTxExact t), None); (enc (KTx t), None)]
  | Some _ =>
      (if bool_decide (((fun v => take 32 v) <$> dk d (KTx t)) = Some bh)
       then [(enc (KTx t), None)] else [])
      ++ (if bool_decide (((fun v => take 32 v) <$> dk d (KTxExact t)) = Some bh)
          then [(enc (KTxExact t), None)] else [])
      ++ [(enc (KTxBlockRecovery bh t), None)]
  end.

Fixpoint txs_writes d (bh : bytes) (ts : list bytes) (seen : list bytes) : list write :=
  match ts with
  | [] => []
  | t :: ts' =>
      if decide (t ∈ seen) then txs_writes d bh ts' seen
      else tx_writes d bh t ++ txs_writes d bh ts' (t :: seen)
  end.

Definition wT d bh :=
  txs_writes d bh (scan_txids (scan d P_OUT_BLK bh)) [].

Definition created_tx d (bh t : bytes) : Prop :=
  t ∈ scan_txids (scan d P_OUT_BLK bh).

#[global] Instance created_tx_dec d bh t : Decision (created_tx d bh t).
Proof. unfold created_tx. apply _. Defined.

Lemma elem_of_txs_writes d bh ts seen w :
  w ∈ txs_writes d bh ts seen
  <-> (exists t, t ∈ ts /\ ~ t ∈ seen /\ w ∈ tx_writes d bh t).
Proof.
  revert seen. induction ts as [|t ts IH]; intros seen; cbn [txs_writes].
  - split; [by intros ?%elem_of_nil|]. by intros (? & ?%elem_of_nil & _).
  - destruct (decide (t ∈ seen)) as [Hs|Hs].
    + rewrite IH. split.
      * intros (t' & ? & ? & ?). exists t'. split; [by right|done].
      * intros (t' & [->|?]%elem_of_cons & ? & ?); [done|]. by exists t'.
    + rewrite elem_of_app, IH. split.
      * intros [?|(t' & ? & Hn & ?)].
        -- exists t. split; [by left|done].
        -- exists t'. split; [by right|]. split; [|done]. intros ?. apply Hn. by right.
      * intros (t' & Hin & Hn & Hw).
        destruct (decide (t' = t)) as [->|Hne]; [by left|].
        apply elem_of_cons in Hin as [?|?]; [done|].
        right. exists t'. split; [done|]. split; [|done].
        apply not_elem_of_cons. by split.
Qed.
End writes.

(** * The operations stage those writes *)

(** Evaluates one store operation that is known to stage [ws]. *)
Tactic Notation "step_stage" uconstr(L) := rewrite (run_bind_ok _ _ _ _ _ L).

Lemma lower_nib_id c : is_lower_hex c = true -> lower c = c.
Proof. destruct c as [[] [] [] [] [] [] [] []]; vm_compute; congruence. Qed.

Lemma toLowerCase_id s : all_lower_hex s = true -> toLowerCase s = s.
Proof.
  induction s as [|c s IH]; cbn [all_lower_hex toLowerCase]; [done|].
  intros [Hc Hs]%andb_true_iff. by rewrite lower_nib_id, IH.
Qed.

Section runs.
Context {node : Node} {DB : Type} `{LevelDbLaws DB}.
Implicit Type s : store DB.

Lemma run_dbScan s p : dbScan p s = (Ok (prefix_scan (disk s) p), s).
Proof. done. Qed.

Lemma run_dbGet s k : dbGet k s = (Ok (db_get (disk s) k), s).
Proof. done. Qed.

Lemma run_lift {A} s (r : res A) : lift_res r s = (r, s).
Proof. done. Qed.

Lemma run_removeOutputScriptsInBlock s bh :
  in_batch s ->
  removeOutputScriptsInBlock bh s
  = (Ok tt, (if bool_decide (length (scan (disk s) P_BLK_SCRIPT (h2b bh)) = 0)
             then stage (wZ (disk s) (h2b bh)) s
             else set_known ∅ (stage (wZ (disk s) (h2b bh)) s))).
Proof.
  intros Hb. unfold removeOutputScriptsInBlock. step_stage (run_dbScan s _).
  rewrite (run_bind_ok _ _ s tt (stage (wZ (disk s) (h2b bh)) s)).
  - unfold when, scan, prefix_scan, modify, mret, M_ret. by case_bool_decide.
  - apply run_forM_stage; [done|]. intros [k v] s' _ Hs' _.
    step_stage (run_del s' (pb P_SCRIPT_BLK ++ drop 33 k) Hs').
    step_stage (run_del _ k (in_batch_stage _ _ Hs')).
    unfold gZ. cbn [fst]. by rewrite stage_2.
Qed.

Lemma run_processDeletedOutputsInDb s bh hints :
  in_batch s ->
  processDeletedOutputsInDb bh true hints s
  = (Ok tt, stage (if hints then wM (disk s) (h2b bh) else wK (disk s) (h2b bh)) s).
Proof.
  intros Hb. unfold processDeletedOutputsInDb. step_stage (run_dbScan s _).
  assert (E : (if hints then wM (disk s) (h2b bh) else wK (disk s) (h2b bh))
    = flat_map (gK hints)
        (prefix_scan (disk s) (pb (if hints then P_HINT_DEL else P_OUT_DEL) ++ h2b bh)))
    by (by destruct hints).
  rewrite E. apply run_forM_stage; [done|]. intros [k v] s' _ Hs' _.
  unfold when.
  rewrite (run_bind_ok _ _ s' tt
    (stage [(pb (if hints then P_OUT_HINT else P_OUTPUT) ++ drop 33 k, Some v)] s')).
  - step_stage (run_del _ k (in_batch_stage _ _ Hs')).
    unfold gK. cbn [fst snd]. by rewrite stage_2.
  - by step_stage (run_put s' (pb (if hints then P_OUT_HINT else P_OUTPUT) ++ drop 33 k) v Hs').
Qed.

(** With no in-memory restore entries for the block, as right after
    [beginTransaction], recovery is the two disk scans. *)
Lemma run_processDeletedOutputs s bh :
  in_batch s -> deletedTransactionArray s = Some ∅ ->
  processDeletedOutputs bh true s
  = (Ok tt, stage (wK (disk s) (h2b bh) ++ wM (disk s) (h2b bh)) s).
Proof.
  intros Hb Hd. unfold processDeletedOutputs.
  rewrite (run_bind_ok _ _ s s s) by done. rewrite Hd, lookup_empty.
  rewrite (run_bind_ok _ _ s tt s) by done.
  step_stage (run_processDeletedOutputsInDb s bh false Hb).
  rewrite run_processDeletedOutputsInDb by by apply in_batch_stage.
  by rewrite disk_stage, stage_app.
Qed.

Lemma run_removeCreatedOutputsInBlock s bh :
  in_batch s ->
  removeCreatedOutputsInBlock bh s = (Ok tt, stage (wW (disk s) (h2b bh)) s).
Proof.
  intros Hb. unfold removeCreatedOutputsInBlock. step_stage (run_dbScan s _).
  apply run_forM_stage; [done|]. intros [k v] s' _ Hs' _.
  step_stage (run_del s' (pb P_OUTPUT ++ v ++ slice 33 65 k ++ slice 65 69 k) Hs').
  step_stage (run_del _ (pb P_OUT_HINT ++ slice 33 65 k ++ slice 65 69 k) (in_batch_stage _ _ Hs')).
  step_stage (run_del _ k (in_batch_stage _ _ (in_batch_stage _ _ Hs'))).
  unfold gW. cbn [fst snd]. by rewrite stage_3.
Qed.

Lemma run_deleteScan s p bh :
  in_batch s ->
  deleteScan p bh s = (Ok tt, stage (flat_map gDel (scan (disk s) p (h2b bh))) s).
Proof.
  intros Hb. unfold deleteScan. step_stage (run_dbScan s _).
  apply run_forM_stage; [done|]. intros [k v] s' _ Hs' _.
  by step_stage (run_del s' k Hs').
Qed.

Lemma run_removeTxBlockRecoveryIndexOnly s bh :
  in_batch s ->
  removeTxBlockRecoveryIndexOnly bh s
  = (Ok tt, stage (flat_map gDel (scan (disk s) P_TX_BLOCK_RECOVERY (h2b bh))) s).
Proof.
  intros Hb. unfold removeTxBlockRecoveryIndexOnly. step_stage (run_dbScan s _).
  apply run_forM_stage; [done|]. intros [k v] s' _ Hs' _.
  by step_stage (run_del s' k Hs').
Qed.

Lemma run_deleteTransaction s t :
  in_batch s -> hash32 t ->
  deleteTransaction (b2h t) s
  = (Ok true, stage [(enc (KTxExact t), None); (enc (KTx t), None)] s).
Proof.
  intros Hb Ht. unfold deleteTransaction.
  rewrite toLowerCase_id by apply all_lower_b2h.
  rewrite kTxExact_ok, kTx_ok by by apply b2h_is_hash. rewrite h2b_b2h.
  step_stage (run_lift s (Ok (enc (KTxExact t)))).
  step_stage (run_del s (enc (KTxExact t)) Hb).
  step_stage (run_lift (stage [(enc (KTxExact t), None)] s) (Ok (enc (KTx t)))).
  rewrite run_del by by apply in_batch_stage.
  by rewrite stage_2.
Qed.

Lemma decodeTx_is v bh :
  is_hash bh -> decodeTx v = bh <-> take 32 v = h2b bh.
Proof.
  intros Hbh. unfold decodeTx, slice. rewrite drop_0. change (32 - 0) with 32. split.
  - intros <-. by rewrite h2b_b2h.
  - intros ->. by apply b2h_h2b.
Qed.

(** [if (value !== undefined && decodeTx(value).bh === blockHash) del(key)]. *)
Lemma run_conditional_del s k bh :
  in_batch s -> is_hash bh ->
  exists b,
    match db_get (disk s) k with
    | Some v => if bool_decide (decodeTx v = bh) then addTransaction del k None else mret false
    | None => mret false
    end s
    = (Ok b, stage (if bool_decide (((fun v => take 32 v) <$> db_get (disk s) k) = Some (h2b bh))
                    then [(k, None)] else []) s).
Proof.
  intros Hb Hbh. destruct (db_get (disk s) k) as [v|]; cbn.
  - destruct (decide (decodeTx v = bh)) as [E|E].
    + rewrite bool_decide_eq_true_2 by done.
      apply decodeTx_is in E; [|done].
      rewrite bool_decide_eq_true_2 by (by rewrite E).
      exists true. by apply run_del.
    + rewrite bool_decide_eq_false_2 by done.
      rewrite bool_decide_eq_false_2 by (intros [= E']; apply E; by apply decodeTx_is).
      exists false. by rewrite stage_nil.
  - exists false. by rewrite stage_nil.
Qed.

Lemma run_deleteTxBlockRecord s t bh :
  in_batch s -> hash32 t -> is_hash bh ->
  exists b, deleteTxBlockRecord (b2h t) bh s = (Ok b, stage (tx_writes (disk s) (h2b bh) t) s).
Proof.
  intros Hb Ht Hbh. unfold deleteTxBlockRecord, tx_writes, dk.
  rewrite kTxBlockRecovery_ok, kTxExact_ok, kTx_ok by auto using b2h_is_hash.
  rewrite h2b_b2h.
  step_stage (run_lift s (Ok (enc (KTxBlockRecovery (h2b bh) t)))).
  step_stage (run_dbGet s (enc (KTxBlockRecovery (h2b bh) t))).
  destruct (db_get (disk s) (enc (KTxBlockRecovery (h2b bh) t))) as [y|].
  - step_stage (run_lift s (Ok (enc (KTx t)))). step_stage (run_dbGet s (enc (KTx t))).
    destruct (run_conditional_del s (enc (KTx t)) bh Hb Hbh) as [b1 E1].
    rewrite (run_bind_ok _ _ _ _ _ E1). clear E1. set (s1 := stage _ s).
    assert (Hb1 : in_batch s1) by by apply in_batch_stage.
    assert (Hd1 : disk s1 = disk s) by apply disk_stage.
    step_stage (run_lift s1 (Ok (enc (KTxExact t)))).
    step_stage (run_dbGet s1 (enc (KTxExact t))).
    destruct (run_conditional_del s1 (enc (KTxExact t)) bh Hb1 Hbh) as [b2 E2].
    rewrite (run_bind_ok _ _ _ _ _ E2). clear E2.
    exists true. rewrite run_del by by apply in_batch_stage.
    by rewrite Hd1, !stage_app.
  - exists true. by apply run_deleteTransaction.
Qed.

Lemma elem_of_b2h_set (t : bytes) (seen : list bytes) :
  b2h t ∈ (list_to_set (b2h <$> seen) : gset string) <-> t ∈ seen.
Proof.
  rewrite elem_of_list_to_set, list_elem_of_fmap. split.
  - intros (t' & E & Hin). by apply b2h_inj in E as ->.
  - intros Hin. by exists t.
Qed.

Lemma run_deleteTxLoop s rows bh seen :
  in_batch s -> is_hash bh ->
  (forall e, e ∈ rows -> hash32 (slice 33 65 e.1)) ->
  exists n, deleteTxLoop bh rows (list_to_set (b2h <$> seen)) s
    = (Ok n, stage (txs_writes (disk s) (h2b bh) (scan_txids rows) seen) s).
Proof.
  intros Hb Hbh. revert s seen Hb.
  induction rows as [|[k v] rows IH]; intros s seen Hb Hrows; cbn [deleteTxLoop].
  - eexists. cbn. by rewrite stage_nil.
  - change (scan_txids ((k, v) :: rows)) with (slice 33 65 k :: scan_txids rows).
    cbn [txs_writes]. set (t := slice 33 65 k).
    assert (Hrows' : forall e, e ∈ rows -> hash32 (slice 33 65 e.1))
      by (intros; apply Hrows; by right).
    destruct (decide (t ∈ seen)) as [Hs|Hs].
    + rewrite bool_decide_eq_true_2 by by apply elem_of_b2h_set. by apply IH.
    + rewrite bool_decide_eq_false_2 by by rewrite elem_of_b2h_set.
      destruct (run_deleteTxBlockRecord s t bh) as [b E];
        [done|apply (Hrows (k, v)); by left|done|].
      rewrite (run_bind_ok _ _ _ _ _ E).
      destruct (IH (stage (tx_writes (disk s) (h2b bh) t) s) (t :: seen)) as [n En];
        [by apply in_batch_stage|done|].
      exists n. rewrite stage_app. rewrite disk_stage in En. rewrite <- En.
      by rewrite fmap_cons.
Qed.
End runs.

(** * Typed reading of the write sets

    [writes_rel ws R]: the list [ws] holds exactly the writes [R] allows, all to
    keys of the schema. *)

Definition writes_rel (ws : list write) (R : key -> option bytes -> Prop) : Prop :=
  forall b o, (b, o) ∈ ws <-> (exists k, b = enc k /\ wf_key k /\ R k o).

Lemma lw_some ws R k o :
  writes_rel ws R -> wf_key k -> R k o -> (forall o', R k o' -> o' = o) ->
  last_write ws (enc k) = Some o.
Proof.
  intros Hws Hk Ho Huniq. apply last_write_uniform.
  - apply Hws. by exists k.
  - intros o' (k' & E & Hk' & Ho')%Hws. apply enc_inj in E as <-; auto.
Qed.

Lemma lw_none ws R k :
  writes_rel ws R -> wf_key k -> (forall o, ~ R k o) -> last_write ws (enc k) = None.
Proof.
  intros Hws Hk Hno. apply last_write_none.
  intros ([b o] & E & (k' & E' & Hk' & Ho)%Hws)%list_elem_of_fmap. cbn in E.
  subst b. apply enc_inj in E' as <-; [|done..]. by apply (Hno o).
Qed.

(** The write lists one scan produces: each record [k] yields the writes [R k v]. *)
Lemma writes_rel_scan {DB} `{LevelDbLaws DB} (d : DB) p (g : bytes * bytes -> list write) R :
  db_wf d ->
  (forall k v, wf_key k -> wf_val k v -> dk d k = Some v -> p `prefix_of` enc k ->
     forall b o, (b, o) ∈ g (enc k, v) -> exists k', b = enc k' /\ wf_key k' /\ R k' o) ->
  (forall k' o, wf_key k' -> R k' o ->
     exists k v, wf_key k /\ dk d k = Some v /\ p `prefix_of` enc k /\ (enc k', o) ∈ g (enc k, v)) ->
  writes_rel (flat_map g (prefix_scan d p)) R.
Proof.
  intros Hw H1 H2 b o. rewrite elem_of_flat_map. split.
  - intros ([b' v] & (k & -> & Hk & Hv & Hg & Hp)%elem_of_scan & Hin); [|done]. eauto.
  - intros (k' & -> & Hk' & HR). destruct (H2 k' o Hk' HR) as (k & v & Hk & Hg & Hp & Hin).
    exists (enc k, v). split; [|done]. apply elem_of_scan; [done|].
    exists k. split_and!; try done. by eapply db_wf_val.
Qed.

Section typed.
Context {DB : Type} `{LevelDbLaws DB}.
Context (d : DB) (bh : bytes) (Hd : db_wf d) (Hbh : hash32 bh).

Definition RZ (k : key) (o : option bytes) : Prop :=
  o = None /\
  match k with
  | KScriptBlk sh => is_Some (dk d (KBlkScript bh sh))
  | KBlkScript bh' sh => bh' = bh /\ is_Some (dk d k)
  | _ => False
  end.

Definition RK (k : key) (o : option bytes) : Prop :=
  match k with
  | KOutput sh t i => exists v, o = Some v /\ dk d (KOutDel bh sh t i) = Some v
  | KOutDel bh' sh t i => bh' = bh /\ o = None /\ is_Some (dk d k)
  | _ => False
  end.

Definition RM (k : key) (o : option bytes) : Prop :=
  match k with
  | KOutHint t i => exists v, o = Some v /\ dk d (KHintDel bh t i) = Some v
  | KHintDel bh' t i => bh' = bh /\ o = None /\ is_Some (dk d k)
  | _ => False
  end.

Definition RW (k : key) (o : option bytes) : Prop :=
  o = None /\
  match k with
  | KOutput sh t i => dk d (KOutBlk bh t i) = Some sh
  | KOutHint t i => is_Some (dk d (KOutBlk bh t i))
  | KOutBlk bh' t i => bh' = bh /\ is_Some (dk d k)
  | _ => False
  end.

(** [T] or [X] of a transaction of the block goes unless another block has
    taken the record over. *)
Definition owned (k : key) (t : bytes) : Prop :=
  dk d (KTxBlockRecovery bh t) = None \/ take 32 <$> dk d k = Some bh.

Definition RT (k : key) (o : option bytes) : Prop :=
  o = None /\
  match k with
  | KTx t | KTxExact t => created_tx d bh t /\ owned k t
  | KTxBlockRecovery bh' t => bh' = bh /\ created_tx d bh t /\ is_Some (dk d k)
  | _ => False
  end.

Ltac in_list := repeat (apply elem_of_cons; first [left; reflexivity | right]).

Lemma wZ_rel : writes_rel (wZ d bh) RZ.
Proof.
  apply writes_rel_scan; [done|..].
  - intros k v Hk _ Hg Hp b o Hin. apply prefix_blk_script in Hp as (sh & ->); [|done..].
    destruct Hk as [_ Hsh]. unfold gZ in Hin. cbn [fst enc app] in Hin.
    rewrite drop_1_32 in Hin by done.
    apply elem_of_cons in Hin as [[= -> ->]|[[= -> ->]|Hin]%elem_of_cons];
      [..|by apply elem_of_nil in Hin].
    + exists (KScriptBlk sh). split_and!; try done; try (by exists v).
    + exists (KBlkScript bh sh). split_and!; try done; try (by exists v).
  - intros k' o Hk' [-> HR]. destruct k'; try done.
    + destruct HR as [v Hg]. exists (KBlkScript bh sh), v.
      split_and!; try done; [by exists sh|]. unfold gZ. cbn [fst enc app].
      rewrite drop_1_32 by done. in_list.
    + destruct HR as [-> [v Hg]]. exists (KBlkScript bh sh), v.
      split_and!; try done; [by exists sh|]. unfold gZ. cbn [fst enc app]. in_list.
Qed.

Lemma wK_rel : writes_rel (wK d bh) RK.
Proof.
  apply writes_rel_scan; [done|..].
  - intros k v Hk _ Hg Hp b o Hin. apply prefix_out_del in Hp as (sh & t & i & ->); [|done..].
    destruct Hk as (_ & Hsh & Ht & Hi). unfold gK in Hin. cbn [fst snd enc app] in Hin.
    rewrite drop_1_32 in Hin by done.
    apply elem_of_cons in Hin as [[= -> ->]|[[= -> ->]|Hin]%elem_of_cons];
      [..|by apply elem_of_nil in Hin].
    + exists (KOutput sh t i). split_and!; try done; try (by exists v).
    + exists (KOutDel bh sh t i). split_and!; try done; try (by exists v).
  - intros k' o Hk' HR. destruct k'; try done.
    + destruct HR as (v & -> & HR). exists (KOutDel bh sh t i), v.
      split_and!; try done; [by exists (sh ++ t ++ be 4 i)|].
      unfold gK. cbn [fst snd enc app]. rewrite drop_1_32 by done. in_list.
    + destruct HR as (-> & -> & [v Hg]). exists (KOutDel bh sh t i), v.
      split_and!; try done; [by exists (sh ++ t ++ be 4 i)|].
      unfold gK. cbn [fst snd enc app]. in_list.
Qed.

Lemma wM_rel : writes_rel (wM d bh) RM.
Proof.
  apply writes_rel_scan; [done|..].
  - intros k v Hk _ Hg Hp b o Hin. apply prefix_hint_del in Hp as (t & i & ->); [|done..].
    destruct Hk as (_ & Ht & Hi). unfold gK in Hin. cbn [fst snd enc app] in Hin.
    rewrite drop_1_32 in Hin by done.
    apply elem_of_cons in Hin as [[= -> ->]|[[= -> ->]|Hin]%elem_of_cons];
      [..|by apply elem_of_nil in Hin].
    + exists (KOutHint t i). split_and!; try done; try (by exists v).
    + exists (KHintDel bh t i). split_and!; try done; try (by exists v).
  - intros k' o Hk' HR. destruct k'; try done.
    + destruct HR as (v & -> & HR). exists (KHintDel bh t i), v.
      split_and!; try done; [by exists (t ++ be 4 i)|].
      unfold gK. cbn [fst snd enc app]. rewrite drop_1_32 by done. in_list.
    + destruct HR as (-> & -> & [v Hg]). exists (KHintDel bh t i), v.
      split_and!; try done; [by exists (t ++ be 4 i)|].
      unfold gK. cbn [fst snd enc app]. in_list.
Qed.

Lemma wW_rel : writes_rel (wW d bh) RW.
Proof.
  apply writes_rel_scan; [done|..].
  - intros k v Hk Hv Hg Hp b o Hin. apply prefix_out_blk in Hp as (t & i & ->); [|done..].
    destruct Hk as (_ & Ht & Hi). unfold gW in Hin. cbn [fst snd enc app] in Hin.
    rewrite slice_33_65, slice_65_69 in Hin by (done || apply length_be).
    apply elem_of_cons in Hin
      as [[= -> ->]|[[= -> ->]|[[= -> ->]|Hin]%elem_of_cons]%elem_of_cons];
      [..|by apply elem_of_nil in Hin].
    + exists (KOutput v t i). by split_and!.
    + exists (KOutHint t i). split_and!; try done; try (by exists v).
    + exists (KOutBlk bh t i). split_and!; try done; try (by exists v).
  - intros k' o Hk' [-> HR].
    assert (Hgo : exists t i v, hash32 t /\ u32 i /\ dk d (KOutBlk bh t i) = Some v
      /\ (k' = KOutput v t i \/ k' = KOutHint t i \/ k' = KOutBlk bh t i)).
    { destruct k'; try done; [|destruct HR as [v HR]|destruct HR as [-> [v HR]]];
        destruct_and?; cbn [wf_key] in Hk'; destruct_and?; naive_solver. }
    destruct Hgo as (t & i & v & Ht & Hi & Hg & Hcase).
    exists (KOutBlk bh t i), v. split_and!; try done; [by exists (t ++ be 4 i)|].
    unfold gW. cbn [fst snd enc app].
    rewrite slice_33_65, slice_65_69 by (done || apply length_be).
    destruct Hcase as [->|[->| ->]]; cbn [enc app]; in_list.
Qed.

Lemma created_tx_is t :
  created_tx d bh t <-> (hash32 t /\ exists i, u32 i /\ is_Some (dk d (KOutBlk bh t i))).
Proof.
  unfold created_tx, scan_txids. rewrite list_elem_of_fmap. split.
  - intros ([b v] & -> & (k & -> & Hk & _ & Hg & Hp)%elem_of_scan); [|done].
    apply prefix_out_blk in Hp as (t & i & ->); [|done..].
    destruct Hk as (_ & Ht & Hi). cbn [fst enc app]. rewrite slice_33_65 by done. eauto.
  - intros (Ht & i & Hi & [v Hg]). exists (enc (KOutBlk bh t i), v). split.
    + cbn [fst enc app]. by rewrite slice_33_65.
    + apply elem_of_scan; [done|]. exists (KOutBlk bh t i). split_and!; try done.
      * by eapply (db_wf_val d).
      * by exists (t ++ be 4 i).
Qed.

Lemma elem_of_tx_writes t b o :
  (b, o) ∈ tx_writes d bh t <->
  o = None /\
  (b = enc (KTx t) /\ owned (KTx t) t \/ b = enc (KTxExact t) /\ owned (KTxExact t) t
   \/ b = enc (KTxBlockRecovery bh t) /\ is_Some (dk d (KTxBlockRecovery bh t))).
Proof.
  unfold tx_writes, owned. destruct (dk d (KTxBlockRecovery bh t)) as [y|] eqn:Ey.
  - rewrite !elem_of_app, list_elem_of_singleton.
    repeat case_bool_decide; rewrite ?list_elem_of_singleton, ?elem_of_nil; naive_solver.
  - rewrite !elem_of_cons, elem_of_nil. split; [naive_solver|].
    intros [-> [[-> _]|[[-> _]|[_ [? ?]]]]]; naive_solver.
Qed.

Lemma wT_rel : writes_rel (wT d bh) RT.
Proof.
  intros b o. unfold wT. rewrite elem_of_txs_writes. split.
  - intros (t & Ht & _ & (-> & Hc)%elem_of_tx_writes).
    fold (created_tx d bh t) in Ht. pose proof Ht as [Ht32 _]%created_tx_is.
    destruct Hc as [[-> Ho]|[[-> Ho]|[-> Hs]]].
    + by exists (KTx t).
    + by exists (KTxExact t).
    + by exists (KTxBlockRecovery bh t).
  - intros (k & -> & Hk & -> & HR).
    destruct k; try done; cbn in HR; destruct_and?; subst;
      exists t; (split_and!; [done|apply not_elem_of_nil|]);
      apply elem_of_tx_writes; naive_solver.
Qed.
End typed.

(** * One block rolled back *)

Section rollback.
Context {node : Node} {DB : Type} `{LevelDbLaws DB}.

(** Everything the rollback batch of block [bh] deletes and restores, in the
    order it is staged, the tip pointers apart. *)
Definition rollback_writes (d : DB) (bh : bytes) : list write :=
  wZ d bh ++ (wK d bh ++ wM d bh) ++ wW d bh
  ++ (wT d bh ++ [(enc (KBlock bh), None)]) ++ [(enc (KStoredBlk bh), None)].

(** What each record of the schema holds afterwards. *)
Definition rolled (d : DB) (bh : bytes) (k : key) : option bytes :=
  match k with
  | KScriptBlk sh => if decide (is_Some (dk d (KBlkScript bh sh))) then None else dk d k
  | KOutput sh t i =>
      if decide (dk d (KOutBlk bh t i) = Some sh) then None
      else match dk d (KOutDel bh sh t i) with Some v => Some v | None => dk d k end
  | KOutHint t i =>
      if decide (is_Some (dk d (KOutBlk bh t i))) then None
      else match dk d (KHintDel bh t i) with Some v => Some v | None => dk d k end
  | KTx t | KTxExact t =>
      if decide (created_tx d bh t
                 /\ (dk d (KTxBlockRecovery bh t) = None \/ (take 32 <$> dk d k) = Some bh))
      then None else dk d k
  | KTxBlockRecovery bh' t =>
      if decide (bh' = bh /\ created_tx d bh t) then None else dk d k
  | KBlkScript bh' _ | KOutDel bh' _ _ _ | KHintDel bh' _ _ | KOutBlk bh' _ _
  | KBlock bh' | KStoredBlk bh' => if decide (bh' = bh) then None else dk d k
  | KInput _ _ | KInHint _ _ _ | KMeta _ => dk d k
  end.

(** The relation of a single delete. *)
Definition Rdel (k0 k : key) (o : option bytes) : Prop := k = k0 /\ o = None.

Lemma writes_rel_single k : wf_key k -> writes_rel [(enc k, None)] (Rdel k).
Proof.
  intros Hk b o. rewrite list_elem_of_singleton. split.
  - intros [= -> ->]. by exists k.
  - by intros (k' & -> & _ & -> & ->).
Qed.

(** Evaluates the last write of the list [H] describes: none, when the relation
    rejects the key, else the one value [o]. *)
Ltac lw_miss H Hk :=
  rewrite (lw_none _ _ _ H Hk) by
    (let o := fresh in let Ho := fresh in intros o Ho; red in Ho; unfold owned, is_Some in *; first [tauto | naive_solver]).
Ltac lw_hit H Hk o :=
  rewrite (lw_some _ _ _ o H Hk) by (unfold RZ, RK, RM, RW, RT, Rdel, owned; naive_solver).

Lemma last_write_rollback d bh k :
  db_wf d -> hash32 bh -> wf_key k ->
  default (dk d k) (last_write (rollback_writes d bh) (enc k)) = rolled d bh k.
Proof.
  intros Hd Hbh Hk. unfold rollback_writes. rewrite !last_write_app.
  pose proof (wZ_rel d bh Hd Hbh) as HZ. pose proof (wK_rel d bh Hd Hbh) as HK.
  pose proof (wM_rel d bh Hd Hbh) as HM. pose proof (wW_rel d bh Hd Hbh) as HW.
  pose proof (wT_rel d bh Hd Hbh) as HT.
  pose proof (writes_rel_single (KBlock bh) Hbh) as HB.
  pose proof (writes_rel_single (KStoredBlk bh) Hbh) as HN.
  destruct k; cbn [rolled];
    try lw_miss HN Hk; try lw_miss HB Hk; try lw_miss HT Hk;
    try lw_miss HW Hk; try lw_miss HM Hk; try lw_miss HK Hk; try lw_miss HZ Hk; try done.
  - destruct (decide _) as [->|]; [by lw_hit HB Hk (@None bytes)|by lw_miss HB Hk].
  - destruct (decide _) as [[]|]; [by lw_hit HT Hk (@None bytes)|by lw_miss HT Hk].
  - destruct (decide _); [by lw_hit HW Hk (@None bytes)|lw_miss HW Hk].
    destruct (dk d (KOutDel bh sh t i)) as [v|] eqn:E; [by lw_hit HK Hk (Some v)|by lw_miss HK Hk].
  - destruct (decide _); [by lw_hit HW Hk (@None bytes)|lw_miss HW Hk].
    destruct (dk d (KHintDel bh t i)) as [v|] eqn:E; [by lw_hit HM Hk (Some v)|by lw_miss HM Hk].
  - destruct (decide _); [by lw_hit HZ Hk (@None bytes)|by lw_miss HZ Hk].
  - destruct (decide _) as [->|]; [|by lw_miss HZ Hk].
    destruct (dk d (KBlkScript bh sh)) eqn:E; [by lw_hit HZ Hk (@None bytes)|by lw_miss HZ Hk].
  - destruct (decide _) as [->|]; [|by lw_miss HK Hk].
    destruct (dk d (KOutDel bh sh t i)) eqn:E; [by lw_hit HK Hk (@None bytes)|by lw_miss HK Hk].
  - destruct (decide _) as [->|]; [|by lw_miss HM Hk].
    destruct (dk d (KHintDel bh t i)) eqn:E; [by lw_hit HM Hk (@None bytes)|by lw_miss HM Hk].
  - destruct (decide _) as [->|]; [by lw_hit HN Hk (@None bytes)|by lw_miss HN Hk].
  - destruct (decide _) as [->|]; [|by lw_miss HW Hk].
    destruct (dk d (KOutBlk bh t i)) eqn:E; [by lw_hit HW Hk (@None bytes)|by lw_miss HW Hk].
  - destruct (decide _) as [[]|]; [by lw_hit HT Hk (@None bytes)|by lw_miss HT Hk].
  - destruct (decide _) as [[-> ?]|]; [|by lw_miss HT Hk].
    destruct (dk d (KTxBlockRecovery bh t)) eqn:E;
      [by lw_hit HT Hk (@None bytes)|by lw_miss HT Hk].
Qed.
End rollback.
