(* ===== verification/Parsing.v ===== *)
(** What the tracker writes for a transaction ([XChainUtxoTracker/transaction_parsing.js])
    and for a block ([parseBlockTransactions] of [sync_loop_block_apply.js]): the
    mempool path indexes inputs, the block path runs in two passes, every output
    of the block first, then every spend in one batch. *)

From S2P Require Import Prelude KeyCodec ValueCodec LevelDb Store Outputs.

#[local] Open Scope string_scope.
#[local] Open Scope nat_scope.
#[local] Open Scope list_scope.

(** * Decoded transactions

    The fields of a bitcoinjs-lib transaction the tracker reads, with its
    [getId()]: [ti_hash] is in wire order, [ti_standard] the optional
    [standard_input] flag. *)

Record tx_in := mkTxIn { ti_hash : bytes; ti_index : Z; ti_standard : option bool }.
Record tx_out := mkTxOut { to_script : bytes; to_value : Z }.
Record transaction := mkTx { getId : string; ins : list tx_in; outs : list tx_out }.

Definition COINBASE_INDEX : Z := 4294967295.

Definition isCoinbaseTransaction (tx : transaction) : bool :=
  match ins tx with
  | [i] => bool_decide (ti_index i = COINBASE_INDEX)
  | _ => false
  end.

(** [byte.toString(16).padStart(2, '0')] of each byte. *)
Fixpoint uint8ArrayToHex (b : bytes) : string :=
  match b with
  | [] => ""
  | x :: r =>
      let h := to_radix 16 (Z_of_byte x) in
      String.append (if bool_decide (String.length h < 2) then String.append "0" h else h)
        (uint8ArrayToHex r)
  end.

(** [util.uint8ArrayToHex(Buffer.from(nextInput.hash).reverse())]: the copy is
    reversed, the shared buffer is not. *)
Definition prevTxHashHex (i : tx_in) : string := uint8ArrayToHex (rev (ti_hash i)).

(** An input that spends nothing to trace. *)
Definition skip_input (i : tx_in) : bool :=
  bool_decide (ti_index i = COINBASE_INDEX) || negb (default true (ti_standard i)).

Section ops.
Context {node : Node} {DB : Type} `{LevelDb DB}.

Abbreviation SM := (M (store DB)).

(** One input of [parseTransactionInputs] / [parseTxInputs]: 1 when traced. *)
Definition parseInput (blockHash : option string) (nextTxId : string) (addHints removeSpent : bool)
    (i : tx_in) : SM nat :=
  if skip_input i then mret 0
  else
    _ ← (if removeSpent
         then removeOutputWithInput (mkSpendArg (prevTxHashHex i) (ti_index i) (default "" blockHash))
         else insertInput (mkInputArg (prevTxHashHex i) (ti_index i) nextTxId));
    _ ← (if addHints
         then insertInputHint (mkInputArg (prevTxHashHex i) (ti_index i) nextTxId)
         else mret true);
    mret 1.

Definition parseTransactionInputs (tx : transaction) (blockHash : option string)
    (nextTxId : string) (addHints removeSpent : bool) : SM (list nat) :=
  mapM_list (ins tx) (parseInput blockHash nextTxId addHints removeSpent).

Definition parseTransactionOutputs (tx : transaction) (blockHash : option string)
    (blockHeight : Z) (nextTxId : string) (isCoinbase addHints removeSpent : bool) : SM unit :=
  forM (imap pair (outs tx)) (fun '(txOutputIndex, nextOutput) =>
    let out := mkOutputArg (SHex (b2h (sha256 (to_script nextOutput)))) nextTxId
                 (Z.of_nat txOutputIndex) (to_value nextOutput) (Some blockHeight)
                 (Some nextTxId) isCoinbase in
    _ ← insertOutput out;
    when (addHints || removeSpent) (
      _ ← insertOutputHint out;
      _ ← insertOutputScriptBlock (oa_scriptPubKey out) blockHash blockHeight;
      _ ← insertOutputBlock out blockHash;
      mret tt)).

Record parse_result := mkParse { inputsCount : nat; outputsCount : nat }.

Definition parseTransaction (tx : transaction) (blockHash : option string) (blockHeight : Z)
    (addHints removeSpent : bool) : SM parse_result :=
  let nextTxId := getId tx in
  _ ← (if removeSpent then mret true else insertTransaction (mkTxArg nextTxId blockHash));
  inputCounts ← parseTransactionInputs tx blockHash nextTxId addHints removeSpent;
  _ ← parseTransactionOutputs tx blockHash blockHeight nextTxId (isCoinbaseTransaction tx)
        addHints removeSpent;
  mret (mkParse (sum_list inputCounts) (length (outs tx))).

(** One output of pass 1. *)
Definition parseTxOutput (tx : transaction) (blockHash : option string) (blockHeight : Z)
    (addHints removeSpent : bool) (x : nat * tx_out) : SM unit :=
  let '(txOutputIndex, nextOutput) := x in
  let out := mkOutputArg (SBuf (sha256 (to_script nextOutput))) (getId tx)
               (Z.of_nat txOutputIndex) (to_value nextOutput) (Some blockHeight)
               (Some (getId tx)) (isCoinbaseTransaction tx) in
  _ ← insertOutput out;
  when (addHints || removeSpent) (
    _ ← insertOutputHint out;
    _ ← insertOutputScriptBlock (oa_scriptPubKey out) blockHash blockHeight;
    _ ← insertOutputBlock out blockHash;
    mret tt).

Definition parseTxOutputs (tx : transaction) (blockHash : option string) (blockHeight : Z)
    (addHints removeSpent : bool) : SM nat :=
  _ ← (if removeSpent then mret true else insertTransaction (mkTxArg (getId tx) blockHash));
  _ ← forM (imap pair (outs tx)) (parseTxOutput tx blockHash blockHeight addHints removeSpent);
  mret (length (outs tx)).

Definition parseTxInputs (tx : transaction) (blockHash : option string)
    (addHints removeSpent : bool) : SM nat :=
  inputCounts ← parseTransactionInputs tx blockHash (getId tx) addHints removeSpent;
  mret (sum_list inputCounts).

Definition REMOVE_SPENT : bool := true.

(** The spends of a block, in transaction and input order. *)
Definition removeInputs (txs : list transaction) (blockHash : string) : list spend_arg :=
  tx ← txs;
  i ← filter (fun i => skip_input i = false) (ins tx);
  [mkSpendArg (prevTxHashHex i) (ti_index i) blockHash].

Definition parseBlockTransactions (txs : list transaction) (nextBlockHash : string)
    (nextBlockHeight : Z) : SM (list nat * nat) :=
  blockOutputCounts ← mapM_list txs (fun tx =>
    _ ← insertTransaction (mkTxArg (getId tx) (Some nextBlockHash));
    parseTxOutputs tx (Some nextBlockHash) nextBlockHeight false REMOVE_SPENT);
  let removed := removeInputs txs nextBlockHash in
  _ ← (if bool_decide (0 < length removed) then removeOutputsWithInputsBatch removed else mret 0);
  mret (blockOutputCounts, length removed).
End ops.

(** The helper's text is the plain lower-case hex. *)
Lemma uint8ArrayToHex_b2h b : uint8ArrayToHex b = b2h b.
Proof.
  induction b as [|x b IH]; cbn [uint8ArrayToHex b2h]; [done|].
  rewrite IH. clear IH. destruct x; reflexivity.
Qed.
