(* ===== verification/Apply.v ===== *)
(** What applying a block stages: pass 1 (every transaction's T, X and Y records,
    every output's O, H, S, Z and W records) as a typed set of writes, the caches
    it fills, and the invariants of an open batch the second pass relies on. *)

From S2P Require Import Prelude KeyCodec ValueCodec LevelDb Store Outputs StoreFacts.
From S2P Require Import Rollback Parsing.

#[local] Open Scope string_scope.
#[local] Open Scope nat_scope.
#[local] Open Scope list_scope.

(** * Created outputs *)

Record out_rec := mkOut { c_t : bytes; c_i : Z; c_sh : bytes; c_v : bytes }.

Definition outpoint (r : out_rec) : bytes * Z := (c_t r, c_i r).

Section created.
Context {node : Node}.

Definition out_of (h : Z) (tx : transaction) (i : nat) (o : tx_out) : out_rec :=
  mkOut (h2b (getId tx)) (Z.of_nat i) (sha256 (to_script o))
    (output_val (to_value o) h (h2b (getId tx)) (isCoinbaseTransaction tx)).

Definition tx_created (h : Z) (tx : transaction) : list out_rec := imap (out_of h tx) (outs tx).

(** The outputs of a block, in transaction and output order. *)
Definition block_created (h : Z) (txs : list transaction) : list out_rec :=
  flat_map (tx_created h) txs.

Definition txid32 (tx : transaction) : bytes := h2b (getId tx).
End created.

(** A transaction the decoder produced: field widths only. *)
Record tx_ok (tx : transaction) : Prop := {
  txo_id : is_hash (getId tx);
  txo_value : forall o, o ∈ outs tx -> u64 (to_value o);
  txo_count : (Z.of_nat (length (outs tx)) <= 4294967296)%Z;
  txo_ins : forall i, i ∈ ins tx -> hash32 (ti_hash i) /\ u32 (ti_index i);
}.

(** Heights the O value's signed field holds. *)
Definition height_ok (h : Z) : Prop := (0 <= h < 2147483648)%Z.

Lemma height_ok_u32 h : height_ok h -> u32 h.
Proof. unfold height_ok, u32. lia. Qed.

Lemma height_ok_i32 h : height_ok h -> i32 h.
Proof. unfold height_ok, i32. lia. Qed.

#[export] Hint Resolve height_ok_u32 height_ok_i32 txo_id : store_keys.

(** * Caches on the side *)

Section caches.
Context {DB : Type} `{LevelDbLaws DB}.
Implicit Type s : store DB.

Definition with_caches (c : gmap (string * Z) bytes) (kn : gset string) s : store DB :=
  set_known kn (set_cache c s).

(** What the open batch holds for a key. *)
Definition staged s (b : bytes) : option item :=
  match transactionArray s with Some t => t !! b | None => None end.

Lemma with_caches_id s : with_caches (outputCache s) (knownScripts s) s = s.
Proof. by destruct s. Qed.

Lemma with_caches_twice c1 kn1 c2 kn2 s :
  with_caches c2 kn2 (with_caches c1 kn1 s) = with_caches c2 kn2 s.
Proof. done. Qed.

Lemma stage_with_caches ws c kn s : stage ws (with_caches c kn s) = with_caches c kn (stage ws s).
Proof. unfold stage. cbn. by destruct (transactionArray s). Qed.

Lemma stage_set_cache ws c s : stage ws (set_cache c s) = set_cache c (stage ws s).
Proof. unfold stage. cbn [transactionArray set_cache]. by destruct (transactionArray s). Qed.

Lemma stage_set_known ws kn s : stage ws (set_known kn s) = set_known kn (stage ws s).
Proof. unfold stage. cbn [transactionArray set_known]. by destruct (transactionArray s). Qed.

Lemma view_with_caches c kn s k : view (with_caches c kn s) k = view s k.
Proof. done. Qed.

Lemma in_batch_with_caches c kn s : in_batch (with_caches c kn s) <-> in_batch s.
Proof. done. Qed.

Lemma view_staged s b :
  view s b = match staged s b with
             | Some it => apply_item it (db_get (disk s) b)
             | None => db_get (disk s) b
             end.
Proof. unfold view, staged. by destruct (transactionArray s). Qed.

Lemma staged_stage ws s b :
  in_batch s ->
  staged (stage ws s) b
  = match last_write ws b with Some o => Some (item_of o) | None => staged s b end.
Proof.
  intros (t & E & _). unfold stage, staged. rewrite E. cbn. by rewrite lookup_stage_all.
Qed.
End caches.

(** * Relations between write lists *)

Lemma writes_rel_nil : writes_rel [] (fun _ _ => False).
Proof. intros b o. rewrite elem_of_nil. naive_solver. Qed.

Lemma writes_rel_app ws1 ws2 R1 R2 R :
  writes_rel ws1 R1 -> writes_rel ws2 R2 ->
  (forall k o, wf_key k -> R k o <-> R1 k o \/ R2 k o) ->
  writes_rel (ws1 ++ ws2) R.
Proof.
  intros H1 H2 HR b o. rewrite elem_of_app. split.
  - intros [(k & ? & ? & ?)%H1|(k & ? & ? & ?)%H2]; exists k;
      (split_and!; [done|done|apply HR; auto]).
  - intros (k & -> & Hk & Ho). apply (HR k o Hk) in Ho as [?|?].
    + left. apply H1. by exists k.
    + right. apply H2. by exists k.
Qed.

Lemma writes_rel_iff ws R1 R2 :
  writes_rel ws R1 -> (forall k o, wf_key k -> R1 k o <-> R2 k o) -> writes_rel ws R2.
Proof.
  intros H1 HR b o. rewrite (H1 b o).
  split; intros (k & ? & ? & ?); exists k;
    (split_and!; [done|done|by apply HR]).
Qed.

(** A list given by its typed entries. *)
Lemma writes_rel_list (l : list (key * option bytes)) :
  (forall k o, (k, o) ∈ l -> wf_key k) ->
  writes_rel ((fun x => (enc x.1, x.2)) <$> l) (fun k o => (k, o) ∈ l).
Proof.
  intros Hl b o. rewrite list_elem_of_fmap. split.
  - intros ([k o'] & [= -> ->] & Hin). exists k. split_and!; try done. by eapply Hl.
  - intros (k & -> & Hk & Hin). by exists (k, o).
Qed.

(** * Pass 1 *)

Section pass1.
Context {node : Node} {DB : Type} `{LevelDbLaws DB}.
Implicit Type s : store DB.
Context (bh : bytes) (h : Z).

(** The writes of pass 1 from a state whose S records are those of [s], for the
    transactions [ts] and the outputs [l]. *)
Definition R1 s (ts : list bytes) (l : list out_rec) (k : key) (o : option bytes) : Prop :=
  match k with
  | KTx t => t ∈ ts /\ o = Some (bh ++ t)
  | KTxExact t => t ∈ ts /\ o = Some bh
  | KTxBlockRecovery b t => b = bh /\ t ∈ ts /\ o = Some t
  | KOutput sh t i => exists v, mkOut t i sh v ∈ l /\ o = Some v
  | KOutHint t i => exists sh v, mkOut t i sh v ∈ l /\ o = Some sh
  | KOutBlk b t i => b = bh /\ exists sh v, mkOut t i sh v ∈ l /\ o = Some sh
  | KScriptBlk sh => vk s k = None /\ (exists r, r ∈ l /\ c_sh r = sh) /\ o = Some (be 4 h)
  | KBlkScript b sh =>
      b = bh /\ vk s (KScriptBlk sh) = None /\ (exists r, r ∈ l /\ c_sh r = sh) /\ o = Some []
  | _ => False
  end.

(** Every known script has its S record; no S record is staged as a delete. *)
Record first_seen_ok s : Prop := {
  fs_batch : in_batch s;
  fs_known : forall k, k ∈ knownScripts s ->
    exists sh, hash32 sh /\ k = to_latin1 sh /\ is_Some (vk s (KScriptBlk sh));
  fs_put : forall sh it, hash32 sh -> staged s (enc (KScriptBlk sh)) = Some it ->
    exists v, it = mkItem put (Some v);
}.

Record pass1 (ts : list bytes) (l : list out_rec) s s' : Prop := {
  p1_state : exists ws c kn,
    s' = with_caches c kn (stage ws s) /\ writes_rel ws (R1 s ts l)
    /\ (forall t i v, c !! (t, i) = Some v ->
          (outputCache s !! (t, i) = Some v
           /\ ~ exists r, r ∈ l /\ b2h (c_t r) = t /\ c_i r = i)
          \/ exists r, r ∈ l /\ b2h (c_t r) = t /\ c_i r = i /\ c_v r = v)
    /\ (forall k, k ∈ kn -> k ∈ knownScripts s \/ exists r, r ∈ l /\ k = to_latin1 (c_sh r));
}.

Definition recs_wf (l : list out_rec) : Prop :=
  forall r, r ∈ l -> hash32 (c_t r) /\ u32 (c_i r) /\ hash32 (c_sh r).

Lemma pass1_nil s : pass1 [] [] s s.
Proof.
  split. exists [], (outputCache s), (knownScripts s). split_and!.
  - by rewrite stage_nil, with_caches_id.
  - eapply writes_rel_iff; [apply writes_rel_nil|]. intros k o _. split; [done|].
    destruct k; cbn; set_unfold; naive_solver.
  - intros t i v ?. left. split; [done|]. by intros (? & ?%elem_of_nil & _).
  - auto.
Qed.

(** S records after the writes of pass 1. *)
Lemma vk_S_stage s ws ts l sh :
  in_batch s -> hash32 sh -> writes_rel ws (R1 s ts l) ->
  vk (stage ws s) (KScriptBlk sh) = None
  <-> vk s (KScriptBlk sh) = None /\ ~ exists r, r ∈ l /\ c_sh r = sh.
Proof.
  intros Hb Hsh Hws. unfold vk at 1. rewrite view_stage by done. fold (vk s (KScriptBlk sh)).
  destruct (vk s (KScriptBlk sh)) as [v|] eqn:E.
  - rewrite (lw_none _ _ _ Hws) by (cbn; naive_solver). cbn. naive_solver.
  - destruct (decide (sh ∈ c_sh <$> l)) as [(r & -> & Hr)%list_elem_of_fmap|Hn].
    + rewrite (lw_some _ _ _ (Some (be 4 h)) Hws) by (cbn; naive_solver). cbn. naive_solver.
    + rewrite (lw_none _ _ _ Hws); [|done|].
      * cbn. split; [|done]. intros _. split; [done|].
        intros (r & Hr & <-). apply Hn, list_elem_of_fmap. by exists r.
      * cbn. intros o (_ & (r & Hr & <-) & _). apply Hn, list_elem_of_fmap. by exists r.
Qed.

(** Either half of a list creates an output with the script. *)
Lemma ex_sh_app (l1 l2 : list out_rec) sh :
  (exists r, r ∈ l1 ++ l2 /\ c_sh r = sh)
  <-> (exists r, r ∈ l1 /\ c_sh r = sh)
      \/ (~ (exists r, r ∈ l1 /\ c_sh r = sh)) /\ (exists r, r ∈ l2 /\ c_sh r = sh).
Proof.
  setoid_rewrite elem_of_app.
  destruct (decide (sh ∈ c_sh <$> l1)) as [(r & -> & Hr)%list_elem_of_fmap|Hn].
  - split; [intros _; left; by exists r|]. intros _. exists r. split; [by left|done].
  - assert (Hn' : ~ exists r, r ∈ l1 /\ c_sh r = sh)
      by (intros (r & Hr & <-); apply Hn, list_elem_of_fmap; by exists r).
    split.
    + intros (r & [Hr|Hr] & E); [exfalso; apply Hn'; by exists r|]. right. split; [done|]. by exists r.
    + intros [?|[_ (r & Hr & E)]]; [done|]. exists r. split; [by right|done].
Qed.

Lemma pass1_trans ts1 l1 ts2 l2 s s1 s2 :
  in_batch s ->
  pass1 ts1 l1 s s1 -> pass1 ts2 l2 s1 s2 -> pass1 (ts1 ++ ts2) (l1 ++ l2) s s2.
Proof.
  intros Hb [(ws1 & c1 & kn1 & -> & Hws1 & Hc1 & Hk1)] [(ws2 & c2 & kn2 & -> & Hws2 & Hc2 & Hk2)].
  split. exists (ws1 ++ ws2), c2, kn2. split_and!.
  - by rewrite stage_with_caches, with_caches_twice, stage_app.
  - eapply writes_rel_app; [exact Hws1|exact Hws2|].
    intros k o Hk.
    assert (HS : forall sh, hash32 sh ->
      vk (with_caches c1 kn1 (stage ws1 s)) (KScriptBlk sh) = None
      <-> vk s (KScriptBlk sh) = None /\ ~ exists r, r ∈ l1 /\ c_sh r = sh)
      by (intros sh Hsh; apply (vk_S_stage s ws1 ts1 l1 sh Hb Hsh Hws1)).
    destruct k; cbn [R1]; rewrite ?elem_of_app; try tauto.
    + setoid_rewrite elem_of_app. naive_solver.
    + setoid_rewrite elem_of_app. naive_solver.
    + rewrite HS by done. rewrite ex_sh_app. tauto.
    + rewrite HS by apply Hk. rewrite ex_sh_app. tauto.
    + setoid_rewrite elem_of_app. naive_solver.
  - intros t i v Hc. setoid_rewrite elem_of_app. apply Hc2 in Hc as [[Hc Hn]|Hc]; [|naive_solver].
    apply Hc1 in Hc as [[Hc Hn']|Hc]; [left; split; [done|]; intros (r & [?|?] & ?); eauto|naive_solver].
  - intros k Hk. setoid_rewrite elem_of_app. apply Hk2 in Hk as [Hk|Hk]; [|naive_solver].
    apply Hk1 in Hk. naive_solver.
Qed.

Lemma pass1_first_seen ts l s s' :
  first_seen_ok s -> recs_wf l -> pass1 ts l s s' -> first_seen_ok s'.
Proof.
  intros [Hb Hkn Hput] Hl [(ws & c & kn & -> & Hws & _ & Hk)].
  split.
  - by apply in_batch_stage.
  - intros k Hin. change (exists sh, hash32 sh /\ k = to_latin1 sh
      /\ is_Some (vk (stage ws s) (KScriptBlk sh))).
    assert (Hex : exists sh, hash32 sh /\ k = to_latin1 sh
      /\ (is_Some (vk s (KScriptBlk sh)) \/ exists r, r ∈ l /\ c_sh r = sh)).
    { apply Hk in Hin as [Hin|(r & Hr & ->)].
      - apply Hkn in Hin. naive_solver.
      - exists (c_sh r). apply Hl in Hr as Hr'. naive_solver. }
    destruct Hex as (sh & Hsh & -> & Hor). exists sh. split_and!; [done|done|].
    apply not_eq_None_Some. rewrite (vk_S_stage s ws ts l sh) by done.
    intros [E Hne]. destruct Hor as [[v Hv]|Hex]; [congruence|]. by apply Hne.
  - intros sh it Hsh Hst. change (staged (stage ws s) (enc (KScriptBlk sh)) = Some it) in Hst.
    rewrite staged_stage in Hst by done.
    destruct (last_write ws (enc (KScriptBlk sh))) as [o|] eqn:E; [|by eapply Hput].
    injection Hst as <-. destruct o as [v|]; [by exists v|].
    exfalso. destruct (decide ((enc (KScriptBlk sh), None) ∈ ws)) as [Hin|Hn].
    + apply Hws in Hin as (k & Ek & Hk' & Ho). apply enc_inj in Ek as <-; try done.
      cbn in Ho. destruct Ho as (_ & _ & Ho). done.
    + assert (Hin : (enc (KScriptBlk sh), None) ∈ ws); [|done]. by apply last_write_in.
Qed.
End pass1.

(** * Running pass 1 *)

Section run_pass1.
Context {node : Node} {DB : Type} `{LevelDbLaws DB}.
Implicit Type s : store DB.
Context (bhs : string) (h : Z) (Hbhs : is_hash bhs) (Hh : height_ok h).

Abbreviation bh := (h2b bhs).

Lemma is_hash_nonempty x : is_hash x -> x <> "".
Proof. by intros [Hl _] ->. Qed.

Lemma encodeTx_ok : encodeTx (Some bhs) = Ok bh.
Proof.
  unfold encodeTx. rewrite bool_decide_eq_false_2 by by apply is_hash_nonempty.
  by rewrite guard64_ok.
Qed.

Lemma run_insertTransaction s t :
  in_batch s -> is_hash t ->
  insertTransaction (mkTxArg t (Some bhs)) s
  = (Ok true, stage ((fun x => (enc x.1, x.2)) <$>
               [(KTx (h2b t), Some (bh ++ h2b t)); (KTxExact (h2b t), Some bh);
                (KTxBlockRecovery bh (h2b t), Some (h2b t))]) s).
Proof.
  intros Hb Ht. unfold insertTransaction. cbn [ta_hash ta_blockHash].
  rewrite kTx_ok, kTxExact_ok, kTxBlockRecovery_ok, encodeTx_ok by done.
  rewrite bool_decide_eq_false_2 by by apply is_hash_nonempty.
  step_stage (run_lift s (Ok (enc (KTx (h2b t))))).
  step_stage (run_lift s (Ok bh)).
  step_stage (run_put s _ _ Hb). set (s1 := stage _ s).
  assert (Hb1 : in_batch s1) by by apply in_batch_stage.
  step_stage (run_lift s1 (Ok (enc (KTxExact (h2b t))))).
  step_stage (run_lift s1 (Ok bh)).
  step_stage (run_put s1 _ _ Hb1). set (s2 := stage _ s1).
  assert (Hb2 : in_batch s2) by by apply in_batch_stage.
  step_stage (run_lift s2 (Ok (enc (KTxBlockRecovery bh (h2b t))))).
  rewrite run_put by done. unfold s2, s1. by rewrite <- stage_3.
Qed.

Lemma pass1_insertTransaction s t :
  in_batch s -> is_hash t ->
  exists s', insertTransaction (mkTxArg t (Some bhs)) s = (Ok true, s')
    /\ pass1 bh h [h2b t] [] s s'.
Proof.
  intros Hb Ht. eexists. split; [by apply run_insertTransaction|].
  split. eexists _, (outputCache s), (knownScripts s). split_and!; [|..|auto].
  - by rewrite <- (with_caches_id (stage _ s)), cache_stage, known_stage.
  - eapply writes_rel_iff; [apply writes_rel_list|].
    + intros k o. rewrite !elem_of_cons, elem_of_nil.
      intros [[= -> ->]|[[= -> ->]|[[= -> ->]|[]]]]; cbn; auto using h2b_hash32.
    + intros k o _. rewrite !elem_of_cons, elem_of_nil.
      destruct k; cbn; set_unfold; naive_solver.
  - intros t' i v ?. left. split; [done|]. by intros (? & ?%elem_of_nil & _).
Qed.

Lemma run_insertOutput s sh t i v cb :
  in_batch s -> hash32 sh -> is_hash t -> u32 i -> u64 v ->
  exists c,
    insertOutput (mkOutputArg (SBuf sh) t i v (Some h) (Some t) cb) s
    = (Ok true, set_cache c (stage [(enc (KOutput sh (h2b t) i),
                                     Some (output_val v h (h2b t) cb))] s))
    /\ c ⊆ <[(t, i) := output_val v h (h2b t) cb]> (outputCache s).
Proof.
  intros Hb Hsh Ht Hi Hv. unfold insertOutput.
  cbn [oa_value oa_height oa_fullTxHash oa_coinbase oa_scriptPubKey oa_txHash oa_outputIndex].
  rewrite encodeOutput_ok by auto with store_keys. set (val := output_val _ _ _ _).
  step_stage (run_lift s (Ok val)).
  unfold cacheOutput. cbn [oa_height oa_txHash oa_outputIndex]. rewrite ushr0_id by done.
  rewrite (bool_decide_eq_true_2 (0 <= h)%Z) by apply Hh. set (c := <[_ := val]> _).
  set (c' := if bool_decide (OUTPUT_CACHE_MAX < Z.of_nat (size c))%Z then ∅ else c).
  exists c'. split.
  - rewrite (run_bind_ok _ _ s tt (set_cache c' s)) by done.
    unfold kOutputArg. rewrite kOutputFromBuf_ok, ushr0_id by done.
    step_stage (run_lift (set_cache c' s) (Ok (enc (KOutput sh (h2b t) i)))).
    rewrite run_put by done. by rewrite stage_set_cache.
  - unfold c'. case_bool_decide; [apply map_empty_subseteq|done].
Qed.

Lemma run_insertOutputHint s sh t i v ft cb ho :
  in_batch s -> is_hash t -> u32 i ->
  insertOutputHint (mkOutputArg (SBuf sh) t i v ho ft cb) s
  = (Ok true, stage [(enc (KOutHint (h2b t) i), Some sh)] s).
Proof.
  intros Hb Ht Hi. unfold insertOutputHint. cbn [hintVal oa_scriptPubKey oa_txHash oa_outputIndex].
  rewrite kOutHint_ok, ushr0_id by done.
  step_stage (run_lift s (Ok sh)). step_stage (run_lift s (Ok (enc (KOutHint (h2b t) i)))).
  by apply run_put.
Qed.

Lemma run_insertOutputBlock s sh t i v ft cb ho :
  in_batch s -> is_hash t -> u32 i ->
  insertOutputBlock (mkOutputArg (SBuf sh) t i v ho ft cb) (Some bhs) s
  = (Ok true, stage [(enc (KOutBlk bh (h2b t) i), Some sh)] s).
Proof.
  intros Hb Ht Hi. unfold insertOutputBlock. cbn [falsy default hintVal oa_scriptPubKey oa_txHash oa_outputIndex].
  rewrite bool_decide_eq_false_2 by by apply is_hash_nonempty.
  rewrite kOutBlk_ok, ushr0_id by done.
  step_stage (run_lift s (Ok sh)). step_stage (run_lift s (Ok (enc (KOutBlk bh (h2b t) i)))).
  by apply run_put.
Qed.

Lemma to_latin1_inj a b : to_latin1 a = to_latin1 b -> a = b.
Proof. intros E. by rewrite <- (from_to_latin1 a), E, from_to_latin1. Qed.

(** The S and Z writes of one output: only on the first sight of its script. *)
Definition first_writes s (sh : bytes) : list write :=
  if decide (is_Some (vk s (KScriptBlk sh))) then []
  else [(enc (KScriptBlk sh), Some (be 4 h)); (enc (KBlkScript bh sh), Some [])].

Lemma set_known_same s kn : kn = knownScripts s -> set_known kn s = s.
Proof. intros ->. by destruct s. Qed.

Lemma run_insertOutputScriptBlock s sh :
  first_seen_ok s -> hash32 sh ->
  exists kn, insertOutputScriptBlock (SBuf sh) (Some bhs) h s
    = (Ok true, set_known kn (stage (first_writes s sh) s))
    /\ kn ⊆ {[to_latin1 sh]} ∪ knownScripts s.
Proof.
  intros [Hb Hkn Hput] Hsh. unfold insertOutputScriptBlock. cbn [falsy default scriptKey].
  rewrite bool_decide_eq_false_2 by by apply is_hash_nonempty.
  set (kn0 := if bool_decide (KNOWN_SCRIPTS_MAX < Z.of_nat (size (knownScripts s)))%Z
              then ∅ else knownScripts s).
  assert (Hsub : kn0 ⊆ knownScripts s) by (unfold kn0; case_bool_decide; set_solver).
  rewrite (run_bind_ok _ _ s tt (set_known kn0 s)).
  2:{ unfold modify. do 2 f_equal. unfold kn0. case_bool_decide; [done|]. by rewrite set_known_same. }
  set (s0 := set_known kn0 s). rewrite (run_bind_ok _ _ s0 kn0 s0) by done.
  assert (Hb0 : in_batch s0) by done.
  unfold first_writes.
  case_bool_decide as Hin.
  { exists kn0. rewrite decide_True; [rewrite stage_nil; split; [done|set_solver]|].
    destruct (Hkn (to_latin1 sh)) as (sh' & _ & E & Hs); [by apply Hsub|].
    by apply to_latin1_inj in E as ->. }
  unfold kScriptBlkArg. rewrite kScriptBlkFromBuf_ok by done.
  step_stage (run_lift s0 (Ok (enc (KScriptBlk sh)))).
  step_stage (run_getTransactionValue s0 (enc (KScriptBlk sh))).
  pose proof (view_staged s (enc (KScriptBlk sh))) as Hview. fold (vk s (KScriptBlk sh)) in Hview.
  change (transactionArray s0) with (transactionArray s). unfold staged in Hview.
  destruct Hb as (tt' & Et & Hvt). rewrite Et in Hview |- *.
  destruct (tt' !! enc (KScriptBlk sh)) as [it|] eqn:Eit.
  { destruct (Hput sh it Hsh) as (v & ->); [unfold staged; by rewrite Et|].
    cbn in Hview |- *. rewrite decide_True by by rewrite Hview.
    exists ({[to_latin1 sh]} ∪ kn0). rewrite stage_nil. split; [done|set_solver]. }
  step_stage (run_dbGet s0 (enc (KScriptBlk sh))). change (disk s0) with (disk s).
  rewrite <- Hview. destruct (vk s (KScriptBlk sh)) as [v|].
  { rewrite decide_True by done. exists ({[to_latin1 sh]} ∪ kn0).
    rewrite stage_nil. split; [done|set_solver]. }
  rewrite decide_False by by intros [? ?].
  unfold encodeScriptBlk, write_u32. rewrite bool_decide_eq_true_2 by by apply height_ok_u32.
  change (buf_write (zeros 4) 0 (be 4 h)) with (be 4 h).
  step_stage (run_lift s0 (Ok (be 4 h))).
  step_stage (run_put s0 (enc (KScriptBlk sh)) (be 4 h) Hb0). set (s1 := stage _ s0).
  assert (Hb1 : in_batch s1) by by apply in_batch_stage.
  unfold kBlkScriptArg. rewrite kBlkScriptFromBuf_ok by done.
  step_stage (run_lift s1 (Ok (enc (KBlkScript bh sh)))).
  step_stage (run_put s1 (enc (KBlkScript bh sh)) EMPTY Hb1).
  exists ({[to_latin1 sh]} ∪ kn0). split; [|set_solver].
  unfold s1. rewrite <- stage_2. unfold s0. by rewrite stage_set_known.
Qed.

(** Writes to other records leave the first-seen state alone. *)
Definition no_S (ws : list write) : Prop :=
  forall sh, hash32 sh -> last_write ws (enc (KScriptBlk sh)) = None.

Lemma vk_S_other s ws sh :
  in_batch s -> no_S ws -> hash32 sh -> vk (stage ws s) (KScriptBlk sh) = vk s (KScriptBlk sh).
Proof. intros Hb Hws Hsh. unfold vk. rewrite view_stage by done. by rewrite Hws. Qed.

Lemma first_seen_other s ws c :
  no_S ws -> first_seen_ok s -> first_seen_ok (set_cache c (stage ws s)).
Proof.
  intros Hws [Hb Hkn Hput]. split.
  - by apply in_batch_stage.
  - intros k Hk. change (k ∈ knownScripts (stage ws s)) in Hk. rewrite known_stage in Hk.
    destruct (Hkn k Hk) as (sh & Hsh & -> & Hs). exists sh. split_and!; [done|done|].
    change (is_Some (vk (stage ws s) (KScriptBlk sh))). by rewrite vk_S_other.
  - intros sh it Hsh Hst. change (staged (stage ws s) (enc (KScriptBlk sh)) = Some it) in Hst.
    rewrite staged_stage, Hws in Hst by done. by eapply Hput.
Qed.

Lemma length_enc_S k sh o :
  wf_key k -> hash32 sh -> (forall sh', k <> KScriptBlk sh') ->
  last_write [(enc k, o)] (enc (KScriptBlk sh)) = None.
Proof.
  intros Hk Hsh Hne. cbn [last_write]. rewrite decide_False; [done|].
  intros E. apply enc_inj in E; [|done|done]. by eapply Hne.
Qed.

(** The writes of one output, read through the schema. *)
Lemma output_writes_rel s r :
  hash32 (c_t r) -> u32 (c_i r) -> hash32 (c_sh r) ->
  writes_rel ([(enc (KOutput (c_sh r) (c_t r) (c_i r)), Some (c_v r));
               (enc (KOutHint (c_t r) (c_i r)), Some (c_sh r))]
              ++ first_writes s (c_sh r)
              ++ [(enc (KOutBlk bh (c_t r) (c_i r)), Some (c_sh r))])
    (R1 bh h s [] [r]).
Proof.
  intros Ht Hi Hsh. destruct r as [t i sh v]. cbn [c_t c_i c_sh c_v] in *.
  pose proof (h2b_hash32 _ Hbhs) as Hb32.
  set (fw := if decide (is_Some (vk s (KScriptBlk sh))) then []
             else [(KScriptBlk sh, Some (be 4 h)); (KBlkScript bh sh, Some [])]).
  assert (E : first_writes s sh = (fun x => (enc x.1, x.2)) <$> fw)
    by (unfold first_writes, fw; by destruct (decide _)).
  rewrite E. clear E.
  set (L := [(KOutput sh t i, Some v); (KOutHint t i, Some sh)] ++ fw ++ [(KOutBlk bh t i, Some sh)]).
  assert (HL : forall k o, (k, o) ∈ L -> wf_key k).
  { intros k o. unfold L, fw. destruct (decide _);
      repeat (rewrite elem_of_app || rewrite elem_of_cons || rewrite elem_of_nil);
      intros Hin; destruct_or?; simplify_eq; cbn; auto. }
  apply writes_rel_list in HL. unfold L in HL at 1. rewrite !fmap_app in HL.
  eapply writes_rel_iff; [exact HL|]. unfold L.
  assert (Hr : forall r, r ∈ [mkOut t i sh v] <-> r = mkOut t i sh v) by set_solver.
  intros k o Hk. unfold fw. destruct (decide _) as [[x Hs]|Hs%eq_None_not_Some];
      repeat (rewrite elem_of_app || rewrite elem_of_cons || rewrite elem_of_nil);
      destruct k; cbn [R1]; try setoid_rewrite Hr; rewrite ?elem_of_nil; naive_solver.
Qed.

Lemma pass1_parseTxOutput s tx n o :
  first_seen_ok s -> tx_ok tx -> outs tx !! n = Some o ->
  exists s', parseTxOutput tx (Some bhs) h false true (n, o) s = (Ok tt, s')
    /\ pass1 bh h [] [out_of h tx n o] s s'.
Proof.
  intros Hfs Htx Hn. pose proof (txo_id _ Htx) as Ht.
  assert (Hi : u32 (Z.of_nat n)).
  { apply lookup_lt_Some in Hn. pose proof (txo_count _ Htx). unfold u32. lia. }
  assert (Hv : u64 (to_value o)) by (apply (txo_value _ Htx); by eapply list_elem_of_lookup_2).
  set (sh := sha256 (to_script o)). assert (Hsh : hash32 sh) by apply length_sha256.
  set (r := out_of h tx n o).
  pose proof (h2b_hash32 _ Ht) as Ht32. pose proof (h2b_hash32 _ Hbhs) as Hb32.
  unfold parseTxOutput. cbn [orb].
  destruct (run_insertOutput s sh (getId tx) (Z.of_nat n) (to_value o) (isCoinbaseTransaction tx))
    as (c & E1 & Hc); [apply Hfs|done..|].
  rewrite (run_bind_ok _ _ _ _ _ E1). clear E1. cbn [when].
  set (ws1 := [(enc (KOutput sh (txid32 tx) (Z.of_nat n)), Some (c_v r))]).
  change (set_cache c (stage _ s)) with (set_cache c (stage ws1 s)).
  set (s1 := set_cache c (stage ws1 s)).
  assert (Hb1 : in_batch s1) by (apply in_batch_stage, Hfs).
  step_stage (run_insertOutputHint s1 sh (getId tx) (Z.of_nat n) (to_value o) _ _ _ Hb1 Ht Hi).
  set (ws2 := [(enc (KOutHint (h2b (getId tx)) (Z.of_nat n)), Some sh)]).
  assert (Hws : no_S (ws1 ++ ws2)).
  { intros x Hx. rewrite last_write_app.
    unfold ws1, ws2. rewrite !length_enc_S by (done || cbn; auto). done. }
  assert (E2 : stage ws2 s1 = set_cache c (stage (ws1 ++ ws2) s))
    by (unfold s1; by rewrite stage_set_cache, stage_app).
  rewrite E2. set (s2 := set_cache c (stage (ws1 ++ ws2) s)).
  assert (Hfs2 : first_seen_ok s2) by by apply first_seen_other.
  destruct (run_insertOutputScriptBlock s2 sh Hfs2 Hsh) as (kn & E3 & Hkn).
  cbn [oa_scriptPubKey]. rewrite (run_bind_ok _ _ _ _ _ E3). clear E3.
  assert (Hfw : first_writes s2 sh = first_writes s sh).
  { unfold first_writes. change (vk s2 (KScriptBlk sh)) with (vk (stage (ws1 ++ ws2) s) (KScriptBlk sh)).
    by rewrite vk_S_other by (done || apply Hfs). }
  rewrite Hfw. set (s3 := set_known kn _).
  assert (Hb3 : in_batch s3) by (apply in_batch_stage, Hfs2).
  step_stage (run_insertOutputBlock s3 sh (getId tx) (Z.of_nat n) (to_value o) _ _ _ Hb3 Ht Hi).
  eexists. split; [done|]. split.
  eexists ((ws1 ++ ws2) ++ first_writes s sh
           ++ [(enc (KOutBlk bh (h2b (getId tx)) (Z.of_nat n)), Some sh)]), c, kn.
  split_and!.
  - unfold s3, s2. by rewrite stage_set_known, !stage_set_cache, <- !stage_app, <- app_assoc.
  - by apply (output_writes_rel s r).
  - intros t i v Hcv. apply (lookup_weaken _ _ _ _ Hcv) in Hc.
    apply lookup_insert_Some in Hc as [[[= <- <-] <-]|[Hne ?]].
    2:{ left. split; [done|]. intros (r' & ->%list_elem_of_singleton & <- & <-). apply Hne.
        unfold r, out_of. cbn [c_t c_i]. by rewrite b2h_h2b. }
    right. exists r. split_and!; [by left|by apply b2h_h2b|done|done].
  - intros k Hk. apply Hkn in Hk. change (knownScripts s2) with (knownScripts (stage (ws1 ++ ws2) s)) in Hk.
    rewrite known_stage in Hk. apply elem_of_union in Hk as [->%elem_of_singleton|?]; [|by left].
    right. exists r. split; [by left|done].
Qed.

Lemma created_wf tx : tx_ok tx -> recs_wf (tx_created h tx).
Proof.
  intros Htx r Hr. apply list_elem_of_lookup_1 in Hr as [n Hn].
  unfold tx_created in Hn. rewrite list_lookup_imap in Hn.
  destruct (outs tx !! n) as [o|] eqn:E; [|done]. injection Hn as <-.
  unfold out_of. cbn [c_t c_i c_sh]. split_and!.
  - auto with store_keys.
  - apply lookup_lt_Some in E. pose proof (txo_count _ Htx). unfold u32. lia.
  - apply length_sha256.
Qed.

(** A loop over the outputs of one transaction. *)
Lemma pass1_outs tx l n s :
  first_seen_ok s -> tx_ok tx -> (forall j o, l !! j = Some o -> outs tx !! (n + j) = Some o) ->
  exists s', forM (imap (fun j o => (n + j, o)) l)
               (parseTxOutput tx (Some bhs) h false true) s = (Ok tt, s')
    /\ pass1 bh h [] (imap (fun j => out_of h tx (n + j)) l) s s'.
Proof.
  intros Hfs Htx. revert n s Hfs. induction l as [|o l IH]; intros n s Hfs Hl.
  - exists s. split; [done|apply pass1_nil].
  - cbn [imap forM].
    assert (Ho : outs tx !! (n + 0) = Some o) by by apply (Hl 0).
    destruct (pass1_parseTxOutput s tx (n + 0) o Hfs Htx Ho) as (s1 & E1 & H1).
    rewrite (run_bind_ok _ _ _ _ _ E1).
    assert (Hfs1 : first_seen_ok s1).
    { eapply pass1_first_seen; [exact Hfs| |exact H1]. intros r ->%list_elem_of_singleton.
      apply (created_wf tx Htx). apply list_elem_of_lookup. exists (n + 0).
      unfold tx_created. by rewrite list_lookup_imap, Ho. }
    destruct (IH (S n) s1 Hfs1) as (s2 & E2 & H2).
    { intros j x Hj. replace (S n + j) with (n + S j) by lia. by apply Hl. }
    exists s2. split.
    + rewrite <- E2. f_equal. apply imap_ext. intros j x _. cbn. by rewrite Nat.add_succ_r.
    + replace (imap _ l) with (imap (fun j => out_of h tx (S n + j)) l).
      * by apply (pass1_trans bh h [] [_] [] _ s s1 s2 (fs_batch _ Hfs) H1).
      * apply imap_ext. intros j x _. cbn. by rewrite Nat.add_succ_r.
Qed.

Lemma pass1_tx s tx :
  first_seen_ok s -> tx_ok tx ->
  exists s' n,
    (_ ← insertTransaction (mkTxArg (getId tx) (Some bhs));
     parseTxOutputs tx (Some bhs) h false REMOVE_SPENT) s = (Ok n, s')
    /\ pass1 bh h [txid32 tx] (tx_created h tx) s s'.
Proof.
  intros Hfs Htx.
  destruct (pass1_insertTransaction s (getId tx)) as (s1 & E1 & H1); [apply Hfs|by apply txo_id|].
  rewrite (run_bind_ok _ _ _ _ _ E1).
  assert (Hfs1 : first_seen_ok s1) by (eapply pass1_first_seen; [exact Hfs| |exact H1]; by intros ? ?%elem_of_nil).
  unfold parseTxOutputs. cbn [REMOVE_SPENT].
  rewrite (run_bind_ok _ _ s1 true s1) by done.
  destruct (pass1_outs tx (outs tx) 0 s1 Hfs1 Htx) as (s2 & E2 & H2); [done|].
  exists s2, (length (outs tx)). split.
  - rewrite (run_bind_ok _ _ s1 tt s2); [done|]. rewrite <- E2. f_equal.
  - by apply (pass1_trans bh h [_] [] [] _ s s1 s2 (fs_batch _ Hfs) H1).
Qed.

Lemma pass1_block txs s :
  first_seen_ok s -> (forall tx, tx ∈ txs -> tx_ok tx) ->
  exists s' counts,
    mapM_list txs (fun tx =>
      _ ← insertTransaction (mkTxArg (getId tx) (Some bhs));
      parseTxOutputs tx (Some bhs) h false REMOVE_SPENT) s = (Ok counts, s')
    /\ pass1 bh h (txid32 <$> txs) (block_created h txs) s s'.
Proof.
  revert s. induction txs as [|tx txs IH]; intros s Hfs Htxs.
  - exists s, []. split; [done|apply pass1_nil].
  - cbn [mapM_list].
    destruct (pass1_tx s tx Hfs) as (s1 & n & E1 & H1); [apply Htxs; by left|].
    rewrite (run_bind_ok _ _ _ _ _ E1).
    assert (Hfs1 : first_seen_ok s1).
    { eapply pass1_first_seen; [exact Hfs| |exact H1]. apply created_wf, Htxs. by left. }
    destruct (IH s1 Hfs1) as (s2 & counts & E2 & H2); [intros; apply Htxs; by right|].
    rewrite (run_bind_ok _ _ _ _ _ E2). exists s2, (n :: counts). split; [done|].
    by apply (pass1_trans bh h [_] _ _ _ s s1 s2 (fs_batch _ Hfs) H1).
Qed.
End run_pass1.
