(* ===== verification/Spend.v ===== *)
(** Pass 2 of a block: [removeOutputsWithInputsBatch].  The spent outputs are
    resolved first (staged in the open batch, served from the output cache, or
    read from the disk), then archived or unstaged; [run_spends] gives the staged
    state afterwards, record by record. *)

From S2P Require Import Prelude KeyCodec ValueCodec LevelDb Store Outputs StoreFacts.
From S2P Require Import Rollback Parsing Apply.

#[local] Open Scope string_scope.
#[local] Open Scope nat_scope.
#[local] Open Scope list_scope.

(** * Loops that only read *)

Lemma run_mapM_pure {S A B} (l : list A) (f : A -> M S B) (g : A -> B) s :
  (forall x, x ∈ l -> f x s = (Ok (g x), s)) -> mapM_list l f s = (Ok (g <$> l), s).
Proof.
  induction l as [|x l IH]; intros Hf; [done|]. cbn [mapM_list].
  rewrite (run_bind_ok _ _ _ _ _ (Hf x ltac:(by left))).
  rewrite (run_bind_ok _ _ _ _ _ (IH ltac:(intros; apply Hf; by right))). done.
Qed.

(** The value a staged item would write. *)
Definition ival (o : option item) : option bytes := o ≫= i_value.

Section spend.
Context {node : Node} {DB : Type} `{LevelDbLaws DB}.
Implicit Type s : store DB.

Lemma getTransactionValue_ival s k : getTransactionValue k s = (Ok (ival (staged s k)), s).
Proof.
  rewrite run_getTransactionValue. unfold ival, staged. do 2 f_equal.
  destruct (transactionArray s) as [t|]; [|done]. by destruct (t !! k).
Qed.

(** ** Invariant of a batch before its spends *)

(** A staged value of an output of transaction [t] of height at most [hm]. *)
Definition staged_output (hm : Z) (t v : bytes) : Prop :=
  exists n hh cb, v = output_val n hh t cb /\ u64 n /\ (0 <= hh <= hm)%Z.

(** An outpoint's two staged records stand together. *)
Definition mem_ok (hm : Z) s : Prop :=
  forall t i sh, hash32 t -> u32 i ->
    ival (staged s (enc (KOutHint t i))) = Some sh ->
    hash32 sh /\ exists v, staged s (enc (KOutput sh t i)) = Some (mkItem put (Some v))
                           /\ staged_output hm t v.

(** A hint is never without its output. *)
Definition hints_ok (g : key -> option bytes) : Prop :=
  forall t i sh, hash32 t -> u32 i -> g (KOutHint t i) = Some sh -> is_Some (g (KOutput sh t i)).

(** A cached value is the stored one. *)
Definition cache_ok (g : key -> option bytes) (c : gmap (string * Z) bytes) : Prop :=
  forall t i sh v, hash32 t -> u32 i ->
    c !! (b2h t, i) = Some v -> g (KOutHint t i) = Some sh -> g (KOutput sh t i) = Some v.

Lemma cache_ok_mono g c c' : c' ⊆ c -> cache_ok g c -> cache_ok g c'.
Proof. intros Hc Hok t i sh v Ht Hi E. apply Hok; [done|done|]. by eapply lookup_weaken. Qed.

(** ** Resolution *)

(** The outpoint of a spend, as the schema writes it. *)
Definition sp_t (inp : spend_arg) : bytes := h2b (sp_prevTxHash inp).
Definition sp_op (inp : spend_arg) : bytes * Z := (sp_t inp, sp_prevOutputIndex inp).

Definition sp_ok (bhs : string) (inp : spend_arg) : Prop :=
  is_hash (sp_prevTxHash inp) /\ u32 (sp_prevOutputIndex inp) /\ sp_blockHash inp = bhs.

Definition hkey (inp : spend_arg) : bytes := enc (KOutHint (sp_t inp) (sp_prevOutputIndex inp)).
Definition okey (sh : bytes) (inp : spend_arg) : bytes :=
  enc (KOutput sh (sp_t inp) (sp_prevOutputIndex inp)).

Definition hint_slot s (inp : spend_arg) : slot :=
  match ival (staged s (hkey inp)) with
  | Some script => mkSlot (hkey inp) (Some script) true None None false
  | None => mkSlot (hkey inp) None false None None true
  end.

Definition hint_read s (inp : spend_arg) : option slot :=
  match ival (staged s (hkey inp)) with
  | Some script => Some (mkSlot (hkey inp) (Some script) true None None false)
  | None => (fun sh => mkSlot (hkey inp) (Some sh) false None None false)
              <$> db_get (disk s) (hkey inp)
  end.

(** What phase 3 is handed for an input. *)
Definition slot_of s (inp : spend_arg) : option slot :=
  match ival (staged s (hkey inp)) with
  | Some script => Some (mkSlot (hkey inp) (Some script) true None None false)
  | None =>
      (fun sh => mkSlot (hkey inp) (Some sh) false (Some (okey sh inp))
                   (db_get (disk s) (okey sh inp)) false)
      <$> db_get (disk s) (hkey inp)
  end.

Lemma run_queueHintLookup bhs s inp :
  sp_ok bhs inp -> queueHintLookup inp s = (Ok (hint_slot s inp), s).
Proof.
  intros (Ht & Hi & _). unfold queueHintLookup, hint_slot, hkey, sp_t.
  rewrite kOutHint_ok, ushr0_id by done.
  step_stage (run_lift s (Ok (enc (KOutHint (h2b (sp_prevTxHash inp)) (sp_prevOutputIndex inp))))).
  step_stage (getTransactionValue_ival s _).
  by destruct (ival _).
Qed.

Lemma run_applyHintValue s inp : applyHintValue (hint_slot s inp) s = (Ok (hint_read s inp), s).
Proof.
  unfold applyHintValue, hint_slot, hint_read.
  destruct (ival (staged s (hkey inp))) as [sh|]; [done|]. cbn [r_queued r_hKey].
  by step_stage (run_dbGet s (hkey inp)).
Qed.

(** A hint on the disk holds a script hash. *)
Lemma disk_hint_hash s t i sh :
  db_wf (disk s) -> hash32 t -> u32 i -> dk (disk s) (KOutHint t i) = Some sh -> hash32 sh.
Proof. intros Hw Ht Hi E. by apply (db_wf_val _ (KOutHint t i) sh Hw). Qed.

(** Phase 2 answers from the cache or queues a read; both end in [slot_of]. *)
Lemma run_queueOutputLookup bhs s c inp :
  db_wf (disk s) -> cache_ok (dk (disk s)) (outputCache s) -> c ⊆ outputCache s -> sp_ok bhs inp ->
  exists r c', queueOutputLookup (inp, hint_read s inp) (set_cache c s) = (Ok r, set_cache c' s)
    /\ c' ⊆ outputCache s /\ (forall c'', applyOutputValue r (set_cache c'' s) = (Ok (slot_of s inp), set_cache c'' s)).
Proof.
  intros Hw Hco Hc (Ht & Hi & _). unfold queueOutputLookup, hint_read, slot_of.
  destruct (ival (staged s (hkey inp))) as [sh|]; 
    [exists (Some (mkSlot (hkey inp) (Some sh) true None None false)), c; by split_and!|].
  destruct (db_get (disk s) (hkey inp)) as [sh|] eqn:Eh; cbn [fmap option_fmap option_map]; [|exists None, c; by split_and!].
  cbn [r_script r_inMem].
  assert (Hsh : hash32 sh) 
    by exact (disk_hint_hash s _ _ sh Hw (h2b_hash32 _ Ht) Hi Eh).
  rewrite kOutputFromBuf_ok, ushr0_id by done.
  change (enc (KOutput sh (h2b (sp_prevTxHash inp)) (sp_prevOutputIndex inp))) with (okey sh inp).
  step_stage (run_lift (set_cache c s) (Ok (okey sh inp))).
  rewrite (run_bind_ok _ _ (set_cache c s) c (set_cache c s)) by done.
  destruct (c !! (sp_prevTxHash inp, sp_prevOutputIndex inp)) as [v|] eqn:Ec.
  - eexists _, (delete (sp_prevTxHash inp, sp_prevOutputIndex inp) c).
    split; [by rewrite (run_bind_ok _ _ (set_cache c s) tt
      (set_cache (delete (sp_prevTxHash inp, sp_prevOutputIndex inp) c) s)) by done|].
    split; [etransitivity; [apply delete_subseteq|done]|]. intros c''.
    cbn [applyOutputValue r_queued].
    assert (Ev : db_get (disk s) (okey sh inp) = Some v); [|by rewrite Ev].
    apply (Hco (sp_t inp) (sp_prevOutputIndex inp) sh v); [by apply h2b_hash32|done| |done].
    unfold sp_t. rewrite b2h_h2b by done. by eapply lookup_weaken.
  - eexists _, c. split; [done|]. split; [done|]. intros c''. cbn [applyOutputValue r_queued r_oKey default].
    step_stage (run_dbGet (set_cache c'' s) (okey sh inp)). done.
Qed.

Lemma run_mapM_fmap {A B C} (l : list A) (g : A -> B) (f : B -> M (store DB) C) (e : A -> C) s :
  (forall x, x ∈ l -> f (g x) s = (Ok (e x), s)) -> mapM_list (g <$> l) f s = (Ok (e <$> l), s).
Proof.
  induction l as [|x l IH]; intros Hf; [done|]. rewrite fmap_cons. cbn [mapM_list].
  rewrite (run_bind_ok _ _ _ _ _ (Hf x ltac:(by left))).
  rewrite (run_bind_ok _ _ _ _ _ (IH ltac:(intros; apply Hf; by right))). done.
Qed.

Lemma run_phase2 bhs s inputs c :
  db_wf (disk s) -> cache_ok (dk (disk s)) (outputCache s) -> c ⊆ outputCache s ->
  (forall inp, inp ∈ inputs -> sp_ok bhs inp) ->
  exists rs c',
    mapM_list (zip inputs (hint_read s <$> inputs)) queueOutputLookup (set_cache c s)
    = (Ok rs, set_cache c' s) /\ c' ⊆ outputCache s
    /\ forall c'', mapM_list rs applyOutputValue (set_cache c'' s)
       = (Ok (slot_of s <$> inputs), set_cache c'' s).
Proof.
  intros Hw Hco. revert c. induction inputs as [|inp inputs IH]; intros c Hc Hin.
  - by exists [], c.
  - rewrite fmap_cons. cbn [zip zip_with mapM_list].
    destruct (run_queueOutputLookup bhs s c inp Hw Hco Hc) as (r & c1 & E1 & Hc1 & Hr);
      [apply Hin; by left|].
    rewrite (run_bind_ok _ _ _ _ _ E1).
    destruct (IH c1 Hc1) as (rs & c2 & E2 & Hc2 & Hrs); [intros; apply Hin; by right|].
    rewrite (run_bind_ok _ _ _ _ _ E2). exists (r :: rs), c2. split_and!; [done|done|].
    intros c''. cbn [mapM_list]. rewrite (run_bind_ok _ _ _ _ _ (Hr c'')).
    by rewrite (run_bind_ok _ _ _ _ _ (Hrs c'')).
Qed.

(** The batch is its spends, once every slot is resolved. *)
Lemma run_batch_resolved bhs s inputs :
  db_wf (disk s) -> cache_ok (dk (disk s)) (outputCache s) ->
  (forall inp, inp ∈ inputs -> sp_ok bhs inp) ->
  exists c', c' ⊆ outputCache s /\
    removeOutputsWithInputsBatch inputs s
    = (_ ← forM (zip inputs (slot_of s <$> inputs)) stageSpend; mret (length inputs)) (set_cache c' s).
Proof.
  intros Hw Hco Hin. unfold removeOutputsWithInputsBatch.
  case_bool_decide as Hl.
  { apply nil_length_inv in Hl as ->. exists (outputCache s). split; [done|]. by destruct s. }
  rewrite (run_bind_ok _ _ _ _ _ (run_mapM_pure inputs queueHintLookup (hint_slot s) s
    (fun inp H => run_queueHintLookup bhs s inp (Hin inp H)))).
  rewrite (run_bind_ok _ _ _ _ _ (run_mapM_fmap inputs (hint_slot s) applyHintValue (hint_read s) s
    (fun inp _ => run_applyHintValue s inp))).
  destruct (run_phase2 bhs s inputs (outputCache s) Hw Hco) as (rs & c' & E & Hc' & Hrs);
    [done|done|].
  assert (Es : set_cache (outputCache s) s = s) by by destruct s.
  rewrite Es in E. exists c'. split; [done|].
  rewrite (run_bind_ok _ _ _ _ _ E). by rewrite (run_bind_ok _ _ _ _ _ (Hrs c')).
Qed.

(** ** Staging one spend *)

(** [s'] differs from [s] in what is staged only. *)
Record same_but_staged s s' : Prop := {
  sb_batch : in_batch s';
  sb_dtx : is_Some (deletedTransactionArray s');
  sb_disk : disk s' = disk s;
  sb_cache : outputCache s' = outputCache s;
  sb_known : knownScripts s' = knownScripts s;
  sb_faults : faults s' = faults s;
}.

Lemma same_trans s1 s2 s3 :
  same_but_staged s1 s2 -> same_but_staged s2 s3 -> same_but_staged s1 s3.
Proof. intros [] []. split; congruence. Qed.

Lemma same_stage ws s :
  in_batch s -> is_Some (deletedTransactionArray s) -> same_but_staged s (stage ws s).
Proof.
  intros Hb Hd. split; [by apply in_batch_stage|by rewrite dtx_stage|apply disk_stage
    |apply cache_stage|apply known_stage|apply faults_stage].
Qed.

Lemma run_removeTransaction s b bhs it :
  in_batch s -> is_Some (deletedTransactionArray s) -> staged s b = Some it ->
  exists s', removeTransaction b bhs s = (Ok true, s') /\ same_but_staged s s'
    /\ forall b', staged s' b' = if decide (b' = b) then None else staged s b'.
Proof.
  intros (t & Et & Ht) [dt Ed] Hst. unfold staged in Hst. rewrite Et in Hst.
  unfold removeTransaction. unfold mbind at 1, M_bind at 1, get. rewrite Et, Hst, Ed.
  eexists. split; [done|]. split; [split; try done|].
  - exists (delete b t). split; [done|]. by apply map_Forall_delete.
  - intros b'. unfold staged. cbn. rewrite Et, lookup_delete.
    repeat case_decide; congruence.
Qed.

Context (bhs : string) (h : Z) (Hbhs : is_hash bhs) (Hh : height_ok h).
Abbreviation bh := (h2b bhs).

(** The block's own record is staged: its height is what spends compare with. *)
Definition own_block s : Prop :=
  exists ts ph, staged s (enc (KBlock bh)) = Some (mkItem put (Some (block_val h ts ph)))
    /\ u32 ts /\ hash32 ph.

Lemma run_spendBlockHeight s : own_block s -> spendBlockHeightInBatch bhs s = (Ok (Some h), s).
Proof.
  intros (ts & ph & E & Hts & Hph). unfold spendBlockHeightInBatch. rewrite kBlock_ok by done.
  step_stage (run_lift s (Ok (enc (KBlock bh)))).
  step_stage (getTransactionValue_ival s (enc (KBlock bh))). rewrite E. cbn [ival mbind option_bind i_value].
  rewrite decodeBlock_val by auto with store_keys.
  by step_stage (run_lift s (Ok (mkBlockRec h ts (b2h ph)))).
Qed.

(** The two restore records of a spend. *)
Definition recovery_writes (inp : spend_arg) (sh v : bytes) : list write :=
  [(enc (KHintDel bh (sp_t inp) (sp_prevOutputIndex inp)), Some sh);
   (enc (KOutDel bh sh (sp_t inp) (sp_prevOutputIndex inp)), Some v)].

Lemma run_stageRecovery s inp sh v :
  in_batch s -> sp_ok bhs inp -> hash32 sh ->
  stageRecovery inp sh v s = (Ok tt, stage (recovery_writes inp sh v) s).
Proof.
  intros Hb (Ht & Hi & Eb) Hsh. unfold stageRecovery, recovery_writes. rewrite Eb.
  rewrite kHintDel_ok, kOutDelFromBuf_ok, ushr0_id by done. fold (sp_t inp).
  set (mk := enc (KHintDel _ _ _)). set (kk := enc (KOutDel _ _ _ _)).
  step_stage (run_lift s (Ok mk)). step_stage (run_lift s (Ok kk)).
  step_stage (run_put s mk sh Hb).
  step_stage (run_put _ kk v (in_batch_stage _ _ Hb)). by rewrite stage_2.
Qed.

Lemma run_archiveSpend s inp sh v :
  in_batch s -> sp_ok bhs inp -> hash32 sh ->
  archiveSpend inp sh v (okey sh inp) (hkey inp) s
  = (Ok tt, stage (recovery_writes inp sh v ++ [(okey sh inp, None); (hkey inp, None)]) s).
Proof.
  intros Hb Hok Hsh. unfold archiveSpend.
  step_stage (run_stageRecovery s inp sh v Hb Hok Hsh). rewrite stage_app.
  assert (Hb1 : in_batch (stage (recovery_writes inp sh v) s)) by by apply in_batch_stage.
  step_stage (run_del _ (okey sh inp) Hb1).
  step_stage (run_del _ (hkey inp) (in_batch_stage _ _ Hb1)). by rewrite stage_2.
Qed.

(** Whether the in-memory spend of an output crosses blocks. *)
Definition crosses (v : bytes) : bool :=
  match decodeOutput v with
  | Ok d => bool_decide (0 <= o_h d < h)%Z
  | Err _ => false
  end.

Lemma run_writeCross s inp sh v hm :
  in_batch s -> own_block s -> sp_ok bhs inp -> hash32 sh -> staged_output hm (sp_t inp) v ->
  height_ok hm ->
  exists b, writeCrossBlockSpendRecovery inp sh (Some v) s
    = (Ok b, stage (if crosses v then recovery_writes inp sh v else []) s).
Proof.
  intros Hb Hob Hok Hsh (n & hh & cb & -> & Hn & Hhh) Hhm.
  unfold writeCrossBlockSpendRecovery, crosses.
  destruct Hok as (Ht & Hi & Eb).
  rewrite decodeOutput_val by
    (first [done | by apply h2b_hash32 | unfold height_ok, i32 in *; lia]).
  set (d := mkOutputRec _ _ _ _). step_stage (run_lift s (Ok d)). rewrite Eb.
  step_stage (run_spendBlockHeight s Hob). cbn [o_h d].
  rewrite bool_decide_eq_false_2 by lia.
  destruct (decide (h <= hh)%Z) as [Hle|Hlt].
  - rewrite bool_decide_eq_true_2, bool_decide_eq_false_2 by lia. exists false.
    by rewrite stage_nil.
  - rewrite bool_decide_eq_false_2, bool_decide_eq_true_2 by lia. exists true.
    by step_stage (run_stageRecovery s inp sh (output_val n hh (sp_t inp) cb) Hb
      (conj Ht (conj Hi Eb)) Hsh).
Qed.

(** *** One spend, record by record *)

(** The output a spend meets: whether it is staged in the open batch, its script
    hash and its value; [None] for an output the store does not hold. *)
Definition live s (op : bytes * Z) : option (bool * bytes * bytes) :=
  match ival (staged s (enc (KOutHint op.1 op.2))) with
  | Some sh => (fun v => (true, sh, v)) <$> ival (staged s (enc (KOutput sh op.1 op.2)))
  | None =>
      match dk (disk s) (KOutHint op.1 op.2) with
      | Some sh => (fun v => (false, sh, v)) <$> dk (disk s) (KOutput sh op.1 op.2)
      | None => None
      end
  end.

(** What the spend of that output does to a record: [Some x] sets what is staged
    for it to [x]. *)
Definition spend_effect (op : bytes * Z) (l : bool * bytes * bytes) (k : key) : option (option item) :=
  let '(mem, sh, v) := l in
  let gone := if mem then None else Some (item_of None) in
  let archived o := if mem && negb (crosses v) then None else Some (Some (item_of (Some o))) in
  match k with
  | KOutput sh' t i => if decide ((t, i) = op /\ sh' = sh) then Some gone else None
  | KOutHint t i => if decide ((t, i) = op) then Some gone else None
  | KOutDel b sh' t i => if decide ((t, i) = op /\ b = bh /\ sh' = sh) then archived v else None
  | KHintDel b t i => if decide ((t, i) = op /\ b = bh) then archived sh else None
  | _ => None
  end.

Definition effect s (op : bytes * Z) (k : key) : option (option item) :=
  l ← live s op; spend_effect op l k.

Lemma last_write_cons k' o ws k :
  wf_key k' -> wf_key k ->
  last_write ((enc k', o) :: ws) (enc k)
  = match last_write ws (enc k) with
    | Some x => Some x
    | None => if decide (k' = k) then Some o else None
    end.
Proof.
  intros Hk' Hk. cbn [last_write]. destruct (last_write ws (enc k)); [done|].
  destruct (decide (k' = k)) as [->|Hne]; [by rewrite decide_True|].
  rewrite decide_False; [done|]. intros E. by apply enc_inj in E.
Qed.

Lemma staged_other_stage s L b it :
  in_batch s -> (forall k o, (k, o) ∈ L -> wf_key k) ->
  staged (stage ((fun x : key * option bytes => (enc x.1, x.2)) <$> L) s) b = Some it ->
  staged s b = Some it \/ exists k, wf_key k /\ b = enc k.
Proof.
  intros Hb HL. rewrite staged_stage by done. destruct (last_write _ b) as [o|] eqn:E; [|by left].
  intros _. right. apply last_write_in in E as ([k o'] & [= -> ->] & Hin)%list_elem_of_fmap.
  exists k. split; [by eapply HL|done].
Qed.

(** The state after one spend. *)
Definition spent_step s (op : bytes * Z) s' : Prop :=
  same_but_staged s s'
  /\ (forall k, wf_key k -> staged s' (enc k) = default (staged s (enc k)) (effect s op k))
  /\ (forall b it, staged s' b = Some it -> staged s b = Some it \/ exists k, wf_key k /\ b = enc k).

Lemma sp_op_wf inp : sp_ok bhs inp -> hash32 (sp_t inp) /\ u32 (sp_prevOutputIndex inp).
Proof. intros (Ht & Hi & _). split; [by apply h2b_hash32|done]. Qed.

(** The stored output: archived and deleted. *)
Lemma spent_step_disk s inp sh v :
  in_batch s -> is_Some (deletedTransactionArray s) -> sp_ok bhs inp -> hash32 sh ->
  live s (sp_op inp) = Some (false, sh, v) ->
  spent_step s (sp_op inp)
    (stage (recovery_writes inp sh v ++ [(okey sh inp, None); (hkey inp, None)]) s).
Proof.
  intros Hb Hd Hok Hsh Hl. destruct (sp_op_wf inp Hok) as [Ht Hi].
  pose proof (h2b_hash32 _ Hbhs) as Hb32. split; [by apply same_stage|]. split.
  - intros k Hk. rewrite staged_stage by done. unfold effect. rewrite Hl. cbn [mbind option_bind].
    unfold recovery_writes, hkey, okey. cbn [app].
    rewrite !last_write_cons by (done || by cbn). cbn [last_write].
    unfold spend_effect, sp_op. destruct k; repeat case_decide; destruct_and?; simplify_eq; naive_solver.
  - intros b it.
    apply (staged_other_stage s [(KHintDel bh (sp_t inp) (sp_prevOutputIndex inp), Some sh);
      (KOutDel bh sh (sp_t inp) (sp_prevOutputIndex inp), Some v);
      (KOutput sh (sp_t inp) (sp_prevOutputIndex inp), None);
      (KOutHint (sp_t inp) (sp_prevOutputIndex inp), None)]); [done|].
    intros k o. repeat (rewrite elem_of_cons || rewrite elem_of_nil).
    intros Hin; destruct_or?; simplify_eq; by cbn.
Qed.

(** The staged output: unstaged, with restore records when an earlier block of
    the batch created it. *)
Lemma run_unstage s inp sh v :
  in_batch s -> is_Some (deletedTransactionArray s) -> sp_ok bhs inp -> hash32 sh ->
  staged s (okey sh inp) = Some (mkItem put (Some v)) -> ival (staged s (hkey inp)) = Some sh ->
  exists s', unstageInMemorySpend inp sh (hkey inp) s = (Ok (Some v), s')
    /\ same_but_staged s s'
    /\ forall b, staged s' b = if decide (b = okey sh inp \/ b = hkey inp) then None else staged s b.
Proof.
  intros Hb Hd Hok Hsh HO HH. destruct (sp_op_wf inp Hok) as [Ht Hi].
  pose proof Hok as (Hts & _ & Eb). unfold unstageInMemorySpend.
  rewrite kOutputFromBuf_ok, ushr0_id by done.
  change (enc (KOutput sh (h2b (sp_prevTxHash inp)) (sp_prevOutputIndex inp))) with (okey sh inp).
  step_stage (run_lift s (Ok (okey sh inp))).
  step_stage (getTransactionValue_ival s (okey sh inp)). rewrite HO. cbn [ival mbind option_bind i_value].
  destruct (run_removeTransaction s (okey sh inp) (sp_blockHash inp) _ Hb Hd HO) as (s1 & E1 & H1 & Hs1).
  rewrite (run_bind_ok _ _ _ _ _ E1). cbn [negb].
  destruct (staged s (hkey inp)) as [it|] eqn:Eh; [|done].
  assert (Hne : hkey inp <> okey sh inp) by (intros E; unfold hkey, okey in E; by apply enc_inj in E).
  assert (Eh1 : staged s1 (hkey inp) = Some it) by by rewrite Hs1, decide_False.
  destruct (run_removeTransaction s1 (hkey inp) (sp_blockHash inp) _ (sb_batch _ _ H1) (sb_dtx _ _ H1) Eh1)
    as (s2 & E2 & H2 & Hs2).
  rewrite (run_bind_ok _ _ _ _ _ E2). exists s2. split; [done|].
  split; [by eapply same_trans|]. intros b. rewrite Hs2, Hs1.
  repeat case_decide; naive_solver.
Qed.

Lemma decide_enc {A} k k' (x y : A) :
  wf_key k -> wf_key k' ->
  (if decide (enc k = enc k') then x else y) = (if decide (k = k') then x else y).
Proof.
  intros Hk Hk'. destruct (decide (k = k')) as [->|Hne]; [by rewrite decide_True|].
  rewrite decide_False; [done|]. intros E. by apply enc_inj in E.
Qed.

Lemma spent_step_mem s inp sh v s' :
  in_batch s -> is_Some (deletedTransactionArray s) -> sp_ok bhs inp -> hash32 sh ->
  live s (sp_op inp) = Some (true, sh, v) -> same_but_staged s s' ->
  (forall b, staged s' b = if decide (b = okey sh inp \/ b = hkey inp) then None else staged s b) ->
  spent_step s (sp_op inp) (stage (if crosses v then recovery_writes inp sh v else []) s').
Proof.
  intros Hb Hd Hok Hsh Hl Hsame Hs'. destruct (sp_op_wf inp Hok) as [Ht Hi].
  pose proof (h2b_hash32 _ Hbhs) as Hb32.
  split; [eapply same_trans; [exact Hsame|]; apply same_stage; apply Hsame|]. split.
  - intros k Hk. rewrite staged_stage by apply Hsame. unfold effect. rewrite Hl. cbn [mbind option_bind].
    assert (Hold : staged s' (enc k)
      = if decide (k = KOutput sh (sp_t inp) (sp_prevOutputIndex inp)
                   \/ k = KOutHint (sp_t inp) (sp_prevOutputIndex inp)) then None else staged s (enc k)).
    { rewrite Hs'. unfold okey, hkey. repeat case_decide; try done; exfalso; [|naive_solver].
      match goal with H : _ \/ _ |- _ => destruct H as [E|E] end; apply enc_inj in E; naive_solver. }
    rewrite Hold. clear Hold Hs'.
    destruct (crosses v) eqn:Ec; unfold recovery_writes, spend_effect, sp_op; rewrite ?Ec;
      rewrite ?last_write_cons by (done || by cbn); cbn [last_write andb negb];
      destruct k; repeat case_decide; destruct_or?; destruct_and?; simplify_eq; naive_solver.
  - intros b it Hst.
    assert (Hst' : staged s' b = Some it \/ exists k, wf_key k /\ b = enc k).
    { destruct (crosses v); [|left; by rewrite stage_nil in Hst].
      revert Hst. apply (staged_other_stage s' [(KHintDel bh (sp_t inp) (sp_prevOutputIndex inp), Some sh);
        (KOutDel bh sh (sp_t inp) (sp_prevOutputIndex inp), Some v)]); [apply Hsame|].
      intros k o. repeat (rewrite elem_of_cons || rewrite elem_of_nil).
      intros Hin; destruct_or?; simplify_eq; by cbn. }
    destruct Hst' as [Hst'|]; [|by right]. rewrite Hs' in Hst'. case_decide; [done|]. by left.
Qed.

(** An output the store does not hold: nothing happens. *)
Lemma spent_step_none s op :
  in_batch s -> is_Some (deletedTransactionArray s) -> live s op = None -> spent_step s op s.
Proof.
  intros Hb Hd Hl. split; [split; done|]. split; [|by left].
  intros k Hk. unfold effect. by rewrite Hl.
Qed.

Lemma run_stageSpend hm s inp :
  in_batch s -> is_Some (deletedTransactionArray s) -> own_block s -> mem_ok hm s -> height_ok hm ->
  db_wf (disk s) -> sp_ok bhs inp ->
  exists s', stageSpend (inp, slot_of s inp) s = (Ok tt, s') /\ spent_step s (sp_op inp) s'.
Proof.
  intros Hb Hd Hob Hmem Hhm Hw Hok. destruct (sp_op_wf inp Hok) as [Ht Hi].
  unfold stageSpend, slot_of.
  destruct (ival (staged s (hkey inp))) as [sh|] eqn:Eh.
  - destruct (Hmem _ _ _ Ht Hi Eh) as (Hsh & v & HO & Hv). cbn [r_inMem r_script r_hKey default].
    destruct (run_unstage s inp sh v Hb Hd Hok Hsh HO Eh) as (s1 & E1 & H1 & Hs1).
    assert (Hl : live s (sp_op inp) = Some (true, sh, v)).
    { unfold live, sp_op. cbn [fst snd].
      change (enc (KOutHint (sp_t inp) (sp_prevOutputIndex inp))) with (hkey inp).
      rewrite Eh, HO. done. }
    rewrite (run_bind_ok _ _ _ _ _ E1).
    assert (Hob1 : own_block s1).
    { destruct Hob as (ts & ph & E & ?). exists ts, ph. split; [|done]. rewrite Hs1, decide_False; [done|].
      unfold hkey, okey. intros [E'|E']; apply enc_inj in E'; try done; cbn; by apply h2b_hash32. }
    destruct (run_writeCross s1 inp sh v hm (sb_batch _ _ H1) Hob1 Hok Hsh Hv Hhm) as (b & E2).
    rewrite (run_bind_ok _ _ _ _ _ E2). eexists. split; [done|].
    by eapply spent_step_mem.
  - destruct (db_get (disk s) (hkey inp)) as [sh|] eqn:Ed; cbn [fmap option_fmap option_map].
    + pose proof (disk_hint_hash s _ _ sh Hw Ht Hi Ed) as Hsh.
      cbn [r_inMem r_oVal r_script r_oKey r_hKey default].
      assert (Hl : live s (sp_op inp) = (fun v => (false, sh, v)) <$> db_get (disk s) (okey sh inp)).
      { unfold live, sp_op. cbn [fst snd].
        change (enc (KOutHint (sp_t inp) (sp_prevOutputIndex inp))) with (hkey inp).
        rewrite Eh. unfold dk.
        change (enc (KOutHint (sp_t inp) (sp_prevOutputIndex inp))) with (hkey inp). by rewrite Ed. }
      destruct (db_get (disk s) (okey sh inp)) as [v|].
      * rewrite run_archiveSpend by done. eexists. split; [done|]. by apply spent_step_disk.
      * exists s. split; [done|]. by apply spent_step_none.
    + exists s. split; [done|]. apply spent_step_none; [done|done|].
      unfold live, sp_op. cbn [fst snd].
      change (enc (KOutHint (sp_t inp) (sp_prevOutputIndex inp))) with (hkey inp).
      rewrite Eh. unfold dk.
      change (enc (KOutHint (sp_t inp) (sp_prevOutputIndex inp))) with (hkey inp). by rewrite Ed.
Qed.

(** ** All the spends of a block *)

(** The outpoint a record speaks of. *)
Definition key_op (k : key) : option (bytes * Z) :=
  match k with
  | KOutput _ t i | KOutHint t i | KOutDel _ _ t i | KHintDel _ t i => Some (t, i)
  | _ => None
  end.

Lemma effect_other s op k : key_op k <> Some op -> effect s op k = None.
Proof.
  intros Hne. unfold effect. destruct (live s op) as [[[mem sh] v]|]; [|done].
  cbn [mbind option_bind spend_effect].
  destruct k; cbn [key_op] in Hne; try done;
    (rewrite decide_False; [done|]); intros ?; destruct_and?; congruence.
Qed.

Definition spent_all s (ops : list (bytes * Z)) s' : Prop :=
  same_but_staged s s'
  /\ (forall k, wf_key k -> staged s' (enc k)
        = match key_op k with
          | Some op => if decide (op ∈ ops) then default (staged s (enc k)) (effect s op k)
                       else staged s (enc k)
          | None => staged s (enc k)
          end)
  /\ (forall b it, staged s' b = Some it -> staged s b = Some it \/ exists k, wf_key k /\ b = enc k).

(** What the spends of a batch rely on. *)
Record spend_ready (hm : Z) s : Prop := {
  sr_batch : in_batch s;
  sr_dtx : is_Some (deletedTransactionArray s);
  sr_block : own_block s;
  sr_mem : mem_ok hm s;
  sr_wf : db_wf (disk s);
}.

Lemma spent_step_other s op s' k :
  spent_step s op s' -> wf_key k -> key_op k <> Some op -> staged s' (enc k) = staged s (enc k).
Proof. intros (_ & Hk & _) Hwf Hne. by rewrite Hk, effect_other. Qed.

Lemma live_other hm s op op' s' :
  mem_ok hm s -> spent_step s op s' -> hash32 op'.1 -> u32 op'.2 -> op' <> op -> live s' op' = live s op'.
Proof.
  intros Hmem Hst Ht Hi Hne. pose proof Hst as ([_ _ Hdk _ _ _] & _ & _).
  destruct op' as [t i]. unfold live. cbn [fst snd] in *. rewrite Hdk.
  rewrite (spent_step_other s op s' (KOutHint t i)) by (done || cbn; congruence).
  destruct (ival (staged s (enc (KOutHint t i)))) as [sh|] eqn:E; [|done].
  destruct (Hmem t i sh Ht Hi E) as (Hsh & _).
  by rewrite (spent_step_other s op s' (KOutput sh t i)) by (done || cbn; congruence).
Qed.

Lemma slot_other bhs' s inp inp' s' :
  spent_step s (sp_op inp) s' -> sp_ok bhs' inp' -> sp_op inp' <> sp_op inp ->
  slot_of s' inp' = slot_of s inp'.
Proof.
  intros Hst (Ht & Hi & _) Hne. pose proof Hst as ([_ _ Hdk _ _ _] & _ & _).
  unfold slot_of. rewrite Hdk. unfold hkey.
  rewrite (spent_step_other s (sp_op inp) s'
    (KOutHint (sp_t inp') (sp_prevOutputIndex inp'))); [done|done| |].
  - split; [by apply h2b_hash32|done].
  - cbn. intros [= E1 E2]. apply Hne. unfold sp_op. by rewrite E1, E2.
Qed.

Lemma mem_ok_step hm s op s' :
  mem_ok hm s -> spent_step s op s' -> hash32 op.1 -> u32 op.2 -> mem_ok hm s'.
Proof.
  intros Hmem Hst Hto Hio t i sh Ht Hi E.
  destruct (decide ((t, i) = op)) as [<-|Hne].
  - exfalso. cbn [fst snd] in *. destruct Hst as (_ & Hk & _). rewrite Hk in E by done.
    unfold effect in E. destruct (live s (t, i)) as [[[mem sh'] v]|] eqn:El.
    + cbn [mbind option_bind spend_effect] in E. rewrite decide_True in E by done. by destruct mem.
    + cbn [mbind option_bind default] in E. unfold live in El. cbn [fst snd] in El.
      rewrite E in El. destruct (Hmem t i sh Ht Hi E) as (_ & v & HO & _). by rewrite HO in El.
  - rewrite (spent_step_other s op s' (KOutHint t i)) in E by (done || cbn; congruence).
    destruct (Hmem t i sh Ht Hi E) as (Hsh & v & HO & Hv). split; [done|]. exists v. split; [|done].
    by rewrite (spent_step_other s op s' (KOutput sh t i)) by (done || cbn; congruence).
Qed.

Lemma spend_ready_step hm s op s' :
  spend_ready hm s -> spent_step s op s' -> hash32 op.1 -> u32 op.2 -> spend_ready hm s'.
Proof.
  intros [Hb Hd (ts & ph & E & Hts) Hmem Hw] Hst Ht Hi. pose proof Hst as (Hs & _ & _).
  split; [apply Hs|apply Hs| |by eapply mem_ok_step|by rewrite (sb_disk _ _ Hs)].
  exists ts, ph. split; [|done]. rewrite <- E.
  by apply (spent_step_other s op s' (KBlock bh)); [done|apply h2b_hash32|].
Qed.

Lemma spent_all_cons hm s op ops s1 s2 :
  mem_ok hm s -> (forall o, o ∈ ops -> hash32 o.1 /\ u32 o.2) -> op ∉ ops ->
  spent_step s op s1 -> spent_all s1 ops s2 -> spent_all s (op :: ops) s2.
Proof.
  intros Hmem Hops Hnin Hst (Hsame & Hk & Hb). pose proof Hst as (Hsame1 & Hk1 & Hb1).
  split; [by eapply same_trans|]. split.
  - intros k Hwf. rewrite Hk by done. destruct (key_op k) as [op'|] eqn:Ek.
    + destruct (decide (op' = op)) as [->|Hne].
      * rewrite decide_False by done. rewrite decide_True by by left. by apply Hk1.
      * rewrite (spent_step_other s op s1 k) by (done || congruence).
        destruct (decide (op' ∈ ops)) as [Hin|Hn].
        -- rewrite decide_True by by right. unfold effect.
           destruct (Hops op' Hin). by rewrite (live_other hm s op op' s1).
        -- rewrite decide_False; [done|]. intros [?|?]%elem_of_cons; done.
    + by apply (spent_step_other s op s1 k); [| |congruence].
  - intros b it Hbi. apply Hb in Hbi as [Hbi|?]; [by apply Hb1|by right].
Qed.

Lemma run_spends hm s inputs :
  spend_ready hm s -> height_ok hm ->
  (forall inp, inp ∈ inputs -> sp_ok bhs inp) -> NoDup (sp_op <$> inputs) ->
  exists s', forM (zip inputs (slot_of s <$> inputs)) stageSpend s = (Ok tt, s')
    /\ spent_all s (sp_op <$> inputs) s'.
Proof.
  intros Hr Hhm. revert s Hr. induction inputs as [|inp inputs IH]; intros s Hr Hin Hnd.
  - exists s. split; [done|]. destruct Hr. split; [split; done|]. split; [|by left].
    intros k _. destruct (key_op k); [|done]. by rewrite decide_False by apply not_elem_of_nil.
  - rewrite !fmap_cons in *. apply NoDup_cons in Hnd as [Hnin Hnd]. cbn [zip zip_with forM].
    assert (Hok : sp_ok bhs inp) by (apply Hin; by left).
    destruct (sp_op_wf inp Hok) as [Ht Hi].
    pose proof Hr as [Hb Hd Hob Hmem Hw].
    destruct (run_stageSpend hm s inp Hb Hd Hob Hmem Hhm Hw Hok) as (s1 & E1 & H1).
    rewrite (run_bind_ok _ _ _ _ _ E1).
    assert (Hr1 : spend_ready hm s1) by by eapply spend_ready_step.
    assert (Hin' : forall x, x ∈ inputs -> sp_ok bhs x) by (intros; apply Hin; by right).
    destruct (IH s1 Hr1 Hin' Hnd) as (s2 & E2 & H2).
    assert (Esl : slot_of s1 <$> inputs = slot_of s <$> inputs).
    { apply list_fmap_ext. intros j x Hx. apply list_elem_of_lookup_2 in Hx.
      apply (slot_other bhs s inp x s1); [done|by apply Hin'|].
      intros E. apply Hnin. rewrite <- E. apply list_elem_of_fmap. by exists x. }
    rewrite Esl in E2. exists s2. split; [done|].
    eapply spent_all_cons; [exact Hmem| |exact Hnin|exact H1|exact H2].
    intros o (x & -> & Hx)%list_elem_of_fmap. by apply sp_op_wf, Hin'.
Qed.
End spend.
