(* ===== verification/Block.v ===== *)
(** Applying a block.  [sync_inv] is the invariant of an open batch; [applied] is
    the abstract effect of a block on the records (the UTXO transition with its
    restore and reverse-index records), and [run_block] shows that inserting the
    block record and running the two passes implements it. *)

From S2P Require Import Prelude KeyCodec ValueCodec LevelDb Store Outputs StoreFacts.
From S2P Require Import Rollback Parsing Apply Spend.

#[local] Open Scope string_scope.
#[local] Open Scope nat_scope.
#[local] Open Scope list_scope.

(** * The invariant of an open batch *)

(** A record of a live output. *)
Definition utxo_key (k : key) : Prop :=
  match k with KOutput _ _ _ | KOutHint _ _ | KScriptBlk _ => True | _ => False end.

Section inv.
Context {node : Node} {DB : Type} `{LevelDbLaws DB}.
Implicit Type s : store DB.

Definition put_of (v : bytes) : item := mkItem put (Some v).

(** O and H records are staged together, both as puts or both as deletes. *)
Definition mem_pair s : Prop :=
  forall sh t i it, hash32 sh -> hash32 t -> u32 i ->
    staged s (enc (KOutput sh t i)) = Some it ->
    (staged s (enc (KOutHint t i)) = Some (put_of sh) /\ exists v, it = put_of v)
    \/ (staged s (enc (KOutHint t i)) = Some (item_of None) /\ it = item_of None).

(** A staged hint is a put of a new outpoint or the delete of a stored one. *)
Definition mem_hint s : Prop :=
  forall t i it, hash32 t -> u32 i -> staged s (enc (KOutHint t i)) = Some it ->
    (it = item_of None /\ is_Some (dk (disk s) (KOutHint t i)))
    \/ exists sh, it = put_of sh /\ dk (disk s) (KOutHint t i) = None
                  /\ dk (disk s) (KOutput sh t i) = None.

(** A cached value of a staged output is the staged one. *)
Definition mem_cache s : Prop :=
  forall t i sh v, hash32 t -> u32 i -> outputCache s !! (b2h t, i) = Some v ->
    ival (staged s (enc (KOutHint t i))) = Some sh ->
    staged s (enc (KOutput sh t i)) = Some (put_of v).

(** Only keys of the schema are staged. *)
Definition staged_wf s : Prop :=
  forall b it, staged s b = Some it ->
    exists k, b = enc k /\ wf_key k /\ forall v, i_value it = Some v -> wf_val k v.

Record sync_inv (hm : Z) s : Prop := {
  si_first : first_seen_ok s;
  si_dtx : is_Some (deletedTransactionArray s);
  si_mem : mem_ok hm s;
  si_pair : mem_pair s;
  si_hint : mem_hint s;
  si_wf : db_wf (disk s);
  si_stwf : staged_wf s;
  si_hints : hints_ok (dk (disk s));
  si_cache : cache_ok (dk (disk s)) (outputCache s);
  si_mcache : mem_cache s;
}.

Lemma vk_staged s k :
  vk s k = match staged s (enc k) with
           | Some it => apply_item it (dk (disk s) k)
           | None => dk (disk s) k
           end.
Proof. apply view_staged. Qed.

(** Writes to other records keep the invariant. *)
Lemma sync_inv_other hm s L :
  sync_inv hm s ->
  (forall k o, (k, o) ∈ L -> wf_key k /\ (forall v, o = Some v -> wf_val k v) /\ ~ utxo_key k) ->
  sync_inv hm (stage ((fun x : key * option bytes => (enc x.1, x.2)) <$> L) s).
Proof.
  intros [Hf Hd Hm Hp Hh Hw Hsw Hhi Hc Hmc] HL. set (ws := _ <$> L).
  pose proof (fs_batch _ Hf) as Hb.
  assert (Hlw : forall k, wf_key k -> utxo_key k -> last_write ws (enc k) = None).
  { intros k Hk Hu. apply last_write_none.
    intros ([b o] & E & ([k' o'] & [= -> ->] & Hin)%list_elem_of_fmap)%list_elem_of_fmap.
    cbn in E. destruct (HL _ _ Hin) as (Hk' & _ & Hn). by apply enc_inj in E as <-. }
  assert (Hst : forall k, wf_key k -> utxo_key k -> staged (stage ws s) (enc k) = staged s (enc k))
    by (intros k Hk Hu; by rewrite staged_stage, Hlw).
  split; unfold mem_ok, mem_pair, mem_hint, mem_cache;
    rewrite ?disk_stage, ?dtx_stage, ?cache_stage; try done.
  - assert (Ec : set_cache (outputCache s) (stage ws s) = stage ws s)
      by (rewrite <- (cache_stage ws s); by destruct (stage ws s)).
    rewrite <- Ec. apply first_seen_other; [|done]. intros sh Hsh. by apply Hlw.
  - intros t i sh Ht Hi. rewrite Hst by done. intros E.
    destruct (Hm t i sh Ht Hi E) as (Hsh & v & HO & Hv). split; [done|]. exists v.
    by rewrite Hst.
  - intros sh t i it Hsh Ht Hi. rewrite !Hst by done. by apply Hp.
  - intros t i it Ht Hi. rewrite Hst by done. by apply Hh.
  - intros b it. rewrite staged_stage by done.
    destruct (last_write ws b) as [o|] eqn:E; [|by apply Hsw].
    intros [= <-]. apply last_write_in in E as ([k o'] & [= -> ->] & Hin)%list_elem_of_fmap.
    destruct (HL _ _ Hin) as (Hk & Hv & _). exists k. split_and!; [done|done|].
    intros v Hi. apply Hv. cbn in Hi. destruct o'; cbn in Hi; congruence.
  - intros t i sh v Ht Hi Hcv. rewrite Hst by done. intros E.
    destruct (Hm t i sh Ht Hi E) as (Hsh & _). rewrite Hst by done. by apply (Hmc t i sh v).
Qed.

(** The view of the live records agrees with the invariant. *)
Lemma vk_hints hm s : sync_inv hm s -> hints_ok (vk s).
Proof.
  intros [_ _ Hm Hp Hh Hw _ Hhi _ _] t i sh Ht Hi. rewrite !vk_staged.
  destruct (staged s (enc (KOutHint t i))) as [it|] eqn:E.
  - intros Hv. destruct (Hh t i it Ht Hi E) as [[-> _]|(sh' & -> & _)]; [done|].
    injection Hv as ->. destruct (Hm t i sh Ht Hi) as (_ & v & -> & _); [by rewrite E|]. by eexists.
  - intros Hv. assert (Hsh : hash32 sh) by by eapply disk_hint_hash.
    destruct (staged s (enc (KOutput sh t i))) as [it|] eqn:EO; [|by eapply Hhi].
    by destruct (Hp sh t i it Hsh Ht Hi EO) as [[Ep _]|[Ep _]]; rewrite E in Ep.
Qed.
End inv.

(** * Pass 1 on the records *)

(** The output a block creates at an outpoint. *)
Definition created_at (l : list out_rec) (op : bytes * Z) : option out_rec :=
  head (filter (fun r => outpoint r = op) l).

Definition outs_unique (l : list out_rec) : Prop :=
  forall r1 r2, r1 ∈ l -> r2 ∈ l -> outpoint r1 = outpoint r2 -> r1 = r2.

Lemma created_at_Some l op r : created_at l op = Some r -> r ∈ l /\ outpoint r = op.
Proof.
  unfold created_at. intros E. apply head_Some_elem_of in E.
  by apply list_elem_of_filter in E as [??].
Qed.

Lemma created_at_in l r : outs_unique l -> r ∈ l -> created_at l (outpoint r) = Some r.
Proof.
  intros Hu Hr. destruct (created_at l (outpoint r)) as [r'|] eqn:E.
  - apply created_at_Some in E as [Hr' E]. f_equal. by apply Hu.
  - exfalso. unfold created_at in E. apply head_None in E.
    assert (Hin : r ∈ filter (fun r0 => outpoint r0 = outpoint r) l)
      by by apply list_elem_of_filter.
    rewrite E in Hin. by apply elem_of_nil in Hin.
Qed.

Lemma created_at_None l op r : created_at l op = None -> r ∈ l -> outpoint r <> op.
Proof.
  unfold created_at. intros E%head_None Hr Ho.
  assert (Hin : r ∈ filter (fun r0 => outpoint r0 = op) l) by by apply list_elem_of_filter.
  rewrite E in Hin. by apply elem_of_nil in Hin.
Qed.

Section pass1_records.
Context {node : Node} {DB : Type} `{LevelDbLaws DB}.
Implicit Type s : store DB.
Context (bh : bytes) (h : Z) (Hh : height_ok h).
Context (ts : list bytes) (l : list out_rec) (Hl : recs_wf l) (Hu : outs_unique l).

(** What pass 1 writes to a record. *)
Definition p1_write s (k : key) : option (option bytes) :=
  match k with
  | KTx t => if decide (t ∈ ts) then Some (Some (bh ++ t)) else None
  | KTxExact t => if decide (t ∈ ts) then Some (Some bh) else None
  | KTxBlockRecovery b t => if decide (b = bh /\ t ∈ ts) then Some (Some t) else None
  | KOutput sh t i =>
      match created_at l (t, i) with
      | Some r => if decide (c_sh r = sh) then Some (Some (c_v r)) else None
      | None => None
      end
  | KOutHint t i => (fun r => Some (c_sh r)) <$> created_at l (t, i)
  | KOutBlk b t i => if decide (b = bh) then (fun r => Some (c_sh r)) <$> created_at l (t, i) else None
  | KScriptBlk sh =>
      if decide (vk s k = None /\ sh ∈ c_sh <$> l) then Some (Some (be 4 h)) else None
  | KBlkScript b sh =>
      if decide (b = bh /\ vk s (KScriptBlk sh) = None /\ sh ∈ c_sh <$> l) then Some (Some []) else None
  | _ => None
  end.

Lemma R1_p1_write s k o : R1 bh h s ts l k o <-> p1_write s k = Some o.
Proof.
  assert (Hex : forall t i sh v, mkOut t i sh v ∈ l <-> created_at l (t, i) = Some (mkOut t i sh v)).
  { intros t i sh v. split; [by apply (created_at_in l (mkOut t i sh v))|].
    by intros [? _]%created_at_Some. }
  assert (Hsome : forall t i r, created_at l (t, i) = Some r -> r = mkOut t i (c_sh r) (c_v r)).
  { intros t i r [_ E]%created_at_Some. destruct r. unfold outpoint in E. cbn in *. congruence. }
  assert (Hsh : forall sh, (exists r, r ∈ l /\ c_sh r = sh) <-> sh ∈ c_sh <$> l).
  { intros sh. rewrite list_elem_of_fmap. naive_solver. }
  destruct k; cbn [R1 p1_write]; try (split; [done|congruence]).
  - case_decide; naive_solver.
  - setoid_rewrite Hex. destruct (created_at l (t, i)) as [r|] eqn:E; [|naive_solver].
    rewrite (Hsome _ _ _ E). cbn [c_sh c_v]. case_decide; naive_solver.
  - setoid_rewrite Hex. destruct (created_at l (t, i)) as [r|] eqn:E; [|naive_solver].
    rewrite (Hsome _ _ _ E). cbn. naive_solver.
  - rewrite Hsh. case_decide; naive_solver.
  - rewrite Hsh. case_decide; naive_solver.
  - setoid_rewrite Hex. case_decide; [|naive_solver].
    destruct (created_at l (t, i)) as [r|] eqn:E; [|naive_solver].
    rewrite (Hsome _ _ _ E). cbn. naive_solver.
  - case_decide; naive_solver.
  - case_decide; naive_solver.
Qed.

Lemma last_write_p1 s ws k :
  writes_rel ws (R1 bh h s ts l) -> wf_key k -> last_write ws (enc k) = p1_write s k.
Proof.
  intros Hws Hk. destruct (p1_write s k) as [o|] eqn:E.
  - apply (lw_some _ _ _ o Hws Hk); [by apply R1_p1_write|].
    intros o' Ho'%R1_p1_write. congruence.
  - apply (lw_none _ _ _ Hws Hk). intros o Ho%R1_p1_write. congruence.
Qed.

(** The outputs are new to the store. *)
Definition outs_fresh s : Prop :=
  forall r, r ∈ l ->
    staged s (enc (KOutHint (c_t r) (c_i r))) = None
    /\ dk (disk s) (KOutHint (c_t r) (c_i r)) = None
    /\ forall sh, hash32 sh -> dk (disk s) (KOutput sh (c_t r) (c_i r)) = None.

Lemma p1_staged s s1 k :
  in_batch s -> pass1 bh h ts l s s1 -> wf_key k ->
  staged s1 (enc k) = match p1_write s k with Some o => Some (item_of o) | None => staged s (enc k) end.
Proof.
  intros Hb [(ws & c & kn & -> & Hws & _)] Hk.
  change (staged (with_caches c kn (stage ws s)) (enc k)) with (staged (stage ws s) (enc k)).
  by rewrite staged_stage, (last_write_p1 s ws k Hws Hk).
Qed.

Lemma p1_disk s s1 : pass1 bh h ts l s s1 -> disk s1 = disk s.
Proof. intros [(ws & c & kn & -> & _)]. apply disk_stage. Qed.

Context (hm : Z) (Hhm : (hm <= h)%Z) (Hbh : hash32 bh) (Hts : forall t, t ∈ ts -> hash32 t).
Context (Hlv : forall r, r ∈ l -> staged_output h (c_t r) (c_v r)).

Lemma staged_output_mono h1 h2 t v : (h1 <= h2)%Z -> staged_output h1 t v -> staged_output h2 t v.
Proof. intros Hle (n & hh & cb & -> & Hn & ?). exists n, hh, cb. split_and!; [done|done|lia|lia]. Qed.

Lemma p1_hint s t i :
  p1_write s (KOutHint t i) = (fun r => Some (c_sh r)) <$> created_at l (t, i).
Proof. done. Qed.

Lemma created_at_fresh s t i r :
  outs_fresh s -> created_at l (t, i) = Some r ->
  hash32 (c_sh r) /\ staged s (enc (KOutHint t i)) = None /\ dk (disk s) (KOutHint t i) = None
  /\ forall sh, hash32 sh -> dk (disk s) (KOutput sh t i) = None.
Proof.
  intros Hfr [Hr E]%created_at_Some. injection E as <- <-.
  split; [by apply Hl|]. by apply Hfr.
Qed.

Lemma p1_mem s s1 :
  in_batch s -> outs_fresh s -> mem_ok hm s -> mem_pair s -> pass1 bh h ts l s s1 -> mem_ok h s1.
Proof.
  intros Hb Hfr Hm Hp H1 t i sh Ht Hi.
  rewrite (p1_staged s s1 _ Hb H1) by done. rewrite p1_hint.
  destruct (created_at l (t, i)) as [r|] eqn:E; cbn [fmap option_fmap option_map].
  - intros [= <-]. destruct (created_at_Some _ _ _ E) as [Hr Er]. injection Er as <- <-.
    destruct (Hl r Hr) as (_ & _ & Hsh). split; [done|]. exists (c_v r). split; [|by apply Hlv].
    rewrite (p1_staged s s1 _ Hb H1) by done. cbn [p1_write]. rewrite E.
    by rewrite decide_True.
  - intros Ev. destruct (Hm t i sh Ht Hi Ev) as (Hsh & v & HO & Hv). split; [done|].
    exists v. split; [|by eapply staged_output_mono].
    rewrite (p1_staged s s1 _ Hb H1) by done. cbn [p1_write]. by rewrite E.
Qed.

Lemma p1_pair s s1 :
  in_batch s -> outs_fresh s -> mem_pair s -> pass1 bh h ts l s s1 -> mem_pair s1.
Proof.
  intros Hb Hfr Hp H1 sh t i it Hsh Ht Hi.
  rewrite !(p1_staged s s1 _ Hb H1) by done. rewrite p1_hint. cbn [p1_write].
  destruct (created_at l (t, i)) as [r|] eqn:E; cbn [fmap option_fmap option_map]; [|by apply Hp].
  destruct (created_at_fresh s t i r Hfr E) as (_ & Hn & _).
  case_decide as Es.
  - intros [= <-]. left. rewrite <- Es. split; [done|]. by eexists.
  - intros Ho. by destruct (Hp sh t i it Hsh Ht Hi Ho) as [[Ep _]|[Ep _]]; rewrite Hn in Ep.
Qed.

Lemma p1_mem_hint s s1 :
  in_batch s -> outs_fresh s -> mem_hint s -> pass1 bh h ts l s s1 -> mem_hint s1.
Proof.
  intros Hb Hfr Hh1 H1 t i it Ht Hi.
  rewrite (p1_staged s s1 _ Hb H1) by done. rewrite p1_hint, (p1_disk _ _ H1).
  destruct (created_at l (t, i)) as [r|] eqn:E; cbn [fmap option_fmap option_map]; [|by apply Hh1].
  intros [= <-]. right. exists (c_sh r).
  destruct (created_at_fresh s t i r Hfr E) as (Hsh & _ & HdH & HdO). split_and!; auto.
Qed.

Lemma p1_cache s s1 :
  outs_fresh s -> cache_ok (dk (disk s)) (outputCache s) -> pass1 bh h ts l s s1 ->
  cache_ok (dk (disk s1)) (outputCache s1).
Proof.
  intros Hfr Hc H1 t i sh v Ht Hi Hcv. rewrite (p1_disk _ _ H1).
  destruct H1 as [(ws & c & kn & -> & _ & Hcc & _)]. change (c !! (b2h t, i) = Some v) in Hcv.
  apply Hcc in Hcv as [[Hcv _]|(r & Hr & Et & Ei & _)]; [by apply Hc|].
  apply b2h_inj in Et. destruct (Hfr r Hr) as (_ & Hd & _). rewrite <- Et, <- Ei, Hd. done.
Qed.

Lemma p1_mem_cache s s1 :
  in_batch s -> outs_fresh s -> mem_ok hm s -> mem_cache s -> pass1 bh h ts l s s1 -> mem_cache s1.
Proof.
  intros Hb Hfr Hm Hmc H1 t i sh v Ht Hi Hcv. rewrite (p1_staged s s1 _ Hb H1) by done.
  rewrite p1_hint. pose proof H1 as [(ws & c & kn & Es1 & _ & Hcc & _)].
  assert (Ec : outputCache s1 = c) by by rewrite Es1. rewrite Ec in Hcv.
  destruct (created_at l (t, i)) as [r|] eqn:E; cbn [fmap option_fmap option_map].
  - intros [= <-]. destruct (created_at_Some _ _ _ E) as [Hr Er]. injection Er as <- <-.
    destruct (Hl r Hr) as (_ & _ & Hsh).
    rewrite (p1_staged s s1 _ Hb H1) by done. cbn [p1_write]. rewrite E, decide_True by done.
    apply Hcc in Hcv as [[_ Hn]|(r' & Hr' & Et & Ei & <-)]; [exfalso; apply Hn; by exists r|].
    apply b2h_inj in Et. rewrite (Hu r' r); [done..|]. unfold outpoint. congruence.
  - intros Ev. destruct (Hm t i sh Ht Hi Ev) as (Hsh & _).
    rewrite (p1_staged s s1 _ Hb H1) by done. cbn [p1_write]. rewrite E.
    apply Hcc in Hcv as [[Hcv _]|(r' & Hr' & Et & Ei & _)]; [by apply (Hmc t i sh v)|].
    exfalso. apply b2h_inj in Et. eapply created_at_None; [exact E|exact Hr'|].
    unfold outpoint. congruence.
Qed.

Lemma p1_wf_val s k v : p1_write s k = Some (Some v) -> wf_val k v.
Proof.
  destruct k; cbn [p1_write wf_val]; try done.
  - destruct (created_at l _) as [r|] eqn:E; [|done]. intros [= <-].
    apply created_at_Some in E as [Hr _]. by apply Hl.
  - case_decide; [|done].
    destruct (created_at l _) as [r|] eqn:E; [|done]. intros [= <-].
    apply created_at_Some in E as [Hr _]. by apply Hl.
Qed.

Lemma p1_staged_wf s s1 : in_batch s -> staged_wf s -> pass1 bh h ts l s s1 -> staged_wf s1.
Proof.
  intros Hb Hsw [(ws & c & kn & -> & Hws & _)] b it.
  change (staged (with_caches c kn (stage ws s)) b) with (staged (stage ws s) b).
  rewrite staged_stage by done. destruct (last_write ws b) as [o|] eqn:E; [|by apply Hsw].
  intros [= <-]. apply last_write_in, Hws in E as (k & -> & Hk & Ho). exists k.
  split_and!; [done|done|]. intros v Hv. apply (p1_wf_val s).
  apply R1_p1_write in Ho. rewrite Ho. destruct o; cbn in Hv; congruence.
Qed.

Lemma p1_sync s s1 : outs_fresh s -> sync_inv hm s -> pass1 bh h ts l s s1 -> sync_inv h s1.
Proof.
  intros Hfr [Hf Hd Hm Hp Hh1 Hw Hsw Hhi Hc Hmc] H1. pose proof (fs_batch _ Hf) as Hb.
  split.
  - by eapply pass1_first_seen.
  - destruct H1 as [(ws & c & kn & -> & _)].
    change (is_Some (deletedTransactionArray (stage ws s))). by rewrite dtx_stage.
  - by eapply p1_mem.
  - by eapply p1_pair.
  - by eapply p1_mem_hint.
  - by rewrite (p1_disk _ _ H1).
  - by eapply p1_staged_wf.
  - by rewrite (p1_disk _ _ H1).
  - by eapply p1_cache.
  - by eapply p1_mem_cache.
Qed.
End pass1_records.

(** * The spends on the records *)

Section spend_records.
Context {node : Node} {DB : Type} `{LevelDbLaws DB}.
Implicit Type s : store DB.
Context (bhs : string) (h : Z) (Hbhs : is_hash bhs) (Hh : height_ok h).
Abbreviation bh := (h2b bhs).

(** An outpoint no earlier block of the open batch spent. *)
Definition op_unspent s (op : bytes * Z) : Prop :=
  hash32 op.1 /\ u32 op.2
  /\ (is_Some (dk (disk s) (KOutHint op.1 op.2)) -> staged s (enc (KOutHint op.1 op.2)) = None).

Lemma sync_inv_cache hm s c : sync_inv hm s -> c ⊆ outputCache s -> sync_inv hm (set_cache c s).
Proof.
  intros [[] Hd Hm Hp Hh1 Hw Hsw Hhi Hc Hmc] Hsub. split; try done.
  - by eapply cache_ok_mono.
  - intros t i sh v Ht Hi Hcv. apply Hmc; [done|done|]. by eapply lookup_weaken.
Qed.

Lemma live_vk hm s t i :
  sync_inv hm s -> op_unspent s (t, i) ->
  match vk s (KOutHint t i) with
  | None => live s (t, i) = None
  | Some sh => hash32 sh /\ exists v, vk s (KOutput sh t i) = Some v
      /\ (live s (t, i) = Some (true, sh, v) /\ staged s (enc (KOutHint t i)) = Some (put_of sh)
          \/ live s (t, i) = Some (false, sh, v) /\ staged s (enc (KOutHint t i)) = None)
  end.
Proof.
  intros [_ _ Hm Hp Hh1 Hw _ Hhi _ _] (Ht & Hi & Hun). cbn [fst snd] in *.
  rewrite vk_staged. unfold live. cbn [fst snd].
  destruct (staged s (enc (KOutHint t i))) as [it|] eqn:E.
  - destruct (Hh1 t i it Ht Hi E) as [[-> _]|(sh & -> & _)]; cbn [ival mbind option_bind i_value item_of apply_item i_type put_of].
    + destruct (dk (disk s) (KOutHint t i)); [|done]. by discriminate Hun.
    + destruct (Hm t i sh Ht Hi) as (Hsh & v & HO & _); [by rewrite E|]. split; [done|].
      exists v. rewrite vk_staged, HO. split; [done|]. left. done.
  - cbn [ival mbind option_bind]. destruct (dk (disk s) (KOutHint t i)) as [sh|] eqn:Ed; [|done].
    assert (Hsh : hash32 sh) by by eapply disk_hint_hash. split; [done|].
    destruct (Hhi t i sh Ht Hi Ed) as [v Hv]. exists v. rewrite vk_staged.
    destruct (staged s (enc (KOutput sh t i))) as [it|] eqn:EO.
    + by destruct (Hp sh t i it Hsh Ht Hi EO) as [[Ep _]|[Ep _]]; rewrite E in Ep.
    + split; [done|]. right. by rewrite Hv.
Qed.

Context (hm : Z) (ops : list (bytes * Z)) (s s' : store DB).
Context (Hinv : sync_inv hm s) (Hops : forall op, op ∈ ops -> op_unspent s op).
Context (Hall : spent_all bhs h s ops s').

Lemma live_hash t i m sh v : (t, i) ∈ ops -> live s (t, i) = Some (m, sh, v) -> hash32 sh.
Proof.
  intros Hin El. pose proof (live_vk hm s t i Hinv (Hops _ Hin)) as Hv.
  destruct (vk s (KOutHint t i)); [|congruence].
  destruct Hv as (Hsh & v' & _ & [[E _]|[E _]]); congruence.
Qed.

Lemma spent_untouched k : wf_key k -> key_op k = None -> staged s' (enc k) = staged s (enc k).
Proof. intros Hk E. destruct Hall as (_ & Hall1 & _). by rewrite Hall1, E. Qed.

Lemma spent_at k op :
  wf_key k -> key_op k = Some op ->
  staged s' (enc k) = if decide (op ∈ ops) then default (staged s (enc k)) (effect bhs h s op k)
                      else staged s (enc k).
Proof. intros Hk E. destruct Hall as (_ & Hall1 & _). by rewrite Hall1, E. Qed.

Lemma spent_disk : disk s' = disk s.
Proof. apply Hall. Qed.

(** The hint of a spent outpoint is gone from the batch. *)
Lemma spent_hint_none t i :
  hash32 t -> u32 i -> (t, i) ∈ ops -> ival (staged s' (enc (KOutHint t i))) = None.
Proof.
  intros Ht Hi Hin. rewrite (spent_at (KOutHint t i) (t, i)) by done.
  rewrite decide_True by done. unfold effect.
  pose proof (live_vk hm s t i Hinv (Hops _ Hin)) as Hv.
  destruct (live s (t, i)) as [[[m sh] v]|] eqn:El; cbn [mbind option_bind].
  - cbn [spend_effect]. rewrite decide_True by done. by destruct m.
  - destruct (vk s (KOutHint t i)) as [sh|] eqn:Ek.
    + destruct Hv as (_ & v & _ & [[E _]|[E _]]); congruence.
    + rewrite vk_staged in Ek. destruct (staged s (enc (KOutHint t i))) as [it|] eqn:Es; [|done].
      destruct (si_hint _ _ Hinv t i it Ht Hi Es) as [[-> _]|(sh & -> & _)]; done.
Qed.

Lemma spends_mem : mem_ok hm s'.
Proof.
  intros t i sh Ht Hi E. destruct (decide ((t, i) ∈ ops)) as [Hin|Hn].
  - by rewrite spent_hint_none in E.
  - rewrite (spent_at (KOutHint t i) (t, i)), decide_False in E by done.
    destruct (si_mem _ _ Hinv t i sh Ht Hi E) as (Hsh & v & HO & Hv). split; [done|]. exists v.
    by rewrite (spent_at (KOutput sh t i) (t, i)), decide_False by done.
Qed.

Lemma spends_pair : mem_pair s'.
Proof.
  intros sh t i it Hsh Ht Hi.
  rewrite (spent_at (KOutput sh t i) (t, i)), (spent_at (KOutHint t i) (t, i)) by done.
  destruct (decide ((t, i) ∈ ops)) as [Hin|Hn]; [|by apply (si_pair _ _ Hinv)].
  unfold effect. pose proof (live_vk hm s t i Hinv (Hops _ Hin)) as Hv.
  destruct (live s (t, i)) as [[[m sh0] v]|] eqn:El; cbn [mbind option_bind default];
    [|by apply (si_pair _ _ Hinv)].
  cbn [spend_effect]. rewrite (decide_True (P := (t, i) = (t, i))) by done.
  destruct (decide ((t, i) = (t, i) /\ sh = sh0)) as [[_ ->]|Hne]; cbn [default].
  - destruct m; [done|]. intros [= <-]. by right.
  - intros HO. exfalso. assert (Hne' : sh <> sh0) by (intros ->; by apply Hne).
    destruct (vk s (KOutHint t i)) as [sh1|]; [|congruence].
    destruct Hv as (_ & v' & _ & [[E Hs]|[E Hs]]);
      destruct (si_pair _ _ Hinv sh t i it Hsh Ht Hi HO) as [[Ep _]|[Ep _]];
      rewrite Hs in Ep; simplify_eq.
Qed.

Lemma spends_hint : mem_hint s'.
Proof.
  intros t i it Ht Hi. rewrite spent_disk, (spent_at (KOutHint t i) (t, i)) by done.
  destruct (decide ((t, i) ∈ ops)) as [Hin|Hn]; [|by apply (si_hint _ _ Hinv)].
  unfold effect. destruct (live s (t, i)) as [[[m sh0] v]|] eqn:El; cbn [mbind option_bind default];
    [|by apply (si_hint _ _ Hinv)].
  cbn [spend_effect]. rewrite decide_True by done. cbn [default].
  destruct m; [done|]. intros [= <-]. left. split; [done|].
  unfold live in El. cbn [fst snd] in El. destruct (ival _); [by destruct (ival _)|].
  by destruct (dk (disk s) (KOutHint t i)).
Qed.

Lemma spends_staged_wf : staged_wf s'.
Proof.
  intros b it Hb. destruct Hall as (_ & Hk & Ho).
  destruct (Ho b it Hb) as [Hold|(k & Hwf & ->)]; [by apply (si_stwf _ _ Hinv)|].
  rewrite Hk in Hb by done. exists k. split_and!; [done|done|].
    assert (Hold : staged s (enc k) = Some it -> forall v, i_value it = Some v -> wf_val k v).
    { intros E. destruct (si_stwf _ _ Hinv _ _ E) as (k' & E' & Hwf' & Hv).
      by apply enc_inj in E' as <-. }
    destruct (key_op k) as [[t i]|] eqn:Eop; [|by apply Hold].
    destruct (decide ((t, i) ∈ ops)) as [Hin|Hnin]; [|by apply Hold].
    unfold effect in Hb. destruct (live s (t, i)) as [[[m sh0] v0]|] eqn:El; cbn [mbind option_bind] in Hb;
      [|by apply Hold].
    pose proof (live_hash t i m sh0 v0 Hin El) as Hsh0.
    destruct (spend_effect bhs h (t, i) (m, sh0, v0) k) as [x|] eqn:Ef; [|by apply Hold].
    change (x = Some it) in Hb. subst x. intros v Hv.
  destruct k; cbn [spend_effect] in Ef; try discriminate Ef; case_decide; try discriminate Ef;
    destruct m, (crosses h v0); cbn [andb negb] in Ef; try discriminate Ef;
    injection Ef as <-; try discriminate Hv; by injection Hv as <-.
Qed.

Lemma spends_first_seen : first_seen_ok s'.
Proof.
  destruct (si_first _ _ Hinv) as [Hb Hkn Hput]. destruct Hall as ([] & _).
  assert (Hst : forall sh, hash32 sh -> staged s' (enc (KScriptBlk sh)) = staged s (enc (KScriptBlk sh)))
    by (intros; by apply spent_untouched).
  split; [done| |].
  - intros k. rewrite sb_known. intros Hk. destruct (Hkn k Hk) as (sh & Hsh & -> & Hs).
    exists sh. split_and!; [done|done|]. by rewrite vk_staged, Hst, spent_disk, <- vk_staged.
  - intros sh it Hsh. rewrite Hst by done. by apply Hput.
Qed.

Lemma spends_sync : sync_inv hm s'.
Proof.
  pose proof Hall as ([_ Hd Hdk Hc _ _] & _). split.
  - apply spends_first_seen.
  - done.
  - apply spends_mem.
  - apply spends_pair.
  - apply spends_hint.
  - rewrite Hdk. apply Hinv.
  - apply spends_staged_wf.
  - rewrite Hdk. apply Hinv.
  - rewrite Hdk, Hc. apply Hinv.
  - intros t i sh v Ht Hi. rewrite Hc. intros Hcv E.
    destruct (decide ((t, i) ∈ ops)) as [Hin|Hn]; [by rewrite spent_hint_none in E|].
    rewrite (spent_at (KOutHint t i) (t, i)), decide_False in E by done.
    destruct (si_mem _ _ Hinv t i sh Ht Hi E) as (Hsh & _).
    rewrite (spent_at (KOutput sh t i) (t, i)), decide_False by done.
    by apply (si_mcache _ _ Hinv).
Qed.

(** The view of a record once the outpoint it speaks of is spent: [arch] tells
    whether the spend leaves restore records. *)
Definition spend_view (V : key -> option bytes) (arch : bytes -> bool) (k : key) : option bytes :=
  match k with
  | KOutput sh t i => if decide (V (KOutHint t i) = Some sh) then None else V k
  | KOutHint t i => None
  | KOutDel b sh t i =>
      if decide (b = bh /\ V (KOutHint t i) = Some sh) then
        match V (KOutput sh t i) with Some v => if arch v then Some v else V k | None => V k end
      else V k
  | KHintDel b t i =>
      if decide (b = bh) then
        match V (KOutHint t i) with
        | Some sh => match V (KOutput sh t i) with
                     | Some v => if arch v then Some sh else V k
                     | None => V k
                     end
        | None => V k
        end
      else V k
  | _ => V k
  end.

(** Staged outputs of an earlier block leave restore records, stored ones always. *)
Definition arch_at (t : bytes) (i : Z) (v : bytes) : bool :=
  match staged s (enc (KOutHint t i)) with Some _ => crosses h v | None => true end.

Lemma vk_effect k op l :
  wf_key k -> key_op k = Some op -> op ∈ ops -> live s op = Some l ->
  vk s' k = match spend_effect bhs h op l k with
            | Some (Some it) => apply_item it (dk (disk s) k)
            | Some None => dk (disk s) k
            | None => vk s k
            end.
Proof.
  intros Hk Eop Hin El. rewrite vk_staged, (spent_at k op), spent_disk by done.
  rewrite decide_True by done. unfold effect. rewrite El. cbn [mbind option_bind].
  destruct (spend_effect bhs h op l k) as [[it|]|]; [done|done|]. by rewrite vk_staged.
Qed.

Lemma vk_spent k t i :
  wf_key k -> key_op k = Some (t, i) -> (t, i) ∈ ops -> vk s' k = spend_view (vk s) (arch_at t i) k.
Proof.
  intros Hk Eop Hin. pose proof (Hops _ Hin) as Hun. pose proof Hun as (Ht & Hi & _). cbn [fst snd] in *.
  pose proof (live_vk hm s t i Hinv Hun) as Hv.
  destruct (vk s (KOutHint t i)) as [sh0|] eqn:EH.
  - destruct Hv as (Hsh0 & v & HO & Hlive).
    assert (Hl : exists m, live s (t, i) = Some (m, sh0, v)
      /\ (m = true -> dk (disk s) (KOutHint t i) = None /\ dk (disk s) (KOutput sh0 t i) = None)
      /\ (m && negb (crosses h v)) = negb (arch_at t i v)).
    { unfold arch_at. destruct Hlive as [[El Es]|[El Es]]; rewrite Es; eexists; (split; [exact El|]).
      - split; [|done]. intros _.
        destruct (si_hint _ _ Hinv t i _ Ht Hi Es) as [[? _]|(sh & [= <-] & HdH & HdO)]; done.
      - done. }
    destruct Hl as (m & El & Hmem & Harch).
    rewrite (vk_effect k (t, i) (m, sh0, v)) by done. cbn [spend_effect]. rewrite Harch. clear Hlive.
    destruct k; cbn [key_op] in Eop; try done; injection Eop as -> ->; cbn [spend_view]; rewrite ?EH.
    + destruct (decide (Some sh0 = Some sh)) as [[= ->]|Hne].
      * rewrite decide_True by done. destruct m; [by apply Hmem|done].
      * rewrite decide_False by naive_solver. done.
    + rewrite decide_True by done. destruct m; [by apply Hmem|done].
    + destruct (decide (bh = h2b bhs /\ Some sh0 = Some sh)) as [[-> [= ->]]|Hne].
      * rewrite decide_True by done. rewrite HO. by destruct (arch_at t i v).
      * rewrite decide_False by naive_solver. done.
    + destruct (decide (bh = h2b bhs)) as [->|Hne].
      * rewrite decide_True by done. rewrite HO. by destruct (arch_at t i v).
      * rewrite decide_False by naive_solver. done.
  - assert (Hsame : vk s' k = vk s k).
    { rewrite vk_staged, (spent_at k (t, i)), spent_disk, decide_True by done.
      unfold effect. rewrite Hv. cbn [mbind option_bind default]. by rewrite <- vk_staged. }
    rewrite Hsame. destruct k; cbn [key_op] in Eop; try done; injection Eop as -> ->;
      cbn [spend_view]; rewrite ?EH; repeat case_decide; destruct_and?; done.
Qed.

Lemma vk_unspent k : wf_key k -> (forall op, key_op k = Some op -> op ∉ ops) -> vk s' k = vk s k.
Proof.
  intros Hk Hn. rewrite !vk_staged, spent_disk. destruct (key_op k) as [op|] eqn:E.
  - by rewrite (spent_at k op), decide_False by auto.
  - by rewrite spent_untouched.
Qed.
End spend_records.

(** * Applying a block *)

(** A decoded block, as the sync loop hands it on. *)
Record block_data := mkBlock {
  bd_hash : string; bd_height : Z; bd_time : Z; bd_prev : string; bd_txs : list transaction }.

Lemma uint8ArrayToHex_hash b : hash32 b -> is_hash (uint8ArrayToHex b).
Proof. intros Hb. rewrite uint8ArrayToHex_b2h. by apply b2h_is_hash. Qed.

Section apply.
Context {node : Node} {DB : Type} `{LevelDbLaws DB}.
Implicit Type s : store DB.

Definition created (b : block_data) : list out_rec := block_created (bd_height b) (bd_txs b).
Definition spends (b : block_data) : list spend_arg := removeInputs (bd_txs b) (bd_hash b).
Definition spent_ops (b : block_data) : list (bytes * Z) := sp_op <$> spends b.
Definition txids (b : block_data) : list bytes := txid32 <$> bd_txs b.

(** What the decoder and consensus guarantee of a block by itself: widths, distinct
    transactions and outpoints, at least one output per transaction. *)
Record block_wf (b : block_data) : Prop := {
  bk_hash : is_hash (bd_hash b);
  bk_prev : is_hash (bd_prev b);
  bk_time : u32 (bd_time b);
  bk_height : height_ok (bd_height b);
  bk_txs : forall tx, tx ∈ bd_txs b -> tx_ok tx /\ outs tx <> [];
  bk_txids : NoDup (txids b);
  bk_spends : NoDup (spent_ops b);
}.

(** A block that may follow an open batch whose blocks are below [hm + 1]: nothing
    it creates is stored or staged, nothing it spends was spent in the batch. *)
Record block_ok (hm : Z) s (b : block_data) : Prop := {
  bk_wf : block_wf b;
  bk_above : (hm < bd_height b)%Z;
  bk_fresh : outs_fresh (created b) s;
  bk_unspent : forall op, op ∈ spent_ops b ->
    is_Some (dk (disk s) (KOutHint op.1 op.2)) -> staged s (enc (KOutHint op.1 op.2)) = None;
}.

(** ** Facts about the block's lists *)

Lemma elem_of_created b r :
  r ∈ created b <-> (exists tx n o, tx ∈ bd_txs b /\ outs tx !! n = Some o /\ r = out_of (bd_height b) tx n o).
Proof.
  unfold created, block_created. rewrite elem_of_flat_map. unfold tx_created. split.
  - intros (tx & Htx & [n Hn]%list_elem_of_lookup). rewrite list_lookup_imap in Hn.
    destruct (outs tx !! n) as [o|] eqn:E; [|done]. injection Hn as <-. by exists tx, n, o.
  - intros (tx & n & o & Htx & Hn & ->). exists tx. split; [done|].
    apply list_elem_of_lookup. exists n. by rewrite list_lookup_imap, Hn.
Qed.

Lemma created_recs_wf b : block_wf b -> recs_wf (created b).
Proof.
  intros Hb r Hr. unfold created, block_created in Hr. apply elem_of_flat_map in Hr as (tx & Htx & Hr).
  eapply created_wf; [|exact Hr]. by apply (bk_txs _ Hb).
Qed.

Lemma created_unique b : block_wf b -> outs_unique (created b).
Proof.
  intros Hb r1 r2 (tx1 & n1 & o1 & H1 & Ho1 & ->)%elem_of_created
    (tx2 & n2 & o2 & H2 & Ho2 & ->)%elem_of_created E.
  injection E as Et En. apply Nat2Z.inj in En as ->.
  apply list_elem_of_lookup in H1 as [j1 Hj1]. apply list_elem_of_lookup in H2 as [j2 Hj2].
  assert (j1 = j2) as ->.
  { eapply (NoDup_lookup _ j1 j2 (txid32 tx1) (bk_txids _ Hb)); unfold txids;
      rewrite list_lookup_fmap; [by rewrite Hj1|]. rewrite Hj2. cbn. unfold txid32. congruence. }
  congruence.
Qed.

Lemma created_values b r :
  block_wf b -> r ∈ created b ->
  exists n cb, c_v r = output_val n (bd_height b) (c_t r) cb /\ u64 n.
Proof.
  intros Hb (tx & n & o & Htx & Ho & ->)%elem_of_created. eexists _, _. split; [done|].
  destruct (bk_txs _ Hb tx Htx) as [Hok _]. apply (txo_value _ Hok).
  by eapply list_elem_of_lookup_2.
Qed.

Lemma created_staged_output b r :
  block_wf b -> r ∈ created b -> staged_output (bd_height b) (c_t r) (c_v r).
Proof.
  intros Hb Hr. destruct (created_values b r Hb Hr) as (n & cb & E & Hn).
  exists n, (bd_height b), cb. pose proof (bk_height _ Hb) as []. split_and!; [done|done|lia|lia].
Qed.

Lemma spends_ok b inp : block_wf b -> inp ∈ spends b -> sp_ok (bd_hash b) inp.
Proof.
  intros Hb Hin. unfold spends, removeInputs in Hin.
  apply list_elem_of_bind in Hin as (tx & Hin & Htx).
  apply list_elem_of_bind in Hin as (i & Hin & [_ Hi]%list_elem_of_filter).
  apply list_elem_of_singleton in Hin as ->.
  destruct (bk_txs _ Hb tx Htx) as [Hok _]. destruct (txo_ins _ Hok i Hi) as [Hh Hx].
  split_and!; [|done|done]. cbn. unfold prevTxHashHex. apply uint8ArrayToHex_hash.
  unfold hash32. by rewrite length_rev.
Qed.

(** ** The abstract transition *)

(** The records after the outputs of the block are in. *)
Definition with_created (b : block_data) (V : key -> option bytes) (k : key) : option bytes :=
  let l := created b in
  let bh := h2b (bd_hash b) in
  match k with
  | KTx t => if decide (t ∈ txids b) then Some (bh ++ t) else V k
  | KTxExact t => if decide (t ∈ txids b) then Some bh else V k
  | KTxBlockRecovery b' t => if decide (b' = bh /\ t ∈ txids b) then Some t else V k
  | KOutput sh t i =>
      match created_at l (t, i) with
      | Some r => if decide (c_sh r = sh) then Some (c_v r) else V k
      | None => V k
      end
  | KOutHint t i => match created_at l (t, i) with Some r => Some (c_sh r) | None => V k end
  | KOutBlk b' t i =>
      if decide (b' = bh) then
        match created_at l (t, i) with Some r => Some (c_sh r) | None => V k end
      else V k
  | KScriptBlk sh =>
      if decide (V k = None /\ sh ∈ c_sh <$> l) then Some (be 4 (bd_height b)) else V k
  | KBlkScript b' sh =>
      if decide (b' = bh /\ V (KScriptBlk sh) = None /\ sh ∈ c_sh <$> l) then Some [] else V k
  | _ => V k
  end.

(** A spent output of an earlier block leaves restore records, one the block
    itself created does not. *)
Definition restorable (b : block_data) (k : key) : bool :=
  match key_op k with Some op => bool_decide (created_at (created b) op = None) | None => true end.

(** The records after the whole block: created outputs in, spent ones out. *)
Definition applied (b : block_data) (V : key -> option bytes) (k : key) : option bytes :=
  let V1 := with_created b V in
  match key_op k with
  | Some op =>
      if decide (op ∈ spent_ops b) then spend_view (bd_hash b) V1 (fun _ => restorable b k) k else V1 k
  | None => V1 k
  end.

Lemma vk_pass1 hm s b s1 k :
  block_ok hm s b -> in_batch s ->
  pass1 (h2b (bd_hash b)) (bd_height b) (txids b) (created b) s s1 -> wf_key k ->
  vk s1 k = with_created b (vk s) k.
Proof.
  intros Hb Hbt [(ws & c & kn & -> & Hws & _)] Hk.
  change (vk (with_caches c kn (stage ws s)) k) with (vk (stage ws s) k).
  unfold vk at 1. rewrite view_stage by done.
  rewrite (last_write_p1 _ _ _ _ (created_unique b (bk_wf _ _ _ Hb)) s ws k Hws Hk).
  fold (vk s k). destruct k; cbn [p1_write with_created]; try done;
    repeat case_decide; try done; destruct (created_at _ _); try done; by case_decide.
Qed.

Lemma spend_view_ext bhs' V a1 a2 k :
  (forall t i sh v, key_op k = Some (t, i) -> V (KOutHint t i) = Some sh ->
     V (KOutput sh t i) = Some v -> a1 v = a2 v) ->
  spend_view bhs' V a1 k = spend_view bhs' V a2 k.
Proof.
  intros Ha. destruct k; cbn [spend_view]; try done.
  - case_decide as E; [|done]. destruct E as [_ E].
    destruct (V (KOutput sh t i)) as [v|] eqn:EO; [|done]. by rewrite (Ha t i sh v).
  - case_decide; [|done]. destruct (V (KOutHint t i)) as [sh|] eqn:EH; [|done].
    destruct (V (KOutput sh t i)) as [v|] eqn:EO; [|done]. by rewrite (Ha t i sh v).
Qed.

Lemma crosses_val h n hh t cb :
  u64 n -> height_ok hh -> hash32 t -> crosses h (output_val n hh t cb) = bool_decide (hh < h)%Z.
Proof.
  intros Hn Hhh Ht. unfold crosses. rewrite decodeOutput_val by auto with store_keys. cbn [o_h].
  apply bool_decide_ext. unfold height_ok in Hhh. lia.
Qed.

(** Staged outputs archive exactly when an earlier block created them. *)
Lemma arch_restorable hm s b s1 t i sh v :
  sync_inv hm s -> block_ok hm s b ->
  pass1 (h2b (bd_hash b)) (bd_height b) (txids b) (created b) s s1 ->
  hash32 t -> u32 i -> vk s1 (KOutHint t i) = Some sh -> vk s1 (KOutput sh t i) = Some v ->
  arch_at (bd_height b) s1 t i v = bool_decide (created_at (created b) (t, i) = None).
Proof.
  intros Hinv Hb H1 Ht Hi HH HO. pose proof (fs_batch _ (si_first _ _ Hinv)) as Hbt.
  pose proof (created_recs_wf b (bk_wf _ _ _ Hb)) as Hl. pose proof (created_unique b (bk_wf _ _ _ Hb)) as Hu.
  rewrite vk_staged in HH, HO.
  unfold arch_at. rewrite (p1_staged _ _ _ _ Hu s s1 (KOutHint t i) Hbt H1) in HH |- * by done.
  rewrite p1_hint in HH |- *.
  destruct (created_at (created b) (t, i)) as [r|] eqn:E; cbn [fmap option_fmap option_map] in *.
  - injection HH as <-. destruct (created_at_Some _ _ _ E) as [Hr Er]. injection Er as <- <-.
    destruct (Hl r Hr) as (_ & _ & Hsh).
    rewrite (p1_staged _ _ _ _ Hu s s1 _ Hbt H1) in HO by done. cbn [p1_write] in HO.
    rewrite E, decide_True in HO by done. injection HO as <-.
    destruct (created_values b r (bk_wf _ _ _ Hb) Hr) as (n & cb & -> & Hn).
    rewrite crosses_val by (done || apply (bk_height _ (bk_wf _ _ _ Hb))).
    rewrite !bool_decide_eq_false_2; [done|done|lia].
  - rewrite bool_decide_eq_true_2 by done.
    destruct (staged s (enc (KOutHint t i))) as [it|] eqn:Es; [|done].
    destruct (si_hint _ _ Hinv t i it Ht Hi Es) as [[-> _]|(sh' & -> & _)]; [done|].
    injection HH as ->. destruct (si_mem _ _ Hinv t i sh Ht Hi) as (Hsh & v' & HO' & Hv');
      [by rewrite Es|].
    rewrite (p1_staged _ _ _ _ Hu s s1 _ Hbt H1) in HO by done. cbn [p1_write] in HO.
    rewrite E, HO' in HO. injection HO as ->.
    destruct Hv' as (n & hh & cb & -> & Hn & Hhh).
    pose proof (bk_above _ _ _ Hb). pose proof (bk_height _ (bk_wf _ _ _ Hb)) as [].
    rewrite crosses_val by (done || unfold height_ok; lia). by rewrite bool_decide_eq_true_2 by lia.
Qed.

(** ** The two passes implement it *)

Lemma pass1_sync hm s b s1 :
  sync_inv hm s -> block_ok hm s b ->
  pass1 (h2b (bd_hash b)) (bd_height b) (txids b) (created b) s s1 -> sync_inv (bd_height b) s1.
Proof.
  intros Hinv Hb H1. eapply (p1_sync _ _ _ _ (created_recs_wf b (bk_wf _ _ _ Hb)) (created_unique b (bk_wf _ _ _ Hb)) hm);
    [| |exact (bk_fresh _ _ _ Hb)|exact Hinv|exact H1].
  - pose proof (bk_above _ _ _ Hb). lia.
  - intros r Hr. apply created_staged_output; [apply Hb|done].
Qed.

Lemma ops_unspent hm s b s1 :
  sync_inv hm s -> block_ok hm s b ->
  pass1 (h2b (bd_hash b)) (bd_height b) (txids b) (created b) s s1 ->
  forall op, op ∈ spent_ops b -> op_unspent s1 op.
Proof.
  intros Hinv Hb H1 op Hop. pose proof (fs_batch _ (si_first _ _ Hinv)) as Hbt.
  assert (Hwf : hash32 op.1 /\ u32 op.2).
  { apply list_elem_of_fmap in Hop as (inp & -> & Hinp). eapply sp_op_wf, spends_ok; [exact (bk_wf _ _ _ Hb)|exact Hinp]. }
  destruct Hwf as [Ht Hi]. split_and!; [done|done|].
  rewrite (p1_disk _ _ _ _ s s1 H1). intros Hd.
  rewrite (p1_staged _ _ _ _ (created_unique b (bk_wf _ _ _ Hb)) s s1 (KOutHint op.1 op.2) Hbt H1) by done.
  rewrite p1_hint. destruct (created_at (created b) (op.1, op.2)) as [r|] eqn:E.
  - destruct (created_at_Some _ _ _ E) as [Hr Er]. injection Er as E1 E2.
    destruct (bk_fresh _ _ _ Hb r Hr) as (_ & Hn & _). rewrite E1, E2 in Hn. rewrite Hn in Hd.
    by destruct Hd.
  - by apply (bk_unspent _ _ _ Hb).
Qed.

Lemma vk_applied hm s b s1 s2 k :
  sync_inv hm s -> block_ok hm s b ->
  pass1 (h2b (bd_hash b)) (bd_height b) (txids b) (created b) s s1 ->
  spent_all (bd_hash b) (bd_height b) s1 (spent_ops b) s2 -> wf_key k ->
  vk s2 k = applied b (vk s) k.
Proof.
  intros Hinv Hb H1 H2 Hk. pose proof (fs_batch _ (si_first _ _ Hinv)) as Hbt.
  pose proof (pass1_sync hm s b s1 Hinv Hb H1) as Hinv1.
  pose proof (ops_unspent hm s b s1 Hinv Hb H1) as Hun.
  pose proof (fun k Hk => vk_pass1 hm s b s1 k Hb Hbt H1 Hk) as HV.
  unfold applied. destruct (key_op k) as [[t i]|] eqn:Eop.
  - case_decide as Hin.
    + rewrite (vk_spent _ _ _ _ s1 s2 Hinv1 Hun H2 k t i) by done.
      destruct (Hun _ Hin) as (Ht & Hi & _). cbn [fst snd] in *.
      rewrite (spend_view_ext _ _ _ (fun _ => restorable b k)).
      2:{ intros t' i' sh v Eop' HH HO. unfold restorable. rewrite Eop in Eop' |- *.
          injection Eop' as <- <-. by apply (arch_restorable hm s b s1 t i sh v). }
      destruct k; cbn [key_op] in Eop; try done; injection Eop as -> ->;
        cbn [spend_view]; cbn [wf_key] in Hk; destruct_and?;
        rewrite ?(HV (KOutHint t i)), ?(HV (KOutput sh t i)) by done; try done;
        rewrite ?HV by done; try done.
      destruct (with_created b (vk s) (KOutHint t i)) as [sh|] eqn:EH; [|done].
      rewrite HV; [done|]. split_and!; [|done|done].
      assert (E : vk s1 (KOutHint t i) = Some sh) by by rewrite HV.
      pose proof (live_vk _ s1 t i Hinv1 (Hun _ Hin)) as Hv. rewrite E in Hv. apply Hv.
    + rewrite (vk_unspent _ _ _ s1 s2 H2 k); [by apply HV|done|]. rewrite Eop. by intros op [= <-].
  - rewrite (vk_unspent _ _ _ s1 s2 H2 k); [by apply HV|done|]. by rewrite Eop.
Qed.

Lemma pass1_set_cache bh h ts l s s1 c :
  pass1 bh h ts l s s1 -> c ⊆ outputCache s1 -> pass1 bh h ts l s (set_cache c s1).
Proof.
  intros [(ws & c1 & kn & -> & Hws & Hcc & Hk)] Hc. split. exists ws, c, kn. split_and!; try done.
  intros t i v Hcv. apply Hcc. by eapply lookup_weaken.
Qed.

Lemma spent_all_nil s h bhs : in_batch s -> is_Some (deletedTransactionArray s) -> spent_all bhs h s [] s.
Proof.
  intros Hb Hd. split; [by split|]. split; [|by left].
  intros k _. destruct (key_op k); [|done]. by rewrite decide_False by apply not_elem_of_nil.
Qed.

(** Pass 2, from any state pass 1 can leave. *)
Lemma run_pass2 hm s b s1 :
  sync_inv hm s -> block_ok hm s b -> own_block (bd_hash b) (bd_height b) s ->
  pass1 (h2b (bd_hash b)) (bd_height b) (txids b) (created b) s s1 ->
  exists s1' s2,
    (if bool_decide (0 < length (spends b)) then removeOutputsWithInputsBatch (spends b) else mret 0) s1
    = (Ok (length (spends b)), s2)
    /\ pass1 (h2b (bd_hash b)) (bd_height b) (txids b) (created b) s s1'
    /\ spent_all (bd_hash b) (bd_height b) s1' (spent_ops b) s2.
Proof.
  intros Hinv Hb Hob H1. pose proof (fs_batch _ (si_first _ _ Hinv)) as Hbt.
  pose proof (pass1_sync hm s b s1 Hinv Hb H1) as Hinv1.
  assert (Hok : forall inp, inp ∈ spends b -> sp_ok (bd_hash b) inp)
    by (intros inp Hinp; apply (spends_ok b); [apply Hb|done]).
  case_bool_decide as Hlen.
  2:{ exists s1, s1. unfold spent_ops. destruct (spends b); [|cbn in Hlen; lia].
      split_and!; [done|done|]. apply spent_all_nil; [apply (si_first _ _ Hinv1)|apply Hinv1]. }
  destruct (run_batch_resolved (bd_hash b) s1 (spends b)) as (c & Hc & E2); [apply Hinv1..|done|].
  assert (Hready : spend_ready (bd_hash b) (bd_height b) (bd_height b) (set_cache c s1)).
  { destruct Hob as (tm & ph & EB & Htm).
    split; [apply (si_first _ _ Hinv1)|apply Hinv1| |apply Hinv1|apply Hinv1].
    exists tm, ph. split; [|done].
    change (staged (set_cache c s1) (enc (KBlock (h2b (bd_hash b)))))
      with (staged s1 (enc (KBlock (h2b (bd_hash b))))).
    rewrite (p1_staged _ _ _ _ (created_unique b (bk_wf _ _ _ Hb)) s s1 _ Hbt H1); [done|].
    apply h2b_hash32, (bk_hash _ (bk_wf _ _ _ Hb)). }
  destruct (run_spends (bd_hash b) (bd_height b) (bk_hash _ (bk_wf _ _ _ Hb)) (bk_height _ (bk_wf _ _ _ Hb))
    (bd_height b) (set_cache c s1) (spends b) Hready (bk_height _ (bk_wf _ _ _ Hb)) Hok
    (bk_spends _ (bk_wf _ _ _ Hb))) as (s2 & E3 & H2).
  change (slot_of (set_cache c s1) <$> spends b) with (slot_of s1 <$> spends b) in E3.
  rewrite (run_bind_ok _ _ _ _ _ E3) in E2.
  exists (set_cache c s1), s2. split_and!; [by rewrite E2|by apply pass1_set_cache|done].
Qed.

Lemma run_parseBlockTransactions hm s b :
  sync_inv hm s -> block_ok hm s b -> own_block (bd_hash b) (bd_height b) s ->
  exists s' r, parseBlockTransactions (bd_txs b) (bd_hash b) (bd_height b) s = (Ok r, s')
    /\ sync_inv (bd_height b) s' /\ disk s' = disk s /\ faults s' = faults s
    /\ (forall k, wf_key k -> vk s' k = applied b (vk s) k).
Proof.
  intros Hinv Hb Hob. unfold parseBlockTransactions.
  destruct (pass1_block (bd_hash b) (bd_height b) (bk_hash _ (bk_wf _ _ _ Hb)) (bk_height _ (bk_wf _ _ _ Hb))
    (bd_txs b) s (si_first _ _ Hinv)) as (s1 & counts & E1 & H1).
  { intros tx Htx. by apply (bk_txs _ (bk_wf _ _ _ Hb)). }
  rewrite (run_bind_ok _ _ _ _ _ E1). fold (spends b).
  destruct (run_pass2 hm s b s1 Hinv Hb Hob H1) as (s1' & s2 & E2 & H1' & H2).
  rewrite (run_bind_ok _ _ _ _ _ E2). eexists s2, _. split; [done|].
  pose proof H2 as ([_ _ Hd2 _ _ Hf2] & _). split_and!.
  - eapply (spends_sync _ _ _ _ s1' s2); [| |exact H2].
    + by eapply pass1_sync.
    + by eapply ops_unspent.
  - rewrite Hd2. by eapply p1_disk.
  - rewrite Hf2. destruct H1' as [(ws & c & kn & -> & _)]. apply faults_stage.
  - intros k Hk. by apply (vk_applied hm s b s1' s2 k).
Qed.

Definition block_arg_of (b : block_data) : block_arg :=
  mkBlockArg (bd_hash b) (bd_height b) (bd_time b) (bd_prev b).

Definition block_record (b : block_data) : bytes :=
  block_val (bd_height b) (bd_time b) (h2b (bd_prev b)).

Lemma run_insertBlock hm s b :
  sync_inv hm s -> block_ok hm s b ->
  insertBlock (block_arg_of b) s
  = (Ok true, stage ((fun x : key * option bytes => (enc x.1, x.2))
                       <$> [(KBlock (h2b (bd_hash b)), Some (block_record b))]) s).
Proof.
  intros Hinv Hb. unfold insertBlock. cbn [block_arg_of ba_hash ba_height ba_timestamp ba_previousHash].
  rewrite kBlock_ok by apply (bk_hash _ (bk_wf _ _ _ Hb)).
  rewrite encodeBlock_ok; [|apply height_ok_u32, (bk_height _ (bk_wf _ _ _ Hb))
    |apply (bk_time _ (bk_wf _ _ _ Hb))|apply (bk_prev _ (bk_wf _ _ _ Hb))].
  step_stage (run_lift s (Ok (enc (KBlock (h2b (bd_hash b)))))).
  step_stage (run_lift s (Ok (block_record b))). apply run_put, (si_first _ _ Hinv).
Qed.
End apply.
