(* ===== verification/Roundtrip.v ===== *)
(** Rolling back what was applied: the rollback of a block, computed by the reorg
    code from the restore and reverse-index records, undoes the abstract
    transition of [Block] on every record. *)

From S2P Require Import Prelude KeyCodec ValueCodec LevelDb Store Outputs StoreFacts.
From S2P Require Import Rollback Parsing Apply Spend Block.

#[local] Open Scope string_scope.
#[local] Open Scope nat_scope.
#[local] Open Scope list_scope.

(** The block a reverse-index or restore record belongs to. *)
Definition key_block (k : key) : option bytes :=
  match k with
  | KBlkScript b _ | KOutDel b _ _ _ | KHintDel b _ _ | KOutBlk b _ _ | KBlock b | KStoredBlk b
  | KTxBlockRecovery b _ => Some b
  | _ => None
  end.

Definition is_meta (k : key) : bool := match k with KMeta _ => true | _ => false end.

Section roundtrip.
Context {node : Node} {DB : Type} `{LevelDbLaws DB}.

(** The records hold nothing under the block's hash, its txids and its outputs. *)
Record fresh_in (V : key -> option bytes) (b : block_data) : Prop := {
  fr_block : forall k, wf_key k -> key_block k = Some (h2b (bd_hash b)) -> V k = None;
  fr_tx : forall t, t ∈ txids b -> V (KTx t) = None /\ V (KTxExact t) = None;
  fr_out : forall r, r ∈ created b ->
    V (KOutHint (c_t r) (c_i r)) = None
    /\ forall sh, hash32 sh -> V (KOutput sh (c_t r) (c_i r)) = None;
}.

(** The records once the block is in and its window entry is staged. *)
Definition committed (b : block_data) (V : key -> option bytes) (k : key) : option bytes :=
  match k with
  | KBlock bh => if decide (bh = h2b (bd_hash b)) then Some (block_record b) else V k
  | KStoredBlk bh => if decide (bh = h2b (bd_hash b)) then Some EMPTY else V k
  | _ => applied b V k
  end.

Context (b : block_data) (Hb : block_wf b).
Context (V : key -> option bytes) (Hfr : fresh_in V b) (Hh : hints_ok V).
Context (d : DB) (Hd : db_wf d).
Context (Hcom : forall k, wf_key k -> is_meta k = false -> dk d k = committed b V k).

Abbreviation bh := (h2b (bd_hash b)).

Lemma bh32 : hash32 bh.
Proof. apply h2b_hash32, (bk_hash _ Hb). Qed.

Lemma committed_out_blk t i :
  hash32 t -> u32 i -> dk d (KOutBlk bh t i) = c_sh <$> created_at (created b) (t, i).
Proof.
  intros Ht Hi. pose proof bh32. rewrite Hcom by done. cbn [committed]. unfold applied. cbn [key_op with_created].
  rewrite decide_True by done. destruct (created_at _ _); [done|]. by apply (fr_block _ _ Hfr).
Qed.

Lemma created_at_new t i r :
  created_at (created b) (t, i) = Some r ->
  hash32 (c_sh r) /\ V (KOutHint t i) = None /\ forall sh, hash32 sh -> V (KOutput sh t i) = None.
Proof.
  intros [Hr Er]%created_at_Some. injection Er as <- <-.
  split; [by apply (created_recs_wf b Hb)|]. by apply (fr_out _ _ Hfr).
Qed.

(** A transaction of the block is one with a creation record. *)
Lemma created_tx_iff t : created_tx d bh t <-> t ∈ txids b.
Proof.
  rewrite (created_tx_is d bh Hd bh32). split.
  - intros (Ht & i & Hi & Hs). rewrite committed_out_blk in Hs by done.
    destruct (created_at (created b) (t, i)) as [r|] eqn:E; [|by destruct Hs].
    apply created_at_Some in E as [(tx & n & o & Htx & _ & ->)%elem_of_created Er].
    injection Er as <- _. apply list_elem_of_fmap. by exists tx.
  - intros (tx & -> & Htx)%list_elem_of_fmap.
    destruct (bk_txs _ Hb tx Htx) as [Hok Hne].
    destruct (outs tx) as [|o os] eqn:Eo; [done|].
    split; [apply h2b_hash32, (txo_id _ Hok)|]. exists 0%Z. split; [done|].
    rewrite committed_out_blk; [|apply h2b_hash32, (txo_id _ Hok)|done].
    set (r := out_of (bd_height b) tx 0 o).
    assert (Hr : r ∈ created b) by (apply elem_of_created; exists tx, 0, o; by rewrite Eo).
    change (txid32 tx, 0%Z) with (outpoint r).
    rewrite (created_at_in _ r (created_unique b Hb) Hr). by eexists.
Qed.

(** Restore records hold exactly the earlier outputs the block spent. *)
Lemma committed_out_del sh t i :
  hash32 sh -> hash32 t -> u32 i ->
  dk d (KOutDel bh sh t i)
  = if decide ((t, i) ∈ spent_ops b /\ created_at (created b) (t, i) = None
               /\ V (KOutHint t i) = Some sh)
    then V (KOutput sh t i) else None.
Proof.
  intros Hsh Ht Hi. pose proof bh32. rewrite Hcom by done. cbn [committed]. unfold applied.
  cbn [key_op]. assert (HV : V (KOutDel bh sh t i) = None) by by apply (fr_block _ _ Hfr).
  assert (HW : with_created b V (KOutDel bh sh t i) = None) by done.
  destruct (decide ((t, i) ∈ spent_ops b)) as [Hin|Hn]; [|by rewrite decide_False by naive_solver].
  cbn [spend_view]. rewrite HW. unfold restorable. cbn [key_op with_created].
  destruct (created_at (created b) (t, i)) as [r|] eqn:E.
  - rewrite bool_decide_eq_false_2 by done. rewrite (decide_False (P := _ /\ _ /\ _)) by naive_solver.
    by repeat case_match.
  - rewrite bool_decide_eq_true_2 by done.
    destruct (decide (V (KOutHint t i) = Some sh)) as [Hsp|Hne].
    + rewrite !decide_True by done. by destruct (V (KOutput sh t i)).
    + rewrite !decide_False by naive_solver. done.
Qed.

Lemma committed_hint_del t i :
  hash32 t -> u32 i ->
  dk d (KHintDel bh t i)
  = if decide ((t, i) ∈ spent_ops b /\ created_at (created b) (t, i) = None)
    then V (KOutHint t i) else None.
Proof.
  intros Ht Hi. pose proof bh32. rewrite Hcom by done. cbn [committed]. unfold applied.
  cbn [key_op]. assert (HV : V (KHintDel bh t i) = None) by by apply (fr_block _ _ Hfr).
  assert (HW : with_created b V (KHintDel bh t i) = None) by done.
  destruct (decide ((t, i) ∈ spent_ops b)) as [Hin|Hn]; [|by rewrite decide_False by naive_solver].
  cbn [spend_view]. rewrite HW, decide_True by done. unfold restorable. cbn [key_op with_created].
  destruct (created_at (created b) (t, i)) as [r|] eqn:E.
  - rewrite bool_decide_eq_false_2 by done. rewrite (decide_False (P := _ /\ _)) by naive_solver.
    by repeat case_match.
  - rewrite bool_decide_eq_true_2 by done. rewrite (decide_True (P := _ /\ _)) by done.
    destruct (V (KOutHint t i)) as [sh|] eqn:EH; [|done].
    destruct (Hh t i sh Ht Hi EH) as [v Hv]. by rewrite Hv.
Qed.

Lemma applied_other k : key_op k = None -> applied b V k = with_created b V k.
Proof. intros E. unfold applied. by rewrite E. Qed.

Lemma rolled_output sh t i :
  hash32 sh -> hash32 t -> u32 i -> rolled d bh (KOutput sh t i) = V (KOutput sh t i).
Proof.
  intros Hsh Ht Hi. cbn [rolled]. rewrite committed_out_blk, committed_out_del by done.
  destruct (created_at (created b) (t, i)) as [r|] eqn:E; cbn [fmap option_fmap option_map].
  - destruct (created_at_new t i r E) as (_ & _ & HO). rewrite HO by done.
    destruct (decide (Some (c_sh r) = Some sh)) as [|Hne]; [done|].
    rewrite decide_False by naive_solver. rewrite Hcom by done. cbn [committed]. unfold applied.
    cbn [key_op spend_view with_created]. rewrite E.
    rewrite !(decide_False (P := c_sh r = sh)) by congruence.
    rewrite HO by done. by repeat case_decide.
  - rewrite decide_False by done. rewrite Hcom by done. cbn [committed]. unfold applied.
    cbn [key_op spend_view with_created]. rewrite E.
    destruct (decide ((t, i) ∈ spent_ops b)) as [Hin|Hn]; [|by rewrite decide_False by naive_solver].
    destruct (decide (V (KOutHint t i) = Some sh)) as [EH|Hne].
    + rewrite !decide_True by done. by destruct (V (KOutput sh t i)).
    + rewrite !decide_False by naive_solver. done.
Qed.

Lemma rolled_hint t i : hash32 t -> u32 i -> rolled d bh (KOutHint t i) = V (KOutHint t i).
Proof.
  intros Ht Hi. cbn [rolled]. rewrite committed_out_blk, committed_hint_del by done.
  destruct (created_at (created b) (t, i)) as [r|] eqn:E; cbn [fmap option_fmap option_map].
  - destruct (created_at_new t i r E) as (_ & HH & _). rewrite HH. by rewrite decide_True by eauto.
  - rewrite decide_False by by intros [? ?]. rewrite Hcom by done. cbn [committed]. unfold applied.
    cbn [key_op spend_view with_created]. rewrite E.
    destruct (decide ((t, i) ∈ spent_ops b)) as [Hin|Hn].
    + rewrite decide_True by done. by destruct (V (KOutHint t i)).
    + by rewrite decide_False by naive_solver.
Qed.

Lemma rolled_script sh : hash32 sh -> rolled d bh (KScriptBlk sh) = V (KScriptBlk sh).
Proof.
  intros Hsh. pose proof bh32. cbn [rolled]. rewrite !Hcom by done. cbn [committed].
  rewrite !applied_other by done. cbn [with_created].
  assert (HV : V (KBlkScript bh sh) = None) by by apply (fr_block _ _ Hfr).
  rewrite HV. destruct (decide (V (KScriptBlk sh) = None /\ sh ∈ c_sh <$> created b)) as [[E Hin]|Hn].
  - rewrite (decide_True (P := _ /\ _ /\ _)) by done. by rewrite decide_True by eauto.
  - rewrite (decide_False (P := _ /\ _ /\ _)) by naive_solver.
    by rewrite decide_False by by intros [? ?].
Qed.

Lemma rolled_tx k t :
  hash32 t -> (k = KTx t \/ k = KTxExact t) -> rolled d bh k = V k.
Proof.
  intros Ht Hk. pose proof bh32 as Hb32.
  assert (Ek : rolled d bh k
    = if decide (created_tx d bh t
                 /\ (dk d (KTxBlockRecovery bh t) = None \/ (take 32 <$> dk d k) = Some bh))
      then None else dk d k) by by destruct Hk as [->| ->].
  assert (Ed : dk d k = if decide (t ∈ txids b) then dk d k else V k).
  { destruct (decide (t ∈ txids b)) as [|Hn]; [reflexivity|].
    destruct Hk as [->| ->]; rewrite Hcom by done; cbn [committed];
      rewrite applied_other by done; cbn [with_created]; by rewrite decide_False. }
  rewrite Ek. clear Ek. destruct (decide (t ∈ txids b)) as [Hin|Hn].
  - rewrite decide_True.
    + destruct (fr_tx _ _ Hfr t Hin) as [E1 E2]. by destruct Hk as [->| ->].
    + split; [by apply created_tx_iff|]. right.
      destruct Hk as [->| ->]; rewrite Hcom by done; cbn [committed];
        rewrite applied_other by done; cbn [with_created]; rewrite decide_True by done; cbn [fmap option_fmap option_map];
        f_equal; [by apply take_app_length'|by apply take_ge; rewrite Hb32].
  - rewrite decide_False; [done|]. intros [Hc _]. by apply Hn, created_tx_iff.
Qed.

(** Every record of the schema is back to what it held. *)
Lemma rolled_committed k : wf_key k -> is_meta k = false -> rolled d bh k = V k.
Proof.
  intros Hk Hm. pose proof bh32 as Hb32.
  assert (Hown : forall k', wf_key k' -> key_block k' = Some bh -> V k' = None) by apply (fr_block _ _ Hfr).
  destruct k; try done.
  - cbn [rolled]. case_decide as E; [by rewrite Hown by (done || by rewrite E)|].
    rewrite Hcom by done. cbn [committed]. by rewrite decide_False.
  - by apply (rolled_tx _ t); [|left].
  - cbn [rolled]. by rewrite Hcom.
  - apply rolled_output; apply Hk.
  - apply rolled_hint; apply Hk.
  - cbn [rolled]. by rewrite Hcom.
  - by apply rolled_script.
  - cbn [rolled]. case_decide as E; [by rewrite Hown by (done || by rewrite E)|].
    rewrite Hcom by done. cbn [committed]. rewrite applied_other by done. cbn [with_created].
    by rewrite decide_False by naive_solver.
  - cbn [rolled]. case_decide as E; [by rewrite Hown by (done || by rewrite E)|].
    rewrite Hcom by done. cbn [committed]. unfold applied. cbn [key_op spend_view with_created].
    rewrite (decide_False (P := _ /\ _)) by naive_solver. by case_decide.
  - cbn [rolled]. case_decide as E; [by rewrite Hown by (done || by rewrite E)|].
    rewrite Hcom by done. cbn [committed]. unfold applied. cbn [key_op spend_view with_created].
    rewrite (decide_False (P := bh = h2b (bd_hash b))) by done. by case_decide.
  - cbn [rolled]. case_decide as E; [by rewrite Hown by (done || by rewrite E)|].
    rewrite Hcom by done. cbn [committed]. by rewrite decide_False.
  - cbn [rolled]. case_decide as E; [by rewrite Hown by (done || by rewrite E)|].
    rewrite Hcom by done. cbn [committed]. rewrite applied_other by done. cbn [with_created].
    by rewrite decide_False.
  - by apply (rolled_tx _ t); [|right].
  - cbn [rolled]. rewrite Hcom by done. cbn [committed]. rewrite applied_other by done. cbn [with_created].
    destruct (decide (bh = h2b (bd_hash b))) as [->|Hne].
    + rewrite Hown by done. destruct (decide (t ∈ txids b)) as [Hin|Hn].
      * by rewrite decide_True by (split; [done|by apply created_tx_iff]).
      * rewrite decide_False by (intros [_ Hc]; by apply Hn, created_tx_iff).
        by rewrite decide_False by naive_solver.
    + by rewrite !decide_False by naive_solver.
Qed.
End roundtrip.
