(* ===== verification/Tracker.v ===== *)
(** The state of [XChainUtxoTracker] ([src/XChainUtxoTracker.js]) and the monad its
    methods run in: the confirmed store and the in-memory mempool store with the
    caches they share, the undo window, the status fields, and the node the
    connector talks to.  Node replies are a parameter ([NodeRpc]) indexed by the
    number of calls already made, so a reply may change from one call to the next. *)

From S2P Require Import Prelude KeyCodec ValueCodec LevelDb Store Outputs StoreFacts.
From Stdlib Require Import QArith.

#[local] Open Scope string_scope.
#[local] Open Scope nat_scope.
#[local] Open Scope list_scope.

(** * The node *)

(** The fields of a [getblockchaininfo] reply the tracker reads: [i_blocks] is
    [None] when the field is not an integer; a JS number is a dyadic rational. *)
Record chain_info := mkInfo {
  i_blocks : option Z;
  i_verificationprogress : option Q;
  i_initialblockdownload : option bool;
}.

(** What the [n]-th call to the node answers: a value, or a rejected promise. *)
Class NodeRpc := {
  rpc_getBlockHash : nat -> Z -> res string;
  rpc_getBlockchainInfo : nat -> res (option chain_info);
}.

(** * State *)

(** The undo window ([initSyncState]). *)
Record window := mkWindow {
  lastBlocks : list string;
  pendingKMCleanup : list string;
  undoBlocks : Z;
  undoWindowWatermark : Z;
  undoWindowWatermarkPersisted : option Z;
}.

(** What one poll of a catch-up wait publishes. *)
Record catch_up := mkCatchUp { node_height : Z; stored_height : Z; since : Z }.

(** Readiness, fault and reorg fields ([initSyncState], [initStatusCounters],
    [initHaltState]).  Times are the milliseconds [Date.now()] reads; a height is
    [None] where the code holds [null], [undefined] or [NaN]. *)
Record status := mkStatus {
  synced : bool;
  mempoolReconverged : bool;
  blockchainInfoLastBlock : option Z;
  latestKnownChainTip : option Z;
  mempoolInterval : bool;
  mempoolBusy : bool;
  mempoolEpoch : Z;
  reorgCount : Z;
  lastReorgDepth : Z;
  reorgRollbacksThisProcess : Z;
  lastCommittedHeight : option Z;
  nodeCatchingUp : option catch_up;
  blockFetchDesync : option (Z * Z);
}.

Record tracker (DB : Type) := mkTracker {
  db : store DB;
  mempoolDb : store DB;
  win : window;
  stat : status;
  calls : nat;
  consensusNetwork : string;
}.
Arguments mkTracker {_}.
Arguments db {_}.
Arguments mempoolDb {_}.
Arguments win {_}.
Arguments stat {_}.
Arguments calls {_}.
Arguments consensusNetwork {_}.

(** ** Field updates *)

Definition set_lastBlocks l (w : window) : window :=
  mkWindow l (pendingKMCleanup w) (undoBlocks w) (undoWindowWatermark w) (undoWindowWatermarkPersisted w).
Definition set_pending l (w : window) : window :=
  mkWindow (lastBlocks w) l (undoBlocks w) (undoWindowWatermark w) (undoWindowWatermarkPersisted w).
Definition set_watermark z (w : window) : window :=
  mkWindow (lastBlocks w) (pendingKMCleanup w) (undoBlocks w) z (undoWindowWatermarkPersisted w).
Definition set_persisted o (w : window) : window :=
  mkWindow (lastBlocks w) (pendingKMCleanup w) (undoBlocks w) (undoWindowWatermark w) o.

Definition set_synced b s := mkStatus b (mempoolReconverged s) (blockchainInfoLastBlock s)
  (latestKnownChainTip s) (mempoolInterval s) (mempoolBusy s) (mempoolEpoch s) (reorgCount s)
  (lastReorgDepth s) (reorgRollbacksThisProcess s) (lastCommittedHeight s) (nodeCatchingUp s) (blockFetchDesync s).
Definition set_reconverged b s := mkStatus (synced s) b (blockchainInfoLastBlock s)
  (latestKnownChainTip s) (mempoolInterval s) (mempoolBusy s) (mempoolEpoch s) (reorgCount s)
  (lastReorgDepth s) (reorgRollbacksThisProcess s) (lastCommittedHeight s) (nodeCatchingUp s) (blockFetchDesync s).
Definition set_infoLast o s := mkStatus (synced s) (mempoolReconverged s) o
  (latestKnownChainTip s) (mempoolInterval s) (mempoolBusy s) (mempoolEpoch s) (reorgCount s)
  (lastReorgDepth s) (reorgRollbacksThisProcess s) (lastCommittedHeight s) (nodeCatchingUp s) (blockFetchDesync s).
Definition set_tip o s := mkStatus (synced s) (mempoolReconverged s) (blockchainInfoLastBlock s)
  o (mempoolInterval s) (mempoolBusy s) (mempoolEpoch s) (reorgCount s)
  (lastReorgDepth s) (reorgRollbacksThisProcess s) (lastCommittedHeight s) (nodeCatchingUp s) (blockFetchDesync s).
Definition set_interval b s := mkStatus (synced s) (mempoolReconverged s) (blockchainInfoLastBlock s)
  (latestKnownChainTip s) b (mempoolBusy s) (mempoolEpoch s) (reorgCount s)
  (lastReorgDepth s) (reorgRollbacksThisProcess s) (lastCommittedHeight s) (nodeCatchingUp s) (blockFetchDesync s).
Definition set_busy b s := mkStatus (synced s) (mempoolReconverged s) (blockchainInfoLastBlock s)
  (latestKnownChainTip s) (mempoolInterval s) b (mempoolEpoch s) (reorgCount s)
  (lastReorgDepth s) (reorgRollbacksThisProcess s) (lastCommittedHeight s) (nodeCatchingUp s) (blockFetchDesync s).
Definition set_epoch z s := mkStatus (synced s) (mempoolReconverged s) (blockchainInfoLastBlock s)
  (latestKnownChainTip s) (mempoolInterval s) (mempoolBusy s) z (reorgCount s)
  (lastReorgDepth s) (reorgRollbacksThisProcess s) (lastCommittedHeight s) (nodeCatchingUp s) (blockFetchDesync s).
Definition set_reorgs n d s := mkStatus (synced s) (mempoolReconverged s) (blockchainInfoLastBlock s)
  (latestKnownChainTip s) (mempoolInterval s) (mempoolBusy s) (mempoolEpoch s) n
  d (reorgRollbacksThisProcess s) (lastCommittedHeight s) (nodeCatchingUp s) (blockFetchDesync s).
Definition set_rollbacks z s := mkStatus (synced s) (mempoolReconverged s) (blockchainInfoLastBlock s)
  (latestKnownChainTip s) (mempoolInterval s) (mempoolBusy s) (mempoolEpoch s) (reorgCount s)
  (lastReorgDepth s) z (lastCommittedHeight s) (nodeCatchingUp s) (blockFetchDesync s).
Definition set_committed o s := mkStatus (synced s) (mempoolReconverged s) (blockchainInfoLastBlock s)
  (latestKnownChainTip s) (mempoolInterval s) (mempoolBusy s) (mempoolEpoch s) (reorgCount s)
  (lastReorgDepth s) (reorgRollbacksThisProcess s) o (nodeCatchingUp s) (blockFetchDesync s).
Definition set_catchingUp o s := mkStatus (synced s) (mempoolReconverged s) (blockchainInfoLastBlock s)
  (latestKnownChainTip s) (mempoolInterval s) (mempoolBusy s) (mempoolEpoch s) (reorgCount s)
  (lastReorgDepth s) (reorgRollbacksThisProcess s) (lastCommittedHeight s) o (blockFetchDesync s).
Definition set_desync o s := mkStatus (synced s) (mempoolReconverged s) (blockchainInfoLastBlock s)
  (latestKnownChainTip s) (mempoolInterval s) (mempoolBusy s) (mempoolEpoch s) (reorgCount s)
  (lastReorgDepth s) (reorgRollbacksThisProcess s) (lastCommittedHeight s) (nodeCatchingUp s) o.

Section monad.
Context {DB : Type}.
Implicit Type t : tracker DB.

Abbreviation TM := (M (tracker DB)).

Definition set_db d t : tracker DB :=
  mkTracker d (mempoolDb t) (win t) (stat t) (calls t) (consensusNetwork t).
Definition set_mempoolDb d t : tracker DB :=
  mkTracker (db t) d (win t) (stat t) (calls t) (consensusNetwork t).
Definition set_win w t : tracker DB :=
  mkTracker (db t) (mempoolDb t) w (stat t) (calls t) (consensusNetwork t).
Definition set_stat x t : tracker DB :=
  mkTracker (db t) (mempoolDb t) (win t) x (calls t) (consensusNetwork t).
Definition set_calls n t : tracker DB :=
  mkTracker (db t) (mempoolDb t) (win t) (stat t) n (consensusNetwork t).

Definition modify_win (f : window -> window) : TM unit := modify (fun t => set_win (f (win t)) t).
Definition modify_stat (f : status -> status) : TM unit := modify (fun t => set_stat (f (stat t)) t).

(** A store operation on [this.db]. *)
Definition on_db {A} (m : M (store DB) A) : TM A :=
  fun t => let '(r, s) := m (db t) in (r, set_db s t).

(** A store operation on [this.mempoolDb], over the caches both stores share. *)
Definition on_mempool {A} (m : M (store DB) A) : TM A :=
  fun t =>
    let '(r, s) := m (set_known (knownScripts (db t)) (set_cache (outputCache (db t)) (mempoolDb t))) in
    (r, set_mempoolDb s (set_db (set_known (knownScripts s) (set_cache (outputCache s) (db t))) t)).

(** One call to the node. *)
Definition rpc {A} (f : nat -> res A) : TM A :=
  fun t => (f (calls t), set_calls (S (calls t)) t).

Lemma run_on_db_ok {A} (m : M (store DB) A) t a s :
  m (db t) = (Ok a, s) -> on_db m t = (Ok a, set_db s t).
Proof. intros E. unfold on_db. by rewrite E. Qed.

Lemma run_on_db_err {A} (m : M (store DB) A) t e s :
  m (db t) = (Err e, s) -> on_db m t = (Err e, set_db s t).
Proof. intros E. unfold on_db. by rewrite E. Qed.
End monad.
