(* ===== verification/Window.v ===== *)
(** The undo window ([XChainUtxoTracker/last_blocks_window.js]): the last blocks
    that can be rolled back, the persisted high-water mark of the window, the
    pruning of the blocks that leave it, and the pointer repair. *)

From S2P Require Import Prelude KeyCodec ValueCodec LevelDb Store Outputs StoreFacts Tracker.

#[local] Open Scope string_scope.
#[local] Open Scope nat_scope.
#[local] Open Scope list_scope.

(** * JSON of a list of hashes

    [JSON.stringify] and [JSON.parse] on the one shape the P record holds: an array
    of strings of hex digits, in which nothing needs an escape. *)

Definition quote : Ascii.ascii := Ascii.ascii_of_nat 34.

Definition quoted (s : string) : string :=
  String.String quote (String.append s (String.String quote String.EmptyString)).

Fixpoint json_items (l : list string) : string :=
  match l with
  | [] => "]"
  | s :: r => String.append "," (String.append (quoted s) (json_items r))
  end.

Definition JSON_stringify (l : list string) : string :=
  match l with
  | [] => "[]"
  | s :: r => String.append "[" (String.append (quoted s) (json_items r))
  end.

(** The text up to the closing quote, and what follows it. *)
Fixpoint read_quoted (s : string) : option (string * string) :=
  match s with
  | String.EmptyString => None
  | String.String c r =>
      if bool_decide (c = quote) then Some (String.EmptyString, r)
      else '(a, b) ← read_quoted r; Some (String.String c a, b)
  end.

Definition read_string (s : string) : option (string * string) :=
  match s with
  | String.String c r => if bool_decide (c = quote) then read_quoted r else None
  | _ => None
  end.

Fixpoint parse_items (fuel : nat) (s : string) : option (list string) :=
  match fuel with
  | O => None
  | S f =>
      match s with
      | String.String "]"%char String.EmptyString => Some []
      | String.String ","%char r =>
          '(a, r') ← read_string r; l ← parse_items f r'; Some (a :: l)
      | _ => None
      end
  end.

Definition JSON_parse (s : string) : option (list string) :=
  match s with
  | String.String "["%char (String.String "]"%char String.EmptyString) => Some []
  | String.String "["%char r =>
      '(a, r') ← read_string r; l ← parse_items (String.length r) r'; Some (a :: l)
  | _ => None
  end.

(** * Ordering the window *)

(** [l.indexOf(x)], [None] being [-1]. *)
Fixpoint indexOf (x : string) (l : list string) : option nat :=
  match l with
  | [] => None
  | y :: r => if bool_decide (x = y) then Some 0 else S <$> indexOf x r
  end.

(** [sort((a, b) => a.height - b.height)]: the sort is stable. *)
Fixpoint insert_by_height (x : string * Z) (l : list (string * Z)) : list (string * Z) :=
  match l with
  | [] => [x]
  | y :: r => if bool_decide (x.2 <= y.2)%Z then x :: y :: r else y :: insert_by_height x r
  end.

Definition sort_by_height (l : list (string * Z)) : list (string * Z) := foldr insert_by_height [] l.

(** * Operations *)

(** [markUnrecoverableReorg(new Error(m))]. *)
Definition unrecoverable (m : string) : js_error := mkError (EMsg m) true false false.

Section ops.
Context {node : Node} {DB : Type} `{LevelDb DB}.

Abbreviation TM := (M (tracker DB)).

Definition getw {A} (f : window -> A) : TM A := gets (fun t => f (win t)).

(** [this.db.db.put(P, ...)] with the pending list. *)
Definition putPendingCleanup : TM unit :=
  pending ← getw pendingKMCleanup;
  if bool_decide (0 < length pending)
  then on_db (modify (fun s => set_disk
         (db_put (disk s) P_PENDING_CLEANUP_KEY (from_latin1 (JSON_stringify pending))) s))
  else mret tt.

Definition recordUndoWindowWatermark : TM unit :=
  w ← gets win;
  let depth := Z.min (Z.of_nat (length (lastBlocks w))) (undoBlocks w) in
  _ ← when (bool_decide (undoWindowWatermark w < depth)%Z) (modify_win (set_watermark depth));
  w ← gets win;
  if bool_decide (undoWindowWatermarkPersisted w = Some (undoWindowWatermark w)) then mret tt
  else
    _ ← modify_win (set_persisted (Some (undoWindowWatermark w)));
    _ ← on_db (addTransaction put Q_UNDO_WATERMARK_KEY
          (Some (from_latin1 (to_radix 10 (undoWindowWatermark w)))));
    mret tt.

(** [while (this.lastBlocks.length > this.undoBlocks) ...]: the window is as long
    as [undoBlocks], which [resolveUndoBlocks] keeps positive, before it empties. *)
Fixpoint ageOut (blocks : list string) : TM unit :=
  match blocks with
  | [] => mret tt
  | nextBlockHash :: rest =>
      w ← gets win;
      if bool_decide (undoBlocks w < Z.of_nat (length blocks))%Z then
        _ ← modify_win (set_lastBlocks rest);
        _ ← on_db (modify (fun s =>
              match deletedTransactionArray s with
              | Some dt => set_dtx (Some (delete nextBlockHash dt)) s
              | None => s
              end));
        _ ← modify_win (fun w => set_pending (pendingKMCleanup w ++ [nextBlockHash]) w);
        ageOut rest
      else mret tt
  end.

Definition addToLastBlocks (blockHash : string) : TM unit :=
  _ ← modify_win (fun w => set_lastBlocks (lastBlocks w ++ [blockHash]) w);
  _ ← on_db (addLastStoredBlock blockHash);
  blocks ← getw lastBlocks;
  _ ← ageOut blocks;
  recordUndoWindowWatermark.

(** A stored text is read as UTF-8; the mark is ASCII digits. *)
Definition loadUndoWindowWatermark : TM Z :=
  raw ← on_db (dbGet Q_UNDO_WATERMARK_KEY);
  let stored :=
    match raw with
    | Some v => match parseInt (to_latin1 v) 10 with
                | Some parsed => if bool_decide (0 < parsed)%Z then parsed else 0%Z
                | None => 0%Z
                end
    | None => 0%Z
    end in
  _ ← modify_win (set_persisted (if bool_decide (0 < stored)%Z then Some stored else None));
  _ ← modify_win (fun w => set_watermark (Z.min stored (undoBlocks w)) w);
  getw undoWindowWatermark.

Definition pruneAgedBlockRecords (blockHash : string) : TM unit :=
  _ ← on_db (processDeletedOutputs blockHash false);
  _ ← on_db (removeLastStoredBlock blockHash);
  _ ← on_db (removeCreatedOutputsBlockIndexOnly blockHash);
  _ ← on_db (removeOutputScriptsBlockIndexOnly blockHash);
  on_db (removeTxBlockRecoveryIndexOnly blockHash).

(** The pending blocks to prune: outside the live window, each once. *)
Fixpoint blocksToClean (liveWindow : list string) (seen : list string) (pending : list string)
    : list string :=
  match pending with
  | [] => []
  | blockHash :: rest =>
      if bool_decide (blockHash ∈ liveWindow) then blocksToClean liveWindow seen rest
      else if bool_decide (blockHash ∈ seen) then blocksToClean liveWindow seen rest
      else blockHash :: blocksToClean liveWindow (blockHash :: seen) rest
  end.

Definition cleanupAgedBlocks : TM unit :=
  w ← gets win;
  if bool_decide (length (pendingKMCleanup w) = 0) then mret tt
  else
    let toClean := blocksToClean (lastBlocks w) [] (pendingKMCleanup w) in
    _ ← on_db beginTransaction;
    _ ← forM toClean pruneAgedBlockRecords;
    _ ← on_db (addTransaction del P_PENDING_CLEANUP_KEY None);
    _ ← on_db (endTransaction true);
    modify_win (set_pending []).

Definition heightOf (hash : string) : TM (string * Z) :=
  blk ← on_db (getBlock hash);
  mret (hash, match blk with Some b => b_h b | None => (-1)%Z end).

Definition loadLastBlocksSortedByHeight : TM (list string) :=
  storedHashes ← on_db getLastStoredBlocks;
  withHeight ← mapM_list storedHashes heightOf;
  mret ((sort_by_height withHeight).*1).

Definition reloadLastBlocks : TM unit :=
  l ← loadLastBlocksSortedByHeight;
  modify_win (set_lastBlocks l).

Definition discardInflightBatchForReorg (blocksQuantity : Z) : TM bool :=
  if bool_decide (blocksQuantity <= 0)%Z then mret false
  else
    _ ← on_db (endTransaction false);
    _ ← putPendingCleanup;
    _ ← reloadLastBlocks;
    mret true.

Definition removeFromLastBlocks (blockHash : string) : TM unit :=
  blocks ← getw lastBlocks;
  if bool_decide (length blocks = 0)
  then throw (unrecoverable "last blocks: list is empty")
  else
    _ ← (if bool_decide (blockHash ∈ blocks) then mret tt
         else
           _ ← reloadLastBlocks;
           blocks ← getw lastBlocks;
           if bool_decide (blockHash ∈ blocks) then mret tt
           else throw (unrecoverable "not in the undo window"));
    blocks ← getw lastBlocks;
    if bool_decide (indexOf blockHash blocks = Some (length blocks - 1)) then
      _ ← modify_win (fun w => set_lastBlocks (removelast (lastBlocks w)) w);
      _ ← on_db (removeLastStoredBlock blockHash);
      mret tt
    else throw (Error (EMsg "not the last one")).

Definition commitLastBlockPointerRepair (hash : string) (height : Z) : TM unit :=
  _ ← on_db beginTransaction;
  _ ← on_db (setLastBlockHash hash);
  _ ← on_db (setLastBlockHeight height);
  on_db (endTransaction true).
End ops.
