(* ===== verification/Reorg.v ===== *)
(** The reorg walk ([XChainUtxoTracker/reorg_verification.js]) and its reads of the
    node ([reorg_node_reads.js], the tip tests of [catch_up_helpers.js]): the walk
    compares the committed tip with the node's chain and rolls back one block at a
    time, within the budget the undo window allows.  Log lines and the pauses
    between retries are not modelled. *)

From S2P Require Import Prelude KeyCodec ValueCodec LevelDb Store Outputs StoreFacts Tracker Window Parsing.
From Stdlib Require Import QArith.

#[local] Open Scope string_scope.
#[local] Open Scope nat_scope.
#[local] Open Scope list_scope.

(** * Tests on a tip *)

(** The double nearest to 0.99. *)
Definition MIN_VERIFICATION_PROGRESS_TO_PARSE : Q := 8917127262193582 # 9007199254740992.

Definition Qlt_bool (a b : Q) : bool := negb (Qle_bool b a).

Definition nodeTipIsParseable (info : option chain_info) (consensusNetwork : string) : bool :=
  match info with
  | None => false
  | Some i =>
      if bool_decide (consensusNetwork = "regtest") then true
      else match i_verificationprogress i with
           | Some p => negb (Qlt_bool p MIN_VERIFICATION_PROGRESS_TO_PARSE)
           | None => true
           end
  end.

Definition nodeStillCatchingUp (info : option chain_info) : bool :=
  match info with
  | Some i => bool_decide (i_initialblockdownload i = Some true)
  | None => false
  end.

(** * The budget of a walk *)

Record undo_window := mkUndoWindow {
  windowAtEntry : Z; budget : Z; watermarkAtEntry : Z; heldBefore : Z;
  spentBeforeEntry : Z; spentByEarlierPassesThisProcess : Z }.

Definition rollbackBudget (w : window) (rollbacksThisProcess : Z) : undo_window :=
  let windowAtEntry := Z.of_nat (length (lastBlocks w)) in
  let budget := if bool_decide (0 < windowAtEntry)%Z then Z.min windowAtEntry (undoBlocks w) else 0%Z in
  let watermarkAtEntry := Z.min (undoWindowWatermark w) (undoBlocks w) in
  let heldBefore := if bool_decide (0 < watermarkAtEntry)%Z then watermarkAtEntry else undoBlocks w in
  let spentBeforeEntry :=
    if bool_decide (0 < windowAtEntry)%Z then Z.max 0 (heldBefore - windowAtEntry) else 0%Z in
  mkUndoWindow windowAtEntry budget watermarkAtEntry heldBefore spentBeforeEntry
    (Z.min spentBeforeEntry rollbacksThisProcess).

(** The thrown refusals. *)
Definition reorgExceedsWindow : js_error := unrecoverable "reorg depth exceeds the recovery window".
Definition tipBelowCommitted : js_error :=
  mkError (EMsg "the node's tip is below the committed tip") false true false.

Section ops.
Context {node : Node} {rpcs : NodeRpc} {DB : Type} `{LevelDb DB}.

Abbreviation TM := (M (tracker DB)).

(** [null] when the node cannot be read or its answer cannot be used. *)
Definition readWalkTip : TM (option Z) :=
  net ← gets consensusNetwork;
  info ← try_catch (i ← rpc rpc_getBlockchainInfo; mret (Some i)) (fun _ => mret None);
  mret (match info with
        | Some (Some i) =>
            match i_blocks i with
            | Some tip =>
                if negb (nodeTipIsParseable (Some i) net) || nodeStillCatchingUp (Some i) then None
                else Some tip
            | None => None
            end
        | _ => None
        end).

Definition TIP_SETTLE_STABLE_READS : nat := 5.
Definition TIP_SETTLE_MAX_READS : nat := 10.

(** [reads]: the re-reads left. *)
Fixpoint settleLoop (reads : nat) (previous : Z) (stableReads : nat) : TM (option Z) :=
  match reads with
  | O => mret None
  | S reads' =>
      tip ← readWalkTip;
      match tip with
      | None => mret None
      | Some tip =>
          if bool_decide (tip = previous) then
            if bool_decide (S stableReads = TIP_SETTLE_STABLE_READS) then mret (Some tip)
            else settleLoop reads' previous (S stableReads)
          else settleLoop reads' tip 0
      end
  end.

Definition settleWalkTip (first : Z) : TM (option Z) := settleLoop TIP_SETTLE_MAX_READS first 0.

Definition refreshWalkTip (currentTip : option Z) : TM (option Z) :=
  tip ← readWalkTip;
  match tip with
  | None => mret currentTip
  | Some tip =>
      if match currentTip with None => true | Some c => bool_decide (tip < c)%Z end then
        next ← settleWalkTip tip;
        match next with
        | None => mret currentTip
        | Some next => mret (Some next)
        end
      else mret (Some tip)
  end.

(** [inl tip']: the fetch failed ([RETRY_WALK]) and the walk's tip is [tip'] now. *)
Definition nodeBlockHashOrRetry (lastBlockIndex : Z) (walkTip : option Z)
    : TM (option Z + string) :=
  try_catch (h ← rpc (fun n => rpc_getBlockHash n lastBlockIndex); mret (inr h))
    (fun _ => tip ← refreshWalkTip walkTip; mret (inl tip)).

(** The sync loop's twin of [settleWalkTip]: true when the settled tip is below
    ours.  A reply without a height counts as a reading here. *)
Fixpoint settleBelowLoop (reads : nat) (ourHeight : Z) (previous : option Z) (stableReads : nat)
    : TM (bool * option chain_info) :=
  match reads with
  | O => mret (false, None)
  | S reads' =>
      net ← gets consensusNetwork;
      info ← try_catch (i ← rpc rpc_getBlockchainInfo; mret (Some i)) (fun _ => mret None);
      match info with
      | Some (Some i) =>
          if negb (nodeTipIsParseable (Some i) net) || nodeStillCatchingUp (Some i)
          then mret (false, None)
          else if bool_decide (i_blocks i = previous) then
            if bool_decide (S stableReads = TIP_SETTLE_STABLE_READS) then
              _ ← modify_stat (fun s => set_infoLast (i_blocks i) (set_tip (i_blocks i) s));
              mret (match i_blocks i with
                    | Some tip => bool_decide (tip < ourHeight)%Z
                    | None => false
                    end, Some i)
            else settleBelowLoop reads' ourHeight previous (S stableReads)
          else settleBelowLoop reads' ourHeight (i_blocks i) 0
      | _ => mret (false, None)
      end
  end.

(** The reply the settled reading came from replaces [sync.lastBlockchainInfo]. *)
Definition settleNodeTipBelow (ourHeight : Z) : TM (bool * option chain_info) :=
  st ← gets stat;
  settleBelowLoop TIP_SETTLE_MAX_READS ourHeight (blockchainInfoLastBlock st) 0.

(** ** The walk *)

Definition repairLastBlockPointerFromScan (lastBlock : option block_rec) : TM last_block :=
  lastBlockDb ← on_db getLastBlock;
  match lastBlockDb with
  | None => throw (Error (EMsg "cannot repair the last-block pointer: the block index is empty"))
  | Some lb =>
      if match lastBlock with Some b => negb (bool_decide (lb_height lb = b_h b)) | None => false end
      then throw (Error (EMsg "inconsistent block height"))
      else _ ← commitLastBlockPointerRepair (lb_hash lb) (lb_height lb); mret lb
  end.

Definition refuseAboveTipWalkPastBudget (aboveNodeTip : bool) (nodeTipHeight lastBlockIndex : Z)
    (blocksDeleted : nat) (u : undo_window) : TM unit :=
  if aboveNodeTip
     && bool_decide (budget u < Z.of_nat blocksDeleted + (lastBlockIndex - nodeTipHeight))%Z
  then throw tipBelowCommitted
  else mret tt.

Definition refuseRollbackPastWindow (u : undo_window) (blocksDeleted : nat) : TM unit :=
  if bool_decide (windowAtEntry u = 0)%Z || bool_decide (budget u <= Z.of_nat blocksDeleted)%Z
  then throw reorgExceedsWindow
  else mret tt.

(** The batch of one rolled-back block. *)
Definition rollBackBatch (lastBlockHash : string) (lastBlock : block_rec) : TM unit :=
  _ ← on_db beginTransaction;
  _ ← when REMOVE_SPENT (
    _ ← on_db (removeOutputScriptsInBlock lastBlockHash);
    _ ← on_db (processDeletedOutputs lastBlockHash true);
    on_db (removeCreatedOutputsInBlock lastBlockHash));
  _ ← on_db (deleteBlock lastBlockHash);
  _ ← removeFromLastBlocks lastBlockHash;
  _ ← on_db (setLastBlockHash (b_ph lastBlock));
  _ ← on_db (setLastBlockHeight (b_h lastBlock - 1));
  on_db (endTransaction true).

(** [try { m } catch (_) {}]. *)
Definition swallow {A} (m : TM A) : TM unit :=
  try_catch (_ ← m; mret tt) (fun _ => mret tt).

Definition rollBackTipBlock (lastBlockHash : string) (lastBlock : block_rec) (retryCount : nat)
    : TM bool :=
  try_catch (_ ← rollBackBatch lastBlockHash lastBlock; mret true)
    (fun err =>
       _ ← swallow (on_db (endTransaction false));
       if e_unrecoverableReorg err then throw err
       else
         _ ← swallow reloadLastBlocks;
         if bool_decide (10 <= retryCount + 1)
         then throw (Error (EMsg "deleteBlockByIndex failed after 10 attempts"))
         else mret false).

Definition recordRolledBackBlock (blocksDeleted : nat) : TM nat :=
  _ ← modify_stat (fun s => set_rollbacks (reorgRollbacksThisProcess s + 1) s);
  mret (S blocksDeleted).

Definition recordReorg (blocksDeleted : nat) : TM unit :=
  when (bool_decide (0 < blocksDeleted))
    (modify_stat (fun s => set_reorgs (reorgCount s + 1) (Z.of_nat blocksDeleted) s)).

(** [lastBlockIndex > walk.tip], a NaN height never. *)
Definition above (lastBlockIndex : option Z) (tip : option Z) : bool :=
  match lastBlockIndex, tip with
  | Some h, Some t => bool_decide (t < h)%Z
  | _, _ => false
  end.

(** One turn of the loop: [None] once the tips agree, else the deleted count, the
    retry count and the walk's tip it goes round with. *)
Definition walkStep (u : undo_window) (blocksDeleted retryCount : nat) (walkTip : option Z)
    : TM (option (nat * nat * option Z)) :=
  lastBlockIndex ← on_db getLastBlockHeight;
  lastBlockHash ← on_db getLastBlockHash;
  lastBlock ← on_db (getBlock (default "" lastBlockHash));
  match lastBlock with
  | Some lb =>
      if bool_decide (lastBlockIndex = Some (b_h lb)) then
        let aboveNodeTip := above lastBlockIndex walkTip in
        _ ← refuseAboveTipWalkPastBudget aboveNodeTip (default 0%Z walkTip) (b_h lb) blocksDeleted u;
        fromNode ← (if aboveNodeTip then mret (inr None)
                    else r ← nodeBlockHashOrRetry (b_h lb) walkTip;
                         mret (match r with inl tip => inl tip | inr h => inr (Some h) end));
        match fromNode with
        | inl walkTip' => mret (Some (blocksDeleted, retryCount, walkTip'))
        | inr blockHashFromNode =>
            if aboveNodeTip || negb (bool_decide (lastBlockHash = blockHashFromNode)) then
              _ ← refuseRollbackPastWindow u blocksDeleted;
              done ← rollBackTipBlock (default "" lastBlockHash) lb retryCount;
              if negb done then mret (Some (blocksDeleted, S retryCount, walkTip))
              else
                n ← recordRolledBackBlock blocksDeleted;
                mret (Some (n, 0, walkTip))
            else mret None
        end
      else
        _ ← repairLastBlockPointerFromScan lastBlock;
        mret (Some (blocksDeleted, retryCount, walkTip))
  | None =>
      _ ← repairLastBlockPointerFromScan lastBlock;
      mret (Some (blocksDeleted, retryCount, walkTip))
  end.

(** The loop, for at most [fuel] turns: [None] when they run out. *)
Fixpoint walkLoop (fuel : nat) (u : undo_window) (blocksDeleted retryCount : nat)
    (walkTip : option Z) : TM (option nat) :=
  match fuel with
  | O => mret None
  | S f =>
      r ← walkStep u blocksDeleted retryCount walkTip;
      match r with
      | None => mret (Some blocksDeleted)
      | Some (n, retry, tip) => walkLoop f u n retry tip
      end
  end.

Definition verifyReorg (fuel : nat) (nodeTipHeight : option Z) : TM (option bool) :=
  t ← get;
  let u := rollbackBudget (win t) (reorgRollbacksThisProcess (stat t)) in
  r ← walkLoop fuel u 0 0 nodeTipHeight;
  match r with
  | None => mret None
  | Some blocksDeleted => _ ← recordReorg blocksDeleted; mret (Some true)
  end.
End ops.
