(* ===== verification/SyncLoop.v ===== *)
(** The sync loop ([XChainUtxoTracker/sync_loop.js] and its steps
    [sync_loop_block_apply.js], [sync_loop_block_fetch.js],
    [sync_loop_node_tip.js]; the streaks of [fetch_failures_and_halt.js]): polling
    the node's tip, fetching and staging the next block, flushing the batch and
    recovering from reorgs.  A step's leftover bookkeeping ([finish]) runs at the
    end of the step.  Timings, log lines and pauses are not modelled; the mempool
    poller runs beside the loop. *)

From S2P Require Import Prelude KeyCodec ValueCodec LevelDb Store Outputs StoreFacts Tracker Window Parsing Reorg.
From Stdlib Require Import QArith.

#[local] Open Scope string_scope.
#[local] Open Scope nat_scope.
#[local] Open Scope list_scope.

(** * State *)

Definition DB_TRANSACTION_BLOCKS_QUANTITY : Z := 200.
Definition SYNCED_THRESHOLD : Z := 3.
Definition PREFETCH_SIZE : nat := 10.
Definition BLOCKCHAIN_INFO_REFRESH_MS : Z := 30000.
Definition AUXPOW_REASSEMBLE_AFTER : Z := 5.

(** A decoded block: [Block.fromHex] with the wire-order parent hash. *)
Record decoded_block := mkDecoded {
  prevHash : bytes; timestamp : Z; transactions : list transaction }.

(** A fetched block: its hash and bytes. *)
Record fetched_block := mkFetched { f_hash : string; f_hex : string }.

(** The node and process around the loop, each answer indexed by the calls made. *)
Class LoopEnv := {
  rpc_getBlock : nat -> string -> res string;
  rpc_getBlockWithoutAuxPow : nat -> string -> res string;
  rpc_getBlockReassembled : nat -> string -> res string;
  rpc_getBlocksBatch : nat -> list Z -> res (list fetched_block);
  rpc_getBlocksBatchWithoutAuxPow : nat -> list Z -> res (list fetched_block);
  blockFromHex : string -> res decoded_block;
  date_now : nat -> Z;
  heap_pressure : nat -> bool;
  auxPow : bool;
  MAX_BLOCK_FETCH_RETRIES : Z;
}.

(** The open batch's counters. *)
Record batch := mkBatch {
  blocksQuantity : Z;
  pendingMempoolTxCleanup : list string;
  blocksCount : Z;
  transactionsCount : Z;
  inputsCount : Z;
  outputsCount : Z;
}.

(** A streak of failures at one height. *)
Record streak := mkStreak { sk_height : option Z; sk_count : Z }.

Record fetching := mkFetching {
  prefetchQueue : list (Z * res fetched_block);
  blockFetch : streak;
  auxPowParse : streak;
}.

Record latches := mkLatches {
  nodeSyncedProblem : bool;
  nodeCatchingUpProblem : bool;
  tipBelowCommittedTipRefused : bool;
}.

Record sync_state := mkSync {
  lastProcessedBlockIndex : option Z;
  lastProcessedBlockHash : option string;
  lastBlockchainInfo : option chain_info;
  lastBlockchainInfoRefreshAt : Z;
  s_batch : batch;
  s_fetch : fetching;
  s_latch : latches;
}.

Definition empty_batch : batch := mkBatch 0 [] 0 0 0 0.
Definition no_streak : streak := mkStreak None 0.

Definition set_cursor i h y := mkSync i h (lastBlockchainInfo y) (lastBlockchainInfoRefreshAt y)
  (s_batch y) (s_fetch y) (s_latch y).
Definition set_info i y := mkSync (lastProcessedBlockIndex y) (lastProcessedBlockHash y) i
  (lastBlockchainInfoRefreshAt y) (s_batch y) (s_fetch y) (s_latch y).
Definition set_refreshAt z y := mkSync (lastProcessedBlockIndex y) (lastProcessedBlockHash y)
  (lastBlockchainInfo y) z (s_batch y) (s_fetch y) (s_latch y).
Definition set_batch b y := mkSync (lastProcessedBlockIndex y) (lastProcessedBlockHash y)
  (lastBlockchainInfo y) (lastBlockchainInfoRefreshAt y) b (s_fetch y) (s_latch y).
Definition set_fetch f y := mkSync (lastProcessedBlockIndex y) (lastProcessedBlockHash y)
  (lastBlockchainInfo y) (lastBlockchainInfoRefreshAt y) (s_batch y) f (s_latch y).
Definition set_latch l y := mkSync (lastProcessedBlockIndex y) (lastProcessedBlockHash y)
  (lastBlockchainInfo y) (lastBlockchainInfoRefreshAt y) (s_batch y) (s_fetch y) l.

Definition set_quantity z (b : batch) := mkBatch z (pendingMempoolTxCleanup b) (blocksCount b)
  (transactionsCount b) (inputsCount b) (outputsCount b).
Definition set_cleanup l (b : batch) := mkBatch (blocksQuantity b) l (blocksCount b)
  (transactionsCount b) (inputsCount b) (outputsCount b).
Definition set_queue q f := mkFetching q (blockFetch f) (auxPowParse f).

Record loop (DB : Type) := mkLoop { trk : tracker DB; syn : sync_state }.
Arguments mkLoop {_}.
Arguments trk {_}.
Arguments syn {_}.

(** Fuel for the reorg walk ran out: a value no handler of the code catches. *)
Definition out_of_fuel : js_error := Error (EMsg "fuel").

(** JS comparisons on heights that may be missing: always false then. *)
Definition num_ge (a b : option Z) : bool :=
  match a, b with Some x, Some y => bool_decide (y <= x)%Z | _, _ => false end.
Definition num_gt (a b : option Z) : bool :=
  match a, b with Some x, Some y => bool_decide (y < x)%Z | _, _ => false end.
(** [==]: a missing height equals nothing here ([NaN]). *)
Definition num_eq (a b : option Z) : bool :=
  match a, b with Some x, Some y => bool_decide (x = y) | _, _ => false end.

Section steps.
Context {node : Node} {rpcs : NodeRpc} {env : LoopEnv} {DB : Type} `{LevelDb DB}.
Context (fuel : nat).

Abbreviation LM := (M (loop DB)).

Definition on_trk {A} (m : M (tracker DB) A) : LM A :=
  fun l => let '(r, t) := m (trk l) in (r, mkLoop t (syn l)).
Definition on_store {A} (m : M (store DB) A) : LM A := on_trk (on_db m).
Definition sync_get {A} (f : sync_state -> A) : LM A := gets (fun l => f (syn l)).
Definition sync_mod (f : sync_state -> sync_state) : LM unit :=
  modify (fun l => mkLoop (trk l) (f (syn l))).
Definition stat_mod (f : status -> status) : LM unit := on_trk (modify_stat f).

Definition runVerifyReorg (nodeTipHeight : option Z) : LM unit :=
  r ← on_trk (verifyReorg fuel nodeTipHeight);
  match r with Some _ => mret tt | None => throw out_of_fuel end.

(** ** Fetching *)

Definition shouldReassembleBlock (height : Z) (k : streak) : bool :=
  auxPow && bool_decide (sk_height k = Some height)
  && bool_decide (AUXPOW_REASSEMBLE_AFTER <= sk_count k)%Z.

Definition noteAuxPowParseFailure (height : Z) (k : streak) (error : js_error) : streak :=
  if negb (bool_decide (sk_height k = Some height))
  then mkStreak (Some height) (if e_auxPowParseFailure error then 1 else 0)
  else if negb (e_auxPowParseFailure error) then k
  else mkStreak (Some height) (sk_count k + 1).

Definition fetch_desync : js_error := Error (EMsg "Block-fetch desync").

(** [this.blockFetchDesync] records the height and the number of failures. *)
Definition noteBlockFetchFailure (height : Z) (k : streak) : LM streak :=
  let count := (if bool_decide (sk_height k = Some height) then sk_count k + 1 else 1)%Z in
  if bool_decide (MAX_BLOCK_FETCH_RETRIES <= count)%Z then
    _ ← stat_mod (set_desync (Some (height, count)));
    throw fetch_desync
  else mret (mkStreak (Some height) count).

(** The heights to queue: after [maxQueued], up to the room left and the tip. *)
Fixpoint heightsToQueue (room : nat) (maxQueued tipHeight : Z) : list Z :=
  match room with
  | O => []
  | S r =>
      if bool_decide (maxQueued + 1 <= tipHeight)%Z
      then (maxQueued + 1)%Z :: heightsToQueue r (maxQueued + 1) tipHeight
      else []
  end.

(** [results[i].hash] of a batch that answered too few results is a TypeError. *)
Definition batch_entry (r : res (list fetched_block)) (i : nat) : res fetched_block :=
  match r with
  | Ok l => match l !! i with Some f => Ok f | None => Err type_error end
  | Err e => Err e
  end.

(** [.catch]: the outcome of a call as a value. *)
Definition settled {A} (m : LM A) : LM (res A) :=
  fun l => let '(r, l') := m l in (Ok r, l').

Definition fillPrefetchQueue (fromHeight : Z) (tipHeight : option Z) : LM unit :=
  f ← sync_get s_fetch;
  let maxQueued := match last (prefetchQueue f) with Some e => e.1 | None => (fromHeight - 1)%Z end in
  let heights := match tipHeight with
                 | Some t => heightsToQueue (PREFETCH_SIZE - length (prefetchQueue f)) maxQueued t
                 | None => []
                 end in
  if bool_decide (length heights = 0) then mret tt
  else
    r ← settled (on_trk (rpc (fun n =>
          if auxPow then rpc_getBlocksBatchWithoutAuxPow n heights else rpc_getBlocksBatch n heights)));
    sync_mod (fun y => set_fetch (set_queue
      (prefetchQueue f ++ imap (fun i h => (h, batch_entry r i)) heights) (s_fetch y)) y).

Definition fetchBlock (height : Z) : LM fetched_block :=
  hash ← on_trk (rpc (fun n => rpc_getBlockHash n height));
  hex ← on_trk (rpc (fun n => if auxPow then rpc_getBlockWithoutAuxPow n hash else rpc_getBlock n hash));
  mret (mkFetched hash hex).

Definition clearQueue : LM unit :=
  sync_mod (fun y => set_fetch (set_queue [] (s_fetch y)) y).

Definition fetchNextBlock (nextBlockHeight : Z) : LM (option fetched_block) :=
  try_catch
    (f ← sync_get s_fetch;
     fetched ← (
       if shouldReassembleBlock nextBlockHeight (auxPowParse f) then
         _ ← clearQueue;
         hash ← on_trk (rpc (fun n => rpc_getBlockHash n nextBlockHeight));
         hex ← on_trk (rpc (fun n => rpc_getBlockReassembled n hash));
         mret (mkFetched hash hex)
       else
         match prefetchQueue f with
         | (h, promise) :: rest =>
             if bool_decide (h = nextBlockHeight) then
               _ ← sync_mod (fun y => set_fetch (set_queue rest (s_fetch y)) y);
               lift_res promise
             else _ ← clearQueue; fetchBlock nextBlockHeight
         | [] => _ ← clearQueue; fetchBlock nextBlockHeight
         end);
     _ ← sync_mod (fun y =>
           set_fetch (mkFetching (prefetchQueue (s_fetch y)) no_streak no_streak) y);
     mret (Some fetched))
    (fun e =>
       _ ← clearQueue;
       f ← sync_get s_fetch;
       let p := noteAuxPowParseFailure nextBlockHeight (auxPowParse f) e in
       _ ← sync_mod (fun y => set_fetch (mkFetching [] (blockFetch f) p) y);
       k ← noteBlockFetchFailure nextBlockHeight (blockFetch f);
       _ ← sync_mod (fun y => set_fetch (mkFetching [] k p) y);
       mret None).

(** ** Reorgs met by the loop *)

Definition resyncMempoolAfterReorg : LM unit :=
  stat_mod (fun s => if mempoolInterval s then set_reconverged false s else s).

Definition resetBatchAfterReorg : LM unit :=
  _ ← sync_mod (set_info None);
  _ ← sync_mod (set_batch empty_batch);
  _ ← on_trk (modify_win (set_pending []));
  resyncMempoolAfterReorg.

Definition countRefusedWalk (walkedBack : Z) : LM unit :=
  when (bool_decide (0 < walkedBack)%Z)
    (stat_mod (fun s => set_reorgs (reorgCount s + 1) walkedBack s)).

Definition verifyReorgHandingBackTipRefusal : LM unit :=
  rollbacksBefore ← on_trk (gets (fun t => reorgRollbacksThisProcess (stat t)));
  try_catch (runVerifyReorg None)
    (fun err =>
       if negb (e_tipBelowCommittedTip err) then throw err
       else
         rollbacks ← on_trk (gets (fun t => reorgRollbacksThisProcess (stat t)));
         _ ← countRefusedWalk (rollbacks - rollbacksBefore);
         sync_mod (set_info None)).

Definition rereadCursor : LM unit :=
  i ← on_store getLastBlockHeight;
  h ← on_store getLastBlockHash;
  sync_mod (set_cursor i h).

(** The shared body of [rollBackOnPrevHashMismatch] and [rollBackSameHeightTipSwap]. *)
Definition discardAndWalk : LM unit :=
  _ ← stat_mod (set_synced false);
  _ ← clearQueue;
  _ ← on_store (endTransaction false);
  _ ← on_trk putPendingCleanup;
  _ ← on_trk reloadLastBlocks;
  _ ← verifyReorgHandingBackTipRefusal;
  _ ← rereadCursor;
  _ ← on_trk cleanupAgedBlocks;
  resetBatchAfterReorg.

Definition rollBackOnPrevHashMismatch : LM unit := discardAndWalk.
Definition rollBackSameHeightTipSwap : LM unit := discardAndWalk.

(** ** Staging and flushing a block *)

Definition stageBlock (block : decoded_block) (nextBlockHash : string) (nextBlockHeight : Z)
    (previousBlockHash : string) : LM unit :=
  b ← sync_get s_batch;
  _ ← when (bool_decide (blocksQuantity b = 0)%Z) (on_store beginTransaction);
  _ ← on_store (insertBlock (mkBlockArg nextBlockHash nextBlockHeight (timestamp block) previousBlockHash));
  _ ← sync_mod (fun y => set_batch (mkBatch (blocksQuantity (s_batch y))
        (pendingMempoolTxCleanup (s_batch y)) (blocksCount (s_batch y) + 1)
        (transactionsCount (s_batch y)) (inputsCount (s_batch y)) (outputsCount (s_batch y))) y);
  '(blockOutputCounts, blockInputTotal) ←
    on_store (parseBlockTransactions (transactions block) nextBlockHash nextBlockHeight);
  _ ← sync_mod (fun y => set_batch (mkBatch (blocksQuantity (s_batch y))
        (pendingMempoolTxCleanup (s_batch y) ++ (getId <$> transactions block))
        (blocksCount (s_batch y))
        (transactionsCount (s_batch y) + Z.of_nat (length (transactions block)))
        (inputsCount (s_batch y) + Z.of_nat blockInputTotal)
        (outputsCount (s_batch y) + Z.of_nat (sum_list blockOutputCounts))) y);
  on_trk (addToLastBlocks nextBlockHash).

Inductive flush_reason := FlushTip | FlushBatchFull | FlushHeapPressure.

Definition flushTrigger (nextBlockHeight : Z) (tip : option Z) (quantity : Z) (pressure : bool)
    : option flush_reason :=
  if num_eq (Some nextBlockHeight) tip then Some FlushTip
  else if bool_decide (quantity = DB_TRANSACTION_BLOCKS_QUANTITY - 1)%Z then Some FlushBatchFull
  else if pressure then Some FlushHeapPressure
  else None.

(** The exclusive section: commit, heartbeat, then the mined txs' mempool records. *)
Definition commitSection (cleanupTxids : list string) (nextBlockHeight : Z) : LM unit :=
  _ ← on_store (endTransaction true);
  _ ← stat_mod (set_committed (Some nextBlockHeight));
  if bool_decide (length cleanupTxids = 0) then mret tt
  else
    _ ← on_trk (on_mempool beginTransaction);
    _ ← on_trk (forM cleanupTxids (fun txid =>
          _ ← on_mempool (deleteOutputsByHint txid);
          _ ← on_mempool (deleteInputsByHint txid);
          _ ← on_mempool (deleteTransaction txid);
          mret tt));
    _ ← on_trk (on_mempool (endTransaction true));
    stat_mod (fun s => set_epoch (mempoolEpoch s + 1) s).

(** [try { m } finally { f }]. *)
Definition finally {A} (m : LM A) (f : LM unit) : LM A :=
  fun l => let '(r, l') := m l in
           let '(r', l'') := f l' in
           match r' with Ok _ => (r, l'') | Err e => (Err e, l'') end.

(** The wait for the mempool mutex is over when this runs. *)
Definition commitWithMempoolCleanup (nextBlockHeight : Z) : LM unit :=
  b ← sync_get s_batch;
  let cleanupTxids := pendingMempoolTxCleanup b in
  let holdMempool := bool_decide (0 < length cleanupTxids) in
  _ ← when holdMempool (stat_mod (set_busy true));
  _ ← finally (commitSection cleanupTxids nextBlockHeight)
        (when holdMempool (stat_mod (set_busy false)));
  when holdMempool (sync_mod (fun y => set_batch (set_cleanup [] (s_batch y)) y)).

Definition advanceCursor (hash : option string) (height : option Z) : LM unit :=
  _ ← sync_mod (fun y => set_batch (set_quantity (blocksQuantity (s_batch y) + 1) (s_batch y)) y);
  sync_mod (set_cursor height hash).

(** The batch starts again: its counters are zeroed and its size set to -1, which
    [advanceCursor] brings to 0. *)
Definition finishFlushedBlock (hash : option string) (height : option Z) : LM unit :=
  _ ← sync_mod (fun y => set_batch (mkBatch (-1) (pendingMempoolTxCleanup (s_batch y)) 0 0 0 0) y);
  advanceCursor hash height.

Definition flushBatch (nextBlockHash : option string) (nextBlockHeight : Z) : LM unit :=
  _ ← on_store (setLastBlockHeight nextBlockHeight);
  _ ← (match nextBlockHash with
       | Some hash => on_store (setLastBlockHash hash)
       | None => throw type_error
       end);
  pending ← on_trk (getw pendingKMCleanup);
  _ ← (if bool_decide (0 < length pending)
       then on_store (addTransaction put P_PENDING_CLEANUP_KEY
              (Some (from_latin1 (JSON_stringify pending))))
       else mret true);
  _ ← commitWithMempoolCleanup nextBlockHeight;
  _ ← on_trk cleanupAgedBlocks;
  finishFlushedBlock nextBlockHash (Some nextBlockHeight).

(** A [NaN] cursor has no next block: the fetch fails, and the pass with it. *)
Definition indexNextBlock : LM unit :=
  info ← on_trk (gets (fun t => blockchainInfoLastBlock (stat t)));
  idx ← sync_get lastProcessedBlockIndex;
  _ ← when (match info, idx with
            | Some t, Some i => bool_decide (SYNCED_THRESHOLD < t - i)%Z
            | _, _ => false
            end)
        (stat_mod (fun s => set_interval false (set_reconverged false (set_synced false s))));
  match idx with
  | None => mret tt
  | Some idx =>
      let nextBlockHeight := (idx + 1)%Z in
      _ ← fillPrefetchQueue nextBlockHeight info;
      fetched ← fetchNextBlock nextBlockHeight;
      match fetched with
      | None => mret tt
      | Some fetched =>
          block ← lift_res (blockFromHex (f_hex fetched));
          let previousBlockHash := uint8ArrayToHex (rev (prevHash block)) in
          ourHash ← sync_get lastProcessedBlockHash;
          if bool_decide (0 < nextBlockHeight)%Z && negb (bool_decide (ourHash = Some previousBlockHash))
          then rollBackOnPrevHashMismatch
          else
            _ ← stageBlock block (f_hash fetched) nextBlockHeight previousBlockHash;
            b ← sync_get s_batch;
            info ← on_trk (gets (fun t => blockchainInfoLastBlock (stat t)));
            n ← on_trk (gets calls);
            match flushTrigger nextBlockHeight info (blocksQuantity b) (heap_pressure n) with
            | Some _ => flushBatch (Some (f_hash fetched)) nextBlockHeight
            | None => advanceCursor (Some (f_hash fetched)) (Some nextBlockHeight)
            end
      end
  end.

Definition flushPendingAtTip : LM unit :=
  idx ← sync_get lastProcessedBlockIndex;
  hash ← sync_get lastProcessedBlockHash;
  flushBatch hash (default 0%Z idx).

(** ** The node's tip *)

Definition pollAtChainTip : LM unit :=
  b ← sync_get s_batch;
  let pending := bool_decide (0 < blocksQuantity b)%Z in
  idx ← sync_get lastProcessedBlockIndex;
  ourHash ← sync_get lastProcessedBlockHash;
  tipHashFromNode ← (
    if num_gt idx (Some 0%Z) then
      r ← settled (on_trk (rpc (fun n => rpc_getBlockHash n (default 0%Z idx))));
      mret (match r with Ok h => Some h | Err _ => None end)
    else mret None);
  if match tipHashFromNode with
     | Some h => negb (bool_decide (h = "")) && negb (bool_decide (ourHash = Some h))
     | None => false
     end
  then rollBackSameHeightTipSwap
  else if pending then flushPendingAtTip
  else
    _ ← stat_mod (set_synced true);
    stat_mod (set_interval true).

Definition pollAtTipOrIndex : LM unit :=
  idx ← sync_get lastProcessedBlockIndex;
  info ← on_trk (gets (fun t => blockchainInfoLastBlock (stat t)));
  if num_eq idx info then pollAtChainTip else indexNextBlock.

Definition catchUpWaitState (previous : option catch_up) (nodeHeight storedHeight nowMs : Z) : catch_up :=
  mkCatchUp nodeHeight storedHeight (match previous with Some p => since p | None => nowMs end).

Definition waitOnCatchingUpNode (info idx : Z) : LM unit :=
  _ ← sync_mod (fun y => set_latch (mkLatches (nodeSyncedProblem (s_latch y)) true
        (tipBelowCommittedTipRefused (s_latch y))) y);
  n ← on_trk (gets calls);
  stat_mod (fun s => set_catchingUp (Some (catchUpWaitState (nodeCatchingUp s) info idx (date_now n))) s).

Definition repairLastBlockPointer (lastBlockDb : last_block) : LM unit :=
  _ ← on_trk (commitLastBlockPointerRepair (lb_hash lastBlockDb) (lb_height lastBlockDb));
  sync_mod (set_cursor (Some (lb_height lastBlockDb)) (Some (lb_hash lastBlockDb))).

Definition set_refused b y := set_latch (mkLatches (nodeSyncedProblem (s_latch y))
  (nodeCatchingUpProblem (s_latch y)) b) y.

Definition rollBackToNodeTip (lastBlockDb : last_block) (tip : option Z) : LM unit :=
  _ ← on_trk reloadLastBlocks;
  refused ← try_catch (_ ← runVerifyReorg tip; mret false)
    (fun err =>
       if e_tipBelowCommittedTip err then
         _ ← sync_mod (set_refused true);
         _ ← rereadCursor;
         _ ← sync_mod (set_info None);
         idx ← sync_get lastProcessedBlockIndex;
         _ ← match idx with
             | Some i => countRefusedWalk (lb_height lastBlockDb - i)
             | None => mret tt
             end;
         mret true
       else throw err);
  if (refused : bool) then mret tt
  else
    _ ← sync_mod (set_refused false);
    _ ← rereadCursor;
    _ ← sync_mod (set_info None);
    resyncMempoolAfterReorg.

Definition recoverFromTipBelowOurs (info idx : Z) : LM unit :=
  _ ← stat_mod (set_synced false);
  ci ← sync_get lastBlockchainInfo;
  if nodeStillCatchingUp ci then waitOnCatchingUpNode info idx
  else
    y ← sync_get (fun y => y);
    _ ← when (nodeCatchingUpProblem (s_latch y)) (
          _ ← sync_mod (fun y => set_latch (mkLatches (nodeSyncedProblem (s_latch y)) false
                (tipBelowCommittedTipRefused (s_latch y))) y);
          stat_mod (set_catchingUp None));
    if tipBelowCommittedTipRefused (s_latch y) then mret tt
    else
      '(below, reply) ← on_trk (settleNodeTipBelow idx);
      _ ← match reply with Some i => sync_mod (set_info (Some i)) | None => mret tt end;
      if negb below then mret tt
      else
        b ← sync_get s_batch;
        discarded ← on_trk (discardInflightBatchForReorg (blocksQuantity b));
        _ ← when discarded (sync_mod (set_batch empty_batch));
        lastBlockDb ← on_store getLastBlock;
        match lastBlockDb with
        | None => throw (Error (EMsg "Tracker DB corrupt"))
        | Some lb =>
            tip ← on_trk (gets (fun t => blockchainInfoLastBlock (stat t)));
            if num_gt (Some (lb_height lb)) tip then rollBackToNodeTip lb tip
            else repairLastBlockPointer lb
        end.

Definition reconcileRefreshedTip : LM unit :=
  idx ← sync_get lastProcessedBlockIndex;
  info ← on_trk (gets (fun t => blockchainInfoLastBlock (stat t)));
  _ ← when (num_ge info idx) (
        _ ← stat_mod (set_catchingUp None);
        sync_mod (fun y => set_latch (mkLatches (nodeSyncedProblem (s_latch y)) false false) y));
  match idx, info with
  | Some i, Some t => if bool_decide (t < i)%Z then recoverFromTipBelowOurs t i else pollAtTipOrIndex
  | _, _ => pollAtTipOrIndex
  end.

Definition refreshNodeTip : LM unit :=
  r ← settled (on_trk (rpc rpc_getBlockchainInfo));
  net ← on_trk (gets consensusNetwork);
  match r with
  | Err _ => mret tt
  | Ok info =>
      _ ← sync_mod (set_info info);
      match info with
      | None => mret tt
      | Some i =>
          _ ← stat_mod (set_tip (i_blocks i));
          if negb (nodeTipIsParseable info net) then
            _ ← stat_mod (fun s => set_reconverged false (set_synced false s));
            _ ← sync_mod (set_info None);
            sync_mod (fun y => set_latch (mkLatches true (nodeCatchingUpProblem (s_latch y))
              (tipBelowCommittedTipRefused (s_latch y))) y)
          else
            _ ← sync_mod (fun y => set_latch (mkLatches false (nodeCatchingUpProblem (s_latch y))
                  (tipBelowCommittedTipRefused (s_latch y))) y);
            _ ← stat_mod (set_infoLast (i_blocks i));
            n ← on_trk (gets calls);
            _ ← sync_mod (set_refreshAt (date_now n));
            reconcileRefreshedTip
      end
  end.

Definition pollSyncLoop : LM unit :=
  y ← sync_get (fun y => y);
  info ← on_trk (gets (fun t => blockchainInfoLastBlock (stat t)));
  n ← on_trk (gets calls);
  if bool_decide (lastBlockchainInfo y = None)
     || num_ge (lastProcessedBlockIndex y) info
     || bool_decide (BLOCKCHAIN_INFO_REFRESH_MS <= date_now n - lastBlockchainInfoRefreshAt y)%Z
  then refreshNodeTip
  else pollAtTipOrIndex.
End steps.
