(* ===== verification/Batch.v ===== *)
(** From one batch to the next: opening a batch over a sound store, and committing
    it, keep the invariants of [Block]; the window's entry and pointer writes are
    ones the block's transition does not see. *)

From S2P Require Import Prelude KeyCodec ValueCodec LevelDb Store Outputs StoreFacts.
From S2P Require Import Rollback Parsing Apply Spend Block Tracker Window.

#[local] Open Scope string_scope.
#[local] Open Scope nat_scope.
#[local] Open Scope list_scope.

Section batch.
Context {node : Node} {DB : Type} `{LevelDbLaws DB}.
Implicit Type s : store DB.

(** A sound store between batches. *)
Record store_inv s : Prop := {
  sv_wf : db_wf (disk s);
  sv_hints : hints_ok (dk (disk s));
  sv_cache : cache_ok (dk (disk s)) (outputCache s);
  sv_known : forall k, k ∈ knownScripts s ->
    exists sh, hash32 sh /\ k = to_latin1 sh /\ is_Some (dk (disk s) (KScriptBlk sh));
}.

Definition opened s : store DB := set_dtx (Some ∅) (set_tx (Some ∅) s).

Lemma staged_opened s b : staged (opened s) b = None.
Proof. unfold staged. cbn. apply lookup_empty. Qed.

Lemma vk_opened s k : vk (opened s) k = dk (disk s) k.
Proof. apply view_begin. Qed.

Lemma sync_inv_begin hm s : store_inv s -> sync_inv hm (opened s).
Proof.
  intros [Hw Hhi Hc Hk]. split.
  - split.
    + apply in_batch_begin.
    + intros k Hin. destruct (Hk k Hin) as (sh & ? & ? & ?). exists sh. by rewrite vk_opened.
    + intros sh it _. by rewrite staged_opened.
  - by eexists.
  - intros t i sh _ _. by rewrite staged_opened.
  - intros sh t i it _ _ _. by rewrite staged_opened.
  - intros t i it _ _. by rewrite staged_opened.
  - done.
  - intros b it. by rewrite staged_opened.
  - done.
  - done.
  - intros t i sh v _ _ _. by rewrite staged_opened.
Qed.

Lemma vk_cache hm s : sync_inv hm s -> cache_ok (vk s) (outputCache s).
Proof.
  intros [_ _ Hm Hp Hh Hw _ Hhi Hc Hmc] t i sh v Ht Hi Hcv. rewrite !vk_staged.
  destruct (staged s (enc (KOutHint t i))) as [it|] eqn:E.
  - intros Hv. destruct (Hh t i it Ht Hi E) as [[-> _]|(sh' & -> & _)]; [done|].
    injection Hv as ->. rewrite (Hmc t i sh v Ht Hi Hcv); [done|by rewrite E].
  - intros Hv. assert (Hsh : hash32 sh) by by eapply disk_hint_hash.
    destruct (staged s (enc (KOutput sh t i))) as [it|] eqn:EO; [|by eapply Hc].
    by destruct (Hp sh t i it Hsh Ht Hi EO) as [[Ep _]|[Ep _]]; rewrite E in Ep.
Qed.

Lemma view_wf hm s b v :
  sync_inv hm s -> view s b = Some v -> exists k, b = enc k /\ wf_key k /\ wf_val k v.
Proof.
  intros Hinv. rewrite view_staged. destruct (staged s b) as [it|] eqn:E; [|apply (si_wf _ _ Hinv)].
  destruct (si_stwf _ _ Hinv b it E) as (k & -> & Hk & Hv). intros Ha.
  destruct it as [ty [x|]], ty; cbn in Ha, Hv; try done;
    try (destruct (si_wf _ _ Hinv _ _ Ha) as (k' & E' & Hk' & Hv'); by exists k').
  injection Ha as ->. exists k. auto.
Qed.

(** A commit the disk accepts makes the view the disk. *)
Lemma run_commit hm s :
  sync_inv hm s -> commit_ok s ->
  exists s', endTransaction true s = (Ok tt, s') /\ store_inv s'
    /\ (forall k, dk (disk s') k = vk s k)
    /\ transactionArray s' = None /\ deletedTransactionArray s' = None
    /\ faults s' = tail (faults s).
Proof.
  intros Hinv Hok. pose proof (fs_batch _ (si_first _ _ Hinv)) as Hb.
  destruct (run_endTransaction_commit s Hb Hok) as (s' & E & Hd & Ht & Hdt & Hc & Hk & Hf).
  assert (Hdk : forall k, dk (disk s') k = vk s k) by (intros k; apply Hd).
  exists s'. split_and!; try done. split.
  - intros b v Hg. rewrite Hd in Hg. by eapply view_wf.
  - intros t i sh Hh Hi. rewrite !Hdk. by apply (vk_hints hm).
  - intros t i sh v Hh Hi. rewrite !Hdk, Hc. by apply (vk_cache hm).
  - intros k Hin. rewrite Hk in Hin. destruct (fs_known _ (si_first _ _ Hinv) k Hin) as (sh & ? & ? & ?).
    exists sh. by rewrite Hdk.
Qed.

(** Writes of meta and window records. *)
Definition plain_writes (L : list (key * option bytes)) : Prop :=
  forall k o, (k, o) ∈ L -> wf_key k /\ (forall v, o = Some v -> wf_val k v) /\ ~ utxo_key k.

Definition enc_writes (L : list (key * option bytes)) : list write :=
  (fun x : key * option bytes => (enc x.1, x.2)) <$> L.

Definition stage_keys (L : list (key * option bytes)) s : store DB := stage (enc_writes L) s.

(** The last typed write to [k]. *)
Fixpoint klast (L : list (key * option bytes)) (k : key) : option (option bytes) :=
  match L with
  | [] => None
  | (k', o) :: L' =>
      match klast L' k with Some x => Some x | None => if decide (k' = k) then Some o else None end
  end.

Lemma last_write_keys L k :
  (forall k' o, (k', o) ∈ L -> wf_key k') -> wf_key k -> last_write (enc_writes L) (enc k) = klast L k.
Proof.
  intros HL Hk. induction L as [|[k' o] L IH]; [done|].
  change (enc_writes ((k', o) :: L)) with ((enc k', o) :: enc_writes L).
  cbn [last_write klast]. rewrite IH by (intros ? ? Hin; eapply HL; right; exact Hin).
  destruct (klast L k); [done|]. assert (Hk' : wf_key k') by (eapply HL; left).
  destruct (decide (k' = k)) as [->|Hne]; [by rewrite decide_True|].
  rewrite decide_False; [done|]. intros E. by apply enc_inj in E.
Qed.

Lemma vk_stage_keys s L k :
  in_batch s -> (forall k' o, (k', o) ∈ L -> wf_key k') -> wf_key k ->
  vk (stage_keys L s) k = default (vk s k) (klast L k).
Proof.
  intros Hb HL Hk. unfold vk at 1, stage_keys. rewrite view_stage by done.
  by rewrite last_write_keys.
Qed.
End batch.

(** * The window *)

Section window.
Context {node : Node} {DB : Type} `{LevelDbLaws DB}.
Implicit Type t : tracker DB.

(** The [n] oldest blocks leave a window of [l]. *)
Definition aged (undo : Z) (l : list string) : nat := length l - Z.to_nat undo.

Lemma run_ageOut l t :
  (0 <= undoBlocks (win t))%Z -> lastBlocks (win t) = l ->
  is_Some (deletedTransactionArray (db t)) ->
  exists dt,
    ageOut l t
    = (Ok tt, set_win (set_lastBlocks (drop (aged (undoBlocks (win t)) l) l)
                        (set_pending (pendingKMCleanup (win t) ++ take (aged (undoBlocks (win t)) l) l)
                          (win t)))
                (set_db (set_dtx (Some dt) (db t)) t)).
Proof.
  revert t. induction l as [|x l IH]; intros t Hu Hl [dt Hdt].
  - exists dt. cbn. rewrite app_nil_r. apply f_equal.
    destruct t as [[d0 t0 dt0 c0 k0 f0] m [lb pd ub wm wp] st n net]. cbn in *. by subst.
  - cbn [ageOut]. rewrite (run_bind_ok _ _ t (win t) t) by done.
    unfold aged. cbn [length].
    case_bool_decide as Hlt.
    + set (t1 := set_win (set_pending (pendingKMCleanup (win t) ++ [x]) (set_lastBlocks l (win t)))
                   (set_db (set_dtx (Some (delete x dt)) (db t)) t)).
      rewrite (run_bind_ok _ _ t tt (set_win (set_lastBlocks l (win t)) t)) by done.
      rewrite (run_bind_ok _ _ _ tt
        (set_db (set_dtx (Some (delete x dt)) (db t)) (set_win (set_lastBlocks l (win t)) t)))
        by (unfold on_db, modify; cbn; by rewrite Hdt).
      rewrite (run_bind_ok _ _ _ tt t1) by done.
      destruct (IH t1) as (dt' & E); [done|done|by eexists|].
      exists dt'. rewrite E. unfold aged.
      assert (En : S (length l) - Z.to_nat (undoBlocks (win t)) = S (length l - Z.to_nat (undoBlocks (win t)))) by lia.
      rewrite En. cbn. by rewrite <- app_assoc.
    + exists dt. rewrite (proj2 (Nat.sub_0_le _ _)) by lia. cbn. rewrite app_nil_r.
      destruct t as [[d0 t0 dt0 c0 k0 f0] m [lb pd ub wm wp] st n net]. cbn in *. by subst.
Qed.

(** The window once [h] is the newest block: at most [undoBlocks] blocks, the older
    ones pending cleanup, the mark raised to the depth held and recorded. *)
Definition window_after (h : string) (w : window) : window :=
  let l := lastBlocks w ++ [h] in
  let n := aged (undoBlocks w) l in
  let mark := Z.max (undoWindowWatermark w) (Z.min (Z.of_nat (length (drop n l))) (undoBlocks w)) in
  mkWindow (drop n l) (pendingKMCleanup w ++ take n l) (undoBlocks w) mark (Some mark).

(** What adding a block to the window stages. *)
Definition window_writes (h : string) (w : window) : list (key * option bytes) :=
  let mark := undoWindowWatermark (window_after h w) in
  (KStoredBlk (h2b h), Some EMPTY)
  :: if bool_decide (undoWindowWatermarkPersisted w = Some mark) then []
     else [(KMeta UNDO_WATERMARK, Some (from_latin1 (to_radix 10 mark)))].

Lemma run_recordUndoWindowWatermark t :
  in_batch (db t) ->
  let mark := Z.max (undoWindowWatermark (win t))
                (Z.min (Z.of_nat (length (lastBlocks (win t)))) (undoBlocks (win t))) in
  recordUndoWindowWatermark t
  = (Ok tt, set_win (set_persisted (Some mark) (set_watermark mark (win t)))
      (set_db (stage_keys (if bool_decide (undoWindowWatermarkPersisted (win t) = Some mark) then []
                 else [(KMeta UNDO_WATERMARK, Some (from_latin1 (to_radix 10 mark)))]) (db t)) t)).
Proof.
  intros Hb mark. unfold recordUndoWindowWatermark.
  rewrite (run_bind_ok _ _ t (win t) t) by done. cbv zeta.
  set (depth := Z.min _ _) in *. set (w := win t) in *.
  assert (Ew : set_watermark mark w = if bool_decide (undoWindowWatermark w < depth)%Z
    then set_watermark depth w else w).
  { unfold mark. case_bool_decide.
    - by rewrite Z.max_r by lia.
    - rewrite Z.max_l by lia. by destruct w. }
  rewrite (run_bind_ok _ _ t tt (set_win (set_watermark mark w) t)).
  2:{ rewrite Ew. unfold when. case_bool_decide; [done|]. unfold mret, M_ret. f_equal.
      unfold w. by destruct t. }
  rewrite (run_bind_ok _ _ _ (set_watermark mark w) (set_win (set_watermark mark w) t)) by done.
  cbn [undoWindowWatermark undoWindowWatermarkPersisted set_watermark].
  destruct (decide (undoWindowWatermarkPersisted w = Some mark)) as [E|E];
    [rewrite !(bool_decide_eq_true_2 (_ = Some mark)) by done
    |rewrite !(bool_decide_eq_false_2 (_ = Some mark)) by done].
  - change (stage_keys [] (db t)) with (stage [] (db t)). rewrite stage_nil. unfold mret, M_ret. rewrite <- E.
    unfold w. by destruct t as [? ? [] ? ? ?].
  - rewrite (run_bind_ok _ _ _ tt (set_win (set_persisted (Some mark) (set_watermark mark w)) t)) by done.
    rewrite (run_bind_ok _ _ _ true (set_db (stage_keys [(KMeta UNDO_WATERMARK, Some (from_latin1 (to_radix 10 mark)))] (db t))
      (set_win (set_persisted (Some mark) (set_watermark mark w)) t))); [done|].
    apply run_on_db_ok. apply (run_put (db t) Q_UNDO_WATERMARK_KEY _ Hb).
Qed.

Lemma stage_set_dtx ws dt (s : store DB) : stage ws (set_dtx dt s) = set_dtx dt (stage ws s).
Proof. unfold stage. cbn. by destruct (transactionArray s). Qed.

Lemma run_addToLastBlocks h t :
  is_hash h -> in_batch (db t) -> is_Some (deletedTransactionArray (db t)) ->
  (0 <= undoBlocks (win t))%Z ->
  exists dt, addToLastBlocks h t
    = (Ok tt, set_win (window_after h (win t))
        (set_db (set_dtx (Some dt) (stage_keys (window_writes h (win t)) (db t))) t)).
Proof.
  intros Hh Hb [dt0 Hdt] Hu. unfold addToLastBlocks. set (w := win t) in *.
  set (l := lastBlocks w ++ [h]).
  rewrite (run_bind_ok _ _ t tt (set_win (set_lastBlocks l w) t)) by done.
  set (s1 := stage_keys [(KStoredBlk (h2b h), Some EMPTY)] (db t)).
  assert (E1 : addLastStoredBlock h (db t) = (Ok true, s1)).
  { unfold addLastStoredBlock. rewrite kStoredBlk_ok by done.
    step_stage (run_lift (db t) (Ok (enc (KStoredBlk (h2b h))))).
    apply (run_put (db t) (enc (KStoredBlk (h2b h))) EMPTY Hb). }
  rewrite (run_bind_ok _ _ _ _ _ (run_on_db_ok _ (set_win (set_lastBlocks l w) t) _ _ E1)).
  set (t1 := set_db s1 _). rewrite (run_bind_ok _ _ t1 l t1) by done.
  destruct (run_ageOut l t1) as (dt & E2); [done|done| |].
  { exists dt0. change (deletedTransactionArray s1 = Some dt0). unfold s1, stage_keys. by rewrite dtx_stage. }
  rewrite (run_bind_ok _ _ _ _ _ E2). clear E2.
  match goal with |- context [recordUndoWindowWatermark ?x] => set (t2 := x) end.
  assert (Hb2 : in_batch (db t2)) by (change (in_batch s1); by apply in_batch_stage).
  rewrite (run_recordUndoWindowWatermark t2 Hb2). cbv zeta.
  exists dt. change (db t2) with (set_dtx (Some dt) s1). unfold window_after, window_writes.
  change (undoBlocks (win t2)) with (undoBlocks w). change (lastBlocks (win t2)) with (drop (aged (undoBlocks w) l) l).
  change (undoWindowWatermark (win t2)) with (undoWindowWatermark w).
  change (undoWindowWatermarkPersisted (win t2)) with (undoWindowWatermarkPersisted w).
  cbv zeta. fold l. unfold stage_keys. rewrite stage_set_dtx. unfold s1, stage_keys.
  rewrite <- stage_app. done.
Qed.
End window.
