(* ===== verification/Undo.v ===== *)
(** One block rolled back ([rollBackTipBlock] of [reorg_verification.js]): the whole
    batch, evaluated.  [run_rollBackBatch] gives the disk it leaves record by record
    ([rolled]), and [rollback_undoes] that this is the disk before the block. *)

From S2P Require Import Prelude KeyCodec LevelDb ValueCodec Store Outputs StoreFacts Rollback Parsing Apply Spend Block Roundtrip Tracker Window Reorg.
From S2P Require Import Batch.

#[local] Open Scope string_scope.
#[local] Open Scope nat_scope.
#[local] Open Scope list_scope.

(** * The window *)

Lemma indexOf_last x l : x ∉ l -> indexOf x (l ++ [x]) = Some (length l).
Proof.
  induction l as [|y l IH]; intros Hn; cbn [indexOf app length].
  - by rewrite bool_decide_eq_true_2.
  - apply not_elem_of_cons in Hn as [Hne Hn]. rewrite bool_decide_eq_false_2 by done.
    by rewrite IH.
Qed.

Section undo.
Context {node : Node} {rpcs : NodeRpc} {DB : Type} `{LevelDbLaws DB}.
Implicit Types (s : store DB) (t : tracker DB).

(** * The store's part of the batch *)

Lemma run_deleteTransactionsInBlock s bh :
  in_batch s -> is_hash bh -> db_wf (disk s) ->
  exists n, deleteTransactionsInBlock bh s = (Ok n, stage (wT (disk s) (h2b bh)) s).
Proof.
  intros Hb Hbh Hd. unfold deleteTransactionsInBlock. step_stage (run_dbScan s _).
  change (∅ : gset string) with (list_to_set (b2h <$> []) : gset string).
  apply run_deleteTxLoop; [done|done|].
  intros [b v] (k & -> & Hk & _ & _ & Hp)%elem_of_scan; [|done].
  apply prefix_out_blk in Hp as (x & i & ->); [|by apply h2b_hash32|done].
  destruct Hk as (Hx & Hy & Hi). cbn [fst enc app]. by rewrite slice_33_65.
Qed.

Lemma run_deleteBlock s bh :
  in_batch s -> is_hash bh -> db_wf (disk s) ->
  deleteBlock bh s
  = (Ok true, stage (wT (disk s) (h2b bh) ++ [(enc (KBlock (h2b bh)), None)]) s).
Proof.
  intros Hb Hbh Hd. unfold deleteBlock.
  destruct (run_deleteTransactionsInBlock s bh Hb Hbh Hd) as [n E].
  rewrite (run_bind_ok _ _ _ _ _ E). rewrite kBlock_ok by done.
  step_stage (run_lift (stage (wT (disk s) (h2b bh)) s) (Ok (enc (KBlock (h2b bh))))).
  rewrite run_del by by apply in_batch_stage. by rewrite stage_app.
Qed.

Lemma run_removeLastStoredBlock s bh :
  in_batch s -> is_hash bh -> staged s (enc (KStoredBlk (h2b bh))) = None ->
  removeLastStoredBlock bh s = (Ok true, stage [(enc (KStoredBlk (h2b bh)), None)] s).
Proof.
  intros (tx & Etx & Hv) Hbh Hn. unfold removeLastStoredBlock. rewrite kStoredBlk_ok by done.
  step_stage (run_lift s (Ok (enc (KStoredBlk (h2b bh))))).
  unfold staged in Hn. rewrite Etx in Hn.
  rewrite (run_bind_ok _ _ s false s).
  - apply run_del. by exists tx.
  - unfold removeTransactionIfExists, get, mbind, M_bind. rewrite Etx. by rewrite Hn.
Qed.

(** ** The known-scripts reset does not reach the records *)

Lemma set_known_twice k1 k2 s : set_known k1 (set_known k2 s) = set_known k1 s.
Proof. done. Qed.

Lemma set_known_id s : set_known (knownScripts s) s = s.
Proof. by destruct s. Qed.

(** The restore and delete scans, over an open batch. *)
Definition rollBackScans (bh : string) : M (store DB) unit :=
  _ ← removeOutputScriptsInBlock bh;
  _ ← processDeletedOutputs bh true;
  removeCreatedOutputsInBlock bh.

Lemma run_rollBackScans s bh :
  in_batch s -> deletedTransactionArray s = Some ∅ ->
  exists kn, kn ⊆ knownScripts s
    /\ rollBackScans bh s
       = (Ok tt, set_known kn (stage (wZ (disk s) (h2b bh)
            ++ (wK (disk s) (h2b bh) ++ wM (disk s) (h2b bh)) ++ wW (disk s) (h2b bh)) s)).
Proof.
  intros Hb Hd. unfold rollBackScans.
  pose proof (run_removeOutputScriptsInBlock s bh Hb) as E1.
  set (kn := if bool_decide (length (scan (disk s) P_BLK_SCRIPT (h2b bh)) = 0)
             then knownScripts s else ∅).
  assert (E1' : removeOutputScriptsInBlock bh s
    = (Ok tt, set_known kn (stage (wZ (disk s) (h2b bh)) s))).
  { rewrite E1. unfold kn. case_bool_decide; [|done].
    rewrite <- (known_stage (wZ (disk s) (h2b bh)) s). by rewrite set_known_id. }
  exists kn. split; [unfold kn; case_bool_decide; set_solver|].
  rewrite (run_bind_ok _ _ _ _ _ E1'). rewrite <- stage_set_known.
  set (s1 := set_known kn s). set (s2 := stage (wZ (disk s) (h2b bh)) s1).
  assert (Hb2 : in_batch s2) by by apply in_batch_stage.
  assert (Hd2 : disk s2 = disk s) by by unfold s2; rewrite disk_stage.
  rewrite (run_bind_ok _ _ s2 tt (stage (wK (disk s) (h2b bh) ++ wM (disk s) (h2b bh)) s2)).
  2:{ rewrite <- Hd2. apply run_processDeletedOutputs; [done|]. unfold s2. by rewrite dtx_stage. }
  rewrite run_removeCreatedOutputsInBlock by by apply in_batch_stage.
  rewrite disk_stage, Hd2. unfold s2. rewrite <- !stage_app. unfold s1.
  by rewrite stage_set_known, <- app_assoc.
Qed.

Lemma on_db_seq3 (m1 m2 m3 : M (store DB) unit) t :
  (_ ← on_db m1; _ ← on_db m2; on_db m3) t = on_db (_ ← m1; _ ← m2; m3) t.
Proof.
  unfold on_db, mbind, M_bind. destruct (m1 (db t)) as [[a1|e] s1]; [|done].
  cbn. destruct (m2 s1) as [[a2|e] s2]; [|done]. cbn. by destruct (m3 s2) as [r s3].
Qed.

(** ** The batch *)

(** A stored block may be rolled back: the window ends with it, and the next
    commit is accepted. *)
Record undo_ready t (bhs : string) (l : list string) : Prop := {
  ur_hash : is_hash bhs;
  ur_wf : db_wf (disk (db t));
  ur_commit : commit_ok (db t);
  ur_window : lastBlocks (win t) = l ++ [bhs];
  ur_new : bhs ∉ l;
}.

Lemma run_removeFromLastBlocks t bhs l :
  is_hash bhs -> lastBlocks (win t) = l ++ [bhs] -> bhs ∉ l -> in_batch (db t) ->
  staged (db t) (enc (KStoredBlk (h2b bhs))) = None ->
  removeFromLastBlocks bhs t
  = (Ok tt, set_db (stage [(enc (KStoredBlk (h2b bhs)), None)] (db t))
              (set_win (set_lastBlocks l (win t)) t)).
Proof.
  intros Hbh Hl Hn Hb Hst. unfold removeFromLastBlocks.
  rewrite (run_bind_ok _ _ t (l ++ [bhs]) t) by (unfold getw, gets; by rewrite Hl).
  rewrite bool_decide_eq_false_2 by (rewrite length_app; cbn; lia).
  rewrite bool_decide_eq_true_2 by (apply elem_of_app; right; by left).
  rewrite (run_bind_ok _ _ t tt t) by done.
  rewrite (run_bind_ok _ _ t (l ++ [bhs]) t) by (unfold getw, gets; by rewrite Hl).
  rewrite indexOf_last by done. rewrite bool_decide_eq_true_2
    by (rewrite length_app; cbn; f_equal; lia).
  rewrite (run_bind_ok _ _ t tt (set_win (set_lastBlocks l (win t)) t))
    by (unfold modify_win, modify; by rewrite Hl, removelast_last).
  set (t1 := set_win _ t).
  rewrite (run_bind_ok _ _ t1 true (set_db (stage [(enc (KStoredBlk (h2b bhs)), None)] (db t)) t1)); [done|].
  apply run_on_db_ok. by apply (run_removeLastStoredBlock (db t) bhs).
Qed.

Lemma last_write_stored d bhs :
  db_wf d -> hash32 bhs -> forall o,
  last_write (wZ d bhs ++ (wK d bhs ++ wM d bhs) ++ wW d bhs
              ++ wT d bhs ++ [(enc (KBlock bhs), None)]) (enc (KStoredBlk bhs)) <> Some o.
Proof.
  intros Hd Hbh o Hin%last_write_in.
  assert (Hk : wf_key (KStoredBlk bhs)) by done.
  rewrite !elem_of_app, list_elem_of_singleton in Hin.
  destruct Hin as [Hin|[[Hin|Hin]|[Hin|[Hin|Hin]]]].
  - apply (wZ_rel d bhs Hd Hbh) in Hin as (k & E & Hwf & HR).
    apply enc_inj in E as <-; [|done..]. by destruct HR.
  - apply (wK_rel d bhs Hd Hbh) in Hin as (k & E & Hwf & HR). by apply enc_inj in E as <-.
  - apply (wM_rel d bhs Hd Hbh) in Hin as (k & E & Hwf & HR). by apply enc_inj in E as <-.
  - apply (wW_rel d bhs Hd Hbh) in Hin as (k & E & Hwf & HR).
    apply enc_inj in E as <-; [|done..]. by destruct HR.
  - apply (wT_rel d bhs Hd Hbh) in Hin as (k & E & Hwf & HR).
    apply enc_inj in E as <-; [|done..]. by destruct HR.
  - injection Hin as E _. discriminate E.
Qed.

(** The two tip pointers. *)
Definition pointers (hash : string) (height : Z) : list (key * option bytes) :=
  [(KMeta LAST_BLOCK_HASH, Some (from_latin1 hash));
   (KMeta LAST_BLOCK_HEIGHT, Some (from_latin1 (to_radix 16 height)))].

Lemma run_setLastBlockHash s hash :
  in_batch s ->
  setLastBlockHash hash s = (Ok true, stage_keys [(KMeta LAST_BLOCK_HASH, Some (from_latin1 hash))] s).
Proof. intros Hb. apply (run_put s PREFIX_LAST_BLOCK_HASH (from_latin1 hash) Hb). Qed.

Lemma run_setLastBlockHeight s height :
  in_batch s ->
  setLastBlockHeight height s
  = (Ok true, stage_keys [(KMeta LAST_BLOCK_HEIGHT, Some (from_latin1 (to_radix 16 height)))] s).
Proof.
  intros Hb. unfold setLastBlockHeight.
  by step_stage (run_put s PREFIX_LAST_BLOCK_HEIGHT (from_latin1 (to_radix 16 height)) Hb).
Qed.

(** The disk after the batch. *)
Definition undone (d d' : DB) (bh : bytes) (ph : string) (height : Z) : Prop :=
  forall k, wf_key k ->
    dk d' k = match k with
              | KMeta LAST_BLOCK_HASH => Some (from_latin1 ph)
              | KMeta LAST_BLOCK_HEIGHT => Some (from_latin1 (to_radix 16 height))
              | _ => rolled d bh k
              end.

(** All the writes of the batch, over the open batch [s]. *)
Lemma vk_rollback s bhs hash height k :
  in_batch s -> (forall k', vk s k' = dk (disk s) k') -> db_wf (disk s) -> hash32 bhs -> wf_key k ->
  vk (stage_keys (pointers hash height) (stage (rollback_writes (disk s) bhs) s)) k
  = match k with
    | KMeta LAST_BLOCK_HASH => Some (from_latin1 hash)
    | KMeta LAST_BLOCK_HEIGHT => Some (from_latin1 (to_radix 16 height))
    | _ => rolled (disk s) bhs k
    end.
Proof.
  intros Hb Hv Hd Hbh Hk. rewrite vk_stage_keys; [|by apply in_batch_stage| |done].
  2:{ unfold pointers. set_solver. }
  unfold vk at 1. rewrite view_stage by done. fold (vk s k). rewrite Hv, last_write_rollback by done.
  destruct k as [| | | | | | | | | | | | | |[]]; done.
Qed.

(** ** The writes keep the store well formed *)

Definition writes_wf (ws : list write) : Prop :=
  forall b v, (b, Some v) ∈ ws -> exists k, b = enc k /\ wf_key k /\ wf_val k v.

Definition view_ok s : Prop :=
  forall b v, view s b = Some v -> exists k, b = enc k /\ wf_key k /\ wf_val k v.

Lemma writes_wf_app w1 w2 : writes_wf w1 -> writes_wf w2 -> writes_wf (w1 ++ w2).
Proof. intros Hw1 Hw2 b v [Hin|Hin]%elem_of_app; eauto. Qed.

Lemma view_ok_stage ws s : in_batch s -> view_ok s -> writes_wf ws -> view_ok (stage ws s).
Proof.
  intros Hb Hv Hw b v. rewrite view_stage by done.
  destruct (last_write ws b) as [o|] eqn:E; [|apply Hv].
  cbn. intros ->. by apply last_write_in, Hw in E.
Qed.

Lemma writes_wf_rel ws R :
  writes_rel ws R -> (forall k v, wf_key k -> R k (Some v) -> wf_val k v) -> writes_wf ws.
Proof. intros Hws HR b v (k & -> & Hk & Ho)%Hws. exists k. eauto. Qed.

Lemma rollback_writes_wf d bh : db_wf d -> hash32 bh -> writes_wf (rollback_writes d bh).
Proof.
  intros Hd Hbh. unfold rollback_writes.
  pose proof (wZ_rel d bh Hd Hbh) as HZ. pose proof (wK_rel d bh Hd Hbh) as HK.
  pose proof (wM_rel d bh Hd Hbh) as HM. pose proof (wW_rel d bh Hd Hbh) as HW.
  pose proof (wT_rel d bh Hd Hbh) as HT.
  repeat apply writes_wf_app.
  - eapply writes_wf_rel; [done|]. by intros k v _ [? _].
  - eapply writes_wf_rel; [done|]. intros k v _ HR. by destruct k.
  - eapply writes_wf_rel; [done|]. intros k v Hk HR. destruct k; try done.
    + destruct HR as (v' & [= <-] & Hg). by apply (db_wf_val d (KHintDel bh t i)).
    + by destruct HR as (_ & ? & _).
  - eapply writes_wf_rel; [done|]. by intros k v _ [? _].
  - eapply writes_wf_rel; [done|]. by intros k v _ [? _].
  - intros b v [= ]%list_elem_of_singleton.
  - intros b v [= ]%list_elem_of_singleton.
Qed.

Lemma enc_writes_wf L :
  (forall k v, (k, Some v) ∈ L -> wf_key k /\ wf_val k v) -> writes_wf (enc_writes L).
Proof. intros HL b v ([k o] & [= -> <-] & Hin)%list_elem_of_fmap. exists k. by split; [|apply HL]. Qed.

Lemma pointers_wf hash height : writes_wf (enc_writes (pointers hash height)).
Proof. apply enc_writes_wf. unfold pointers. intros k v. rewrite !elem_of_cons, elem_of_nil. naive_solver. Qed.

Lemma same_after_stage kn L ws s :
  let s' := set_known kn (stage_keys L (stage ws s)) in
  faults s' = faults s /\ outputCache s' = outputCache s /\ disk s' = disk s.
Proof.
  change (faults (stage (enc_writes L) (stage ws s)) = faults s
    /\ outputCache (stage (enc_writes L) (stage ws s)) = outputCache s
    /\ disk (stage (enc_writes L) (stage ws s)) = disk s).
  by rewrite !faults_stage, !cache_stage, !disk_stage.
Qed.

(** What the batch of one rolled-back block stages. *)
Definition undo_staged (d : DB) (bhs : string) (lb : block_rec) (kn : gset string) s : store DB :=
  set_known kn (stage_keys (pointers (b_ph lb) (b_h lb - 1)) (stage (rollback_writes d (h2b bhs)) (opened s))).

(** Everything up to the commit: the writes are staged and the block is off the window. *)
Lemma rollBackBatch_staged t bhs l lb :
  is_hash bhs -> db_wf (disk (db t)) -> lastBlocks (win t) = l ++ [bhs] -> bhs ∉ l ->
  exists kn, kn ⊆ knownScripts (db t)
    /\ in_batch (undo_staged (disk (db t)) bhs lb kn (db t))
    /\ rollBackBatch bhs lb t
       = on_db (endTransaction true)
           (set_db (undo_staged (disk (db t)) bhs lb kn (db t)) (set_win (set_lastBlocks l (win t)) t)).
Proof.
  intros Hbh Hd Hl Hn. pose proof (h2b_hash32 bhs Hbh) as Hb32.
  unfold rollBackBatch. set (bh := h2b bhs).
  set (s0 := opened (db t)). assert (Hb0 : in_batch s0) by apply in_batch_begin.
  rewrite (run_bind_ok _ _ t tt (set_db s0 t)) by done.
  unfold REMOVE_SPENT, when. cbv iota.
  destruct (run_rollBackScans s0 bhs Hb0 eq_refl) as (kn & Hkn & E1).
  rewrite (run_bind_ok _ _ _ _ _ (eq_trans (on_db_seq3 _ _ _ _) (run_on_db_ok _ (set_db s0 t) _ _ E1))).
  change (disk s0) with (disk (db t)) in *. set (w1 := wZ _ _ ++ _) in *.
  assert (Hb1 : in_batch (set_known kn (stage w1 s0))) by by apply (in_batch_stage w1 s0).
  assert (Hd1 : disk (set_known kn (stage w1 s0)) = disk (db t)) by apply (disk_stage w1 s0).
  pose proof (run_deleteBlock (set_known kn (stage w1 s0)) bhs Hb1 Hbh) as E2. rewrite Hd1 in E2.
  specialize (E2 Hd). rewrite stage_set_known, <- stage_app in E2.
  rewrite (run_bind_ok _ _ _ _ _ (run_on_db_ok _ (set_db _ (set_db s0 t)) _ _ E2)).
  set (w2 := w1 ++ _) in *. set (s2 := set_known kn (stage w2 s0)).
  assert (Hb2 : in_batch s2) by by apply (in_batch_stage w2 s0).
  assert (Hst : staged s2 (enc (KStoredBlk bh)) = None).
  { change (staged (stage w2 s0) (enc (KStoredBlk bh)) = None). rewrite staged_stage by done.
    destruct (last_write w2 (enc (KStoredBlk bh))) as [o|] eqn:E; [|apply staged_opened].
    exfalso. revert E. unfold w2, w1. rewrite <- !app_assoc.
    pose proof (last_write_stored (disk (db t)) bh Hd Hb32 o) as Hno.
    by rewrite <- !app_assoc in Hno. }
  set (t2 := set_db s2 _).
  rewrite (run_bind_ok _ _ _ _ _ (run_removeFromLastBlocks t2 bhs l Hbh Hl Hn Hb2 Hst)).
  change (db t2) with s2. fold bh. set (s3 := stage _ s2). set (t3 := set_db s3 _).
  assert (Hb3 : in_batch s3) by by apply in_batch_stage.
  rewrite (run_bind_ok _ _ _ _ _ (run_on_db_ok _ t3 _ _ (run_setLastBlockHash s3 (b_ph lb) Hb3))).
  set (s4 := stage_keys _ s3). assert (Hb4 : in_batch s4) by by apply in_batch_stage.
  rewrite (run_bind_ok _ _ _ _ _ (run_on_db_ok _ (set_db s4 t3) _ _
    (run_setLastBlockHeight s4 (b_h lb - 1) Hb4))).
  set (s5 := stage_keys _ s4). assert (Hb5 : in_batch s5) by by apply in_batch_stage.
  assert (Es5 : s5 = undo_staged (disk (db t)) bhs lb kn (db t)).
  { unfold s5, s4, s3, s2, w2, w1, undo_staged, stage_keys, pointers, rollback_writes. fold bh s0.
    rewrite !stage_set_known, <- !stage_app. do 2 f_equal. rewrite <- !app_assoc. done. }
  exists kn. rewrite <- Es5. by split_and!.
Qed.

(** The batch of one rolled-back block leaves [rolled] on the disk and takes the
    block off the window. *)
Lemma run_rollBackBatch t bhs l lb :
  undo_ready t bhs l ->
  exists s', rollBackBatch bhs lb t = (Ok tt, set_db s' (set_win (set_lastBlocks l (win t)) t))
    /\ undone (disk (db t)) (disk s') (h2b bhs) (b_ph lb) (b_h lb - 1) /\ db_wf (disk s')
    /\ transactionArray s' = None /\ deletedTransactionArray s' = None
    /\ outputCache s' = outputCache (db t) /\ knownScripts s' ⊆ knownScripts (db t)
    /\ faults s' = tail (faults (db t)).
Proof.
  intros [Hbh Hd Hc Hl Hn]. pose proof (h2b_hash32 bhs Hbh) as Hb32.
  destruct (rollBackBatch_staged t bhs l lb Hbh Hd Hl Hn) as (kn & Hkn & Hb5 & ->).
  set (s0 := opened (db t)). assert (Hb0 : in_batch s0) by apply in_batch_begin.
  set (s5 := undo_staged _ _ _ _ _) in *.
  destruct (same_after_stage kn (pointers (b_ph lb) (b_h lb - 1)) (rollback_writes (disk (db t)) (h2b bhs)) s0)
    as (Ef & Eca & _).
  assert (Ef5 : faults s5 = faults (db t)) by exact Ef.
  assert (Eca5 : outputCache s5 = outputCache (db t)) by exact Eca.
  assert (Hc5 : commit_ok s5) by (unfold commit_ok; by rewrite Ef5).
  destruct (run_endTransaction_commit s5 Hb5 Hc5) as (s' & E & Hv & ? & ? & Hca & Hkn' & Hf).
  exists s'. split_and!; [| | |assumption|assumption| | |].
  - by rewrite (run_on_db_ok _ (set_db s5 _) _ _ E).
  - intros k Hk. unfold dk. rewrite Hv. change (view s5 (enc k)) with (vk s5 k).
    change (vk s5 k) with (vk (stage_keys (pointers (b_ph lb) (b_h lb - 1))
      (stage (rollback_writes (disk (db t)) (h2b bhs)) s0)) k).
    apply (vk_rollback s0 (h2b bhs) (b_ph lb) (b_h lb - 1) k); [done| |done|done|done].
    intros k'. exact (vk_opened (db t) k').
  - intros b v. rewrite Hv.
    apply view_ok_stage; [by apply in_batch_stage| |apply pointers_wf].
    apply view_ok_stage; [done| |by apply rollback_writes_wf].
    intros b' v'. unfold s0, opened. rewrite view_begin. apply Hd.
  - by rewrite Hca.
  - by rewrite Hkn'.
  - by rewrite Hf, Ef5.
Qed.

(** A commit the database refuses: every staged write is still only staged. *)
Lemma run_rollBackBatch_refused t bhs l lb fs :
  is_hash bhs -> db_wf (disk (db t)) -> lastBlocks (win t) = l ++ [bhs] -> bhs ∉ l ->
  faults (db t) = true :: fs ->
  exists s', rollBackBatch bhs lb t = (Err (Error EBatch), set_db s' (set_win (set_lastBlocks l (win t)) t))
    /\ disk s' = disk (db t) /\ faults s' = fs.
Proof.
  intros Hbh Hd Hl Hn Hf.
  destruct (rollBackBatch_staged t bhs l lb Hbh Hd Hl Hn) as (kn & _ & Hb5 & ->).
  destruct (same_after_stage kn (pointers (b_ph lb) (b_h lb - 1)) (rollback_writes (disk (db t)) (h2b bhs))
    (opened (db t))) as (Ef & _ & Edk).
  set (s5 := undo_staged _ _ _ _ _) in *.
  exists (set_faults fs s5). split_and!; [|exact Edk|done].
  by rewrite (run_on_db_err _ (set_db s5 _) _ _ (run_endTransaction_refused s5 fs Hb5 (eq_trans Ef Hf))).
Qed.
End undo.

(** * Pruning the blocks that left the window ([cleanupAgedBlocks] of
        [last_blocks_window *)

(** The block whose pruning takes the record with it. *)
Definition index_of (k : key) : option bytes :=
  match k with KBlock _ => None | _ => key_block k end.

(** * The blocks to clean *)

Lemma blocksToClean_spec live seen pending x :
  x ∈ blocksToClean live seen pending <-> x ∈ pending /\ x ∉ live /\ x ∉ seen.
Proof.
  revert seen. induction pending as [|y r IH]; intros seen; cbn [blocksToClean].
  - rewrite elem_of_nil. naive_solver.
  - repeat case_bool_decide; rewrite ?elem_of_cons, ?IH; rewrite ?not_elem_of_cons; [naive_solver..|].
    destruct (decide (x = y)) as [->|]; naive_solver.
Qed.

Lemma blocksToClean_NoDup live seen pending : NoDup (blocksToClean live seen pending).
Proof.
  revert seen. induction pending as [|y r IH]; intros seen; cbn [blocksToClean]; [constructor|].
  repeat case_bool_decide; [apply IH..|]. constructor; [|apply IH].
  rewrite blocksToClean_spec. intros (_ & _ & Hn). apply Hn. by left.
Qed.

Section prune.
Context {node : Node} {DB : Type} `{LevelDbLaws DB}.
Implicit Types (s : store DB) (d : DB).

Definition prune_writes d (bh : bytes) : list write :=
  (flat_map gDel (scan d P_OUT_DEL bh) ++ flat_map gDel (scan d P_HINT_DEL bh))
  ++ [(enc (KStoredBlk bh), None)]
  ++ flat_map gDel (scan d P_OUT_BLK bh)
  ++ flat_map gDel (scan d P_BLK_SCRIPT bh)
  ++ flat_map gDel (scan d P_TX_BLOCK_RECOVERY bh).

Lemma run_prune_restore s bh :
  in_batch s -> deletedTransactionArray s = Some ∅ ->
  processDeletedOutputs bh false s
  = (Ok tt, stage (flat_map gDel (scan (disk s) P_OUT_DEL (h2b bh))
                   ++ flat_map gDel (scan (disk s) P_HINT_DEL (h2b bh))) s).
Proof.
  intros Hb Hd.
  assert (E : forall hints s', in_batch s' -> processDeletedOutputsInDb bh false hints s'
    = (Ok tt, stage (flat_map gDel (scan (disk s') (if hints then P_HINT_DEL else P_OUT_DEL) (h2b bh))) s')).
  { intros hints s' Hb'. unfold processDeletedOutputsInDb. step_stage (run_dbScan s' _).
    apply run_forM_stage; [done|]. intros [k v] s'' _ Hs'' _. cbn [when].
    rewrite (run_bind_ok _ _ s'' tt s'') by done. by step_stage (run_del s'' k Hs''). }
  unfold processDeletedOutputs.
  rewrite (run_bind_ok _ _ s s s) by done. rewrite Hd, lookup_empty.
  rewrite (run_bind_ok _ _ s tt s) by done.
  rewrite (run_bind_ok _ _ _ _ _ (E false s Hb)).
  rewrite E by by apply in_batch_stage. by rewrite disk_stage, stage_app.
Qed.

(** The operations of [pruneAgedBlockRecords] on the store. *)
Definition pruneRecords (bh : string) : M (store DB) unit :=
  _ ← processDeletedOutputs bh false;
  _ ← removeLastStoredBlock bh;
  _ ← removeCreatedOutputsBlockIndexOnly bh;
  _ ← removeOutputScriptsBlockIndexOnly bh;
  removeTxBlockRecoveryIndexOnly bh.

Lemma pruneAgedBlockRecords_on_db bh (t : tracker DB) : pruneAgedBlockRecords bh t = on_db (pruneRecords bh) t.
Proof.
  unfold pruneAgedBlockRecords, pruneRecords, on_db, mbind, M_bind.
  destruct (processDeletedOutputs bh false (db t)) as [[a1|e1] s1]; [|done]. cbn.
  destruct (removeLastStoredBlock bh s1) as [[a2|e2] s2]; [|done]. cbn.
  destruct (removeCreatedOutputsBlockIndexOnly bh s2) as [[a3|e3] s3]; [|done]. cbn.
  destruct (removeOutputScriptsBlockIndexOnly bh s3) as [[a4|e4] s4]; [|done]. cbn.
  by destruct (removeTxBlockRecoveryIndexOnly bh s4).
Qed.

Lemma scan_prefix d p bh k v :
  db_wf d -> (k, v) ∈ scan d p bh ->
  exists k', k = enc k' /\ wf_key k' /\ dk d k' = Some v /\ pb p ++ bh `prefix_of` enc k'.
Proof. intros Hd (k' & -> & ? & _ & ? & ?)%elem_of_scan; [|done]. by exists k'. Qed.

(** Deleting a scan of one record kind. *)
Lemma gDel_rel d p bh (Q : key -> Prop) :
  db_wf d -> (forall k, wf_key k -> (pb p ++ bh `prefix_of` enc k <-> Q k)) ->
  writes_rel (flat_map gDel (scan d p bh)) (fun k o => o = None /\ Q k /\ is_Some (dk d k)).
Proof.
  intros Hd HQ. apply writes_rel_scan; [done|..].
  - intros k v Hk _ Hg Hp b o [= -> ->]%list_elem_of_singleton. exists k. split_and!; [done|done|done|by apply HQ|by eexists].
  - intros k' o Hk' (-> & Hq & [v Hg]). exists k', v. split_and!; [done|done|by apply HQ|by left].
Qed.

Lemma index_prefix d bh :
  db_wf d -> hash32 bh ->
  writes_rel (prune_writes d bh)
    (fun k o => o = None /\ index_of k = Some bh /\ (is_Some (dk d k) \/ k = KStoredBlk bh)).
Proof.
  intros Hd Hbh b o. unfold prune_writes. rewrite !elem_of_app.
  pose proof (gDel_rel d P_OUT_DEL bh (fun k => exists sh t i, k = KOutDel bh sh t i) Hd) as HK.
  pose proof (gDel_rel d P_HINT_DEL bh (fun k => exists t i, k = KHintDel bh t i) Hd) as HM.
  pose proof (gDel_rel d P_OUT_BLK bh (fun k => exists t i, k = KOutBlk bh t i) Hd) as HW.
  pose proof (gDel_rel d P_BLK_SCRIPT bh (fun k => exists sh, k = KBlkScript bh sh) Hd) as HZ.
  pose proof (gDel_rel d P_TX_BLOCK_RECOVERY bh (fun k => exists t, k = KTxBlockRecovery bh t) Hd) as HY.
  rewrite (HK ltac:(intros k Hk; split; [by apply prefix_out_del|];
    intros (sh & t & i & ->); by exists (sh ++ t ++ be 4 i)) b o).
  rewrite (HM ltac:(intros k Hk; split; [by apply prefix_hint_del|];
    intros (t & i & ->); by exists (t ++ be 4 i)) b o).
  rewrite (HW ltac:(intros k Hk; split; [by apply prefix_out_blk|];
    intros (t & i & ->); by exists (t ++ be 4 i)) b o).
  rewrite (HZ ltac:(intros k Hk; split; [by apply prefix_blk_script|];
    intros (sh & ->); by exists sh) b o).
  rewrite (HY ltac:(intros k Hk; split; [by apply prefix_tx_recovery|];
    intros (t & ->); by exists t) b o).
  clear HK HM HW HZ HY.
  rewrite list_elem_of_singleton. split.
  - intros [[(k & -> & Hk & -> & (?&?&?&->) & Hs)|(k & -> & Hk & -> & (?&?&->) & Hs)]
      |[[= -> ->]|[(k & -> & Hk & -> & (?&?&->) & Hs)|[(k & -> & Hk & -> & (?&->) & Hs)
        |(k & -> & Hk & -> & (?&->) & Hs)]]]];
      try (eexists; split_and!; [reflexivity|done|done|done|by left]).
    exists (KStoredBlk bh). split_and!; try done. by right.
  - intros (k & -> & Hk & -> & Hi & Hs).
    destruct k; try discriminate Hi; injection Hi as ->.
    1,2,3,5,6: destruct Hs as [Hs|Hs]; [|discriminate Hs].
    + right; right; right; left. exists (KBlkScript bh sh). eauto 10.
    + left; left. exists (KOutDel bh sh t i). eauto 10.
    + left; right. exists (KHintDel bh t i). eauto 10.
    + right; right; left. exists (KOutBlk bh t i). eauto 10.
    + right; right; right; right. exists (KTxBlockRecovery bh t). eauto 10.
    + right; left. done.
Qed.

Lemma run_pruneRecords s bh :
  in_batch s -> deletedTransactionArray s = Some ∅ -> is_hash bh ->
  staged s (enc (KStoredBlk (h2b bh))) = None -> db_wf (disk s) ->
  pruneRecords bh s = (Ok tt, stage (prune_writes (disk s) (h2b bh)) s).
Proof.
  intros Hb Hdt Hbh Hst Hd. pose proof (h2b_hash32 _ Hbh) as Hb32. unfold pruneRecords, prune_writes.
  rewrite (run_bind_ok _ _ _ _ _ (run_prune_restore s bh Hb Hdt)). set (w1 := _ ++ flat_map gDel (scan (disk s) P_HINT_DEL _)).
  set (s1 := stage w1 s). assert (Hb1 : in_batch s1) by by apply in_batch_stage.
  assert (Hd1 : disk s1 = disk s) by apply disk_stage.
  assert (Hst1 : staged s1 (enc (KStoredBlk (h2b bh))) = None).
  { unfold s1. rewrite staged_stage by done. rewrite last_write_none; [done|].
    intros ([x o] & E & Hin)%list_elem_of_fmap. cbn in E. subst x. unfold w1 in Hin.
    rewrite elem_of_app, !elem_of_flat_map in Hin.
    destruct Hin as [([k v] & (k' & -> & Hk' & _ & Hp)%scan_prefix & [E _]%list_elem_of_singleton%(inj2 pair))
      |([k v] & (k' & -> & Hk' & _ & Hp)%scan_prefix & [E _]%list_elem_of_singleton%(inj2 pair))]; try done.
    - apply prefix_out_del in Hp as (? & ? & ? & ->); [|done..]. discriminate E.
    - apply prefix_hint_del in Hp as (? & ? & ->); [|done..]. discriminate E. }
  rewrite (run_bind_ok _ _ _ _ _ (run_removeLastStoredBlock s1 bh Hb1 Hbh Hst1)).
  set (s2 := stage _ s1). assert (Hb2 : in_batch s2) by by apply in_batch_stage.
  assert (Hd2 : disk s2 = disk s) by (unfold s2; by rewrite disk_stage).
  unfold removeCreatedOutputsBlockIndexOnly, removeOutputScriptsBlockIndexOnly.
  rewrite (run_bind_ok _ _ _ _ _ (run_deleteScan s2 P_OUT_BLK bh Hb2)). rewrite Hd2.
  set (s3 := stage _ s2). assert (Hb3 : in_batch s3) by by apply in_batch_stage.
  assert (Hd3 : disk s3 = disk s) by (unfold s3; by rewrite disk_stage).
  rewrite (run_bind_ok _ _ _ _ _ (run_deleteScan s3 P_BLK_SCRIPT bh Hb3)). rewrite Hd3.
  set (s4 := stage _ s3). assert (Hb4 : in_batch s4) by by apply in_batch_stage.
  rewrite run_removeTxBlockRecoveryIndexOnly by done.
  assert (Hd4 : disk s4 = disk s) by (unfold s4; by rewrite disk_stage). rewrite Hd4.
  unfold s4, s3, s2, s1. by rewrite <- !stage_app.
Qed.

Definition prune_all d (l : list string) : list write :=
  flat_map (fun bh => prune_writes d (h2b bh)) l.

Lemma run_pruneAll l s :
  in_batch s -> deletedTransactionArray s = Some ∅ -> db_wf (disk s) ->
  NoDup l -> (forall x, x ∈ l -> is_hash x /\ staged s (enc (KStoredBlk (h2b x))) = None) ->
  forM l pruneRecords s = (Ok tt, stage (prune_all (disk s) l) s).
Proof.
  revert s. induction l as [|x l IH]; intros s Hb Hdt Hd Hnd Hl; cbn [forM].
  - unfold prune_all. cbn [flat_map]. by rewrite stage_nil.
  - apply NoDup_cons in Hnd as [Hx Hnd]. destruct (Hl x) as [Hxh Hst]; [by left|].
    rewrite (run_bind_ok _ _ _ _ _ (run_pruneRecords s x Hb Hdt Hxh Hst Hd)).
    rewrite IH.
    + unfold prune_all. cbn [flat_map]. by rewrite stage_app, disk_stage.
    + by apply in_batch_stage.
    + by rewrite dtx_stage.
    + by rewrite disk_stage.
    + done.
    + intros y Hy. destruct (Hl y) as [Hyh Hsty]; [by right|]. split; [done|].
      rewrite staged_stage by done. rewrite last_write_none; [done|].
      intros ([b o] & E & Hin)%list_elem_of_fmap. cbn in E. subst b.
      apply (index_prefix _ _ Hd (h2b_hash32 x Hxh)) in Hin as (k & E & Hk & _ & Hi & _).
      apply (enc_inj (KStoredBlk (h2b y))) in E as <-; [|by apply h2b_hash32|done].
      injection Hi as Hi%h2b_inj; [|done..]. by subst.
Qed.

Lemma prune_all_rel d l :
  db_wf d -> (forall x, x ∈ l -> is_hash x) ->
  writes_rel (prune_all d l)
    (fun k o => o = None /\ exists x, x ∈ l /\ index_of k = Some (h2b x)
                /\ (is_Some (dk d k) \/ k = KStoredBlk (h2b x))).
Proof.
  intros Hd Hl b o. unfold prune_all. rewrite elem_of_flat_map. split.
  - intros (x & Hx & (k & -> & Hk & -> & Hi & Hs)%(index_prefix _ _ Hd (h2b_hash32 x (Hl x Hx)))).
    exists k. eauto 10.
  - intros (k & -> & Hk & -> & x & Hx & Hi & Hs). exists x. split; [done|].
    apply (index_prefix _ _ Hd (h2b_hash32 x (Hl x Hx))). eauto 10.
Qed.

(** The records once the blocks [A] are pruned. *)
Definition pruned (A : list bytes) (V : key -> option bytes) (k : key) : option bytes :=
  match index_of k with
  | Some bh => if decide (bh ∈ A) then None else V k
  | None => V k
  end.

Lemma last_write_prune d l k :
  db_wf d -> (forall x, x ∈ l -> is_hash x) -> wf_key k ->
  default (dk d k) (last_write (prune_all d l) (enc k)) = pruned (h2b <$> l) (dk d) k.
Proof.
  intros Hd Hl Hk. pose proof (prune_all_rel d l Hd Hl) as HR. unfold pruned.
  destruct (last_write (prune_all d l) (enc k)) as [o|] eqn:E.
  - apply last_write_in, HR in E as (k' & E & Hk' & -> & x & Hx & Hi & _).
    apply enc_inj in E as <-; [|done..]. rewrite Hi, decide_True; [done|].
    apply list_elem_of_fmap. by exists x.
  - cbn [default]. destruct (index_of k) as [bh|] eqn:Hi; [|done].
    case_decide as Hin; [|done]. apply list_elem_of_fmap in Hin as (x & -> & Hx).
    destruct (dk d k) as [v|] eqn:Hv; [|done]. exfalso.
    assert (Hw : (enc k, None) ∈ prune_all d l).
    { apply HR. exists k. split_and!; [done|done|done|]. exists x. split_and!; [done|done|]. left. by eexists. }
    rewrite (last_write_uniform _ _ None Hw) in E; [done|].
    intros o' (k' & _ & _ & -> & _)%HR. done.
Qed.

Lemma on_db_bind {A B} (m : M (store DB) A) (f : A -> M (store DB) B) (t : tracker DB) :
  on_db (a ← m; f a) t = (a ← on_db m; on_db (f a)) t.
Proof. unfold on_db, mbind, M_bind. by destruct (m (db t)) as [[a|e] s]. Qed.

Lemma forM_on_db {A} (l : list A) (f : A -> M (tracker DB) unit) (g : A -> M (store DB) unit) (t : tracker DB) :
  (forall x t', f x t' = on_db (g x) t') -> forM l f t = on_db (forM l g) t.
Proof.
  intros Hf. revert t. induction l as [|x l IH]; intros t; cbn [forM].
  - by destruct t.
  - rewrite on_db_bind. unfold mbind, M_bind. rewrite Hf.
    destruct (on_db (g x) t) as [[a|e] t']; [apply IH|done].
Qed.

(** ** The cleanup *)

Lemma run_cleanupAgedBlocks (t : tracker DB) :
  let w := win t in
  let A := blocksToClean (lastBlocks w) [] (pendingKMCleanup w) in
  pendingKMCleanup w <> [] -> (forall x, x ∈ pendingKMCleanup w -> is_hash x) ->
  db_wf (disk (db t)) -> commit_ok (db t) ->
  exists s', cleanupAgedBlocks t = (Ok tt, set_win (set_pending [] w) (set_db s' t))
    /\ (forall k, wf_key k ->
         dk (disk s') k = if decide (k = KMeta PENDING_CLEANUP) then None
                          else pruned (h2b <$> A) (dk (disk (db t))) k)
    /\ db_wf (disk s')
    /\ transactionArray s' = None /\ deletedTransactionArray s' = None
    /\ outputCache s' = outputCache (db t) /\ knownScripts s' = knownScripts (db t)
    /\ faults s' = tail (faults (db t)).
Proof.
  intros w A Hne Hh Hd Hc.
  assert (HA : forall x, x ∈ A -> is_hash x) by (intros x (? & _ & _)%blocksToClean_spec; auto).
  unfold cleanupAgedBlocks. rewrite (run_bind_ok _ _ t w t) by done.
  rewrite bool_decide_eq_false_2 by (destruct (pendingKMCleanup w); done). fold A.
  set (s0 := opened (db t)). assert (Hb0 : in_batch s0) by apply in_batch_begin.
  rewrite (run_bind_ok _ _ t tt (set_db s0 t)) by done.
  assert (E1 : forM A pruneRecords s0 = (Ok tt, stage (prune_all (disk s0) A) s0)).
  { apply run_pruneAll; [done|done|done|apply blocksToClean_NoDup|].
    intros x Hx. split; [by apply HA|apply staged_opened]. }
  rewrite (run_bind_ok _ _ _ _ _ (eq_trans (forM_on_db A _ _ _ pruneAgedBlockRecords_on_db)
    (run_on_db_ok _ (set_db s0 t) _ _ E1))).
  change (disk s0) with (disk (db t)). set (s1 := stage _ s0).
  assert (Hb1 : in_batch s1) by by apply in_batch_stage.
  rewrite (run_bind_ok _ _ _ _ _ (run_on_db_ok _ (set_db s1 (set_db s0 t)) _ _
    (run_del s1 P_PENDING_CLEANUP_KEY Hb1))).
  set (s2 := stage _ s1). assert (Hb2 : in_batch s2) by by apply in_batch_stage.
  assert (Ef : faults s2 = faults (db t)) by (unfold s2, s1; by rewrite !faults_stage).
  assert (Hc2 : commit_ok s2) by (unfold commit_ok; by rewrite Ef).
  destruct (run_endTransaction_commit s2 Hb2 Hc2) as (s' & E & Hv & Htx & Hdt & Hca & Hkn & Hf).
  rewrite (run_bind_ok _ _ _ _ _ (run_on_db_ok _ (set_db s2 (set_db s1 (set_db s0 t))) _ _ E)).
  exists s'. split_and!; [done| | |done|done| | |].
  - intros k Hk. unfold dk at 1. rewrite Hv. unfold s2. rewrite view_stage by done.
    cbn [last_write]. destruct (decide (k = KMeta PENDING_CLEANUP)) as [->|Hn].
    + by rewrite decide_True.
    + rewrite decide_False by (intros Ek; apply Hn; by apply (enc_inj (KMeta PENDING_CLEANUP)) in Ek).
      cbn [default]. unfold s1. rewrite view_stage by done.
      by rewrite <- last_write_prune by done.
  - intros b v. rewrite Hv. apply view_ok_stage; [done| |].
    + apply view_ok_stage; [done| |].
      * intros b' v'. unfold s0, opened. rewrite view_begin. apply Hd.
      * intros b' v' (k & _ & _ & [= ] & _)%(prune_all_rel _ _ Hd HA).
    + intros b' v' [= ]%list_elem_of_singleton.
  - rewrite Hca. unfold s2, s1. by rewrite !cache_stage.
  - rewrite Hkn. unfold s2, s1. by rewrite !known_stage.
  - by rewrite Hf, Ef.
Qed.
End prune.

(** * Rollbacks the database refuses *)

Section refusal.
Context {node : Node} {rpcs : NodeRpc} {DB : Type} `{LevelDbLaws DB}.
Implicit Types (s : store DB) (t : tracker DB).

(** An operation that changes at most the window. *)
Definition only_window {A} (m : M (tracker DB) A) : Prop := forall t, exists r w, m t = (r, set_win w t).

(** A store operation that only reads. *)
Definition reads {A} (m : M (store DB) A) : Prop := forall s, exists r, m s = (r, s).

Lemma set_win_twice w w' t : set_win w' (set_win w t) = set_win w' t.
Proof. done. Qed.

Lemma set_win_id t : set_win (win t) t = t.
Proof. by destruct t. Qed.

Lemma only_window_on_db {A} (m : M (store DB) A) : reads m -> only_window (on_db m).
Proof.
  intros Hm t. destruct (Hm (db t)) as [r E]. exists r, (win t).
  unfold on_db. rewrite E, set_win_id. by destruct t.
Qed.

Lemma only_window_ret {A} (a : A) : only_window (mret a).
Proof. intros t. exists (Ok a), (win t). by rewrite set_win_id. Qed.

Lemma only_window_bind {A B} (m : M (tracker DB) A) (f : A -> M (tracker DB) B) :
  only_window m -> (forall a, only_window (f a)) -> only_window (m ≫= f).
Proof.
  intros Hm Hf t. unfold mbind, M_bind. destruct (Hm t) as ([a|e] & w & ->); [|by eexists _, w].
  destruct (Hf a (set_win w t)) as (r & w' & ->). by exists r, w'.
Qed.

Lemma only_window_mapM {A B} (l : list A) (f : A -> M (tracker DB) B) :
  (forall a, only_window (f a)) -> only_window (mapM_list l f).
Proof.
  intros Hf. induction l as [|x l IH]; [apply only_window_ret|]. cbn [mapM_list].
  apply only_window_bind; [done|]. intros b. apply only_window_bind; [done|]. intros bs. apply only_window_ret.
Qed.

Lemma reads_getBlock h : reads (getBlock h).
Proof.
  intros s. unfold getBlock, mbind, M_bind, lift_res, dbGet, gets. destruct (kBlock h) as [k|e]; [|by eexists].
  destruct (db_get (disk s) k) as [v|]; [|by eexists]. destruct (decodeBlock v); by eexists.
Qed.

Lemma reads_stored : reads getLastStoredBlocks.
Proof. intros s. by eexists. Qed.

Lemma only_window_reload : only_window reloadLastBlocks.
Proof.
  unfold reloadLastBlocks, loadLastBlocksSortedByHeight. apply only_window_bind.
  - apply only_window_bind; [apply only_window_on_db, reads_stored|]. intros hs.
    apply only_window_bind; [|intros ?; apply only_window_ret].
    apply only_window_mapM. intros h. unfold heightOf.
    apply only_window_bind; [apply only_window_on_db, reads_getBlock|]. intros ?. apply only_window_ret.
  - intros l t. by eexists _, _.
Qed.

Lemma run_swallow_reload t : exists w, swallow reloadLastBlocks t = (Ok tt, set_win w t).
Proof.
  unfold swallow, try_catch, mbind, M_bind. destruct (only_window_reload t) as ([a|e] & w & ->); by exists w.
Qed.

(** The rollback of a tip whose batch the database refuses. *)
Lemma run_rollBackTipBlock_refused t bhs l lb retry fs :
  is_hash bhs -> db_wf (disk (db t)) -> lastBlocks (win t) = l ++ [bhs] -> bhs ∉ l ->
  faults (db t) = true :: fs ->
  exists t', rollBackTipBlock bhs lb retry t
      = (if bool_decide (10 <= retry + 1)
         then Err (Error (EMsg "deleteBlockByIndex failed after 10 attempts")) else Ok false, t')
    /\ disk (db t') = disk (db t) /\ transactionArray (db t') = None /\ faults (db t') = fs.
Proof.
  intros Hbh Hd Hl Hn Hf.
  destruct (run_rollBackBatch_refused t bhs l lb fs Hbh Hd Hl Hn Hf) as (s' & E & Hdk & Hfs).
  unfold rollBackTipBlock. unfold try_catch at 1. rewrite (run_bind_err _ _ _ _ _ E).
  set (t1 := set_db s' _). set (s2 := set_dtx None (set_tx None (set_known ∅ s'))).
  rewrite (run_bind_ok _ _ t1 tt (set_db s2 t1)) by done. cbn [e_unrecoverableReorg Error].
  destruct (run_swallow_reload (set_db s2 t1)) as [w Ew]. rewrite (run_bind_ok _ _ _ _ _ Ew).
  case_bool_decide; eexists; by split_and!.
Qed.
End refusal.
