(* ===== verification/Chain.v ===== *)
(** A chain of committed blocks and the reorg walk over it.  [chain_records] are the
    records after a list of blocks, [holds] says that a disk has them with the tip
    pointers on the last block; the walk of [verifyReorg] takes the disk from a chain
    back to the fork point it shares with the node. *)

From S2P Require Import Prelude KeyCodec ValueCodec LevelDb Store Outputs StoreFacts.
From S2P Require Import Rollback Parsing Apply Spend Block Roundtrip Tracker Window Reorg Batch Undo.

#[local] Open Scope string_scope.
#[local] Open Scope nat_scope.
#[local] Open Scope list_scope.

(** * Chains of blocks *)

Definition records : Type := key -> option bytes.

Section chain.
Context {node : Node}.

Definition chain_records (V : records) (bs : list block_data) : records :=
  foldl (fun V b => committed b V) V bs.

(** Each block is new to the records the blocks before it leave. *)
Inductive chain_ok (V : records) : list block_data -> Prop :=
  | chain_nil : chain_ok V []
  | chain_snoc bs b :
      chain_ok V bs -> block_wf b -> fresh_in (chain_records V bs) b ->
      hints_ok (chain_records V bs) -> chain_ok V (bs ++ [b]).

(** Heights are consecutive and each block names its parent. *)
Fixpoint linked (hash : string) (h : Z) (bs : list block_data) : Prop :=
  match bs with
  | [] => True
  | b :: r => bd_prev b = hash /\ bd_height b = (h + 1)%Z /\ linked (bd_hash b) (bd_height b) r
  end.

Definition tip_hash (hash : string) (bs : list block_data) : string :=
  match last bs with Some b => bd_hash b | None => hash end.

Definition tip_height (h : Z) (bs : list block_data) : Z := (h + Z.of_nat (length bs))%Z.

Lemma chain_records_snoc V bs b : chain_records V (bs ++ [b]) = committed b (chain_records V bs).
Proof. unfold chain_records. by rewrite foldl_snoc. Qed.

Lemma tip_hash_snoc hash bs b : tip_hash hash (bs ++ [b]) = bd_hash b.
Proof. unfold tip_hash. by rewrite last_snoc. Qed.

Lemma tip_height_snoc h bs b : tip_height h (bs ++ [b]) = (tip_height h bs + 1)%Z.
Proof. unfold tip_height. rewrite length_app. cbn. lia. Qed.

Lemma linked_snoc hash h bs b :
  linked hash h (bs ++ [b]) <->
  linked hash h bs /\ bd_prev b = tip_hash hash bs /\ bd_height b = (tip_height h bs + 1)%Z.
Proof.
  revert hash h. induction bs as [|c bs IH]; intros hash h; cbn [linked app].
  - unfold tip_hash, tip_height. cbn. rewrite Z.add_0_r. tauto.
  - rewrite IH. unfold tip_hash, tip_height. cbn [length].
    assert (E : last (c :: bs) = match last bs with Some x => Some x | None => Some c end)
      by (by rewrite last_cons).
    rewrite E. split.
    + intros (? & E2 & ? & ? & ?). rewrite E2 in *. destruct (last bs); split_and!; try done; lia.
    + intros ((? & E2 & ?) & ? & ?). rewrite E2 in *. destruct (last bs); split_and!; try done; lia.
Qed.

Lemma linked_height hash h bs b : linked hash h bs -> b ∈ bs -> (h < bd_height b <= tip_height h bs)%Z.
Proof.
  revert hash h. induction bs as [|c bs IH]; intros hash h Hl Hin; [by apply elem_of_nil in Hin|].
  destruct Hl as (_ & E & Hl). unfold tip_height in *. cbn [length].
  apply elem_of_cons in Hin as [->|Hin]; [lia|].
  specialize (IH _ _ Hl Hin). lia.
Qed.
End chain.

(** * A disk that holds a chain *)

Section holds.
Context {node : Node} {rpcs : NodeRpc} {DB : Type} `{LevelDbLaws DB}.
Implicit Types (s : store DB) (t : tracker DB) (d : DB) (V : records).

Record holds d V (hash : string) (h : Z) : Prop := {
  hd_wf : db_wf d;
  hd_records : forall k, wf_key k -> is_meta k = false -> dk d k = V k;
  hd_hash : dk d (KMeta LAST_BLOCK_HASH) = Some (from_latin1 hash);
  hd_height : dk d (KMeta LAST_BLOCK_HEIGHT) = Some (from_latin1 (to_radix 16 h));
}.

Lemma run_getLastBlockHeight s V hash h :
  holds (disk s) V hash h -> getLastBlockHeight s = (Ok (Some h), s).
Proof.
  intros Hd. unfold getLastBlockHeight.
  rewrite (run_bind_ok _ _ s (Some (from_latin1 (to_radix 16 h))) s)
    by (unfold dbGet, gets; by rewrite <- (hd_height _ _ _ _ Hd)).
  rewrite to_from_latin1, parseInt_to_radix by lia. done.
Qed.

Lemma run_getLastBlockHash s V hash h :
  holds (disk s) V hash h -> getLastBlockHash s = (Ok (Some hash), s).
Proof.
  intros Hd. unfold getLastBlockHash.
  rewrite (run_bind_ok _ _ s (Some (from_latin1 hash)) s)
    by (unfold dbGet, gets; by rewrite <- (hd_hash _ _ _ _ Hd)).
  cbn. by rewrite to_from_latin1.
Qed.

Lemma run_getBlock s hash h tm ph :
  is_hash hash -> u32 h -> u32 tm -> is_hash ph ->
  dk (disk s) (KBlock (h2b hash)) = Some (block_val h tm (h2b ph)) ->
  getBlock hash s = (Ok (Some (mkBlockRec h tm ph)), s).
Proof.
  intros Hh Hhh Htm Hph Hd. unfold getBlock. rewrite kBlock_ok by done.
  step_stage (run_lift s (Ok (enc (KBlock (h2b hash))))).
  rewrite (run_bind_ok _ _ s (Some (block_val h tm (h2b ph))) s)
    by (unfold dbGet, gets; unfold dk in Hd; by rewrite Hd).
  rewrite decodeBlock_val by (try done; by apply h2b_hash32). by rewrite b2h_h2b.
Qed.

(** ** One block back *)

Lemma undone_holds d d' V b :
  block_wf b -> fresh_in V b -> hints_ok V ->
  holds d (committed b V) (bd_hash b) (bd_height b) ->
  undone d d' (h2b (bd_hash b)) (bd_prev b) (bd_height b - 1) -> db_wf d' ->
  holds d' V (bd_prev b) (bd_height b - 1).
Proof.
  intros Hb Hfr Hh [Hw Hr _ _] Hu Hw'. split; [done| |by rewrite Hu|by rewrite Hu].
  intros k Hk Hm. rewrite Hu by done.
  assert (E : rolled d (h2b (bd_hash b)) k = V k) by by apply rolled_committed.
  by destruct k.
Qed.

(** The block on top of the records [V]. *)
Record on_top t V b (l : list string) : Prop := {
  ot_wf : block_wf b;
  ot_fresh : fresh_in V b;
  ot_hints : hints_ok V;
  ot_holds : holds (disk (db t)) (committed b V) (bd_hash b) (bd_height b);
  ot_commit : commit_ok (db t);
  ot_window : lastBlocks (win t) = l ++ [bd_hash b];
  ot_new : bd_hash b ∉ l;
}.

Definition rec_of b : block_rec := mkBlockRec (bd_height b) (bd_time b) (bd_prev b).

Lemma run_rollBackTipBlock t V b l retry :
  on_top t V b l ->
  exists s', rollBackTipBlock (bd_hash b) (rec_of b) retry t
      = (Ok true, set_db s' (set_win (set_lastBlocks l (win t)) t))
    /\ holds (disk s') V (bd_prev b) (bd_height b - 1)
    /\ faults s' = tail (faults (db t)).
Proof.
  intros [Hb Hfr Hh Hd Hc Hl Hn].
  destruct (run_rollBackBatch t (bd_hash b) l (rec_of b)) as (s' & E & Hu & Hw & _ & _ & _ & _ & Hf).
  { split; try done; [apply (bk_hash _ Hb)|apply Hd]. }
  exists s'. split_and!; [|by eapply undone_holds|done].
  unfold rollBackTipBlock, try_catch. by rewrite (run_bind_ok _ _ _ _ _ E).
Qed.
End holds.

(** * The walk *)

Section walk.
Context {node : Node} {rpcs : NodeRpc} {DB : Type} `{LevelDbLaws DB}.
Implicit Types (s : store DB) (t : tracker DB) (d : DB) (V : records).

(** The node's chain over a span of heights. *)
Definition node_serves (node_hash : Z -> string) (lo hi : Z) : Prop :=
  forall n h, (lo <= h <= hi)%Z -> rpc_getBlockHash n h = Ok (node_hash h).

(** The node's answer at a height, when the walk asks for it: none above its tip. *)
Definition disagrees (node_hash : Z -> string) (tip : option Z) (h : Z) (hash : string) : Prop :=
  above (Some h) tip = true \/ node_hash h <> hash.

(** The tracker a walk leaves: its store, window, call count and rollback counter
    have moved. *)
Definition walked t s' (l : list string) (n : nat) (calls' : nat) : tracker DB :=
  set_stat (set_rollbacks (reorgRollbacksThisProcess (stat t) + Z.of_nat n) (stat t))
    (set_calls calls' (set_db s' (set_win (set_lastBlocks l (win t)) t))).

Lemma walked_walked t s1 l1 n1 c1 s2 l2 n2 c2 :
  walked (walked t s1 l1 n1 c1) s2 l2 n2 c2 = walked t s2 l2 (n1 + n2) c2.
Proof.
  unfold walked. destruct t as [? ? [] [] ? ?]. cbn. unfold set_stat, set_calls, set_win, set_db, set_rollbacks.
  cbn. do 2 f_equal. lia.
Qed.

Lemma run_read_tip s V hash h tm ph :
  is_hash hash -> u32 h -> u32 tm -> is_hash ph -> holds (disk s) V hash h ->
  V (KBlock (h2b hash)) = Some (block_val h tm (h2b ph)) ->
  getLastBlockHeight s = (Ok (Some h), s) /\ getLastBlockHash s = (Ok (Some hash), s)
  /\ getBlock hash s = (Ok (Some (mkBlockRec h tm ph)), s).
Proof.
  intros Hh Hhh Htm Hph Hd HV. split_and!.
  - by eapply run_getLastBlockHeight.
  - by eapply run_getLastBlockHash.
  - apply run_getBlock; try done. rewrite (hd_records _ _ _ _ Hd); [done|by apply h2b_hash32|done].
Qed.

Lemma committed_block V b : committed b V (KBlock (h2b (bd_hash b))) = Some (block_record b).
Proof. cbn [committed]. by rewrite decide_True. Qed.

Context (node_hash : Z -> string) (u : undo_window).

(** One turn on a block the node does not have rolls it back. *)
Lemma run_walkStep_back t V b l n retry tip :
  on_top t V b l ->
  node_serves node_hash (bd_height b) (bd_height b) ->
  disagrees node_hash tip (bd_height b) (bd_hash b) ->
  (Z.of_nat n < budget u)%Z -> windowAtEntry u <> 0%Z ->
  (forall x, tip = Some x -> (x < bd_height b)%Z -> (Z.of_nat n + (bd_height b - x) <= budget u)%Z) ->
  exists s' c, walkStep u n retry tip t = (Ok (Some (S n, 0, tip)), walked t s' l 1 c)
    /\ holds (disk s') V (bd_prev b) (bd_height b - 1)
    /\ faults s' = tail (faults (db t)).
Proof.
  intros Ht Hsv Hdis Hn Hw Htip. pose proof (ot_wf _ _ _ _ Ht) as Hb.
  destruct (run_read_tip (db t) (committed b V) (bd_hash b) (bd_height b) (bd_time b) (bd_prev b))
    as (Eh & Ehash & Eblk); [apply Hb|apply height_ok_u32, Hb|apply Hb|apply Hb|apply Ht
    |by rewrite committed_block|].
  assert (Edb : set_db (db t) t = t) by by destruct t.
  assert (Hrefuse : (budget u <= Z.of_nat n)%Z \/ windowAtEntry u = 0%Z -> False) by (intros []; lia).
  unfold walkStep.
  rewrite (run_bind_ok _ _ _ _ _ (run_on_db_ok _ t _ _ Eh)), Edb.
  rewrite (run_bind_ok _ _ _ _ _ (run_on_db_ok _ t _ _ Ehash)), Edb. cbn [default].
  rewrite (run_bind_ok _ _ _ _ _ (run_on_db_ok _ t _ _ Eblk)), Edb. cbn [b_h].
  rewrite bool_decide_eq_true_2 by done.
  set (a := above (Some (bd_height b)) tip).
  rewrite (run_bind_ok _ _ t tt t).
  2:{ unfold refuseAboveTipWalkPastBudget, a, above. destruct tip as [x|]; [|done].
      cbn [default]. case_bool_decide as Hx; [|done]. rewrite bool_decide_eq_false_2; [done|].
      specialize (Htip x eq_refl Hx). unfold id. lia. }
  assert (Hnode : exists c r, (if a then mret (inr None)
      else r ← nodeBlockHashOrRetry (bd_height b) tip;
           mret (match r with inl tip => inl tip | inr h => inr (Some h) end)) t
      = (Ok (inr r), set_calls c t)
      /\ a || negb (bool_decide (Some (bd_hash b) = r)) = true).
  { destruct a eqn:Ea.
    - exists (calls t), None. split; [|done]. by destruct t.
    - exists (S (calls t)), (Some (node_hash (bd_height b))). split.
      + unfold nodeBlockHashOrRetry, try_catch, rpc, mbind, M_bind. rewrite Hsv by lia. done.
      + destruct Hdis as [Hd|Hd]; [fold a in Hd; congruence|].
        rewrite bool_decide_eq_false_2; [done|]. congruence. }
  destruct Hnode as (c & r & Er & Hr). rewrite (run_bind_ok _ _ _ _ _ Er). cbv iota beta. rewrite Hr.
  rewrite (run_bind_ok _ _ _ tt (set_calls c t)).
  2:{ unfold refuseRollbackPastWindow. rewrite !bool_decide_eq_false_2 by (tauto || lia). done. }
  assert (Ht' : on_top (set_calls c t) V b l) by by destruct Ht.
  destruct (run_rollBackTipBlock (set_calls c t) V b l retry Ht') as (s' & E & Hd & Hf).
  exists s', c. split_and!; [|done|done].
  change (mkBlockRec (bd_height b) (bd_time b) (bd_prev b)) with (rec_of b).
  rewrite (run_bind_ok _ _ _ _ _ E). cbn [negb].
  unfold recordRolledBackBlock.
  rewrite (run_bind_ok _ _ _ (S n) (walked t s' l 1 c)); [done|].
  unfold modify_stat, modify, mbind, M_bind, mret, M_ret, walked. cbn. done.
Qed.

(** One turn on the block both chains share ends the walk. *)
Lemma run_walkStep_agree t V hash h tm ph n retry tip :
  is_hash hash -> u32 h -> u32 tm -> is_hash ph -> holds (disk (db t)) V hash h ->
  V (KBlock (h2b hash)) = Some (block_val h tm (h2b ph)) ->
  node_serves node_hash h h -> node_hash h = hash -> above (Some h) tip = false ->
  walkStep u n retry tip t = (Ok None, set_calls (S (calls t)) t).
Proof.
  intros Hh Hhh Htm Hph Hd HV Hsv Hnh Ha.
  destruct (run_read_tip (db t) V hash h tm ph) as (Eh & Ehash & Eblk); [done..|].
  assert (Edb : set_db (db t) t = t) by by destruct t.
  unfold walkStep.
  rewrite (run_bind_ok _ _ _ _ _ (run_on_db_ok _ t _ _ Eh)), Edb.
  rewrite (run_bind_ok _ _ _ _ _ (run_on_db_ok _ t _ _ Ehash)), Edb. cbn [default].
  rewrite (run_bind_ok _ _ _ _ _ (run_on_db_ok _ t _ _ Eblk)), Edb. cbn [b_h].
  rewrite bool_decide_eq_true_2 by done. rewrite Ha.
  rewrite (run_bind_ok _ _ t tt t) by done.
  unfold nodeBlockHashOrRetry, try_catch, rpc, mbind, M_bind. rewrite Hsv by lia.
  cbn [mret M_ret]. rewrite Hnh, bool_decide_eq_true_2 by done. done.
Qed.

(** The block both chains share, as the records have it. *)
Record fork_point V (hash : string) (h : Z) : Prop := {
  fp_hash : is_hash hash;
  fp_height : u32 h;
  fp_record : exists tm ph, u32 tm /\ is_hash ph
    /\ V (KBlock (h2b hash)) = Some (block_val h tm (h2b ph));
}.

(** A tracker on top of the chain [bs] over [V0], its window ending with it. *)
Record chain_state t V0 (hash0 : string) (h0 : Z) (l0 : list string) (bs : list block_data) : Prop := {
  cs_chain : chain_ok V0 bs;
  cs_linked : linked hash0 h0 bs;
  cs_holds : holds (disk (db t)) (chain_records V0 bs) (tip_hash hash0 bs) (tip_height h0 bs);
  cs_faults : faults (db t) = [];
  cs_window : lastBlocks (win t) = l0 ++ (bd_hash <$> bs);
  cs_nodup : NoDup (lastBlocks (win t));
}.

(** The node has the fork point and none of the chain's blocks. *)
Record forked (tip : option Z) (hash0 : string) (h0 : Z) (bs : list block_data) : Prop := {
  fk_serves : node_serves node_hash h0 (tip_height h0 bs);
  fk_shared : node_hash h0 = hash0;
  fk_tip : above (Some h0) tip = false;
  fk_differ : forall b, b ∈ bs -> disagrees node_hash tip (bd_height b) (bd_hash b);
}.

Lemma forked_snoc tip hash0 h0 bs b : forked tip hash0 h0 (bs ++ [b]) -> forked tip hash0 h0 bs.
Proof.
  intros [Hs ? ? Hd]. rewrite tip_height_snoc in Hs. split; [|done|done|].
  - intros n h Hh. apply Hs. lia.
  - intros c Hc. apply Hd. apply elem_of_app. by left.
Qed.

Lemma chain_state_top t V0 hash0 h0 l0 bs b :
  chain_state t V0 hash0 h0 l0 (bs ++ [b]) ->
  on_top t (chain_records V0 bs) b (l0 ++ (bd_hash <$> bs))
  /\ bd_prev b = tip_hash hash0 bs /\ bd_height b = (tip_height h0 bs + 1)%Z.
Proof.
  intros [Hc [_ [Hp Hh]]%linked_snoc Hd Hf Hw Hnd].
  rewrite chain_records_snoc, tip_hash_snoc, tip_height_snoc, <- Hh in Hd.
  rewrite Hw, fmap_app, app_assoc in Hnd. apply NoDup_app in Hnd as (_ & Hnd & _).
  inversion Hc as [E|bs' b' Hc' Hb Hfr Hh' E]; [by destruct bs|].
  apply app_inj_tail in E as [-> ->]. split; [|done]. split; try done.
  - unfold commit_ok. by rewrite Hf.
  - by rewrite Hw, fmap_app, app_assoc.
  - intros Hin. apply (Hnd (bd_hash b) Hin). by left.
Qed.

Lemma chain_state_back t V0 hash0 h0 l0 bs b s' c :
  chain_state t V0 hash0 h0 l0 (bs ++ [b]) ->
  holds (disk s') (chain_records V0 bs) (tip_hash hash0 bs) (tip_height h0 bs) ->
  faults s' = [] ->
  chain_state (walked t s' (l0 ++ (bd_hash <$> bs)) 1 c) V0 hash0 h0 l0 bs.
Proof.
  intros [Hc [Hl _]%linked_snoc _ _ Hw Hnd] Hd Hf.
  inversion Hc as [E|bs' b' Hc' _ _ _ E]; [by destruct bs|].
  apply app_inj_tail in E as [-> ->]. split; try done.
  cbn. rewrite Hw, fmap_app, app_assoc in Hnd. by apply NoDup_app in Hnd as (? & _).
Qed.

(** The walk rolls back the blocks the node lacks and stops at the fork point. *)
Lemma run_walkLoop bs : forall t V0 hash0 h0 l0 n retry tip fuel,
  chain_state t V0 hash0 h0 l0 bs -> fork_point V0 hash0 h0 -> forked tip hash0 h0 bs ->
  (Z.of_nat (n + length bs) <= budget u)%Z -> (bs <> [] -> windowAtEntry u <> 0%Z) ->
  length bs < fuel ->
  exists s' c, walkLoop fuel u n retry tip t
      = (Ok (Some (n + length bs)), walked t s' l0 (length bs) c)
    /\ chain_state (walked t s' l0 (length bs) c) V0 hash0 h0 l0 [].
Proof.
  induction bs as [|b bs IH] using rev_ind; intros t V0 hash0 h0 l0 n retry tip fuel Ht Hfp Hfk Hbud Hwin Hfuel.
  - destruct fuel as [|fuel]; [cbn in Hfuel; lia|]. cbn [walkLoop].
    destruct Hfp as [Hh Hhh (tm & ph & Htm & Hph & HV)]. destruct Ht as [Hc Hl Hd Hf Hw Hnd].
    unfold tip_height in Hd. cbn in Hd. rewrite Z.add_0_r in Hd.
    assert (E : walkStep u n retry tip t = (Ok None, set_calls (S (calls t)) t)).
    { apply (run_walkStep_agree t V0 hash0 h0 tm ph n retry tip); try done; [|apply (fk_shared _ _ _ _ Hfk)|apply (fk_tip _ _ _ _ Hfk)].
      intros m h Hmh. apply (fk_serves _ _ _ _ Hfk). unfold tip_height. cbn. lia. }
    rewrite (run_bind_ok _ _ _ _ _ E). cbn in Hw. rewrite app_nil_r in Hw.
    assert (Et : set_calls (S (calls t)) t = walked t (db t) l0 0 (S (calls t))).
    { destruct t as [? ? [] [] ? ?]. cbn in *. subst. unfold walked, set_stat, set_calls, set_win, set_db, set_rollbacks.
      cbn. do 2 f_equal. lia. }
    exists (db t), (S (calls t)). cbn [length]. rewrite <- Et, Nat.add_0_r. split; [done|].
    split; try done; [|cbn; by rewrite app_nil_r].
    unfold tip_height. cbn. by rewrite Z.add_0_r.
  - destruct fuel as [|fuel]; [lia|]. cbn [walkLoop].
    destruct (chain_state_top t V0 hash0 h0 l0 bs b Ht) as (Htop & Hp & Hh).
    rewrite length_app in *. cbn [length] in *.
    pose proof Hfk as [Hsv _ Htip Hdis]. rewrite tip_height_snoc in Hsv.
    assert (Hh0 : (h0 <= tip_height h0 bs)%Z) by (unfold tip_height; lia).
    destruct (run_walkStep_back t (chain_records V0 bs) b (l0 ++ (bd_hash <$> bs)) n retry tip)
      as (s1 & c1 & E1 & Hd1 & Hf1).
    + done.
    + intros m h Hmh. apply Hsv. lia.
    + apply Hdis, elem_of_app. right. by left.
    + lia.
    + apply Hwin. by destruct bs.
    + intros x -> Hx. unfold above in Htip. apply bool_decide_eq_false in Htip.
      unfold tip_height in *. lia.
    + rewrite (run_bind_ok _ _ _ _ _ E1).
      rewrite Hp, Hh in Hd1. replace (tip_height h0 bs + 1 - 1)%Z with (tip_height h0 bs) in Hd1 by lia.
      assert (Hf1' : faults s1 = []) by by rewrite Hf1, (cs_faults _ _ _ _ _ _ Ht).
      pose proof (chain_state_back t V0 hash0 h0 l0 bs b s1 c1 Ht Hd1 Hf1') as Ht1.
      destruct (IH _ V0 hash0 h0 l0 (S n) 0 tip fuel Ht1 Hfp (forked_snoc _ _ _ _ _ Hfk))
        as (s2 & c2 & E2 & Ht2); [lia| |lia|].
      * intros _. apply Hwin. by destruct bs.
      * exists s2, c2. rewrite walked_walked in E2, Ht2.
        replace (n + (length bs + 1)) with (S n + length bs) by lia.
        replace (length bs + 1) with (1 + length bs) by lia. done.
Qed.
End walk.

(** * The whole walk *)

Section verify.
Context {node : Node} {rpcs : NodeRpc} {DB : Type} `{LevelDbLaws DB}.

(** The reorg is counted when there was one. *)
Definition counted (n : nat) (t : tracker DB) : tracker DB :=
  if bool_decide (0 < n) then set_stat (set_reorgs (reorgCount (stat t) + 1) (Z.of_nat n) (stat t)) t else t.

Lemma run_verifyReorg node_hash (t : tracker DB) V0 hash0 h0 l0 bs tip fuel :
  chain_state t V0 hash0 h0 l0 bs -> fork_point V0 hash0 h0 -> forked node_hash tip hash0 h0 bs ->
  (Z.of_nat (length bs) <= undoBlocks (win t))%Z -> length bs < fuel ->
  exists s' c, verifyReorg fuel tip t = (Ok (Some true), counted (length bs) (walked t s' l0 (length bs) c))
    /\ chain_state (walked t s' l0 (length bs) c) V0 hash0 h0 l0 [].
Proof.
  intros Ht Hfp Hfk Hdepth Hfuel. unfold verifyReorg.
  rewrite (run_bind_ok _ _ t t t) by done. cbv zeta.
  assert (Hlen : length (lastBlocks (win t)) = length l0 + length bs)
    by by rewrite (cs_window _ _ _ _ _ _ Ht), length_app, length_fmap.
  destruct (run_walkLoop node_hash (rollbackBudget (win t) (reorgRollbacksThisProcess (stat t)))
    bs t V0 hash0 h0 l0 0 0 tip fuel Ht Hfp Hfk) as (s' & c & E & Ht').
  - unfold rollbackBudget. cbn [budget]. rewrite Hlen. case_bool_decide; lia.
  - intros Hne. unfold rollbackBudget. cbn [windowAtEntry]. rewrite Hlen. destruct bs; [done|cbn; lia].
  - done.
  - exists s', c. split; [|done]. rewrite (run_bind_ok _ _ _ _ _ E). cbv iota beta. cbn [Nat.add].
    unfold recordReorg, counted, when. by case_bool_decide.
Qed.
End verify.
