(* ===== verification/Forward.v ===== *)
(** Indexing blocks: staging one block ([stageBlock]) takes the records of the open
    batch through the abstract transition [committed], and a batch of staged blocks
    that is flushed takes the disk through all of them ([chain_records]). *)

From S2P Require Import Prelude KeyCodec LevelDb ValueCodec Store Outputs StoreFacts Rollback Parsing Apply Spend Block Roundtrip Tracker Window Reorg.
From S2P Require Import SyncLoop Batch Chain Undo.

#[local] Open Scope string_scope.
#[local] Open Scope nat_scope.
#[local] Open Scope list_scope.

(** * One block on the store *)

Section store.
Context {node : Node} {DB : Type} `{LevelDbLaws DB}.
Implicit Type s : store DB.

Lemma sync_inv_dtx hm dt s : sync_inv hm s -> sync_inv hm (set_dtx (Some dt) s).
Proof. intros [[] Hd Hm Hp Hh1 Hw Hsw Hhi Hc Hmc]. by split. Qed.

(** The transition reads the records of outputs and scripts, and its own. *)
Lemma spend_view_records bhs V V' a k :
  (forall k', k' = k \/ key_block k' = None -> V k' = V' k') ->
  spend_view bhs V a k = spend_view bhs V' a k.
Proof.
  intros HV. assert (Hk : V k = V' k) by (apply HV; by left).
  destruct k; cbn [spend_view]; try done;
    rewrite Hk, (HV (KOutHint _ _)) by by right.
  - done.
  - case_decide; [|done]. by rewrite HV by by right.
  - case_decide; [|done]. destruct (V' (KOutHint t i)); [|done]. by rewrite HV by by right.
Qed.

Lemma applied_ext b V V' k :
  (forall k', k' = k \/ key_block k' = None -> V k' = V' k') -> applied b V k = applied b V' k.
Proof.
  intros HV.
  assert (HC : forall k', k' = k \/ key_block k' = None -> with_created b V k' = with_created b V' k').
  { intros k' Hk'. pose proof (HV k' Hk') as HVk.
    destruct k'; cbn [with_created]; rewrite HVk; try done.
    by rewrite (HV (KScriptBlk sh)) by by right. }
  unfold applied. destruct (key_op k) as [op|]; [|apply HC; by left].
  case_decide; [|apply HC; by left]. by apply spend_view_records.
Qed.

(** The block's own record goes in first. *)
Definition block_write (b : block_data) : list (key * option bytes) :=
  [(KBlock (h2b (bd_hash b)), Some (block_record b))].

Lemma staged_keys s L k :
  in_batch s -> (forall k' o, (k', o) ∈ L -> wf_key k') -> wf_key k ->
  staged (stage_keys L s) (enc k)
  = match klast L k with Some o => Some (item_of o) | None => staged s (enc k) end.
Proof. intros Hb HL Hk. unfold stage_keys. by rewrite staged_stage, last_write_keys. Qed.

Lemma disk_keys s L : disk (stage_keys L s) = disk s.
Proof. apply disk_stage. Qed.

Lemma block_write_wf b k o : block_wf b -> (k, o) ∈ block_write b -> wf_key k.
Proof. intros Hb [= -> ->]%list_elem_of_singleton. apply h2b_hash32, (bk_hash _ Hb). Qed.

Lemma staged_block_other s b k :
  in_batch s -> block_wf b -> wf_key k -> k <> KBlock (h2b (bd_hash b)) ->
  staged (stage_keys (block_write b) s) (enc k) = staged s (enc k).
Proof.
  intros Hb Hw Hk Hne. rewrite staged_keys by eauto using block_write_wf.
  cbn [klast block_write]. by rewrite decide_False.
Qed.

Lemma block_ok_staged hm s b :
  in_batch s -> block_ok hm s b -> block_ok hm (stage_keys (block_write b) s) b.
Proof.
  intros Hbt [Hb Ha Hf Hu]. split; [done|done| |].
  - intros r Hr. destruct (created_recs_wf b Hb r Hr) as (Ht & Hi & _).
    rewrite disk_keys, staged_block_other by done. by apply Hf.
  - intros op Hop. rewrite disk_keys. intros Hd.
    assert (Hwf : hash32 op.1 /\ u32 op.2).
    { apply list_elem_of_fmap in Hop as (inp & -> & Hinp). eapply sp_op_wf, spends_ok; done. }
    rewrite staged_block_other by (done || apply Hwf). by apply Hu.
Qed.

Lemma block_key_distinct k bh : key_block k = None -> enc k <> enc (KBlock bh).
Proof. intros E. destruct k as [| | | | | | | | | | | | | |[]]; try done; intros E'; discriminate E'. Qed.

(** The block record is no record of an output or script. *)
Lemma vk_block_write s b k :
  in_batch s -> enc k <> enc (KBlock (h2b (bd_hash b))) ->
  vk (stage_keys (block_write b) s) k = vk s k.
Proof.
  intros Hb Hne. unfold vk, stage_keys. rewrite view_stage by done.
  rewrite last_write_none; [done|].
  intros ([x o] & E & Hin)%list_elem_of_fmap. apply list_elem_of_singleton in Hin as [= -> ->]. by apply Hne.
Qed.

Lemma applied_block_write s b k :
  in_batch s -> block_wf b -> wf_key k ->
  applied b (vk (stage_keys (block_write b) s)) k
  = match k with
    | KBlock bh => if decide (bh = h2b (bd_hash b)) then Some (block_record b) else vk s k
    | _ => applied b (vk s) k
    end.
Proof.
  intros Hb Hw Hk. pose proof (h2b_hash32 _ (bk_hash _ Hw)) as Hb32.
  assert (Hother : k <> KBlock (h2b (bd_hash b)) ->
    applied b (vk (stage_keys (block_write b) s)) k = applied b (vk s) k).
  { intros Hne. apply applied_ext. intros k' [->|Hk']; apply vk_block_write; [done| |done|].
    - intros E. by apply enc_inj in E.
    - by apply block_key_distinct. }
  destruct k; try by apply Hother. destruct (decide (bh = h2b (bd_hash b))) as [->|Hne].
  - change (vk (stage_keys (block_write b) s) (KBlock (h2b (bd_hash b))) = Some (block_record b)).
    rewrite vk_stage_keys by eauto using block_write_wf. cbn [klast block_write]. by rewrite decide_True.
  - rewrite Hother by congruence. done.
Qed.

(** Inserting the block record and running the two passes. *)
Lemma run_block hm s b :
  sync_inv hm s -> block_ok hm s b ->
  exists s1 r, insertBlock (block_arg_of b) s = (Ok true, stage_keys (block_write b) s)
    /\ parseBlockTransactions (bd_txs b) (bd_hash b) (bd_height b) (stage_keys (block_write b) s)
       = (Ok r, s1)
    /\ sync_inv (bd_height b) s1 /\ disk s1 = disk s /\ faults s1 = faults s
    /\ (forall k, wf_key k ->
         vk s1 k = match k with
                   | KBlock bh => if decide (bh = h2b (bd_hash b)) then Some (block_record b) else vk s k
                   | _ => applied b (vk s) k
                   end).
Proof.
  intros Hinv Hb. pose proof (bk_wf _ _ _ Hb) as Hw. pose proof (fs_batch _ (si_first _ _ Hinv)) as Hbt.
  pose proof (h2b_hash32 _ (bk_hash _ Hw)) as Hb32.
  set (s0 := stage_keys (block_write b) s).
  assert (Hinv0 : sync_inv hm s0).
  { apply sync_inv_other; [done|]. intros k o Hin. split_and!; [by eapply block_write_wf| |].
    - apply list_elem_of_singleton in Hin as [= -> ->]. by intros v [= <-].
    - apply list_elem_of_singleton in Hin as [= -> ->]. by intros []. }
  destruct (run_parseBlockTransactions hm s0 b Hinv0) as (s1 & r & E & Hinv1 & Hd & Hf & Hv).
  - by apply block_ok_staged.
  - exists (bd_time b), (h2b (bd_prev b)). split_and!; [|apply Hw|apply h2b_hash32, Hw].
    unfold s0. rewrite staged_keys by eauto using block_write_wf. cbn [klast block_write].
    by rewrite decide_True.
  - exists s1, r. split_and!; try done.
    + by apply (run_insertBlock hm).
    + rewrite Hd. apply disk_stage.
    + rewrite Hf. apply faults_stage.
    + intros k Hk. rewrite Hv by done. by apply applied_block_write.
Qed.
End store.

(** * One block on the loop *)

Section loop.
Context {node : Node} {rpcs : NodeRpc} {env : LoopEnv} {DB : Type} `{LevelDbLaws DB}.
Implicit Types (s : store DB) (t : tracker DB) (l : loop DB).

Lemma run_on_trk_ok {A} (m : M (tracker DB) A) l a t :
  m (trk l) = (Ok a, t) -> on_trk m l = (Ok a, mkLoop t (syn l)).
Proof. intros E. unfold on_trk. by rewrite E. Qed.

Lemma run_on_store_ok {A} (m : M (store DB) A) l a s :
  m (db (trk l)) = (Ok a, s) -> on_store m l = (Ok a, mkLoop (set_db s (trk l)) (syn l)).
Proof. intros E. apply run_on_trk_ok. by apply run_on_db_ok. Qed.

Lemma run_sync_mod (f : sync_state -> sync_state) l :
  sync_mod f l = (Ok tt, mkLoop (trk l) (f (syn l))).
Proof. done. Qed.

(** The fetched block, as the transition reads it. *)
Definition block_of (block : decoded_block) (hash : string) (height : Z) (prev : string) : block_data :=
  mkBlock hash height (timestamp block) prev (transactions block).

(** The store a block is staged on: the first block of a batch opens it. *)
Definition staging_store l : store DB :=
  if bool_decide (blocksQuantity (s_batch (syn l)) = 0)%Z then opened (db (trk l)) else db (trk l).

Lemma committed_window hm s b w k :
  sync_inv hm s -> block_wf b -> wf_key k -> is_meta k = false ->
  vk (stage_keys (window_writes (bd_hash b) w) s) k
  = match k with
    | KStoredBlk bh => if decide (bh = h2b (bd_hash b)) then Some EMPTY else vk s k
    | _ => vk s k
    end.
Proof.
  intros Hinv Hb Hk Hm. pose proof (h2b_hash32 _ (bk_hash _ Hb)) as Hb32.
  rewrite vk_stage_keys; [|apply (si_first _ _ Hinv)| |done].
  2:{ unfold window_writes. intros k' o [[= -> ->]|Hin]%elem_of_cons; [done|].
      case_bool_decide; [by apply elem_of_nil in Hin|].
      by apply list_elem_of_singleton in Hin as [= -> ->]. }
  unfold window_writes. cbn [klast].
  assert (E : klast (if bool_decide (undoWindowWatermarkPersisted w = Some (undoWindowWatermark (window_after (bd_hash b) w)))
    then [] else [(KMeta UNDO_WATERMARK, Some (from_latin1 (to_radix 10 (undoWindowWatermark (window_after (bd_hash b) w)))))]) k = None).
  { case_bool_decide; [done|]. cbn [klast]. rewrite decide_False; [done|]. by intros <-. }
  rewrite E. destruct k; try (by rewrite decide_False). 
  destruct (decide (bh = h2b (bd_hash b))) as [->|Hne]; [by rewrite decide_True|].
  by rewrite decide_False by congruence.
Qed.

Lemma window_writes_other h w k o :
  is_hash h -> (k, o) ∈ window_writes h w ->
  wf_key k /\ (forall v, o = Some v -> wf_val k v) /\ ~ utxo_key k.
Proof.
  intros Hh [[= -> ->]|Hin]%elem_of_cons.
  - split_and!; [by apply h2b_hash32|by intros v [= <-]|by intros []].
  - case_bool_decide; [by apply elem_of_nil in Hin|].
    apply list_elem_of_singleton in Hin as [= -> ->]. split_and!; [done|by intros v [= <-]|by intros []].
Qed.

(** Staging a block: the view of the batch goes through [committed], the disk is
    untouched, and the window takes the block in. *)
Lemma run_stageBlock hm l block hash height prev :
  let b := block_of block hash height prev in
  let w := win (trk l) in
  sync_inv hm (staging_store l) -> block_ok hm (staging_store l) b -> (0 <= undoBlocks w)%Z ->
  exists s' bt, stageBlock block hash height prev l
    = (Ok tt, mkLoop (set_win (window_after hash w) (set_db s' (trk l))) (set_batch bt (syn l)))
    /\ blocksQuantity bt = blocksQuantity (s_batch (syn l))
    /\ pendingMempoolTxCleanup bt = pendingMempoolTxCleanup (s_batch (syn l)) ++ (getId <$> transactions block)
    /\ sync_inv height s' /\ disk s' = disk (db (trk l)) /\ faults s' = faults (db (trk l))
    /\ (forall k, wf_key k -> is_meta k = false -> vk s' k = committed b (vk (staging_store l)) k).
Proof.
  intros b w Hinv Hb Hu. pose proof (bk_wf _ _ _ Hb) as Hw. set (s0 := staging_store l) in *.
  assert (Ds0 : disk s0 = disk (db (trk l)) /\ faults s0 = faults (db (trk l)))
    by (unfold s0, staging_store; by case_bool_decide).
  destruct (run_block hm s0 b Hinv Hb) as (s1 & [counts total] & E1 & E2 & Hinv1 & Hd & Hf & Hv).
  unfold stageBlock.
  rewrite (run_bind_ok _ _ l (s_batch (syn l)) l) by done.
  set (l0 := mkLoop (set_db s0 (trk l)) (syn l)).
  rewrite (run_bind_ok _ _ l tt l0).
  2:{ unfold when, l0, s0, staging_store. case_bool_decide; [done|].
      unfold mret, M_ret. f_equal. by destruct l as [[] ?]. }
  rewrite (run_bind_ok _ _ _ _ _ (run_on_store_ok _ l0 _ _ E1)).
  rewrite (run_bind_ok _ _ _ _ _ (run_sync_mod _ _)).
  match goal with |- context [mbind _ _ ?x] => set (l1 := x) end.
  rewrite (run_bind_ok _ _ _ _ _ (run_on_store_ok _ l1 _ _ E2)). cbv iota beta.
  rewrite (run_bind_ok _ _ _ _ _ (run_sync_mod _ _)).
  match goal with |- context [on_trk _ ?x] => set (l2 := x) end.
  assert (Hb1 : in_batch (db (trk l2))) by apply (si_first _ _ Hinv1).
  destruct (run_addToLastBlocks hash (trk l2)) as (dt & E3);
    [apply (bk_hash _ Hw)|done|apply Hinv1|done|].
  rewrite (run_on_trk_ok _ _ _ _ E3).
  exists (set_dtx (Some dt) (stage_keys (window_writes hash w) s1)). eexists.
  split_and!; [reflexivity|done|done| | | |].
  - apply sync_inv_dtx. apply sync_inv_other; [done|]. intros k o Hin.
    eapply window_writes_other; [apply (bk_hash _ Hw)|exact Hin].
  - change (disk (stage_keys (window_writes hash w) s1) = disk (db (trk l))).
    rewrite disk_keys, Hd. apply Ds0.
  - change (faults (stage (enc_writes (window_writes hash w)) s1) = faults (db (trk l))).
    rewrite faults_stage, Hf. apply Ds0.
  - intros k Hk Hm. change (vk (set_dtx (Some dt) ?x) k) with (vk x k).
    change hash with (bd_hash b). rewrite (committed_window height) by done.
    destruct k; try done; cbn [committed]; rewrite Hv by done; done.
Qed.
End loop.

(** * Committing a batch ([flushBatch] of [sync_loop_block_apply *)

(** * Removing a mined transaction from the mempool store *)

(** The writes one hint record leads to. *)
Definition gH (t : bytes) (e : bytes * bytes) : list write :=
  [(pb P_OUTPUT ++ e.2 ++ t ++ slice 33 37 e.1, None); (e.1, None)].
Definition gJ (e : bytes * bytes) : list write :=
  [(pb P_INPUT ++ slice 33 65 e.1 ++ slice 65 69 e.1, None); (e.1, None)].

Section mined.
Context {node : Node} {DB : Type} `{LevelDbLaws DB}.
Implicit Types (s : store DB) (d : DB).

Definition wH d (t : bytes) := flat_map (gH t) (scan d P_OUT_HINT t).
Definition wJ d (t : bytes) := flat_map gJ (scan d P_IN_HINT t).

Definition mined_writes d (t : bytes) : list write :=
  wH d t ++ wJ d t ++ [(enc (KTxExact t), None); (enc (KTx t), None)].

Lemma run_deleteOutputsByHint s txid :
  in_batch s ->
  exists n, deleteOutputsByHint txid s = (Ok n, stage (wH (disk s) (h2b txid)) s).
Proof.
  intros Hb. unfold deleteOutputsByHint. step_stage (run_dbScan s _). eexists.
  rewrite (run_bind_ok _ _ s tt (stage (wH (disk s) (h2b txid)) s)); [done|].
  apply run_forM_stage; [done|]. intros [k v] s' _ Hs' _.
  step_stage (run_del s' (pb P_OUTPUT ++ v ++ h2b txid ++ slice 33 37 k) Hs').
  step_stage (run_del _ k (in_batch_stage _ _ Hs')).
  unfold gH. cbn [fst snd]. by rewrite stage_2.
Qed.

Lemma run_deleteInputsByHint s txid :
  in_batch s ->
  exists n, deleteInputsByHint txid s = (Ok n, stage (wJ (disk s) (h2b txid)) s).
Proof.
  intros Hb. unfold deleteInputsByHint. step_stage (run_dbScan s _). eexists.
  rewrite (run_bind_ok _ _ s tt (stage (wJ (disk s) (h2b txid)) s)); [done|].
  apply run_forM_stage; [done|]. intros [k v] s' _ Hs' _.
  step_stage (run_del s' (pb P_INPUT ++ slice 33 65 k ++ slice 65 69 k) Hs').
  step_stage (run_del _ k (in_batch_stage _ _ Hs')).
  unfold gJ. cbn [fst snd]. by rewrite stage_2.
Qed.

(** What one mined transaction takes with it. *)
Lemma run_removeMined s txid :
  in_batch s -> is_hash txid ->
  (_ ← deleteOutputsByHint txid; _ ← deleteInputsByHint txid; _ ← deleteTransaction txid; mret tt) s
  = (Ok tt, stage (mined_writes (disk s) (h2b txid)) s).
Proof.
  intros Hb Ht. unfold mined_writes.
  destruct (run_deleteOutputsByHint s txid Hb) as [n1 E1]. rewrite (run_bind_ok _ _ _ _ _ E1).
  set (s1 := stage _ s). assert (Hb1 : in_batch s1) by by apply in_batch_stage.
  destruct (run_deleteInputsByHint s1 txid Hb1) as [n2 E2]. rewrite (run_bind_ok _ _ _ _ _ E2).
  assert (Hd1 : disk s1 = disk s) by apply disk_stage. rewrite Hd1.
  assert (E3 : forall s', in_batch s' -> deleteTransaction txid s'
    = (Ok true, stage [(enc (KTxExact (h2b txid)), None); (enc (KTx (h2b txid)), None)] s')).
  { intros s' Hs'. rewrite <- (b2h_h2b txid Ht) at 1. apply run_deleteTransaction; [done|].
    by apply h2b_hash32. }
  rewrite (run_bind_ok _ _ _ _ _ (E3 _ (in_batch_stage _ _ Hb1))).
  unfold s1. by rewrite <- !stage_app.
Qed.

(** The records a mined transaction's mempool copy consists of. *)
Definition mined_key d (t : bytes) (k : key) : Prop :=
  match k with
  | KTx t' | KTxExact t' => t' = t
  | KOutHint t' _ => t' = t /\ is_Some (dk d k)
  | KOutput sh t' i => t' = t /\ dk d (KOutHint t i) = Some sh
  | KInHint t' _ _ => t' = t /\ is_Some (dk d k)
  | KInput pt i => is_Some (dk d (KInHint t pt i))
  | _ => False
  end.

Lemma wH_rel d t :
  db_wf d -> hash32 t ->
  writes_rel (wH d t) (fun k o => o = None /\
    match k with
    | KOutHint t' _ => t' = t /\ is_Some (dk d k)
    | KOutput sh t' i => t' = t /\ dk d (KOutHint t i) = Some sh
    | _ => False
    end).
Proof.
  intros Hd Ht. apply writes_rel_scan; [done|..].
  - intros k v Hk Hv Hg Hp b o Hin. apply prefix_out_hint in Hp as (i & ->); [|done..].
    destruct Hk as (_ & Hi). unfold gH in Hin. cbn [fst snd enc app] in Hin.
    rewrite slice_33_37 in Hin by (done || apply length_be).
    apply elem_of_cons in Hin as [[= -> ->]|[[= -> ->]|Hin]%elem_of_cons];
      [..|by apply elem_of_nil in Hin].
    + exists (KOutput v t i). by split_and!.
    + exists (KOutHint t i). split_and!; try done; by eexists.
  - intros k' o Hk' [-> HR].
    assert (Hex : exists i v, u32 i /\ dk d (KOutHint t i) = Some v
                  /\ (k' = KOutput v t i \/ k' = KOutHint t i)).
    { destruct k'; try done; destruct HR as [-> HR]; cbn [wf_key] in Hk'; destruct_and?;
        [|destruct HR]; naive_solver. }
    destruct Hex as (i & v & Hi & Hg & Hcase). exists (KOutHint t i), v. split_and!; try done.
    { by exists (be 4 i). }
    unfold gH. cbn [fst snd enc app]. rewrite slice_33_37 by (done || apply length_be).
    destruct Hcase as [->| ->]; cbn [enc app]; [by left|by right; left].
Qed.

Lemma wJ_rel d t :
  db_wf d -> hash32 t ->
  writes_rel (wJ d t) (fun k o => o = None /\
    match k with
    | KInHint t' _ _ => t' = t /\ is_Some (dk d k)
    | KInput pt i => is_Some (dk d (KInHint t pt i))
    | _ => False
    end).
Proof.
  intros Hd Ht. apply writes_rel_scan; [done|..].
  - intros k v Hk Hv Hg Hp b o Hin. apply prefix_in_hint in Hp as (pt & i & ->); [|done..].
    destruct Hk as (_ & Hpt & Hi). unfold gJ in Hin. cbn [fst snd enc app] in Hin.
    rewrite slice_33_65, slice_65_69 in Hin by (done || apply length_be).
    apply elem_of_cons in Hin as [[= -> ->]|[[= -> ->]|Hin]%elem_of_cons];
      [..|by apply elem_of_nil in Hin].
    + exists (KInput pt i). split_and!; try done; by eexists.
    + exists (KInHint t pt i). split_and!; try done; by eexists.
  - intros k' o Hk' [-> HR].
    assert (Hex : exists pt i v, hash32 pt /\ u32 i /\ dk d (KInHint t pt i) = Some v
                  /\ (k' = KInput pt i \/ k' = KInHint t pt i)).
    { destruct k'; try done; [|destruct HR as [-> HR]]; cbn [wf_key] in Hk'; destruct_and?;
        destruct HR; naive_solver. }
    destruct Hex as (pt & i & v & Hpt & Hi & Hg & Hcase). exists (KInHint t pt i), v.
    split_and!; try done.
    { by exists (pt ++ be 4 i). }
    unfold gJ. cbn [fst snd enc app]. rewrite slice_33_65, slice_65_69 by (done || apply length_be).
    destruct Hcase as [->| ->]; cbn [enc app]; [by left|by right; left].
Qed.

Lemma mined_writes_rel d t :
  db_wf d -> hash32 t -> writes_rel (mined_writes d t) (fun k o => o = None /\ mined_key d t k).
Proof.
  intros Hd Ht b o. unfold mined_writes. rewrite !elem_of_app.
  rewrite (wH_rel d t Hd Ht b o), (wJ_rel d t Hd Ht b o). rewrite !elem_of_cons, elem_of_nil. split.
  - intros [(k & -> & Hk & -> & HR)|[(k & -> & Hk & -> & HR)|[[= -> ->]|[[= -> ->]|[]]]]].
    + exists k. split_and!; try done. by destruct k.
    + exists k. split_and!; try done. by destruct k.
    + by exists (KTxExact t).
    + by exists (KTx t).
  - intros (k & -> & Hk & -> & HR). destruct k; try done; cbn [mined_key] in HR.
    + subst. right. right. right. by left.
    + right. left. by exists (KInput t0 i).
    + left. by exists (KOutput sh t0 i).
    + left. by exists (KOutHint t0 i).
    + right. left. by exists (KInHint t0 pt i).
    + subst. right. right. by left.
Qed.
End mined.

(** * The exclusive section *)

Section commit.
Context {node : Node} {rpcs : NodeRpc} {env : LoopEnv} {DB : Type} `{LevelDbLaws DB}.
Implicit Types (s : store DB) (t : tracker DB) (l : loop DB).

(** The mempool store as its operations see it: with the shared caches. *)
Definition shared t : store DB :=
  set_known (knownScripts (db t)) (set_cache (outputCache (db t)) (mempoolDb t)).

Lemma run_on_mempool_ok {A} (m : M (store DB) A) t a s :
  m (shared t) = (Ok a, s) -> outputCache s = outputCache (db t) -> knownScripts s = knownScripts (db t) ->
  on_mempool m t = (Ok a, set_mempoolDb s t).
Proof.
  intros E Hc Hk. unfold on_mempool. fold (shared t). rewrite E, Hc, Hk.
  by destruct t as [[] ? ? ? ? ?].
Qed.

Lemma shared_set s t :
  outputCache s = outputCache (db t) -> knownScripts s = knownScripts (db t) ->
  shared (set_mempoolDb s t) = s.
Proof. intros Hc Hk. unfold shared. cbn. rewrite <- Hc, <- Hk. by destruct s. Qed.

Definition removeMined (txid : string) : M (tracker DB) unit :=
  _ ← on_mempool (deleteOutputsByHint txid);
  _ ← on_mempool (deleteInputsByHint txid);
  _ ← on_mempool (deleteTransaction txid);
  mret tt.

Lemma on_mempool_seq3 {A B C} (m1 : M (store DB) A) (m2 : M (store DB) B) (m3 : M (store DB) C) t s :
  (_ ← m1; _ ← m2; _ ← m3; mret tt) (shared t) = (Ok tt, s) ->
  (_ ← on_mempool m1; _ ← on_mempool m2; _ ← on_mempool m3; mret tt) t
  = on_mempool (_ ← m1; _ ← m2; _ ← m3; mret tt) t.
Proof.
  intros E. unfold on_mempool, mbind, M_bind, shared in *.
  destruct (m1 _) as [[a1|e1] s1]; [|done]. cbn in *.
  assert (E1 : set_known (knownScripts s1) (set_cache (outputCache s1) s1) = s1) by by destruct s1.
  rewrite E1. destruct (m2 s1) as [[a2|e2] s2]; [|done]. cbn in *.
  assert (E2 : set_known (knownScripts s2) (set_cache (outputCache s2) s2) = s2) by by destruct s2.
  rewrite E2. destruct (m3 s2) as [[a3|e3] s3]; [|done]. done.
Qed.

Lemma run_removeMined_on t txid s :
  is_hash txid -> mempoolDb t = s -> in_batch s ->
  outputCache s = outputCache (db t) -> knownScripts s = knownScripts (db t) ->
  removeMined txid t = (Ok tt, set_mempoolDb (stage (mined_writes (disk s) (h2b txid)) s) t).
Proof.
  intros Ht Hs Hb Hc Hk.
  assert (Esh : shared t = s) by (rewrite <- (shared_set s t) by done; by destruct t as [? ? ? ? ? ?]; cbn in Hs; subst).
  pose proof (run_removeMined s txid Hb Ht) as E. rewrite <- Esh in E at 1.
  unfold removeMined. rewrite (on_mempool_seq3 _ _ _ _ _ E).
  apply run_on_mempool_ok; [done|by rewrite cache_stage|by rewrite known_stage].
Qed.

Definition mined_all (d : DB) (ids : list string) : list write :=
  flat_map (fun x => mined_writes d (h2b x)) ids.

Lemma run_removeMined_all ids t s :
  (forall x, x ∈ ids -> is_hash x) -> mempoolDb t = s -> in_batch s ->
  outputCache s = outputCache (db t) -> knownScripts s = knownScripts (db t) ->
  forM ids removeMined t = (Ok tt, set_mempoolDb (stage (mined_all (disk s) ids) s) t).
Proof.
  revert t s. induction ids as [|x ids IH]; intros t s Hids Hs Hb Hc Hk; cbn [forM].
  - unfold mined_all. cbn [flat_map]. rewrite stage_nil, <- Hs. by destruct t.
  - rewrite (run_bind_ok _ _ _ _ _ (run_removeMined_on t x s (Hids x ltac:(left)) Hs Hb Hc Hk)).
    set (s1 := stage _ s).
    rewrite (IH _ s1); [|by intros; apply Hids; right|done|by apply in_batch_stage
      |unfold s1; by rewrite cache_stage|unfold s1; by rewrite known_stage].
    unfold mined_all. cbn [flat_map]. rewrite stage_app. unfold s1. by rewrite disk_stage.
Qed.

(** The mempool records of the mined transactions are gone, the rest stays. *)
Definition mined_out (ids : list string) (d d' : DB) : Prop :=
  forall k, wf_key k ->
    (forall x, x ∈ ids -> mined_key d (h2b x) k -> dk d' k = None)
    /\ ((forall x, x ∈ ids -> ~ mined_key d (h2b x) k) -> dk d' k = dk d k).

Lemma view_mined s ids k :
  in_batch s -> (forall b, view s b = db_get (disk s) b) -> db_wf (disk s) ->
  (forall x, x ∈ ids -> is_hash x) -> wf_key k ->
  (forall x, x ∈ ids -> mined_key (disk s) (h2b x) k ->
     view (stage (mined_all (disk s) ids) s) (enc k) = None)
  /\ ((forall x, x ∈ ids -> ~ mined_key (disk s) (h2b x) k) ->
     view (stage (mined_all (disk s) ids) s) (enc k) = dk (disk s) k).
Proof.
  intros Hb Hv Hd Hids Hk. rewrite view_stage by done.
  assert (HR : forall o, (enc k, o) ∈ mined_all (disk s) ids
    <-> o = None /\ exists x, x ∈ ids /\ mined_key (disk s) (h2b x) k).
  { intros o. unfold mined_all. rewrite elem_of_flat_map. split.
    - intros (x & Hx & (k' & E & Hk' & -> & Hm)%(mined_writes_rel _ _ Hd (h2b_hash32 x (Hids x Hx)))).
      apply enc_inj in E as <-; [|done..]. eauto.
    - intros (-> & x & Hx & Hm). exists x. split; [done|].
      apply (mined_writes_rel _ _ Hd (h2b_hash32 x (Hids x Hx))). exists k. eauto. }
  split.
  - intros x Hx Hm. rewrite (last_write_uniform _ _ None); [done|apply HR; eauto|].
    by intros o' [-> _]%HR.
  - intros Hn. rewrite last_write_none; [by rewrite Hv|].
    intros ([b o] & E & Hin)%list_elem_of_fmap. cbn in E. subst b.
    apply HR in Hin as (_ & x & Hx & Hm). by apply (Hn x).
Qed.

(** ** Commit, heartbeat and mempool cleanup *)

Definition section_stat (ids : list string) (h : Z) (x : status) : status :=
  let x := set_committed (Some h) x in
  if bool_decide (length ids = 0) then x else set_epoch (mempoolEpoch x + 1) x.

(** A mempool store whose next commit is accepted. *)
Record mempool_ready t (ids : list string) : Prop := {
  mr_ids : forall x, x ∈ ids -> is_hash x;
  mr_wf : db_wf (disk (mempoolDb t));
  mr_commit : commit_ok (mempoolDb t);
}.

Lemma run_mempool_part t ids :
  ids <> [] -> mempool_ready t ids ->
  exists m, (_ ← on_mempool beginTransaction; _ ← forM ids removeMined; on_mempool (endTransaction true)) t
    = (Ok tt, set_mempoolDb m t)
    /\ mined_out ids (disk (mempoolDb t)) (disk m) /\ transactionArray m = None.
Proof.
  intros Hne [Hids Hd Hc]. set (s0 := opened (shared t)).
  rewrite (run_bind_ok _ _ t tt (set_mempoolDb s0 t)).
  2:{ apply (run_on_mempool_ok beginTransaction t tt s0); done. }
  rewrite (run_bind_ok _ _ _ _ _ (run_removeMined_all ids (set_mempoolDb s0 t) s0 Hids eq_refl
    (in_batch_begin _) eq_refl eq_refl)).
  set (s1 := stage _ s0). assert (Hb1 : in_batch s1) by apply in_batch_stage, in_batch_begin.
  assert (Hc1 : commit_ok s1) by (unfold commit_ok, s1; by rewrite faults_stage).
  destruct (run_endTransaction_commit s1 Hb1 Hc1) as (m & E & Hv & Htx & _ & Hca & Hkn & _).
  assert (Ec : outputCache s1 = outputCache (db t)) by (unfold s1; by rewrite cache_stage).
  assert (Ek : knownScripts s1 = knownScripts (db t)) by (unfold s1; by rewrite known_stage).
  exists m. split_and!; [| |done].
  - set (t1 := set_mempoolDb s1 (set_mempoolDb s0 t)).
    assert (Es : shared t1 = s1) by by apply (shared_set s1 t).
    rewrite <- Es in E at 1.
    rewrite (run_on_mempool_ok _ t1 _ _ E); [done|by rewrite Hca|by rewrite Hkn].
  - intros k Hk. assert (Em : dk (disk m) k = view s1 (enc k)) by apply Hv. rewrite Em. unfold s1.
    apply (view_mined s0 ids k); [apply in_batch_begin| |done|done|done].
    intros b. exact (view_begin (shared t) b).
Qed.

Lemma run_stat_mod (f : status -> status) l :
  stat_mod f l = (Ok tt, mkLoop (set_stat (f (stat (trk l))) (trk l)) (syn l)).
Proof. done. Qed.

Lemma on_trk_seq3 (m1 m2 m3 : M (tracker DB) unit) (g : M (loop DB) unit) l :
  (_ ← on_trk m1; _ ← on_trk m2; _ ← on_trk m3; g) l = (_ ← on_trk (_ ← m1; _ ← m2; m3); g) l.
Proof.
  unfold on_trk, mbind, M_bind. destruct (m1 (trk l)) as [[a1|e1] t1]; [|done]. cbn.
  destruct (m2 t1) as [[a2|e2] t2]; [|done]. cbn. by destruct (m3 t2) as [[a3|e3] t3].
Qed.

(** The batch is on the disk before the mempool copies of its transactions go. *)
Lemma run_commitSection hm l ids h :
  sync_inv hm (db (trk l)) -> commit_ok (db (trk l)) -> mempool_ready (trk l) ids ->
  exists s' m, commitSection ids h l
    = (Ok tt, mkLoop (set_stat (section_stat ids h (stat (trk l)))
                (set_mempoolDb m (set_db s' (trk l)))) (syn l))
    /\ store_inv s' /\ (forall k, dk (disk s') k = vk (db (trk l)) k)
    /\ transactionArray s' = None /\ faults s' = tail (faults (db (trk l)))
    /\ mined_out ids (disk (mempoolDb (trk l))) (disk m).
Proof.
  intros Hinv Hc Hm. destruct (run_commit hm (db (trk l)) Hinv Hc) as (s' & E & Hs & Hv & Htx & _ & Hf).
  unfold commitSection.
  rewrite (run_bind_ok _ _ _ _ _ (run_on_store_ok _ l _ _ E)).
  rewrite (run_bind_ok _ _ _ _ _ (run_stat_mod _ _)).
  match goal with |- context [(if _ then _ else _) ?x] => set (l1 := x) end.
  unfold section_stat. case_bool_decide as Hlen.
  - exists s', (mempoolDb (trk l)). split_and!; try done.
    intros k Hk. apply nil_length_inv in Hlen as ->. split; [|done].
    by intros x ?%elem_of_nil.
  - assert (Hne : ids <> []) by by destruct ids.
    assert (Hm1 : mempool_ready (trk l1) ids) by by destruct Hm.
    destruct (run_mempool_part (trk l1) ids Hne Hm1) as (m & E2 & Hout & _).
    exists s', m. split_and!; try done.
    fold removeMined. rewrite on_trk_seq3.
    rewrite (run_bind_ok _ _ _ _ _ (run_on_trk_ok _ l1 _ _ E2)). done.
Qed.

(** ** The flush *)

(** The P record, when blocks wait for cleanup. *)
Definition pending_writes (pending : list string) : list (key * option bytes) :=
  if bool_decide (0 < length pending)
  then [(KMeta PENDING_CLEANUP, Some (from_latin1 (JSON_stringify pending)))] else [].

Definition flush_writes (hash : string) (h : Z) (pending : list string) : list (key * option bytes) :=
  rev (pointers hash h) ++ pending_writes pending.

Lemma enc_writes_app L1 L2 : enc_writes (L1 ++ L2) = enc_writes L1 ++ enc_writes L2.
Proof. apply fmap_app. Qed.

Lemma flush_writes_meta hash h p k o : (k, o) ∈ flush_writes hash h p -> is_meta k = true.
Proof.
  unfold flush_writes, pending_writes, pointers. cbn [rev app].
  intros [[= -> ->]|[[= -> ->]|Hin]%elem_of_cons]%elem_of_cons; [done|done|].
  case_bool_decide; [|by apply elem_of_nil in Hin].
  by apply list_elem_of_singleton in Hin as [= -> ->].
Qed.

Lemma vk_flush_writes s hash h p k :
  in_batch s -> wf_key k ->
  vk (stage_keys (flush_writes hash h p) s) k
  = match k with
    | KMeta LAST_BLOCK_HASH => Some (from_latin1 hash)
    | KMeta LAST_BLOCK_HEIGHT => Some (from_latin1 (to_radix 16 h))
    | KMeta PENDING_CLEANUP =>
        if bool_decide (0 < length p) then Some (from_latin1 (JSON_stringify p)) else vk s k
    | _ => vk s k
    end.
Proof.
  intros Hb Hk. rewrite vk_stage_keys; [|done| |done].
  2:{ intros k' o Hin%flush_writes_meta. by destruct k'. }
  unfold flush_writes, pending_writes, pointers. cbn [rev app].
  case_bool_decide; cbn [klast app]; destruct k as [| | | | | | | | | | | | | |[]]; done.
Qed.

Lemma sync_inv_flush_writes hm s hash h p :
  sync_inv hm s -> sync_inv hm (stage_keys (flush_writes hash h p) s).
Proof.
  intros Hinv. apply sync_inv_other; [done|]. intros k o Hin%flush_writes_meta.
  destruct k; try done. split_and!; [done|done|by intros []].
Qed.

(** The mempool poller is held off while the mined transactions leave. *)
Lemma run_commitWithMempoolCleanup hm l h :
  let ids := pendingMempoolTxCleanup (s_batch (syn l)) in
  sync_inv hm (db (trk l)) -> commit_ok (db (trk l)) -> mempool_ready (trk l) ids ->
  exists s' m st', commitWithMempoolCleanup h l
    = (Ok tt, mkLoop (set_stat st' (set_mempoolDb m (set_db s' (trk l))))
                (set_batch (set_cleanup [] (s_batch (syn l))) (syn l)))
    /\ store_inv s' /\ (forall k, dk (disk s') k = vk (db (trk l)) k)
    /\ transactionArray s' = None /\ faults s' = tail (faults (db (trk l)))
    /\ mined_out ids (disk (mempoolDb (trk l))) (disk m)
    /\ lastCommittedHeight st' = Some h
    /\ (mempoolBusy (stat (trk l)) = false -> mempoolBusy st' = false).
Proof.
  intros ids Hinv Hc Hm. unfold commitWithMempoolCleanup.
  rewrite (run_bind_ok _ _ l (s_batch (syn l)) l) by done. fold ids. cbv zeta.
  set (hold := bool_decide (0 < length ids)).
  set (st1 := if hold then set_busy true (stat (trk l)) else stat (trk l)).
  set (l1 := mkLoop (set_stat st1 (trk l)) (syn l)).
  rewrite (run_bind_ok _ _ l tt l1).
  2:{ unfold l1, st1, when. destruct hold; [done|]. unfold mret, M_ret. f_equal. by destruct l as [[] ?]. }
  destruct (run_commitSection hm l1 ids h) as (s' & m & E & Hs & Hv & Htx & Hf & Hout);
    [done|done|by destruct Hm|].
  set (l2 := mkLoop _ _) in E.
  set (st2 := if hold then set_busy false (stat (trk l2)) else stat (trk l2)).
  set (l3 := mkLoop (set_stat st2 (trk l2)) (syn l)).
  rewrite (run_bind_ok _ _ l1 tt l3).
  2:{ unfold finally. rewrite E. unfold l3, st2, when. destruct hold; [done|].
      unfold mret, M_ret. do 2 f_equal. }
  exists s', m, st2. split_and!; try done.
  - unfold when, hold. case_bool_decide as Hlen; [done|].
    assert (Hnil : ids = []) by (destruct ids; [done|cbn in Hlen; lia]).
    unfold mret, M_ret. unfold l3. f_equal. f_equal. unfold set_cleanup, set_batch.
    fold ids. rewrite <- Hnil. unfold ids. destruct l as [? [? ? ? ? [] ? ?]]. done.
  - unfold st2. destruct hold; unfold l2, section_stat; by case_bool_decide.
  - intros Hbusy. unfold st2. destruct hold eqn:Eh; [done|].
    unfold l2, section_stat. case_bool_decide; cbn; unfold st1; by try rewrite Eh.
Qed.

Lemma pruned_nil V k : pruned [] V k = V k.
Proof. unfold pruned. by destruct (index_of k). Qed.

(** Pruning touches no output, hint or first-seen record. *)
Lemma store_inv_pruned s s' A :
  store_inv s -> db_wf (disk s') -> outputCache s' = outputCache s -> knownScripts s' = knownScripts s ->
  (forall k, wf_key k -> dk (disk s') k = if decide (k = KMeta PENDING_CLEANUP) then None
                                        else pruned A (dk (disk s)) k) ->
  store_inv s'.
Proof.
  intros [Hw Hh Hc Hk] Hw' Eca Ekn Hd.
  assert (Hu : forall k, wf_key k -> utxo_key k -> dk (disk s') k = dk (disk s) k).
  { intros k Hwk Hu. rewrite Hd by done. rewrite decide_False by by intros ->. by destruct k. }
  split; [done|..].
  - intros t i sh Ht Hi. rewrite (Hu (KOutHint t i)) by done. intros E.
    rewrite Hu; [by eapply Hh| |done]. split_and!; [|done|done]. exact (disk_hint_hash s t i sh Hw Ht Hi E).
  - intros t i sh v Ht Hi. rewrite Eca, (Hu (KOutHint t i)) by done. intros Hcv E.
    rewrite Hu; [by eapply Hc| |done]. split_and!; [|done|done]. exact (disk_hint_hash s t i sh Hw Ht Hi E).
  - intros k. rewrite Ekn. intros Hin. destruct (Hk k Hin) as (sh & Hsh & -> & Hs).
    exists sh. by rewrite Hu.
Qed.

(** Either way the aged blocks are pruned and nothing is left pending. *)
Lemma run_cleanup_any t :
  let w := win t in
  let A := blocksToClean (lastBlocks w) [] (pendingKMCleanup w) in
  (forall x, x ∈ pendingKMCleanup w -> is_hash x) ->
  store_inv (db t) -> transactionArray (db t) = None -> faults (db t) = [] ->
  exists s', cleanupAgedBlocks t = (Ok tt, set_win (set_pending [] w) (set_db s' t))
    /\ store_inv s' /\ transactionArray s' = None /\ faults s' = []
    /\ (forall k, wf_key k -> k <> KMeta PENDING_CLEANUP ->
         dk (disk s') k = pruned (h2b <$> A) (dk (disk (db t))) k).
Proof.
  intros w A Hh Hs Htx Hf. destruct (pendingKMCleanup w) as [|x p] eqn:Ep.
  - exists (db t). split_and!; try done.
    + unfold cleanupAgedBlocks. rewrite (run_bind_ok _ _ t w t) by done. rewrite Ep.
      unfold w in *. destruct t as [? ? [] ? ? ?]. cbn in *. by subst.
    + intros k _ _. unfold A. cbn. by rewrite pruned_nil.
  - destruct (run_cleanupAgedBlocks t) as (s' & E & Hd & Hw & ? & ? & ? & ? & Hf').
    + fold w. by rewrite Ep.
    + fold w. by rewrite Ep.
    + apply Hs.
    + unfold commit_ok. by rewrite Hf.
    + fold w in E, Hd. rewrite Ep in Hd. fold A in Hd.
      exists s'. split_and!; try done.
      * by eapply store_inv_pruned.
      * by rewrite Hf', Hf.
      * intros k Hk Hne. rewrite Hd by done. by rewrite decide_False.
Qed.

(** A flush is ready to go. *)
Record flush_ready (hm : Z) l : Prop := {
  fl_inv : sync_inv hm (db (trk l));
  fl_faults : faults (db (trk l)) = [];
  fl_mempool : mempool_ready (trk l) (pendingMempoolTxCleanup (s_batch (syn l)));
  fl_pending : forall x, x ∈ pendingKMCleanup (win (trk l)) -> is_hash x;
}.

(** What a flush leaves: the batch on the disk with the pointers on its last block,
    the aged blocks pruned, the mempool copies gone, an empty batch and the cursor
    on the block. *)
Record flushed l (hash : string) (h : Z) l' : Prop := {
  fd_store : store_inv (db (trk l'));
  fd_closed : transactionArray (db (trk l')) = None;
  fd_faults : faults (db (trk l')) = [];
  fd_records : forall k, wf_key k -> is_meta k = false ->
    dk (disk (db (trk l'))) k
    = pruned (h2b <$> blocksToClean (lastBlocks (win (trk l))) [] (pendingKMCleanup (win (trk l))))
        (vk (db (trk l))) k;
  fd_hash : dk (disk (db (trk l'))) (KMeta LAST_BLOCK_HASH) = Some (from_latin1 hash);
  fd_height : dk (disk (db (trk l'))) (KMeta LAST_BLOCK_HEIGHT) = Some (from_latin1 (to_radix 16 h));
  fd_window : win (trk l') = set_pending [] (win (trk l));
  fd_mempool : mined_out (pendingMempoolTxCleanup (s_batch (syn l)))
    (disk (mempoolDb (trk l))) (disk (mempoolDb (trk l')));
  fd_batch : s_batch (syn l') = empty_batch;
  fd_cursor : lastProcessedBlockIndex (syn l') = Some h /\ lastProcessedBlockHash (syn l') = Some hash;
  fd_committed : lastCommittedHeight (stat (trk l')) = Some h;
}.

Lemma run_flushBatch hm l hash h :
  flush_ready hm l ->
  exists l', flushBatch (Some hash) h l = (Ok tt, l') /\ flushed l hash h l'.
Proof.
  intros [Hinv Hf Hm Hp]. pose proof (fs_batch _ (si_first _ _ Hinv)) as Hb.
  set (s := db (trk l)) in *. set (p := pendingKMCleanup (win (trk l))) in *. unfold flushBatch.
  rewrite (run_bind_ok _ _ _ _ _ (run_on_store_ok _ l _ _ (run_setLastBlockHeight s h Hb))).
  set (s1 := stage_keys _ s). assert (Hb1 : in_batch s1) by by apply in_batch_stage.
  rewrite (run_bind_ok _ _ _ _ _ (run_on_store_ok _ (mkLoop (set_db s1 (trk l)) (syn l)) _ _
    (run_setLastBlockHash s1 hash Hb1))).
  set (s2 := stage_keys _ s1). assert (Hb2 : in_batch s2) by by apply in_batch_stage.
  set (l2 := mkLoop (set_db s2 _) _). rewrite (run_bind_ok _ _ l2 p l2) by done.
  set (s3 := stage_keys (flush_writes hash h p) s).
  set (l3 := mkLoop (set_db s3 (trk l)) (syn l)).
  rewrite (run_bind_ok _ _ l2 true l3).
  2:{ unfold l3, s3, flush_writes, pending_writes. case_bool_decide.
      - rewrite (run_on_store_ok _ l2 _ _ (run_put s2 P_PENDING_CLEANUP_KEY
          (from_latin1 (JSON_stringify p)) Hb2)).
        assert (Es : stage [(P_PENDING_CLEANUP_KEY, Some (from_latin1 (JSON_stringify p)))] s2
          = stage_keys (rev (pointers hash h) ++ [(KMeta PENDING_CLEANUP, Some (from_latin1 (JSON_stringify p)))]) s)
          by (unfold s2, s1, stage_keys; by rewrite <- !stage_app).
        by rewrite Es.
      - rewrite app_nil_r.
        assert (Es : s2 = stage_keys (rev (pointers hash h)) s)
          by (unfold s2, s1, stage_keys; by rewrite <- stage_app).
        by rewrite <- Es. }
  assert (Hinv3 : sync_inv hm (db (trk l3))) by by apply sync_inv_flush_writes.
  assert (Hf3 : faults (db (trk l3)) = [])
    by (change (faults (stage (enc_writes (flush_writes hash h p)) s) = []); by rewrite faults_stage).
  destruct (run_commitWithMempoolCleanup hm l3 h) as (s4 & m & st & E4 & Hs4 & Hv4 & Htx4 & Hf4 & Hout & Hst & _);
    [done|unfold commit_ok; by rewrite Hf3|by destruct Hm|].
  rewrite (run_bind_ok _ _ _ _ _ E4). set (l4 := mkLoop _ _).
  rewrite Hf3 in Hf4.
  destruct (run_cleanup_any (trk l4) Hp Hs4 Htx4 Hf4) as (s5 & E5 & Hs5 & Htx5 & Hf5 & Hv5).
  rewrite (run_bind_ok _ _ _ _ _ (run_on_trk_ok _ l4 _ _ E5)).
  eexists. split; [reflexivity|].
  assert (Hv : forall k, wf_key k -> k <> KMeta PENDING_CLEANUP ->
    dk (disk s5) k = pruned (h2b <$> blocksToClean (lastBlocks (win (trk l))) [] p) (vk s3) k).
  { intros k Hk Hne. rewrite Hv5 by done. unfold pruned. rewrite Hv4. done. }
  split; try done.
  - intros k Hk Hmk. change (dk (disk s5) k = pruned (h2b <$> blocksToClean (lastBlocks (win (trk l))) [] p) (vk s) k).
    rewrite Hv by (done || by intros ->). unfold pruned, s3. rewrite vk_flush_writes by done. by destruct k.
  - change (dk (disk s5) (KMeta LAST_BLOCK_HASH) = Some (from_latin1 hash)).
    rewrite Hv by done. unfold pruned, s3. cbn [index_of key_block]. by rewrite vk_flush_writes.
  - change (dk (disk s5) (KMeta LAST_BLOCK_HEIGHT) = Some (from_latin1 (to_radix 16 h))).
    rewrite Hv by done. unfold pruned, s3. cbn [index_of key_block]. by rewrite vk_flush_writes.
Qed.
End commit.
