(* ===== verification/Indexing.v ===== *)
(** A batch of blocks, from the first staged block to the flush: the disk goes from
    the records before the batch to the records after its chain of blocks, whatever
    was created and spent inside the batch, with the blocks that left the undo
    window pruned. *)

From S2P Require Import Prelude KeyCodec ValueCodec LevelDb Store Outputs StoreFacts.
From S2P Require Import Rollback Parsing Apply Spend Block Roundtrip Tracker Window Reorg SyncLoop.
From S2P Require Import Batch Undo Chain Forward.

#[local] Open Scope string_scope.
#[local] Open Scope nat_scope.
#[local] Open Scope list_scope.

Section batch.
Context {node : Node} {rpcs : NodeRpc} {env : LoopEnv} {DB : Type} `{LevelDbLaws DB}.
Implicit Types (s : store DB) (l : loop DB) (V : records).

(** * Blocks that may follow each other in one batch *)

(** [V0] are the stored records, [V] those after the blocks already staged.  The
    last condition rules out a second spend of a stored output in the batch. *)
Record next_ok V0 V (hm : Z) (b : block_data) : Prop := {
  nx_wf : block_wf b;
  nx_above : (hm < bd_height b)%Z;
  nx_stored : fresh_in V0 b;
  nx_fresh : fresh_in V b;
  nx_unspent : forall t i, (t, i) ∈ spent_ops b -> is_Some (V0 (KOutHint t i)) -> is_Some (V (KOutHint t i));
}.

Definition top_height (hm : Z) (bs : list block_data) : Z :=
  match last bs with Some b => bd_height b | None => hm end.

Inductive batch_ok V0 (hm : Z) : list block_data -> Prop :=
  | batch_nil : batch_ok V0 hm []
  | batch_snoc bs b :
      batch_ok V0 hm bs -> next_ok V0 (chain_records V0 bs) (top_height hm bs) b ->
      batch_ok V0 hm (bs ++ [b]).

Lemma batch_ok_snoc_inv V0 hm bs b :
  batch_ok V0 hm (bs ++ [b]) ->
  batch_ok V0 hm bs /\ next_ok V0 (chain_records V0 bs) (top_height hm bs) b.
Proof.
  inversion 1 as [E|bs' b' ? ? E]; [by destruct bs|]. by apply app_inj_tail in E as [-> ->].
Qed.

Lemma top_height_snoc hm bs b : top_height hm (bs ++ [b]) = bd_height b.
Proof. unfold top_height. by rewrite last_snoc. Qed.

(** Two families of records that agree where the schema speaks. *)
Definition agree V V' : Prop := forall k, wf_key k -> is_meta k = false -> V k = V' k.

Lemma fresh_in_agree V V' b : block_wf b -> agree V V' -> fresh_in V b -> fresh_in V' b.
Proof.
  intros Hb HV [Hf Ht Ho]. split.
  - intros k Hk E. rewrite <- HV; [by apply Hf|done|by destruct k].
  - intros x Hx. destruct (Ht x Hx) as [E1 E2].
    assert (Hx32 : hash32 x).
    { apply list_elem_of_fmap in Hx as (tx & -> & Htx). apply h2b_hash32.
      by apply (txo_id tx), (bk_txs _ Hb). }
    by rewrite <- !HV.
  - intros r Hr. destruct (Ho r Hr) as [E1 E2]. destruct (created_recs_wf b Hb r Hr) as (? & ? & ?).
    split; [by rewrite <- HV|]. intros sh Hsh. rewrite <- HV; [by apply E2|done|done].
Qed.

Lemma spent_op_wf b x i : block_wf b -> (x, i) ∈ spent_ops b -> hash32 x /\ u32 i.
Proof.
  intros Hb (inp & E & Hinp)%list_elem_of_fmap. injection E as -> ->.
  exact (sp_op_wf _ _ (spends_ok b inp Hb Hinp)).
Qed.

Lemma block_ok_next hm s b :
  sync_inv hm s -> next_ok (dk (disk s)) (vk s) hm b -> block_ok hm s b.
Proof.
  intros Hinv [Hb Ha Hs Hf Hu]. split; [done|done| |].
  - intros r Hr. destruct (created_recs_wf b Hb r Hr) as (Ht & Hi & _).
    destruct (fr_out _ _ Hs r Hr) as [Hd1 Hd2]. split_and!; [|done|done].
    destruct (staged s (enc (KOutHint (c_t r) (c_i r)))) as [it|] eqn:E; [|done]. exfalso.
    destruct (si_hint _ _ Hinv _ _ it Ht Hi E) as [[_ Hx]|(sh & -> & _)].
    + rewrite Hd1 in Hx. by destruct Hx.
    + destruct (fr_out _ _ Hf r Hr) as [Hv _]. rewrite vk_staged, E in Hv. done.
  - intros [x i] Hop. cbn [fst snd]. intros Hd.
    pose proof (spent_op_wf b x i Hb Hop) as Hwf.
    pose proof (Hu x i Hop Hd) as Hv. rewrite vk_staged in Hv.
    destruct (staged s (enc (KOutHint x i))) as [it|] eqn:E; [|done]. exfalso.
    destruct (si_hint _ _ Hinv x i it ltac:(apply Hwf) ltac:(apply Hwf) E) as [[-> _]|(sh & -> & Hn & _)].
    + by destruct Hv.
    + rewrite Hn in Hd. by destruct Hd.
Qed.

Lemma next_ok_agree V0 V V0' V' hm b :
  agree V0 V0' -> agree V V' -> next_ok V0 V hm b -> next_ok V0' V' hm b.
Proof.
  intros H0' HV [Hb Ha Hs Hf Hu]. split; [done|done|by eapply fresh_in_agree|by eapply fresh_in_agree|].
  intros x i Hop.
  pose proof (spent_op_wf b x i Hb Hop) as Hwf.
  rewrite <- H0', <- HV by done. by apply Hu.
Qed.

(** Hints hold script hashes. *)
Definition hints_hash V : Prop :=
  forall x i sh, hash32 x -> u32 i -> V (KOutHint x i) = Some sh -> hash32 sh.

(** The transition respects agreement. *)
Lemma committed_agree b V V' :
  block_wf b -> hints_hash V -> agree V V' -> agree (committed b V) (committed b V').
Proof.
  intros Hb HH HV k Hk Hm.
  assert (HC : forall k', wf_key k' -> is_meta k' = false -> with_created b V k' = with_created b V' k').
  { intros k' Hk' Hm'. pose proof (HV k' Hk' Hm') as E.
    destruct k'; cbn [with_created]; rewrite ?E; try done.
    rewrite (HV (KScriptBlk sh)); [done|apply Hk'|done]. }
  assert (HA : applied b V k = applied b V' k).
  { unfold applied. destruct (key_op k) as [op|] eqn:Eop; [|by apply HC].
    case_decide; [|by apply HC].
    destruct k; cbn [key_op] in Eop; try done; cbn [spend_view wf_key] in *; destruct_and?;
      rewrite ?(HC (KOutHint t i)), ?(HC (KOutput sh t i)), ?(HC (KOutDel bh sh t i)),
        ?(HC (KHintDel bh t i)) by done; try done.
    destruct (with_created b V' (KOutHint t i)) as [sh|] eqn:E; [|done].
    rewrite (HC (KOutput sh t i)); [done| |done]. split_and!; [|done|done].
    cbn [with_created] in E. rewrite <- HV in E by done.
    destruct (created_at (created b) (t, i)) as [r|] eqn:Ec; [|by eapply HH].
    injection E as <-. apply created_at_Some in Ec as [Hr _]. by apply (created_recs_wf b Hb). }
  destruct k; cbn [committed]; try done; by rewrite HV.
Qed.

(** * The run *)

(** The decoded form of a block: the parent hash in wire order. *)
Definition decoded_of (b : block_data) : decoded_block :=
  mkDecoded (rev (h2b (bd_prev b))) (bd_time b) (bd_txs b).

Lemma block_of_decoded b : block_of (decoded_of b) (bd_hash b) (bd_height b) (bd_prev b) = b.
Proof. by destruct b. Qed.

(** A block of the batch that does not trigger the flush ([indexNextBlock]). *)
Definition index_block (b : block_data) : M (loop DB) unit :=
  _ ← stageBlock (decoded_of b) (bd_hash b) (bd_height b) (bd_prev b);
  advanceCursor (Some (bd_hash b)) (Some (bd_height b)).

Definition windows (w : window) (bs : list block_data) : window :=
  foldl (fun w b => window_after (bd_hash b) w) w bs.

Definition mined_ids (bs : list block_data) : list string := flat_map (fun b => getId <$> bd_txs b) bs.

(** Between batches. *)
Record idle (hm : Z) l : Prop := {
  id_store : store_inv (db (trk l));
  id_batch : s_batch (syn l) = empty_batch;
  id_undo : (0 <= undoBlocks (win (trk l)))%Z;
  id_faults : faults (db (trk l)) = [];
}.

(** After the blocks [bs] of a batch that began at [l0]. *)
Record staged_run (hm : Z) l0 (bs : list block_data) l : Prop := {
  sg_inv : sync_inv (top_height hm bs) (staging_store l);
  sg_disk : disk (db (trk l)) = disk (db (trk l0));
  sg_faults : faults (db (trk l)) = faults (db (trk l0));
  sg_view : agree (chain_records (dk (disk (db (trk l0)))) bs) (vk (staging_store l));
  sg_quantity : blocksQuantity (s_batch (syn l)) = Z.of_nat (length bs);
  sg_cleanup : pendingMempoolTxCleanup (s_batch (syn l)) = mined_ids bs;
  sg_win : win (trk l) = windows (win (trk l0)) bs;
  sg_mempool : mempoolDb (trk l) = mempoolDb (trk l0);
}.

Lemma undo_windows w bs : undoBlocks (windows w bs) = undoBlocks w.
Proof. revert w. induction bs as [|b bs IH]; intros w; [done|]. cbn. by rewrite IH. Qed.

Lemma view_hints_hash hm s : sync_inv hm s -> hints_hash (vk s).
Proof.
  intros Hinv x i sh Hx Hi. rewrite vk_staged.
  destruct (staged s (enc (KOutHint x i))) as [it|] eqn:E.
  - destruct (si_hint _ _ Hinv x i it Hx Hi E) as [[-> _]|(sh' & -> & _)]; [done|].
    intros [= ->]. by destruct (si_mem _ _ Hinv x i sh Hx Hi ltac:(by rewrite E)) as (? & _).
  - intros Ed. by apply (db_wf_val _ (KOutHint x i) sh (si_wf _ _ Hinv)).
Qed.

Lemma staged_run_start hm l : idle hm l -> staged_run hm l [] l.
Proof.
  intros [Hs Hb Hu Hf].
  assert (E : staging_store l = opened (db (trk l))) by (unfold staging_store; by rewrite Hb).
  split; rewrite ?E, ?Hb; try done.
  - by apply sync_inv_begin.
Qed.

Lemma disk_staging l : disk (staging_store l) = disk (db (trk l)).
Proof. unfold staging_store. by case_bool_decide. Qed.

(** One more block. *)
Lemma run_stage_next hm l0 bs l b :
  (0 <= undoBlocks (win (trk l0)))%Z ->
  staged_run hm l0 bs l ->
  next_ok (dk (disk (db (trk l0)))) (chain_records (dk (disk (db (trk l0)))) bs) (top_height hm bs) b ->
  exists s' bt,
    stageBlock (decoded_of b) (bd_hash b) (bd_height b) (bd_prev b) l
    = (Ok tt, mkLoop (set_win (windows (win (trk l0)) (bs ++ [b])) (set_db s' (trk l))) (set_batch bt (syn l)))
    /\ blocksQuantity bt = Z.of_nat (length bs)
    /\ pendingMempoolTxCleanup bt = mined_ids (bs ++ [b])
    /\ sync_inv (bd_height b) s' /\ disk s' = disk (db (trk l0)) /\ faults s' = faults (db (trk l0))
    /\ agree (chain_records (dk (disk (db (trk l0)))) (bs ++ [b])) (vk s').
Proof.
  intros Hu [Hinv Hd Hf Hv Hq Hc Hw Hm] Hnx.
  assert (Hok : block_ok (top_height hm bs) (staging_store l) b).
  { apply block_ok_next; [done|]. eapply next_ok_agree; [| |exact Hnx]; [|done].
    rewrite disk_staging, Hd. done. }
  destruct (run_stageBlock (top_height hm bs) l (decoded_of b) (bd_hash b) (bd_height b) (bd_prev b))
    as (s' & bt & E & Hq' & Hc' & Hinv' & Hd' & Hf' & Hv');
    [done|by rewrite block_of_decoded|by rewrite Hw, undo_windows|].
  rewrite block_of_decoded in Hv'. exists s', bt. split_and!; try done.
  - rewrite E. do 3 f_equal. unfold windows. rewrite foldl_snoc. by rewrite Hw.
  - by rewrite Hq', Hq.
  - rewrite Hc', Hc. unfold mined_ids. rewrite flat_map_app. cbn. by rewrite app_nil_r.
  - by rewrite Hd', Hd.
  - by rewrite Hf', Hf.
  - intros k Hk Hmk. rewrite Hv' by done. rewrite chain_records_snoc.
    symmetry. apply (committed_agree b); [apply (nx_wf _ _ _ _ Hnx)|by eapply view_hints_hash| |done|done].
    intros k' Hk' Hm'. symmetry. by apply Hv.
Qed.

Lemma run_index_block hm l0 bs l b :
  (0 <= undoBlocks (win (trk l0)))%Z ->
  staged_run hm l0 bs l ->
  next_ok (dk (disk (db (trk l0)))) (chain_records (dk (disk (db (trk l0)))) bs) (top_height hm bs) b ->
  exists l', index_block b l = (Ok tt, l') /\ staged_run hm l0 (bs ++ [b]) l'.
Proof.
  intros Hu Hl Hnx.
  destruct (run_stage_next hm l0 bs l b Hu Hl Hnx) as (s' & bt & E & Hq & Hc & Hinv & Hd & Hf & Hv).
  unfold index_block. rewrite (run_bind_ok _ _ _ _ _ E). unfold advanceCursor.
  rewrite (run_bind_ok _ _ _ _ _ (run_sync_mod _ _)), run_sync_mod. cbn.
  eexists. split; [done|].
  assert (Es : forall t y, blocksQuantity (s_batch y) = (blocksQuantity bt + 1)%Z ->
    staging_store (mkLoop (set_win t (set_db s' (trk l))) y) = s').
  { intros t y Ey. unfold staging_store. cbn. rewrite Ey, bool_decide_eq_false_2; [done|lia]. }
  split; cbn; rewrite ?Es by done; try done.
  - by rewrite top_height_snoc.
  - rewrite Hq, length_app. cbn. lia.
  - apply Hl.
Qed.

Lemma run_index_blocks hm l0 bs :
  idle hm l0 -> batch_ok (dk (disk (db (trk l0)))) hm bs ->
  exists l, forM bs index_block l0 = (Ok tt, l) /\ staged_run hm l0 bs l.
Proof.
  intros Hid. induction 1 as [|bs b Hbs (l & E & Hl) Hnx].
  - exists l0. split; [done|]. by apply staged_run_start.
  - destruct (run_index_block hm l0 bs l b (id_undo _ _ Hid) Hl Hnx) as (l' & E' & Hl').
    exists l'. split; [|done]. rewrite (run_forM_app _ _ _ _ _ E). cbn [forM].
    by rewrite (run_bind_ok _ _ _ _ _ E').
Qed.

(** The block that triggers the flush, after the blocks [bs] of its batch. *)
Definition index_batch (bs : list block_data) (b : block_data) : M (loop DB) unit :=
  _ ← forM bs index_block;
  _ ← stageBlock (decoded_of b) (bd_hash b) (bd_height b) (bd_prev b);
  flushBatch (Some (bd_hash b)) (bd_height b).

(** Every hash the window handles is one. *)
Definition window_hashes (w : window) : Prop :=
  forall x, x ∈ lastBlocks w ++ pendingKMCleanup w -> is_hash x.

Lemma window_after_hashes h w : is_hash h -> window_hashes w -> window_hashes (window_after h w).
Proof.
  intros Hh Hw x. unfold window_after. cbn [lastBlocks pendingKMCleanup].
  set (n := aged _ _). intros Hx.
  assert (Hin : x ∈ (lastBlocks w ++ [h]) ++ pendingKMCleanup w).
  { rewrite <- (take_drop n (lastBlocks w ++ [h])). set_solver. }
  rewrite !elem_of_app, list_elem_of_singleton in Hin.
  destruct Hin as [[Hin| ->]|Hin]; [apply Hw; set_solver|done|apply Hw; set_solver].
Qed.

Lemma windows_hashes w bs :
  (forall b, b ∈ bs -> is_hash (bd_hash b)) -> window_hashes w -> window_hashes (windows w bs).
Proof.
  revert w. induction bs as [|b bs IH]; intros w Hb Hw; [done|]. cbn.
  apply IH; [set_solver|]. apply window_after_hashes; [set_solver|done].
Qed.

Lemma batch_ok_wf V0 hm bs b : batch_ok V0 hm bs -> b ∈ bs -> block_wf b.
Proof.
  induction 1 as [|bs b' _ IH Hnx]; [by rewrite elem_of_nil|].
  rewrite elem_of_app, list_elem_of_singleton. intros [?| ->]; [by apply IH|apply (nx_wf _ _ _ _ Hnx)].
Qed.

Lemma mined_ids_hash V0 hm bs x : batch_ok V0 hm bs -> x ∈ mined_ids bs -> is_hash x.
Proof.
  intros Hbs. unfold mined_ids. rewrite list_elem_of_In, in_flat_map. intros (b & Hb & Hx).
  apply list_elem_of_In in Hb, Hx. apply list_elem_of_fmap in Hx as (tx & -> & Htx).
  by apply (txo_id tx), (bk_txs _ (batch_ok_wf _ _ _ _ Hbs Hb)).
Qed.

(** What indexing a batch leaves. *)
Record indexed l0 (bs : list block_data) (hash : string) (h : Z) l : Prop := {
  ix_store : store_inv (db (trk l));
  ix_closed : transactionArray (db (trk l)) = None;
  ix_records : agree (dk (disk (db (trk l))))
    (pruned (h2b <$> blocksToClean (lastBlocks (windows (win (trk l0)) bs)) []
               (pendingKMCleanup (windows (win (trk l0)) bs)))
       (chain_records (dk (disk (db (trk l0)))) bs));
  ix_hash : dk (disk (db (trk l))) (KMeta LAST_BLOCK_HASH) = Some (from_latin1 hash);
  ix_height : dk (disk (db (trk l))) (KMeta LAST_BLOCK_HEIGHT) = Some (from_latin1 (to_radix 16 h));
  ix_window : win (trk l) = set_pending [] (windows (win (trk l0)) bs);
  ix_mempool : mined_out (mined_ids bs) (disk (mempoolDb (trk l0))) (disk (mempoolDb (trk l)));
  ix_cursor : lastProcessedBlockIndex (syn l) = Some h /\ lastProcessedBlockHash (syn l) = Some hash;
  ix_committed : lastCommittedHeight (stat (trk l)) = Some h;
  ix_idle : idle h l;
}.

Lemma pruned_agree A V V' : agree V V' -> agree (pruned A V) (pruned A V').
Proof. intros HV k Hk Hm. unfold pruned. by rewrite HV. Qed.

Lemma run_index_batch hm l0 bs b :
  idle hm l0 -> batch_ok (dk (disk (db (trk l0)))) hm (bs ++ [b]) ->
  window_hashes (win (trk l0)) ->
  db_wf (disk (mempoolDb (trk l0))) -> commit_ok (mempoolDb (trk l0)) ->
  exists l, index_batch bs b l0 = (Ok tt, l) /\ indexed l0 (bs ++ [b]) (bd_hash b) (bd_height b) l.
Proof.
  intros Hid Hbb Hw Hmw Hmc.
  destruct (batch_ok_snoc_inv _ _ _ _ Hbb) as [Hbs Hnx].
  destruct (run_index_blocks hm l0 bs Hid Hbs) as (l1 & E1 & Hl1).
  destruct (run_stage_next hm l0 bs l1 b (id_undo _ _ Hid) Hl1 Hnx)
    as (s' & bt & E2 & Hq & Hc & Hinv & Hd & Hf & Hv).
  unfold index_batch. rewrite (run_bind_ok _ _ _ _ _ E1), (run_bind_ok _ _ _ _ _ E2).
  set (w := windows _ _) in *. set (l2 := mkLoop _ _).
  assert (Hw2 : window_hashes w).
  { apply windows_hashes; [|done]. intros b' Hb'. by apply (bk_hash b'), (batch_ok_wf _ _ _ _ Hbb). }
  destruct (run_flushBatch (bd_height b) l2 (bd_hash b) (bd_height b)) as (l & E3 & HF).
  { split; cbn.
    - done.
    - by rewrite Hf, (id_faults _ _ Hid).
    - split; cbn; [|by rewrite (sg_mempool _ _ _ _ Hl1)|by rewrite (sg_mempool _ _ _ _ Hl1)].
      rewrite Hc. intros x. by apply (mined_ids_hash _ _ _ _ Hbb).
    - intros x Hx. apply Hw2. apply elem_of_app. by right. }
  exists l. split; [done|]. destruct HF as [F1 F2 F3 F4 F5 F6 F7 F8 F9 F10 F11]. cbn in *.
  split; try done.
  - intros k Hk Hm. rewrite F4 by done. symmetry. by apply pruned_agree.
  - by rewrite <- Hc, <- (sg_mempool _ _ _ _ Hl1).
  - split; try done. rewrite F7. cbn. unfold w. rewrite undo_windows. apply Hid.
Qed.
End batch.
