(* ===== verification/Utxo.v ===== *)
(** The abstract specification: the set of unspent outputs.  A block removes the
    outpoints it spends and adds the outputs it creates; the records of the store are
    shown to follow it, block after block, and a new block is always fresh over a chain
    it shares no identifier with. *)

From S2P Require Import Prelude KeyCodec ValueCodec LevelDb Store Outputs StoreFacts.
From S2P Require Import Rollback Parsing Apply Spend Block Roundtrip Tracker Window Reorg SyncLoop Batch Undo Chain Forward Indexing.

#[local] Open Scope nat_scope.
#[local] Open Scope list_scope.

Section utxo.
Context {node : Node}.
Implicit Types (V : records) (b : block_data).

(** The unspent outputs: script hash and value of each outpoint. *)
Definition utxo_set : Type := bytes * Z -> option (bytes * bytes).

(** What a block does to them: its spends win over its own outputs. *)
Definition apply_block b (U : utxo_set) : utxo_set := fun op =>
  if decide (op ∈ spent_ops b) then None
  else match created_at (created b) op with
       | Some r => Some (c_sh r, c_v r)
       | None => U op
       end.

Definition apply_chain (U : utxo_set) (bs : list block_data) : utxo_set :=
  foldl (fun U b => apply_block b U) U bs.

(** The set the records describe: a hint and the output it points at. *)
Definition live_outputs V : utxo_set := fun op =>
  sh ← V (KOutHint op.1 op.2); v ← V (KOutput sh op.1 op.2); Some (sh, v).

Definition same_utxos (U U' : utxo_set) : Prop :=
  forall t i, hash32 t -> u32 i -> U (t, i) = U' (t, i).

#[global] Instance same_utxos_equivalence : Equivalence same_utxos.
Proof.
  split.
  - by intros U t i _ _.
  - intros U U' HU t i Ht Hi. by rewrite HU.
  - intros U1 U2 U3 H1 H2 t i Ht Hi. by rewrite H1, H2.
Qed.

#[global] Instance apply_block_proper b : Proper (same_utxos ==> same_utxos) (apply_block b).
Proof. intros U U' HU t i Ht Hi. unfold apply_block. case_decide; [done|]. destruct (created_at _ _); [done|]. by apply HU. Qed.

Lemma committed_hint V b t i :
  committed b V (KOutHint t i)
  = if decide ((t, i) ∈ spent_ops b) then None
    else match created_at (created b) (t, i) with Some r => Some (c_sh r) | None => V (KOutHint t i) end.
Proof. reflexivity. Qed.

Lemma committed_output V b sh t i :
  (t, i) ∉ spent_ops b ->
  committed b V (KOutput sh t i)
  = match created_at (created b) (t, i) with
    | Some r => if decide (c_sh r = sh) then Some (c_v r) else V (KOutput sh t i)
    | None => V (KOutput sh t i)
    end.
Proof. intros Hn. cbn [committed]. unfold applied. cbn [key_op]. by rewrite decide_False. Qed.

(** The records follow the specification. *)
Lemma live_committed V b : same_utxos (live_outputs (committed b V)) (apply_block b (live_outputs V)).
Proof.
  intros t i Ht Hi. unfold live_outputs, apply_block. cbn [fst snd]. rewrite committed_hint.
  case_decide as Hs; [done|].
  destruct (created_at (created b) (t, i)) as [r|] eqn:E; cbn [mbind option_bind].
  - rewrite committed_output, E by done. by rewrite decide_True.
  - destruct (V (KOutHint t i)) as [sh|]; [|done]. cbn [mbind option_bind].
    by rewrite committed_output, E.
Qed.

Lemma live_chain V bs : same_utxos (live_outputs (chain_records V bs)) (apply_chain (live_outputs V) bs).
Proof.
  induction bs as [|b bs IH] using rev_ind; [done|].
  rewrite chain_records_snoc, live_committed. unfold apply_chain. rewrite foldl_snoc.
  apply apply_block_proper, IH.
Qed.

(** Hints keep pointing at outputs. *)
Lemma committed_hints V b : hints_ok V -> hints_ok (committed b V).
Proof.
  intros HV t i sh Ht Hi. rewrite committed_hint. case_decide as Hs; [done|].
  intros Hh. rewrite committed_output by done.
  destruct (created_at (created b) (t, i)) as [r|]; [|by apply HV].
  injection Hh as ->. by rewrite decide_True.
Qed.

(** ** Fresh blocks *)

(** Two blocks that share no hash and no transaction. *)
Record disjoint_blocks b b' : Prop := {
  dj_hash : h2b (bd_hash b) <> h2b (bd_hash b');
  dj_txids : forall t, t ∈ txids b' -> t ∉ txids b;
}.

Lemma created_txid b r : r ∈ created b -> c_t r ∈ txids b.
Proof. intros (tx & n & o & Htx & _ & ->)%elem_of_created. apply list_elem_of_fmap. by exists tx. Qed.

Lemma created_at_other b b' t i : disjoint_blocks b b' -> t ∈ txids b' -> created_at (created b) (t, i) = None.
Proof.
  intros Hd Ht. destruct (created_at (created b) (t, i)) as [r|] eqn:E; [|done].
  apply created_at_Some in E as [Hr Er]. injection Er as <- _.
  by destruct (dj_txids _ _ Hd _ Ht (created_txid b r Hr)).
Qed.

Lemma committed_other_block V b k bh :
  key_block k = Some bh -> bh <> h2b (bd_hash b) -> committed b V k = V k.
Proof.
  intros Hk Hne.
  assert (HW : forall k', key_block k' = Some bh -> with_created b V k' = V k').
  { intros k' Hk'. destruct k'; cbn [key_block with_created] in *; try done; injection Hk' as ->;
      by repeat (rewrite decide_False by naive_solver). }
  destruct k; cbn [key_block committed] in *; try done; try injection Hk as ->;
    try (by rewrite decide_False); unfold applied; cbn [key_op]; try (by apply HW);
    case_decide; try (by apply HW); cbn [spend_view]; rewrite decide_False by naive_solver; by apply HW.
Qed.

Lemma fresh_committed V b b' : fresh_in V b' -> disjoint_blocks b b' -> fresh_in (committed b V) b'.
Proof.
  intros [Hk Ht Ho] Hd. split.
  - intros k Hw E. rewrite (committed_other_block V b k (h2b (bd_hash b'))); [by apply Hk|done|].
    intros E'. by apply (dj_hash _ _ Hd).
  - intros t Hin. destruct (Ht t Hin) as [H1 H2]. pose proof (dj_txids _ _ Hd t Hin).
    cbn [committed]. unfold applied. cbn [key_op with_created]. by rewrite !decide_False.
  - intros r Hr. destruct (Ho r Hr) as [H1 H2]. pose proof (created_txid b' r Hr) as Hin.
    pose proof (created_at_other b b' (c_t r) (c_i r) Hd Hin) as Hc. split.
    + rewrite committed_hint, Hc. by case_decide.
    + intros sh Hsh. destruct (decide ((c_t r, c_i r) ∈ spent_ops b)) as [Hs|Hs].
      * cbn [committed]. unfold applied. cbn [key_op]. rewrite decide_True by done. cbn [spend_view with_created].
        rewrite Hc. case_decide; [done|]. by apply H2.
      * rewrite committed_output, Hc by done. by apply H2.
Qed.

Lemma fresh_chain V bs b' :
  fresh_in V b' -> (forall b, b ∈ bs -> disjoint_blocks b b') -> fresh_in (chain_records V bs) b'.
Proof.
  intros HV. induction bs as [|b bs IH] using rev_ind; intros Hd; [done|].
  rewrite chain_records_snoc. apply fresh_committed; [apply IH|apply Hd]; set_solver.
Qed.

Lemma chain_hints V bs : hints_ok V -> hints_ok (chain_records V bs).
Proof.
  intros HV. induction bs as [|b bs IH] using rev_ind; [done|].
  rewrite chain_records_snoc. by apply committed_hints.
Qed.

(** Blocks that share nothing, over records that know none of them, form a chain. *)
Lemma chain_ok_disjoint V bs :
  hints_ok V -> (forall b, b ∈ bs -> block_wf b /\ fresh_in V b) ->
  (forall bs1 b bs2, bs = bs1 ++ b :: bs2 -> forall a, a ∈ bs1 -> disjoint_blocks a b) ->
  chain_ok V bs.
Proof.
  intros HV. induction bs as [|b bs IH] using rev_ind; intros Hw Hd; [constructor|].
  destruct (Hw b) as [Hb Hf]; [set_solver|]. constructor; [|done| |by apply chain_hints].
  - apply IH; [set_solver|]. intros bs1 c bs2 -> a Ha. apply (Hd bs1 c (bs2 ++ [b])); [|done].
    by rewrite <- app_assoc.
  - apply fresh_chain; [done|]. intros a Ha. by apply (Hd bs b []).
Qed.
End utxo.

(** * Agreement *)

Section agree.
Context {node : Node} {DB : Type} `{LevelDbLaws DB}.

#[global] Instance apply_chain_proper bs : Proper (same_utxos ==> same_utxos) (fun U => apply_chain U bs).
Proof.
  intros U U' HU. unfold apply_chain. induction bs as [|b bs IH] using rev_ind; [done|]. rewrite !foldl_snoc. by apply apply_block_proper.
Qed.

(** Agreeing records describe the same unspent outputs. *)
Lemma live_agree (V V' : records) : hints_hash V -> agree V V' -> same_utxos (live_outputs V) (live_outputs V').
Proof.
  intros HH HV t i Ht Hi. unfold live_outputs. cbn [fst snd]. rewrite <- (HV (KOutHint t i)) by done.
  destruct (V (KOutHint t i)) as [sh|] eqn:E; [|done]. cbn [mbind option_bind].
  rewrite <- (HV (KOutput sh t i)); [done| |done]. split_and!; [by eapply HH|done..].
Qed.

(** Pruning leaves the unspent outputs alone. *)
Lemma live_pruned A V : same_utxos (live_outputs (pruned A V)) (live_outputs V).
Proof. by intros t i _ _. Qed.

Lemma disk_hints_hash (d : DB) : db_wf d -> hints_hash (dk d).
Proof. intros Hd x i sh Hx Hi E. by apply (db_wf_val d (KOutHint x i) sh Hd). Qed.
End agree.
