(* ===== verification/CommitLock.v ===== *)
(** The store-commit lock ([XChainUtxoTracker/store_commit_lock.js]): shared readers,
    one exclusive writer, the writer preferred.  The tasks of the process run one at a
    time between their awaits, so a schedule is a sequence of task turns; each turn
    below is the code from one await to the next. *)

From S2P Require Import Prelude.
From stdpp Require Import list.

#[local] Open Scope nat_scope.
#[local] Open Scope list_scope.

(** Where a task stands.  [Try] and [Drain]: about to test its loop condition;
    [Blocked]: awaiting the promise it pushed on [waiters]. *)
Inductive pc :=
  | RTry | RBlocked | RRead | RDone
  | WTry | WBlocked | WDrain | WDrainBlocked | WCommit | WDone.

#[global] Instance pc_eq_dec : EqDecision pc.
Proof. solve_decision. Defined.

Record lock := mkLock { readers : nat; writing : bool; waiters : list nat }.

Record sched := mkSched { lk : lock; tasks : list pc }.

(** A resolved waiter runs its loop test again. *)
Definition wake_pc (p : pc) : pc :=
  match p with RBlocked => RTry | WBlocked => WTry | WDrainBlocked => WDrain | _ => p end.

Definition wakeLockWaiters (st : sched) : sched :=
  mkSched (mkLock (readers (lk st)) (writing (lk st)) [])
    (imap (fun i p => if bool_decide (i ∈ waiters (lk st)) then wake_pc p else p) (tasks st)).

Definition waitForLockChange (i : nat) (blocked : pc) (st : sched) : sched :=
  mkSched (mkLock (readers (lk st)) (writing (lk st)) (waiters (lk st) ++ [i]))
    (<[i:=blocked]> (tasks st)).

(** A turn of a task in [withStoreRead]. *)
Definition withStoreRead (i : nat) (p : pc) (st : sched) : option sched :=
  let l := lk st in
  match p with
  | RTry =>
      Some (if writing l then waitForLockChange i RBlocked st
            else mkSched (mkLock (S (readers l)) (writing l) (waiters l)) (<[i:=RRead]> (tasks st)))
  | RRead =>
      let st := mkSched (mkLock (readers l - 1) (writing l) (waiters l)) (<[i:=RDone]> (tasks st)) in
      Some (if bool_decide (readers l - 1 = 0) then wakeLockWaiters st else st)
  | _ => None
  end.

(** [while (lock.readers > 0) await ...], then the commit starts. *)
Definition drainTest (i : nat) (st : sched) : sched :=
  if bool_decide (0 < readers (lk st)) then waitForLockChange i WDrainBlocked st
  else mkSched (lk st) (<[i:=WCommit]> (tasks st)).

(** A turn of a task in [withStoreCommit]. *)
Definition withStoreCommit (i : nat) (p : pc) (st : sched) : option sched :=
  let l := lk st in
  match p with
  | WTry =>
      Some (if writing l then waitForLockChange i WBlocked st
            else drainTest i (mkSched (mkLock (readers l) true (waiters l)) (tasks st)))
  | WDrain => Some (drainTest i st)
  | WCommit =>
      Some (wakeLockWaiters (mkSched (mkLock (readers l) false (waiters l)) (<[i:=WDone]> (tasks st))))
  | _ => None
  end.

Definition is_reader (p : pc) : bool :=
  match p with RTry | RBlocked | RRead | RDone => true | _ => false end.

(** The turn of task [i]; a task that waits or is done has none. *)
Definition turn (i : nat) (st : sched) : option sched :=
  p ← tasks st !! i;
  if is_reader p then withStoreRead i p st else withStoreCommit i p st.

Inductive step : sched -> sched -> Prop :=
  | step_turn i st st' : turn i st = Some st' -> step st st'.

(** The lock as created: reads and commits arrive in any number. *)
Definition storeLock : lock := mkLock 0 false [].

Definition initial (st : sched) : Prop :=
  lk st = storeLock /\ forall p, p ∈ tasks st -> p = RTry \/ p = WTry.

Definition reachable (st : sched) : Prop := exists st0, initial st0 /\ rtc step st0 st.

(** * The invariant *)

Definition reading (p : pc) : nat := match p with RRead => 1 | _ => 0 end.
Definition holding (p : pc) : nat := match p with WDrain | WDrainBlocked | WCommit => 1 | _ => 0 end.
Definition sum_of (f : pc -> nat) (st : sched) : nat := sum_list (f <$> tasks st).

Record lock_inv (st : sched) : Prop := {
  li_readers : readers (lk st) = sum_of reading st;
  li_writing : (if writing (lk st) then 1 else 0) = sum_of holding st;
  li_commit : WCommit ∈ tasks st -> readers (lk st) = 0;
  li_waiting : forall i p, tasks st !! i = Some p -> wake_pc p <> p -> i ∈ waiters (lk st);
  li_entry : RBlocked ∈ tasks st \/ WBlocked ∈ tasks st -> writing (lk st) = true;
  li_drain : WDrainBlocked ∈ tasks st -> 0 < readers (lk st);
}.

Lemma sum_insert (f : pc -> nat) l i x y :
  l !! i = Some x -> sum_list (f <$> <[i:=y]> l) + f x = sum_list (f <$> l) + f y.
Proof.
  revert i. induction l as [|z l IH]; intros [|i] Hi; try done.
  - injection Hi as ->. cbn. unfold id. lia.
  - specialize (IH i Hi).
    change (f z + sum_list (f <$> <[i:=y]> l) + f x = f z + sum_list (f <$> l) + f y). lia.
Qed.

Lemma sum_lookup (f : pc -> nat) l i x : l !! i = Some x -> f x <= sum_list (f <$> l).
Proof.
  revert i. induction l as [|z l IH]; intros [|i] Hi; try done; cbn in *; unfold id in *.
  - injection Hi as ->. lia.
  - specialize (IH i Hi). lia.
Qed.

Lemma sum_positive (f : pc -> nat) l : 0 < sum_list (f <$> l) -> exists i x, l !! i = Some x /\ 0 < f x.
Proof.
  induction l as [|z l IH]; [cbn; lia|]. intros Hp.
  change (0 < f z + sum_list (f <$> l)) in Hp.
  destruct (decide (0 < f z)) as [Hz|]; [by exists 0, z|].
  destruct IH as (i & x & Hi & Hx); [lia|]. by exists (S i), x.
Qed.

Lemma sum_imap_wake (f : pc -> nat) (b : nat -> bool) l :
  (forall p, f (wake_pc p) = f p) ->
  sum_list (f <$> imap (fun i p => if b i then wake_pc p else p) l) = sum_list (f <$> l).
Proof.
  intros Hf. revert b. induction l as [|p l IH]; intros b; [done|].
  rewrite imap_cons, !fmap_cons. cbn. unfold id. f_equal; [by destruct (b 0)|].
  exact (IH (fun i => b (S i))).
Qed.

(** After a wake nobody is blocked, and nothing else changed. *)
Lemma wake_inv st :
  readers (lk st) = sum_of reading st ->
  (if writing (lk st) then 1 else 0) = sum_of holding st ->
  (WCommit ∈ tasks st -> readers (lk st) = 0) ->
  (forall i p, tasks st !! i = Some p -> wake_pc p <> p -> i ∈ waiters (lk st)) ->
  lock_inv (wakeLockWaiters st).
Proof.
  intros Hr Hw Hc Hb.
  assert (Hall : forall i p, tasks (wakeLockWaiters st) !! i = Some p ->
    exists q, tasks st !! i = Some q /\ p = wake_pc q).
  { intros i p. cbn. rewrite list_lookup_imap. intros (q & E & ->)%fmap_Some.
    exists q. split; [done|]. case_bool_decide as Hin; [done|].
    destruct (decide (wake_pc q = q)); [done|]. by destruct (Hin (Hb i q E ltac:(done))). }
  assert (Hnone : forall p, p ∈ tasks (wakeLockWaiters st) -> wake_pc p = p).
  { intros p (i & (q & _ & ->)%Hall)%list_elem_of_lookup. by destruct q. }
  split.
  - unfold sum_of. cbn. by rewrite (sum_imap_wake reading (fun i => bool_decide (i ∈ waiters (lk st)))) by by intros [].
  - unfold sum_of. cbn. by rewrite (sum_imap_wake holding (fun i => bool_decide (i ∈ waiters (lk st)))) by by intros [].
  - intros (i & (q & Eq & Ep)%Hall)%list_elem_of_lookup. apply Hc.
    apply list_elem_of_lookup. exists i. by destruct q.
  - intros i p Hi Hp. exfalso. apply Hp, Hnone. apply list_elem_of_lookup. by exists i.
  - intros [Hin|Hin]; by apply Hnone in Hin.
  - intros Hin. by apply Hnone in Hin.
Qed.

Lemma elem_of_insert_other (l : list pc) i (x y : pc) : y ∈ <[i:=x]> l -> y <> x -> y ∈ l.
Proof.
  intros (j & Hj)%list_elem_of_lookup Hne. apply list_elem_of_lookup.
  apply list_lookup_insert_Some in Hj as [(_ & E & _)|[_ Hj]]; [by destruct Hne|by exists j].
Qed.

(** No committing task while the flag is down. *)
Lemma no_commit st : lock_inv st -> writing (lk st) = false -> WCommit ∉ tasks st.
Proof.
  intros HI Hw (i & Hi)%list_elem_of_lookup. pose proof (li_writing _ HI) as H1. rewrite Hw in H1.
  pose proof (sum_lookup holding _ _ _ Hi) as H2. unfold sum_of in H1. cbn in H2. lia.
Qed.

(** The only holder of the flag. *)
Lemma one_holder st i j p q :
  lock_inv st -> tasks st !! i = Some p -> tasks st !! j = Some q ->
  holding p = 1 -> holding q = 1 -> i = j.
Proof.
  intros HI Hi Hj Hp Hq. destruct (decide (i = j)) as [|Hne]; [done|exfalso].
  pose proof (li_writing _ HI) as H1. unfold sum_of in H1.
  pose proof (sum_insert holding _ i p RDone Hi) as H2.
  pose proof (sum_lookup holding (<[i:=RDone]> (tasks st)) j q) as H3.
  rewrite list_lookup_insert_ne in H3 by done. specialize (H3 Hj). cbn in H2.
  destruct (writing (lk st)); lia.
Qed.

Lemma total_insert (f : pc -> nat) st l i p q :
  tasks st !! i = Some p -> sum_of f (mkSched l (<[i:=q]> (tasks st))) + f p = sum_of f st + f q.
Proof. intros Hi. unfold sum_of. cbn. by apply sum_insert. Qed.

(** Task [i] moves on, within the lock's bookkeeping. *)
Lemma move_inv st i p q l :
  lock_inv st -> tasks st !! i = Some p ->
  readers l + reading p = readers (lk st) + reading q ->
  (if writing l then 1 else 0) + holding p = (if writing (lk st) then 1 else 0) + holding q ->
  (forall j, j ∈ waiters (lk st) -> j ∈ waiters l) -> (wake_pc q <> q -> i ∈ waiters l) ->
  (writing (lk st) = true -> writing l = true) ->
  (q = RBlocked \/ q = WBlocked -> writing l = true) ->
  (q = WDrainBlocked -> 0 < readers l) ->
  (WDrainBlocked ∈ tasks st -> p <> WDrainBlocked -> 0 < readers l) ->
  (q = WCommit -> readers l = 0) -> (WCommit ∈ tasks st -> p <> WCommit -> readers l = 0) ->
  wake_pc p = p ->
  lock_inv (mkSched l (<[i:=q]> (tasks st))).
Proof.
  intros HI Hi Hr Hw Hsub Hwait Hmono Hentry Hdrain Hdrain' Hcommit Hcommit' Hp.
  pose proof (total_insert reading st l i p q Hi) as H1.
  pose proof (total_insert holding st l i p q Hi) as H2.
  pose proof (li_readers _ HI). pose proof (li_writing _ HI).
  assert (Hin : forall y, y ∈ tasks (mkSched l (<[i:=q]> (tasks st))) -> y = q \/ y ∈ tasks st).
  { intros y Hy. destruct (decide (y = q)); [by left|right]. by eapply elem_of_insert_other. }
  split; cbn [lk tasks].
  - lia.
  - destruct (writing l), (writing (lk st)); lia.
  - intros Hc. destruct (decide (p = WCommit)) as [->|Hne].
    + destruct (decide (q = WCommit)) as [->|Hq]; [by apply Hcommit|].
      (* the committing task left: another one would hold the flag too *)
      exfalso. apply list_elem_of_lookup in Hc as (j & Hj).
      apply list_lookup_insert_Some in Hj as [(_ & E & _)|[Hne Hj]]; [by destruct Hq|].
      by apply Hne, (one_holder st i j WCommit WCommit).
    + destruct (Hin _ Hc) as [<-|Hc']; [by apply Hcommit|by apply Hcommit'].
  - intros j y Hj Hy. apply list_lookup_insert_Some in Hj as [(<- & <- & _)|[Hne Hj]]; [by apply Hwait|].
    by eapply Hsub, li_waiting.
  - intros [Hb|Hb]; destruct (Hin _ Hb) as [E|Hb'];
      [apply Hentry; by left|apply Hmono, (li_entry _ HI); by left
      |apply Hentry; by right|apply Hmono, (li_entry _ HI); by right].
  - intros Hb. destruct (Hin _ Hb) as [E|Hb']; [by apply Hdrain|].
    apply Hdrain'; [done|]. intros ->. by cbn in Hp.
Qed.

Lemma block_inv st i p b :
  lock_inv st -> tasks st !! i = Some p -> wake_pc p = p -> wake_pc b = p -> b <> p ->
  (b = RBlocked \/ b = WBlocked -> writing (lk st) = true) ->
  (b = WDrainBlocked -> 0 < readers (lk st)) ->
  lock_inv (waitForLockChange i b st).
Proof.
  intros HI Hi Hp Hb Hne Hentry Hdrain. unfold waitForLockChange.
  apply (move_inv st i p b); cbn [readers writing waiters]; try done.
  - by destruct b; simplify_eq.
  - by destruct b; simplify_eq.
  - intros j Hj. apply elem_of_app. by left.
  - intros _. apply elem_of_app. right. by apply list_elem_of_singleton.
  - intros Hin _. by apply (li_drain _ HI).
  - intros ->. by destruct Hne.
  - intros Hin _. by apply (li_commit _ HI).
Qed.

Lemma drain_inv st i : lock_inv st -> tasks st !! i = Some WDrain -> lock_inv (drainTest i st).
Proof.
  intros HI Hi. unfold drainTest. case_bool_decide as Hr.
  - apply (block_inv st i WDrain); try done. by intros [|].
  - destruct st as [[r w ws] ts]. cbn [lk readers tasks] in *.
    apply (move_inv (mkSched (mkLock r w ws) ts) i WDrain WCommit); cbn; try done; try lia.
    + by intros [|].
    + intros Hin _. pose proof (li_drain _ HI Hin). cbn in *. lia.
Qed.

Lemma drain_again i st p :
  tasks st !! i = Some p ->
  drainTest i st = drainTest i (mkSched (lk st) (<[i:=WDrain]> (tasks st))).
Proof.
  intros Hi. unfold drainTest, waitForLockChange. cbn [lk tasks].
  case_bool_decide; by rewrite list_insert_insert_eq.
Qed.

Lemma turn_inv i st st' : lock_inv st -> turn i st = Some st' -> lock_inv st'.
Proof.
  intros HI. unfold turn. destruct (tasks st !! i) as [p|] eqn:Hi; [|done]. cbn [mbind option_bind].
  destruct p; cbn [is_reader withStoreRead withStoreCommit]; try done; intros [= <-].
  - (* a read arrives *)
    destruct (writing (lk st)) eqn:Ew; [by apply (block_inv st i RTry)|].
    apply (move_inv st i RTry RRead); cbn; try done; try lia; try naive_solver congruence.
    + rewrite Ew. lia.
    + intros Hin. by destruct (no_commit st HI Ew).
  - (* a read ends *)
    set (l := mkLock _ _ _). pose proof (sum_lookup reading _ _ _ Hi) as Hr.
    pose proof (li_readers _ HI) as Hr'. unfold sum_of in Hr'. cbn in Hr.
    pose proof (total_insert reading st l i RRead RDone Hi) as H1.
    pose proof (total_insert holding st l i RRead RDone Hi) as H2.
    pose proof (li_writing _ HI) as Hw. cbn in H1, H2.
    assert (Hc : WCommit ∈ <[i:=RDone]> (tasks st) -> readers (lk st) = 0).
    { intros Hin. apply (li_commit _ HI). by eapply elem_of_insert_other. }
    case_bool_decide as Hz.
    + apply wake_inv; cbn; try lia.
      * unfold sum_of in *. lia.
      * intros j q Hj Hq. apply list_lookup_insert_Some in Hj as [(_ & <- & _)|[_ Hj]]; [done|].
        by eapply li_waiting.
    + apply (move_inv st i RRead RDone); cbn; try done; try lia; try naive_solver congruence.
      * intros Hin _. by rewrite (li_commit _ HI Hin).
  - (* a commit arrives *)
    destruct (writing (lk st)) eqn:Ew; [by apply (block_inv st i WTry)|].
    rewrite (drain_again i _ WTry) by done. cbn [lk tasks].
    apply drain_inv; [|by eapply list_lookup_insert_eq, lookup_lt_Some].
    apply (move_inv st i WTry WDrain); cbn; try done; try lia; try naive_solver congruence.
    + rewrite Ew. lia.
    + intros Hin _. by apply (li_drain _ HI).
    + intros Hin. by destruct (no_commit st HI Ew).
  - (* a drain test *)
    by apply drain_inv.
  - (* a commit ends *)
    set (l := mkLock _ _ _).
    pose proof (total_insert reading st l i WCommit WDone Hi) as H1.
    pose proof (total_insert holding st l i WCommit WDone Hi) as H2.
    pose proof (sum_lookup holding _ _ _ Hi) as H3. cbn in H1, H2, H3.
    pose proof (li_readers _ HI). pose proof (li_writing _ HI) as Hw. unfold sum_of in *.
    apply wake_inv; cbn.
    + unfold sum_of. cbn in *. lia.
    + unfold sum_of. cbn in *. destruct (writing (lk st)); lia.
    + intros Hin. apply (li_commit _ HI). by eapply elem_of_insert_other.
    + intros j q Hj Hq. apply list_lookup_insert_Some in Hj as [(_ & <- & _)|[_ Hj]]; [done|].
      by eapply li_waiting.
Qed.

Lemma initial_inv st : initial st -> lock_inv st.
Proof.
  destruct st as [l ts]. intros [Hl Ht]. cbn in Hl, Ht. subst l.
  assert (H0 : forall f, f RTry = 0 -> f WTry = 0 -> sum_of f (mkSched storeLock ts) = 0).
  { intros f Hr Hw. unfold sum_of. cbn. induction ts as [|p ts IH]; [done|].
    change (f p + sum_list (f <$> ts) = 0). rewrite IH by (intros; apply Ht; by right).
    destruct (Ht p) as [-> | ->]; [by left|lia|lia]. }
  split; cbn [lk tasks storeLock readers writing waiters].
  - by rewrite H0.
  - by rewrite H0.
  - done.
  - intros i p Hi Hp. exfalso. destruct (Ht p) as [-> | ->]; [|done..].
    apply list_elem_of_lookup. by exists i.
  - intros [Hin|Hin]; by destruct (Ht _ Hin).
  - intros Hin. by destruct (Ht _ Hin).
Qed.

Lemma reachable_inv st : reachable st -> lock_inv st.
Proof.
  intros (st0 & Hst0 & Hsteps). apply initial_inv in Hst0.
  induction Hsteps as [|st0 st1 st2 [i ? ? Ht] _ IH]; [done|]. apply IH. by eapply turn_inv.
Qed.

(** * Progress *)

Definition is_done (p : pc) : bool := match p with RDone | WDone => true | _ => false end.

(** What a task still has to do between two wakes. *)
Definition weight (p : pc) : nat :=
  match p with
  | WTry => 4 | WBlocked => 3 | RTry | WDrain => 2
  | RBlocked | RRead | WDrainBlocked | WCommit => 1
  | RDone | WDone => 0
  end.

Definition unfinished (p : pc) : nat := if is_done p then 0 else 1.

(** A finished task may wake every other one once. *)
Definition work (st : sched) : nat :=
  sum_of unfinished st * S (length (tasks st)) + sum_of weight st.

Lemma imap_wake_weight (b : nat -> bool) l :
  sum_list (weight <$> imap (fun i p => if b i then wake_pc p else p) l)
  <= sum_list (weight <$> l) + length l.
Proof.
  revert b. induction l as [|p l IH]; intros b; [done|].
  rewrite imap_cons, !fmap_cons. specialize (IH (fun i => b (S i))).
  assert (weight (if b 0 then wake_pc p else p) <= weight p + 1) by (destruct (b 0), p; cbn; lia).
  change (weight (if b 0 then wake_pc p else p)
    + sum_list (weight <$> imap (fun i q => if b (S i) then wake_pc q else q) l)
    <= weight p + sum_list (weight <$> l) + S (length l)). lia.
Qed.

Lemma wake_weight st : sum_of weight (wakeLockWaiters st) <= sum_of weight st + length (tasks st).
Proof. apply (imap_wake_weight (fun i => bool_decide (i ∈ waiters (lk st)))). Qed.

Lemma wake_unfinished st : sum_of unfinished (wakeLockWaiters st) = sum_of unfinished st.
Proof.
  unfold sum_of. cbn. by rewrite (sum_imap_wake unfinished (fun i => bool_decide (i ∈ waiters (lk st)))) by by intros [].
Qed.

Lemma wake_length st : length (tasks (wakeLockWaiters st)) = length (tasks st).
Proof. apply length_imap. Qed.

(** Every turn brings the tasks nearer to their end. *)
Lemma turn_work i st st' : turn i st = Some st' -> work st' < work st.
Proof.
  unfold turn. destruct (tasks st !! i) as [p|] eqn:Hi; [|done]. cbn [mbind option_bind].
  assert (Hmove : forall l q, unfinished q = unfinished p -> weight q < weight p ->
    work (mkSched l (<[i:=q]> (tasks st))) < work st).
  { intros l q Hu Hw. pose proof (total_insert unfinished st l i p q Hi).
    pose proof (total_insert weight st l i p q Hi). unfold work. cbn [tasks]. rewrite length_insert.
    assert (E : sum_of unfinished (mkSched l (<[i:=q]> (tasks st))) = sum_of unfinished st) by lia.
    rewrite E. lia. }
  assert (Hfin : forall l q, unfinished q + 1 = unfinished p -> weight q < weight p ->
    work (wakeLockWaiters (mkSched l (<[i:=q]> (tasks st)))) < work st
    /\ work (mkSched l (<[i:=q]> (tasks st))) < work st).
  { intros l q Hu Hw. pose proof (total_insert unfinished st l i p q Hi) as H1.
    pose proof (total_insert weight st l i p q Hi) as H2. set (st1 := mkSched l _) in *.
    pose proof (wake_weight st1) as H3. pose proof (wake_unfinished st1) as H4.
    assert (E1 : length (tasks st1) = length (tasks st)) by apply length_insert.
    unfold work. rewrite H4, wake_length, E1. rewrite E1 in H3.
    assert (E : sum_of unfinished st = S (sum_of unfinished st1)) by lia. rewrite E. lia. }
  assert (Hdrain : forall l, is_done p = false -> 1 < weight p ->
    work (drainTest i (mkSched l (tasks st))) < work st).
  { intros l Hd Hw. unfold drainTest, waitForLockChange. cbn [lk tasks].
    case_bool_decide; apply Hmove; cbn; unfold unfinished; rewrite ?Hd; done. }
  destruct p; cbn [is_reader withStoreRead withStoreCommit]; try done; intros [= <-].
  - destruct (writing (lk st)); apply Hmove; cbn; lia.
  - case_bool_decide; apply Hfin; cbn; lia.
  - destruct (writing (lk st)); [apply Hmove; cbn; lia|apply Hdrain; cbn; [done|lia]].
  - destruct st as [l ts]. apply Hdrain; cbn; [done|lia].
  - apply Hfin; cbn; lia.
Qed.

Lemma turn_ready i st p :
  tasks st !! i = Some p -> is_done p = false -> wake_pc p = p -> is_Some (turn i st).
Proof. intros Hi Hd Hp. unfold turn. rewrite Hi. cbn [mbind option_bind]. destruct p; cbn in *; done || eauto. Qed.

(** Some task can always run while one is unfinished. *)
Lemma progress st :
  lock_inv st -> (exists p, p ∈ tasks st /\ is_done p = false) -> exists i, is_Some (turn i st).
Proof.
  intros HI (p & (i & Hi)%list_elem_of_lookup & Hd).
  destruct (decide (wake_pc p = p)) as [Hp|Hp]; [exists i; by eapply turn_ready|].
  assert (Hholder : 0 < sum_of holding st).
  { pose proof (li_writing _ HI) as Hw.
    assert (Hin : p ∈ tasks st) by (apply list_elem_of_lookup; by exists i).
    destruct p; try done.
    - rewrite (li_entry _ HI) in Hw by by left. lia.
    - rewrite (li_entry _ HI) in Hw by by right. lia.
    - pose proof (sum_lookup holding _ _ _ Hi) as Hs. unfold sum_of. cbn in Hs. lia. }
  destruct (sum_positive holding _ Hholder) as (j & q & Hj & Hq).
  destruct (decide (wake_pc q = q)) as [Eq|Eq]; [exists j; apply (turn_ready j st q); [done|destruct q; cbn in *; done || lia|done]|].
  assert (Hread : 0 < sum_of reading st).
  { rewrite <- (li_readers _ HI). apply (li_drain _ HI). apply list_elem_of_lookup. exists j.
    destruct q; cbn in *; done || lia. }
  destruct (sum_positive reading _ Hread) as (k & r & Hk & Hr).
  exists k. apply (turn_ready k st r); [done|destruct r; cbn in *; done || lia..].
Qed.

(** * What the store-commit lock guarantees, over every schedule of its tasks *)

(** C9 Under any interleaving, while one commit runs no address read is under way and no
    other commit runs. *)
Theorem commit_is_exclusive (st : sched) (i : nat) :
  reachable st -> tasks st !! i = Some WCommit ->
  RRead ∉ tasks st /\ forall j, tasks st !! j = Some WCommit -> j = i.
Proof.
  intros HI%reachable_inv Hi. split.
  - intros (j & Hj)%list_elem_of_lookup.
    assert (Hc : WCommit ∈ tasks st) by (apply list_elem_of_lookup; by exists i).
    pose proof (li_commit _ HI Hc) as H0. rewrite (li_readers _ HI) in H0.
    pose proof (sum_lookup reading _ _ _ Hj) as H1. unfold sum_of in H0. change (reading RRead) with 1 in H1. lia.
  - intros j Hj. by apply (one_holder st j i WCommit WCommit).
Qed.

(** Two reads and a commit that waits for the first of them. *)
Definition sched0 : sched := mkSched storeLock [RTry; WTry; RTry].

Definition run (turns : list nat) : sched :=
  default sched0 (foldl (fun o i => o ≫= turn i) (Some sched0) turns).

Lemma run_reachable turns st : foldl (fun o i => o ≫= turn i) (Some sched0) turns = Some st -> reachable st.
Proof.
  intros Hrun. exists sched0. split; [split; [done|]|].
  - intros p Hp. repeat (apply elem_of_cons in Hp as [->|Hp]; [auto|]). by apply elem_of_nil in Hp.
  - revert st Hrun. induction turns as [|i turns IH] using rev_ind; intros st; cbn.
    + by intros [= <-].
    + rewrite foldl_snoc. destruct (foldl _ _ turns) as [st'|]; [|done]. intros Ht.
      eapply rtc_r; [by apply IH|]. by eapply step_turn.
Qed.

Lemma commit_is_exclusive_witness :
  RRead ∉ tasks (run [0; 1; 2; 0; 1]).
Proof.
  apply (commit_is_exclusive (run [0; 1; 2; 0; 1]) 1); [|reflexivity].
  apply (run_reachable [0; 1; 2; 0; 1]). reflexivity.
Defined.

(** Writer preference: from the moment a commit takes the flag, also while it still
    drains the reads under way, a read that arrives waits, and the number of reads under
    way never grows. *)
Theorem reads_wait_for_a_pending_commit (st st' : sched) (i : nat) (p : pc) :
  reachable st -> writing (lk st) = true -> tasks st !! i = Some p -> turn i st = Some st' ->
  (p = RTry -> tasks st' !! i = Some RBlocked) /\ readers (lk st') <= readers (lk st).
Proof.
  intros HI%reachable_inv Hw Hi Ht. unfold turn in Ht. rewrite Hi in Ht. cbn [mbind option_bind] in Ht.
  destruct p; cbn [is_reader withStoreRead withStoreCommit] in Ht; try done;
    rewrite ?Hw in Ht; simplify_eq; (split; [intros [=]|]).
  - cbn. apply list_lookup_insert_eq. by eapply lookup_lt_Some.
  - done.
  - case_bool_decide; cbn; lia.
  - done.
  - unfold drainTest. case_bool_decide; cbn; lia.
  - done.
Qed.

Lemma reads_wait_for_a_pending_commit_witness :
  readers (lk (run [0; 1; 2])) <= readers (lk (run [0; 1])).
Proof.
  apply (reads_wait_for_a_pending_commit (run [0; 1]) (run [0; 1; 2]) 2 RTry);
    [|reflexivity|reflexivity|reflexivity].
  apply (run_reachable [0; 1]). reflexivity.
Defined.

(** C37 No read and no commit is lost or starved: every schedule makes at most [work]
    turns, and it can only stop once every task is done. *)
Theorem lock_serves_everyone (st : sched) :
  reachable st ->
  (forall st', step st st' -> work st' < work st)
  /\ ((forall st', ~ step st st') -> forall p, p ∈ tasks st -> p = RDone \/ p = WDone).
Proof.
  intros HI%reachable_inv. split.
  - intros st' [i ? ? Ht]. by eapply turn_work.
  - intros Hstuck p Hp. destruct (is_done p) eqn:Hd; [destruct p; auto; done|].
    destruct (progress st HI) as (i & st' & Ht); [by exists p|].
    exfalso. eapply Hstuck. by econstructor.
Qed.

Lemma lock_serves_everyone_witness :
  reachable (run [0; 1]) /\ work (run [0; 1; 2]) < work (run [0; 1]).
Proof.
  split; [apply (run_reachable [0; 1]); reflexivity|].
  apply (lock_serves_everyone (run [0; 1])); [apply (run_reachable [0; 1]); reflexivity|].
  apply (step_turn 2). reflexivity.
Defined.
