(* ===== verification/ChainParams.v ===== *)
(** Per-chain parameters: the reorg-recovery window ([chain/undo_blocks.js]), the
    coinbase maturity ([chain/coinbase_maturity.js]) and the reader of the numeric
    environment knobs that override them ([config/env_int.js]). *)

From S2P Require Import Prelude KeyCodec.

#[local] Open Scope string_scope.
#[local] Open Scope nat_scope.
#[local] Open Scope list_scope.

(** * Numeric knobs

    [Number(text)] where it is an integer, [None] for any other number and for [NaN]:
    a decimal literal with an optional fraction and exponent, or a prefixed integer.
    The value is exact where the double is, below 2^53. *)

Fixpoint span_digits (base : Z) (acc : Z) (n : nat) (s : string) : Z * nat * string :=
  match s with
  | String.String c r =>
      match digit_val base c with
      | Some d => span_digits base (acc * base + d) (S n) r
      | None => (acc, n, s)
      end
  | String.EmptyString => (acc, n, s)
  end.

Definition read_sign (s : string) : bool * string :=
  match s with
  | String.String "-"%char r => (true, r)
  | String.String "+"%char r => (false, r)
  | _ => (false, s)
  end.

(** The exponent part: [None] for a malformed one. *)
Definition read_exponent (s : string) : option Z :=
  match s with
  | String.EmptyString => Some 0%Z
  | String.String c r =>
      if bool_decide (c = "e"%char \/ c = "E"%char) then
        let '(neg, r) := read_sign r in
        let '(e, n, rest) := span_digits 10 0 0 r in
        if bool_decide (n = 0) || negb (bool_decide (rest = "")) then None
        else Some (if neg then - e else e)%Z
      else None
  end.

(** [m * 10^e] as an integer. *)
Definition scale (m e : Z) : option Z :=
  if bool_decide (0 <= e)%Z then Some (m * 10 ^ e)%Z
  else if bool_decide (m mod 10 ^ (- e) = 0)%Z then Some (m / 10 ^ (- e))%Z else None.

Definition read_decimal (s : string) : option Z :=
  let '(neg, s) := read_sign s in
  let '(whole, n, r) := span_digits 10 0 0 s in
  let '(m, k, r) := match r with
                    | String.String "."%char r => span_digits 10 whole 0 r
                    | _ => (whole, 0, r)
                    end in
  if bool_decide (n + k = 0) then None
  else
    e ← read_exponent r;
    v ← scale m (e - Z.of_nat k)%Z;
    Some (if neg then - v else v)%Z.

Definition read_prefixed (base : Z) (s : string) : option Z :=
  let '(v, n, r) := span_digits base 0 0 s in
  if bool_decide (n = 0) || negb (bool_decide (r = "")) then None else Some v.

Definition Number (s : string) : option Z :=
  match s with
  | String.String "0"%char (String.String c r) =>
      if bool_decide (c = "x"%char \/ c = "X"%char) then read_prefixed 16 r
      else if bool_decide (c = "o"%char \/ c = "O"%char) then read_prefixed 8 r
      else if bool_decide (c = "b"%char \/ c = "B"%char) then read_prefixed 2 r
      else read_decimal s
  | _ => read_decimal s
  end.

Fixpoint rev_string (s acc : string) : string :=
  match s with
  | String.EmptyString => acc
  | String.String c r => rev_string r (String.String c acc)
  end.

(** [s.trim()]. *)
Definition trim (s : string) : string := rev_string (trim_start (rev_string (trim_start s) "")) "".

Record int_read := mkIntRead { ir_absent : bool; ir_value : option Z }.

(** [None]: the knob is unset. *)
Definition readInt (raw : option string) : int_read :=
  match raw with
  | None => mkIntRead true None
  | Some raw =>
      if bool_decide (trim raw = "") then mkIntRead true None
      else mkIntRead false (Number (trim raw))
  end.

Definition intKnob (raw : option string) (fallback min : Z) : Z :=
  let read := readInt raw in
  if ir_absent read then fallback
  else match ir_value read with
       | None => fallback
       | Some v => if bool_decide (v < min)%Z then fallback else v
       end.

(** [process.env]. *)
Class Environment := process_env : string -> option string.

Section params.
Context {envs : Environment}.

Definition envInt (name : string) (fallback min : Z) : Z := intKnob (process_env name) fallback min.

(** * Networks *)

(** The coins of the registry ([src/coins/index.js]): full name and tick. *)
Definition FULL_NAME_TO_TICK (full : string) : option string :=
  if bool_decide (full = "bitcoin") then Some "BTC"
  else if bool_decide (full = "litecoin") then Some "LTC"
  else if bool_decide (full = "dogecoin") then Some "DOGE"
  else None.

(** [n.lastIndexOf('-')] and the two parts around it. *)
Fixpoint split_last_dash (s : string) : option (string * string) :=
  match s with
  | String.EmptyString => None
  | String.String c r =>
      match split_last_dash r with
      | Some (a, b) => Some (String.String c a, b)
      | None => if bool_decide (c = "-"%char) then Some ("", r) else None
      end
  end.

Definition coinFromNetwork (network : string) : option string :=
  let n := toLowerCase network in
  FULL_NAME_TO_TICK (match split_last_dash n with Some (full, _) => full | None => n end).

Definition netFromNetwork (network : string) : string :=
  match split_last_dash (toLowerCase network) with Some (_, net) => net | None => "" end.

Definition upper (c : Ascii.ascii) : Ascii.ascii :=
  let n := Ascii.N_of_ascii c in
  if bool_decide (97 <= n <= 122)%N then Ascii.ascii_of_N (n - 32) else c.

Fixpoint toUpperCase (s : string) : string :=
  match s with
  | String.EmptyString => String.EmptyString
  | String.String c r => String.String (upper c) (toUpperCase r)
  end.

Definition undoBlocksKey (coin net : string) : string :=
  String.append coin (String.append "_" (toUpperCase net)).

Definition DEFAULT_UNDO_BLOCKS : list (string * Z) :=
  [("BTC_MAINNET", 12); ("LTC_MAINNET", 120); ("DOGE_MAINNET", 120);
   ("BTC_TESTNET", 120); ("LTC_TESTNET", 5000); ("DOGE_TESTNET", 120);
   ("BTC_REGTEST", 12); ("LTC_REGTEST", 120); ("DOGE_REGTEST", 120)]%Z.

Definition MAX_SAFE_UNDO_BLOCKS : Z := 126.
Definition LTC_TESTNET_SAFE_UNDO_BLOCKS : Z := 5006.

Definition assoc {A} (k : string) (l : list (string * A)) : option A :=
  snd <$> head (filter (fun e => e.1 = k) l).

Definition safeUndoBlocksCeiling (network : string) : Z :=
  let key := undoBlocksKey (default "null" (coinFromNetwork network)) (netFromNetwork network) in
  if bool_decide (key = "LTC_TESTNET") then LTC_TESTNET_SAFE_UNDO_BLOCKS else MAX_SAFE_UNDO_BLOCKS.

(** [optsUndoBlocks]: [None] for none given or a value that is no integer.  The
    result comes with whether the code warns that it exceeds the ceiling. *)
Definition resolveUndoBlocks (network : string) (optsUndoBlocks : option Z) : res (Z * bool) :=
  match coinFromNetwork network with
  | None => Err (Error (EMsg "undo-blocks: unknown network"))
  | Some coin =>
      match assoc (undoBlocksKey coin (netFromNetwork network)) DEFAULT_UNDO_BLOCKS with
      | None => Err (Error (EMsg "undo-blocks: no window declared"))
      | Some fallback =>
          let envVal := envInt (String.append "XCHAIN_UNDO_BLOCKS_" coin) fallback 1 in
          let resolved :=
            match optsUndoBlocks with
            | Some o => if bool_decide (0 < o)%Z then o
                        else if bool_decide (0 < envVal)%Z then envVal else fallback
            | None => if bool_decide (0 < envVal)%Z then envVal else fallback
            end in
          Ok (resolved, bool_decide (safeUndoBlocksCeiling network < resolved)%Z)
      end
  end.

(** ** Coinbase maturity *)

Definition DEFAULT_COINBASE_MATURITY : list (string * list (string * Z)) :=
  [("BTC", [("mainnet", 100); ("testnet", 100); ("regtest", 100)]);
   ("LTC", [("mainnet", 100); ("testnet", 100); ("regtest", 100)]);
   ("DOGE", [("mainnet", 240); ("testnet", 240); ("regtest", 60)])]%Z.

Definition resolveCoinbaseMaturity (network : string) (optsMaturity : option Z) : res Z :=
  match coinFromNetwork network with
  | None => Err (Error (EMsg "coinbase-maturity: unknown network"))
  | Some coin =>
      match (nets ← assoc coin DEFAULT_COINBASE_MATURITY; assoc (netFromNetwork network) nets) with
      | None => Err (Error (EMsg "coinbase-maturity: no maturity declared"))
      | Some declared =>
          let envVal := envInt "XCHAIN_COINBASE_MATURITY" declared 1 in
          match optsMaturity with
          | Some o => if bool_decide (0 < o)%Z then Ok o
                      else if bool_decide (0 < envVal)%Z then Ok envVal else Ok declared
          | None => if bool_decide (0 < envVal)%Z then Ok envVal else Ok declared
          end
      end
  end.
End params.

(** * What the resolution of the per-chain parameters guarantees *)

(** The network keys of the registry. *)
Definition networks : list string :=
  full ← ["bitcoin"; "litecoin"; "dogecoin"]; net ← ["mainnet"; "testnet"; "regtest"];
  [String.append full (String.append "-" net)].

Lemma envInt_min {envs : Environment} name fallback min : (min <= fallback)%Z -> (min <= envInt name fallback min)%Z.
Proof.
  intros Hf. unfold envInt, intKnob. destruct (readInt _) as [[] [v|]]; cbn; try done.
  case_bool_decide; lia.
Qed.

Lemma assoc_elem {A} k (l : list (string * A)) v : assoc k l = Some v -> (k, v) ∈ l.
Proof.
  unfold assoc. destruct (head _) as [[k' v']|] eqn:E; [|done]. intros [= <-].
  destruct (filter _ l) as [|x r] eqn:Ef; [done|]. injection E as ->.
  assert (Hin : (k', v') ∈ filter (fun e : string * A => e.1 = k) l) by (rewrite Ef; by left).
  apply list_elem_of_filter in Hin as [<- Hin]. done.
Qed.

Definition no_env : Environment := fun _ => None.

Lemma defaults_are_safe net :
  net ∈ networks -> exists d, resolveUndoBlocks (envs := no_env) net None = Ok (d, false)
    /\ (d <= safeUndoBlocksCeiling net)%Z.
Proof.
  assert (HA : forallb (fun net => match resolveUndoBlocks (envs := no_env) net None with
    | Ok (d, false) => bool_decide (d <= safeUndoBlocksCeiling net)%Z | _ => false end) networks = true)
    by (vm_compute; reflexivity).
  rewrite forallb_forall in HA. intros Hnet%list_elem_of_In%HA.
  destruct (resolveUndoBlocks _ _) as [[d []]|]; try done. exists d. split; [done|].
  by apply bool_decide_eq_true in Hnet.
Qed.

(** The reorg window the tracker runs with is a positive number of blocks whatever the
    operator sets: a malformed, zero or negative override leaves the chain's own default
    standing, an unknown network is refused, and every network of the registry resolves
    without an override to a default within the safe depth. *)
Theorem undo_window_is_positive {envs : Environment} (network : string) (opts : option Z) (n : Z) (warns : bool) :
  resolveUndoBlocks network opts = Ok (n, warns) ->
  (1 <= n)%Z /\ is_Some (coinFromNetwork network)
  /\ (warns = true <-> (safeUndoBlocksCeiling network < n)%Z)
  /\ forall net, net ∈ networks -> exists d,
       resolveUndoBlocks (envs := no_env) net None = Ok (d, false)
       /\ (d <= safeUndoBlocksCeiling net)%Z.
Proof.
  unfold resolveUndoBlocks at 1. destruct (coinFromNetwork network) as [coin|]; [|done].
  destruct (assoc _ _) as [fallback|] eqn:Ea; [|done]. set (e := envInt _ _ _).
  set (r := match opts with Some _ => _ | None => _ end). intros [= <- <-].
  assert (Hf : (1 <= fallback)%Z).
  { apply assoc_elem in Ea. unfold DEFAULT_UNDO_BLOCKS in Ea.
    repeat (apply elem_of_cons in Ea as [[= _ ->]|Ea]; [lia|]). by apply elem_of_nil in Ea. }
  pose proof (envInt_min (String.append "XCHAIN_UNDO_BLOCKS_" coin) fallback 1 Hf) as He. fold e in He.
  split_and!.
  - unfold r. destruct opts as [o|]; repeat case_bool_decide; lia.
  - done.
  - apply bool_decide_eq_true.
  - by apply defaults_are_safe.
Qed.

(** An operator who typed a fraction. *)
Definition env0 : Environment := fun name => if bool_decide (name = "XCHAIN_UNDO_BLOCKS_LTC") then Some "1.5" else None.

Lemma undo_window_is_positive_witness :
  resolveUndoBlocks (envs := env0) "litecoin-testnet" None = Ok (5000%Z, false) /\ (1 <= 5000)%Z.
Proof.
  split; [by vm_compute|].
  apply (undo_window_is_positive (envs := env0) "litecoin-testnet" None 5000 false). by vm_compute.
Defined.

(** A numeric knob is read whole: what is not an integer of at least the minimum, a
    fraction, a number with a trailing word or an empty text, keeps the default, and what
    is accepted is at least the minimum. *)
Theorem knobs_are_read_whole (raw : option string) (fallback min : Z) :
  (min <= fallback)%Z ->
  (min <= intKnob raw fallback min)%Z
  /\ (intKnob raw fallback min <> fallback ->
      exists s, raw = Some s /\ Number (trim s) = Some (intKnob raw fallback min))
  /\ intKnob (Some "1.5") fallback min = fallback
  /\ intKnob (Some "12garbage") fallback min = fallback
  /\ intKnob (Some " ") fallback min = fallback.
Proof.
  intros Hmin. split_and!; try done.
  - unfold intKnob. destruct (readInt raw) as [[] [v|]]; cbn; try done. case_bool_decide; lia.
  - unfold intKnob, readInt. destruct raw as [s|]; [|done]. case_bool_decide; cbn; [done|].
    destruct (Number (trim s)) as [v|] eqn:E; [|done]. case_bool_decide; [done|].
    intros _. by exists s.
Qed.

Lemma knobs_are_read_whole_witness :
  intKnob (Some " 1e2 ") 12 1 = 100%Z /\ (1 <= intKnob (Some " 1e2 ") 12 1)%Z.
Proof. split; [by vm_compute|]. apply (knobs_are_read_whole (Some " 1e2 ") 12 1). lia. Defined.

(** Coinbase maturity resolves to a positive depth or refuses the network, and each
    chain of the registry has the depth of its own consensus rule, dogecoin's 240 (60 on
    regtest) included. *)
Theorem maturity_is_positive {envs : Environment} (network : string) (opts : option Z) (n : Z) :
  resolveCoinbaseMaturity network opts = Ok n ->
  (1 <= n)%Z
  /\ map (fun net => resolveCoinbaseMaturity (envs := no_env) net None) networks
     = map Ok [100; 100; 100; 100; 100; 100; 240; 240; 60]%Z.
Proof.
  unfold resolveCoinbaseMaturity at 1. destruct (coinFromNetwork network) as [coin|]; [|done].
  destruct (nets ← assoc coin DEFAULT_COINBASE_MATURITY; _) as [d|] eqn:Ea; [|done].
  assert (Hd : (1 <= d)%Z).
  { destruct (assoc coin DEFAULT_COINBASE_MATURITY) as [nets|] eqn:En; [|done]. cbn [mbind option_bind] in Ea.
    apply assoc_elem in En, Ea. unfold DEFAULT_COINBASE_MATURITY in En.
    repeat (apply elem_of_cons in En as [[= _ ->]|En];
      [repeat (apply elem_of_cons in Ea as [[= _ ->]|Ea]; [lia|]); by apply elem_of_nil in Ea|]).
    by apply elem_of_nil in En. }
  pose proof (envInt_min "XCHAIN_COINBASE_MATURITY" d 1 Hd) as He.
  intros Hr. split; [|by vm_compute].
  destruct opts as [o|]; repeat case_bool_decide; simplify_eq; lia.
Qed.

Lemma maturity_is_positive_witness :
  resolveCoinbaseMaturity (envs := env0) "dogecoin-mainnet" None = Ok 240%Z /\ (1 <= 240)%Z.
Proof.
  split; [by vm_compute|].
  apply (maturity_is_positive (envs := env0) "dogecoin-mainnet" None 240). by vm_compute.
Defined.
