(* ===== verification/Queries.v ===== *)
(** The address queries ([XChainUtxoTracker/address_queries.js], with
    [satoshiToDecimalString] of [catch_up_helpers.js] and [computeFreshness] of
    [XChainUtxoTracker.js]): balance and unspent outputs of an address over the
    confirmed and the mempool store, page by page, and the freshness verdict.

    A read runs under the store-commit lock ([CommitLock.v]), so it is one
    uninterrupted run over the state of the tracker.  Address decoding is the
    [bitcoinjs-lib] package: a parameter. *)

From S2P Require Import Prelude KeyCodec ValueCodec LevelDb Store Outputs Tracker.
From stdpp Require Import gmap.

#[local] Open Scope string_scope.
#[local] Open Scope nat_scope.
#[local] Open Scope list_scope.

(** * Decimal amounts *)

Definition SATOSHI_BIGINT : Z := 100000000.

(** [s.padStart(n, '0')]. *)
Fixpoint repeat0 (n : nat) (s : string) : string :=
  match n with O => s | S m => String.String "0"%char (repeat0 m s) end.

Definition padStart0 (n : nat) (s : string) : string := repeat0 (n - String.length s) s.

Definition satoshiToDecimalString (val : Z) : string :=
  let abs := Z.abs val in
  let whole := (abs / SATOSHI_BIGINT)%Z in
  let frac := (abs mod SATOSHI_BIGINT)%Z in
  String.append (if bool_decide (val < 0)%Z then "-" else "")
    (String.append (to_radix 10 whole) (String.append "." (padStart0 8 (to_radix 10 frac)))).

(** * Freshness *)

Record fresh_state := mkFreshState {
  fs_mempoolReconverged : bool; fs_halted : bool; fs_haltReason : option string;
  fs_haltedAt : option string; fs_haltedHeight : option Z; fs_nodeHeightStale : bool }.

Record halt_info := mkHaltInfo {
  fr_halt_reason : option string; fr_halted_at : option string; fr_halted_height : option Z }.

Record freshness := mkFreshness {
  fr_tracker_height : Z; fr_node_height : Z; fr_lag : option Z;
  fr_synced : bool; fr_mempool_ready : bool;
  fr_halt : option halt_info }.

(** [None] for a height is a value that is not a number. *)
Definition computeFreshness (committedHeight nodeTip : option Z) (synced : bool) (state : fresh_state) : freshness :=
  let tracker_height := default (-1)%Z committedHeight in
  let node_height := default (-1)%Z nodeTip in
  let lag := if bool_decide (0 <= node_height)%Z && bool_decide (0 <= tracker_height)%Z
             then Some (node_height - tracker_height)%Z else None in
  let orphaned := match lag with Some d => bool_decide (d < 0)%Z | None => false end in
  let isSynced := synced && negb orphaned && negb (fs_nodeHeightStale state) && negb (fs_halted state) in
  mkFreshness tracker_height node_height lag isSynced (isSynced && fs_mempoolReconverged state)
    (if fs_halted state
     then Some (mkHaltInfo (fs_haltReason state) (fs_haltedAt state) (fs_haltedHeight state))
     else None).

(** * Addresses *)

Record network := mkNetwork { net_bech32 : string; net_scriptHash : Z }.

Inductive pay_kind := PayP2pkh | PayP2sh | PayP2wpkh | PayP2tr.

(** [bitcoinjs-lib] on the tracker's network. *)
Class AddressLib := {
  toOutputScript : string -> network -> res bytes;
  fromBase58Check : string -> option (bytes * Z);
  toBase58Check : bytes -> Z -> string;
  payments : pay_kind -> string -> network -> bool;
}.

(** What the constructor and the configuration resolve for the chain it serves. *)
Class ChainConfig := {
  chain_network : network;
  coinbaseMaturity : Z;
  MAX_ADDRESS_OUTPUTS : Z;
}.

Definition LTC_TEST_BECH32 : list string := ["tltc"; "rltc"].
Definition LTC_P2SH_V2_VERSION : Z := 58.

Section address.
Context {lib : AddressLib}.

Definition decodeAddressScript (address : string) (net : network) : res bytes :=
  match toOutputScript address net with
  | Ok script => Ok script
  | Err err =>
      if negb (bool_decide (net_bech32 net ∈ LTC_TEST_BECH32)) then Err err
      else
        match fromBase58Check address with
        | None => Err err
        | Some (hash, version) =>
            if negb (bool_decide (version = LTC_P2SH_V2_VERSION)) || negb (bool_decide (length hash = 20))
            then Err err
            else toOutputScript (toBase58Check hash (net_scriptHash net)) net
        end
  end.

(** [None] for the argument is a value that is not a string; every failure is the
    same BAD_REQUEST error, whose text the model drops. *)
Definition addressToScript (address : option string) (net : network) : res bytes :=
  match address with
  | Some a =>
      if bool_decide (0 < String.length a <= 128) then
        match decodeAddressScript a net with
        | Ok script => Ok script
        | Err _ => Err (Error EBadRequest)
        end
      else Err (Error EBadRequest)
  | None => Err (Error EBadRequest)
  end.

Definition getAddressType (address : string) (net : network) : string :=
  if payments PayP2pkh address net then "p2pkh"
  else if payments PayP2sh address net then "p2sh"
  else if payments PayP2wpkh address net then "p2wpkh"
  else if payments PayP2tr address net then "p2tr"
  else "unknown".
End address.

(** * The reads *)

Record snapshot := mkSnapshot {
  sn_committedHeight : option Z; sn_committedHash : option string; sn_reorgCount : Z;
  sn_mempoolEpoch : Z; sn_mempoolReconverged : bool }.

Definition stamp_reconverged (b : bool) (s : snapshot) : snapshot :=
  mkSnapshot (sn_committedHeight s) (sn_committedHash s) (sn_reorgCount s) (sn_mempoolEpoch s) b.

(** One entry of the [get_utxos] body. *)
Record served := mkServed {
  sv_txid : string; sv_fullTxid : option string; sv_vout : Z; sv_value : Z; sv_height : option Z;
  sv_coinbase : bool; sv_confirmations : option Z; sv_amount : string; sv_scriptPubKey : string }.

Record utxo_page := mkPage {
  pg_rows : list served; pg_nextCursor : option (option string); pg_snapshot : snapshot }.

Record balances := mkBalances {
  ba_confirmed : Z; ba_pending : Z; ba_received : Z; ba_utxosConfirmed : Z; ba_utxosPending : Z }.

Record balance_info := mkBalanceInfo {
  bi_address : string; bi_type : string; bi_confirmed : string; bi_pending : string; bi_received : string;
  bi_utxosConfirmed : Z; bi_utxosPending : Z; bi_snapshot : snapshot }.

Definition outpoint (txid : string) (vout : Z) : string := print_cursor txid vout.

Definition requireFullTxid (nextOutput : utxo_row) : res string :=
  let txid := match u_fullTxid nextOutput with
              | Some s => if bool_decide (s = "") then u_txid nextOutput else s
              | None => u_txid nextOutput
              end in
  if bool_decide (String.length txid = 64) then Ok txid
  else Err (Error (EMsg "UTXO record is missing a fullTxHash")).

Definition claimConfirmedOutpoint (confirmedKeys : gset string) (nextOutput : utxo_row)
    : res (string * gset string) :=
  txid ← requireFullTxid nextOutput;
  Ok (txid, {[ outpoint txid (u_vout nextOutput) ]} ∪ confirmedKeys).

Definition nextPageCursor (confirmedOutputs : list utxo_row) (pageLimit : option nat) : option string :=
  match pageLimit with
  | Some n =>
      if bool_decide (length confirmedOutputs = n) then
        (fun r => print_cursor (u_txid r) (u_vout r)) <$> last confirmedOutputs
      else None
  | None => None
  end.

Definition mempoolUtxo (nextOutput : utxo_row) (txid scriptPubKeyHex : string) : served :=
  mkServed txid (u_fullTxid nextOutput) (u_vout nextOutput) (u_value nextOutput) None
    (u_coinbase nextOutput) (Some 0%Z) (satoshiToDecimalString (u_value nextOutput)) scriptPubKeyHex.

Section reads.
Context {node : Node} {lib : AddressLib} {cfg : ChainConfig} {DB : Type} `{LevelDb DB}.

Abbreviation TM := (M (tracker DB)).

Definition readCommittedSnapshot : TM snapshot :=
  committedHeight ← on_db getLastBlockHeight;
  committedHash ← on_db getLastBlockHash;
  x ← gets stat;
  mret (mkSnapshot committedHeight committedHash (reorgCount x) (mempoolEpoch x) false).

Definition readBalanceOutputs (scriptHash : string) : TM (list utxo_row * list utxo_row) :=
  confirmedOutputs ← on_db (getOutputsScriptPubKey scriptHash None None (Some MAX_ADDRESS_OUTPUTS));
  mempoolOutputs ← on_mempool (getOutputsScriptPubKey scriptHash None None (Some MAX_ADDRESS_OUTPUTS));
  mret (confirmedOutputs, mempoolOutputs).

Fixpoint confirmedBalances (rows : list utxo_row) (keys : gset string) (b : balances)
    : TM (gset string * balances) :=
  match rows with
  | [] => mret (keys, b)
  | nextOutput :: rest =>
      txid ← lift_res (requireFullTxid nextOutput);
      let keys := {[ outpoint txid (u_vout nextOutput) ]} ∪ keys in
      let amount := u_value nextOutput in
      mempoolInput ← on_mempool (getInput txid (u_vout nextOutput));
      let pending := if bool_decide (is_Some mempoolInput) then (ba_pending b - amount)%Z else ba_pending b in
      confirmedBalances rest keys
        (mkBalances (ba_confirmed b + amount) pending (ba_received b + amount)
           (ba_utxosConfirmed b + 1) (ba_utxosPending b))
  end.

Fixpoint pendingBalances (rows : list utxo_row) (keys : gset string) (b : balances) : TM balances :=
  match rows with
  | [] => mret b
  | nextOutput :: rest =>
      txid ← lift_res (requireFullTxid nextOutput);
      if bool_decide (outpoint txid (u_vout nextOutput) ∈ keys) then pendingBalances rest keys b
      else
        mempoolInput ← on_mempool (getInput txid (u_vout nextOutput));
        pendingBalances rest keys
          (if bool_decide (is_Some mempoolInput) then b
           else mkBalances (ba_confirmed b) (ba_pending b + u_value nextOutput) (ba_received b)
                  (ba_utxosConfirmed b) (ba_utxosPending b + 1))
  end.

Definition balanceInfoResult (address : string) (b : balances) (s : snapshot) : balance_info :=
  mkBalanceInfo address (getAddressType address chain_network)
    (satoshiToDecimalString (ba_confirmed b)) (satoshiToDecimalString (ba_pending b))
    (satoshiToDecimalString (ba_received b)) (ba_utxosConfirmed b) (ba_utxosPending b) s.

Definition script_hash (script : bytes) : string := b2h (sha256 script).

Definition readBalanceInfo (address : option string) : TM balance_info :=
  script ← lift_res (addressToScript address chain_network);
  let scriptHash := script_hash script in
  snapshot ← readCommittedSnapshot;
  '(confirmedOutputs, mempoolOutputs) ← readBalanceOutputs scriptHash;
  '(keys, b) ← confirmedBalances confirmedOutputs ∅ (mkBalances 0 0 0 0 0);
  b ← pendingBalances mempoolOutputs keys b;
  x ← gets stat;
  mret (balanceInfoResult (default "" address) b (stamp_reconverged (mempoolReconverged x) snapshot)).

Record query_plan := mkPlan {
  qp_scriptHash : string; qp_scriptPubKeyHex : string; qp_pageLimit : option nat }.

(** [paged] is [pageLimit] not being [null]. *)
Definition utxoQueryPlan (address : option string) (limit : option Z) : res query_plan :=
  script ← addressToScript address chain_network;
  Ok (mkPlan (script_hash script) (b2h script) (page_limit limit)).

(** [confirmations] is [NaN] ([None]) while the node's tip is unknown: no test on it holds. *)
Definition addServableConfirmedUtxo (results : list served) (nextOutput : utxo_row)
    (txid scriptPubKeyHex : string) : TM (list served) :=
  x ← gets stat;
  let confirmations := (fun tip => tip - u_height nextOutput + 1)%Z <$> blockchainInfoLastBlock x in
  let below n := match confirmations with Some c => bool_decide (c < n)%Z | None => false end in
  if below 0%Z then mret results
  else if u_coinbase nextOutput && bool_decide (0 < coinbaseMaturity)%Z && below coinbaseMaturity
  then mret results
  else mret (results ++ [mkServed txid (u_fullTxid nextOutput) (u_vout nextOutput) (u_value nextOutput)
               (Some (u_height nextOutput)) (u_coinbase nextOutput) confirmations
               (satoshiToDecimalString (u_value nextOutput)) scriptPubKeyHex]).

Fixpoint serveConfirmed (rows : list utxo_row) (keys : gset string) (results : list served)
    (scriptPubKeyHex : string) : TM (gset string * list served) :=
  match rows with
  | [] => mret (keys, results)
  | nextOutput :: rest =>
      '(txid, keys) ← lift_res (claimConfirmedOutpoint keys nextOutput);
      mempoolInput ← on_mempool (getInput txid (u_vout nextOutput));
      if bool_decide (is_Some mempoolInput) then serveConfirmed rest keys results scriptPubKeyHex
      else
        results ← addServableConfirmedUtxo results nextOutput txid scriptPubKeyHex;
        serveConfirmed rest keys results scriptPubKeyHex
  end.

Definition addServableMempoolUtxo (results : list served) (nextOutput : utxo_row)
    (confirmedKeys : gset string) (paged : bool) (scriptPubKeyHex : string) : TM (list served) :=
  txid ← lift_res (requireFullTxid nextOutput);
  if bool_decide (outpoint txid (u_vout nextOutput) ∈ confirmedKeys) then mret results
  else
    inStore ← (if paged then on_db (hasOutputForTx txid (u_vout nextOutput)) else mret false);
    if inStore : bool then mret results
    else
      mempoolInput ← on_mempool (getInput txid (u_vout nextOutput));
      if bool_decide (is_Some mempoolInput) then mret results
      else mret (results ++ [mempoolUtxo nextOutput txid scriptPubKeyHex]).

Fixpoint serveMempool (rows : list utxo_row) (keys : gset string) (paged : bool)
    (results : list served) (scriptPubKeyHex : string) : TM (list served) :=
  match rows with
  | [] => mret results
  | nextOutput :: rest =>
      results ← addServableMempoolUtxo results nextOutput keys paged scriptPubKeyHex;
      serveMempool rest keys paged results scriptPubKeyHex
  end.

Definition readUtxosAddress (address : option string) (limit : option Z) (after : option string)
    : TM utxo_page :=
  plan ← lift_res (utxoQueryPlan address limit);
  let paged := bool_decide (is_Some (qp_pageLimit plan)) in
  snapshot ← readCommittedSnapshot;
  confirmedOutputs ←
    (if paged
     then on_db (getOutputsScriptPubKey (qp_scriptHash plan) (Z.of_nat <$> qp_pageLimit plan) after None)
     else on_db (getOutputsScriptPubKey (qp_scriptHash plan) None None (Some MAX_ADDRESS_OUTPUTS)));
  let nextCursor := nextPageCursor confirmedOutputs (qp_pageLimit plan) in
  mempoolOutputs ←
    (if negb paged || bool_decide (after = None)
     then on_mempool (getOutputsScriptPubKey (qp_scriptHash plan) None None (Some MAX_ADDRESS_OUTPUTS))
     else mret []);
  '(keys, results) ← serveConfirmed confirmedOutputs ∅ [] (qp_scriptPubKeyHex plan);
  results ← serveMempool mempoolOutputs keys paged results (qp_scriptPubKeyHex plan);
  x ← gets stat;
  mret (mkPage results (if paged then Some nextCursor else None)
          (stamp_reconverged (mempoolReconverged x) snapshot)).

Definition getFirstSeen (address : option string) : TM (option Z) :=
  script ← lift_res (addressToScript address chain_network);
  on_db (getOutputScriptBlock (script_hash script)).

Definition getFirstSeenAt (address : option string) : TM (option Z * snapshot) :=
  script ← lift_res (addressToScript address chain_network);
  snapshot ← readCommittedSnapshot;
  record ← on_db (getOutputScriptBlock (script_hash script));
  x ← gets stat;
  mret (record, stamp_reconverged (mempoolReconverged x) snapshot).

(** Both are a reader of the store-commit lock around the read. *)
Definition getBalanceInfo (address : option string) : TM balance_info := readBalanceInfo address.
Definition getUtxosAddress (address : option string) (limit : option Z) (after : option string)
    : TM utxo_page := readUtxosAddress address limit after.
End reads.
