(* ===== verification/Json.v ===== *)
(** [JSON.stringify] and [JSON.parse] on the values the store's text records hold:
    null, booleans, integers, strings of ASCII characters, arrays and objects.  A
    text is a sequence of characters below 128, so its UTF-8 bytes are itself. *)

From S2P Require Import Prelude.

#[local] Open Scope string_scope.
#[local] Open Scope nat_scope.
#[local] Open Scope list_scope.

Inductive json :=
  | JNull
  | JBool (b : bool)
  | JInt (z : Z)
  | JStr (s : string)
  | JArr (l : list json)
  | JObj (l : list (string * json)).

(** * Printing *)

Definition chr (n : nat) : Ascii.ascii := Ascii.ascii_of_nat n.
Definition quote : Ascii.ascii := chr 34.
Definition backslash : Ascii.ascii := chr 92.

(** The escape of a character: the short forms, [\u00XX] for the other control
    characters, the character itself otherwise. *)
Definition escape (c : Ascii.ascii) (r : string) : string :=
  let esc x := String.String backslash (String.String x r) in
  match Ascii.nat_of_ascii c with
  | 34 => esc quote
  | 92 => esc backslash
  | 8 => esc "b"%char
  | 9 => esc "t"%char
  | 10 => esc "n"%char
  | 12 => esc "f"%char
  | 13 => esc "r"%char
  | n =>
      if n <? 32 then
        String.String backslash (String.String "u"%char (String.String "0"%char (String.String "0"%char
          (String.String (hex_digit (Z.of_nat n / 16)) (String.String (hex_digit (Z.of_nat n mod 16)) r)))))
      else String.String c r
  end.

Fixpoint escape_all (s r : string) : string :=
  match s with
  | String.EmptyString => r
  | String.String c s' => escape c (escape_all s' r)
  end.

Definition quoted (s r : string) : string := String.String quote (escape_all s (String.String quote r)).

(** The text of a value in front of [r]. *)
Fixpoint print (v : json) (r : string) : string :=
  match v with
  | JNull => String.append "null" r
  | JBool true => String.append "true" r
  | JBool false => String.append "false" r
  | JInt z => String.append (to_radix 10 z) r
  | JStr s => quoted s r
  | JArr l =>
      String.String "["%char
        ((fix items (first : bool) (l : list json) : string :=
            match l with
            | [] => String.String "]"%char r
            | v :: l' =>
                let body := print v (items false l') in
                if first then body else String.String ","%char body
            end) true l)
  | JObj l =>
      String.String "{"%char
        ((fix items (first : bool) (l : list (string * json)) : string :=
            match l with
            | [] => String.String "}"%char r
            | (k, v) :: l' =>
                let body := quoted k (String.String ":"%char (print v (items false l'))) in
                if first then body else String.String ","%char body
            end) true l)
  end.

Definition stringify (v : json) : string := print v "".

(** * Parsing *)

Definition is_ws (c : Ascii.ascii) : bool :=
  match Ascii.nat_of_ascii c with 32 | 9 | 10 | 13 => true | _ => false end.

Fixpoint skip_ws (s : string) : string :=
  match s with
  | String.String c r => if is_ws c then skip_ws r else s
  | String.EmptyString => s
  end.

Definition unescape (c : Ascii.ascii) : option Ascii.ascii :=
  match c with
  | "b"%char => Some (chr 8)
  | "t"%char => Some (chr 9)
  | "n"%char => Some (chr 10)
  | "f"%char => Some (chr 12)
  | "r"%char => Some (chr 13)
  | "/"%char => Some c
  | _ => if bool_decide (c = quote \/ c = backslash) then Some c else None
  end.

(** The four digits of a [\u] escape; a code above 127 is outside the texts modelled. *)
Definition code_point (a b c d : Ascii.ascii) : option Ascii.ascii :=
  a ← nib a; b ← nib b; c ← nib c; d ← nib d;
  let n := (((a * 16 + b) * 16 + c) * 16 + d)%Z in
  if bool_decide (n < 128)%Z then Some (chr (Z.to_nat n)) else None.

(** The characters up to the closing quote, and what follows it. *)
Fixpoint parse_string (s : string) : option (string * string) :=
  match s with
  | String.EmptyString => None
  | String.String c r =>
      if bool_decide (c = quote) then Some (String.EmptyString, r)
      else if bool_decide (c = backslash) then
        match r with
        | String.String "u"%char (String.String a (String.String b (String.String x (String.String y r')))) =>
            ch ← code_point a b x y;
            '(t, r'') ← parse_string r';
            Some (String.String ch t, r'')
        | String.String e r' =>
            ch ← unescape e;
            '(t, r'') ← parse_string r';
            Some (String.String ch t, r'')
        | String.EmptyString => None
        end
      else if Ascii.nat_of_ascii c <? 32 then None
      else '(t, r') ← parse_string r; Some (String.String c t, r')
  end.

Fixpoint digits (acc : Z) (seen : bool) (s : string) : option (Z * string) :=
  match s with
  | String.String c r =>
      match digit_val 10 c with
      | Some d => digits (acc * 10 + d) true r
      | None => if seen then Some (acc, s) else None
      end
  | String.EmptyString => if seen then Some (acc, s) else None
  end.

(** An integer literal; a fraction or an exponent is outside the texts modelled. *)
Definition parse_int (s : string) : option (json * string) :=
  let '(neg, body) := match s with
                      | String.String "-"%char r => (true, r)
                      | _ => (false, s)
                      end in
  '(n, r) ← digits 0 false body;
  match body, r with
  | String.String "0"%char (String.String c _), _ =>
      if bool_decide (is_Some (digit_val 10 c)) then None
      else if bool_decide (c = "."%char \/ c = "e"%char \/ c = "E"%char) then None
      else Some (JInt (if neg then - n else n)%Z, r)
  | _, String.String c _ =>
      if bool_decide (c = "."%char \/ c = "e"%char \/ c = "E"%char) then None
      else Some (JInt (if neg then - n else n)%Z, r)
  | _, _ => Some (JInt (if neg then - n else n)%Z, r)
  end.

(** [fuel] bounds the values read; every value consumes a character. *)
Fixpoint parse_value (fuel : nat) (s : string) : option (json * string) :=
  match fuel with
  | O => None
  | S f =>
      match skip_ws s with
      | String.String "n"%char (String.String "u"%char (String.String "l"%char (String.String "l"%char r))) =>
          Some (JNull, r)
      | String.String "t"%char (String.String "r"%char (String.String "u"%char (String.String "e"%char r))) =>
          Some (JBool true, r)
      | String.String "f"%char (String.String "a"%char (String.String "l"%char (String.String "s"%char
          (String.String "e"%char r)))) => Some (JBool false, r)
      | String.String "["%char r =>
          match skip_ws r with
          | String.String "]"%char r' => Some (JArr [], r')
          | _ => '(v, r') ← parse_value f r; '(l, r'') ← parse_elements f r'; Some (JArr (v :: l), r'')
          end
      | String.String "{"%char r =>
          match skip_ws r with
          | String.String "}"%char r' => Some (JObj [], r')
          | _ => '(kv, r') ← parse_member f r; '(l, r'') ← parse_members f r'; Some (JObj (kv :: l), r'')
          end
      | String.String c r =>
          if bool_decide (c = quote) then '(t, r') ← parse_string r; Some (JStr t, r')
          else parse_int (String.String c r)
      | String.EmptyString => None
      end
  end
with parse_elements (fuel : nat) (s : string) : option (list json * string) :=
  match fuel with
  | O => None
  | S f =>
      match skip_ws s with
      | String.String "]"%char r => Some ([], r)
      | String.String ","%char r =>
          '(v, r') ← parse_value f r; '(l, r'') ← parse_elements f r'; Some (v :: l, r'')
      | _ => None
      end
  end
with parse_member (fuel : nat) (s : string) : option ((string * json) * string) :=
  match fuel with
  | O => None
  | S f =>
      match skip_ws s with
      | String.String c r =>
          if bool_decide (c = quote) then
            '(k, r') ← parse_string r;
            match skip_ws r' with
            | String.String ":"%char r'' => '(v, r''') ← parse_value f r''; Some ((k, v), r''')
            | _ => None
            end
          else None
      | String.EmptyString => None
      end
  end
with parse_members (fuel : nat) (s : string) : option (list (string * json) * string) :=
  match fuel with
  | O => None
  | S f =>
      match skip_ws s with
      | String.String "}"%char r => Some ([], r)
      | String.String ","%char r =>
          '(kv, r') ← parse_member f r; '(l, r'') ← parse_members f r'; Some (kv :: l, r'')
      | _ => None
      end
  end.

(** The whole text is one value, white space around it. *)
Definition parse (s : string) : option json :=
  '(v, r) ← parse_value (S (S (String.length s))) s;
  if bool_decide (skip_ws r = "") then Some v else None.

(** [o.k] of an object: the last entry of that name. *)
Definition field (k : string) (l : list (string * json)) : option json :=
  foldl (fun o kv => if bool_decide (kv.1 = k) then Some kv.2 else o) None l.

(** * Round trip *)

Fixpoint ascii_text (s : string) : bool :=
  match s with
  | String.EmptyString => true
  | String.String c r => (Ascii.nat_of_ascii c <? 128) && ascii_text r
  end.

Lemma parse_escape c X :
  Ascii.nat_of_ascii c <? 128 = true ->
  parse_string (escape c X) = ('(t, r) ← parse_string X; Some (String.String c t, r)).
Proof. destruct c as [[] [] [] [] [] [] [] []]; intros Hc; first [discriminate Hc | reflexivity]. Qed.

Lemma parse_quoted s r :
  ascii_text s = true -> parse_string (escape_all s (String.String quote r)) = Some (s, r).
Proof.
  induction s as [|c s IH]; cbn [ascii_text escape_all]; [done|].
  intros [Hc Hs]%andb_true_iff. by rewrite parse_escape, IH.
Qed.

(** What may follow a number: nothing that would read as more of it. *)
Definition ends_number (r : string) : bool :=
  match r with
  | String.EmptyString => true
  | String.String c _ =>
      negb (bool_decide (is_Some (digit_val 10 c)))
      && negb (bool_decide (c = "."%char \/ c = "e"%char \/ c = "E"%char))
  end.

Lemma radix_digits_append fuel n acc r :
  String.append (radix_digits fuel 10 n acc) r = radix_digits fuel 10 n (String.append acc r).
Proof.
  revert n acc. induction fuel as [|f IH]; intros n acc; [done|]. cbn [radix_digits].
  case_bool_decide; [done|]. by rewrite IH.
Qed.

Lemma digits_radix fuel n acc b :
  (0 <= n)%Z -> (n < 2 ^ Z.of_nat fuel)%Z -> 0 < fuel ->
  digits 0 b (radix_digits fuel 10 n acc) = digits n true acc.
Proof.
  revert n acc b. induction fuel as [|f IH]; intros n acc b Hn Hlt Hf; [lia|].
  cbn [radix_digits]. pose proof (Z.mod_pos_bound n 10 ltac:(lia)).
  case_bool_decide.
  - cbn [digits]. rewrite digit_val_hex_digit by lia. by rewrite Z.mod_small by lia.
  - rewrite Nat2Z.inj_succ, Z.pow_succ_r in Hlt by lia.
    assert (n / 10 <= n / 2)%Z by (apply Z.div_le_compat_l; lia).
    assert (n / 2 < 2 ^ Z.of_nat f)%Z by (apply Z.div_lt_upper_bound; lia).
    assert (1 <= n / 10)%Z by (apply Z.div_le_lower_bound; lia).
    destruct f as [|f]; [cbn in *; lia|].
    rewrite IH by lia. cbn [digits]. rewrite digit_val_hex_digit by lia.
    f_equal. rewrite Z.mul_comm. symmetry. apply Z.div_mod. lia.
Qed.

(** The first digit of a positive number is not zero. *)
Lemma radix_digits_first fuel n acc :
  (0 < n)%Z -> (n < 2 ^ Z.of_nat fuel)%Z ->
  exists d r, (0 < d < 10)%Z /\ radix_digits fuel 10 n acc = String.String (hex_digit d) r.
Proof.
  revert n acc. induction fuel as [|f IH]; intros n acc Hn Hlt; [cbn in Hlt; lia|].
  cbn [radix_digits]. case_bool_decide as Hs.
  - exists (n mod 10)%Z, acc. rewrite Z.mod_small by lia. split; [lia|done].
  - rewrite Nat2Z.inj_succ, Z.pow_succ_r in Hlt by lia.
    assert (n / 10 <= n / 2)%Z by (apply Z.div_le_compat_l; lia).
    assert (n / 2 < 2 ^ Z.of_nat f)%Z by (apply Z.div_lt_upper_bound; lia).
    assert (1 <= n / 10)%Z by (apply Z.div_le_lower_bound; lia).
    apply IH; lia.
Qed.

Lemma digits_stop n r : ends_number r = true -> digits n true r = Some (n, r).
Proof.
  destruct r as [|c r]; [done|]. cbn [ends_number digits].
  intros [Hc _]%andb_true_iff. apply negb_true_iff, bool_decide_eq_false in Hc.
  destruct (digit_val 10 c) eqn:E; [|done]. by exfalso; eauto.
Qed.

Lemma log2_fuel n : (0 <= n)%Z -> (n < 2 ^ Z.of_nat (S (Z.to_nat (Z.log2 n))))%Z.
Proof.
  intros Hn. rewrite Nat2Z.inj_succ, Z2Nat.id by apply Z.log2_nonneg.
  destruct (decide (n = 0)%Z) as [->|]; [done|]. apply Z.log2_spec. lia.
Qed.

Lemma parse_nat_text n r :
  (0 <= n)%Z -> ends_number r = true ->
  let s := radix_digits (S (Z.to_nat (Z.log2 n))) 10 n r in
  digits 0 false s = Some (n, r)
  /\ (n = 0%Z /\ s = String.String "0"%char r
      \/ exists d t, (0 < d < 10)%Z /\ s = String.String (hex_digit d) t).
Proof.
  intros Hn Hr s. split.
  - unfold s. rewrite digits_radix by (try apply log2_fuel; lia). by apply digits_stop.
  - destruct (decide (n = 0)%Z) as [->|Hne]; [by left|right].
    apply radix_digits_first; [lia|by apply log2_fuel].
Qed.

Lemma parse_int_radix z r : ends_number r = true -> parse_int (String.append (to_radix 10 z) r) = Some (JInt z, r).
Proof.
  intros Hr. unfold to_radix.
  set (body n := radix_digits (S (Z.to_nat (Z.log2 n))) 10 n r).
  assert (Hb : forall n (neg : bool), (0 <= n)%Z ->
    match body n, r with
    | String.String "0"%char (String.String c _), _ =>
        if bool_decide (is_Some (digit_val 10 c)) then None
        else if bool_decide (c = "."%char \/ c = "e"%char \/ c = "E"%char) then None
        else Some (JInt (if neg then - n else n)%Z, r)
    | _, String.String c _ =>
        if bool_decide (c = "."%char \/ c = "e"%char \/ c = "E"%char) then None
        else Some (JInt (if neg then - n else n)%Z, r)
    | _, _ => Some (JInt (if neg then - n else n)%Z, r)
    end = Some (JInt (if neg then - n else n)%Z, r)).
  { intros n neg Hn. destruct (parse_nat_text n r Hn Hr) as [_ [[-> E]|(d & t & Hd & E)]]; unfold body; rewrite E.
    - destruct r as [|c r]; [done|]. cbn [ends_number] in Hr.
      apply andb_true_iff in Hr as [H1%negb_true_iff H2%negb_true_iff]. by rewrite H1, H2.
    - assert (Hz : hex_digit d <> "0"%char).
      { intros E0. assert (Hn0 : nib (hex_digit d) = nib "0"%char) by by rewrite E0.
        rewrite nib_hex_digit in Hn0 by lia. cbv in Hn0. injection Hn0. lia. }
      assert (H2 : match r with
        | String.EmptyString => True
        | String.String c _ => bool_decide (c = "."%char \/ c = "e"%char \/ c = "E"%char) = false end).
      { destruct r as [|c r]; [done|]. cbn [ends_number] in Hr.
        by apply andb_true_iff in Hr as [_ H2%negb_true_iff]. }
      destruct (hex_digit d) as [[] [] [] [] [] [] [] []];
        first [by exfalso; apply Hz | destruct r as [|c r]; [done|]; by rewrite H2]. }
  assert (Ha : forall n, String.append (radix_digits (S (Z.to_nat (Z.log2 n))) 10 n "") r = body n)
    by (intros n; by rewrite radix_digits_append).
  case_bool_decide as Hz.
  - assert (E : forall s, String.append (String.String "-"%char s) r = String.String "-"%char (String.append s r)) by done.
    rewrite E, Ha. pose proof (Hb (- z)%Z true ltac:(lia)) as Hn. unfold parse_int, body in *.
    rewrite (proj1 (parse_nat_text (- z) r ltac:(lia) Hr)). cbn [mbind option_bind].
    rewrite Hn. do 3 f_equal. lia.
  - rewrite Ha. unfold parse_int, body.
    destruct (parse_nat_text z r ltac:(lia) Hr) as [Hd Hc].
    assert (Hdash : match radix_digits (S (Z.to_nat (Z.log2 z))) 10 z r with
      | String.String "-"%char t => (true, t)
      | _ => (false, radix_digits (S (Z.to_nat (Z.log2 z))) 10 z r) end
      = (false, radix_digits (S (Z.to_nat (Z.log2 z))) 10 z r)).
    { destruct Hc as [[-> E]|(d & t & Hdd & E)]; rewrite E; [done|].
      assert (hex_digit d <> "-"%char) by (intros E0; pose proof (nib_hex_digit d ltac:(lia)) as En; by rewrite E0 in En).
      destruct (hex_digit d) as [[] [] [] [] [] [] [] []]; done. }
    rewrite Hdash, Hd. cbn [mbind option_bind]. by apply (Hb z false); lia.
Qed.

(** Records are flat objects: scalars under ASCII names. *)
Definition scalar (v : json) : bool :=
  match v with
  | JNull | JBool _ | JInt _ => true
  | JStr s => ascii_text s
  | JArr _ | JObj _ => false
  end.

Lemma int_first z r :
  exists c t, String.append (to_radix 10 z) r = String.String c t
    /\ (c = "-"%char \/ exists d, (0 <= d < 10)%Z /\ c = hex_digit d).
Proof.
  unfold to_radix. case_bool_decide as Hz; [by eexists _, _; split; [reflexivity|left]|].
  rewrite radix_digits_append. set (acc := String.append _ _).
  destruct (decide (z = 0)%Z) as [->|Hne].
  - eexists _, _. split; [reflexivity|]. right. by exists 0%Z.
  - destruct (radix_digits_first (S (Z.to_nat (Z.log2 z))) z acc) as (d & t & Hd & E);
      [lia|apply log2_fuel; lia|].
    exists (hex_digit d), t. split; [done|]. right. exists d. split; [lia|done].
Qed.

Lemma parse_value_int f z r :
  ends_number r = true -> parse_value (S f) (print (JInt z) r) = Some (JInt z, r).
Proof.
  intros Hr. cbn [print]. pose proof (parse_int_radix z r Hr) as HP.
  destruct (int_first z r) as (c & t & E & Hc). rewrite E in HP |- *. rewrite <- HP.
  destruct Hc as [-> |(d & Hd & ->)]; [reflexivity|].
  assert (Hcase : In d [0; 1; 2; 3; 4; 5; 6; 7; 8; 9]%Z) by (cbn; lia).
  cbn in Hcase. repeat destruct Hcase as [<-|Hcase]; try reflexivity. done.
Qed.

Lemma parse_value_scalar f v r :
  scalar v = true -> ends_number r = true -> parse_value (S f) (print v r) = Some (v, r).
Proof.
  destruct v as [|[]|z|s| |]; intros Hv Hr; try done.
  - by apply parse_value_int.
  - cbn [print]. unfold quoted.
    assert (E : forall X, parse_value (S f) (String.String quote X)
      = ('(t, r') ← parse_string X; Some (JStr t, r'))) by reflexivity.
    by rewrite E, parse_quoted.
Qed.

Fixpoint flat_items (first : bool) (l : list (string * json)) (r : string) : string :=
  match l with
  | [] => String.String "}"%char r
  | (k, v) :: l' =>
      let body := quoted k (String.String ":"%char (print v (flat_items false l' r))) in
      if first then body else String.String ","%char body
  end.

Lemma print_obj l r : print (JObj l) r = String.String "{"%char (flat_items true l r).
Proof.
  cbn [print]. apply (f_equal (String.String "{"%char)).
  match goal with |- ?f true l = _ => cut (forall b, f b l = flat_items b l r); [auto|] end.
  induction l as [|[k v] l IH]; intros b; [done|]. cbn [flat_items]. rewrite <- (IH false). reflexivity.
Qed.

Definition flat (l : list (string * json)) : bool :=
  forallb (fun kv => ascii_text kv.1 && scalar kv.2) l.

Lemma parse_member_ok f k v r :
  ascii_text k = true -> scalar v = true -> ends_number r = true ->
  parse_member (S (S f)) (quoted k (String.String ":"%char (print v r))) = Some ((k, v), r).
Proof.
  intros Hk Hv Hr. unfold quoted.
  assert (E : forall X, parse_member (S (S f)) (String.String quote X)
    = ('(k, r') ← parse_string X;
       match skip_ws r' with
       | String.String ":"%char r'' => '(v, r''') ← parse_value (S f) r''; Some ((k, v), r''')
       | _ => None
       end)) by reflexivity.
  rewrite E, parse_quoted by done. cbn [mbind option_bind].
  change (skip_ws (String.String ":"%char (print v r))) with (String.String ":"%char (print v r)).
  cbv iota beta. by rewrite parse_value_scalar.
Qed.

Lemma flat_items_ends l r : ends_number (flat_items false l r) = true.
Proof. destruct l as [|[k v] l]; cbn [flat_items]; [|generalize (quoted k)]; reflexivity. Qed.

Lemma parse_members_ok l f r :
  flat l = true -> length l + 2 <= f -> parse_members f (flat_items false l r) = Some (l, r).
Proof.
  revert f. induction l as [|[k v] l IH]; intros f Hl Hf; destruct f as [|f]; cbn in Hf; try lia.
  - reflexivity.
  - cbn [flat forallb fst snd] in Hl. apply andb_true_iff in Hl as [[Hk Hv]%andb_true_iff Hl].
    cbn [flat_items]. set (body := quoted k _).
    assert (E : parse_members (S f) (String.String ","%char body)
      = ('(kv, r') ← parse_member f body; '(l, r'') ← parse_members f r'; Some (kv :: l, r'')))
      by reflexivity.
    rewrite E. unfold body. destruct f as [|[|f]]; try lia.
    rewrite parse_member_ok by (try done; apply flat_items_ends). cbn [mbind option_bind].
    rewrite IH; [done|done|lia].
Qed.

Lemma append_length s r : String.length (String.append s r) = String.length s + String.length r.
Proof. induction s as [|c s IH]; [done|]. exact (f_equal S IH). Qed.

Lemma escape_all_length s r : String.length r <= String.length (escape_all s r).
Proof.
  induction s as [|c s IH]; cbn [escape_all]; [done|]. etrans; [exact IH|].
  unfold escape. repeat case_match; cbn [String.length]; lia.
Qed.

Lemma print_scalar_length v r : scalar v = true -> String.length r <= String.length (print v r).
Proof.
  destruct v as [|[]|z|s| |]; intros Hv; cbn [print]; try done; try (rewrite append_length; lia).
  - unfold quoted. cbn [String.length]. pose proof (escape_all_length s (String.String quote r)) as Hle.
    cbn [String.length] in Hle. lia.
Qed.

Lemma flat_items_length b l r : flat l = true -> length l < String.length (flat_items b l r).
Proof.
  revert b. induction l as [|[k v] l IH]; intros b Hl; [cbn; lia|].
  cbn [flat forallb fst snd] in Hl. apply andb_true_iff in Hl as [[Hk Hv]%andb_true_iff Hl].
  assert (Hq : length ((k, v) :: l) < String.length (quoted k (String.String ":"%char (print v (flat_items false l r))))).
  { unfold quoted. cbn [String.length length].
    pose proof (escape_all_length k (String.String quote (String.String ":"%char (print v (flat_items false l r))))) as H1.
    pose proof (print_scalar_length v (flat_items false l r) Hv) as H2. pose proof (IH false Hl) as H3.
    cbn [String.length] in H1. lia. }
  cbn [flat_items]. destruct b; cbn [String.length]; lia.
Qed.

Lemma parse_obj_eq f r :
  parse_value (S f) (String.String "{"%char r)
  = match skip_ws r with
    | String.String "}"%char r' => Some (JObj [], r')
    | _ => '(kv, r') ← parse_member f r; '(l, r'') ← parse_members f r'; Some (JObj (kv :: l), r'')
    end.
Proof. reflexivity. Qed.

(** A flat object read back from its text. *)
Lemma parse_stringify l : flat l = true -> parse (stringify (JObj l)) = Some (JObj l).
Proof.
  intros Hl. unfold parse, stringify. rewrite print_obj. set (text := flat_items true l "").
  pose proof (flat_items_length true l "" Hl) as Hlen. fold text in Hlen.
  cbn [String.length]. rewrite parse_obj_eq.
  destruct l as [|[k v] l]; [reflexivity|].
  cbn [flat forallb fst snd] in Hl. apply andb_true_iff in Hl as [[Hk Hv]%andb_true_iff Hl].
  unfold text in *. cbn [flat_items] in *. set (body := quoted _ _) in *.
  assert (E : forall X : option (json * string), match skip_ws body with
      | String.String "}"%char r' => Some (JObj [], r') | _ => X end = X) by reflexivity.
  rewrite E. cbn [length] in Hlen. unfold body.
  rewrite parse_member_ok by (try done; apply flat_items_ends). cbn [mbind option_bind].
  rewrite parse_members_ok by (try done; fold body; lia). reflexivity.
Qed.
