(* ===== verification/Startup.v ===== *)
(** Starting, halting and stopping the tracker: the layout gate
    ([store/level_up_db/store_layout.js]), the halt marker ([store/level_up_db.js],
    [XChainUtxoTracker/halt_marker.js], [fetch_failures_and_halt.js]), the boot of the
    sync loop ([XChainUtxoTracker/sync_loop.js]) and the stop
    ([XChainUtxoTracker/status_and_stop.js]). *)

From S2P Require Import Prelude KeyCodec ValueCodec LevelDb Store Tracker Window Reorg SyncLoop.
From S2P Require Json.
From stdpp Require Import gmap.

#[local] Open Scope string_scope.
#[local] Open Scope nat_scope.
#[local] Open Scope list_scope.

(** * The layout gate *)

Definition STORE_LAYOUT_VERSION : Z := 2.
Definition LEGACY_LAYOUT_VERSION : Z := 1.

(** What [getLayoutVersion] resolves to: [null], a number, or [NaN]. *)
Inductive layout_version := NoLayout | Layout (v : Z) | BadLayout.

(** [/^[1-9][0-9]*$/]. *)
Definition is_version_text (s : string) : bool :=
  match s with
  | String.String c r => bool_decide (is_Some (digit_val 10 c)) && negb (bool_decide (c = "0"%char)) && all_digits r
  | String.EmptyString => false
  end.

Section layout.
Context {DB : Type} `{LevelDb DB}.

Abbreviation SM := (M (store DB)).

(** The stored text is read as UTF-8; a version is ASCII digits. *)
Definition getLayoutVersion : SM layout_version :=
  raw ← dbGet PREFIX_LAYOUT_VERSION;
  match raw with
  | Some v =>
      let text := to_latin1 v in
      mret (if is_version_text text then Layout (default 0%Z (parse_run 10 0 false text)) else BadLayout)
  | None =>
      rows ← dbIterator (mkRange None None None (Some 1));
      mret (if bool_decide (length rows = 0) then NoLayout else Layout LEGACY_LAYOUT_VERSION)
  end.

Definition setLayoutVersion (version : Z) : SM unit :=
  modify (fun s => set_disk (db_put (disk s) PREFIX_LAYOUT_VERSION (from_latin1 (to_radix 10 version))) s).

(** Every refusal is the same error: the texts differ. *)
Definition ensureLayoutVersion (stamp : bool) : SM string :=
  version ← getLayoutVersion;
  match version with
  | Layout v =>
      if bool_decide (v = STORE_LAYOUT_VERSION) then mret "current"
      else throw (Error ELayout)
  | NoLayout => _ ← when stamp (setLayoutVersion STORE_LAYOUT_VERSION); mret "empty"
  | BadLayout => throw (Error ELayout)
  end.
End layout.

(** * The halt marker *)

Record halt_marker := mkMarker { hm_reason : string; hm_height : option Z; hm_at : option string }.

Definition marker_json (m : halt_marker) : Json.json :=
  Json.JObj [("reason", Json.JStr (hm_reason m));
             ("height", match hm_height m with Some h => Json.JInt h | None => Json.JNull end);
             ("at", match hm_at m with Some a => Json.JStr a | None => Json.JNull end)].

Definition marker_of_json (v : Json.json) : option halt_marker :=
  match v with
  | Json.JObj fields =>
      match Json.field "reason" fields with
      | Some (Json.JStr reason) =>
          Some (mkMarker reason
            (match Json.field "height" fields with Some (Json.JInt h) => Some h | _ => None end)
            (match Json.field "at" fields with Some (Json.JStr a) => Some a | _ => None end))
      | _ => None
      end
  | _ => None
  end.

Section marker.
Context {DB : Type} `{LevelDb DB}.

Abbreviation SM := (M (store DB)).

Definition getHaltMarker : SM (option halt_marker) :=
  raw ← dbGet HALT_MARKER_KEY;
  mret (raw ← raw; v ← Json.parse (to_latin1 raw); marker_of_json v).

(** [now] is [new Date().toISOString()]; [None] or empty for [at] takes it. *)
Definition setHaltMarker (reason : string) (height : option Z) (at_ : option string) (now : string)
    : SM halt_marker :=
  let record := mkMarker reason height
    (Some (match at_ with Some a => if bool_decide (a = "") then now else a | None => now end)) in
  _ ← modify (fun s => set_disk (db_put (disk s) HALT_MARKER_KEY
        (from_latin1 (Json.stringify (marker_json record)))) s);
  mret record.

Definition deleteHaltMarker : SM bool :=
  _ ← modify (fun s => set_disk (db_del (disk s) HALT_MARKER_KEY) s);
  mret true.
End marker.

(** * The process *)

(** The tracker with the state that outlives one run of its loop ([initHaltState] and
    the latches of [start] and [stopParsing]).  [storeOpen]: the store takes
    operations. *)
Record process (DB : Type) := mkProcess {
  p_trk : tracker DB;
  p_sync : option sync_state;
  halted : bool;
  haltReason : option string;
  haltedAt : option string;
  haltedHeight : option Z;
  keepParsing : bool;
  parsingStopped : bool;
  parsingAborted : bool;
  storeOpen : bool;
}.
Arguments mkProcess {_}.
Arguments p_trk {_}.
Arguments p_sync {_}.
Arguments halted {_}.
Arguments haltReason {_}.
Arguments haltedAt {_}.
Arguments haltedHeight {_}.
Arguments keepParsing {_}.
Arguments parsingStopped {_}.
Arguments parsingAborted {_}.
Arguments storeOpen {_}.

Section process.
Context {node : Node} {rpcs : NodeRpc} {env : LoopEnv} {DB : Type} `{LevelDb DB}.
Implicit Type p : process DB.

Abbreviation PM := (M (process DB)).
Abbreviation TM := (M (tracker DB)).

Definition set_trk x p : process DB :=
  mkProcess x (p_sync p) (halted p) (haltReason p) (haltedAt p) (haltedHeight p) (keepParsing p)
    (parsingStopped p) (parsingAborted p) (storeOpen p).
Definition set_sync y p : process DB :=
  mkProcess (p_trk p) y (halted p) (haltReason p) (haltedAt p) (haltedHeight p) (keepParsing p)
    (parsingStopped p) (parsingAborted p) (storeOpen p).
Definition set_halt b reason at_ height p : process DB :=
  mkProcess (p_trk p) (p_sync p) b reason at_ height (keepParsing p)
    (parsingStopped p) (parsingAborted p) (storeOpen p).
Definition set_flow keep stopped aborted p : process DB :=
  mkProcess (p_trk p) (p_sync p) (halted p) (haltReason p) (haltedAt p) (haltedHeight p) keep
    stopped aborted (storeOpen p).
Definition set_open b p : process DB :=
  mkProcess (p_trk p) (p_sync p) (halted p) (haltReason p) (haltedAt p) (haltedHeight p) (keepParsing p)
    (parsingStopped p) (parsingAborted p) b.

Definition on_tracker {A} (m : TM A) : PM A :=
  fun p => let '(r, x) := m (p_trk p) in (r, set_trk x p).

(** An operation of the store: a closed one throws. *)
Definition on_open_db {A} (m : M (store DB) A) : PM A :=
  open ← gets storeOpen;
  if open : bool then on_tracker (on_db m) else throw (Error (EMsg "Database is not open")).

Definition mod_stat (f : status -> status) : PM unit := on_tracker (modify_stat f).

(** [this.db.close()]: closing twice is no error. *)
Definition close : PM unit := modify (set_open false).

(** ** Halting *)

Definition enterHaltedState (reason at_ : option string) (height : option Z) : PM unit :=
  _ ← modify (set_halt true reason at_ height);
  _ ← modify (fun p => set_flow (keepParsing p) false true p);
  mod_stat (fun s => set_reconverged false (set_synced false (set_interval false s))).

(** [String(reason)] of a missing reason. *)
Definition String_of (o : option string) : string := default "null" o.

Definition persistHaltMarker (now : string) : PM (option halt_marker) :=
  try_catch
    (p ← get;
     _ ← (match haltedHeight p with
          | None =>
              h ← on_open_db getLastBlockHeight;
              modify (fun p => set_halt (halted p) (haltReason p) (haltedAt p) h p)
          | Some _ => mret tt
          end);
     p ← get;
     m ← on_open_db (setHaltMarker (String_of (haltReason p)) (haltedHeight p) (haltedAt p) now);
     mret (Some m))
    (fun _ => mret None).

(** [reason]: [None] or empty for none given. *)
Definition haltForResync (reason : option string) (now : string) : PM (option halt_marker) :=
  let text := match reason with
              | Some r => if bool_decide (r = "") then "unrecoverable reorg (rolled back past the recovery window)" else r
              | None => "unrecoverable reorg (rolled back past the recovery window)"
              end in
  _ ← enterHaltedState (Some text) (Some now) None;
  persistHaltMarker now.

Definition dropHaltMarker : PM bool :=
  try_catch (_ ← on_open_db deleteHaltMarker; mret true) (fun _ => mret false).

Definition clearHalt : PM bool :=
  _ ← modify (set_halt false None None None);
  dropHaltMarker.

Definition resumeHaltFromMarker : PM bool :=
  marker ← try_catch (on_open_db getHaltMarker) (fun _ => mret None);
  match marker with
  | None => mret false
  | Some m =>
      _ ← enterHaltedState (Some (hm_reason m)) (hm_at m) (hm_height m);
      mret true
  end.

(** [null]: nothing to report; else the blocks that can still be walked back. *)
Definition noteInterruptedReorgWindow (committedHeight : option Z) (w : window) : option Z :=
  let remaining := Z.of_nat (length (lastBlocks w)) in
  match committedHeight with
  | None => None
  | Some h =>
      if negb (bool_decide (undoBlocks w <= h)%Z) then None
      else if bool_decide (undoBlocks w <= remaining)%Z then None
      else Some remaining
  end.

(** ** Booting *)

Record sync_cursor := mkCursor {
  sc_index : option Z; sc_hash : option string; sc_pending : option bytes }.

Definition loadSyncCursor : TM sync_cursor :=
  lastProcessedBlockIndex ← on_db getLastBlockHeight;
  lastProcessedBlockHash ← on_db getLastBlockHash;
  l ← loadLastBlocksSortedByHeight;
  _ ← modify_win (set_lastBlocks l);
  _ ← loadUndoWindowWatermark;
  w ← gets win;
  let _ := noteInterruptedReorgWindow lastProcessedBlockIndex w in
  _ ← modify_win (set_pending []);
  pendingCleanup ← on_db (dbGet P_PENDING_CLEANUP_KEY);
  mret (mkCursor lastProcessedBlockIndex lastProcessedBlockHash pendingCleanup).

(** [JSON.parse] of a text that is no list of hashes throws. *)
Definition recoverPendingCleanup (pVal : option bytes) : TM unit :=
  match pVal with
  | None => mret tt
  | Some v =>
      match JSON_parse (to_latin1 v) with
      | Some l => modify_win (set_pending l)
      | None => throw (Error (EMsg "SyntaxError"))
      end
  end.

Definition newSyncLoopState (c : sync_cursor) : TM sync_state :=
  _ ← modify_stat (fun s => set_catchingUp None (set_reconverged false (set_synced false
        (set_tip None (set_infoLast (Some (-1)%Z) s)))));
  mret (mkSync (sc_index c) (sc_hash c) None 0 empty_batch (mkFetching [] no_streak no_streak)
          (mkLatches false false false)).

(** [start] up to its loop, over what the two stores hold when they are opened:
    [false] is the early return of a store already declared unrecoverable.  The
    transaction-index probe of an AuxPoW chain only logs. *)
Definition boot (d empty : DB) : PM bool :=
  _ ← on_tracker (modify (fun t => set_mempoolDb (new_store (disk (mempoolDb t)) (mempoolDb t))
        (set_db (new_store (disk (db t)) (db t)) t)));
  _ ← modify (set_open true);
  _ ← on_tracker (on_db (createDatabase d));
  _ ← on_tracker (on_mempool (createDatabase empty));
  _ ← on_tracker (on_db (ensureLayoutVersion true));
  resumed ← resumeHaltFromMarker;
  if resumed : bool then mret false
  else
    cursor ← on_tracker loadSyncCursor;
    _ ← on_tracker (recoverPendingCleanup (sc_pending cursor));
    sync ← on_tracker (newSyncLoopState cursor);
    _ ← modify (set_sync (Some sync));
    _ ← modify (set_flow true false false);
    mret true.

Definition on_loop {A} (sync : sync_state) (m : M (loop DB) A) : PM A :=
  fun p => let '(r, l) := m (mkLoop (p_trk p) sync) in (r, set_sync (Some (syn l)) (set_trk (trk l) p)).

(** One turn of [start]'s loop: a pass, or the stop; [false] leaves the loop.
    [fuel] bounds the reorg walk of the pass. *)
Definition loopTurn (fuel : nat) : PM bool :=
  p ← get;
  match keepParsing p, p_sync p with
  | true, Some sync =>
      _ ← on_loop sync (pollSyncLoop fuel);
      mret true
  | _, _ =>
      _ ← mod_stat (fun s => set_catchingUp None (set_reconverged false (set_synced false (set_interval false s))));
      _ ← close;
      _ ← modify (fun p => set_flow (keepParsing p) true (parsingAborted p) p);
      mret false
  end.

(** ** Stopping *)

Definition isSynced : PM bool := gets (fun p => synced (stat (p_trk p))).

Definition isMempoolReconverged : PM bool := gets (fun p => mempoolReconverged (stat (p_trk p))).

Definition stop : PM unit :=
  _ ← modify (fun p => set_flow false (parsingStopped p) (parsingAborted p) p);
  mod_stat (set_interval false).

(** [wait n]: what the rest of the process did during the [n]-th second slept. *)
Fixpoint waitStopped (wait : nat -> process DB -> process DB) (triesCount : nat) : PM nat :=
  stopped ← gets parsingStopped;
  match triesCount with
  | O => mret O
  | S n =>
      if stopped : bool then mret triesCount
      else _ ← modify (wait (10 - triesCount)); waitStopped wait n
  end.

Definition stopParsing (wait : nat -> process DB -> process DB) : PM bool :=
  _ ← modify (fun p => set_flow false (parsingStopped p) (parsingAborted p) p);
  _ ← mod_stat (set_interval false);
  p ← get;
  if parsingAborted p && negb (parsingStopped p) then
    _ ← close;
    _ ← modify (fun p => set_flow (keepParsing p) true (parsingAborted p) p);
    mret true
  else
    triesCount ← waitStopped wait 10;
    stopped ← gets parsingStopped;
    if bool_decide (triesCount = 0) && negb stopped then
      _ ← modify (fun p => set_flow true (parsingStopped p) (parsingAborted p) p);
      _ ← mod_stat (set_interval true);
      throw (Error (EMsg "There was an error trying to stop the parsing"))
    else mret true.
End process.
