(* ===== verification/Mempool.v ===== *)
(** The mempool poller ([XChainUtxoTracker/mempool_refresh.js], with
    [deleteAndCompareTxsNotInList] of [blocks_and_transactions.js]): one pass lists the
    node's mempool, prunes the store to it, then fetches and stages what is new, batch
    by batch, and publishes readiness when everything landed. *)

From S2P Require Import Prelude KeyCodec ValueCodec LevelDb Store Outputs Parsing Tracker.
From stdpp Require Import gmap sorting.

#[local] Open Scope string_scope.
#[local] Open Scope nat_scope.
#[local] Open Scope list_scope.

Definition MEMPOOL_BATCH_SIZE : nat := 1000.
Definition MEMPOOL_MAX_TX_FETCH_RETRIES : Z := 5.

(** [a.localeCompare(b)] on texts of lower-case hex digits, where the locale's order is
    the order of the character codes. *)
Definition localeCompare (a b : string) : Z :=
  match String.compare a b with Lt => -1 | Eq => 0 | Gt => 1 end.

(** The [binary-search] package, and what it documents on a sorted list: the index of
    the needle, or [-i-1] for the index [i] it would be inserted at. *)
Class BinarySearch := bs : list string -> string -> (string -> string -> Z) -> Z.

Definition str_lt (a b : string) : Prop := String.compare a b = Lt.

Class BinarySearchLaws `{BinarySearch} : Prop := {
  bs_found : forall l x, StronglySorted str_lt l -> (0 <= bs l x localeCompare)%Z ->
    l !! Z.to_nat (bs l x localeCompare) = Some x;
  bs_missing : forall l x, StronglySorted str_lt l -> (bs l x localeCompare < 0)%Z ->
    let i := Z.to_nat (- bs l x localeCompare - 1) in
    i <= length l /\ (forall y, y ∈ take i l -> str_lt y x) /\ (forall y, y ∈ drop i l -> str_lt x y);
}.

(** The node and the decoder, as the poller uses them.  [rpc_tip] is the [blocks] and
    [bestblockhash] fields of a [getblockchaininfo] reply, [None] for no reply. *)
Class MempoolEnv := {
  rpc_getRawMempool : nat -> res (list string);
  rpc_getRawTransactions : nat -> list string -> res (list (option string));
  rpc_tip : nat -> res (option (option Z * option string));
  txFromHex : string -> res transaction;
}.

(** * Listing *)

(** [l.splice(i, 0, x)]. *)
Definition splice_in (i : nat) (x : string) (l : list string) : list string := take i l ++ x :: drop i l.

(** [l.splice(i, 1)]. *)
Definition splice_out (i : nat) (l : list string) : list string := take i l ++ drop (S i) l.

Section listing.
Context {search : BinarySearch}.

Definition insertSorted (rawMempool : list string) (item : string) : list string :=
  let newIndex := bs rawMempool item localeCompare in
  if bool_decide (newIndex < 0)%Z then splice_in (Z.to_nat (- newIndex - 1)) item rawMempool
  else rawMempool.

Definition insertSortedTxids (rawMempool rawMempoolUnordered : list string) : list string :=
  foldl insertSorted rawMempool rawMempoolUnordered.
End listing.

(** * The store side *)

Record deleted_info := mkDeleted { transactionsDeleted : nat; outputsDeleted : nat; inputsDeleted : nat }.

Section compare.
Context {node : Node} {search : BinarySearch} {DB : Type} `{LevelDb DB}.

Abbreviation SM := (M (store DB)).

(** The stored transactions against the sorted list: the ones found leave the list,
    the others are deleted unless [keepOnly]. *)
Fixpoint compareLoop (keepOnly : bool) (rows : list (bytes * bytes)) (txidList deletedTxs : list string)
    : SM (list string * list string) :=
  match rows with
  | [] => mret (txidList, deletedTxs)
  | (key, _) :: rest =>
      let txid := b2h (drop 1 key) in
      let txidIndex := bs txidList txid localeCompare in
      if bool_decide (txidIndex < 0)%Z then
        if keepOnly then compareLoop keepOnly rest txidList deletedTxs
        else
          _ ← deleteTransaction txid;
          compareLoop keepOnly rest txidList (deletedTxs ++ [txid])
      else compareLoop keepOnly rest (splice_out (Z.to_nat txidIndex) txidList) deletedTxs
  end.

Definition deleteAndCompareTxsNotInList (txidList : list string) (keepOnly : bool)
    : SM (list string * deleted_info) :=
  rows ← dbScan (pb P_TX);
  '(txidList, deletedTxs) ← compareLoop keepOnly rows txidList [];
  inputsDeleted ← deleteInputsByHints deletedTxs;
  outputsDeleted ← deleteOutputsByHints deletedTxs;
  mret (txidList, mkDeleted (length deletedTxs) outputsDeleted inputsDeleted).
End compare.

(** * The pass *)

Record counts := mkCounts {
  ct_transactions : nat; ct_inputs : nat; ct_outputs : nat; ct_deleted : deleted_info }.

Definition no_counts : counts := mkCounts 0 0 0 (mkDeleted 0 0 0).

(** The tracker with the counters of the poller. *)
Record refresh (DB : Type) := mkRefresh {
  rf_trk : tracker DB;
  mempoolRpcFailures : Z;
  rf_counts : counts;
}.
Arguments mkRefresh {_}.
Arguments rf_trk {_}.
Arguments mempoolRpcFailures {_}.
Arguments rf_counts {_}.

Section pass.
Context {node : Node} {search : BinarySearch} {env : MempoolEnv} {DB : Type} `{LevelDb DB}.
Implicit Type x : refresh DB.

Abbreviation TM := (M (tracker DB)).
Abbreviation RM := (M (refresh DB)).

Definition on_track {A} (m : TM A) : RM A :=
  fun x => let '(r, t) := m (rf_trk x) in (r, mkRefresh t (mempoolRpcFailures x) (rf_counts x)).

Definition set_counts c x : refresh DB := mkRefresh (rf_trk x) (mempoolRpcFailures x) c.

Definition mod_status (f : status -> status) : RM unit := on_track (modify_stat f).

Definition committedTipIsNodeTip : TM bool :=
  try_catch
    (info ← rpc rpc_tip;
     height ← on_db getLastBlockHeight;
     hash ← on_db getLastBlockHash;
     mret (match info with
           | Some (Some blocks, best) =>
               bool_decide (height = Some blocks) && bool_decide (is_Some hash) && bool_decide (best = hash)
           | _ => false
           end))
    (fun _ => mret false).

(** [try { await endTransaction(false) } catch (_) {}; throw err]. *)
Definition discard_and_throw {A} (err : js_error) : RM A :=
  _ ← on_track (try_catch (on_mempool (endTransaction false)) (fun _ => mret tt));
  throw err.

Definition pruneMempoolStore (rawMempool : list string) (mayDelete : bool) : RM (list string) :=
  _ ← on_track (on_mempool beginTransaction);
  try_catch
    ('(newTxids, deletedInfo) ← on_track (on_mempool (deleteAndCompareTxsNotInList rawMempool (negb mayDelete)));
     _ ← on_track (on_mempool (endTransaction true));
     _ ← mod_status (fun s => set_epoch (mempoolEpoch s + 1) s);
     _ ← when (bool_decide (0 < length newTxids)) (mod_status (set_reconverged false));
     _ ← modify (fun x => set_counts (mkCounts (ct_transactions (rf_counts x)) (ct_inputs (rf_counts x))
           (ct_outputs (rf_counts x)) deletedInfo) x);
     mret newTxids)
    discard_and_throw.

Definition noteTxFetchFailure (consecutiveTxFetchFailures : Z) : RM unit :=
  _ ← modify (fun x => mkRefresh (rf_trk x) (mempoolRpcFailures x + 1) (rf_counts x));
  if bool_decide (MEMPOOL_MAX_TX_FETCH_RETRIES <= consecutiveTxFetchFailures)%Z
  then throw (Error (EMsg "mempool fetch incomplete"))
  else mret tt.

Definition isStageableMempoolTx (tx : transaction) (nodeTxid : string) : res bool :=
  if bool_decide (length (ins tx) = 0) && bool_decide (length (outs tx) = 0) then Ok false
  else if bool_decide (getId tx = nodeTxid) then Ok true
  else Err (Error (EMsg "mempool tx parses to another txid")).

(** One entry of the fetched batch. *)
Definition stageMempoolTx (e : option string * string) : RM unit :=
  match e.1 with
  | None => mret tt
  | Some hex =>
      nextTx ← lift_res (txFromHex hex);
      stageable ← lift_res (isStageableMempoolTx nextTx e.2);
      if stageable : bool then
        countInfo ← on_track (on_mempool (parseTransaction nextTx None (-1) true false));
        modify (fun x => set_counts (mkCounts (ct_transactions (rf_counts x) + 1)
          (ct_inputs (rf_counts x) + inputsCount countInfo)
          (ct_outputs (rf_counts x) + outputsCount countInfo) (ct_deleted (rf_counts x))) x)
      else mret tt
  end.

(** [nodeTxids[i]]: the answers come in the order of the ids asked for; an answer past
    the last of them is compared with no id. *)
Definition pair_txids (txs : list (option string)) (nodeTxids : list string) : list (option string * string) :=
  imap (fun i h => (h, default "" (nodeTxids !! i))) txs.

Definition stageMempoolBatch (nextTxsHex : list (option string)) (nodeTxids : list string) : RM unit :=
  _ ← on_track (on_mempool beginTransaction);
  try_catch
    (_ ← forM (pair_txids nextTxsHex nodeTxids) stageMempoolTx;
     _ ← on_track (on_mempool (endTransaction true));
     mod_status (fun s => set_epoch (mempoolEpoch s + 1) s))
    discard_and_throw.

(** A promise turned into its outcome. *)
Definition settle {A} (m : RM A) : RM (res A) :=
  fun x => let '(r, x') := m x in (Ok r, x').

(** The fetch of a chunk, tried until it answers; the fifth failure in a row throws,
    so the attempts left count down to it. *)
Fixpoint fetchChunk (tries : nat) (chunk : list string) (failures : Z) : RM (list (option string)) :=
  r ← settle (on_track (rpc (fun n => rpc_getRawTransactions n chunk)));
  match r with
  | Ok txs => mret txs
  | Err err =>
      _ ← noteTxFetchFailure (failures + 1);
      match tries with
      | O => throw err
      | S tries => fetchChunk tries chunk (failures + 1)
      end
  end.

(** [rawMempool.slice(i, i + MEMPOOL_BATCH_SIZE)] for every [i]; [fuel] bounds the
    number of chunks. *)
Fixpoint batchLoop (fuel : nat) (rawMempool : list string) : RM unit :=
  match fuel, rawMempool with
  | S fuel, _ :: _ =>
      let chunk := take MEMPOOL_BATCH_SIZE rawMempool in
      txs ← fetchChunk (Z.to_nat MEMPOOL_MAX_TX_FETCH_RETRIES) chunk 0;
      _ ← stageMempoolBatch txs chunk;
      batchLoop fuel (drop MEMPOOL_BATCH_SIZE rawMempool)
  | _, _ => mret tt
  end.

Definition markMempoolReconverged : RM unit := mod_status (set_reconverged true).

Definition withdrawMempoolReadiness : RM unit := mod_status (set_reconverged false).

Definition reconvergeMempool (rawMempool : list string) (mayDelete : bool) : RM unit :=
  _ ← modify (set_counts no_counts);
  _ ← try_catch
    (newTxids ← pruneMempoolStore rawMempool mayDelete;
     _ ← batchLoop (length newTxids) newTxids;
     markMempoolReconverged)
    (fun _ => withdrawMempoolReadiness);
  mod_status (set_busy false).

Definition updateMempool : RM unit :=
  x ← get;
  if mempoolBusy (stat (rf_trk x)) then mret tt
  else
    _ ← mod_status (set_busy true);
    r ← settle (on_track (rpc rpc_getRawMempool));
    match r with
    | Err _ => mod_status (set_busy false)
    | Ok rawMempoolUnordered =>
        let rawMempool := insertSortedTxids [] rawMempoolUnordered in
        mayDelete ← on_track committedTipIsNodeTip;
        reconvergeMempool rawMempool mayDelete
    end.
End pass.
