(* ===== verification/Wire.v ===== *)
(** Reading wire bytes: the [Buffer] accessors the byte-level code uses, the Bitcoin
    varint of [auxpow_codec.js], and the serialization of inputs, outputs and witnesses
    the readers walk.  Offsets and counts are integers; a count past 2^53 rounds in JS,
    which changes nothing here, as no buffer reaches that far. *)

From S2P Require Import Prelude.

#[local] Open Scope string_scope.
#[local] Open Scope list_scope.
#[local] Open Scope Z_scope.

(** * Buffers *)

Definition len (buf : bytes) : Z := Z.of_nat (length buf).

(** [buf[offset]], [None] for [undefined]. *)
Definition byte_at (buf : bytes) (offset : Z) : option Z :=
  if bool_decide (0 <= offset < len buf) then Z_of_byte <$> buf !! Z.to_nat offset else None.

(** [buf.subarray(a, b)] with [0 <= a], clamped to the buffer. *)
Definition subarray (buf : bytes) (a b : Z) : bytes :=
  let a := Z.min a (len buf) in
  let b := Z.min b (len buf) in
  take (Z.to_nat (b - a)) (drop (Z.to_nat a) buf).

Definition le (n : nat) (z : Z) : bytes := rev (be n z).
Definition unle (b : bytes) : Z := unbe (rev b).

(** [buf.readUIntLE(offset, n)] at [n] = 2, 4 or 8. *)
Definition readUIntLE (n : nat) (buf : bytes) (offset : Z) : res Z :=
  if bool_decide (0 <= offset /\ offset + Z.of_nat n <= len buf)
  then Ok (unle (subarray buf offset (offset + Z.of_nat n)))
  else Err (Error ERange).

(** * Counted loops *)

(** [for (let i = 0; i < n; i++) a = f(a)], stopping at the first throw. *)
Fixpoint times_pos {A} (f : A -> res A) (p : positive) (a : A) : res A :=
  match p with
  | xH => f a
  | xO q => a ← times_pos f q a; times_pos f q a
  | xI q => a ← f a; a ← times_pos f q a; times_pos f q a
  end.

Definition times {A} (f : A -> res A) (n : Z) (a : A) : res A :=
  match n with Zpos p => times_pos f p a | _ => Ok a end.

Fixpoint reps {A} (f : A -> res A) (n : nat) (a : A) : res A :=
  match n with O => Ok a | S n => a ← f a; reps f n a end.

Lemma reps_add {A} (f : A -> res A) n m a : reps f (n + m) a = (a ← reps f n a; reps f m a).
Proof. revert a. induction n as [|n IH]; intros a; cbn [reps Nat.add]; [done|]. by destruct (f a); cbn. Qed.

Lemma times_pos_reps {A} (f : A -> res A) p a : times_pos f p a = reps f (Pos.to_nat p) a.
Proof.
  revert a. induction p as [p IH|p IH|]; intros a; cbn [times_pos].
  - rewrite Pos2Nat.inj_xI. cbn [reps]. replace (2 * Pos.to_nat p)%nat with (Pos.to_nat p + Pos.to_nat p)%nat by lia.
    destruct (f a) as [a'|]; cbn; [|done]. rewrite reps_add, IH. by destruct (reps f _ a'); cbn.
  - rewrite Pos2Nat.inj_xO. replace (2 * Pos.to_nat p)%nat with (Pos.to_nat p + Pos.to_nat p)%nat by lia.
    rewrite reps_add, IH. by destruct (reps f _ a); cbn.
  - change (Pos.to_nat 1) with 1%nat. cbn [reps]. by destruct (f a).
Qed.

Lemma times_reps {A} (f : A -> res A) n a : times f (Z.of_nat n) a = reps f n a.
Proof.
  destruct n as [|n]; [done|]. change (times f (Z.of_nat (S n)) a) with (times_pos f (Pos.of_succ_nat n) a). rewrite times_pos_reps. by rewrite SuccNat2Pos.id_succ.
Qed.

(** * The varint *)

(** Value and bytes consumed.  A missing first byte fails the last branch's read. *)
Definition readVarint (buf : bytes) (offset : Z) : res (Z * Z) :=
  match byte_at buf offset with
  | Some first =>
      if bool_decide (first < 0xFD) then Ok (first, 1)
      else if bool_decide (first = 0xFD) then v ← readUIntLE 2 buf (offset + 1); Ok (v, 3)
      else if bool_decide (first = 0xFE) then v ← readUIntLE 4 buf (offset + 1); Ok (v, 5)
      else
        lo ← readUIntLE 4 buf (offset + 1);
        hi ← readUIntLE 4 buf (offset + 5);
        Ok (hi * 0x100000000 + lo, 9)
  | None => Err (Error ERange)
  end.

(** [s.padStart(2, '0')]. *)
Definition padStart2 (s : string) : string :=
  match String.length s with
  | O => "00"
  | 1%nat => String.append "0" s
  | _ => s
  end.

Definition encodeVarintHex (value : Z) : res string :=
  if bool_decide (value < 0xFD) then Ok (padStart2 (to_radix 16 value))
  else if bool_decide (value <= 0xFFFF) then Ok (b2h (byte_of_Z 0xFD :: le 2 value))
  else if bool_decide (value <= 0xFFFFFFFF) then Ok (b2h (byte_of_Z 0xFE :: le 4 value))
  else Err (Error (EMsg "encodeVarintHex: value out of supported range")).

(** The shortest varint of a 32-bit value. *)
Definition compact (v : Z) : bytes :=
  if bool_decide (v < 0xFD) then [byte_of_Z v]
  else if bool_decide (v <= 0xFFFF) then byte_of_Z 0xFD :: le 2 v
  else byte_of_Z 0xFE :: le 4 v.

Definition fits32 (v : Z) : Prop := 0 <= v < 4294967296.

(** ** Facts *)

Lemma len_app a b : len (a ++ b) = len a + len b.
Proof. unfold len. rewrite length_app. lia. Qed.

Lemma len_cons x b : len (x :: b) = 1 + len b.
Proof. unfold len. cbn [length]. lia. Qed.

Lemma len_nil : len [] = 0.
Proof. done. Qed.

Lemma len_nonneg b : 0 <= len b.
Proof. unfold len. lia. Qed.

Lemma len_le n v : len (le n v) = Z.of_nat n.
Proof. unfold len, le. by rewrite length_rev, length_be. Qed.

Lemma unle_le n v : 0 <= v < 256 ^ Z.of_nat n -> unle (le n v) = v.
Proof. intros Hv. unfold unle, le. rewrite rev_involutive. by apply unbe_be. Qed.

Lemma byte_at_app pre x rest : byte_at (pre ++ x :: rest) (len pre) = Some (Z_of_byte x).
Proof.
  unfold byte_at. pose proof (len_nonneg rest). rewrite bool_decide_eq_true_2
    by (rewrite len_app, len_cons; unfold len in *; lia).
  unfold len. rewrite Nat2Z.id, list_lookup_middle by done. done.
Qed.

Lemma subarray_app pre b rest : subarray (pre ++ b ++ rest) (len pre) (len pre + len b) = b.
Proof.
  unfold subarray. pose proof (len_nonneg b). pose proof (len_nonneg rest).
  rewrite !len_app, !Z.min_l by lia. replace (len pre + len b - len pre) with (len b) by lia.
  unfold len. rewrite !Nat2Z.id, drop_app_length, take_app_length. done.
Qed.

Lemma readUIntLE_app n pre v rest :
  0 <= v < 256 ^ Z.of_nat n -> readUIntLE n (pre ++ le n v ++ rest) (len pre) = Ok v.
Proof.
  intros Hv. unfold readUIntLE. pose proof (len_nonneg pre). pose proof (len_nonneg rest).
  rewrite bool_decide_eq_true_2 by (rewrite !len_app, len_le; lia).
  rewrite <- (len_le n v), subarray_app. by rewrite unle_le.
Qed.

Lemma Z_of_byte_small v : 0 <= v < 256 -> Z_of_byte (byte_of_Z v) = v.
Proof. intros Hv. rewrite Z_of_byte_of_Z. by apply Z.mod_small. Qed.

Lemma readVarint_compact pre v rest :
  fits32 v -> readVarint (pre ++ compact v ++ rest) (len pre) = Ok (v, len (compact v)).
Proof.
  unfold fits32. intros Hv. unfold readVarint, compact.
  assert (Htag : forall x b, readUIntLE (length b) (pre ++ (x :: b) ++ rest) (len pre + 1)
    = readUIntLE (length b) ((pre ++ [x]) ++ b ++ rest) (len (pre ++ [x]))).
  { intros x b. rewrite len_app, <- app_assoc. done. }
  repeat case_bool_decide; cbn [app]; rewrite byte_at_app, Z_of_byte_small by lia.
  - by rewrite bool_decide_eq_true_2.
  - rewrite bool_decide_eq_false_2, bool_decide_eq_true_2 by lia.
    specialize (Htag (byte_of_Z 0xFD) (le 2 v)). assert (Hl : length (le 2 v) = 2%nat) by (pose proof (len_le 2 v); unfold len in *; lia).
    rewrite Hl in Htag. cbn [app] in Htag. rewrite Htag, readUIntLE_app by lia. by rewrite len_cons, len_le.
  - rewrite !bool_decide_eq_false_2, bool_decide_eq_true_2 by lia.
    specialize (Htag (byte_of_Z 0xFE) (le 4 v)). assert (Hl : length (le 4 v) = 4%nat) by (pose proof (len_le 4 v); unfold len in *; lia).
    rewrite Hl in Htag. cbn [app] in Htag. rewrite Htag, readUIntLE_app by lia. by rewrite len_cons, len_le.
Qed.

Lemma readVarint_at buf off pre v rest :
  buf = pre ++ compact v ++ rest -> off = len pre -> fits32 v -> readVarint buf off = Ok (v, len (compact v)).
Proof. intros -> ->. apply readVarint_compact. Qed.

Lemma padStart2_hex v : 0 <= v < 0xFD -> h2b (padStart2 (to_radix 16 v)) = [byte_of_Z v].
Proof.
  intros Hv. assert (E : forallb (fun n => bool_decide (h2b (padStart2 (to_radix 16 (Z.of_nat n))) = [byte_of_Z (Z.of_nat n)]))
    (seq 0 253) = true) by by vm_compute.
  rewrite forallb_forall in E. specialize (E (Z.to_nat v)). rewrite Z2Nat.id in E by lia.
  apply bool_decide_eq_true in E; [exact E|]. apply (proj2 (List.in_seq 253 0 (Z.to_nat v))). lia.
Qed.

(** The encoder prints the shortest varint, and refuses what does not fit 32 bits. *)
Lemma encodeVarintHex_compact v : fits32 v -> exists hex, encodeVarintHex v = Ok hex /\ h2b hex = compact v.
Proof.
  unfold fits32. intros Hv. unfold encodeVarintHex, compact. repeat case_bool_decide; try lia; eexists; (split; [done|]).
  - apply padStart2_hex. lia.
  - apply h2b_b2h.
  - apply h2b_b2h.
Qed.

(** * The serialization of transactions *)

Record wire_in := mkWireIn { wi_prevout : bytes; wi_script : bytes; wi_sequence : bytes }.
Record wire_out := mkWireOut { wo_value : bytes; wo_script : bytes }.

Definition enc_bytes (b : bytes) : bytes := compact (len b) ++ b.
Definition enc_list {A} (f : A -> bytes) (l : list A) : bytes :=
  compact (Z.of_nat (length l)) ++ concat (f <$> l).

Definition enc_in (i : wire_in) : bytes := wi_prevout i ++ enc_bytes (wi_script i) ++ wi_sequence i.
Definition enc_out (o : wire_out) : bytes := wo_value o ++ enc_bytes (wo_script o).
(** The witness of one input. *)
Definition enc_stack (items : list bytes) : bytes := enc_list enc_bytes items.

Definition wire_in_ok (i : wire_in) : Prop :=
  len (wi_prevout i) = 36 /\ fits32 (len (wi_script i)) /\ len (wi_sequence i) = 4.
Definition wire_out_ok (o : wire_out) : Prop := len (wo_value o) = 8 /\ fits32 (len (wo_script o)).
Definition stack_ok (items : list bytes) : Prop :=
  fits32 (Z.of_nat (length items)) /\ forall b, b ∈ items -> fits32 (len b).

(** ** Skipping *)

(** [f] moves past exactly the bytes [e], wherever they stand. *)
Definition spans (f : bytes -> Z -> res Z) (e : bytes) : Prop :=
  forall pre rest, f (pre ++ e ++ rest) (len pre) = Ok (len pre + len e).

Lemma spans_at f e buf off pre rest :
  spans f e -> buf = pre ++ e ++ rest -> off = len pre -> f buf off = Ok (off + len e).
Proof. intros Hf -> ->. apply Hf. Qed.

Lemma spans_times {A} (f : bytes -> Z -> res Z) (e : A -> bytes) (l : list A) :
  (forall x, x ∈ l -> spans f (e x)) ->
  spans (fun buf => times (f buf) (Z.of_nat (length l))) (concat (e <$> l)).
Proof.
  intros Hf pre rest. rewrite times_reps. induction l as [|x l IH] in pre, Hf |- *; cbn [length reps fmap list_fmap concat].
  - change (len []) with 0. by rewrite Z.add_0_r.
  - set (buf := pre ++ _ ++ rest).
    assert (E1 : f buf (len pre) = Ok (len pre + len (e x)))
      by (apply (spans_at f (e x) _ _ pre (concat (e <$> l) ++ rest)); [apply Hf; left|unfold buf; by rewrite <- app_assoc|done]).
    rewrite E1. unfold buf.
    cbn [mbind res_bind]. rewrite <- len_app.
    replace (pre ++ (e x ++ concat (e <$> l)) ++ rest) with ((pre ++ e x) ++ concat (e <$> l) ++ rest) by by rewrite <- !app_assoc.
    rewrite IH by (intros y Hy; apply Hf; by right). f_equal. rewrite !len_app. lia.
Qed.

Lemma compact_len_pos v : 1 <= len (compact v) <= 5.
Proof. unfold compact. repeat case_bool_decide; rewrite len_cons, ?len_le; rewrite ?len_nil; lia. Qed.
