(* ===== verification/AuxPow.v ===== *)
(** Merge-mined blocks ([chain/blockchain_connector/auxpow_codec.js]): skipping the AuxPoW
    section after the 80-byte header, the check that what is left is one whole block, and
    the strip that either daemon's answers go through. *)

From S2P Require Import Prelude Parsing Wire.

#[local] Open Scope string_scope.
#[local] Open Scope list_scope.
#[local] Open Scope Z_scope.

(** * The library

    What [bitcoinjs-lib] and [varuint-bitcoin] answer: a parsed block, its serialized
    size, the merkle root of a list of transactions, a parsed transaction with its
    serialized size (the flag allows bytes after it), the txid of a transaction built field by field, and a varint with
    the bytes it took. *)

Record lib_block := mkLibBlock {
  bl_version : Z; bl_prevHash : bytes; bl_merkleRoot : bytes; bl_timestamp : Z;
  bl_bits : Z; bl_nonce : Z; bl_transactions : list transaction }.

Class Bitcoinjs := {
  Block_fromBuffer : bytes -> res lib_block;
  Block_byteLength : lib_block -> Z;
  calculateMerkleRoot : list transaction -> bytes;
  Transaction_fromBuffer : bytes -> bool -> res (transaction * Z);
  Transaction_getId : Z -> list tx_in -> list tx_out -> Z -> string;
  varuint_decode : bytes -> Z -> res (Z * Z);
}.

Definition parse_error (s : string) : js_error := Error (EMsg s).

(** * The walk *)

Definition tooShort {A} : res A := Err (parse_error "AuxPoW parse: buffer too short").

(** A varint length, then that many bytes. *)
Definition skipScript (buf : bytes) (offset : Z) : res Z :=
  '(v, b) ← readVarint buf offset; Ok (offset + (b + v)).

Definition skipInput (buf : bytes) (offset : Z) : res Z :=
  if bool_decide (len buf < offset + 36) then tooShort
  else
    let offset := offset + 36 in
    offset ← skipScript buf offset;
    if bool_decide (len buf < offset + 4) then tooShort else Ok (offset + 4).

Definition skipCoinbaseInputs (buf : bytes) (start : Z) : res (Z * bool * Z) :=
  let offset := start in
  if bool_decide (len buf < offset + 4) then tooShort
  else
    let offset := offset + 4 in
    let hasSegwit := bool_decide (byte_at buf offset = Some 0) in
    let offset := if hasSegwit then offset + 2 else offset in
    '(nIns, b) ← readVarint buf offset;
    let offset := offset + b in
    offset ← times (skipInput buf) nIns offset;
    Ok (offset, hasSegwit, nIns).

Definition skipOutput (buf : bytes) (offset : Z) : res Z :=
  if bool_decide (len buf < offset + 8) then tooShort
  else skipScript buf (offset + 8).

(** The witness stack of one input. *)
Definition skipStack (buf : bytes) (offset : Z) : res Z :=
  '(stackItems, b) ← readVarint buf offset;
  times (skipScript buf) stackItems (offset + b).

Definition skipCoinbaseOutputs (buf : bytes) (start : Z) (hasSegwit : bool) (nIns : Z) : res Z :=
  let offset := start in
  '(nOuts, b) ← readVarint buf offset;
  let offset := offset + b in
  offset ← times (skipOutput buf) nOuts offset;
  offset ← (if hasSegwit then times (skipStack buf) nIns offset else Ok offset);
  if bool_decide (len buf < offset + 4) then tooShort else Ok (offset + 4).

(** A merkle branch: a count, that many hashes, a 4-byte index. *)
Definition skipBranch (buf : bytes) (offset : Z) : res Z :=
  '(v, b) ← readVarint buf offset;
  let offset := offset + b in
  if bool_decide (len buf < offset + v * 32 + 4) then tooShort else Ok (offset + (v * 32 + 4)).

Definition skipAuxPow (buf : bytes) (start : Z) : res Z :=
  '(offset, hasSegwit, nIns) ← skipCoinbaseInputs buf start;
  offset ← skipCoinbaseOutputs buf offset hasSegwit nIns;
  if bool_decide (len buf < offset + 32) then tooShort
  else
    let offset := offset + 32 in
    offset ← skipBranch buf offset;
    offset ← skipBranch buf offset;
    if bool_decide (len buf < offset + 80) then tooShort else Ok (offset + 80).

(** * The strip *)

Section strip.
Context {lib : Bitcoinjs}.

Definition assertWholeBlock (blockHex : string) : res unit :=
  let buf := h2b blockHex in
  if negb (bool_decide ((2 * length buf)%nat = String.length blockHex))
  then Err (parse_error "AuxPoW parse: stripped block is not whole hex bytes")
  else match Block_fromBuffer buf with
  | Err _ => Err (parse_error "AuxPoW parse: stripped block does not parse")
  | Ok block =>
      let txs := bl_transactions block in
      if bool_decide (length txs < 1)%nat
      then Err (parse_error "AuxPoW parse: stripped block holds no transactions")
      else if negb (bool_decide (Block_byteLength block = len buf))
      then Err (parse_error "AuxPoW parse: stripped block has bytes after its last transaction")
      else if negb (bool_decide (calculateMerkleRoot txs = bl_merkleRoot block))
      then Err (parse_error "AuxPoW parse: stripped block merkle root does not match its transactions")
      else Ok tt
  end.

(** [s.substring(a)] and [s.substring(a, b)] for [a <= b]. *)
Definition substring_from (a : nat) (s : string) : string := String.substring a (String.length s - a) s.
Definition substring (a b : nat) (s : string) : string := String.substring a (b - a) s.

(** [parseInt(s, 16)], [0] standing for [NaN], which the bit operations read as 0. *)
Definition strip0x (s : string) : string :=
  match s with
  | String.String "0" (String.String "x" r) | String.String "0" (String.String "X" r) => r
  | _ => s
  end.

Definition parseHex (s : string) : Z :=
  match trim_start s with
  | String.String "-" r => - default 0 (parse_run 16 0 false (strip0x r))
  | String.String "+" r => default 0 (parse_run 16 0 false (strip0x r))
  | r => default 0 (parse_run 16 0 false (strip0x r))
  end.

(** The four bytes of the number, swapped. *)
Definition swap32 (v : Z) : Z :=
  Z.lor (Z.lor (Z.lor (Z.shiftl (Z.land v 0xFF) 24)
                      (Z.shiftl (Z.land (Z.shiftr v 8) 0xFF) 16))
               (Z.shiftl (Z.land (Z.shiftr v 16) 0xFF) 8))
        (Z.land (Z.shiftr v 24) 0xFF).

Definition whole (stripped : string) : res string :=
  _ ← assertWholeBlock stripped; Ok stripped.

Definition stripAuxPowFromBlockHex (headerHex blockHex : string) : res string :=
  let dataToRemove := Z.of_nat (String.length headerHex) - 160 in
  if bool_decide (0 < dataToRemove) then
    whole (String.append (substring 0 160 blockHex)
                         (substring_from (160 + Z.to_nat dataToRemove) blockHex))
  else if bool_decide (8 <= String.length blockHex)%nat then
    let versionLE := parseHex (substring 0 8 blockHex) in
    let version := swap32 versionLE in
    if negb (bool_decide (Z.land version 0x100 = 0)) then
      let blockBuf := h2b blockHex in
      afterAuxPow ← skipAuxPow blockBuf 80;
      whole (String.append (substring 0 160 blockHex)
                           (substring_from (Z.to_nat (afterAuxPow * 2)) blockHex))
    else Ok blockHex
  else Ok blockHex.
End strip.

(** * The AuxPoW section as it is serialized *)

Record coinbase_tx := mkCoinbase {
  cb_version : bytes;
  cb_segwit : option (byte * list (list bytes));
  cb_ins : list wire_in;
  cb_outs : list wire_out;
  cb_locktime : bytes;
}.

Definition enc_coinbase (c : coinbase_tx) : bytes :=
  cb_version c
  ++ match cb_segwit c with Some (flag, _) => [byte_of_Z 0; flag] | None => [] end
  ++ enc_list enc_in (cb_ins c) ++ enc_list enc_out (cb_outs c)
  ++ match cb_segwit c with Some (_, stacks) => concat (enc_stack <$> stacks) | None => [] end
  ++ cb_locktime c.

(** A merkle branch: the hashes and the index. *)
Record branch := mkBranch { br_hashes : list bytes; br_index : bytes }.

Definition enc_branch (b : branch) : bytes := enc_list id (br_hashes b) ++ br_index b.

Record auxpow := mkAuxPow {
  ap_coinbase : coinbase_tx; ap_parentHash : bytes; ap_coinbaseBranch : branch;
  ap_chainBranch : branch; ap_parentHeader : bytes }.

Definition enc_auxpow (a : auxpow) : bytes :=
  enc_coinbase (ap_coinbase a) ++ ap_parentHash a ++ enc_branch (ap_coinbaseBranch a)
  ++ enc_branch (ap_chainBranch a) ++ ap_parentHeader a.

(** Field widths; counts in 32 bits; a coinbase without the segwit marker has inputs, so
    that its input count is not taken for the marker. *)
Record coinbase_ok (c : coinbase_tx) : Prop := {
  cbo_version : len (cb_version c) = 4;
  cbo_ins : forall i, i ∈ cb_ins c -> wire_in_ok i;
  cbo_nins : fits32 (Z.of_nat (length (cb_ins c)));
  cbo_outs : forall o, o ∈ cb_outs c -> wire_out_ok o;
  cbo_nouts : fits32 (Z.of_nat (length (cb_outs c)));
  cbo_locktime : len (cb_locktime c) = 4;
  cbo_segwit : match cb_segwit c with
               | Some (_, stacks) => length stacks = length (cb_ins c) /\ forall st, st ∈ stacks -> stack_ok st
               | None => cb_ins c <> []
               end;
}.

Definition branch_ok (b : branch) : Prop :=
  fits32 (Z.of_nat (length (br_hashes b))) /\ (forall h, h ∈ br_hashes b -> len h = 32) /\ len (br_index b) = 4.

Record auxpow_ok (a : auxpow) : Prop := {
  apo_coinbase : coinbase_ok (ap_coinbase a);
  apo_parentHash : len (ap_parentHash a) = 32;
  apo_coinbaseBranch : branch_ok (ap_coinbaseBranch a);
  apo_chainBranch : branch_ok (ap_chainBranch a);
  apo_parentHeader : len (ap_parentHeader a) = 80;
}.

(** * The walk spans the section *)

Lemma not_short buf n : n <= len buf -> bool_decide (len buf < n) = false.
Proof. intros Hn. apply bool_decide_eq_false_2. lia. Qed.

(** Lengths of concatenations. *)
Ltac lens :=
  rewrite ?len_app, ?len_cons, ?len_nil in *;
  repeat match goal with
  | |- context [len ?b] => lazymatch goal with H : 0 <= len b |- _ => fail | _ => pose proof (len_nonneg b) end
  end; lia.

(** Two ways of bracketing the same bytes. *)
Ltac reassoc := rewrite <- ?app_assoc; cbn [app]; reflexivity.

Lemma spans_skipScript b : fits32 (len b) -> spans skipScript (enc_bytes b).
Proof.
  intros Hb pre rest. unfold skipScript, enc_bytes.
  rewrite (readVarint_at _ _ pre (len b) (b ++ rest)) by (done || reassoc). cbn [mbind res_bind]. f_equal. lens.
Qed.

Lemma spans_skipInput i : wire_in_ok i -> spans skipInput (enc_in i).
Proof.
  intros (Hp & Hs & Hq) pre rest. unfold skipInput, enc_in. rewrite not_short by lens.
  rewrite (spans_at _ _ _ _ (pre ++ wi_prevout i) (wi_sequence i ++ rest) (spans_skipScript _ Hs)) by (reassoc || lens).
  cbn [mbind res_bind]. rewrite not_short by lens. f_equal. lens.
Qed.

Lemma spans_skipOutput o : wire_out_ok o -> spans skipOutput (enc_out o).
Proof.
  intros (Hv & Hs) pre rest. unfold skipOutput, enc_out. rewrite not_short by lens.
  rewrite (spans_at _ _ _ _ (pre ++ wo_value o) rest (spans_skipScript _ Hs)) by (reassoc || lens). f_equal. lens.
Qed.

(** A counted list, whose reader reads the count and loops. *)
Lemma spans_list {A} (f : bytes -> Z -> res Z) (e : A -> bytes) (l : list A) :
  fits32 (Z.of_nat (length l)) -> (forall x, x ∈ l -> spans f (e x)) ->
  spans (fun buf offset => '(n, b) ← readVarint buf offset; times (f buf) n (offset + b)) (enc_list e l).
Proof.
  intros Hl Hf pre rest. unfold enc_list.
  rewrite (readVarint_at _ _ pre (Z.of_nat (length l)) (concat (e <$> l) ++ rest)) by (done || reassoc). cbn [mbind res_bind].
  rewrite (spans_at _ _ _ _ (pre ++ compact (Z.of_nat (length l))) rest (spans_times f e l Hf)) by (reassoc || lens).
  f_equal. lens.
Qed.

Lemma spans_skipStack st : stack_ok st -> spans skipStack (enc_stack st).
Proof. intros [Hn Hb]. apply (spans_list skipScript enc_bytes st Hn). intros b Hin. by apply spans_skipScript, Hb. Qed.

Lemma len_concat_32 (l : list bytes) : (forall h, h ∈ l -> len h = 32) -> len (concat l) = 32 * Z.of_nat (length l).
Proof.
  induction l as [|h l IH]; intros Hl; [done|]. cbn [concat length]. rewrite len_app, (Hl h ltac:(left)), IH; [lia|].
  intros x Hx. apply Hl. by right.
Qed.

Lemma spans_skipBranch b : branch_ok b -> spans skipBranch (enc_branch b).
Proof.
  intros (Hn & Hh & Hi) pre rest. unfold skipBranch, enc_branch, enc_list.
  rewrite list_fmap_id. pose proof (len_concat_32 _ Hh) as Hc.
  rewrite (readVarint_at _ _ pre (Z.of_nat (length (br_hashes b))) (concat (br_hashes b) ++ br_index b ++ rest)) by (done || reassoc).
  cbn [mbind res_bind]. rewrite not_short by lens. f_equal. lens.
Qed.

(** The inputs part of a coinbase, and the rest of it. *)
Definition cb_head (c : coinbase_tx) : bytes :=
  cb_version c ++ match cb_segwit c with Some (flag, _) => [byte_of_Z 0; flag] | None => [] end
  ++ enc_list enc_in (cb_ins c).

Definition cb_tail (c : coinbase_tx) : bytes :=
  enc_list enc_out (cb_outs c)
  ++ match cb_segwit c with Some (_, stacks) => concat (enc_stack <$> stacks) | None => [] end
  ++ cb_locktime c.

Lemma enc_coinbase_split c : enc_coinbase c = cb_head c ++ cb_tail c.
Proof. unfold enc_coinbase, cb_head, cb_tail. by rewrite <- !app_assoc. Qed.

(** The count of a nonempty list is not the marker. *)
Lemma compact_head_nonzero v : 0 < v -> fits32 v -> exists x r, compact v = x :: r /\ Z_of_byte x <> 0.
Proof.
  unfold fits32. intros Hp Hv. unfold compact. repeat case_bool_decide; do 2 eexists; (split; [reflexivity|]);
    rewrite Z_of_byte_small by lia; lia.
Qed.

Lemma run_skipCoinbaseInputs c pre rest :
  coinbase_ok c ->
  skipCoinbaseInputs (pre ++ cb_head c ++ rest) (len pre)
  = Ok (len pre + len (cb_head c), bool_decide (is_Some (cb_segwit c)), Z.of_nat (length (cb_ins c))).
Proof.
  intros [Hv Hi Hn _ _ _ Hs]. unfold skipCoinbaseInputs, cb_head.
  set (l := cb_ins c) in *. set (buf := pre ++ _ ++ rest).
  rewrite not_short by (unfold buf; lens). set (marker := match cb_segwit c with Some _ => _ | None => [] end) in *.
  assert (Hm : bool_decide (byte_at buf (len pre + 4) = Some 0) = bool_decide (is_Some (cb_segwit c))).
  { unfold buf, marker. replace (len pre + 4) with (len (pre ++ cb_version c)) by lens.
    destruct (cb_segwit c) as [[flag stacks]|].
    - match goal with |- context [byte_at ?b _] =>
        replace b with ((pre ++ cb_version c) ++ byte_of_Z 0 :: flag :: enc_list enc_in l ++ rest) by reassoc end.
      rewrite byte_at_app, Z_of_byte_small by lia. done.
    - destruct (compact_head_nonzero (Z.of_nat (length l))) as (x & r & E & Hx); [destruct l; [done|cbn; lia]|done|].
      unfold enc_list. rewrite E. match goal with |- context [byte_at ?b _] =>
        replace b with ((pre ++ cb_version c) ++ x :: r ++ concat (enc_in <$> l) ++ rest) by reassoc end.
      rewrite byte_at_app. apply bool_decide_ext. split; [intros [= ?]; lia|by intros []]. }
  rewrite Hm. unfold buf. unfold enc_list.
  assert (Hoff : (if bool_decide (is_Some (cb_segwit c)) then len pre + 4 + 2 else len pre + 4)
    = len (pre ++ cb_version c ++ marker)) by (unfold marker; destruct (cb_segwit c) as [[]|]; [rewrite bool_decide_eq_true_2 by done|rewrite bool_decide_eq_false_2 by (by intros [])]; lens).
  rewrite Hoff.
  rewrite (readVarint_at _ _ (pre ++ cb_version c ++ marker) (Z.of_nat (length l)) (concat (enc_in <$> l) ++ rest)) by (done || reassoc).
  cbn [mbind res_bind].
  rewrite (spans_at _ _ _ _ (pre ++ cb_version c ++ marker ++ compact (Z.of_nat (length l))) rest
    (spans_times skipInput enc_in l (fun i Hin => spans_skipInput i (Hi i Hin)))) by (reassoc || lens).
  cbn [mbind res_bind]. f_equal. f_equal. f_equal. lens.
Qed.

Lemma run_skipCoinbaseOutputs c pre rest :
  coinbase_ok c ->
  skipCoinbaseOutputs (pre ++ cb_tail c ++ rest) (len pre) (bool_decide (is_Some (cb_segwit c))) (Z.of_nat (length (cb_ins c)))
  = Ok (len pre + len (cb_tail c)).
Proof.
  intros [_ _ _ Ho Hn Hl Hs]. unfold skipCoinbaseOutputs, cb_tail, enc_list. set (outs := cb_outs c) in *.
  rewrite (readVarint_at _ _ pre (Z.of_nat (length outs)) (concat (enc_out <$> outs)
    ++ (match cb_segwit c with Some (_, stacks) => concat (enc_stack <$> stacks) | None => [] end ++ cb_locktime c) ++ rest))
    by (done || reassoc).
  cbn [mbind res_bind].
  rewrite (spans_at _ _ _ _ (pre ++ compact (Z.of_nat (length outs)))
    ((match cb_segwit c with Some (_, stacks) => concat (enc_stack <$> stacks) | None => [] end ++ cb_locktime c) ++ rest)
    (spans_times skipOutput enc_out outs (fun o Hin => spans_skipOutput o (Ho o Hin)))) by (reassoc || lens).
  cbn [mbind res_bind]. destruct (cb_segwit c) as [[flag stacks]|].
  - rewrite bool_decide_eq_true_2 by done. destruct Hs as [Hlen Hst]. rewrite <- Hlen.
    rewrite (spans_at _ _ _ _ (pre ++ compact (Z.of_nat (length outs)) ++ concat (enc_out <$> outs)) (cb_locktime c ++ rest)
      (spans_times skipStack enc_stack stacks (fun st Hin => spans_skipStack st (Hst st Hin)))) by (reassoc || lens).
    cbn [mbind res_bind]. rewrite not_short by lens. f_equal. lens.
  - rewrite bool_decide_eq_false_2 by by intros []. cbn [mbind res_bind]. rewrite not_short by lens. f_equal. lens.
Qed.

Lemma spans_skipAuxPow a : auxpow_ok a -> spans skipAuxPow (enc_auxpow a).
Proof.
  intros [Hc Hp Hb1 Hb2 Hh] pre rest. unfold skipAuxPow, enc_auxpow. rewrite enc_coinbase_split.
  set (c := ap_coinbase a) in *. set (mid := ap_parentHash a ++ enc_branch (ap_coinbaseBranch a) ++ enc_branch (ap_chainBranch a) ++ ap_parentHeader a).
  replace (pre ++ ((cb_head c ++ cb_tail c) ++ mid) ++ rest) with (pre ++ cb_head c ++ (cb_tail c ++ mid ++ rest)) at 1 by reassoc.
  rewrite run_skipCoinbaseInputs by done. cbn [mbind res_bind].
  replace (pre ++ ((cb_head c ++ cb_tail c) ++ mid) ++ rest) with ((pre ++ cb_head c) ++ cb_tail c ++ (mid ++ rest)) at 1 by reassoc.
  rewrite <- len_app, run_skipCoinbaseOutputs by done. cbn [mbind res_bind]. unfold mid. rewrite not_short by lens.
  rewrite (spans_at _ _ _ _ (pre ++ cb_head c ++ cb_tail c ++ ap_parentHash a)
    (enc_branch (ap_chainBranch a) ++ ap_parentHeader a ++ rest) (spans_skipBranch _ Hb1)) by (reassoc || lens).
  cbn [mbind res_bind].
  rewrite (spans_at _ _ _ _ (pre ++ cb_head c ++ cb_tail c ++ ap_parentHash a ++ enc_branch (ap_coinbaseBranch a))
    (ap_parentHeader a ++ rest) (spans_skipBranch _ Hb2)) by (reassoc || lens).
  cbn [mbind res_bind]. rewrite not_short by lens. f_equal. lens.
Qed.
