(* ===== verification/Decoder.v ===== *)
(** [XChainBlockDecoder] ([chain/XChainBlockDecoder.js]): the reader of Litecoin's
    MWEB-flagged transactions, the checks a parsed block body is held to, and the two
    entry points.  Everything else is [bitcoinjs-lib]'s, a class. *)

From S2P Require Import Prelude Parsing Wire AuxPow ChainParams.

#[local] Open Scope string_scope.
#[local] Open Scope list_scope.
#[local] Open Scope Z_scope.

Definition LITECOIN_HOGEX_FLAG : Z := 0x08.
Definition LITECOIN_MWEB_SEGWIT_FLAG : Z := 0x09.
Definition MAX_SAFE_INTEGER : Z := 9007199254740991.

(** An error of this class, by its [code]. *)
Definition TransactionParseError : js_error := Error (EMsg "ERR_TRANSACTION_PARSE").

(** A cause of the class is handed on, any other is wrapped in it. *)
Definition transactionParseError {A} (m : res A) : res A :=
  match m with Ok a => Ok a | Err _ => Err TransactionParseError end.

(** * Skipping, with bounds *)

Definition mwebShortError : js_error := parse_error "MWEB tx parse: buffer too short".

Definition skipMwebBytes (buf : bytes) (count : Z) (offset : Z) : res Z :=
  if bool_decide (len buf - offset < count) then Err mwebShortError else Ok (offset + count).

(** Value and end. *)
Definition readMwebCompactSize (buf : bytes) (offset : Z) : res (Z * Z) :=
  if bool_decide (len buf <= offset) then Err mwebShortError
  else
    let first := default 0 (byte_at buf offset) in
    if bool_decide (first < 0xFD) then Ok (first, offset + 1)
    else
      let width : nat := if bool_decide (first = 0xFD) then 2%nat else if bool_decide (first = 0xFE) then 4%nat else 8%nat in
      fin ← skipMwebBytes buf (Z.of_nat width) (offset + 1);
      value ← readUIntLE width buf (offset + 1);
      if bool_decide (width = 8%nat) && bool_decide (MAX_SAFE_INTEGER < value)
      then Err TransactionParseError
      else Ok (value, fin).

Definition skipMwebVarBytes (buf : bytes) (offset : Z) : res Z :=
  '(value, fin) ← readMwebCompactSize buf offset; skipMwebBytes buf value fin.

Definition skipMwebIn (buf : bytes) (offset : Z) : res Z :=
  offset ← skipMwebBytes buf 36 offset;
  offset ← skipMwebVarBytes buf offset;
  skipMwebBytes buf 4 offset.

Definition skipMwebOut (buf : bytes) (offset : Z) : res Z :=
  offset ← skipMwebBytes buf 8 offset;
  skipMwebVarBytes buf offset.

(** Where the outputs end, where they start, and the number of inputs. *)
Definition skipMwebInsAndOuts (buf : bytes) (offset : Z) : res (Z * Z * Z) :=
  '(nIns, offset) ← readMwebCompactSize buf offset;
  offset ← times (skipMwebIn buf) nIns offset;
  let outsStart := offset in
  '(nOuts, offset) ← readMwebCompactSize buf offset;
  offset ← times (skipMwebOut buf) nOuts offset;
  Ok (offset, outsStart, nIns).

Definition skipMwebStack (buf : bytes) (offset : Z) : res Z :=
  '(items, offset) ← readMwebCompactSize buf offset;
  times (skipMwebVarBytes buf) items offset.

Definition skipMwebWitness (buf : bytes) (offset : Z) (nIns : Z) : res Z :=
  times (skipMwebStack buf) nIns offset.

(** * Flagged transactions *)

Definition hasMwebFlag (buf : bytes) (offset : Z) : bool :=
  if bool_decide (len buf - offset < 6) then false
  else
    match readUIntLE 4 buf offset, byte_at buf (offset + 4), byte_at buf (offset + 5) with
    | Ok version, Some marker, Some flag =>
        (bool_decide (version = 1) || bool_decide (version = 2)) && bool_decide (marker = 0)
        && (bool_decide (flag = LITECOIN_HOGEX_FLAG) || bool_decide (flag = LITECOIN_MWEB_SEGWIT_FLAG))
    | _, _, _ => false
    end.

(** [buf.readInt32LE(offset)]. *)
Definition readInt32LE (buf : bytes) (offset : Z) : res Z :=
  v ← readUIntLE 4 buf offset; Ok (if bool_decide (v < 2147483648) then v else v - 4294967296).

Section decoder.
Context {lib : Bitcoinjs}.

(** One output, appended to those before it. *)
Definition readOut (buf : bytes) (x : Z * list tx_out) : res (Z * list tx_out) :=
  let '(offset, outs) := x in
  value ← readUIntLE 8 buf offset;
  '(size, fin) ← readMwebCompactSize buf (offset + 8);
  let offset := fin + size in
  Ok (offset, outs ++ [mkTxOut (subarray buf fin offset) value]).

Definition buildInputlessTransaction (buf : bytes) (start outsStart lockTimeAt : Z) : res transaction :=
  version ← readInt32LE buf start;
  '(nOuts, offset) ← readMwebCompactSize buf outsStart;
  '(_, outs) ← times (readOut buf) nOuts (offset, []);
  locktime ← readUIntLE 4 buf lockTimeAt;
  Ok (mkTx (Transaction_getId version [] outs locktime) [] outs).

(** From the MWEB tag on: where the locktime is, and the transaction. *)
Definition readFromTag (buf : bytes) (start : Z) (standalone withWitness : bool) (outsStart nIns witnessEnd : Z)
    : res (transaction * Z) :=
  lockTimeAt ← skipMwebBytes buf 1 witnessEnd;
  lockTimeAt ← (if negb (bool_decide (byte_at buf witnessEnd = Some 0)) then
                  if negb standalone
                  then Err (parse_error "MWEB tx parse: a non-null MWEB part inside a block has no recorded length")
                  else if bool_decide (len buf - 4 < lockTimeAt) then Err mwebShortError
                  else Ok (len buf - 4)
                else Ok lockTimeAt);
  fin ← skipMwebBytes buf 4 lockTimeAt;
  if bool_decide (nIns = 0) then
    tx ← buildInputlessTransaction buf start outsStart lockTimeAt;
    Ok (tx, fin - start)
  else
    let plain := subarray buf start (start + 4)
      ++ (if withWitness then [byte_of_Z 0; byte_of_Z 1] else [])
      ++ subarray buf (start + 6) witnessEnd
      ++ subarray buf lockTimeAt fin in
    '(tx, _) ← Transaction_fromBuffer plain false;
    Ok (tx, fin - start).

(** The transaction without its MWEB part, and the bytes it took. *)
Definition readMwebFlaggedTransaction (buf : bytes) (start : Z) (standalone : bool) : res (transaction * Z) :=
  let withWitness := Z.odd (default 0 (byte_at buf (start + 5))) in
  '(insOutsEnd, outsStart, nIns) ← skipMwebInsAndOuts buf (start + 6);
  witnessEnd ← (if withWitness then skipMwebWitness buf insOutsEnd nIns else Ok insOutsEnd);
  readFromTag buf start standalone withWitness outsStart nIns witnessEnd.

(** * Blocks *)

Definition assertBlockBodyIntact (block : lib_block) (bufferLength bodyEnd : Z) (extensionFollows : bool) : res unit :=
  let txs := bl_transactions block in
  if bool_decide (length txs < 1)%nat then Err (parse_error "Block holds no transactions")
  else if negb (bool_decide (bodyEnd = bufferLength)) && negb extensionFollows
  then Err (parse_error "Block has bytes after its last transaction")
  else if negb (bool_decide (calculateMerkleRoot txs = bl_merkleRoot block))
  then Err (parse_error "Block merkle root mismatch")
  else Ok tt.

(** [readSlice] of [bufferutils.js]. *)
Definition readSlice (buf : bytes) (offset n : Z) : res bytes :=
  if bool_decide (len buf < offset + n) then Err (parse_error "Cannot read slice out of bounds")
  else Ok (subarray buf offset (offset + n)).

(** The header, read field by field; the reader stands at 80 after it. *)
Definition readMwebBlockHeader (buffer : bytes) : res lib_block :=
  if bool_decide (len buffer < 80) then Err (parse_error "Buffer too small (< 80 bytes)")
  else
    version ← readInt32LE buffer 0;
    prevHash ← readSlice buffer 4 32;
    merkleRoot ← readSlice buffer 36 32;
    timestamp ← readUIntLE 4 buffer 68;
    bits ← readUIntLE 4 buffer 72;
    nonce ← readUIntLE 4 buffer 76;
    Ok (mkLibBlock version prevHash merkleRoot timestamp bits nonce []).

Definition readMwebTransaction (buf : bytes) (offset : Z) : res (transaction * Z) :=
  '(tx, byteLength) ← Transaction_fromBuffer (subarray buf offset (len buf)) true;
  Ok (tx, offset + byteLength).

(** [nTransactions > remainingBytes / 10]. *)
Definition validateMwebTransactionCount (buf : bytes) (offset nTransactions : Z) : res unit :=
  if bool_decide (len buf - offset < nTransactions * 10)
  then Err (parse_error "invalid transaction count") else Ok tt.

(** The [n] transactions still to read; the transactions, where they end, and whether the
    last one carried the flag. *)
Fixpoint readMwebTransactions (buf : bytes) (n : nat) (offset : Z) (txs : list transaction)
    : res (list transaction * Z * bool) :=
  match n with
  | O => Ok (txs, offset, false)
  | S m =>
      if bool_decide (m = O) && hasMwebFlag buf offset then
        '(tx, consumed) ← readMwebFlaggedTransaction buf offset false;
        Ok (txs ++ [tx], offset + consumed, true)
      else
        '(tx, offset) ← readMwebTransaction buf offset;
        readMwebTransactions buf m offset (txs ++ [tx])
  end.

Definition with_transactions (b : lib_block) (txs : list transaction) : lib_block :=
  mkLibBlock (bl_version b) (bl_prevHash b) (bl_merkleRoot b) (bl_timestamp b) (bl_bits b) (bl_nonce b) txs.

Definition mwebBlockFromBuffer (buffer : bytes) : res lib_block :=
  block ← readMwebBlockHeader buffer;
  if bool_decide (len buffer = 80) then Ok block
  else
    '(txs, bodyEnd, extensionFollows) ← transactionParseError (
      '(nTransactions, b) ← varuint_decode buffer 80;
      let offset := 80 + b in
      _ ← validateMwebTransactionCount buffer offset nTransactions;
      readMwebTransactions buffer (Z.to_nat nTransactions) offset []);
    let block := with_transactions block txs in
    _ ← assertBlockBodyIntact block (len buffer) bodyEnd extensionFollows;
    Ok block.

Definition plainBlockFromBuffer (buffer : bytes) : res lib_block :=
  plainBlock ← transactionParseError (Block_fromBuffer buffer);
  if bool_decide (len buffer = 80) then Ok plainBlock
  else
    _ ← assertBlockBodyIntact plainBlock (len buffer) (Block_byteLength plainBlock) false;
    Ok plainBlock.

Definition blockFromBuffer (wireFormat : string) (buffer : bytes) : res lib_block :=
  if bool_decide (wireFormat = "mweb") then mwebBlockFromBuffer buffer else plainBlockFromBuffer buffer.

Definition blockFromHex (wireFormat blockHex : string) : res lib_block := blockFromBuffer wireFormat (h2b blockHex).

(** [/^[0-9a-fA-F]+$/] and an even length. *)
Fixpoint allHexDigits (s : string) : bool :=
  match s with
  | String.EmptyString => true
  | String.String c r => bool_decide (is_Some (nib c)) && allHexDigits r
  end.

Definition txFromHex (wireFormat hexString : string) : res transaction :=
  transactionParseError (
    if bool_decide (hexString = "") || Nat.odd (String.length hexString) || negb (allHexDigits hexString)
    then Err TransactionParseError
    else
      let buffer := h2b hexString in
      if bool_decide (wireFormat = "mweb") && hasMwebFlag buffer 0 then
        '(tx, consumed) ← readMwebFlaggedTransaction buffer 0 true;
        if negb (bool_decide (consumed = len buffer)) then Err TransactionParseError else Ok tx
      else
        '(tx, byteLength) ← Transaction_fromBuffer buffer true;
        if negb (bool_decide (byteLength = len buffer)) then Err TransactionParseError else Ok tx).
End decoder.

(** * The decoder of a network

    [WIRE_FORMAT] of the registry: what each coin file declares. *)

Definition WIRE_FORMAT (tick : string) : option string :=
  if bool_decide (tick = "BTC") then Some "default"
  else if bool_decide (tick = "LTC") then Some "mweb"
  else if bool_decide (tick = "DOGE") then Some "auxpow"
  else None.

Definition HANDLED_WIRE_FORMATS : list string := ["default"; "mweb"; "auxpow"].

(** [networkName.split("-")[0]]. *)
Fixpoint before_dash (s : string) : string :=
  match s with
  | String.EmptyString => String.EmptyString
  | String.String c r => if bool_decide (c = "-"%char) then String.EmptyString else String.String c (before_dash r)
  end.

(** [new XChainBlockDecoder(networkName)]: its wire format. *)
Definition newDecoder (networkName : string) : res string :=
  match tick ← FULL_NAME_TO_TICK (before_dash networkName); WIRE_FORMAT tick with
  | Some wireFormat =>
      if bool_decide (wireFormat ∈ HANDLED_WIRE_FORMATS) then Ok wireFormat
      else Err (parse_error "XChainBlockDecoder: no block/tx wire-format contract declared")
  | None => Err (parse_error "XChainBlockDecoder: no block/tx wire-format contract declared")
  end.
