(* ===== verification/Connector.v ===== *)
(** The node connector ([chain/blockchain_connector.js] with its parts
    [transport_and_mempool.js], [block_queries.js], [batch_fetch.js] and
    [rpc_helpers.js]) and the txindex probe ([chain/txindex_check.js]): one POST path with
    endpoint failover, retries on timeouts, batches matched by id, and the fetches built
    on them. *)

From S2P Require Import Prelude KeyCodec LevelDb Store Json Parsing Wire AuxPow ChainParams Decoder.

#[local] Open Scope string_scope.
#[local] Open Scope nat_scope.
#[local] Open Scope list_scope.

(** * Requests and answers *)

(** A JSON-RPC call: method, parameters (none where the code gives none), id. *)
Record call := mkCall { c_method : string; c_params : list json; c_id : Z }.

Inductive request := One (c : call) | Many (l : list call).

(** The HTTP client resolves with a status and a body, or rejects with an error: its code
    and the body of the response, if one came. *)
Inductive answer := Replied (status : Z) (data : json) | Failed (code : option string) (body : option json).

(** The servers behind the endpoints, and the clock, by the requests made before. *)
Class RpcServers := {
  client_post : nat -> string -> request -> answer;
  rpc_now : nat -> Z;
}.

(** * Reading an answer *)

Fixpoint last_member (l : list (string * json)) (name : string) : option json :=
  match l with
  | [] => None
  | (k, v) :: l =>
      match last_member l name with
      | Some w => Some w
      | None => if bool_decide (k = name) then Some v else None
      end
  end.

(** [v?.name], [None] for [undefined]. *)
Definition member_of (v : option json) (name : string) : option json :=
  match v with Some (JObj l) => last_member l name | _ => None end.

(** [v.name], for a [v] that is there: a TypeError on [null]. *)
Definition member (v : json) (name : string) : res (option json) :=
  match v with JNull => Err type_error | _ => Ok (member_of (Some v) name) end.

Definition truthy (v : option json) : bool :=
  match v with
  | None | Some JNull | Some (JBool false) => false
  | Some (JInt z) => negb (bool_decide (z = 0%Z))
  | Some (JStr s) => negb (bool_decide (s = ""))
  | Some _ => true
  end.

Definition as_int (v : option json) : option Z := match v with Some (JInt z) => Some z | _ => None end.

(** The number at [data.error.code]. *)
Definition error_code_in (data : json) : option Z := as_int (member_of (member_of (Some data) "error") "code").

(** ** What the handlers read of an error *)

Definition err_code (e : js_error) : option string := match e_kind e with ERpc code _ => code | _ => None end.
Definition err_response (e : js_error) : option (option Z) := match e_kind e with ERpc _ r => r | _ => None end.
Definition err_rpcCode (e : js_error) : option Z := match err_response e with Some r => r | None => None end.

Definition timed_out (e : js_error) : bool := bool_decide (err_code e = Some "ECONNABORTED").

(** Of a response only the status is left; credentials are not part of the model. *)
Definition sanitizeRpcError (e : js_error) : js_error :=
  match e_kind e with
  | ERpc code (Some _) =>
      mkError (ERpc code (Some None)) (e_unrecoverableReorg e) (e_tipBelowCommittedTip e) (e_auxPowParseFailure e)
  | _ => e
  end.

Definition rpc_failure (s : string) : js_error := Error (EMsg s).

(** * The connector *)

Record connector := mkConnector {
  endpoints : list string;
  activeEndpointIndex : nat;
  connectionFailures : Z;
  failoverThreshold : Z;
  startedAt : Z;
  lastNodeOkAt : Z;
  lastNodeFailAt : Z;
  posts : nat;
}.

Abbreviation CM := (M connector).

(** [get url()]. *)
Definition url (c : connector) : string := default "" (endpoints c !! activeEndpointIndex c).

(** [x.split(',')]. *)
Fixpoint split_comma (s : string) : list string :=
  match s with
  | String.EmptyString => [""]
  | String.String a r =>
      if bool_decide (a = ","%char) then "" :: split_comma r
      else match split_comma r with [] => [String.String a ""] | w :: ws => String.String a w :: ws end
  end.

(** The longest prefix of characters [p] accepts, and the rest. *)
Fixpoint span_chars (p : Ascii.ascii -> bool) (s : string) : string * string :=
  match s with
  | String.String a r => if p a then let '(u, v) := span_chars p r in (String.String a u, v) else ("", s)
  | String.EmptyString => ("", "")
  end.

Fixpoint strip_prefix (pre s : string) : option string :=
  match pre, s with
  | String.EmptyString, _ => Some s
  | String.String a pre, String.String b s => if bool_decide (a = b) then strip_prefix pre s else None
  | _, _ => None
  end.

Definition is_digit (a : Ascii.ascii) : bool := bool_decide (is_Some (digit_val 10 a)).

(** [/^(https?:\/\/)?([^:/]+)(?::(\d+))?$/] on the trimmed entry. *)
Definition normalizeEndpoint (entry defaultPort : string) : res string :=
  let s := trim entry in
  let '(protocol, rest) :=
    match strip_prefix "https://" s with
    | Some r => ("https://", r)
    | None => match strip_prefix "http://" s with Some r => ("http://", r) | None => ("http://", s) end
    end in
  let '(host, rest) := span_chars (fun a => negb (bool_decide (a = ":"%char \/ a = "/"%char))) rest in
  let at_port p := Ok (String.append protocol (String.append host (String.append ":" p))) in
  let invalid := Err (rpc_failure "BlockchainConnector: invalid RPC endpoint") in
  if bool_decide (host = "") then invalid
  else match rest with
       | String.EmptyString => at_port defaultPort
       | String.String ":" r =>
           let '(port, rest) := span_chars is_digit r in
           if bool_decide (port = "") || negb (bool_decide (rest = "")) then invalid else at_port port
       | _ => invalid
       end.

Definition newConnector `{Environment} (nodeUrl port : string) (now : Z) : res connector :=
  first ← normalizeEndpoint nodeUrl port;
  let fallbacks := filter (fun s => s <> "") (trim <$> split_comma (default "" (process_env "NODE_URL_FALLBACK"))) in
  rest ← mapM (fun s => normalizeEndpoint s port) fallbacks;
  Ok (mkConnector (first :: rest) 0 0 (envInt "NODE_FAILOVER_THRESHOLD" 3 1) now 0 0 0).

(** ** Reachability *)

(** An outage: when it began, the last success, its age in seconds. *)
Record outage := mkOutage { og_since : Z; og_last_ok_at : option Z; og_seconds : Z }.

Record reachability := mkReach { node_last_ok_at : option Z; node_unreachable : option outage }.

Definition nodeReachabilityFrom (startedAt lastNodeOkAt lastNodeFailAt now : Z) : reachability :=
  let lastOk := if bool_decide (0 < lastNodeOkAt)%Z then Some lastNodeOkAt else None in
  let failing := bool_decide (0 < lastNodeFailAt)%Z
                 && (bool_decide (lastNodeOkAt = 0%Z) || bool_decide (lastNodeOkAt < lastNodeFailAt)%Z) in
  if negb failing then mkReach lastOk None
  else
    let sinceMs := if bool_decide (0 < lastNodeOkAt)%Z then lastNodeOkAt else startedAt in
    mkReach lastOk (Some (mkOutage sinceMs lastOk (Z.max 0 ((now - sinceMs) / 1000)))).

Definition nodeReachability (now : Z) (c : connector) : reachability :=
  nodeReachabilityFrom (startedAt c) (lastNodeOkAt c) (lastNodeFailAt c) now.

Section rpc.
Context {servers : RpcServers}.

(** * The POST path *)

Definition CONNECTION_ERROR_CODES : list string :=
  ["ECONNREFUSED"; "ECONNRESET"; "ECONNABORTED"; "ENOTFOUND"; "EHOSTUNREACH"; "ENETUNREACH"; "ETIMEDOUT"; "EAI_AGAIN"; "EPIPE"].

Definition noteConnectionFailure (c : connector) : connector :=
  if bool_decide (length (endpoints c) < 2) then c
  else
    let failures := (connectionFailures c + 1)%Z in
    if bool_decide (failoverThreshold c <= failures)%Z then
      mkConnector (endpoints c) ((activeEndpointIndex c + 1) mod length (endpoints c)) 0 (failoverThreshold c)
        (startedAt c) (lastNodeOkAt c) (lastNodeFailAt c) (posts c)
    else
      mkConnector (endpoints c) (activeEndpointIndex c) failures (failoverThreshold c)
        (startedAt c) (lastNodeOkAt c) (lastNodeFailAt c) (posts c).

Definition set_failures (n : Z) (c : connector) : connector :=
  mkConnector (endpoints c) (activeEndpointIndex c) n (failoverThreshold c)
    (startedAt c) (lastNodeOkAt c) (lastNodeFailAt c) (posts c).

(** The request went out, and its outcome was noted at the time. *)
Definition answered (now : Z) (c : connector) : connector :=
  mkConnector (endpoints c) (activeEndpointIndex c) (connectionFailures c) (failoverThreshold c)
    (startedAt c) now (lastNodeFailAt c) (S (posts c)).
Definition unanswered (now : Z) (c : connector) : connector :=
  mkConnector (endpoints c) (activeEndpointIndex c) (connectionFailures c) (failoverThreshold c)
    (startedAt c) (lastNodeOkAt c) now (S (posts c)).

Definition rpcPost (data : request) : CM (Z * json) := fun c =>
  let now := rpc_now (posts c) in
  match client_post (posts c) (url c) data with
  | Replied status body => (Ok (status, body), answered now (set_failures 0 c))
  | Failed code body =>
      let c := unanswered now c in
      (Err (Error (ERpc code (error_code_in <$> body))),
       match body, code with
       | Some _, _ => set_failures 0 c
       | None, Some k => if bool_decide (k ∈ CONNECTION_ERROR_CODES) then noteConnectionFailure c else c
       | None, None => c
       end)
  end.

(** [tries] attempts that end on the first answer or the first fault that is no timeout. *)
Fixpoint retry_timeouts {A} (tries : nat) (attempt : CM A) (exhausted : js_error) : CM A :=
  match tries with
  | O => throw exhausted
  | S n => try_catch attempt (fun e => if timed_out e then retry_timeouts n attempt exhausted else throw (sanitizeRpcError e))
  end.

Definition postWithRetry (data : request) : CM (Z * json) :=
  retry_timeouts 10 (rpcPost data) (rpc_failure "There were problems with a batch RPC call after retries. ").

(** [if (response.data.result) return response.data.result; else throw]. *)
Definition result_of (data : json) (missing : string) : res json :=
  result ← member data "result";
  if truthy result then Ok (default JNull result) else Err (rpc_failure missing).

(** * Single calls *)

Definition sanitized {A} (m : CM A) : CM A := try_catch m (fun e => throw (sanitizeRpcError e)).

Definition getBlockchainInfo : CM json :=
  '(_, data) ← sanitized (rpcPost (One (mkCall "getblockchaininfo" [] 1)));
  lift_res (result_of data "Error getting blockchain info").

Definition getBlockHash (blockindex : Z) : CM json :=
  sanitized (
    '(_, data) ← rpcPost (One (mkCall "getblockhash" [JInt blockindex] 1));
    lift_res (result_of data "Error getting block hash")).

Definition getRawMempool : CM json :=
  sanitized (
    '(_, data) ← rpcPost (One (mkCall "getrawmempool" [] 1));
    lift_res (result_of data "Error getting raw mempool info")).

(** [getBlockHeader(blockhash)], its hex form. *)
Definition getBlockHeader (blockhash : json) : CM json :=
  retry_timeouts 10
    ('(_, data) ← rpcPost (One (mkCall "getblockheader" [blockhash; JBool false] 1));
     lift_res (result_of data "Error getting block hex"))
    (rpc_failure "There were problems getting a block hex. ").

Definition getBlockVerbose (blockhash : json) : CM json :=
  sanitized (
    '(_, data) ← postWithRetry (One (mkCall "getblock" [blockhash; JBool true] 1));
    lift_res (result_of data "Error getting verbose block")).

(** [getBlock(blockhash)], its hex form. *)
Definition getBlock (blockhash : json) : CM json :=
  '(_, data) ← postWithRetry (One (mkCall "getblock" [blockhash; JBool false] 1));
  lift_res (result_of data "Error getting block hex").

(** ** Raw transactions *)

Definition wholeHexResult (result : json) : res string :=
  match result with
  | JStr s =>
      if bool_decide (String.length s mod 2 = 0) && negb (bool_decide (s = "")) && allHexDigits s
      then Ok s else Err (rpc_failure "getRawTransaction: malformed result")
  | _ => Err (rpc_failure "getRawTransaction: malformed result")
  end.

Definition raw_result (data : json) : res (option string) :=
  result ← member data "result";
  if truthy result then s ← wholeHexResult (default JNull result); Ok (Some s) else Ok None.

(** [None]: the node does not have the transaction. *)
Definition rawTransactionResponse (data : json) : res (option string) :=
  let bodyError := member_of (Some data) "error" in
  let code := if truthy bodyError then as_int (member_of bodyError "code") else None in
  match code with
  | Some k => if bool_decide (k = -5)%Z then raw_result data else Err (Error (ERpc None (Some (Some k))))
  | None => raw_result data
  end.

Fixpoint runRawTransactionRetries (tries : nat) (txid : json) : CM (option string) :=
  match tries with
  | O => throw (rpc_failure "getRawTransaction failed")
  | S n =>
      try_catch ('(_, data) ← rpcPost (One (mkCall "getrawtransaction" [txid] 1)); lift_res (rawTransactionResponse data))
        (fun e => if bool_decide (err_rpcCode e = Some (-5)%Z) then mret None else runRawTransactionRetries n txid)
  end.

Definition getRawTransaction (txid : json) : CM (option string) := runRawTransactionRetries 10 txid.

(** Waves of at most [concurrency], their answers in order; the requests of a wave are
    made one after the other. *)
Fixpoint waves (fuel concurrency : nat) (txids : list json) : CM (list (option string)) :=
  match fuel, txids with
  | S f, _ :: _ =>
      wave ← mapM_list (take concurrency txids) getRawTransaction;
      rest ← waves f concurrency (drop concurrency txids);
      mret (wave ++ rest)
  | _, _ => mret []
  end.

Context {envs : Environment} {lib : Bitcoinjs}.

Definition getRawTransactions (txIdArray : list json) : CM (list (option string)) :=
  waves (length txIdArray) (Z.to_nat (envInt "UTXO_TRACKER_RPC_CONCURRENCY" 50 1)) txIdArray.

(** * Blocks *)

Definition strip_failure : js_error :=
  mkError (EMsg "There were problems getting a block hex without auxpow. ") false false true.

(** [stripAuxPowFromBlockHex] on what the node answered: of the header only the length is
    read, a block that is no string has no [substring]. *)
Definition strip_answer (header block : json) : res json :=
  let headerHex := match header with JStr h => h | _ => "" end in
  match block with
  | JStr b => s ← stripAuxPowFromBlockHex headerHex b; Ok (JStr s)
  | _ => if bool_decide (160 < String.length headerHex) then Err type_error else Ok block
  end.

Definition tag_strip (r : res json) : res json :=
  match r with Ok v => Ok v | Err _ => Err strip_failure end.

Definition getBlockWithoutAuxPow (blockhash : json) : CM json :=
  blockHeaderHex ← getBlockHeader blockhash;
  blockHex ← getBlock blockhash;
  lift_res (tag_strip (strip_answer blockHeaderHex blockHex)).

(** [s.substring(0, 160)], of strings only. *)
Definition header_part (v : json) : res string :=
  match v with JStr s => Ok (substring 0 160 s) | _ => Err type_error end.

Definition tx_list (verboseBlock : json) : res (list json) :=
  match member_of (Some verboseBlock) "tx" with
  | Some (JArr l) => Ok l
  | _ => Err (rpc_failure "verbose getblock returned no tx array")
  end.

Definition all_fetched (txHexes : list (option string)) : res (list string) :=
  match mapM id txHexes with Some l => Ok l | None => Err (rpc_failure "no raw tx for in-block txid") end.

(** Built from the header, the txids and the raw transactions; a fault keeps its code. *)
Definition getBlockReassembled (blockhash : json) : CM string :=
  try_catch (
    header ← getBlockHeader blockhash;
    headerHex ← lift_res (header_part header);
    verboseBlock ← getBlockVerbose blockhash;
    txs ← lift_res (tx_list verboseBlock);
    answers ← getRawTransactions txs;
    txHexes ← lift_res (all_fetched answers);
    count ← lift_res (encodeVarintHex (Z.of_nat (length txHexes)));
    mret (String.append headerHex (String.append count (foldr String.append "" txHexes))))
  (fun e => throw (Error (ERpc (err_code e) None))).

(** * Batches *)

(** [item ? item.id : undefined] where it is an integer. *)
Definition item_id (item : json) : option Z := if truthy (Some item) then as_int (member_of (Some item) "id") else None.

Fixpoint place_by_id (items : list json) (byId : list (option json)) : res (list (option json)) :=
  match items with
  | [] => Ok byId
  | item :: items =>
      match item_id item with
      | Some id =>
          if bool_decide (0 <= id < Z.of_nat (length byId))%Z then
            match byId !! Z.to_nat id with
            | Some (Some _) => Err (rpc_failure "duplicate response id")
            | _ => place_by_id items (<[Z.to_nat id := Some item]> byId)
            end
          else Err (rpc_failure "response id out of range")
      | None => Err (rpc_failure "response id out of range")
      end
  end.

Definition orderBatchResults (responseData : json) (expectedCount : nat) : res (list (option json)) :=
  match responseData with
  | JArr items =>
      if bool_decide (length items = expectedCount) then place_by_id items (replicate expectedCount None)
      else Err (rpc_failure "unexpected number of results")
  | _ => Err (rpc_failure "expected an array response")
  end.

(** [r.result] of each, where it is truthy. *)
Definition batch_result (r : option json) : res json :=
  match r with None => Err type_error | Some r => result_of r "Error in batch" end.

Fixpoint map_res {A B} (f : A -> res B) (l : list A) : res (list B) :=
  match l with [] => Ok [] | x :: l => y ← f x; ys ← map_res f l; Ok (y :: ys) end.

(** One batch of calls of a method, the [i]-th with id [i]. *)
Definition batch_of (method : string) (params : list (list json)) : request :=
  Many (imap (fun i p => mkCall method p (Z.of_nat i)) params).

Definition runBatch (method : string) (params : list (list json)) : CM (list json) :=
  '(_, data) ← postWithRetry (batch_of method params);
  byId ← lift_res (orderBatchResults data (length params));
  lift_res (map_res batch_result byId).

Definition getBatchHashes (heights : list Z) : CM (list json) := runBatch "getblockhash" ((fun h => [JInt h]) <$> heights).
Definition getBatchHeaders (hashes : list json) : CM (list json) := runBatch "getblockheader" ((fun h => [h; JBool false]) <$> hashes).
Definition getBatchBlocks (hashes : list json) : CM (list json) := runBatch "getblock" ((fun h => [h; JBool false]) <$> hashes).

Record node_block := mkNodeBlock { nb_height : Z; nb_hash : json; nb_hex : json }.

Fixpoint node_blocks (heights : list Z) (hashes hexes : list json) : list node_block :=
  match heights, hashes, hexes with
  | h :: heights, hash :: hashes, hex :: hexes => mkNodeBlock h hash hex :: node_blocks heights hashes hexes
  | _, _, _ => []
  end.

Definition getBlocksBatch (heights : list Z) : CM (list node_block) :=
  if bool_decide (heights = []) then mret []
  else
    hashes ← getBatchHashes heights;
    blocks ← getBatchBlocks hashes;
    mret (node_blocks heights hashes blocks).

Fixpoint strip_all (headers blocks : list json) : res (list json) :=
  match headers, blocks with
  | h :: headers, b :: blocks => x ← tag_strip (strip_answer h b); xs ← strip_all headers blocks; Ok (x :: xs)
  | _, _ => Ok []
  end.

Definition getBlocksBatchWithoutAuxPow (heights : list Z) : CM (list node_block) :=
  if bool_decide (heights = []) then mret []
  else
    hashes ← getBatchHashes heights;
    headers ← getBatchHeaders hashes;
    blocks ← getBatchBlocks hashes;
    stripped ← lift_res (strip_all headers blocks);
    mret (node_blocks heights hashes stripped).

(** * The txindex probe *)

(** [true]: the tip's coinbase is served; [false]: it is not; [None]: inconclusive. *)
Definition probeTxIndex : CM (option bool) :=
  try_catch (
    info ← getBlockchainInfo;
    let best := member_of (Some info) "bestblockhash" in
    if negb (truthy best) || bool_decide (as_int (member_of (Some info) "blocks") = Some 0%Z) then mret None
    else
      block ← getBlockVerbose (default JNull best);
      match member_of (Some block) "tx" with
      | Some (JArr (txid :: _)) => tx ← getRawTransaction txid; mret (Some (bool_decide (is_Some tx)))
      | _ => mret None
      end)
  (fun _ => mret None).

(** It only logs; a failing probe is inconclusive. *)
Definition warnIfTxIndexMissing : CM (option bool) := try_catch probeTxIndex (fun _ => mret None).
End rpc.
