(* ===== verification/Server.v ===== *)
(** The process around the tracker: the request gate ([server/concurrency_gate.js]), which
    bounds the requests in flight and sheds the rest, and the shutdown
    ([server/shutdown.js]).  Tasks run one at a time between their awaits, so both are
    transition systems over the events of the process. *)

From S2P Require Import Prelude KeyCodec ChainParams.

#[local] Open Scope string_scope.
#[local] Open Scope nat_scope.
#[local] Open Scope list_scope.

(** * The request gate *)

Module Gate.

(** A missing value keeps the default, a text that is no integer too; zero and below
    disable the gate. *)
Definition resolveLimit (rawValue : option string) (defaultLimit : Z) : Z :=
  let fallback := if bool_decide (0 < defaultLimit)%Z then defaultLimit else 0%Z in
  let read := readInt rawValue in
  if ir_absent read then fallback
  else match ir_value read with
       | None => fallback
       | Some v => if bool_decide (0 < v)%Z then v else 0%Z
       end.

(** A slot; [work] are the tracked promises. *)
Record gate_slot := mkSlot { released : bool; claimed : bool; work : list nat }.

(** An admitted request has a slot; one that was exempt has none.  [ended]: ['finish'] or
    ['close'] fired on its response. *)
Record gated := mkRequest { slot_of : option gate_slot; ended : bool }.

(** A handler under [hold]: it runs, then waits for the promises it took over, then has
    settled. *)
Inductive hold_pc := Handling | Draining (awaited : list nat) | Settled.
Record held_handler := mkHeld { h_req : nat; h_pc : hold_pc }.

(** [settled]: the promises that have settled. *)
Record gate := mkGate {
  limit : Z; inFlight : Z; shed : Z; requests : list gated; holds : list held_handler; settled : gset nat }.

Definition createConcurrencyGate (optLimit : Z) : gate :=
  mkGate (if bool_decide (0 < optLimit)%Z then optLimit else 0) 0 0 [] [] ∅.

Definition set_request (i : nat) (r : gated) (g : gate) : gate :=
  mkGate (limit g) (inFlight g) (shed g) (<[i:=r]> (requests g)) (holds g) (settled g).
Definition set_inFlight (n : Z) (g : gate) : gate := mkGate (limit g) n (shed g) (requests g) (holds g) (settled g).
Definition set_hold (k : nat) (h : held_handler) (g : gate) : gate :=
  mkGate (limit g) (inFlight g) (shed g) (requests g) (<[k:=h]> (holds g)) (settled g).
Definition add_request (r : gated) (g : gate) : gate :=
  mkGate (limit g) (inFlight g) (shed g) (requests g ++ [r]) (holds g) (settled g).
Definition add_hold (h : held_handler) (g : gate) : gate :=
  mkGate (limit g) (inFlight g) (shed g) (requests g) (holds g ++ [h]) (settled g).

Definition get_slot (i : nat) (g : gate) : option gate_slot := requests g !! i ≫= slot_of.

(** The slot of request [i], which has one, is replaced. *)
Definition set_slot (i : nat) (s : gate_slot) (g : gate) : gate :=
  match requests g !! i with Some r => set_request i (mkRequest (Some s) (ended r)) g | None => g end.

Definition release (i : nat) (g : gate) : gate :=
  match get_slot i g with
  | Some s =>
      if released s then g
      else set_inFlight (inFlight g - 1) (set_slot i (mkSlot true (claimed s) (work s)) g)
  | None => g
  end.

(** What becomes of a request: passed on without a slot, refused with a 429, granted a slot. *)
Inductive outcome := Passed | Shed | Granted.

Definition concurrencyGate (skip : bool) (g : gate) : outcome * gate :=
  if bool_decide (limit g <= 0)%Z || skip then (Passed, add_request (mkRequest None false) g)
  else if bool_decide (limit g <= inFlight g)%Z then
    (Shed, mkGate (limit g) (inFlight g) (shed g + 1) (requests g) (holds g) (settled g))
  else (Granted, add_request (mkRequest (Some (mkSlot false false [])) false) (set_inFlight (inFlight g + 1) g)).

Definition releaseIfUnclaimed (i : nat) (g : gate) : gate :=
  match get_slot i g with
  | Some s => if negb (claimed s) then release i g else g
  | None => g
  end.

(** ['finish'] or ['close']; both may fire. *)
Definition responseEnds (i : nat) (g : gate) : gate :=
  match requests g !! i with
  | Some r => releaseIfUnclaimed i (set_request i (mkRequest (slot_of r) true) g)
  | None => g
  end.

(** [heldHandler] up to its handler; without a slot the handler runs outside the gate. *)
Definition heldHandler (i : nat) (g : gate) : gate :=
  match get_slot i g with
  | Some s => add_hold (mkHeld i Handling) (set_slot i (mkSlot (released s) true (work s)) g)
  | None => g
  end.

Definition trackWork (i promise : nat) (g : gate) : gate :=
  match get_slot i g with
  | Some s => set_slot i (mkSlot (released s) (claimed s) (work s ++ [promise])) g
  | None => g
  end.

(** The [finally] of hold [k], at the test of its loop. *)
Definition drainWork (k : nat) (h : held_handler) (g : gate) : gate :=
  match get_slot (h_req h) g with
  | Some s =>
      if bool_decide (work s = []) then set_hold k (mkHeld (h_req h) Settled) (release (h_req h) g)
      else set_hold k (mkHeld (h_req h) (Draining (work s))) (set_slot (h_req h) (mkSlot (released s) (claimed s) []) g)
  | None => g
  end.

(** The handler of hold [k] returns or throws; [allSettled] of what it waits for resolves. *)
Definition handlerSettles (k : nat) (g : gate) : gate :=
  match holds g !! k with Some h => match h_pc h with Handling => drainWork k h g | _ => g end | None => g end.
Definition allSettled (k : nat) (g : gate) : gate :=
  match holds g !! k with
  | Some h =>
      match h_pc h with
      | Draining awaited => if bool_decide (Forall (fun p => p ∈ settled g) awaited) then drainWork k h g else g
      | _ => g
      end
  | None => g
  end.
Definition settlePromise (promise : nat) (g : gate) : gate :=
  mkGate (limit g) (inFlight g) (shed g) (requests g) (holds g) ({[promise]} ∪ settled g).

Inductive gate_event :=
  | Arrives (skip : bool) | ResponseEnds (i : nat) | Enters (i : nat) | Tracks (i promise : nat)
  | HandlerSettles (k : nat) | Settles (promise : nat) | Wakes (k : nat).

Definition gate_handle (e : gate_event) (g : gate) : gate :=
  match e with
  | Arrives skip => (concurrencyGate skip g).2
  | ResponseEnds i => responseEnds i g
  | Enters i => heldHandler i g
  | Tracks i p => trackWork i p g
  | HandlerSettles k => handlerSettles k g
  | Settles p => settlePromise p g
  | Wakes k => allSettled k g
  end.

Definition gate_run (es : list gate_event) (g : gate) : gate := foldl (fun g e => gate_handle e g) g es.

(** ** Slots *)

Definition open (r : gated) : bool := match slot_of r with Some s => negb (released s) | None => false end.
Definition count_open (l : list gated) : Z := Z.of_nat (length (filter (fun r => open r = true) l)).
Definition b2z (b : bool) : Z := if b then 1 else 0.

Lemma count_app l l' : count_open (l ++ l') = (count_open l + count_open l')%Z.
Proof. unfold count_open. rewrite filter_app, length_app. lia. Qed.

Lemma count_one r : count_open [r] = b2z (open r).
Proof. unfold count_open. rewrite filter_cons, filter_nil. by destruct (open r). Qed.

Lemma count_insert l i r r' : l !! i = Some r -> count_open (<[i:=r']> l) = (count_open l - b2z (open r) + b2z (open r'))%Z.
Proof.
  intros Hi. rewrite <- (take_drop_middle l i r Hi) at 2. rewrite insert_take_drop by (by eapply lookup_lt_Some).
  change (r' :: drop (S i) l) with ([r'] ++ drop (S i) l). change (r :: drop (S i) l) with ([r] ++ drop (S i) l). rewrite !count_app, !count_one. lia.
Qed.

Lemma get_slot_request i g s : get_slot i g = Some s -> exists r, requests g !! i = Some r /\ slot_of r = Some s.
Proof. unfold get_slot. destruct (requests g !! i) as [r|]; [|done]. intros E. by exists r. Qed.

Lemma get_slot_set i j s g : get_slot i (set_slot j s g) = if decide (i = j) then (if requests g !! j then Some s else None) else get_slot i g.
Proof.
  unfold get_slot, set_slot. destruct (requests g !! j) as [r|] eqn:Ej; case_decide as E; cbn.
  - subst. by rewrite list_lookup_insert_eq by (by eapply lookup_lt_Some).
  - by rewrite list_lookup_insert_ne.
  - subst. by rewrite Ej.
  - done.
Qed.

Lemma get_slot_add i r g : get_slot i (add_request r g) = if decide (i = length (requests g)) then slot_of r else get_slot i g.
Proof.
  unfold get_slot, add_request. cbn. case_decide as E.
  - subst. by rewrite lookup_app_r, Nat.sub_diag.
  - destruct (decide (i < length (requests g))) as [H|H]; [by rewrite lookup_app_l|].
    rewrite lookup_app_r by lia. rewrite (lookup_ge_None_2 (requests g)) by lia. by destruct (i - length (requests g)) as [|n] eqn:En; [lia|].
Qed.

Lemma set_slot_holds i s g : holds (set_slot i s g) = holds g.
Proof. unfold set_slot. by destruct (requests g !! i). Qed.
Lemma set_slot_settled i s g : settled (set_slot i s g) = settled g.
Proof. unfold set_slot. by destruct (requests g !! i). Qed.

(** ** The invariant *)

Definition unsettled (g : gate) (i : nat) : Prop := exists k h, holds g !! k = Some h /\ h_req h = i /\ h_pc h <> Settled.

Record gate_inv (g : gate) : Prop := {
  gi_count : inFlight g = count_open (requests g);
  gi_cap : (inFlight g <= limit g)%Z;
  gi_owner : forall i r s, requests g !! i = Some r -> slot_of r = Some s ->
    released s = true \/ (claimed s = false /\ ended r = false) \/ unsettled g i;
}.

Lemma gate_inv_set_slot g j r s s' : gate_inv g -> requests g !! j = Some r -> slot_of r = Some s -> released s' = released s ->
  claimed s' = claimed s \/ unsettled g j -> gate_inv (set_slot j s' g).
Proof.
  intros [H1 H2 H3] Hj Hs Hr Hc. unfold set_slot. rewrite Hj. split; cbn.
  - rewrite (count_insert _ _ r) by done. unfold open. cbn. rewrite Hs, Hr. lia.
  - done.
  - intros i r' t Hi Ht. destruct (decide (i = j)) as [->|Hne].
    + rewrite list_lookup_insert_eq in Hi by (by eapply lookup_lt_Some). injection Hi as <-. injection Ht as <-. cbn. rewrite Hr.
      destruct (H3 j r s Hj Hs) as [?|[[E ?]|?]]; [by left| |by right; right].
      destruct Hc as [->|?]; [|by right; right]. right. by left.
    + rewrite list_lookup_insert_ne in Hi by done. by apply (H3 i r').
Qed.

Lemma gate_inv_release g j : gate_inv g -> gate_inv (release j g).
Proof.
  intros [H1 H2 H3]. unfold release. destruct (get_slot j g) as [s|] eqn:Es; [|done]. destruct (released s) eqn:Er; [done|].
  apply get_slot_request in Es as (r & Hj & Hs). unfold set_slot. rewrite Hj. split; cbn.
  - rewrite (count_insert _ _ r) by done. unfold open. cbn. rewrite Hs, Er. cbn. lia.
  - lia.
  - intros i r' t Hi Ht. destruct (decide (i = j)) as [->|Hne].
    + rewrite list_lookup_insert_eq in Hi by (by eapply lookup_lt_Some). injection Hi as <-. injection Ht as <-. by left.
    + rewrite list_lookup_insert_ne in Hi by done. by apply (H3 i r').
Qed.

Lemma release_released g j s : get_slot j (release j g) = Some s -> released s = true.
Proof.
  unfold release. destruct (get_slot j g) as [t|] eqn:Et; [|by rewrite Et]. destruct (released t) eqn:Er; [rewrite Et; by intros [= <-]|].
  apply get_slot_request in Et as (r & Hj & Hs). change (get_slot j (set_inFlight ?n ?g)) with (get_slot j g). rewrite get_slot_set, decide_True, Hj by done. by intros [= <-].
Qed.

Lemma release_holds g j : holds (release j g) = holds g.
Proof. unfold release. destruct (get_slot j g) as [t|]; [|done]. destruct (released t); [done|]. cbn. apply set_slot_holds. Qed.

(** Ending a response leaves its slot without an owner until it is released. *)
Lemma gate_inv_release_ended g i r s : gate_inv g -> requests g !! i = Some r -> slot_of r = Some s ->
  gate_inv (release i (set_request i (mkRequest (Some s) true) g)).
Proof.
  intros [H1 H2 H3] Hi Hs. pose proof (lookup_lt_Some _ _ _ Hi) as Hl. unfold release, get_slot. cbn [requests set_request].
  rewrite list_lookup_insert_eq by done. cbn [mbind option_bind slot_of].
  assert (Hrest : forall (l : list gated) (r' : gated) j q t, <[i:=r']> (<[i:=mkRequest (Some s) true]> (requests g)) !! j = Some q -> slot_of q = Some t ->
    slot_of r' = Some t \/ requests g !! j = Some q).
  { intros _ r' j q t Hj Ht. rewrite list_insert_insert_eq in Hj. destruct (decide (j = i)) as [->|Hne].
    - rewrite list_lookup_insert_eq in Hj by done. injection Hj as <-. by left.
    - rewrite list_lookup_insert_ne in Hj by done. by right. }
  destruct (released s) eqn:Er.
  - split; cbn.
    + rewrite (count_insert _ _ r) by done. unfold open. cbn. rewrite Hs. lia.
    + done.
    + intros j q t Hj Ht. destruct (decide (j = i)) as [->|Hne].
      * rewrite list_lookup_insert_eq in Hj by done. injection Hj as <-. injection Ht as <-. by left.
      * rewrite list_lookup_insert_ne in Hj by done. by apply (H3 j q).
  - unfold set_slot. cbn [requests set_request]. rewrite list_lookup_insert_eq by done. split; cbn.
    + rewrite list_insert_insert_eq, (count_insert _ _ r) by done. unfold open. cbn. rewrite Hs, Er. cbn. lia.
    + lia.
    + intros j q t Hj Ht. rewrite list_insert_insert_eq in Hj. destruct (decide (j = i)) as [->|Hne].
      * rewrite list_lookup_insert_eq in Hj by done. injection Hj as <-. injection Ht as <-. by left.
      * rewrite list_lookup_insert_ne in Hj by done. by apply (H3 j q).
Qed.

Lemma gate_inv_end g i : gate_inv g -> gate_inv (responseEnds i g).
Proof.
  intros H. unfold responseEnds. destruct (requests g !! i) as [r|] eqn:Ei; [|done]. pose proof (lookup_lt_Some _ _ _ Ei) as Hl.
  unfold releaseIfUnclaimed, get_slot. cbn [requests set_request]. rewrite list_lookup_insert_eq by done. cbn [mbind option_bind slot_of].
  assert (Hkeep : (forall s, slot_of r = Some s -> claimed s = true) -> gate_inv (set_request i (mkRequest (slot_of r) true) g)).
  { intros Hc. destruct H as [H1 H2 H3]. split; cbn.
    - rewrite (count_insert _ _ r) by done. unfold open. cbn. lia.
    - done.
    - intros j q t Hj Ht. destruct (decide (j = i)) as [->|Hne].
      + rewrite list_lookup_insert_eq in Hj by done. injection Hj as <-. cbn in Ht. destruct (H3 i r t Ei Ht) as [?|[[E ?]|?]]; [by left| |by right; right].
        by rewrite (Hc t Ht) in E.
      + rewrite list_lookup_insert_ne in Hj by done. by apply (H3 j q). }
  destruct (slot_of r) as [s|] eqn:Es; [|by apply Hkeep]. destruct (claimed s) eqn:Ec; cbn [negb].
  - apply Hkeep. by intros ? [= <-].
  - by apply (gate_inv_release_ended g i r s).
Qed.

Lemma gate_inv_arrives g skip : gate_inv g -> gate_inv (concurrencyGate skip g).2.
Proof.
  intros [H1 H2 H3]. unfold concurrencyGate.
  assert (Hadd : forall r n g', requests g' = requests g -> holds g' = holds g -> limit g' = limit g -> inFlight g' = n ->
    (n = inFlight g + b2z (open r))%Z -> (n <= limit g)%Z -> (forall s, slot_of r = Some s -> claimed s = false /\ ended r = false) -> gate_inv (add_request r g')).
  { intros r n g' E1 E2 E3 E4 Hn Hl Hr. split; cbn.
    - rewrite E1, E4, count_app, count_one. lia.
    - by rewrite E3, E4.
    - intros i q t Hi Ht. rewrite E1 in Hi. unfold unsettled. cbn. rewrite E2. apply lookup_app_Some in Hi as [Hi|[_ Hi]]; [by apply (H3 i q)|].
      apply list_lookup_singleton_Some in Hi as [_ <-]. right. left. by apply Hr. }
  case_bool_decide as Hz; cbn [orb].
  - apply (Hadd _ (inFlight g)); try done. cbn. lia.
  - destruct skip; [apply (Hadd _ (inFlight g)); try done; cbn; lia|]. case_bool_decide; [by split|].
    apply (Hadd _ (inFlight g + 1)%Z); try done; [lia|]. by intros s [= <-].
Qed.

Lemma unsettled_add g h i : unsettled g i -> unsettled (add_hold h g) i.
Proof. intros (k & h' & Hk & Hi & Hp). exists k, h'. split_and!; [|done|done]. cbn. by apply lookup_app_l_Some. Qed.

Lemma gate_inv_enters g i : gate_inv g -> gate_inv (heldHandler i g).
Proof.
  intros H. unfold heldHandler. destruct (get_slot i g) as [s|] eqn:Es; [|done]. apply get_slot_request in Es as (r & Hi & Hs).
  assert (Hadd : gate_inv (add_hold (mkHeld i Handling) g)).
  { destruct H as [H1 H2 H3]. split; [done|done|]. intros j q t Hj Ht. destruct (H3 j q t Hj Ht) as [?|[?|?]]; [by left|by right; left|].
    right. right. by apply unsettled_add. }
  assert (E : add_hold (mkHeld i Handling) (set_slot i (mkSlot (released s) true (work s)) g) = set_slot i (mkSlot (released s) true (work s)) (add_hold (mkHeld i Handling) g)).
  { unfold set_slot. cbn. by rewrite Hi. }
  rewrite E. apply (gate_inv_set_slot _ i r s); [done|done|done|done|]. right. exists (length (holds g)), (mkHeld i Handling). split_and!; [|done|done].
  cbn. by rewrite lookup_app_r, Nat.sub_diag.
Qed.

Lemma gate_inv_tracks g i p : gate_inv g -> gate_inv (trackWork i p g).
Proof.
  intros H. unfold trackWork. destruct (get_slot i g) as [s|] eqn:Es; [|done]. apply get_slot_request in Es as (r & Hi & Hs).
  apply (gate_inv_set_slot _ i r s); auto.
Qed.

(** Hold [k] moves on: what it owned is released, or it still owns it. *)
Lemma gate_inv_set_hold g k h pc : gate_inv g -> holds g !! k = Some h ->
  pc <> Settled \/ (forall s, get_slot (h_req h) g = Some s -> released s = true) -> gate_inv (set_hold k (mkHeld (h_req h) pc) g).
Proof.
  intros [H1 H2 H3] Hk Hpc. split; [done|done|]. intros i r s Hi Hs. destruct (H3 i r s Hi Hs) as [?|[?|(k' & h' & Hk' & Hi' & Hp')]]; [by left|by right; left|].
  destruct (decide (k' = k)) as [->|Hne].
  - rewrite Hk in Hk'. injection Hk' as <-. destruct Hpc as [Hpc|Hpc].
    + right. right. exists k, (mkHeld (h_req h) pc). split_and!; [|done|done]. cbn. apply list_lookup_insert_eq. by eapply lookup_lt_Some.
    + left. apply Hpc. unfold get_slot. cbn in Hi. by rewrite Hi', Hi.
  - right. right. exists k', h'. split_and!; [|done|done]. cbn. by rewrite list_lookup_insert_ne.
Qed.

Lemma gate_inv_drain g k h : gate_inv g -> holds g !! k = Some h -> gate_inv (drainWork k h g).
Proof.
  intros H Hk. unfold drainWork. destruct (get_slot (h_req h) g) as [s|] eqn:Es; [|done]. case_bool_decide.
  - apply gate_inv_set_hold; [by apply gate_inv_release|by rewrite release_holds|]. right. intros t. apply release_released.
  - pose proof Es as (r & Hi & Hs)%get_slot_request. apply gate_inv_set_hold; [|by rewrite set_slot_holds|by left]. apply (gate_inv_set_slot _ (h_req h) r s); auto.
Qed.

Lemma gate_inv_handle g e : gate_inv g -> gate_inv (gate_handle e g).
Proof.
  intros H. destruct e as [skip|i|i|i p|k|p|k]; cbn [gate_handle].
  - by apply gate_inv_arrives.
  - by apply gate_inv_end.
  - by apply gate_inv_enters.
  - by apply gate_inv_tracks.
  - unfold handlerSettles. destruct (holds g !! k) as [h|] eqn:Ek; [|done]. destruct (h_pc h); try done. by apply gate_inv_drain.
  - destruct H as [H1 H2 H3]. by split.
  - unfold allSettled. destruct (holds g !! k) as [h|] eqn:Ek; [|done]. destruct (h_pc h); try done. case_bool_decide; [|done]. by apply gate_inv_drain.
Qed.

Lemma gate_inv_run es : forall g, gate_inv g -> gate_inv (gate_run es g).
Proof. unfold gate_run. induction es as [|e es IH]; intros g H; [done|]. cbn [foldl]. by apply IH, gate_inv_handle. Qed.

Lemma gate_inv_new l : gate_inv (createConcurrencyGate l).
Proof. split; cbn; [done| |done]. case_bool_decide; lia. Qed.

Lemma limit_set_slot i s g : limit (set_slot i s g) = limit g.
Proof. unfold set_slot. by destruct (requests g !! i). Qed.

Lemma limit_release i g : limit (release i g) = limit g.
Proof. unfold release. destruct (get_slot i g) as [s|]; [|done]. destruct (released s); [done|]. cbn. apply limit_set_slot. Qed.

Lemma limit_drain k h g : limit (drainWork k h g) = limit g.
Proof.
  unfold drainWork. destruct (get_slot _ g); [|done]. case_bool_decide; cbn; [apply limit_release|apply limit_set_slot].
Qed.

Lemma limit_handle e g : limit (gate_handle e g) = limit g.
Proof.
  destruct e as [skip|i|i|i p|k|p|k]; cbn [gate_handle].
  - unfold concurrencyGate. case_bool_decide; [done|]. destruct skip; [done|]. cbn [orb]. by case_bool_decide.
  - unfold responseEnds, releaseIfUnclaimed. destruct (requests g !! i); [|done]. destruct (get_slot _ _); [|done]. destruct (negb _); [|done]. by rewrite limit_release.
  - unfold heldHandler. destruct (get_slot i g); [|done]. cbn. apply limit_set_slot.
  - unfold trackWork. destruct (get_slot i g); [|done]. apply limit_set_slot.
  - unfold handlerSettles. destruct (holds g !! k) as [h|]; [|done]. destruct (h_pc h); try done. apply limit_drain.
  - done.
  - unfold allSettled. destruct (holds g !! k) as [h|]; [|done]. destruct (h_pc h); try done. case_bool_decide; [|done]. apply limit_drain.
Qed.

Lemma limit_run es : forall g, limit (gate_run es g) = limit g.
Proof. unfold gate_run. induction es as [|e es IH]; intros g; [done|]. cbn [foldl]. rewrite IH. apply limit_handle. Qed.

Lemma count_nonneg l : (0 <= count_open l)%Z.
Proof. unfold count_open. lia. Qed.

Lemma count_closed l : (forall r, r ∈ l -> open r = false) -> count_open l = 0%Z.
Proof.
  intros H. unfold count_open. rewrite filter_none; [done|]. intros r Hr. by rewrite (H r Hr).
Qed.

(** ** Work outlives the socket *)

(** What becomes of a promise tracked on request [i] that hold [k] answers for. *)
Record answers_for (i k p : nat) (g : gate) : Prop := {
  af_slot : exists s, get_slot i g = Some s /\ claimed s = true
    /\ (released s = false -> p ∈ work s \/ (exists h awaited, holds g !! k = Some h /\ h_req h = i /\ h_pc h = Draining awaited /\ p ∈ awaited) \/ p ∈ settled g)
    /\ (released s = true -> p ∈ settled g);
  af_hold : exists h, holds g !! k = Some h /\ h_req h = i /\ forall s, get_slot i g = Some s -> released s = true -> h_pc h = Settled;
}.

Definition only_hold (i k : nat) (g : gate) : Prop := forall k' h, holds g !! k' = Some h -> h_req h = i -> k' = k.

(** [g'] looks the same from request [i] and hold [k]. *)
Record same_view (i k : nat) (g g' : gate) : Prop := {
  sv_slot : get_slot i g' = get_slot i g;
  sv_hold : holds g' !! k = holds g !! k;
  sv_settled : settled g ⊆ settled g';
}.

Lemma answers_view i k p g g' : answers_for i k p g -> same_view i k g g' -> answers_for i k p g'.
Proof.
  intros [(s & Hs & Hc & H1 & H2) (h & Hk & Hi & Hp)] [V1 V2 V3]. split.
  - exists s. rewrite V1. split_and!; [done|done| |by intros Hr; apply V3, H2].
    intros Hr. destruct (H1 Hr) as [?|[(h' & aw & ? & ? & ? & ?)|?]]; [by left| |by right; right; apply V3]. right. left. exists h', aw. by rewrite V2.
  - exists h. rewrite V1, V2. by split_and!.
Qed.

Lemma get_slot_release i j g : i <> j -> get_slot i (release j g) = get_slot i g.
Proof.
  intros Hne. unfold release. destruct (get_slot j g) as [s|] eqn:Es; [|done]. destruct (released s); [done|].
  change (get_slot i (set_inFlight ?n ?g)) with (get_slot i g). by rewrite get_slot_set, decide_False.
Qed.

Lemma settled_release j g : settled (release j g) = settled g.
Proof. unfold release. destruct (get_slot j g) as [s|]; [|done]. destruct (released s); [done|]. cbn. apply set_slot_settled. Qed.

Lemma view_drain i k k' h g : h_req h <> i -> k' <> k -> same_view i k g (drainWork k' h g).
Proof.
  intros Hi Hk. unfold drainWork. destruct (get_slot (h_req h) g) as [s|]; [|done]. case_bool_decide.
  - split; cbn [settled set_hold holds].
    + change (get_slot i (set_hold ?a ?b ?g)) with (get_slot i g). by apply get_slot_release.
    + rewrite list_lookup_insert_ne by done. by rewrite release_holds.
    + by rewrite settled_release.
  - split; cbn [settled set_hold holds].
    + change (get_slot i (set_hold ?a ?b ?g)) with (get_slot i g). by rewrite get_slot_set, decide_False.
    + rewrite list_lookup_insert_ne by done. by rewrite set_slot_holds.
    + by rewrite set_slot_settled.
Qed.

Lemma drain_holds g k h s : get_slot (h_req h) g = Some s -> exists pc, holds (drainWork k h g) = <[k:=mkHeld (h_req h) pc]> (holds g).
Proof.
  intros Hs. unfold drainWork. rewrite Hs. case_bool_decide; cbn.
  - exists Settled. by rewrite release_holds.
  - exists (Draining (work s)). by rewrite set_slot_holds.
Qed.

(** Hold [k] at the test of its loop, everything it waited for being settled. *)
Lemma answers_drain i k p g h s : get_slot i g = Some s -> claimed s = true -> released s = false -> holds g !! k = Some h -> h_req h = i ->
  p ∈ work s \/ p ∈ settled g -> answers_for i k p (drainWork k h g).
Proof.
  intros Hs Hc Hr Hk Hi Hp. subst i. pose proof (get_slot_request _ _ _ Hs) as (r & Hri & _). pose proof (lookup_lt_Some _ _ _ Hk) as Hkl.
  unfold drainWork. rewrite Hs. case_bool_decide as Hw.
  - assert (Hsettled : p ∈ settled g) by (destruct Hp as [Hp|?]; [rewrite Hw in Hp; by apply elem_of_nil in Hp|done]). split.
    + exists (mkSlot true true (work s)). change (get_slot (h_req h) (set_hold ?a ?b ?g)) with (get_slot (h_req h) g). unfold release. rewrite Hs, Hr.
      change (get_slot (h_req h) (set_inFlight ?n ?g)) with (get_slot (h_req h) g). rewrite get_slot_set, decide_True, Hri, Hc by done.
      split_and!; [done|done|done|]. intros _. cbn. by rewrite set_slot_settled.
    + exists (mkHeld (h_req h) Settled). split_and!; [|done|done]. cbn. rewrite release_holds. by apply list_lookup_insert_eq.
  - split.
    + exists (mkSlot false true []). change (get_slot (h_req h) (set_hold ?a ?b ?g)) with (get_slot (h_req h) g). rewrite get_slot_set, decide_True, Hri, Hc, Hr by done.
      split_and!; [done|done| |done]. intros _. destruct Hp as [Hp|Hp]; [|right; right; cbn; by rewrite set_slot_settled].
      right. left. exists (mkHeld (h_req h) (Draining (work s))), (work s). split_and!; [|done|done|done]. cbn. rewrite set_slot_holds. by apply list_lookup_insert_eq.
    + exists (mkHeld (h_req h) (Draining (work s))). split_and!; [|done|].
      * cbn. rewrite set_slot_holds. by apply list_lookup_insert_eq.
      * intros t. change (get_slot (h_req h) (set_hold ?a ?b ?g)) with (get_slot (h_req h) g). rewrite get_slot_set, decide_True, Hri, Hr by done. by intros [= <-].
Qed.

Lemma answers_moves i k p g k' h : answers_for i k p g -> holds g !! k' = Some h -> h_pc h <> Settled -> only_hold i k (drainWork k' h g) ->
  (forall awaited q, h_pc h = Draining awaited -> q ∈ awaited -> q ∈ settled g) -> answers_for i k p (drainWork k' h g).
Proof.
  intros HA Hk' Hp Ho Haw. destruct (decide (h_req h = i)) as [Hi|Hi].
  - destruct HA as [(s & Hs & Hc & H1 & H2) (h0 & Hk & Hi0 & Hset)]. assert (k' = k) as ->.
    { destruct (drain_holds g k' h s ltac:(by rewrite Hi)) as (pc & E). apply (Ho k' (mkHeld (h_req h) pc)); [|done]. rewrite E. apply list_lookup_insert_eq. by eapply lookup_lt_Some. }
    rewrite Hk' in Hk. injection Hk as <-. destruct (released s) eqn:Er; [by destruct Hp; apply (Hset s)|].
    apply (answers_drain i k p g h s); try done. destruct (H1 eq_refl) as [?|[(h' & aw & E1 & _ & E2 & Hin)|?]]; [by left| |by right].
    rewrite Hk' in E1. injection E1 as <-. right. by apply (Haw aw).
  - apply (answers_view _ _ _ g); [done|]. apply view_drain; [done|]. intros ->. destruct HA as [_ (h0 & Hk & Hi0 & _)]. rewrite Hk' in Hk. injection Hk as <-. done.
Qed.

Lemma get_slot_lt i g s : get_slot i g = Some s -> i < length (requests g).
Proof. intros (r & Hi & _)%get_slot_request. by eapply lookup_lt_Some. Qed.

Lemma view_arrives i k skip g : i < length (requests g) -> same_view i k g (concurrencyGate skip g).2.
Proof.
  intros Hi. assert (Hadd : forall r g', requests g' = requests g -> holds g' = holds g -> settled g' = settled g -> same_view i k g (add_request r g')).
  { intros r g' E1 E2 E3. split; [|by cbn; rewrite E2|by cbn; rewrite E3]. rewrite get_slot_add, E1, decide_False by lia. unfold get_slot. by rewrite E1. }
  unfold concurrencyGate. destruct (bool_decide (limit g <= 0)%Z || skip); [by apply Hadd|]. case_bool_decide; [done|]. by apply Hadd.
Qed.

Lemma answers_handle i k p e g : answers_for i k p g -> only_hold i k (gate_handle e g) -> answers_for i k p (gate_handle e g).
Proof.
  intros HA Ho. pose proof HA as [(s & Hs & Hc & H1 & H2) (h & Hk & Hi & Hp)]. pose proof (get_slot_request _ _ _ Hs) as (r & Hri & Hrs).
  pose proof (lookup_lt_Some _ _ _ Hri) as Hil. pose proof (lookup_lt_Some _ _ _ Hk) as Hkl.
  destruct e as [skip|j|j|j q|k'|q|k']; cbn [gate_handle] in *.
  - apply (answers_view _ _ _ g); [done|]. by apply view_arrives.
  - unfold responseEnds. destruct (requests g !! j) as [rj|] eqn:Ej; [|done]. pose proof (lookup_lt_Some _ _ _ Ej) as Hjl.
    destruct (decide (j = i)) as [->|Hne].
    + rewrite Hri in Ej. injection Ej as <-. unfold releaseIfUnclaimed, get_slot. cbn [requests set_request]. rewrite list_lookup_insert_eq by done.
      cbn [mbind option_bind slot_of]. rewrite Hrs, Hc. cbn [negb]. apply (answers_view _ _ _ g); [done|]. split; [|done|done].
      unfold get_slot. cbn [requests set_request]. rewrite list_lookup_insert_eq, Hri by done. cbn. by rewrite Hrs.
    + assert (V : same_view i k g (set_request j (mkRequest (slot_of rj) true) g)).
      { split; [|done|done]. unfold get_slot. cbn [requests set_request]. by rewrite list_lookup_insert_ne. }
      unfold releaseIfUnclaimed. destruct (get_slot j _) as [t|]; [|by apply (answers_view _ _ _ g)]. destruct (negb (claimed t)); [|by apply (answers_view _ _ _ g)].
      apply (answers_view _ _ _ g); [done|]. destruct V as [V1 V2 V3]. split; [by rewrite get_slot_release|by rewrite release_holds|by rewrite settled_release].
  - unfold heldHandler in *. destruct (get_slot j g) as [t|] eqn:Et; [|done]. destruct (decide (j = i)) as [->|Hne].
    + exfalso. assert (length (holds g) = k); [|lia]. apply (Ho _ (mkHeld i Handling)); [|done]. cbn. rewrite set_slot_holds. by rewrite lookup_app_r, Nat.sub_diag.
    + apply (answers_view _ _ _ g); [done|]. split; cbn.
      * change (get_slot i (add_hold ?a ?g)) with (get_slot i g). by rewrite get_slot_set, decide_False.
      * rewrite set_slot_holds. by apply lookup_app_l.
      * by rewrite set_slot_settled.
  - unfold trackWork in *. destruct (get_slot j g) as [t|] eqn:Et; [|done]. destruct (decide (j = i)) as [->|Hne].
    + rewrite Hs in Et. injection Et as <-. split.
      * exists (mkSlot (released s) (claimed s) (work s ++ [q])). rewrite get_slot_set, decide_True, Hri by done. cbn [released claimed work]. rewrite set_slot_holds, set_slot_settled.
        split_and!; [done|done| |done]. intros Hr. destruct (H1 Hr) as [?|?]; [left; apply elem_of_app; by left|by right].
      * exists h. rewrite set_slot_holds. split_and!; [done|done|]. intros t. rewrite get_slot_set, decide_True, Hri by done. intros [= <-]. cbn. by apply (Hp s).
    + apply (answers_view _ _ _ g); [done|]. split; [by rewrite get_slot_set, decide_False|by rewrite set_slot_holds|by rewrite set_slot_settled].
  - unfold handlerSettles in *. destruct (holds g !! k') as [h'|] eqn:Ek; [|done]. destruct (h_pc h') eqn:Eh; try done.
    apply answers_moves; try done; [by rewrite Eh|]. intros aw x E. by rewrite Eh in E.
  - apply (answers_view _ _ _ g); [done|]. split; [done|done|]. cbn. set_solver.
  - unfold allSettled in *. destruct (holds g !! k') as [h'|] eqn:Ek; [|done]. destruct (h_pc h') as [|aw|] eqn:Eh; try done. case_bool_decide as Hall; [|done].
    apply answers_moves; try done; [by rewrite Eh|]. intros aw' x E Hx. rewrite Eh in E. injection E as <-. rewrite Forall_forall in Hall. by apply Hall.
Qed.

(** ** One hold per request *)

Lemma only_hold_insert i k k' h pc g hs : only_hold i k g -> holds g !! k' = Some h -> hs = <[k':=mkHeld (h_req h) pc]> (holds g) ->
  forall j h', hs !! j = Some h' -> h_req h' = i -> j = k.
Proof.
  intros Ho Hk -> j h' Hj Hi. destruct (decide (j = k')) as [->|Hne].
  - rewrite list_lookup_insert_eq in Hj by (by eapply lookup_lt_Some). injection Hj as <-. by apply (Ho k' h).
  - rewrite list_lookup_insert_ne in Hj by done. by apply (Ho j h').
Qed.

Lemma only_hold_drain i k k' h g : only_hold i k g -> holds g !! k' = Some h -> only_hold i k (drainWork k' h g).
Proof.
  intros Ho Hk. destruct (get_slot (h_req h) g) as [s|] eqn:Es; [|by unfold drainWork; rewrite Es].
  destruct (drain_holds g k' h s Es) as (pc & E). intros j h'. by apply (only_hold_insert i k k' h pc g).
Qed.

Lemma only_hold_handle i k e g : only_hold i k g -> e <> Enters i -> only_hold i k (gate_handle e g).
Proof.
  intros Ho He. assert (Hsame : forall g', holds g' = holds g -> only_hold i k g') by (intros g' E j h; rewrite E; apply Ho).
  destruct e as [skip|j|j|j q|k'|q|k']; cbn [gate_handle].
  - apply Hsame. unfold concurrencyGate. case_bool_decide; [done|]. destruct skip; [done|]. by case_bool_decide.
  - apply Hsame. unfold responseEnds, releaseIfUnclaimed. destruct (requests g !! j); [|done]. destruct (get_slot j _); [|done].
    destruct (negb _); [|done]. by rewrite release_holds.
  - unfold heldHandler. destruct (get_slot j g) as [t|]; [|done]. intros k' h. cbn. rewrite set_slot_holds. intros [Hk|[_ Hk]]%lookup_app_Some; [by apply Ho|].
    apply list_lookup_singleton_Some in Hk as [_ <-]. cbn. intros ->. by destruct He.
  - apply Hsame. unfold trackWork. destruct (get_slot j g); [|done]. apply set_slot_holds.
  - unfold handlerSettles. destruct (holds g !! k') as [h|] eqn:Ek; [|done]. destruct (h_pc h); try done. by apply only_hold_drain.
  - by apply Hsame.
  - unfold allSettled. destruct (holds g !! k') as [h|] eqn:Ek; [|done]. destruct (h_pc h); try done. case_bool_decide; [|done]. by apply only_hold_drain.
Qed.

Lemma answers_run i k p es : forall g, answers_for i k p g -> only_hold i k g -> Enters i ∉ es -> answers_for i k p (gate_run es g).
Proof.
  unfold gate_run. induction es as [|e es IH]; intros g HA Ho He; [done|]. apply not_elem_of_cons in He as [He Hes]. cbn [foldl].
  apply IH; [|by apply only_hold_handle|done]. apply answers_handle; [done|]. by apply only_hold_handle.
Qed.

(** Hold [k], not settled yet, is the one hold of request [i], whose slot it has claimed. *)
Record owns (i k : nat) (g : gate) : Prop := {
  ow_slot : exists s, get_slot i g = Some s /\ claimed s = true /\ released s = false;
  ow_hold : exists h, holds g !! k = Some h /\ h_req h = i /\ h_pc h <> Settled;
  ow_only : only_hold i k g;
}.

Lemma owns_track i k p g : owns i k g -> answers_for i k p (trackWork i p g) /\ only_hold i k (trackWork i p g).
Proof.
  intros [(s & Hs & Hc & Hr) (h & Hk & Hi & Hp) Ho]. split; [|by apply (only_hold_handle i k (Tracks i p))].
  pose proof (get_slot_request _ _ _ Hs) as (r & Hri & _). unfold trackWork. rewrite Hs. split.
  - exists (mkSlot (released s) (claimed s) (work s ++ [p])). rewrite get_slot_set, decide_True, Hri by done. cbn [released claimed work].
    split_and!; [done|done| |by rewrite Hr]. intros _. left. apply elem_of_app. right. by apply list_elem_of_singleton.
  - exists h. rewrite set_slot_holds. split_and!; [done|done|]. intros t. rewrite get_slot_set, decide_True, Hri by done. intros [= <-]. cbn. by rewrite Hr.
Qed.

Lemma enter_owns i g s : get_slot i g = Some s -> released s = false -> (forall k h, holds g !! k = Some h -> h_req h <> i) ->
  owns i (length (holds g)) (heldHandler i g).
Proof.
  intros Hs Hr Hno. pose proof (get_slot_request _ _ _ Hs) as (r & Hri & _). unfold heldHandler. rewrite Hs. split.
  - exists (mkSlot (released s) true (work s)). change (get_slot i (add_hold ?a ?g)) with (get_slot i g). by rewrite get_slot_set, decide_True, Hri.
  - exists (mkHeld i Handling). cbn. rewrite set_slot_holds, lookup_app_r, Nat.sub_diag by done. by split_and!.
  - intros k h. cbn. rewrite set_slot_holds. intros [Hk|[Hl Hk]]%lookup_app_Some Hi; [by destruct (Hno k h Hk)|].
    apply list_lookup_singleton_Some in Hk as [Hz _]. lia.
Qed.

Lemma count_pos l i r : l !! i = Some r -> open r = true -> (1 <= count_open l)%Z.
Proof.
  intros Hi Ho. rewrite <- (take_drop_middle l i r Hi). change (r :: drop (S i) l) with ([r] ++ drop (S i) l). rewrite !count_app, count_one, Ho.
  pose proof (count_nonneg (take i l)). pose proof (count_nonneg (drop (S i) l)). cbn. lia.
Qed.

End Gate.

(** * Shutdown *)

Module Shutdown.

(** A store handle: the object, and whether it has a [close]. *)
Record store_handle := mkHandle { h_store : nat; closable : bool }.

(** What [createTrackerDrain] was given: a tracker ([stop] throws or not) with its two
    handles, a server with a [close] ([close] throws or not), the promise of the loop. *)
Record setup := mkSetup {
  trk : option (bool * list (option store_handle)); server : option bool; loopGiven : bool }.

(** What the process does that a supervisor can see. *)
Inductive action := Stop | CloseStore (s : nat) | Exit (code : Z).

(** [Waiting]: the server still listens, the loop still runs.  [Closing]: an awaited
    [close], what was seen, what is left. *)
Inductive drain_pc :=
  | Waiting (listening looping : bool) | Closing (seen : list nat) (rest : list (option store_handle)) | Over.

(** [drain]: none before the signal.  [loopOver]: the loop's promise has settled. *)
Record proc := mkProc { signalled : bool; drain_at : option drain_pc; loopOver : bool; log : list action }.

Definition proc0 : proc := mkProc false None false [].

Definition handles (s : setup) : list (option store_handle) := match trk s with Some (_, l) => l | None => [] end.

(** [onExit]: [process.exit], nothing runs after it. *)
Definition onExit (code : Z) (p : proc) : proc := mkProc (signalled p) (Some Over) (loopOver p) (log p ++ [Exit code]).

(** The loop of [closeStores] up to its next [await]; past its end the drain resolves and
    the process exits. *)
Fixpoint closeStores (seen : list nat) (l : list (option store_handle)) (p : proc) : proc :=
  match l with
  | [] => onExit 0 p
  | None :: r => closeStores seen r p
  | Some h :: r =>
      if negb (closable h) || bool_decide (h_store h ∈ seen) then closeStores seen r p
      else mkProc (signalled p) (Some (Closing (seen ++ [h_store h]) r)) (loopOver p) (log p ++ [CloseStore (h_store h)])
  end.

(** [Promise.all] of the server and the loop. *)
Definition awaitBoth (s : setup) (listening looping : bool) (p : proc) : proc :=
  if listening || looping then mkProc (signalled p) (Some (Waiting listening looping)) (loopOver p) (log p)
  else closeStores [] (handles s) p.

(** [closeServer]: what is not there, or throws, counts as closed. *)
Definition closeServer (s : setup) : bool := match server s with Some throws => negb throws | None => false end.

(** [createTrackerDrain]. *)
Definition drain (s : setup) (p : proc) : proc :=
  let wait p := awaitBoth s (closeServer s) (loopGiven s && negb (loopOver p)) p in
  match trk s with
  | Some (throws, _) =>
      let p := mkProc (signalled p) (drain_at p) (loopOver p) (log p ++ [Stop]) in
      if throws then onExit 1 p else wait p
  | None => wait p
  end.

(** The handler [createShutdown] returns. *)
Definition shutdown (s : setup) (p : proc) : proc :=
  if signalled p then p else drain s (mkProc true (drain_at p) (loopOver p) (log p)).

(** [BudgetExpires]: the hard-exit timer, armed by the first signal.  [StoreCloses]: the
    awaited [close] resolves or rejects. *)
Inductive signal_event := Signal | BudgetExpires | ServerCloses | LoopSettles | StoreCloses (ok : bool).

Definition on_event (s : setup) (e : signal_event) (p : proc) : proc :=
  match drain_at p with
  | Some Over => p
  | _ =>
      match e with
      | Signal => shutdown s p
      | BudgetExpires => if signalled p then onExit 1 p else p
      | ServerCloses => match drain_at p with Some (Waiting _ looping) => awaitBoth s false looping p | _ => p end
      | LoopSettles =>
          let p := mkProc (signalled p) (drain_at p) true (log p) in
          match drain_at p with Some (Waiting listening _) => awaitBoth s listening false p | _ => p end
      | StoreCloses _ => match drain_at p with Some (Closing seen rest) => closeStores seen rest p | _ => p end
      end
  end.

Definition sd_run (s : setup) (es : list signal_event) (p : proc) : proc := foldl (fun p e => on_event s e p) p es.

(** ** What the log looks like *)

Definition can_close (l : list (option store_handle)) (x : nat) : Prop := exists h, Some h ∈ l /\ closable h = true /\ h_store h = x.
Definition stops (s : setup) : list action := match trk s with Some _ => [Stop] | None => [] end.

(** [l] is a run of closes of distinct stores of [s], and [r] what is left of them. *)
Record closed_so_far (s : setup) (l : list nat) (r : list (option store_handle)) : Prop := {
  cs_nodup : NoDup l;
  cs_stores : forall x, can_close (handles s) x <-> x ∈ l \/ can_close r x;
}.

(** The waits before the stores were for events of [all]. *)
Record waited_for (s : setup) (all : list signal_event) (listening looping : bool) : Prop := {
  wt_server : listening = false -> closeServer s = true -> ServerCloses ∈ all;
  wt_loop : looping = false -> loopGiven s = true -> LoopSettles ∈ all;
}.

Definition finished (s : setup) (l : list action) : Prop :=
  exists c ids, l = stops s ++ map CloseStore ids ++ [Exit c] /\ NoDup ids /\ (forall x, x ∈ ids -> can_close (handles s) x)
    /\ (c = 0%Z /\ (forall x, can_close (handles s) x -> x ∈ ids) \/ c = 1%Z).

Definition proc_inv (s : setup) (all : list signal_event) (p : proc) : Prop :=
  (loopOver p = true -> LoopSettles ∈ all)
  /\ match drain_at p with
     | None => signalled p = false /\ log p = []
     | Some (Waiting a b) => signalled p = true /\ log p = stops s /\ waited_for s all a b
     | Some (Closing seen r) => signalled p = true /\ log p = stops s ++ map CloseStore seen /\ closed_so_far s seen r /\ waited_for s all false false
     | Some Over => finished s (log p) /\ ((exists x, CloseStore x ∈ log p) -> waited_for s all false false)
     end.

Lemma can_close_cons o r x : can_close (o :: r) x <-> (exists h, o = Some h /\ closable h = true /\ h_store h = x) \/ can_close r x.
Proof.
  unfold can_close. split.
  - intros (h & [E|Hin]%elem_of_cons & ? & ?); [left; by exists h|right; by exists h].
  - intros [(h & E & ? & ?)|(h & ? & ? & ?)]; exists h; (split; [|done]); apply elem_of_cons; [left; by rewrite E|by right].
Qed.

Lemma closed_skip s seen o r : closed_so_far s seen (o :: r) -> (forall h, o = Some h -> closable h = true -> h_store h ∈ seen) -> closed_so_far s seen r.
Proof.
  intros [H1 H2] Ho. split; [done|]. intros x. rewrite H2, can_close_cons. split; [|by intros [?|?]; [left|right; right]].
  intros [?|[(h & E & Hc & <-)|?]]; [by left|left; by apply Ho|by right].
Qed.

Lemma closed_next s seen h r : closed_so_far s seen (Some h :: r) -> closable h = true -> h_store h ∉ seen -> closed_so_far s (seen ++ [h_store h]) r.
Proof.
  intros [H1 H2] Hc Hn. split.
  - apply NoDup_app. split_and!; [done| |apply NoDup_singleton]. by intros x Hx ->%list_elem_of_singleton.
  - intros x. rewrite H2, can_close_cons, elem_of_app, list_elem_of_singleton. split.
    + intros [?|[(h' & [= <-] & _ & <-)|?]]; [by left; left|by left; right|by right].
    + intros [[?| ->]|?]; [by left|right; left; by exists h|by right; right].
Qed.

Lemma sd_inv_closeStores s all l : forall seen p, signalled p = true -> (loopOver p = true -> LoopSettles ∈ all) ->
  log p = stops s ++ map CloseStore seen -> closed_so_far s seen l -> waited_for s all false false -> proc_inv s all (closeStores seen l p).
Proof.
  induction l as [|[h|] r IH]; intros seen p Hs Hp Hl Hc Hw; cbn [closeStores].
  - split; [done|]. split; [|done]. destruct Hc as [H1 H2]. exists 0%Z, seen. cbn. rewrite Hl, <- app_assoc. split_and!; [done|done| |].
    + intros x Hx. apply H2. by left.
    + left. split; [done|]. intros x Hx. apply H2 in Hx as [?|(h & Hin & _)]; [done|]. by apply elem_of_nil in Hin.
  - destruct (closable h) eqn:Ec; cbn [negb orb]; [case_bool_decide as Hin|].
    + apply IH; try done. apply (closed_skip _ _ (Some h)); [done|]. by intros ? [= <-].
    + split; [done|]. cbn. split_and!; [done| |by apply closed_next|done]. by rewrite Hl, map_app, <- app_assoc.
    + apply IH; try done. apply (closed_skip _ _ (Some h)); [done|]. by intros h' [= <-] ?; congruence.
  - apply IH; try done. by apply (closed_skip _ _ None).
Qed.

Lemma sd_inv_awaitBoth s all a b p : signalled p = true -> (loopOver p = true -> LoopSettles ∈ all) -> log p = stops s -> waited_for s all a b ->
  proc_inv s all (awaitBoth s a b p).
Proof.
  intros Hs Hp Hl Hw. unfold awaitBoth. destruct (a || b) eqn:E; [by split|]. apply orb_false_iff in E as [-> ->].
  apply sd_inv_closeStores; [done|done|by rewrite Hl, app_nil_r| |done].
  split; [constructor|]. intros x. split; [by right|]. intros [Hx|?]; [by apply elem_of_nil in Hx|done].
Qed.

Lemma sd_inv_onExit s all p ids : (loopOver p = true -> LoopSettles ∈ all) -> log p = stops s ++ map CloseStore ids -> NoDup ids ->
  (forall x, x ∈ ids -> can_close (handles s) x) -> (ids <> [] -> waited_for s all false false) -> proc_inv s all (onExit 1 p).
Proof.
  intros Hp Hl Hn Hc Hw. split; [done|]. cbn. rewrite Hl. split.
  - exists 1%Z, ids. rewrite <- app_assoc. split_and!; try done. by right.
  - intros (x & Hx). apply Hw. intros ->. unfold stops in Hx. destruct (trk s); cbn in Hx; set_solver.
Qed.

Lemma sd_inv_drain s all p : (loopOver p = true -> LoopSettles ∈ all) -> signalled p = true -> log p = [] -> proc_inv s all (drain s p).
Proof.
  intros Hp Hs Hl. assert (Hw : waited_for s all (closeServer s) (loopGiven s && negb (loopOver p))).
  { split; [congruence|]. intros E El. rewrite El in E. apply Hp. by destruct (loopOver p). }
  unfold drain, stops. destruct (trk s) as [[throws l]|] eqn:Et.
  - assert (Hst : stops s = [Stop]) by (unfold stops; by rewrite Et). destruct throws.
    + apply (sd_inv_onExit s all _ []); [done|cbn; by rewrite Hl, Hst|constructor|set_solver|done].
    + apply sd_inv_awaitBoth; [done|done|cbn; by rewrite Hl, Hst|done].
  - apply sd_inv_awaitBoth; [done|done|unfold stops; by rewrite Hl, Et|done].
Qed.

Lemma sd_inv_expires s all p : proc_inv s all p -> signalled p = true -> drain_at p <> Some Over -> proc_inv s all (onExit 1 p).
Proof.
  intros [Hp H] Hs Hd. destruct (drain_at p) as [[a b|seen r|]|] eqn:Ed; [| |done|by destruct H; congruence].
  - destruct H as (_ & Hl & _). apply (sd_inv_onExit s all p []); [done|by rewrite Hl, app_nil_r|constructor|set_solver|done].
  - destruct H as (_ & Hl & [H1 H2] & Hw). apply (sd_inv_onExit s all p seen); [done|done|done| |done]. intros x Hx. apply H2. by left.
Qed.

Lemma sd_inv_handle s all e p : proc_inv s all p -> e ∈ all -> proc_inv s all (on_event s e p).
Proof.
  intros H He. unfold on_event. destruct (drain_at p) as [[a b|seen r|]|] eqn:Ed; [| |done|]; pose proof H as [Hp H0]; rewrite Ed in H0.
  - destruct H0 as (Hs & Hl & [Ha Hb]). destruct e.
    + unfold shutdown. by rewrite Hs.
    + rewrite Hs. apply sd_inv_expires; [done|done|by rewrite Ed].
    + apply sd_inv_awaitBoth; try done; by split.
    + apply sd_inv_awaitBoth; try done; by split.
    + done.
  - destruct H0 as (Hs & Hl & Hc & Hw). destruct e.
    + unfold shutdown. by rewrite Hs.
    + rewrite Hs. apply sd_inv_expires; [done|done|by rewrite Ed].
    + done.
    + split; [done|]. by split_and!.
    + by apply sd_inv_closeStores.
  - destruct H0 as (Hs & Hl). destruct e.
    + unfold shutdown. rewrite Hs. by apply sd_inv_drain.
    + by rewrite Hs.
    + done.
    + split; [done|]. by split.
    + done.
Qed.

Lemma sd_inv_run s all es : forall p, proc_inv s all p -> (forall e, e ∈ es -> e ∈ all) -> proc_inv s all (sd_run s es p).
Proof.
  unfold sd_run. induction es as [|e es IH]; intros p H Hall; [done|]. cbn [foldl]. apply IH.
  - apply sd_inv_handle; [done|]. apply Hall, list_elem_of_here.
  - intros e' Hin. by apply Hall, list_elem_of_further.
Qed.

Lemma sd_inv_proc0 s all : proc_inv s all proc0.
Proof. by split. Qed.

(** Once over, always over; once signalled, the timer ends it. *)
Lemma over_run s es : forall p, drain_at p = Some Over -> sd_run s es p = p.
Proof.
  unfold sd_run. induction es as [|e es IH]; intros p Hd; [done|]. cbn [foldl]. assert (E : on_event s e p = p) by (unfold on_event; by rewrite Hd).
  rewrite E. by apply IH.
Qed.

Lemma signalled_closeStores l : forall seen p, signalled (closeStores seen l p) = signalled p.
Proof. induction l as [|[h|] r IH]; intros seen p; cbn [closeStores]; [done| |apply IH]. destruct (_ || _); [apply IH|done]. Qed.

Lemma signalled_awaitBoth s a b p : signalled (awaitBoth s a b p) = signalled p.
Proof. unfold awaitBoth. destruct (a || b); [done|apply signalled_closeStores]. Qed.

Lemma signalled_handle s e p : signalled p = true \/ (e = Signal /\ drain_at p <> Some Over) -> signalled (on_event s e p) = true.
Proof.
  intros H. unfold on_event. assert (Hsh : signalled (shutdown s p) = true).
  { unfold shutdown. destruct (signalled p) eqn:E; [done|]. unfold drain. destruct (trk s) as [[[] l]|]; cbn; by rewrite ?signalled_awaitBoth. }
  assert (Hon : signalled p = true -> signalled (onExit 1 p) = true) by done.
  destruct (drain_at p) as [[a b|seen r|]|] eqn:Ed; [| |by destruct H as [?|[_ ?]]|]; destruct e; try done;
    destruct H as [H|[? _]]; try done; rewrite ?H, ?signalled_awaitBoth, ?signalled_closeStores; cbn [drain_at]; rewrite ?signalled_awaitBoth; done.
Qed.

Lemma signalled_run s es : forall p, signalled p = true -> signalled (sd_run s es p) = true.
Proof. unfold sd_run. induction es as [|e es IH]; intros p H; [done|]. cbn [foldl]. apply IH, signalled_handle. by left. Qed.

Lemma run_app s es es' p : sd_run s (es ++ es') p = sd_run s es' (sd_run s es p).
Proof. unfold sd_run. by rewrite foldl_app. Qed.

Lemma expires_over s p : signalled p = true \/ drain_at p = Some Over -> drain_at (on_event s BudgetExpires p) = Some Over.
Proof.
  intros H. unfold on_event. destruct (drain_at p) as [[]|] eqn:Ed; try done; destruct H as [H|H]; try done; rewrite H; done.
Qed.

End Shutdown.

Import Gate.

(** C18 The gate's counter is exactly the number of admitted requests whose slot is not
    released, whatever the order of arrivals, aborts, handlers and tracked work: it never
    goes below zero nor over the configured cap, a request is shed only when the cap is
    reached, and once every response has ended and every held handler has settled the
    counter is back at zero, so no slot leaks. *)
Theorem gate_counts_its_slots es optLimit :
  let g := gate_run es (createConcurrencyGate optLimit) in
  inFlight g = count_open (requests g)
  /\ (0 <= inFlight g <= Z.max 0 optLimit)%Z
  /\ (forall skip, (concurrencyGate skip g).1 = Shed -> skip = false /\ (0 < optLimit)%Z /\ inFlight g = optLimit)
  /\ ((forall r, r ∈ requests g -> ended r = true) -> (forall h, h ∈ holds g -> h_pc h = Settled) -> inFlight g = 0%Z).
Proof.
  intros g. destruct (gate_inv_run es _ (gate_inv_new optLimit)) as [H1 H2 H3]. fold g in H1, H2, H3.
  assert (Hl : limit g = Z.max 0 optLimit) by (unfold g; rewrite limit_run; cbn; case_bool_decide; lia).
  pose proof (count_nonneg (requests g)) as Hn. split_and!; [done|lia|lia| |].
  - intros skip. unfold concurrencyGate. case_bool_decide as Hz; [done|]. destruct skip; [done|]. cbn [orb].
    case_bool_decide; [|done]. intros _. split_and!; [done|lia|lia].
  - intros Hr Hh. rewrite H1. apply count_closed. intros r Hin. unfold open. destruct (slot_of r) as [s|] eqn:Es; [|done].
    apply list_elem_of_lookup in Hin as (i & Hi). destruct (H3 i r s Hi Es) as [->|[[_ E]|(k & h & Hk & _ & Hp)]]; [done| |].
    + by rewrite Hr in E by (by eapply list_elem_of_lookup_2).
    + destruct Hp. apply Hh. by eapply list_elem_of_lookup_2.
Qed.

(** A request that is aborted while its handler runs, and a second one that answers. *)
Definition abort_then_answer : list gate_event :=
  [Arrives false; Enters 0; ResponseEnds 0; Arrives false; Arrives false; HandlerSettles 0; Arrives false; ResponseEnds 1; ResponseEnds 1; ResponseEnds 2].

Lemma gate_counts_its_slots_witness :
  let g := gate_run abort_then_answer (createConcurrencyGate 2) in
  inFlight g = 0%Z /\ shed g = 1%Z.
Proof.
  split; [|reflexivity]. apply (gate_counts_its_slots abort_then_answer 2).
  - apply Forall_forall. vm_compute. repeat constructor.
  - apply Forall_forall. vm_compute. repeat constructor.
Defined.

(** C19 Work that a held handler starts and never awaits outlives the socket: from the
    moment [trackWork] registers a promise on a slot that its hold still owns, whatever
    happens next (the client aborts, the handler returns, other requests come and go, more
    work is registered while the hold drains), the slot is released only after the promise
    has settled, so as long as it has not the request counts against the cap. *)
Theorem tracked_work_outlives_the_socket es0 optLimit i k p es :
  owns i k (gate_run es0 (createConcurrencyGate optLimit)) -> Enters i ∉ es ->
  let g := gate_run es (trackWork i p (gate_run es0 (createConcurrencyGate optLimit))) in
  exists s, get_slot i g = Some s /\ (released s = true -> p ∈ settled g) /\ (p ∉ settled g -> (1 <= inFlight g)%Z).
Proof.
  intros Hown He g. destruct (owns_track i k p _ Hown) as [HA Ho].
  destruct (answers_run i k p es _ HA Ho He) as [(s & Hs & _ & _ & Hset) _]. exists s. split_and!; [done|done|].
  intros Hp. assert (Hinv : gate_inv g) by apply gate_inv_run, gate_inv_tracks, gate_inv_run, gate_inv_new. rewrite (gi_count g Hinv).
  apply get_slot_request in Hs as (r & Hi & Hr). apply (count_pos _ i r); [done|]. unfold open. rewrite Hr.
  destruct (released s); [|done]. by destruct Hp; apply Hset.
Qed.

Lemma tracked_work_outlives_the_socket_witness :
  (exists s, get_slot 0 (gate_run [ResponseEnds 0; HandlerSettles 0; Wakes 0] (trackWork 0 7 (gate_run [Arrives false; Enters 0] (createConcurrencyGate 1)))) = Some s
     /\ released s = false)
  /\ exists s, get_slot 0 (gate_run [ResponseEnds 0; HandlerSettles 0; Settles 7; Wakes 0] (trackWork 0 7 (gate_run [Arrives false; Enters 0] (createConcurrencyGate 1)))) = Some s
     /\ released s = true.
Proof.
  assert (Hown : owns 0 0 (gate_run [Arrives false; Enters 0] (createConcurrencyGate 1))).
  { change (gate_run [Arrives false; Enters 0] (createConcurrencyGate 1)) with (heldHandler 0 (gate_run [Arrives false] (createConcurrencyGate 1))).
    change 0 with (length (holds (gate_run [Arrives false] (createConcurrencyGate 1)))) at 2.
    apply (enter_owns 0 _ (mkSlot false false [])); [reflexivity|reflexivity|]. intros k h E. cbn in E. discriminate E. }
  split.
  - destruct (tracked_work_outlives_the_socket [Arrives false; Enters 0] 1 0 0 7 [ResponseEnds 0; HandlerSettles 0; Wakes 0] Hown) as (s & Hs & Hr & _).
    + rewrite !not_elem_of_cons. split_and!; [done..|apply not_elem_of_nil].
    + exists s. split; [exact Hs|]. destruct (released s) eqn:E; [|done]. specialize (Hr eq_refl).
      assert (E0 : settled (gate_run [ResponseEnds 0; HandlerSettles 0; Wakes 0] (trackWork 0 7 (gate_run [Arrives false; Enters 0] (createConcurrencyGate 1)))) = ∅) by reflexivity.
      rewrite E0 in Hr. by apply elem_of_empty in Hr.
  - exists (mkSlot true true []). split; vm_compute; reflexivity.
Defined.

(** C20 The shutdown drains in order and ends the process once.  Whatever signals, socket
    closes and timers come in whatever order, the log of the process is empty, or the stop
    of the tracker and the closes so far, or the whole run ended by one exit: [0] after
    every store handle was closed exactly once, [1] otherwise.  No store is closed before
    the server stopped listening and the block loop ended, and the budget's timer ends
    every process that was signalled. *)
Theorem shutdown_drains_in_order s es :
  let p := Shutdown.sd_run s es Shutdown.proc0 in
  (Shutdown.drain_at p = Some Shutdown.Over -> Shutdown.finished s (Shutdown.log p))
  /\ (Shutdown.drain_at p <> Some Shutdown.Over -> forall c, Shutdown.Exit c ∉ Shutdown.log p)
  /\ (forall x, Shutdown.CloseStore x ∈ Shutdown.log p ->
        (Shutdown.closeServer s = true -> Shutdown.ServerCloses ∈ es) /\ (Shutdown.loopGiven s = true -> Shutdown.LoopSettles ∈ es))
  /\ (forall a b c, es = a ++ Shutdown.Signal :: b ++ Shutdown.BudgetExpires :: c -> Shutdown.drain_at p = Some Shutdown.Over).
Proof.
  intros p. destruct (Shutdown.sd_inv_run s es es _ (Shutdown.sd_inv_proc0 s es) (fun e H => H)) as [_ H]. fold p in H. split_and!.
  - intros E. rewrite E in H. apply H.
  - intros Hn c Hc. destruct (Shutdown.drain_at p) as [[a b|seen r|]|]; [| |done|]; destruct H as (_ & H).
    + destruct H as (E & _). rewrite E in Hc. unfold Shutdown.stops in Hc. destruct (Shutdown.trk s); set_solver.
    + destruct H as (E & _). rewrite E in Hc. apply elem_of_app in Hc as [Hc|(x & ? & _)%list_elem_of_fmap]; [|done].
      unfold Shutdown.stops in Hc. destruct (Shutdown.trk s); set_solver.
    + rewrite H in Hc. by apply elem_of_nil in Hc.
  - intros x Hx. assert (Hw : Shutdown.waited_for s es false false); [|by destruct Hw; split; auto].
    destruct (Shutdown.drain_at p) as [[a b|seen r|]|].
    + destruct H as (_ & E & _). rewrite E in Hx. unfold Shutdown.stops in Hx. destruct (Shutdown.trk s); set_solver.
    + apply H.
    + apply H. by exists x.
    + destruct H as (_ & E). rewrite E in Hx. by apply elem_of_nil in Hx.
  - intros a b c E. unfold p. rewrite E. change (Shutdown.Signal :: b ++ Shutdown.BudgetExpires :: c) with ([Shutdown.Signal] ++ b ++ [Shutdown.BudgetExpires] ++ c).
    rewrite !Shutdown.run_app. set (q := Shutdown.sd_run s b _).
    assert (Hq : Shutdown.drain_at (Shutdown.on_event s Shutdown.BudgetExpires q) = Some Shutdown.Over).
    { apply Shutdown.expires_over. set (q0 := Shutdown.sd_run s a Shutdown.proc0) in q. destruct (Shutdown.drain_at q0) as [[| |]|] eqn:Ed.
      3: { right. unfold q. rewrite Shutdown.over_run; [|rewrite Shutdown.over_run; done]. by rewrite Shutdown.over_run. }
      all: left; apply Shutdown.signalled_run; apply Shutdown.signalled_handle; right; by rewrite Ed. }
    change (Shutdown.sd_run s [Shutdown.BudgetExpires] q) with (Shutdown.on_event s Shutdown.BudgetExpires q). by rewrite Shutdown.over_run.
Qed.

(** A second signal, the loop and the server in either order, a store that refuses. *)
Lemma shutdown_drains_in_order_witness :
  let s := Shutdown.mkSetup (Some (false, [Some (Shutdown.mkHandle 1 true); None; Some (Shutdown.mkHandle 1 true); Some (Shutdown.mkHandle 2 true)])) (Some false) true in
  let es := [Shutdown.Signal; Shutdown.LoopSettles; Shutdown.Signal; Shutdown.ServerCloses; Shutdown.StoreCloses false; Shutdown.StoreCloses true; Shutdown.BudgetExpires] in
  Shutdown.log (Shutdown.sd_run s es Shutdown.proc0) = [Shutdown.Stop; Shutdown.CloseStore 1; Shutdown.CloseStore 2; Shutdown.Exit 0]
  /\ Shutdown.finished s (Shutdown.log (Shutdown.sd_run s es Shutdown.proc0)).
Proof. intros s es. split; [reflexivity|]. apply (shutdown_drains_in_order s es). reflexivity. Defined.
