(* ===== verification/Api.v ===== *)
(** What a request meets around the queries ([api/startup.js], [api/routes.js],
    [api/sync_status.js], [api.js]): the guard of the admin methods, the page options, and
    the three surfaces a caller gates on: [get_sync_status], the freshness that rides on
    every answer, and [GET /status].  Sending the answer is Express. *)

From S2P Require Import Prelude KeyCodec ChainParams LevelDb Store Tracker Rollback Parsing SyncLoop Queries Json Startup Connector.

#[local] Open Scope string_scope.
#[local] Open Scope nat_scope.
#[local] Open Scope list_scope.

(** * Values of a request *)

(** [String(v)]. *)
Fixpoint js_string (v : json) : string :=
  match v with
  | JNull => "null"
  | JBool b => if b then "true" else "false"
  | JInt z => to_radix 10 z
  | JStr s => s
  | JArr l =>
      (fix items (first : bool) (l : list json) : string :=
         match l with
         | [] => ""
         | v :: r =>
             let text := match v with JNull => "" | _ => js_string v end in
             String.append (if first then text else String.append "," text) (items false r)
         end) true l
  | JObj _ => "[object Object]"
  end.

(** [Number(v)]: [None] is [NaN] or no integer. *)
Definition js_number (v : json) : option Z :=
  let of_text s := if bool_decide (trim s = "") then Some 0%Z else Number (trim s) in
  match v with
  | JNull => Some 0%Z
  | JBool b => Some (if b then 1 else 0)%Z
  | JInt z => Some z
  | JStr s => of_text s
  | JArr _ => of_text (js_string v)
  | JObj _ => None
  end.

(** [v.k] of what a request carries: an own field of an object. *)
Definition property (k : string) (v : json) : option json := match v with JObj l => field k l | _ => None end.

(** * The admin guard *)

Definition ADMIN_METHODS : list string :=
  ["getbootstrap"; "getbootstrapstatus"; "restorebootstrap"; "getbootstraprestorestatus"; "get_input_from_key_pattern"].

Record api_config := mkApiConfig {
  MAX_JSONRPC_BATCH : nat; MAX_PAGE_LIMIT : Z; UTXO_TRACKER_API_KEY : option string }.

Definition keyEquals (provided expected : string) : bool :=
  if negb (bool_decide (String.length provided = String.length expected)) then false
  else String.eqb provided expected.

(** [next()], or what is answered instead: a status and a JSON-RPC error. *)
Inductive guard_outcome := Next | Refuse (status code : Z) (id : json).

Definition request_entries (body : option json) : list (option json) :=
  match body with Some (JArr l) => Some <$> l | _ => [body] end.

Definition method_of (e : option json) : option string :=
  match e ≫= property "method" with Some (JStr m) => Some m | _ => None end.

Definition names_admin (e : option json) : bool :=
  match method_of e with Some m => bool_decide (toLowerCase m ∈ ADMIN_METHODS) | None => false end.

(** [(!Array.isArray(body) && body && body.id) || null]. *)
Definition reply_id (body : option json) : json :=
  match body with
  | Some (JArr _) | None => JNull
  | Some b => let id := property "id" b in if truthy id then default JNull id else JNull
  end.

Definition set_text (o : option string) : option string := s ← o; if bool_decide (s = "") then None else Some s.

Definition authorized (cfg : api_config) (authorization : option string) : bool :=
  match set_text (UTXO_TRACKER_API_KEY cfg), set_text authorization with
  | Some key, Some header => keyEquals header (String.append "Bearer " key)
  | _, _ => false
  end.

Definition too_large (cfg : api_config) (body : option json) : bool :=
  match body with Some (JArr l) => MAX_JSONRPC_BATCH cfg <? length l | _ => false end.

Definition adminGuard (cfg : api_config) (body : option json) (authorization : option string) : guard_outcome :=
  if too_large cfg body then Refuse 400 (-32600) JNull
  else
    let wantsAdmin := existsb names_admin (request_entries body) in
    if wantsAdmin && negb (authorized cfg authorization) then Refuse 401 (-32001) (reply_id body) else Next.

(** * Page options *)

Record page_opts := mkPageOpts { po_limit : option Z; po_after : option string }.



Definition given (o : option json) : option json :=
  match o with Some JNull | None => None | Some (JStr s) => if bool_decide (s = "") then None else o | _ => o end.

Definition parsePageOpts (maxPageLimit : Z) (limit after : option json) : res page_opts :=
  limit ← match given limit with
          | None => Ok None
          | Some v =>
              match js_number v with
              | Some n => if bool_decide (n <= 0)%Z then Err (Error EBadRequest) else Ok (Some (Z.min n maxPageLimit))
              | None => Err (Error EBadRequest)
              end
          end;
  Ok (mkPageOpts limit (js_string <$> given after)).

(** * What a caller gates on *)

Definition deriveHealthStatus (halted dbOk : bool) : string :=
  if halted then "halted" else if dbOk then "healthy" else "unhealthy".

(** [None]: the loop never read a node tip. *)
Definition isNodeRpcStale (lastNodeRpcOkAt : option Z) (now windowMs : Z) : bool :=
  match lastNodeRpcOkAt with Some t => bool_decide (windowMs < now - t)%Z | None => false end.

Definition deriveSyncedVerdict (lag : option Z) (nodeHeightStale : bool) : bool :=
  if nodeHeightStale then false
  else match lag with Some d => bool_decide (0 <= d)%Z && bool_decide (d <= SYNCED_THRESHOLD)%Z | None => false end.

(** What the surfaces read besides the tracker: the clock, the stamps, the knob. *)
Record ambient := mkAmbient {
  now : Z; lastNodeRpcOkAt : option Z; NODE_RPC_STALE_MS : Z;
  rpcFailures : Z; lastMempoolErrorAt : option Z; conn : connector }.

Definition loop_stale (a : ambient) : bool := isNodeRpcStale (lastNodeRpcOkAt a) (now a) (NODE_RPC_STALE_MS a).

(** [Date.now() - lastNodeRpcOkAt], sent while stale. *)
Definition stale_for_ms (a : ambient) : option Z := if loop_stale a then (fun t => now a - t)%Z <$> lastNodeRpcOkAt a else None.

Definition lag_of (nodeHeight committedHeight : option Z) : option Z :=
  match nodeHeight, committedHeight with
  | Some n, Some c => if bool_decide (0 <= n)%Z && bool_decide (0 <= c)%Z then Some (n - c)%Z else None
  | _, _ => None
  end.

Record sync_status := mkSyncStatus {
  ss_committed_height : option Z; ss_node_height : option Z; ss_lag : option Z; ss_synced : bool;
  ss_stale_for_ms : option Z; ss_mempool_ready : bool; ss_node_height_stale : bool;
  ss_mempool_failures : option (Z * option Z); ss_reorg_count : Z; ss_last_reorg_depth : Z;
  ss_node_catching_up : option catch_up; ss_reach : reachability;
  ss_undo_window_blocks : Z; ss_undo_window_remaining : Z; ss_undo_window_watermark : Z;
  ss_block_fetch_desync : option (Z * Z); ss_halt : option halt_info }.

(** The freshness that rides on an answer. *)
Record freshness_meta := mkFreshnessMeta {
  fm_freshness : freshness; fm_node_catching_up : option catch_up; fm_reach : reachability;
  fm_reorg_count : Z; fm_committed_hash : option string; fm_mempool_epoch : option Z }.

Record status_reply := mkStatusReply {
  sr_code : Z; sr_status : string; sr_db : bool; sr_committed_height : option Z; sr_meta : freshness_meta;
  sr_desync : option (Z * Z); sr_node_height_stale : bool; sr_halt : option halt_info; sr_stale_for_ms : option Z }.

Definition undoWindowWatermarkField (w : window) : Z :=
  if bool_decide (undoWindowWatermark w <= 0)%Z then 0 else Z.min (undoWindowWatermark w) (undoBlocks w).

Section surfaces.
Context {DB : Type} `{LevelDb DB}.
Implicit Type p : process DB.

Abbreviation stat_of p := (stat (p_trk p)).

Definition halt_of p : option halt_info :=
  if halted p then Some (mkHaltInfo (haltReason p) (haltedAt p) (haltedHeight p)) else None.

(** A read of the store; a closed one throws. *)
Definition readHeight p : res (option Z) := (on_open_db getLastBlockHeight p).1.

Definition height_or p : option Z := match readHeight p with Ok h => h | Err _ => Some (-1)%Z end.

(** [answer]: what [blockchainInfoWithDeadline] settles with, its [blocks]. *)
Definition get_sync_status (a : ambient) (answer : res (option Z)) p : sync_status :=
  let committedHeight := height_or p in
  let '(nodeHeight, failed) :=
    match answer with
    | Ok blocks => (blocks, false)
    | Err _ => (Some (default (-1)%Z (match latestKnownChainTip (stat_of p) with Some h => Some h | None => blockchainInfoLastBlock (stat_of p) end)), true)
    end in
  let nodeHeightStale := failed || loop_stale a in
  let lag := lag_of nodeHeight committedHeight in
  let synced := deriveSyncedVerdict lag nodeHeightStale && negb (halted p) in
  mkSyncStatus committedHeight nodeHeight lag synced (stale_for_ms a)
    (synced && mempoolReconverged (stat_of p)) nodeHeightStale
    (if bool_decide (0 < rpcFailures a)%Z then Some (rpcFailures a, lastMempoolErrorAt a) else None)
    (reorgCount (stat_of p)) (lastReorgDepth (stat_of p)) (nodeCatchingUp (stat_of p)) (nodeReachability (now a) (conn a))
    (undoBlocks (win (p_trk p))) (Z.of_nat (length (lastBlocks (win (p_trk p))))) (undoWindowWatermarkField (win (p_trk p)))
    (blockFetchDesync (stat_of p)) (halt_of p).

(** [known]: the height a caller already read; [readAt]: the snapshot a page was read at. *)
Definition getFreshnessMeta (a : ambient) (known : option (option Z)) (readAt : option snapshot) p : freshness_meta :=
  let committedHeight := match known with Some h => h | None => height_or p end in
  let rawTip := match latestKnownChainTip (stat_of p) with
                | Some h => h
                | None => default (-1)%Z (blockchainInfoLastBlock (stat_of p))
                end in
  let reconverged := match readAt with Some s => sn_mempoolReconverged s | None => mempoolReconverged (stat_of p) end in
  mkFreshnessMeta
    (computeFreshness committedHeight (Some rawTip) (synced (stat_of p))
       (mkFreshState reconverged (halted p) (haltReason p) (haltedAt p) (haltedHeight p) (loop_stale a)))
    (nodeCatchingUp (stat_of p)) (nodeReachability (now a) (conn a))
    (match readAt with Some s => sn_reorgCount s | None => reorgCount (stat_of p) end)
    (readAt ≫= sn_committedHash) (sn_mempoolEpoch <$> readAt).

(** [GET /status]: the code, the word, the refusal keys. *)
Definition statusRoute (a : ambient) p : status_reply :=
  let dbOk := match readHeight p with Ok _ => true | Err _ => false end in
  let committedHeight := height_or p in
  let freshness := getFreshnessMeta a (Some committedHeight) None p in
  let nodeRpcStale := loop_stale a in
  let height_stale := nodeRpcStale || bool_decide (is_Some (node_unreachable (fm_reach freshness))) in
  if halted p then mkStatusReply 503 "halted" dbOk committedHeight freshness (blockFetchDesync (stat_of p)) height_stale (halt_of p) None
  else mkStatusReply (if negb dbOk || nodeRpcStale then 503 else 200)
         (if negb dbOk then "degraded" else if nodeRpcStale then "stalled" else "ok")
         dbOk committedHeight freshness (blockFetchDesync (stat_of p)) height_stale None (stale_for_ms a).

Definition health (a : ambient) (answer : res (option Z)) p : string * bool * sync_status :=
  let dbOk := match readHeight p with Ok _ => true | Err _ => false end in
  (deriveHealthStatus (halted p) dbOk, dbOk, get_sync_status a answer p).
End surfaces.

(** * Theorems *)

Lemma keyEquals_spec a b : keyEquals a b = true <-> a = b.
Proof.
  unfold keyEquals. case_bool_decide as E; cbn [negb]; [apply String.eqb_eq|]. split; [done|]. by intros ->.
Qed.

Lemma authorized_spec cfg h : authorized cfg h = true <-> exists k, UTXO_TRACKER_API_KEY cfg = Some k /\ k <> "" /\ h = Some (String.append "Bearer " k).
Proof.
  unfold authorized, set_text. destruct (UTXO_TRACKER_API_KEY cfg) as [k|]; cbn; [|split; [done|by intros (?&?&_)]].
  case_bool_decide as Ek; cbn.
  - split; [done|]. intros (k' & [= <-] & ? & _). done.
  - destruct h as [t|]; cbn; [|split; [done|by intros (?&_&_&?)]]. case_bool_decide as Et.
    + split; [done|]. intros (k' & _ & _ & [= ->]). done.
    + rewrite keyEquals_spec. split; [intros ->; by exists k|]. by intros (k' & [= <-] & _ & [= ->]).
Qed.

(** C17 The admin methods need the key.  A request passes the guard exactly when its batch is
    within the cap and, if any of its entries names an admin method, in any letter case and
    at any place of the batch, a key is configured and the header carries it; so without a
    configured key no request with an admin method ever passes. *)
Theorem admin_methods_need_the_key cfg body authorization :
  adminGuard cfg body authorization = Next <->
  (forall l, body = Some (JArr l) -> length l <= MAX_JSONRPC_BATCH cfg)
  /\ (forall e m, e ∈ request_entries body -> method_of e = Some m -> toLowerCase m ∈ ADMIN_METHODS ->
        exists k, UTXO_TRACKER_API_KEY cfg = Some k /\ k <> "" /\ authorization = Some (String.append "Bearer " k)).
Proof.
  assert (Hl : too_large cfg body = false <-> forall l, body = Some (JArr l) -> length l <= MAX_JSONRPC_BATCH cfg).
  { unfold too_large. destruct body as [[]|]; try (split; [by intros _ ? [=]|done]). rewrite Nat.ltb_ge. split; [by intros ? ? [= <-]|]. intros H. by apply H. }
  assert (Hw : existsb names_admin (request_entries body) = true <-> exists e m, e ∈ request_entries body /\ method_of e = Some m /\ toLowerCase m ∈ ADMIN_METHODS).
  { rewrite existsb_exists. unfold names_admin. split.
    - intros (e & Hin & He). destruct (method_of e) as [m|] eqn:Em; [|done]. apply bool_decide_eq_true in He. exists e, m. by rewrite <- list_elem_of_In in Hin.
    - intros (e & m & Hin & Em & Hm). exists e. rewrite <- list_elem_of_In, Em. split; [done|]. by apply bool_decide_eq_true. }
  unfold adminGuard. rewrite <- Hl. destruct (too_large cfg body); [split; [done|by intros [? _]]|].
  destruct (existsb names_admin (request_entries body)) eqn:Ew.
  - apply proj1 in Hw. specialize (Hw eq_refl) as (e & m & Hin & Em & Hm). destruct (authorized cfg authorization) eqn:Ea; cbn.
    + apply authorized_spec in Ea. split; [|done]. intros _. split; [done|]. by intros.
    + split; [done|]. intros [_ H]. rewrite (proj2 (authorized_spec _ _) (H e m Hin Em Hm)) in Ea. done.
  - cbn. split; [|done]. intros _. split; [done|]. intros e m Hin Em Hm. exfalso. discriminate (proj2 Hw (ex_intro _ e (ex_intro _ m (conj Hin (conj Em Hm))))).
Qed.

(** An admin method hidden in a batch, with the wrong key, then the right one. *)
Lemma admin_methods_need_the_key_witness :
  let cfg := mkApiConfig 100 10000 (Some "secret") in
  let body := Some (JArr [JObj [("method", JStr "get_info")]; JObj [("method", JStr "RestoreBootstrap")]]) in
  adminGuard cfg body (Some "Bearer secre") = Refuse 401 (-32001) JNull
  /\ exists k, UTXO_TRACKER_API_KEY cfg = Some k /\ k <> "" /\ Some "Bearer secret" = Some (String.append "Bearer " k).
Proof.
  intros cfg body. split; [reflexivity|].
  apply (proj2 (proj1 (admin_methods_need_the_key cfg body (Some "Bearer secret")) eq_refl) (Some (JObj [("method", JStr "RestoreBootstrap")])) "RestoreBootstrap").
  - apply list_elem_of_further, list_elem_of_here.
  - reflexivity.
  - apply list_elem_of_further, list_elem_of_further, list_elem_of_here.
Defined.

Lemma deriveSyncedVerdict_spec lag stale : deriveSyncedVerdict lag stale = true <-> stale = false /\ exists d, lag = Some d /\ (0 <= d <= SYNCED_THRESHOLD)%Z.
Proof.
  unfold deriveSyncedVerdict. destruct stale; [split; [done|by intros [? _]]|]. destruct lag as [d|]; [|split; [done|by intros (_&?&?&_)]].
  rewrite andb_true_iff, !bool_decide_eq_true. split; [intros ?; split; [done|by exists d]|]. by intros (_ & ? & [= <-] & ?).
Qed.

Lemma lag_of_spec n c d : lag_of n c = Some d <-> exists n' c', n = Some n' /\ c = Some c' /\ (0 <= n')%Z /\ (0 <= c')%Z /\ d = (n' - c')%Z.
Proof.
  unfold lag_of. split.
  - destruct n as [n|]; [|done]. destruct c as [c|]; [|done]. case_bool_decide; [|done]. case_bool_decide; [|done]. intros [= <-]. by exists n, c.
  - intros (n' & c' & -> & -> & ? & ? & ->). by rewrite !bool_decide_eq_true_2.
Qed.

Section theorems.
Context {DB : Type} `{LevelDb DB}.
Implicit Type p : process DB.

(** Readiness is never overstated, on any of the surfaces a caller gates on.
    [get_sync_status] says synced exactly when the tracker is not halted, the node answered,
    the loop's own tip read is recent and the committed height is at most
    [SYNCED_THRESHOLD] below the node's tip and not above it; the freshness of an answer
    says synced only with the latch set, no halt, a recent tip read and no committed height
    above the node's; [GET /status] answers 200 exactly for a readable store, a recent tip
    read and no halt.  A synced tracker always passes the probe, a ready mempool always
    means synced, and a halted tracker is refused by all three, with the marker. *)
Theorem readiness_is_never_overstated (a : ambient) (answer : res (option Z)) (known : option (option Z)) (readAt : option snapshot) p :
  let s := get_sync_status a answer p in
  let f := fm_freshness (getFreshnessMeta a known readAt p) in
  let r := statusRoute a p in
  (ss_synced s = true <->
     halted p = false /\ loop_stale a = false
     /\ exists n c, answer = Ok (Some n) /\ readHeight p = Ok (Some c) /\ (0 <= c)%Z /\ (0 <= n - c <= SYNCED_THRESHOLD)%Z)
  /\ (fr_synced f = true -> synced (stat (p_trk p)) = true /\ halted p = false /\ loop_stale a = false
       /\ forall d, fr_lag f = Some d -> (0 <= d)%Z)
  /\ (sr_code r = 200%Z <-> halted p = false /\ loop_stale a = false /\ exists h, readHeight p = Ok h)
  /\ (sr_code r <> 200%Z -> sr_code r = 503%Z)
  /\ (ss_synced s = true -> sr_code r = 200%Z /\ sr_status r = "ok")
  /\ (ss_mempool_ready s = true -> ss_synced s = true) /\ (fr_mempool_ready f = true -> fr_synced f = true)
  /\ (halted p = true -> sr_status r = "halted" /\ ss_halt s = sr_halt r /\ fr_halt f = sr_halt r /\ is_Some (sr_halt r)).
Proof.
  intros s f r.
  assert (Hs : ss_synced s = true <-> halted p = false /\ loop_stale a = false
     /\ exists n c, answer = Ok (Some n) /\ readHeight p = Ok (Some c) /\ (0 <= c)%Z /\ (0 <= n - c <= SYNCED_THRESHOLD)%Z).
  { unfold s, get_sync_status. destruct answer as [blocks|e]; cbn [ss_synced].
    - rewrite andb_true_iff, negb_true_iff, deriveSyncedVerdict_spec. cbn [orb]. unfold height_or. split.
      + intros [[Hl (d & (n & c & -> & Ec & ? & ? & ->)%lag_of_spec & ?)] Hh]. split_and!; [done|done|]. destruct (readHeight p) as [h|]; [|by injection Ec as <-].
        exists n, c. by rewrite Ec.
      + intros (Hh & Hl & n & c & [= ->] & -> & ? & ?). split; [|done]. split; [done|]. exists (n - c)%Z. split; [|done].
        apply lag_of_spec. exists n, c. split_and!; (done || lia).
    - cbn [orb]. split; [|by intros (_ & _ & ? & ? & ? & _)]. rewrite andb_true_iff, deriveSyncedVerdict_spec. by intros [[? _] _]. }
  assert (Hr : sr_code r = 200%Z <-> halted p = false /\ loop_stale a = false /\ exists h, readHeight p = Ok h).
  { unfold r, statusRoute. destruct (halted p); cbn; [split; [done|by intros [? _]]|]. destruct (readHeight p) as [h|]; cbn.
    - destruct (loop_stale a); split; [done|by intros (_ & ? & _)|intros _; split_and!; eauto|done].
    - split; [done|]. by intros (_ & _ & ? & ?). }
  assert (Hm : ss_mempool_ready s = true -> ss_synced s = true).
  { unfold s, get_sync_status. destruct answer; cbn [ss_mempool_ready ss_synced]; by intros [? _]%andb_true_iff. }
  assert (Hf : fr_mempool_ready f = true -> fr_synced f = true) by (unfold f, getFreshnessMeta, computeFreshness; cbn [fm_freshness fr_mempool_ready fr_synced]; by intros [? _]%andb_true_iff).
  split_and!; [done| |done| | |done|done|].
  - unfold f, getFreshnessMeta, computeFreshness. cbn [fm_freshness fr_synced fr_lag fs_nodeHeightStale fs_halted].
    rewrite !andb_true_iff, !negb_true_iff. intros [[[Hl Ho] Hst] Hh]. split_and!; [done..|]. intros d E. rewrite E in Ho. apply bool_decide_eq_false in Ho. lia.
  - unfold r, statusRoute. destruct (halted p); cbn; [done|]. by destruct (negb _ || _).
  - intros E. apply Hs in E as (Hh & Hst & n & c & _ & Ec & _). split; [apply Hr; eauto|]. unfold r, statusRoute. rewrite Hh, Hst, Ec. done.
  - intros Hh. unfold r, s, f, statusRoute, getFreshnessMeta, computeFreshness, get_sync_status, halt_of. rewrite Hh.
    destruct answer; cbn; eauto.
Qed.
End theorems.
