(* ===== verification/Restore.v ===== *)
(** The bootstrap snapshots ([bootstrap/restore_validation.js], [api/errors.js] and
    [api/errors/archive_identity.js], [api/compression.js],
    [bootstrap/bootstrap_recovery.js] and the admin methods of [api/routes.js]): the gates
    an archive passes before the data directory is wiped, and the admin operations as a
    state machine over the tracker's lifecycle: [launchTracker] of [api.js], the stages of
    [start()] ([sync_loop.js]), [stopParsing] and the halt; [Startup] has these methods in
    full, here only the flags, stores and calls that the operations meet are kept.  The files, [tar], [pigz] and the cryptography are the host: a parameter. *)

From S2P Require Import Prelude KeyCodec ChainParams Json Connector Api.

#[local] Open Scope string_scope.
#[local] Open Scope nat_scope.
#[local] Open Scope list_scope.

(** * Texts *)

Fixpoint drop_slashes (s : string) : string :=
  match s with String.String "/" r => drop_slashes r | _ => s end.

(** [s.trim().replace(/\/+$/, '')]. *)
Definition clean_member (raw : string) : string := rev_string (drop_slashes (rev_string (trim raw) "")) "".

(** Around the last slash. *)
Fixpoint split_last_slash (s : string) : option (string * string) :=
  match s with
  | String.EmptyString => None
  | String.String c r =>
      match split_last_slash r with
      | Some (a, b) => Some (String.String c a, b)
      | None => if bool_decide (c = "/"%char) then Some ("", r) else None
      end
  end.

(** [path.posix.basename] and [path.posix.dirname] of a path that does not end in a slash. *)
Definition basename (s : string) : string := match split_last_slash s with Some (_, b) => b | None => s end.
Definition dirname (s : string) : string :=
  match split_last_slash s with
  | Some (a, _) => if bool_decide (a = "") then "/" else if bool_decide (a = "/") then "//" else a
  | None => "."
  end.

Definition WRAPPER_MEMBER_NAMES : list string := ["data.tar.gz"; "data.sha256"].

Definition isWrapperArchive (memberNames : list string) : bool :=
  existsb (fun raw => bool_decide (basename (clean_member raw) ∈ WRAPPER_MEMBER_NAMES)) memberNames.

Definition memberParts (raw : string) : string * string :=
  let clean := clean_member raw in
  let dir := dirname clean in
  (if bool_decide (dir = "." \/ dir = "/") then ""
   else match strip_prefix "./" dir with Some r => r | None => dir end, basename clean).

(** [/^MANIFEST-\d+$/]. *)
Definition is_manifest (base : string) : bool :=
  match strip_prefix "MANIFEST-" base with
  | Some r => let '(ds, rest) := span_chars is_digit r in negb (bool_decide (ds = "")) && bool_decide (rest = "")
  | None => false
  end.

Definition hasRequiredLevelDbMembers (memberNames : list string) : bool :=
  let at_root (ok : string -> bool) raw := let '(dir, base) := memberParts raw in bool_decide (dir = "") && ok base in
  existsb (at_root (fun base => bool_decide (base = "CURRENT"))) memberNames && existsb (at_root is_manifest) memberNames.

Definition is_hex_char (c : Ascii.ascii) : bool :=
  let n := Ascii.nat_of_ascii c in
  ((48 <=? n) && (n <=? 57)) || ((65 <=? n) && (n <=? 70)) || ((97 <=? n) && (n <=? 102)).
Definition is_word_char (c : Ascii.ascii) : bool :=
  let n := Ascii.nat_of_ascii c in
  ((48 <=? n) && (n <=? 57)) || ((65 <=? n) && (n <=? 90)) || ((97 <=? n) && (n <=? 122)) || (n =? 95).

(** [n] hexadecimal digits that end at a word boundary. *)
Fixpoint hex_word (n : nat) (s : string) : option string :=
  match n with
  | O => match s with String.String c _ => if is_word_char c then None else Some "" | String.EmptyString => Some "" end
  | S m =>
      match s with
      | String.String c r => if is_hex_char c then String.String c <$> hex_word m r else None
      | String.EmptyString => None
      end
  end.

(** The first match of [/\b[0-9a-fA-F]{64}\b/]. *)
Fixpoint match_digest (after_word : bool) (s : string) : option string :=
  match (if after_word then None else hex_word 64 s) with
  | Some d => Some d
  | None => match s with String.String c r => match_digest (is_word_char c) r | String.EmptyString => None end
  end.

Definition parseSha256Sidecar (text : string) : option string := toLowerCase <$> match_digest false text.

(** [s.split(/\s+/)]: the words of a text that neither starts nor ends in white space. *)
Fixpoint words (s : string) : list string :=
  match s with
  | String.EmptyString => [""]
  | String.String c r =>
      if is_space c then (match words r with "" :: (_ :: _) as w => w | w => "" :: w end)
      else match words r with w :: ws => String.String c w :: ws | [] => [String.String c ""] end
  end.

(** * Identity *)

Record archive_id := mkArchiveId { id_module : option string; id_coin : option string; id_network : option string }.

Definition TRACKER_MODULE : string := "xchain-utxo-tracker".

(** [None]: no string, or a blank one. *)
Definition identityValue (value : option string) : option string :=
  v ← value; let v := toLowerCase (trim v) in if bool_decide (v = "") then None else Some v.

Definition trackerArchiveIdentity (network : option string) : archive_id :=
  match split_last_dash (default "" (identityValue network)) with
  | Some (coin, net) =>
      if bool_decide (coin = "") || bool_decide (net = "") then mkArchiveId (Some TRACKER_MODULE) None None
      else mkArchiveId (Some TRACKER_MODULE) (Some coin) (Some net)
  | None => mkArchiveId (Some TRACKER_MODULE) None None
  end.

Definition parseArchiveMeta (text : string) : option archive_id :=
  match parse text with
  | Some v =>
      match property "format" v with
      | Some (JInt 1) =>
          let get k := identityValue (match property k v with Some (JStr s) => Some s | _ => None end) in
          Some (mkArchiveId (get "module") (get "coin") (get "network"))
      | _ => None
      end
  | None => None
  end.

Definition ARCHIVE_IDENTITY_FIELDS : list (archive_id -> option string) := [id_module; id_coin; id_network].

(** The fields in which the archive names another tracker, and those it does not name. *)
Definition mismatches (meta : option archive_id) (target : archive_id) : list (string * option string) :=
  omap (fun field : archive_id -> option string =>
          archive ← identityValue (meta ≫= field);
          if bool_decide (Some archive = identityValue (field target)) then None else Some (archive, identityValue (field target)))
    ARCHIVE_IDENTITY_FIELDS.

Definition unchecked (meta : option archive_id) : nat :=
  length (filter (fun field : archive_id -> option string => identityValue (meta ≫= field) = None) ARCHIVE_IDENTITY_FIELDS).

Inductive id_status := Mismatch | Unchecked | Match.

Definition compareArchiveIdentity (meta : option archive_id) (target : archive_id) : id_status :=
  if negb (bool_decide (mismatches meta target = [])) then Mismatch
  else if bool_decide (0 < unchecked meta) then Unchecked else Match.

(** * The host *)

(** A directory tree; a file comes with its text. *)
Inductive entry := FileEnt (name text : string) | DirEnt (name : string) (l : list entry).

Record restore_options := mkRestoreOptions {
  allowUnsigned : option string; allowUnverified : option string; network : option string }.

(** [readText]: the side files next to an archive.  [tarList]: the lines [tar -tzf] prints
    and whether it exits with 0.  [pubkey]: the pinned key, if any; [verify_asymmetric]
    the signature of a digest under it.  [tarUnwrap]: the tree a wrapper extracts to. *)
Class ArchiveHost := {
  readText : string -> option string;
  sha256File : string -> res string;
  tarList : string -> list string * bool;
  pubkey : bool;
  verify_asymmetric : string -> bytes -> bool;
  base64 : string -> bytes;
  tarUnwrap : string -> res (list entry);
}.

Definition refused : js_error := Error (EMsg "Refusing to restore").

Section host.
Context {host : ArchiveHost}.

Definition parseDetachedSignature (text : string) : option bytes :=
  match words (trim text) with
  | [v; algorithm; sig] =>
      if negb (bool_decide (v = "v1")) || negb (bool_decide (algorithm = "ed25519")) then None
      else if bool_decide (length (base64 sig) = 64) then Some (base64 sig) else None
  | _ => None
  end.

(** [None]: no limit. *)
Definition listArchiveMembers (source : string) (limit : option nat) : res (list string) :=
  let '(lines, exited) := tarList source in
  let names := filter (fun s => s <> "") (trim <$> lines) in
  let names := match limit with Some n => take n names | None => names end in
  if bool_decide (0 < length names) || exited then Ok names else Err (Error (EMsg "tar could not list")).

(** One directory of [findMemberByBasename]: the member, or the stack with the
    subdirectories pushed. *)
Fixpoint scan_dir (wantBase dir : string) (l : list entry) (stack : list (string * list entry))
    : (string * string) + list (string * list entry) :=
  match l with
  | [] => inr stack
  | DirEnt name sub :: r => scan_dir wantBase dir r ((String.append dir (String.append "/" name), sub) :: stack)
  | FileEnt name text :: r =>
      if bool_decide (name = wantBase) then inl (String.append dir (String.append "/" name), text)
      else scan_dir wantBase dir r stack
  end.

Fixpoint find_loop (fuel : nat) (wantBase : string) (stack : list (string * list entry)) : option (string * string) :=
  match fuel, stack with
  | S n, (dir, l) :: rest =>
      match scan_dir wantBase dir l rest with
      | inl found => Some found
      | inr stack => find_loop n wantBase stack
      end
  | _, _ => None
  end.

(** Every directory of the tree is popped once. *)
Fixpoint dirs (e : entry) : nat :=
  match e with FileEnt _ _ => 0 | DirEnt _ l => S (foldr (fun e n => dirs e + n) 0 l) end.
Definition dirs_of (l : list entry) : nat := foldr (fun e n => dirs e + n) 0 l.

Definition findMemberByBasename (tree : list entry) (wantBase : string) : option (string * string) :=
  find_loop (S (dirs_of tree)) wantBase [("tmp", tree)].

(** The search misses no file: its fuel is enough. *)
Fixpoint has (wantBase : string) (e : entry) : bool :=
  match e with FileEnt name _ => bool_decide (name = wantBase) | DirEnt _ l => existsb (has wantBase) l end.

Definition stack_dirs (stack : list (string * list entry)) : nat := foldr (fun d n => S (dirs_of d.2) + n) 0 stack.
Definition stack_has (wantBase : string) (stack : list (string * list entry)) : bool := existsb (fun d => existsb (has wantBase) d.2) stack.

Lemma scan_dir_inr w dir l : forall stack stack', scan_dir w dir l stack = inr stack' ->
  stack_dirs stack' = dirs_of l + stack_dirs stack /\ stack_has w stack' = existsb (has w) l || stack_has w stack.
Proof.
  induction l as [|[name text|name sub] r IH]; intros stack stack'; cbn [scan_dir]; [by intros [= <-]| |].
  - case_bool_decide as Hn; [done|]. intros (E1 & E2)%IH. split; [done|]. cbn. by rewrite E2, bool_decide_eq_false_2.
  - intros (E1 & E2)%IH. split.
    + rewrite E1. unfold stack_dirs, dirs_of. cbn. lia.
    + rewrite E2. cbn. destruct (existsb (has w) sub), (existsb (has w) r); done.
Qed.

Lemma find_loop_none w fuel : forall stack, stack_dirs stack <= fuel -> find_loop fuel w stack = None -> stack_has w stack = false.
Proof.
  induction fuel as [|n IH]; intros [|[dir l] rest] Hf; cbn [find_loop]; try done; [cbn in Hf; lia|].
  destruct (scan_dir w dir l rest) as [?|stack'] eqn:E; [done|]. apply scan_dir_inr in E as [E1 E2]. intros Hn.
  change (stack_has w ((dir, l) :: rest)) with (existsb (has w) l || stack_has w rest). rewrite <- E2.
  apply IH; [|done]. change (stack_dirs ((dir, l) :: rest)) with (S (dirs_of l + stack_dirs rest)) in Hf. lia.
Qed.

Lemma find_complete tree w : existsb (has w) tree = true -> is_Some (findMemberByBasename tree w).
Proof.
  intros H. destruct (findMemberByBasename tree w) eqn:E; [done|]. apply find_loop_none in E; [|unfold stack_dirs; cbn [foldr snd]; lia].
  unfold stack_has in E. cbn [existsb snd] in E. by rewrite H in E.
Qed.

Definition BOOTSTRAP_META_MAX_BYTES : nat := 65536.

Definition readUnwrappedArchiveMeta (tree : list entry) : option archive_id :=
  match findMemberByBasename tree "bootstrap.json" with
  | Some (_, text) => if bool_decide (String.length text <= BOOTSTRAP_META_MAX_BYTES) then parseArchiveMeta text else None
  | None => None
  end.

Definition assertArchiveIdentityOrThrow (tree : list entry) (target : archive_id) : res unit :=
  match compareArchiveIdentity (readUnwrappedArchiveMeta tree) target with Mismatch => Err refused | _ => Ok () end.

(** * The gates *)

Definition verifyBootstrapProvenanceOrThrow (opts : restore_options) (source : string) : res unit :=
  match (if pubkey then readText (String.append source ".sig") else None) with
  | Some text =>
      match parseDetachedSignature text with
      | None => Err refused
      | Some signature =>
          digestHex ← sha256File source;
          if verify_asymmetric digestHex signature then Ok () else Err refused
      end
  | None => if bool_decide (allowUnsigned opts = Some "1") then Ok () else Err refused
  end.

(** The inner payload and the tree it came in. *)
Definition unwrapBootstrapArchive (source : string) : res (string * list entry) :=
  tree ← tarUnwrap source;
  match findMemberByBasename tree "data.tar.gz", findMemberByBasename tree "data.sha256" with
  | Some (innerTarGz, _), Some (_, innerSha) =>
      match parseSha256Sidecar innerSha with
      | None => Err refused
      | Some expected =>
          actual ← sha256File innerTarGz;
          if bool_decide (actual = expected) then Ok (innerTarGz, tree) else Err refused
      end
  | _, _ => Err refused
  end.

Definition assertLevelDbArchiveOrThrow (archivePath : string) : res unit :=
  members ← listArchiveMembers archivePath None;
  if hasRequiredLevelDbMembers members then Ok () else Err refused.

(** What the pipeline is fed; [true]: it lies in a temporary directory. *)
Definition validateBootstrapArchiveOrThrow (opts : restore_options) (source : string) : res (string * bool) :=
  _ ← verifyBootstrapProvenanceOrThrow opts source;
  members ← listArchiveMembers source (Some 10);
  if isWrapperArchive members then
    '(effectiveSource, tree) ← unwrapBootstrapArchive source;
    _ ← assertArchiveIdentityOrThrow tree (trackerArchiveIdentity (network opts));
    _ ← assertLevelDbArchiveOrThrow effectiveSource;
    Ok (effectiveSource, true)
  else
    _ ← match readText (String.append source ".sha256") with
        | Some text =>
            match parseSha256Sidecar text with
            | None => Err refused
            | Some expected =>
                actual ← sha256File source;
                if bool_decide (actual = expected) then Ok () else Err refused
            end
        | None => if bool_decide (allowUnverified opts = Some "1") then Ok () else Err refused
        end;
    _ ← assertLevelDbArchiveOrThrow source;
    Ok (source, false).
End host.

(** * The restore *)

(** The top of the data directory: a name, and whether it is a directory. *)
Abbreviation listing := (list (string * bool)).

(** [deletable]: what the file system lets go of.  [extract]: what lands in the emptied
    directory, and whether [pigz], [pv] and [tar] all exit with 0. *)
Class DataDir := { deletable : string -> bool; extract : string -> listing * bool }.

(** What a restore ends with; [PreWipe] is the [preWipe] mark on the error. *)
Inductive restored := Restored | PreWipe (e : js_error) | PostWipe (e : js_error).

Section restore.
Context {host : ArchiveHost} {data : DataDir}.

(** Deletes in order up to the first entry that cannot be deleted. *)
Fixpoint deleteFilesInDirectorySync (l : listing) : listing * bool :=
  match l with
  | [] => ([], true)
  | (name, d) :: r => if deletable name then deleteFilesInDirectorySync r else ((name, d) :: r, false)
  end.

Definition assertExtractedStoreOrThrow (l : listing) : bool :=
  existsb (fun e => bool_decide (e.1 = "CURRENT")) l && existsb (fun e => is_manifest e.1) l.

Definition decompressPigzInner (source : string) (dir : listing) : restored * listing :=
  let '(kept, ok) := deleteFilesInDirectorySync dir in
  if negb ok then (PostWipe refused, kept)
  else
    let '(landed, exited) := extract source in
    if negb exited then (PostWipe refused, landed)
    else if assertExtractedStoreOrThrow landed then (Restored, landed) else (PostWipe refused, landed).

Definition decompressPigz (opts : restore_options) (source : string) (dir : listing) : restored * listing :=
  match validateBootstrapArchiveOrThrow opts source with
  | Err e => (PreWipe e, dir)
  | Ok (effectiveSource, _) => decompressPigzInner effectiveSource dir
  end.

(** ** What an archive that is let through has *)

(** A signature of the archive's digest that verifies under the pinned key; without a key or
    a signature file, the operator's word. *)
Definition authentic (opts : restore_options) (source : string) : Prop :=
  (pubkey = true /\ exists text signature digest, readText (String.append source ".sig") = Some text
     /\ parseDetachedSignature text = Some signature /\ sha256File source = Ok digest /\ verify_asymmetric digest signature = true)
  \/ (allowUnsigned opts = Some "1" /\ (pubkey = false \/ readText (String.append source ".sig") = None)).

(** The digest the archive is published with; without one, the operator's word. *)
Definition intact (opts : restore_options) (source effective : string) (wrapped : bool) : Prop :=
  if wrapped then
    exists tree text shaPath sha digest, tarUnwrap source = Ok tree /\ findMemberByBasename tree "data.tar.gz" = Some (effective, text)
      /\ findMemberByBasename tree "data.sha256" = Some (shaPath, sha) /\ parseSha256Sidecar sha = Some digest /\ sha256File effective = Ok digest
  else
    effective = source
    /\ ((exists text digest, readText (String.append source ".sha256") = Some text /\ parseSha256Sidecar text = Some digest /\ sha256File source = Ok digest)
        \/ (allowUnverified opts = Some "1" /\ readText (String.append source ".sha256") = None)).

(** A wrapper names no other module, coin or network, wherever in it the identity lies. *)
Definition ours (opts : restore_options) (source : string) (wrapped : bool) : Prop :=
  wrapped = true -> exists tree, tarUnwrap source = Ok tree
    /\ (existsb (has "bootstrap.json") tree = true -> is_Some (findMemberByBasename tree "bootstrap.json"))
    /\ forall field v, field ∈ ARCHIVE_IDENTITY_FIELDS -> identityValue (readUnwrappedArchiveMeta tree ≫= field) = Some v ->
         identityValue (field (trackerArchiveIdentity (network opts))) = Some v.

(** [CURRENT] and a [MANIFEST-<n>] at the root of the listing. *)
Definition holds_store (archive : string) : Prop :=
  exists current manifest base, current ∈ trim <$> (tarList archive).1 /\ manifest ∈ trim <$> (tarList archive).1
    /\ memberParts current = ("", "CURRENT") /\ memberParts manifest = ("", base) /\ is_manifest base = true.

Lemma provenance_authentic opts source : verifyBootstrapProvenanceOrThrow opts source = Ok () -> authentic opts source.
Proof.
  unfold verifyBootstrapProvenanceOrThrow, authentic. intros E. destruct pubkey.
  - destruct (readText (String.append source ".sig")) as [text|] eqn:Et.
    + left. split; [done|]. destruct (parseDetachedSignature text) as [sig|] eqn:Es; [|done].
      destruct (sha256File source) as [d|] eqn:Ed; [|done]. cbn in E. destruct (verify_asymmetric d sig) eqn:Ev; [|done]. by exists text, sig, d.
    + right. case_bool_decide; [|done]. split; [done|by right].
  - right. case_bool_decide; [|done]. split; [done|by left].
Qed.

Lemma levelDb_holds archive : assertLevelDbArchiveOrThrow archive = Ok () -> holds_store archive.
Proof.
  unfold assertLevelDbArchiveOrThrow, listArchiveMembers, holds_store. destruct (tarList archive) as [lines exited]. cbn [fst].
  destruct (_ || exited); [|done]. cbn. unfold hasRequiredLevelDbMembers. intros E.
  match type of E with (if ?b then _ else _) = _ => destruct b eqn:Eb; [|done] end. clear E.
  apply andb_true_iff in Eb as [(c & Hc & Ec)%existsb_exists (m & Hm & Em)%existsb_exists].
  rewrite <- list_elem_of_In, list_elem_of_filter in Hc, Hm. destruct (memberParts c) as [dc bc] eqn:Pc. destruct (memberParts m) as [dm bm] eqn:Pm.
  apply andb_true_iff in Ec as [->%bool_decide_eq_true ->%bool_decide_eq_true]. apply andb_true_iff in Em as [->%bool_decide_eq_true Hb].
  exists c, m, bm. destruct Hc, Hm. by split_and!.
Qed.

Lemma identity_ours tree target : assertArchiveIdentityOrThrow tree target = Ok () ->
  forall field v, field ∈ ARCHIVE_IDENTITY_FIELDS -> identityValue (readUnwrappedArchiveMeta tree ≫= field) = Some v -> identityValue (field target) = Some v.
Proof.
  unfold assertArchiveIdentityOrThrow, compareArchiveIdentity. intros E field v Hf Hv.
  case_bool_decide as Hm; cbn [negb] in E; [|done]. destruct (decide (Some v = identityValue (field target))) as [<-|Hne]; [done|].
  assert (Hin : (v, identityValue (field target)) ∈ mismatches (readUnwrappedArchiveMeta tree) target).
  { unfold mismatches. apply list_elem_of_omap. exists field. split; [done|]. rewrite Hv. cbn. by rewrite bool_decide_eq_false_2. }
  rewrite Hm in Hin. by apply elem_of_nil in Hin.
Qed.

Lemma res_bind_ok {A B} (m : res A) (f : A -> res B) b : m ≫= f = Ok b -> exists a, m = Ok a /\ f a = Ok b.
Proof. destruct m as [a|e]; [|done]. intros E. by exists a. Qed.

Lemma unwrap_intact source inner tree : unwrapBootstrapArchive source = Ok (inner, tree) ->
  tarUnwrap source = Ok tree
  /\ exists text shaPath sha digest, findMemberByBasename tree "data.tar.gz" = Some (inner, text)
      /\ findMemberByBasename tree "data.sha256" = Some (shaPath, sha) /\ parseSha256Sidecar sha = Some digest /\ sha256File inner = Ok digest.
Proof.
  unfold unwrapBootstrapArchive. intros (t & Et & E)%res_bind_ok. split; [|revert E].
  { destruct (findMemberByBasename t "data.tar.gz") as [[i x]|]; [|done]. destruct (findMemberByBasename t "data.sha256") as [[p sha]|]; [|done].
    destruct (parseSha256Sidecar sha); [|done]. apply res_bind_ok in E as (actual & _ & E). case_bool_decide; [|done]. by injection E as _ <-. }
  destruct (findMemberByBasename t "data.tar.gz") as [[i x]|] eqn:Ei; [|done]. destruct (findMemberByBasename t "data.sha256") as [[p sha]|] eqn:Es; [|done].
  destruct (parseSha256Sidecar sha) as [d|] eqn:Ed; [|done]. intros (actual & Ea & E)%res_bind_ok. case_bool_decide; [|done]. injection E as <- <-. subst.
  exists x, p, sha, d. by split_and!.
Qed.

Lemma sidecar_intact opts source :
  match readText (String.append source ".sha256") with
  | Some text =>
      match parseSha256Sidecar text with
      | None => Err refused
      | Some expected => actual ← sha256File source; if bool_decide (actual = expected) then Ok () else Err refused
      end
  | None => if bool_decide (allowUnverified opts = Some "1") then Ok () else Err refused
  end = Ok () -> intact opts source source false.
Proof.
  intros E. split; [done|]. destruct (readText _) as [text|]; [left|right].
  - destruct (parseSha256Sidecar text) as [d|] eqn:Ed; [|done]. apply res_bind_ok in E as (actual & Ea & E). case_bool_decide; [|done]. subst. by exists text, d.
  - by case_bool_decide.
Qed.

Lemma validated_archive opts source effective wrapped : validateBootstrapArchiveOrThrow opts source = Ok (effective, wrapped) ->
  authentic opts source /\ intact opts source effective wrapped /\ ours opts source wrapped /\ holds_store effective.
Proof.
  unfold validateBootstrapArchiveOrThrow. intros ([] & Ep%provenance_authentic & (members & _ & E)%res_bind_ok)%res_bind_ok. split; [done|].
  destruct (isWrapperArchive members).
  - apply res_bind_ok in E as ([inner tree] & (Et & text & shaPath & sha & d & Hin)%unwrap_intact & E). apply res_bind_ok in E as ([] & Hid & E).
    apply res_bind_ok in E as ([] & Hl%levelDb_holds & [= <- <-]). split_and!; [|intros _; exists tree; split_and!; [done|apply find_complete|by apply identity_ours]|done].
    by exists tree, text, shaPath, sha, d.
  - apply res_bind_ok in E as ([] & Hs%sidecar_intact & E). by apply res_bind_ok in E as ([] & Hl%levelDb_holds & [= <- <-]).
Qed.

Lemma deleteFiles_left l : forall r ok, deleteFilesInDirectorySync l = (r, ok) -> ok = true -> r = [].
Proof. induction l as [|[n d] l IH]; intros r ok; cbn; [by intros [= <- _]|]. destruct (deletable n); [apply IH|by intros [= _ <-]]. Qed.

(** C15 A restore touches the data directory only for an archive that passed every gate: its
    digest is signed under the pinned key and matches the published one (or the operator
    vouched where no signature, or no checksum, exists), a wrapper names no other module,
    coin or network, and what will be extracted holds a store at its root.  A refusal
    leaves the directory as it was and is marked, so that indexing resumes; success means a
    store stands at the root of the directory, and nothing that stood there before. *)
Theorem restore_wipes_only_for_checked_archives opts source dir :
  match decompressPigz opts source dir with
  | (PreWipe _, dir') => dir' = dir
  | (o, dir') =>
      exists effective wrapped,
        authentic opts source /\ intact opts source effective wrapped /\ ours opts source wrapped /\ holds_store effective
        /\ (o = Restored -> dir' = (extract effective).1 /\ (exists d, ("CURRENT", d) ∈ dir') /\ exists m d, (m, d) ∈ dir' /\ is_manifest m = true)
  end.
Proof.
  unfold decompressPigz. destruct (validateBootstrapArchiveOrThrow opts source) as [[effective wrapped]|e] eqn:Ev; [|done].
  pose proof (validated_archive _ _ _ _ Ev) as (H1 & H2 & H3 & H4). unfold decompressPigzInner.
  destruct (deleteFilesInDirectorySync dir) as [kept ok] eqn:Ed. destruct ok; cbn; [|by exists effective, wrapped; split_and!].
  destruct (extract effective) as [landed exited] eqn:Ex. destruct exited; cbn; [|by exists effective, wrapped; split_and!].
  destruct (assertExtractedStoreOrThrow landed) eqn:Ea; [|by exists effective, wrapped; split_and!].
  exists effective, wrapped. split_and!; try done. intros _. rewrite Ex. split; [done|].
  apply andb_true_iff in Ea as [([c dc] & Hc & Ec)%existsb_exists ([m dm] & Hm & Em)%existsb_exists].
  rewrite <- list_elem_of_In in Hc, Hm. apply bool_decide_eq_true in Ec. cbn in Ec, Em. subst c. split; [by exists dc|by exists m, dm].
Qed.
End restore.

(** * The admin operations *)

Module Admin.

(** ** The tracker under them

    A call of [start()], in three stages: it boots (opens the store, checks it, loads the
    cursor), it is in the sync loop, or it left the loop and awaits the close of a store.
    A call that returned or rejected is gone. *)
Inductive start_pc := Booting | Looping | Closing (handle : nat).

(** How the boot of a [start()] ends. *)
Inductive boot_result := Enters | FindsMarker | BootFails (unrecoverable : bool).

Record flags := mkFlags { keepParsing : bool; parsingStopped : bool; parsingAborted : bool; halted : bool }.

(** Why the process exited: a restore that failed after the wipe, or a [start()] that
    rejected with a fault that a restart may cure. *)
Inductive exit_reason := RestoreFailed | StartFailed.

(** ** Their state *)

Inductive kind := Bootstrap | Restoring.

(** [Waiting]: in [stopParsing], so many of its ten sleeps left.  [ClosingStore]: in
    [stopParsing] of a halted tracker, which closes the store itself.  [Working]: paused,
    the task that [pigz] works on. *)
Inductive phase := Waiting (tries : nat) | ClosingStore (handle : nat) | Working.
Record op := mkOp { op_kind : kind; op_file : string; op_phase : phase }.

Record task := mkTask { progress : Z; failed : bool }.

(** What is on disk: the store as the tracker left it, the one of an archive, or the rest of
    a restore that failed after the wipe. *)
Inductive on_disk := Own | Archive (filename : string) | Wiped.

(** [busy]: [bootstrapGuard].  Tasks are named by the number of their request
    ([randomUUID]), the calls of [start()] and the stores they open by the number of the
    call; [db] is the store the tracker refers to, [handles] those that may be open. *)
Record admin := mkAdmin {
  busy : bool; next : nat; inflight : gmap nat op; tasks : gmap nat task;
  flag : flags; starts : gmap nat start_pc; started : nat; db : nat; handles : gset nat;
  store : on_disk; exited : option exit_reason }.

Definition set_op (id : nat) (o : option op) (b : bool) (s : admin) : admin :=
  mkAdmin b (next s) (match o with Some o => <[id:=o]> (inflight s) | None => delete id (inflight s) end) (tasks s)
    (flag s) (starts s) (started s) (db s) (handles s) (store s) (exited s).
Definition set_task (id : nat) (t : task) (s : admin) : admin :=
  mkAdmin (busy s) (next s) (inflight s) (<[id:=t]> (tasks s)) (flag s) (starts s) (started s) (db s) (handles s) (store s) (exited s).
Definition set_flags (f : flags) (s : admin) : admin :=
  mkAdmin (busy s) (next s) (inflight s) (tasks s) f (starts s) (started s) (db s) (handles s) (store s) (exited s).
Definition set_start (i : nat) (o : option start_pc) (s : admin) : admin :=
  mkAdmin (busy s) (next s) (inflight s) (tasks s) (flag s)
    (match o with Some pc => <[i:=pc]> (starts s) | None => delete i (starts s) end) (started s) (db s) (handles s) (store s) (exited s).
Definition set_closed (h : nat) (s : admin) : admin :=
  mkAdmin (busy s) (next s) (inflight s) (tasks s) (flag s) (starts s) (started s) (db s) (handles s ∖ {[h]}) (store s) (exited s).
Definition set_store (d : on_disk) (s : admin) : admin :=
  mkAdmin (busy s) (next s) (inflight s) (tasks s) (flag s) (starts s) (started s) (db s) (handles s) d (exited s).
Definition set_exited (r : exit_reason) (s : admin) : admin :=
  mkAdmin (busy s) (next s) (inflight s) (tasks s) (flag s) (starts s) (started s) (db s) (handles s) (store s) (Some r).

(** ** [start()] and the guard around it *)

(** [launchTracker]: its call of [start()], up to the first [await]; what becomes of the call
    are the events below, a rejection ends in [startRejects]. *)
Definition launchTracker (s : admin) : admin :=
  mkAdmin (busy s) (next s) (inflight s) (tasks s) (flag s) (<[started s:=Booting]> (starts s)) (S (started s)) (started s)
    ({[started s]} ∪ handles s) (store s) (exited s).

Definition entersHalted (s : admin) : admin := set_flags (mkFlags (keepParsing (flag s)) false true true) s.

(** The [catch] of [launchTracker]. *)
Definition startRejects (unrecoverable : bool) (s : admin) : admin :=
  if unrecoverable then entersHalted s else set_exited StartFailed s.

Definition bootSettles (i : nat) (r : boot_result) (s : admin) : admin :=
  match starts s !! i with
  | Some Booting =>
      match r with
      | Enters => set_flags (mkFlags true false false (halted (flag s))) (set_start i (Some Looping) s)
      | FindsMarker => entersHalted (set_start i None s)
      | BootFails unrecoverable => startRejects unrecoverable (set_start i None s)
      end
  | _ => s
  end.

(** The loop comes round: it goes on, or leaves and closes the store. *)
Definition loopSees (i : nat) (s : admin) : admin :=
  match starts s !! i with
  | Some Looping => if keepParsing (flag s) then s else set_start i (Some (Closing (db s))) s
  | _ => s
  end.

Definition loopFails (i : nat) (unrecoverable : bool) (s : admin) : admin :=
  match starts s !! i with
  | Some Looping => startRejects unrecoverable (set_start i None s)
  | _ => s
  end.

Definition set_stopped (s : admin) : admin :=
  set_flags (mkFlags (keepParsing (flag s)) true (parsingAborted (flag s)) (halted (flag s))) s.

Definition closeSettles (i : nat) (ok : bool) (s : admin) : admin :=
  match starts s !! i with
  | Some (Closing h) =>
      if ok then set_stopped (set_closed h (set_start i None s)) else startRejects false (set_start i None s)
  | _ => s
  end.

(** ** An operation *)

Definition safeBootstrapFilename (filename : string) : bool :=
  negb (bool_decide (filename = "")) && (String.length filename <=? 255)
  && forallb (fun c => negb (bool_decide (c = "/"%char \/ c = "\"%char \/ c = Ascii.zero))) (String.list_ascii_of_string filename)
  && negb (bool_decide (filename = "." \/ filename = "..")) && bool_decide (filename = basename filename).

(** The tracker is paused: the task is made and [pigz] starts. *)
Definition paused (id : nat) (k : kind) (f : string) (s : admin) : admin :=
  set_task id (mkTask 0 false) (set_op id (Some (mkOp k f Working)) true s).

(** It could not be paused: the request is answered with the error. *)
Definition notPaused (id : nat) (s : admin) : admin := set_op id None false s.

Definition set_keep (b : bool) (s : admin) : admin :=
  set_flags (mkFlags b (parsingStopped (flag s)) (parsingAborted (flag s)) (halted (flag s))) s.

(** [stopParsing] up to its first [await]; it resolves at once when the flag of an earlier
    stop still stands. *)
Definition beginStop (id : nat) (k : kind) (f : string) (s : admin) : admin :=
  let s := set_keep false s in
  if parsingAborted (flag s) && negb (parsingStopped (flag s))
  then set_op id (Some (mkOp k f (ClosingStore (db s)))) true s
  else if parsingStopped (flag s) then paused id k f s
  else set_op id (Some (mkOp k f (Waiting 10))) true s.

Definition beginAdminOperation (k : kind) (filename : string) (s : admin) : admin :=
  if busy s then s
  else if negb (safeBootstrapFilename filename) then s
  else beginStop (next s) k filename
         (mkAdmin true (S (next s)) (inflight s) (tasks s) (flag s) (starts s) (started s) (db s) (handles s) (store s) (exited s)).

(** The close of a halted tracker's store settles. *)
Definition stopCloses (id : nat) (ok : bool) (s : admin) : admin :=
  match inflight s !! id with
  | Some (mkOp k f (ClosingStore h)) =>
      if ok then paused id k f (set_stopped (set_closed h s)) else notPaused id s
  | _ => s
  end.

(** A sleep of [stopParsing] is over: the loop has stopped, or the tries are used up and
    the loop is told to go on, or it sleeps again. *)
Definition stopPolls (id : nat) (s : admin) : admin :=
  match inflight s !! id with
  | Some (mkOp k f (Waiting tries)) =>
      if parsingStopped (flag s) then paused id k f s
      else match pred tries with
           | 0 => notPaused id (set_keep true s)
           | S _ as left => set_op id (Some (mkOp k f (Waiting left))) true s
           end
  | _ => s
  end.

Definition recordFailure (id : nat) (s : admin) : admin :=
  match tasks s !! id with Some _ => set_task id (mkTask (-1) true) s | None => s end.

Definition handleBootstrapFailure (id : nat) (s : admin) : admin := launchTracker (recordFailure id s).

Definition failLoud (s : admin) : admin := set_exited RestoreFailed s.

Definition handleRestoreFailure (id : nat) (preWipe : bool) (s : admin) : admin :=
  let s := recordFailure id s in
  if preWipe then launchTracker s else failLoud s.

Definition compressSettles (id : nat) (ok : bool) (s : admin) : admin :=
  match inflight s !! id with
  | Some (mkOp Bootstrap f Working) =>
      if ok then launchTracker (set_op id None false (set_task id (mkTask 100 false) s))
      else handleBootstrapFailure id (set_op id None false s)
  | _ => s
  end.

(** [clearHalt]: only the status; [parsingAborted] outlives it until a loop is entered. *)
Definition clearsHalt (s : admin) : admin :=
  set_flags (mkFlags (keepParsing (flag s)) (parsingStopped (flag s)) (parsingAborted (flag s)) false) s.

Definition restoreSettles (id : nat) (r : restored) (s : admin) : admin :=
  match inflight s !! id with
  | Some (mkOp Restoring f Working) =>
      match r with
      | Restored => launchTracker (clearsHalt (set_store (Archive f) (set_op id None false (set_task id (mkTask 100 false) s))))
      | PreWipe _ => handleRestoreFailure id true (set_op id None false s)
      | PostWipe _ => handleRestoreFailure id false (set_store Wiped (set_op id None false s))
      end
  | _ => s
  end.

(** [pv] reports. *)
Definition progresses (id : nat) (n : Z) (s : admin) : admin :=
  match inflight s !! id with Some (mkOp _ _ Working) => set_task id (mkTask n false) s | _ => s end.

(** ** Runs *)

Inductive admin_event :=
  | Request (k : kind) (filename : string) | StopPolls (id : nat) | StopCloses (id : nat) (ok : bool)
  | CompressSettles (id : nat) (ok : bool) | RestoreSettles (id : nat) (r : restored) | Progress (id : nat) (n : Z)
  | BootSettles (i : nat) (r : boot_result) | LoopSees (i : nat) | LoopFails (i : nat) (unrecoverable : bool)
  | CloseSettles (i : nat) (ok : bool).

Definition admin_handle (e : admin_event) (s : admin) : admin :=
  match exited s with
  | Some _ => s
  | None =>
      match e with
      | Request k f => beginAdminOperation k f s
      | StopPolls id => stopPolls id s
      | StopCloses id ok => stopCloses id ok s
      | CompressSettles id ok => compressSettles id ok s
      | RestoreSettles id r => restoreSettles id r s
      | Progress id n => progresses id n s
      | BootSettles i r => bootSettles i r s
      | LoopSees i => loopSees i s
      | LoopFails i unrecoverable => loopFails i unrecoverable s
      | CloseSettles i ok => closeSettles i ok s
      end
  end.

Definition admin_run (es : list admin_event) (s : admin) : admin := foldl (fun s e => admin_handle e s) s es.

(** The server comes up next to the first [start()] of a fresh tracker. *)
Definition admin0 : admin := launchTracker (mkAdmin false 0 ∅ ∅ (mkFlags true false false false) ∅ 0 0 ∅ Own None).

(** ** The two races

    A request that comes while a [start()] still boots and the flag of the stop before it
    stands; and a stop that gives up while the loop it waits for is closing the store. *)
Definition is_booting (pc : start_pc) : bool := match pc with Booting => true | _ => false end.
Definition is_closing (pc : start_pc) : bool := match pc with Closing _ => true | _ => false end.

Definition some_start (p : start_pc -> bool) (s : admin) : bool := existsb (fun x => p x.2) (map_to_list (starts s)).

Definition races (e : admin_event) (s : admin) : bool :=
  match e with
  | Request _ _ => negb (busy s) && parsingStopped (flag s) && some_start is_booting s
  | StopPolls id =>
      match inflight s !! id with
      | Some (mkOp _ _ (Waiting 1)) => negb (parsingStopped (flag s)) && some_start is_closing s
      | _ => false
      end
  | _ => false
  end.

Fixpoint orderly (es : list admin_event) (s : admin) : bool :=
  match es with [] => true | e :: es => negb (races e s) && orderly es (admin_handle e s) end.

(** ** What every run keeps *)

(** Nothing in flight, or one operation. *)
Definition flights (s : admin) : Prop :=
  (inflight s = ∅ /\ busy s = false)
  \/ exists id o, inflight s = {[id := o]} /\ id < next s /\ busy s = true /\ safeBootstrapFilename (op_file o) = true
       /\ (forall n, op_phase o = Waiting n -> 1 <= n <= 10)
       /\ (op_phase o = Working -> exists t, tasks s !! id = Some t /\ failed t = false).

(** Only a restore that failed after the wipe leaves a wiped store, and it exits. *)
Definition own_exit (s : admin) : Prop := exited s = Some RestoreFailed <-> store s = Wiped.

Record admin_inv (s : admin) : Prop := {
  ai_flights : flights s;
  ai_exit : own_exit s;
}.

(** The operation's phase, and the one call of [start()] that lives. *)
Definition op_shape (s : admin) (ph : option phase) : Prop :=
  match ph with None => inflight s = ∅ | Some ph => exists id k f, inflight s = {[id := mkOp k f ph]} end.
Definition start_shape (s : admin) (pc : option start_pc) : Prop :=
  match pc with None => starts s = ∅ | Some pc => exists i, starts s = {[i := pc]} end.

(** The tracker under an operation in this phase, its [start()] at this point. *)
Definition agrees (ph : option phase) (pc : option start_pc) (s : admin) : Prop :=
  let 'mkFlags keep stopped aborted halted := flag s in
  match ph, pc with
  | None, Some Booting => stopped = true \/ aborted = false
  | None, Some Looping => keep = true /\ stopped = false /\ aborted = false
  | None, None => halted = true /\ stopped = false /\ aborted = true
  | Some (Waiting _), Some Booting | Some (Waiting _), Some Looping => stopped = false /\ aborted = false
  | Some (Waiting _), Some (Closing h) => stopped = false /\ aborted = false /\ h = db s
  | Some (Waiting _), None =>
      (stopped = true /\ handles s = ∅) \/ (halted = true /\ stopped = false /\ aborted = true)
  | Some (ClosingStore h), None => halted = true /\ stopped = false /\ aborted = true /\ h = db s
  | Some Working, None => stopped = true /\ handles s = ∅
  | _, _ => False
  end.

Definition calm (s : admin) : Prop :=
  exists ph pc, op_shape s ph /\ start_shape s pc /\ handles s ⊆ {[db s]} /\ agrees ph pc s.

Lemma single_lookup {A} (m : gmap nat A) id o j o' : m = {[id := o]} -> m !! j = Some o' -> j = id /\ o' = o.
Proof. intros ->. intros [-> ->]%lookup_singleton_Some. done. Qed.

Lemma single_delete {A} (m : gmap nat A) id o : m = {[id := o]} -> delete id m = ∅.
Proof. intros ->. by apply delete_singleton_eq. Qed.

Lemma recordFailure_same id s : let s' := recordFailure id s in
  exited s' = exited s /\ store s' = store s /\ inflight s' = inflight s /\ busy s' = busy s /\ flag s' = flag s
  /\ starts s' = starts s /\ handles s' = handles s.
Proof. unfold recordFailure. by destruct (tasks s !! id). Qed.

(** The operation in flight, seen by an event for [id]. *)
Lemma in_flight s id o : flights s -> inflight s !! id = Some o ->
  inflight s = {[id := o]} /\ id < next s /\ busy s = true /\ safeBootstrapFilename (op_file o) = true
  /\ (forall n, op_phase o = Waiting n -> 1 <= n <= 10)
  /\ (op_phase o = Working -> exists t, tasks s !! id = Some t /\ failed t = false).
Proof.
  intros [[E _]|(j & o' & E & H)] Hl; [by rewrite E, lookup_empty in Hl|].
  destruct (single_lookup _ _ _ _ _ E Hl) as [-> ->]. done.
Qed.

Lemma flights_idle s : inflight s = ∅ -> busy s = false -> flights s.
Proof. by left. Qed.

Lemma flights_same s s' : inflight s' = inflight s -> next s' = next s -> busy s' = busy s -> tasks s' = tasks s -> flights s -> flights s'.
Proof. unfold flights. by intros -> -> -> ->. Qed.

Lemma flights_paused id k f s : inflight s = ∅ \/ (exists o, inflight s = {[id := o]}) -> id < next s ->
  safeBootstrapFilename f = true -> flights (paused id k f s).
Proof.
  intros E Hn Hf. right. exists id, (mkOp k f Working). cbn. split_and!; try done.
  - by destruct E as [->|[o ->]]; [rewrite insert_empty|rewrite insert_singleton_eq].
  - intros _. exists (mkTask 0 false). by rewrite lookup_insert_eq.
Qed.

Lemma flights_phase id k f ph s : inflight s = ∅ \/ (exists o, inflight s = {[id := o]}) -> id < next s ->
  safeBootstrapFilename f = true -> (forall n, ph = Waiting n -> 1 <= n <= 10) -> ph <> Working ->
  flights (set_op id (Some (mkOp k f ph)) true s).
Proof.
  intros E Hn Hf Hw Hp. right. exists id, (mkOp k f ph). cbn. split_and!; try done.
  by destruct E as [->|[o ->]]; [rewrite insert_empty|rewrite insert_singleton_eq].
Qed.

(** The events of a [start()] leave the operations alone. *)
Lemma flights_starts e s : flights s ->
  match e with BootSettles _ _ | LoopSees _ | LoopFails _ _ | CloseSettles _ _ => True | _ => False end -> flights (admin_handle e s).
Proof.
  intros H He. unfold admin_handle. destruct (exited s); [done|].
  destruct e as [| | | | | |i r|i|i u|i ok]; try done; clear He;
    [unfold bootSettles|unfold loopSees|unfold loopFails|unfold closeSettles]; destruct (starts s !! i) as [[]|]; try done.
  - destruct r as [| |[]]; by eapply flights_same.
  - destruct (keepParsing _); by eapply flights_same.
  - destruct u; by eapply flights_same.
  - destruct ok; by eapply flights_same.
Qed.

Lemma flights_handle e s : flights s -> flights (admin_handle e s).
Proof.
  intros H. destruct e as [k f|id|id ok|id ok|id r|id n| | | |]; try (by apply flights_starts);
    unfold admin_handle; (destruct (exited s); [done|]).
  - unfold beginAdminOperation. destruct (busy s) eqn:Eb; [done|]. destruct (safeBootstrapFilename f) eqn:Ef; cbn [negb]; [|done].
    destruct H as [[E _]|(j & o & _ & _ & Hb & _)]; [|congruence]. unfold beginStop. cbv zeta.
    destruct (_ && _); [|destruct (parsingStopped _)].
    + apply flights_phase; cbn; [by left|lia|done|done|done].
    + apply flights_paused; cbn; [by left|lia|done].
    + apply flights_phase; cbn; [by left|lia|done|intros n [= <-]; lia|done].
  - unfold stopPolls. destruct (inflight s !! id) as [[k f [tries| |]]|] eqn:El; try done.
    destruct (in_flight _ _ _ H El) as (E & Hn & _ & Hf & Hw & _). specialize (Hw _ eq_refl).
    destruct (parsingStopped _); [apply flights_paused; eauto|]. destruct tries as [|[|tries]]; cbn [pred].
    1-2: apply flights_idle; [by apply (single_delete _ id _ E)|done].
    apply flights_phase; [by right; exists (mkOp k f (Waiting (S (S tries))))|done|done| |done]. intros n [= <-]. lia.
  - unfold stopCloses. destruct (inflight s !! id) as [[k f [|h|]]|] eqn:El; try done.
    destruct (in_flight _ _ _ H El) as (E & Hn & _ & Hf & _). destruct ok.
    + apply flights_paused; cbn; eauto.
    + apply flights_idle; [by apply (single_delete _ id _ E)|done].
  - unfold compressSettles. destruct (inflight s !! id) as [[[] f []]|] eqn:El; try done.
    destruct (in_flight _ _ _ H El) as (E & _). destruct ok; [by apply flights_idle; [apply (single_delete _ id _ E)|]|].
    unfold handleBootstrapFailure. destruct (recordFailure_same id (set_op id None false s)) as (_ & _ & E3 & E4 & _).
    apply flights_idle; cbn; rewrite ?E3, ?E4; [by apply (single_delete _ id _ E)|done].
  - unfold restoreSettles. destruct (inflight s !! id) as [[[] f []]|] eqn:El; try done.
    destruct (in_flight _ _ _ H El) as (E & _). destruct r as [|e|e]; [by apply flights_idle; [apply (single_delete _ id _ E)|]| |];
      unfold handleRestoreFailure; cbv zeta.
    + destruct (recordFailure_same id (set_op id None false s)) as (_ & _ & E3 & E4 & _).
      apply flights_idle; cbn; rewrite ?E3, ?E4; [by apply (single_delete _ id _ E)|done].
    + destruct (recordFailure_same id (set_store Wiped (set_op id None false s))) as (_ & _ & E3 & E4 & _).
      apply flights_idle; cbn; rewrite ?E3, ?E4; [by apply (single_delete _ id _ E)|done].
  - unfold progresses. destruct (inflight s !! id) as [[k f []]|] eqn:El; try done.
    destruct (in_flight _ _ _ H El) as (E & Hn & Hb & Hf & _). right. exists id, (mkOp k f Working). cbn. split_and!; try done.
    intros _. exists (mkTask n false). by rewrite lookup_insert_eq.
Qed.

Lemma own_exit_same s s' : exited s' = exited s -> store s' = store s -> own_exit s -> own_exit s'.
Proof. unfold own_exit. by intros -> ->. Qed.

Lemma own_exit_record id s : own_exit s -> own_exit (recordFailure id s).
Proof. destruct (recordFailure_same id s) as (E1 & E2 & _). by apply own_exit_same. Qed.

Lemma own_exit_rejects u s : exited s = None -> own_exit s -> own_exit (startRejects u s).
Proof. destruct u; [done|]. unfold own_exit. cbn. intros -> [_ H]. split; [done|]. by intros ?%H. Qed.

Lemma own_exit_handle e s : own_exit s -> own_exit (admin_handle e s).
Proof.
  intros H. unfold admin_handle. destruct (exited s) eqn:Ex; [done|].
  destruct e as [k f|id|id ok|id ok|id r|id n|i r|i|i u|i ok].
  - unfold beginAdminOperation, beginStop. destruct (busy s); [done|]. destruct (negb _); [done|]. cbv zeta.
    by destruct (_ && _); [|destruct (parsingStopped _)].
  - unfold stopPolls. destruct (inflight s !! id) as [[k f [tries| |]]|]; try done.
    by destruct (parsingStopped _); [|destruct (pred tries)].
  - unfold stopCloses. destruct (inflight s !! id) as [[k f []]|]; try done. by destruct ok.
  - unfold compressSettles. destruct (inflight s !! id) as [[[] f []]|]; try done. destruct ok; [done|].
    by apply (own_exit_record id (set_op id None false s)).
  - unfold restoreSettles. destruct (inflight s !! id) as [[[] f []]|]; try done. destruct r as [|e|e].
    + unfold own_exit. cbn. by rewrite Ex.
    + by apply (own_exit_record id (set_op id None false s)).
    + unfold handleRestoreFailure, own_exit. cbn.
      by destruct (recordFailure_same id (set_store Wiped (set_op id None false s))) as (_ & -> & _).
  - unfold progresses. by destruct (inflight s !! id) as [[k f []]|].
  - unfold bootSettles. destruct (starts s !! i) as [[]|]; try done. destruct r as [| |u]; [done..|]. by apply own_exit_rejects.
  - unfold loopSees. destruct (starts s !! i) as [[]|]; try done. by destruct (keepParsing _).
  - unfold loopFails. destruct (starts s !! i) as [[]|]; try done. by apply own_exit_rejects.
  - unfold closeSettles. destruct (starts s !! i) as [[]|]; try done. destruct ok; [done|]. by apply own_exit_rejects.
Qed.

Lemma admin_inv_run es : forall s, admin_inv s -> admin_inv (admin_run es s).
Proof.
  unfold admin_run. induction es as [|e es IH]; intros s [H1 H2]; [done|]. cbn [foldl]. apply IH.
  split; [by apply flights_handle|by apply own_exit_handle].
Qed.

Lemma admin_inv_admin0 : admin_inv admin0.
Proof. split; [by left|done]. Qed.
(** A halt stands until a restore succeeds. *)
Lemma halted_handle e s : (forall id, e <> RestoreSettles id Restored) ->
  halted (flag s) = true -> halted (flag (admin_handle e s)) = true.
Proof.
  intros He H. unfold admin_handle. destruct (exited s); [done|].
  assert (Hr : forall id x, halted (flag x) = true -> halted (flag (recordFailure id x)) = true).
  { intros id x Hx. by destruct (recordFailure_same id x) as (_ & _ & _ & _ & -> & _). }
  destruct e as [k f|id|id ok|id ok|id r|id n|i r|i|i u|i ok].
  - unfold beginAdminOperation, beginStop. destruct (busy s); [done|]. destruct (negb _); [done|]. cbv zeta.
    by destruct (_ && _); [|destruct (parsingStopped _)].
  - unfold stopPolls. destruct (inflight s !! id) as [[k f [tries| |]]|]; try done.
    by destruct (parsingStopped _); [|destruct (pred tries)].
  - unfold stopCloses. destruct (inflight s !! id) as [[k f []]|]; try done. by destruct ok.
  - unfold compressSettles. destruct (inflight s !! id) as [[[] f []]|]; try done. destruct ok; [done|].
    by apply (Hr id (set_op id None false s)).
  - unfold restoreSettles. destruct (inflight s !! id) as [[[] f []]|]; try done. destruct r as [|e|e]; [by destruct (He id)| |].
    + by apply (Hr id (set_op id None false s)).
    + by apply (Hr id (set_store Wiped (set_op id None false s))).
  - unfold progresses. by destruct (inflight s !! id) as [[k f []]|].
  - unfold bootSettles. destruct (starts s !! i) as [[]|]; try done. by destruct r as [| |[]].
  - unfold loopSees. destruct (starts s !! i) as [[]|]; try done. by destruct (keepParsing _).
  - unfold loopFails. destruct (starts s !! i) as [[]|]; try done. by destruct u.
  - unfold closeSettles. destruct (starts s !! i) as [[]|]; try done. by destruct ok.
Qed.

Lemma halted_run es : forall s, (forall id, RestoreSettles id Restored ∉ es) ->
  halted (flag s) = true -> halted (flag (admin_run es s)) = true.
Proof.
  unfold admin_run. induction es as [|e es IH]; intros s He H; [done|]. cbn [foldl]. apply IH.
  - intros id Hin. apply (He id). by right.
  - apply halted_handle; [|done]. intros id ->. apply (He id). left.
Qed.

(** A stop is over after as many polls as it has sleeps left. *)
Lemma polls_end id n : forall s, exited s = None -> flights s ->
  (forall k f m, inflight s !! id = Some (mkOp k f (Waiting m)) -> m <= n) ->
  forall k f m, inflight (admin_run (repeat (StopPolls id) n) s) !! id <> Some (mkOp k f (Waiting m)).
Proof.
  unfold admin_run. induction n as [|n IH]; intros s Ex Hf Hn k f m; cbn [repeat foldl].
  - intros E. destruct (in_flight _ _ _ Hf E) as (_ & _ & _ & _ & Hw & _). specialize (Hw m eq_refl). specialize (Hn _ _ _ E). lia.
  - pose proof (flights_handle (StopPolls id) s Hf) as Hf'. apply IH; [|done|]; clear IH Hf'; unfold admin_handle; rewrite Ex; unfold stopPolls;
      destruct (inflight s !! id) as [[k' f' [tries| |]]|] eqn:El; try done.
    + by destruct (parsingStopped _); [|destruct (pred tries)].
    + specialize (Hn _ _ _ eq_refl). destruct (parsingStopped _); [|destruct (pred tries) eqn:Et]; cbn; intros k1 f1 m1.
      * by rewrite lookup_insert_eq.
      * by rewrite lookup_delete_eq.
      * rewrite lookup_insert_eq. intros [= <- <- <-]. lia.
    + rewrite El. by intros k1 f1 m1.
    + rewrite El. by intros k1 f1 m1.
    + rewrite El. by intros k1 f1 m1.
Qed.

(** ** What an orderly run keeps *)

Lemma some_start_one p s i pc : starts s = {[i := pc]} -> some_start p s = p pc.
Proof. intros E. unfold some_start. rewrite E, map_to_list_singleton. cbn. by rewrite orb_false_r. Qed.

Lemma start_here s pc i p : start_shape s pc -> starts s !! i = Some p -> pc = Some p /\ starts s = {[i := p]}.
Proof.
  destruct pc as [pc|]; cbn; [|intros ->; by rewrite lookup_empty]. intros [j E] Hl.
  by destruct (single_lookup _ _ _ _ _ E Hl) as [-> ->].
Qed.

Lemma op_here s ph id k f p : op_shape s ph -> inflight s !! id = Some (mkOp k f p) -> ph = Some p /\ inflight s = {[id := mkOp k f p]}.
Proof.
  destruct ph as [ph|]; cbn; [|intros ->; by rewrite lookup_empty]. intros (j & k' & f' & E) Hl.
  destruct (single_lookup _ _ _ _ _ E Hl) as [-> Ho]. injection Ho as -> -> ->. done.
Qed.

(** The shape of a state after its operation or its [start()] moved. *)
Lemma op_dropped s s' id o : inflight s = {[id := o]} -> inflight s' = delete id (inflight s) -> op_shape s' None.
Proof. intros E E'. cbn. rewrite E'. by apply (single_delete _ id o). Qed.
Lemma op_moved s s' id o k f ph : inflight s = {[id := o]} -> inflight s' = <[id := mkOp k f ph]> (inflight s) -> op_shape s' (Some ph).
Proof. intros E E'. exists id, k, f. by rewrite E', E, insert_singleton_eq. Qed.
Lemma start_dropped s s' i p : starts s = {[i := p]} -> starts s' = delete i (starts s) -> start_shape s' None.
Proof. intros E E'. cbn. rewrite E'. by apply (single_delete _ i p). Qed.
Lemma start_moved s s' i p pc : starts s = {[i := p]} -> starts s' = <[i := pc]> (starts s) -> start_shape s' (Some pc).
Proof. intros E E'. exists i. by rewrite E', E, insert_singleton_eq. Qed.
Lemma shapes_same s s' ph pc : inflight s' = inflight s -> starts s' = starts s ->
  (op_shape s ph -> op_shape s' ph) /\ (start_shape s pc -> start_shape s' pc).
Proof. intros E1 E2. unfold op_shape, start_shape. by rewrite E1, E2. Qed.

Lemma calm_start e s : exited s = None -> calm s -> exited (admin_handle e s) = None ->
  match e with BootSettles _ _ | LoopSees _ | LoopFails _ _ | CloseSettles _ _ => True | _ => False end -> calm (admin_handle e s).
Proof.
  intros Ex (ph & pc & Ho & Hs & Hh & Ha) Ex' He. unfold agrees in Ha. unfold admin_handle in *. rewrite Ex in *.
  destruct (flag s) as [keep stopped aborted hal] eqn:Ef.
  destruct e as [| | | | | |i r|i|i u|i ok]; try done; clear He;
    [unfold bootSettles in *|unfold loopSees in *|unfold loopFails in *|unfold closeSettles in *];
    destruct (starts s !! i) as [p|] eqn:El; try (by exists ph, pc; unfold agrees; rewrite Ef);
    destruct p as [| |h]; try (by exists ph, pc; unfold agrees; rewrite Ef);
    destruct (start_here _ _ _ _ Hs El) as [-> E].
  - destruct r as [| |[]]; [exists ph, (Some Looping)|exists ph, None|exists ph, None|done].
    + split_and!; [by apply Ho|by eapply start_moved|done|]. unfold agrees. cbn. by destruct ph as [[]|].
    + split_and!; [by apply Ho|by eapply start_dropped|done|]. unfold agrees. cbn. destruct ph as [[]|]; [by right|done..].
    + split_and!; [by apply Ho|by eapply start_dropped|done|]. unfold agrees. cbn. destruct ph as [[]|]; [by right|done..].
  - rewrite Ef. cbn [keepParsing]. destruct keep; [by exists ph, (Some Looping); unfold agrees; rewrite Ef|].
    exists ph, (Some (Closing (db s))). split_and!; [by apply Ho|by eapply start_moved|done|]. unfold agrees. cbn. rewrite Ef.
    destruct ph as [[]|]; [naive_solver|done|done|naive_solver].
  - destruct u; [|done]. exists ph, None. split_and!; [by apply Ho|by eapply start_dropped|done|]. unfold agrees. cbn.
    destruct ph as [[]|]; [by right|done..].
  - destruct ok; [|done]. exists ph, None. destruct ph as [[]|]; try done. destruct Ha as (_ & _ & ->).
    split_and!; [by apply Ho|by eapply start_dropped|cbn; set_solver|]. unfold agrees. cbn. left. split; [done|set_solver].
Qed.

Lemma calm_launched s : inflight s = ∅ -> starts s = ∅ -> handles s = ∅ -> parsingStopped (flag s) = true -> calm (launchTracker s).
Proof.
  intros Ho Es Eh Est. exists None, (Some Booting). split_and!; [done| | |].
  - exists (started s). cbn. by rewrite Es, insert_empty.
  - cbn. rewrite Eh. set_solver.
  - unfold agrees. cbn. destruct (flag s). by left.
Qed.

(** A failed operation gives the tracker back. *)
Lemma calm_relaunched id s : inflight s = ∅ -> starts s = ∅ -> handles s = ∅ -> parsingStopped (flag s) = true ->
  calm (launchTracker (recordFailure id s)).
Proof.
  intros Ho Es Eh Est. destruct (recordFailure_same id s) as (_ & _ & E3 & _ & E5 & E6 & E7).
  apply calm_launched; congruence.
Qed.

(** An operation at work: nothing else lives. *)
Lemma calm_working s id k f : calm s -> inflight s !! id = Some (mkOp k f Working) ->
  inflight s = {[id := mkOp k f Working]} /\ starts s = ∅ /\ handles s = ∅ /\ parsingStopped (flag s) = true.
Proof.
  intros (ph & pc & Ho & Hs & Hh & Ha) El. destruct (op_here _ _ _ _ _ _ Ho El) as [-> E]. unfold agrees in Ha.
  destruct (flag s). destruct pc; [done|]. naive_solver.
Qed.

Lemma calm_done e s : flights s -> exited s = None -> calm s -> exited (admin_handle e s) = None ->
  match e with CompressSettles _ _ | RestoreSettles _ _ | Progress _ _ => True | _ => False end -> calm (admin_handle e s).
Proof.
  intros Hf Ex Hc Ex' He. unfold admin_handle in *. rewrite Ex in *.
  destruct e as [| | |id ok|id r|id n| | | |]; try done; clear He;
    [unfold compressSettles in *|unfold restoreSettles in *|unfold progresses in *];
    destruct (inflight s !! id) as [[k f ph]|] eqn:El; try done; try (by destruct k); destruct ph; try done; try (by destruct k);
    destruct (calm_working _ _ _ _ Hc El) as (E & Es & Eh & Est).
  - destruct k; [|done]. pose proof (single_delete _ id _ E) as Ed.
    destruct ok; [by apply calm_launched|by apply calm_relaunched].
  - destruct k; [done|]. pose proof (single_delete _ id _ E) as Ed.
    destruct r as [|e|e]; [by apply calm_launched|by apply calm_relaunched|done].
Qed.

Lemma calm_stop e s : flights s -> exited s = None -> calm s -> races e s = false ->
  match e with StopPolls _ | StopCloses _ _ => True | _ => False end -> calm (admin_handle e s).
Proof.
  intros Hf Ex Hc Hr He. pose proof Hc as (ph & pc & Ho & Hs & Hh & Ha). unfold agrees in Ha.
  unfold admin_handle in *. rewrite Ex in *. destruct (flag s) as [keep stopped aborted hal] eqn:Ef.
  destruct e as [|id|id ok| | | | | | |]; try done; clear He; [unfold stopPolls|unfold stopCloses];
    destruct (inflight s !! id) as [[k f p]|] eqn:El; try done; destruct p as [tries|h|]; try done;
    destruct (op_here _ _ _ _ _ _ Ho El) as [-> E]; destruct (in_flight _ _ _ Hf El) as (_ & _ & _ & _ & Hw & _).
  - specialize (Hw _ eq_refl). rewrite Ef. cbn [parsingStopped]. destruct stopped.
    { destruct pc as [[]|]; try naive_solver. destruct Ha as [[_ Eh]|]; [|naive_solver].
      exists (Some Working), None. split_and!; [by eapply op_moved|done|done|]. unfold agrees. cbn. by rewrite Ef. }
    destruct (pred tries) as [|left] eqn:Et.
    + exists None, pc. split_and!; [by eapply op_dropped|by destruct pc|done|]. unfold agrees. cbn. rewrite Ef. cbn.
      destruct pc as [[| |h]|]; [naive_solver..| |naive_solver].
      destruct Hs as [i Ei]. revert Hr. cbn. rewrite El. assert (tries = 1) as -> by lia.
      rewrite (some_start_one _ _ _ _ Ei), Ef. done.
    + exists (Some (Waiting (S left))), pc. split_and!; [by eapply op_moved|by destruct pc|done|]. unfold agrees. cbn. by rewrite Ef.
  - destruct pc; [done|]. destruct Ha as (-> & -> & -> & ->). destruct ok.
    + exists (Some Working), None. split_and!; [by eapply op_moved|done|cbn; set_solver|]. unfold agrees. cbn. split; [done|set_solver].
    + exists None, None. split_and!; [by eapply op_dropped|done|done|]. unfold agrees. cbn. by rewrite Ef.
Qed.

Lemma calm_request k f s : flights s -> exited s = None -> calm s -> races (Request k f) s = false -> calm (admin_handle (Request k f) s).
Proof.
  intros Hf Ex Hc Hr. pose proof Hc as (ph & pc & Ho & Hs & Hh & Ha). unfold agrees in Ha.
  unfold admin_handle, beginAdminOperation. rewrite Ex. cbn in Hr. destruct (busy s) eqn:Eb; [done|].
  destruct (safeBootstrapFilename f); [|done].
  destruct Hf as [[E _]|(j & o & _ & _ & Hb & _)]; [|congruence].
  assert (ph = None) as ->.
  { destruct ph as [ph|]; [|done]. destruct Ho as (id & k' & f' & E'). rewrite E in E'. symmetry in E'. by apply map_non_empty_singleton in E'. }
  unfold beginStop. cbn. destruct (flag s) as [keep stopped aborted hal] eqn:Ef. cbn in *.
  destruct pc as [[| |h]|]; cbn in Ha.
  - destruct Hs as [i Ei]. rewrite (some_start_one _ _ _ _ Ei), andb_true_r in Hr. subst stopped. destruct Ha as [?| ->]; [done|]. cbn.
    exists (Some (Waiting 10)), (Some Booting). split_and!; [|by exists i|done|done]. exists (next s), k, f. cbn. by rewrite E, insert_empty.
  - destruct Ha as (-> & -> & ->). cbn. exists (Some (Waiting 10)), (Some Looping). split_and!; [|done|done|done].
    exists (next s), k, f. cbn. by rewrite E, insert_empty.
  - done.
  - destruct Ha as (-> & -> & ->). cbn. exists (Some (ClosingStore (db s))), None. split_and!; [|done|done|done].
    exists (next s), k, f. cbn. by rewrite E, insert_empty.
Qed.

Lemma calm_handle e s : flights s -> exited s = None -> calm s -> races e s = false -> exited (admin_handle e s) = None -> calm (admin_handle e s).
Proof.
  intros Hf Ex Hc Hr Ex'. destruct e as [k f|id|id ok|id ok|id r|id n|i r|i|i u|i ok].
  - by apply calm_request.
  - by apply calm_stop.
  - by apply calm_stop.
  - by apply calm_done.
  - by apply calm_done.
  - by apply calm_done.
  - by apply calm_start.
  - by apply calm_start.
  - by apply calm_start.
  - by apply calm_start.
Qed.

Lemma exited_stays e s r : exited s = Some r -> admin_handle e s = s.
Proof. intros Ex. unfold admin_handle. by rewrite Ex. Qed.

Lemma calm_run es : forall s, flights s -> (exited s = None -> calm s) -> orderly es s = true ->
  exited (admin_run es s) = None -> calm (admin_run es s).
Proof.
  unfold admin_run. induction es as [|e es IH]; intros s Hf Hc Hor Ex; [by apply Hc|]. cbn [foldl orderly] in *.
  apply andb_true_iff in Hor as [Hr%negb_true_iff Hor]. apply IH; [by apply flights_handle| |done|done].
  intros Ex'. destruct (exited s) as [r|] eqn:E; [by rewrite (exited_stays _ _ _ E), E in Ex'|]. apply calm_handle; eauto.
Qed.

Lemma calm_admin0 : calm admin0.
Proof.
  exists None, (Some Booting). split_and!; [done| |by vm_compute|by right]. exists 0. cbn. by rewrite insert_empty.
Qed.
End Admin.

(** ** Filenames and halts *)

Definition BOOTSTRAP_DIR : string := "/bootstrap/xchain-utxo-tracker".

Lemma split_no_slash s : forallb (fun c => negb (bool_decide (c = "/"%char \/ c = "\"%char \/ c = Ascii.zero))) (String.list_ascii_of_string s) = true ->
  split_last_slash s = None.
Proof.
  induction s as [|c s IH]; [done|]. cbn [String.list_ascii_of_string forallb split_last_slash]. intros [Hc Hs]%andb_true_iff. rewrite (IH Hs).
  apply negb_true_iff, bool_decide_eq_false in Hc. rewrite bool_decide_eq_false_2; [done|]. intros ->. apply Hc. by left.
Qed.

Lemma split_after_dir dir s : split_last_slash s = None -> split_last_slash (String.append dir (String.String "/" s)) = Some (dir, s).
Proof. intros Hs. induction dir as [|c dir IH].
  - change (match split_last_slash s with Some (a, b) => Some (String.String "/" a, b) | None => Some ("", s) end = Some ("", s)). by rewrite Hs.
  - change (match split_last_slash (String.append dir (String.String "/" s)) with
            | Some (a, b) => Some (String.String c a, b)
            | None => if bool_decide (c = "/"%char) then Some ("", String.append dir (String.String "/" s)) else None end = Some (String.String c dir, s)).
    by rewrite IH. Qed.

Lemma safe_stays f : Admin.safeBootstrapFilename f = true -> dirname (String.append BOOTSTRAP_DIR (String.String "/" f)) = BOOTSTRAP_DIR.
Proof.
  unfold Admin.safeBootstrapFilename. rewrite !andb_true_iff. intros [[[[_ _] Hf] _] _]. unfold dirname. by rewrite (split_after_dir _ _ (split_no_slash _ Hf)).
Qed.

Lemma one_or_none (s : Admin.admin) : Admin.flights s -> size (Admin.inflight s) <= 1 /\ (Admin.busy s = true <-> Admin.inflight s <> ∅).
Proof.
  intros [[E Hb]|(id & o & E & _ & Hb & _)]; rewrite E, Hb; [by rewrite map_size_empty; split; [lia|]|].
  rewrite map_size_singleton. split; [lia|]. split; [|done]. intros _. apply map_non_empty_singleton.
Qed.

(** What an orderly run promises of the tracker under the operations. *)
Lemma calm_promises s : Admin.calm s ->
  size (Admin.starts s) <= 1
  /\ (forall id o, Admin.inflight s !! id = Some o -> Admin.op_phase o = Admin.Working -> Admin.starts s = ∅ /\ Admin.handles s = ∅)
  /\ (Admin.inflight s = ∅ ->
      (exists i, Admin.starts s !! i = Some Admin.Booting \/ Admin.starts s !! i = Some Admin.Looping) \/ Admin.halted (Admin.flag s) = true).
Proof.
  intros Hc. split_and!.
  - destruct Hc as (_ & [pc|] & _ & Hs & _); [destruct Hs as [i ->]; by rewrite map_size_singleton|]. cbn in Hs. rewrite Hs, map_size_empty. lia.
  - intros id [k f ph] El. cbn. intros ->. by destruct (Admin.calm_working _ _ _ _ Hc El) as (_ & ? & ? & _).
  - intros E. destruct Hc as (ph & pc & Ho & Hs & _ & Ha). destruct ph as [ph|].
    { destruct Ho as (id & k & f & E'). rewrite E in E'. symmetry in E'. by apply map_non_empty_singleton in E'. }
    unfold Admin.agrees in Ha. destruct (Admin.flag s). destruct pc as [[]|]; try done; [left|left|right; naive_solver];
      destruct Hs as [i Ei]; exists i; rewrite Ei, lookup_singleton_eq; auto.
Qed.

(** ** The races

    A request right after an operation, while the [start()] that gives the tracker back
    still boots: the flag of the earlier stop resolves the new one at once, and the wipe
    runs under a loop with the store open. *)
Definition boot_race : list Admin.admin_event :=
  [Admin.BootSettles 0 Admin.Enters; Admin.Request Admin.Bootstrap "a.tar.gz"; Admin.LoopSees 0; Admin.CloseSettles 0 true;
   Admin.StopPolls 0; Admin.CompressSettles 0 true; Admin.Request Admin.Restoring "b.tar.gz"; Admin.BootSettles 1 Admin.Enters].

Lemma request_during_boot_meets_the_loop :
  let s := Admin.admin_run boot_race Admin.admin0 in
  Admin.inflight s !! 1 = Some (Admin.mkOp Admin.Restoring "b.tar.gz" Admin.Working)
  /\ Admin.starts s !! 1 = Some Admin.Looping /\ 1 ∈ Admin.handles s /\ Admin.orderly boot_race Admin.admin0 = false.
Proof. by vm_compute. Qed.

(** The last poll finds the loop closing the store: the request is told that the tracker
    runs on, the loop ends all the same, and nobody starts another. *)
Definition close_race : list Admin.admin_event :=
  [Admin.BootSettles 0 Admin.Enters; Admin.Request Admin.Bootstrap "a.tar.gz"] ++ repeat (Admin.StopPolls 0) 9
  ++ [Admin.LoopSees 0; Admin.StopPolls 0; Admin.CloseSettles 0 true].

Lemma expiry_during_close_ends_indexing :
  let s := Admin.admin_run close_race Admin.admin0 in
  Admin.inflight s = ∅ /\ Admin.starts s = ∅ /\ Admin.exited s = None /\ Admin.halted (Admin.flag s) = false
  /\ Admin.keepParsing (Admin.flag s) = true /\ Admin.orderly close_race Admin.admin0 = false.
Proof. by vm_compute. Qed.

(** * Theorems *)

(** C16 The admin operations exclude each other, and what they promise of the tracker.
    Whatever requests, polls, closes, boots, failures and progress come in whatever order:
    at most one operation is in flight, and the guard is set exactly then; its archive lies
    directly in the bootstrap directory; its wait for the loop is over after ten polls; the
    process exits because of a restore exactly when that restore failed after the wipe (a
    [start()] that rejects with any fault but an unrecoverable reorg exits too); and a
    halt stands until a restore succeeds.
    If moreover the run meets neither of the two races ([Admin.races]: no request is taken
    while a relaunched [start()] boots under the flag of the stop before it, and no stop
    gives up while the loop is closing the store), then in a process that has not exited at
    most one call of [start()] lives; while [pigz] works, none does and no store is open;
    and with nothing in flight a [start()] boots or indexes, or the tracker is halted. *)
Theorem admin_operations_exclude_each_other es :
  let s := Admin.admin_run es Admin.admin0 in
  size (Admin.inflight s) <= 1 /\ (Admin.busy s = true <-> Admin.inflight s <> ∅)
  /\ (forall id o, Admin.inflight s !! id = Some o ->
        dirname (String.append BOOTSTRAP_DIR (String.String "/" (Admin.op_file o))) = BOOTSTRAP_DIR)
  /\ (forall id k f n, Admin.exited s = None ->
        Admin.inflight (Admin.admin_run (es ++ repeat (Admin.StopPolls id) 10) Admin.admin0) !! id <> Some (Admin.mkOp k f (Admin.Waiting n)))
  /\ (Admin.exited s = Some Admin.RestoreFailed <-> Admin.store s = Admin.Wiped)
  /\ (forall es', Admin.halted (Admin.flag s) = true -> (forall id, Admin.RestoreSettles id Restored ∉ es') ->
        Admin.halted (Admin.flag (Admin.admin_run (es ++ es') Admin.admin0)) = true)
  /\ (Admin.orderly es Admin.admin0 = true -> Admin.exited s = None ->
        size (Admin.starts s) <= 1
        /\ (forall id o, Admin.inflight s !! id = Some o -> Admin.op_phase o = Admin.Working -> Admin.starts s = ∅ /\ Admin.handles s = ∅)
        /\ (Admin.inflight s = ∅ ->
            (exists i, Admin.starts s !! i = Some Admin.Booting \/ Admin.starts s !! i = Some Admin.Looping)
            \/ Admin.halted (Admin.flag s) = true)).
Proof.
  intros s. destruct (Admin.admin_inv_run es _ Admin.admin_inv_admin0) as [Hf Hx]. fold s in Hf, Hx.
  destruct (one_or_none _ Hf) as [H1 H2]. split_and!; [done|done|..].
  - intros id o Hl. destruct (Admin.in_flight _ _ _ Hf Hl) as (_ & _ & _ & Hs & _). by apply safe_stays.
  - intros id k f n Ex. unfold Admin.admin_run. rewrite foldl_app. apply (Admin.polls_end id 10 s Ex Hf).
    intros k' f' m Hl. destruct (Admin.in_flight _ _ _ Hf Hl) as (_ & _ & _ & _ & Hw & _). apply (Hw m eq_refl).
  - exact Hx.
  - intros es' Hh He. unfold Admin.admin_run. rewrite foldl_app. by apply Admin.halted_run.
  - intros Hor Ex. apply calm_promises, Admin.calm_run; [by apply Admin.admin_inv_admin0| |done|done].
    intros _. exact Admin.calm_admin0.
Qed.

(** A tracker that halts over an unrecoverable reorg: a snapshot of it, refused a second
    request meanwhile, gives it back halted; a restore replaces its store, and it indexes.  *)
Definition halt_then_restore : list Admin.admin_event :=
  [Admin.BootSettles 0 Admin.Enters; Admin.LoopFails 0 true; Admin.Request Admin.Bootstrap "a.tar.gz"; Admin.Request Admin.Restoring "b.tar.gz";
   Admin.StopCloses 0 true; Admin.Progress 0 40; Admin.CompressSettles 0 true; Admin.BootSettles 1 Admin.FindsMarker;
   Admin.Request Admin.Bootstrap "../b"; Admin.Request Admin.Restoring "c.tar.gz"; Admin.StopCloses 1 true].

Lemma admin_operations_exclude_each_other_witness :
  let s := Admin.admin_run halt_then_restore Admin.admin0 in
  let s' := Admin.admin_run (halt_then_restore ++ [Admin.RestoreSettles 1 Restored; Admin.BootSettles 2 Admin.Enters]) Admin.admin0 in
  (Admin.inflight s !! 1 = Some (Admin.mkOp Admin.Restoring "c.tar.gz" Admin.Working) /\ Admin.halted (Admin.flag s) = true
   /\ Admin.starts s = ∅ /\ Admin.handles s = ∅)
  /\ (Admin.store s' = Admin.Archive "c.tar.gz" /\ Admin.halted (Admin.flag s') = false /\ Admin.starts s' = {[2 := Admin.Looping]}).
Proof.
  intros s s'. split; [|by vm_compute].
  assert (El : Admin.inflight s !! 1 = Some (Admin.mkOp Admin.Restoring "c.tar.gz" Admin.Working)) by reflexivity.
  split; [exact El|]. split; [reflexivity|].
  destruct (admin_operations_exclude_each_other halt_then_restore) as (_ & _ & _ & _ & _ & _ & H).
  destruct (H ltac:(vm_compute; reflexivity) ltac:(vm_compute; reflexivity)) as (_ & Hw & _). by apply (Hw 1 _ El).
Defined.

(** A host with one signed, checksummed archive of a store. *)
Definition a_digest : string := "00112233445566778899aabbccddeeff00112233445566778899aabbccddeeff".
Definition demo_host : ArchiveHost := {|
  readText s := if bool_decide (s = "a.tar.gz.sig") then Some "v1 ed25519 QQ" else if bool_decide (s = "a.tar.gz.sha256") then Some (String.append a_digest "  a.tar.gz") else None;
  sha256File s := if bool_decide (s = "a.tar.gz") then Ok a_digest else Err refused;
  tarList s := (["./"; "./CURRENT"; "./MANIFEST-000004"; "./000005.ldb"], true);
  pubkey := true;
  verify_asymmetric d sig := bool_decide (d = a_digest);
  base64 _ := repeat Byte.x00 64;
  tarUnwrap _ := Err refused;
|}.
Definition demo_dir : DataDir := {| deletable _ := true; extract _ := ([("CURRENT", false); ("MANIFEST-000004", false)], true) |}.

Lemma restore_wipes_only_for_checked_archives_witness :
  let opts := mkRestoreOptions None None (Some "bitcoin-mainnet") in
  (@decompressPigz demo_host demo_dir opts "a.tar.gz" [("LOCK", false)]).1 = Restored
  /\ (@decompressPigz demo_host demo_dir opts "b.tar.gz" [("LOCK", false)]).2 = [("LOCK", false)]
  /\ exists effective, @authentic demo_host opts "a.tar.gz" /\ @holds_store demo_host effective.
Proof.
  intros opts. split_and!; [vm_compute; reflexivity|vm_compute; reflexivity|].
  pose proof (@restore_wipes_only_for_checked_archives demo_host demo_dir opts "a.tar.gz" [("LOCK", false)]) as H.
  assert (E : (@decompressPigz demo_host demo_dir opts "a.tar.gz" [("LOCK", false)]) = (Restored, [("CURRENT", false); ("MANIFEST-000004", false)])) by (vm_compute; reflexivity).
  rewrite E in H. destruct H as (effective & wrapped & H1 & _ & _ & H4 & _). by exists effective.
Defined.
