(* ===== verification/RecordFiles.v ===== *)
(** The files of the bulk seeder: buffered readers and writers of fixed-size records
    ([RecordReader], [RecordWriter] of [bulk_sync/merger/streaming_join.js], [FlatWriter]
    of [merger/derive_keys/record_layout.js], [FixedRecordWriter] of [writers.js]) and the
    64-byte header of the parse streams.  A file is its bytes; file names, handles,
    syncs and renames are left out, so a file here is one whose writer closed. *)

From S2P Require Import Prelude Wire.

#[local] Open Scope string_scope.
#[local] Open Scope nat_scope.
#[local] Open Scope list_scope.

Definition failure (s : string) : js_error := Error (EMsg s).

(** * Records *)

Fixpoint split_records (fuel recordSize : nat) (data : bytes) : list bytes :=
  match fuel, data with
  | S f, _ :: _ => take recordSize data :: split_records f recordSize (drop recordSize data)
  | _, _ => []
  end.

(** The records a file's data holds, one after the other. *)
Definition records (recordSize : nat) (data : bytes) : list bytes :=
  split_records (length data) recordSize data.

Definition sized (n : nat) (l : list bytes) : Prop := forall r, r ∈ l -> length r = n.

Lemma length_concat_sized n l : sized n l -> length (concat l) = length l * n.
Proof.
  induction l as [|r l IH]; intros Hl; [done|]. cbn [concat length]. rewrite length_app, (Hl r), IH by (set_solver || (intros x Hx; apply Hl; set_solver)). lia.
Qed.

Lemma split_records_concat n l fuel : 0 < n -> sized n l -> length l <= fuel -> split_records fuel n (concat l) = l.
Proof.
  intros Hn. induction l as [|r l IH] in fuel |- *; intros Hl Hf; [by destruct fuel|].
  destruct fuel as [|f]; [cbn in Hf; lia|]. pose proof (Hl r ltac:(set_solver)) as Hr.
  assert (Hs : sized n l) by (intros x Hx; apply Hl; set_solver). cbn [concat].
  destruct (r ++ concat l) as [|x t] eqn:E; [by apply app_eq_nil in E as [-> _]; cbn in Hr; lia|].
  cbn [split_records]. rewrite <- E, take_app_length', drop_app_length' by done. rewrite IH; [done|done|cbn in Hf; lia].
Qed.

Lemma records_concat n l : 0 < n -> sized n l -> records n (concat l) = l.
Proof.
  intros Hn Hl. apply split_records_concat; [done|done|]. rewrite (length_concat_sized n) by done. nia.
Qed.

Lemma split_records_sized n data fuel k : length data = k * n -> 0 < n -> length data <= fuel ->
  sized n (split_records fuel n data) /\ concat (split_records fuel n data) = data.
Proof.
  intros Hk Hn. induction fuel as [|f IH] in data, k, Hk |- *; intros Hf.
  { destruct data; [|cbn in Hf; lia]. split; [|done]. by intros r Hr%elem_of_nil. }
  destruct data as [|x t] eqn:E; [split; [|done]; by intros r Hr%elem_of_nil|]. rewrite <- E in *. cbn [split_records].
  replace (match data with [] => [] | _ :: _ => take n data :: split_records f n (drop n data) end)
    with (take n data :: split_records f n (drop n data)) by by rewrite E.
  destruct k as [|k]; [rewrite E in Hk; cbn in Hk; lia|].
  destruct (IH (drop n data) k) as [H1 H2]; [rewrite length_drop; lia|rewrite length_drop; lia|]. split.
  - intros r [->|Hr]%elem_of_cons; [rewrite length_take; lia|by apply H1].
  - cbn [concat]. by rewrite H2, take_drop.
Qed.

(** Whole records: splitting loses nothing. *)
Lemma records_whole n data k : length data = k * n -> 0 < n -> sized n (records n data) /\ concat (records n data) = data.
Proof. intros. by eapply split_records_sized. Qed.

(** [f] on each record in turn, stopping at the first throw. *)
Fixpoint fold_res {A S} (f : A -> S -> res S) (l : list A) (s : S) : res S :=
  match l with [] => Ok s | x :: l => s ← f x s; fold_res f l s end.

Lemma fold_res_pure {A S} (f : A -> S -> S) l s : fold_res (fun x s => Ok (f x s)) l s = Ok (foldl (fun s x => f x s) s l).
Proof. revert s. by induction l as [|x l IH]; intros s; cbn; [|rewrite IH]. Qed.

Lemma fold_res_app {A S} (f : A -> S -> res S) l1 l2 s :
  fold_res f (l1 ++ l2) s = (s ← fold_res f l1 s; fold_res f l2 s).
Proof. revert s. induction l1 as [|x l IH]; intros s; cbn; [done|]. destruct (f x s); cbn; [by rewrite IH|done]. Qed.

(** ** Fields

    A record or header as its fields one after the other. *)

Lemma concat_split (fs : list bytes) i f : fs !! i = Some f -> concat fs = concat (take i fs) ++ f ++ concat (drop (S i) fs).
Proof. intros Hi. rewrite <- (take_drop_middle fs i f Hi) at 1. by rewrite concat_app. Qed.

Lemma slice_field (fs : list bytes) i f rest a :
  fs !! i = Some f -> length (concat (take i fs)) = a -> slice a (a + length f) (concat fs ++ rest) = f.
Proof.
  intros Hi <-. rewrite (concat_split fs i f Hi). rewrite <- !app_assoc.
  unfold slice. rewrite drop_app_length. replace (_ + _ - _) with (length f) by lia. by rewrite take_app_length.
Qed.

Lemma patch_field (fs : list bytes) i f v rest a :
  fs !! i = Some f -> length v = length f -> length (concat (take i fs)) = a ->
  buf_write (concat fs ++ rest) a v = concat (<[i:=v]> fs) ++ rest.
Proof.
  intros Hi Hv <-. pose proof (lookup_lt_Some _ _ _ Hi). rewrite insert_take_drop by done. rewrite (concat_split fs i f Hi).
  rewrite !concat_app. cbn [concat]. rewrite <- !app_assoc. unfold buf_write. rewrite take_app_length. f_equal.
  rewrite take_ge by (rewrite !length_app; lia). f_equal. by rewrite <- drop_drop, drop_app_length, drop_app_length'.
Qed.

(** * Buffered writing *)

Definition IO_CHUNK_BYTES : Z := 262144.

(** Records a scratch buffer holds. *)
Definition recordCap (recordSize : nat) : Z := Z.max 1 (IO_CHUNK_BYTES / Z.of_nat recordSize).

(** What is in the file, the filled part of the buffer, its records, and all records. *)
Record writer := mkWriter { w_file : bytes; w_buf : bytes; w_len : Z; w_count : Z }.

Definition new_writer (header : bytes) : writer := mkWriter header [] 0 0.

Definition flush (w : writer) : writer :=
  if bool_decide (w_len w = 0%Z) then w else mkWriter (w_file w ++ w_buf w) [] 0 (w_count w).

(** One record into the next slot. *)
Definition slot (record : bytes) (w : writer) : writer :=
  mkWriter (w_file w) (w_buf w ++ record) (w_len w + 1) (w_count w + 1).

(** [RecordWriter.writeRecord]. *)
Definition writeRecord (recordSize : nat) (record : bytes) (w : writer) : writer :=
  let w := slot record w in
  if bool_decide (w_len w = recordCap recordSize) then flush w else w.

(** [FlatWriter.write], its filler having filled the slot. *)
Definition flatWrite (recordSize : nat) (record : bytes) (w : writer) : writer :=
  let w := slot record w in
  if bool_decide (recordCap recordSize * Z.of_nat recordSize < w_len w * Z.of_nat recordSize + Z.of_nat recordSize)%Z
  then flush w else w.

(** [FixedRecordWriter.advance], after the slot is filled. *)
Definition advance (recordSize : nat) (record : bytes) (w : writer) : writer :=
  let w := slot record w in
  if bool_decide (w_len w = recordCap recordSize) then flush w else w.

(** [close]: the file. *)
Definition close_file (w : writer) : bytes := w_file (flush w).

(** ** What was written *)

Definition contents (w : writer) : bytes := w_file w ++ w_buf w.

Definition writer_ok (w : writer) : Prop := (w_len w = 0%Z -> w_buf w = []) /\ (0 <= w_len w)%Z.

Lemma contents_flush w : writer_ok w -> contents (flush w) = contents w /\ writer_ok (flush w).
Proof.
  intros [He Hp]. unfold flush. case_bool_decide as E; [done|]. split; [|by split]. unfold contents. cbn. by rewrite app_nil_r.
Qed.

Lemma contents_slot r w : writer_ok w -> contents (slot r w) = contents w ++ r /\ writer_ok (slot r w).
Proof. intros [He Hp]. unfold contents, writer_ok. cbn. rewrite app_assoc. split; [done|]. split; lia. Qed.

Definition writes_on (write : bytes -> writer -> writer) : Prop :=
  forall r w, writer_ok w -> contents (write r w) = contents w ++ r /\ writer_ok (write r w) /\ w_count (write r w) = (w_count w + 1)%Z.

Lemma w_count_flush w : w_count (flush w) = w_count w.
Proof. unfold flush. by case_bool_decide. Qed.

Lemma writes_on_slot (full : writer -> bool) : writes_on (fun r w => if full (slot r w) then flush (slot r w) else slot r w).
Proof.
  intros r w Hw. destruct (contents_slot r w Hw) as [Hc Ho]. destruct (full _); [|done].
  destruct (contents_flush _ Ho) as [-> ?]. by rewrite w_count_flush.
Qed.

Lemma writes_on_writeRecord n : writes_on (writeRecord n).
Proof. exact (writes_on_slot (fun w => bool_decide (w_len w = recordCap n))). Qed.

Lemma writes_on_flatWrite n : writes_on (flatWrite n).
Proof. exact (writes_on_slot (fun w => bool_decide (recordCap n * Z.of_nat n < w_len w * Z.of_nat n + Z.of_nat n)%Z)). Qed.

Lemma writes_on_advance n : writes_on (advance n).
Proof. exact (writes_on_slot (fun w => bool_decide (w_len w = recordCap n))). Qed.

Lemma close_contents w : writer_ok w -> close_file w = contents w.
Proof.
  intros [He Hp]. unfold close_file, flush, contents. case_bool_decide as E; [|done]. rewrite He by done. by rewrite app_nil_r.
Qed.

Lemma writer_ok_new h : writer_ok (new_writer h).
Proof. by split. Qed.

(** A run of writes puts its records one after the other, whatever the buffering. *)
Lemma writes_all write l w :
  writes_on write -> writer_ok w ->
  contents (foldl (fun w r => write r w) w l) = contents w ++ concat l
  /\ writer_ok (foldl (fun w r => write r w) w l)
  /\ w_count (foldl (fun w r => write r w) w l) = (w_count w + Z.of_nat (length l))%Z.
Proof.
  intros Hw. induction l as [|r l IH] in w |- *; intros Hok; cbn [foldl concat length]; [rewrite app_nil_r; split_and!; [done|done|lia]|].
  destruct (Hw r w Hok) as (Hc & Ho & Hn). destruct (IH _ Ho) as (-> & ? & ->). rewrite Hc, Hn, app_assoc. split_and!; [done|done|lia].
Qed.

(** * Buffered reading *)

(** [rd_buf] is the valid part of the scratch buffer, [rd_off] how much of it is read. *)
Record reader := mkReader { rd_file : bytes; rd_size : nat; rd_pos : nat; rd_buf : bytes; rd_off : nat }.

Definition newRecordReader (file : bytes) (headerSize recordSize : nat) : res reader :=
  let dataBytes := (len file - Z.of_nat headerSize)%Z in
  if bool_decide (dataBytes < 0)%Z || negb (bool_decide (dataBytes mod Z.of_nat recordSize = 0)%Z)
  then Err (failure "RecordReader: not a multiple of recordSize")
  else Ok (mkReader file recordSize headerSize [] 0).

Definition refill (r : reader) : bool * reader :=
  let fin := length (rd_file r) in
  if bool_decide (fin <= rd_pos r) then (false, mkReader (rd_file r) (rd_size r) (rd_pos r) [] 0)
  else
    let want := Z.to_nat (Z.min (recordCap (rd_size r) * Z.of_nat (rd_size r)) (Z.of_nat (fin - rd_pos r))) in
    (true, mkReader (rd_file r) (rd_size r) (rd_pos r + want) (slice (rd_pos r) (rd_pos r + want) (rd_file r)) 0).

(** The next record, [None] for [null]. *)
Definition next (r : reader) : option bytes * reader :=
  let view r := (Some (slice (rd_off r) (rd_off r + rd_size r) (rd_buf r)),
                 mkReader (rd_file r) (rd_size r) (rd_pos r) (rd_buf r) (rd_off r + rd_size r)) in
  if bool_decide (length (rd_buf r) <= rd_off r) then
    match refill r with (true, r) => view r | (false, r) => (None, r) end
  else view r.

(** [while (true) { const rec = reader.next(); if (!rec) break; s = f(rec, s) }]; the
    file has fewer records than bytes. *)
Fixpoint while_records {S} (fuel : nat) (f : bytes -> S -> res S) (r : reader) (s : S) : res S :=
  match fuel with
  | O => Ok s
  | Datatypes.S n =>
      match next r with
      | (Some rec, r) => s ← f rec s; while_records n f r s
      | (None, _) => Ok s
      end
  end.

Definition for_records {S} (file : bytes) (headerSize recordSize : nat) (f : bytes -> S -> res S) (s : S) : res S :=
  r ← newRecordReader file headerSize recordSize;
  while_records (Datatypes.S (length file)) f r s.

(** ** What is read *)

Definition unread (r : reader) : bytes := drop (rd_off r) (rd_buf r) ++ drop (rd_pos r) (rd_file r).

(** Buffer and file hold whole records. *)
Definition reader_ok (r : reader) : Prop :=
  0 < rd_size r
  /\ (exists k, length (drop (rd_off r) (rd_buf r)) = k * rd_size r)
  /\ (exists k, length (drop (rd_pos r) (rd_file r)) = k * rd_size r).

Lemma next_refilled r :
  reader_ok r -> drop (rd_off r) (rd_buf r) = [] -> rd_pos r < length (rd_file r) ->
  exists r', refill r = (true, r') /\ unread r' = unread r /\ reader_ok r' /\ rd_size r' = rd_size r
    /\ rd_off r' = 0 /\ rd_buf r' <> [].
Proof.
  intros (Hs & _ & k & Hk) He Hp. unfold refill. rewrite bool_decide_eq_false_2 by lia.
  set (want := Z.to_nat _). eexists. split; [reflexivity|]. unfold unread, reader_ok. cbn [rd_off rd_buf rd_pos rd_file rd_size drop].
  rewrite length_drop in Hk. assert (Hc : (1 <= recordCap (rd_size r))%Z) by (unfold recordCap; lia).
  assert (Hw : exists j, want = j * rd_size r /\ 0 < j /\ want <= length (rd_file r) - rd_pos r).
  { unfold want. destruct (Z.min_spec (recordCap (rd_size r) * Z.of_nat (rd_size r)) (Z.of_nat (length (rd_file r) - rd_pos r))) as [[? ->]|[? ->]].
    - exists (Z.to_nat (recordCap (rd_size r))). nia.
    - exists k. rewrite Nat2Z.id. nia. }
  destruct Hw as (j & Hj & Hjp & Hle). unfold slice. replace (rd_pos r + want - rd_pos r) with want by lia.
  rewrite He. cbn [app]. rewrite <- drop_drop. split_and!.
  - apply take_drop.
  - done.
  - exists j. rewrite drop_0, length_take, length_drop. lia.
  - exists (k - j). rewrite !length_drop. nia.
  - done.
  - done.
  - intros E. apply (f_equal length) in E. rewrite length_take, length_drop in E. cbn in E. nia.
Qed.

Lemma next_buffered r :
  reader_ok r -> rd_off r < length (rd_buf r) ->
  let r' := mkReader (rd_file r) (rd_size r) (rd_pos r) (rd_buf r) (rd_off r + rd_size r) in
  slice (rd_off r) (rd_off r + rd_size r) (rd_buf r) = take (rd_size r) (unread r)
  /\ unread r' = drop (rd_size r) (unread r) /\ reader_ok r' /\ unread r <> [].
Proof.
  intros (Hs & [k Hk] & Hf) Ho r'. rewrite length_drop in Hk. assert (Hle : rd_size r <= length (rd_buf r) - rd_off r) by (destruct k; lia).
  unfold slice, unread, r'. cbn [rd_off rd_buf rd_pos rd_file rd_size].
  replace (rd_off r + rd_size r - rd_off r) with (rd_size r) by lia.
  rewrite take_app_le, drop_app_le, drop_drop by (rewrite length_drop; lia). split_and!; [done|done| |].
  - split_and!; cbn; [done| |done]. exists (k - 1). rewrite length_drop. nia.
  - intros E. apply (f_equal length) in E. rewrite length_app, length_drop in E. cbn in E. lia.
Qed.

Lemma next_spec r :
  reader_ok r ->
  match next r with
  | (Some rec, r') => unread r <> [] /\ rec = take (rd_size r) (unread r) /\ unread r' = drop (rd_size r) (unread r)
                      /\ reader_ok r' /\ rd_size r' = rd_size r
  | (None, _) => unread r = []
  end.
Proof.
  intros Hr. unfold next. case_bool_decide as Hb.
  - assert (He : drop (rd_off r) (rd_buf r) = []) by by apply drop_ge.
    destruct (decide (rd_pos r < length (rd_file r))) as [Hp|Hp].
    + destruct (next_refilled r Hr He Hp) as (r' & -> & Hu & Hok & Hsz & Hoff & Hne).
      destruct (next_buffered r' Hok) as (H1 & H2 & H3 & H4); [rewrite Hoff; destruct (rd_buf r'); [done|cbn; lia]|].
      rewrite <- Hu, <- Hsz. by split_and!.
    + unfold refill. rewrite bool_decide_eq_true_2 by lia. unfold unread. rewrite He. apply drop_ge. lia.
  - destruct (next_buffered r Hr) as (H1 & H2 & H3 & H4); [lia|]. by split_and!.
Qed.

(** A loop over a reader is a loop over the records that are left. *)
Lemma while_records_spec {S} (f : bytes -> S -> res S) fuel r s :
  reader_ok r -> length (unread r) < fuel ->
  while_records fuel f r s = fold_res f (records (rd_size r) (unread r)) s.
Proof.
  induction fuel as [|n IH] in r, s |- *; intros Hr Hf; [lia|]. cbn [while_records]. pose proof (next_spec r Hr) as Hn.
  destruct (next r) as [[rec|] r'].
  - destruct Hn as (Hne & -> & Hu & Hok & Hsz). destruct (unread r) as [|x t] eqn:E; [done|]. rewrite <- E in *. clear Hne.
    assert (Er : records (rd_size r) (unread r) = take (rd_size r) (unread r) :: records (rd_size r) (drop (rd_size r) (unread r))).
    { unfold records. pose proof (proj1 Hr). assert (Hk : exists k, length (unread r) = k * rd_size r).
      { destruct Hr as (_ & [a Ha] & [b Hb]). exists (a + b). unfold unread. rewrite length_app. lia. }
      destruct Hk as [k Hk]. assert (0 < k) by (destruct k; [rewrite E in Hk; cbn in Hk; lia|lia]).
      destruct (records_whole (rd_size r) (drop (rd_size r) (unread r)) (k - 1)) as [Hs1 Hc1]; [rewrite length_drop; nia|done|].
      rewrite <- Hc1 at 2. rewrite E at 1 2. cbn [length split_records]. rewrite <- E. f_equal.
      rewrite <- Hc1 at 1. rewrite split_records_concat; [by rewrite Hc1|done|done|].
      pose proof (length_concat_sized _ _ Hs1) as Hl. rewrite Hc1, length_drop, E, length_cons in Hl. rewrite E in *. nia. }
    rewrite Er. cbn [fold_res]. destruct (f _ s) as [s'|e]; cbn [mbind res_bind]; [|done].
    rewrite IH; [by rewrite Hsz, Hu|done|]. rewrite Hu, length_drop, E. pose proof (proj1 Hr). rewrite E in Hf. cbn in *. lia.
  - by rewrite Hn.
Qed.

(** A file is read as the records it was written as. *)
Lemma for_records_written {S} (f : bytes -> S -> res S) header n l s :
  0 < n -> sized n l -> for_records (header ++ concat l) (length header) n f s = fold_res f l s.
Proof.
  intros Hn Hl. unfold for_records, newRecordReader. rewrite len_app. replace (len header + len (concat l) - Z.of_nat (length header))%Z with (len (concat l)) by (unfold len; lia).
  assert (Hc : len (concat l) = (Z.of_nat (length l) * Z.of_nat n)%Z) by (unfold len; rewrite (length_concat_sized n) by done; lia).
  rewrite Hc, Z.mod_mul by lia. rewrite bool_decide_eq_false_2, bool_decide_eq_true_2 by lia. cbn [orb negb mbind res_bind].
  rewrite while_records_spec; cbn [unread rd_off rd_buf rd_pos rd_file rd_size drop app].
  - by rewrite drop_app_length, records_concat.
  - split_and!; cbn; [done|by exists 0|]. exists (length l). rewrite drop_app_length. by apply length_concat_sized.
  - unfold unread. cbn. rewrite drop_app_length, length_app. lia.
Qed.

(** A truncated file is refused before any record is read. *)
Lemma for_records_truncated {S} (f : bytes -> S -> res S) file h n s :
  (len file < Z.of_nat h \/ (len file - Z.of_nat h) mod Z.of_nat n <> 0)%Z -> exists e, for_records file h n f s = Err e.
Proof.
  intros Hb. unfold for_records, newRecordReader. destruct (bool_decide (_ < 0)%Z) eqn:E1; cbn [orb]; [by eexists|].
  apply bool_decide_eq_false in E1. rewrite bool_decide_eq_false_2 by lia. by eexists.
Qed.

(** A reader with the records [l] to go. *)
Definition reading (r : reader) (l : list bytes) : Prop :=
  reader_ok r /\ sized (rd_size r) l /\ unread r = concat l.

Lemma next_reading r l :
  reading r l ->
  match l with
  | [] => (next r).1 = None
  | x :: t => exists r', next r = (Some x, r') /\ reading r' t
  end.
Proof.
  intros (Hok & Hs & Hu). pose proof (next_spec r Hok) as Hn. destruct l as [|x t].
  - destruct (next r) as [[rec|] r']; [|done]. destruct Hn as (Hne & _). by destruct Hne.
  - pose proof (Hs x ltac:(left)) as Hx. pose proof (proj1 Hok) as Hp. destruct (next r) as [[rec|] r'].
    + destruct Hn as (_ & -> & Hu' & Hok' & Hsz). exists r'. rewrite Hu in *. cbn [concat] in *.
      rewrite take_app_length' by done. split; [done|]. split_and!; [done| |].
      * intros y Hy. rewrite Hsz. apply Hs. by right.
      * by rewrite Hu', drop_app_length'.
    + rewrite Hu in Hn. cbn in Hn. apply app_eq_nil in Hn as [E _]. rewrite E in Hx. cbn in Hx. lia.
Qed.

Lemma reading_new header n l :
  0 < n -> sized n l ->
  exists r, newRecordReader (header ++ concat l) (length header) n = Ok r /\ reading r l /\ rd_file r = header ++ concat l.
Proof.
  intros Hn Hl. unfold newRecordReader. rewrite len_app.
  replace (len header + len (concat l) - Z.of_nat (length header))%Z with (Z.of_nat (length l) * Z.of_nat n)%Z
    by (unfold len; rewrite (length_concat_sized n) by done; lia).
  rewrite Z.mod_mul by lia. rewrite bool_decide_eq_false_2, bool_decide_eq_true_2 by lia. eexists. split; [done|]. split; [|done].
  split_and!; [|done|unfold unread; cbn; by rewrite drop_app_length].
  split_and!; cbn; [done|by exists 0|]. exists (length l). rewrite drop_app_length. by apply length_concat_sized.
Qed.

Lemma next_file r : rd_file (next r).2 = rd_file r.
Proof. unfold next, refill. by repeat case_bool_decide. Qed.
