(* ===== verification/Heap.v ===== *)
(** The binary min-heap of [bulk_sync/merger/external_sort.js]: an array, a push that
    sifts up and a pop that sifts down.  The order is an interface, instantiated at the
    merge by [MinHeap.less] (key bytes, then run number). *)

From S2P Require Import Prelude.

#[local] Open Scope nat_scope.
#[local] Open Scope list_scope.

(** * The order

    A strict weak order: [le a b] ("not [less b a]") is then total and transitive. *)

Class HeapOrder (A : Type) := {
  less : A -> A -> bool;
  less_asym : forall a b, less a b = true -> less b a = false;
  less_neg_trans : forall a b c, less b a = false -> less c b = false -> less c a = false;
}.

Section heap.
Context {A : Type} {ord : HeapOrder A}.
Implicit Types (nodes : list A) (a b : A).

Definition le a b : Prop := less b a = false.

(** * Operations *)

(** [const tmp = nodes[i]; nodes[i] = nodes[j]; nodes[j] = tmp]. *)
Definition swap nodes (i j : nat) : list A :=
  match nodes !! i, nodes !! j with
  | Some a, Some b => <[j:=a]> (<[i:=b]> nodes)
  | _, _ => nodes
  end.

(** [this.less(nodes[i], nodes[j])]. *)
Definition less_at nodes (i j : nat) : bool :=
  match nodes !! i, nodes !! j with Some a, Some b => less a b | _, _ => false end.

Definition parent (i : nat) : nat := (i - 1) / 2.

Fixpoint siftUp (fuel : nat) nodes (i : nat) : list A :=
  match fuel with
  | O => nodes
  | S f =>
      if bool_decide (0 < i) then
        if less_at nodes i (parent i) then siftUp f (swap nodes i (parent i)) (parent i)
        else nodes
      else nodes
  end.

(** Every turn moves towards the root. *)
Definition push (x : A) nodes : list A :=
  let nodes := nodes ++ [x] in
  siftUp (length nodes) nodes (length nodes - 1).

Fixpoint siftDown (fuel : nat) nodes (i : nat) : list A :=
  match fuel with
  | O => nodes
  | S f =>
      let n := length nodes in
      let l := 2 * i + 1 in
      let r := 2 * i + 2 in
      let smallest := if bool_decide (l < n) && less_at nodes l i then l else i in
      let smallest := if bool_decide (r < n) && less_at nodes r smallest then r else smallest in
      if bool_decide (smallest = i) then nodes else siftDown f (swap nodes i smallest) smallest
  end.

(** [None] is [undefined]; every turn moves away from the root. *)
Definition pop nodes : option (A * list A) :=
  match nodes with
  | [] => None
  | top :: _ =>
      match last nodes with
      | Some x =>
          let nodes := removelast nodes in
          if bool_decide (0 < length nodes)
          then Some (top, siftDown (length nodes) (<[0:=x]> nodes) 0)
          else Some (top, nodes)
      | None => None
      end
  end.

(** * Facts *)

Lemma le_refl a : le a a.
Proof. unfold le. destruct (less a a) eqn:E; [|done]. by rewrite (less_asym _ _ E) in E. Qed.

Lemma le_trans a b c : le a b -> le b c -> le a c.
Proof. unfold le. intros H1 H2. by eapply less_neg_trans. Qed.

Lemma less_le a b : less a b = true -> le a b.
Proof. apply less_asym. Qed.

Lemma parent_lt i : 0 < i -> parent i < i.
Proof. intros Hi. unfold parent. apply Nat.Div0.div_lt_upper_bound. lia. Qed.

Lemma parent_child i j : 0 < j -> parent j = i <-> j = 2 * i + 1 \/ j = 2 * i + 2.
Proof.
  intros Hj. unfold parent. pose proof (Nat.div_mod_eq (j - 1) 2). pose proof (Nat.mod_upper_bound (j - 1) 2 ltac:(lia)).
  split; intros Hp; lia.
Qed.

Lemma length_swap nodes i j : length (swap nodes i j) = length nodes.
Proof. unfold swap. destruct (nodes !! i), (nodes !! j); by rewrite ?length_insert. Qed.

(** The two places exchanged, the rest as it was. *)
Lemma lookup_swap nodes i j k :
  i < length nodes -> j < length nodes ->
  swap nodes i j !! k
  = if decide (k = j) then nodes !! i else if decide (k = i) then nodes !! j else nodes !! k.
Proof.
  intros Hi Hj. destruct (lookup_lt_is_Some_2 nodes i Hi) as [a Ha], (lookup_lt_is_Some_2 nodes j Hj) as [b Hb].
  unfold swap. rewrite Ha, Hb. case_decide as E; [subst; by rewrite list_lookup_insert_eq by (rewrite length_insert; lia)|].
  rewrite list_lookup_insert_ne by done. case_decide as E'; [subst; by rewrite list_lookup_insert_eq by lia|].
  by rewrite list_lookup_insert_ne.
Qed.

Lemma insert_Permutation nodes i a x :
  nodes !! i = Some a -> a :: <[i:=x]> nodes ≡ₚ x :: nodes.
Proof.
  intros Ha. rewrite (insert_take_drop nodes i x) by (by eapply lookup_lt_Some).
  rewrite <- (take_drop_middle nodes i a Ha) at 3. rewrite <- !Permutation_middle. constructor.
Qed.

Lemma swap_Permutation nodes i j : swap nodes i j ≡ₚ nodes.
Proof.
  unfold swap. destruct (nodes !! i) as [a|] eqn:Ha; [|done]. destruct (nodes !! j) as [b|] eqn:Hb; [|done].
  apply (Permutation_cons_inv (a := b)). destruct (decide (i = j)) as [->|Hne].
  - rewrite Ha in Hb. injection Hb as ->. by rewrite list_insert_insert_eq, list_insert_id.
  - rewrite (insert_Permutation _ j b) by (by rewrite list_lookup_insert_ne). by apply insert_Permutation.
Qed.

Lemma siftUp_Permutation fuel nodes i : siftUp fuel nodes i ≡ₚ nodes.
Proof.
  induction fuel as [|f IH] in nodes, i |- *; cbn [siftUp]; [done|].
  case_bool_decide; [|done]. destruct (less_at _ _ _); [|done]. by rewrite IH, swap_Permutation.
Qed.

Lemma siftDown_Permutation fuel nodes i : siftDown fuel nodes i ≡ₚ nodes.
Proof.
  induction fuel as [|f IH] in nodes, i |- *; cbn [siftDown]; [done|].
  case_bool_decide; [done|]. by rewrite IH, swap_Permutation.
Qed.

(** ** The heap order *)

(** [nodes[i] <= nodes[j]]. *)
Definition le_at nodes (i j : nat) : Prop :=
  forall a b, nodes !! i = Some a -> nodes !! j = Some b -> le a b.

Definition heap nodes : Prop := forall j, 0 < j -> le_at nodes (parent j) j.

Lemma le_at_trans nodes i j k : i < length nodes -> j < length nodes -> le_at nodes i j -> le_at nodes j k -> le_at nodes i k.
Proof.
  intros Hi Hj H1 H2 a c Ha Hc. destruct (lookup_lt_is_Some_2 nodes j Hj) as [b Hb].
  eapply le_trans; [by eapply H1|by eapply H2].
Qed.

Lemma less_at_true nodes i j : less_at nodes i j = true -> le_at nodes i j /\ i < length nodes /\ j < length nodes.
Proof.
  unfold less_at. destruct (nodes !! i) as [x|] eqn:Ei; [|done]. destruct (nodes !! j) as [y|] eqn:Ej; [|done].
  intros Hl. split_and!; [|by eapply lookup_lt_Some|by eapply lookup_lt_Some].
  intros a b Ha Hb. simplify_eq. by apply less_le.
Qed.

Lemma less_at_false nodes i j : less_at nodes i j = false -> le_at nodes j i.
Proof. unfold less_at. intros Hl a b Ha Hb. by rewrite Ha, Hb in Hl. Qed.

Lemma root_minimal nodes t a : heap nodes -> nodes !! 0 = Some t -> a ∈ nodes -> le t a.
Proof.
  intros Hh H0 (j & Ha)%list_elem_of_lookup. revert a Ha. induction (lt_wf j) as [j _ IH]. intros a Ha.
  destruct (decide (j = 0)) as [->|Hj]; [rewrite H0 in Ha; injection Ha as ->; apply le_refl|].
  pose proof (parent_lt j ltac:(lia)) as Hp. pose proof (lookup_lt_Some _ _ _ Ha).
  destruct (lookup_lt_is_Some_2 nodes (parent j)) as [p Hpp]; [lia|].
  eapply le_trans; [by eapply IH|]. by eapply (Hh j ltac:(lia)).
Qed.

(** In order but for the edges into [i] from above or, respectively, out of it, the
    node above [i] being below those under it. *)
Definition but_up nodes (i : nat) : Prop :=
  (forall j, 0 < j -> j <> i -> le_at nodes (parent j) j)
  /\ (0 < i -> forall j, 0 < j -> parent j = i -> le_at nodes (parent i) j).

Definition but_down nodes (i : nat) : Prop :=
  (forall j, 0 < j -> parent j <> i -> le_at nodes (parent j) j)
  /\ (0 < i -> forall j, 0 < j -> parent j = i -> le_at nodes (parent i) j).

(** A comparison after a swap is one before it. *)
Lemma le_at_swap nodes i j k l :
  i < length nodes -> j < length nodes ->
  le_at (swap nodes i j) k l
  <-> le_at nodes (if decide (k = j) then i else if decide (k = i) then j else k)
                  (if decide (l = j) then i else if decide (l = i) then j else l).
Proof. intros Hi Hj. unfold le_at. rewrite !lookup_swap by done. repeat case_decide; done. Qed.

Lemma siftUp_heap fuel nodes i : i < fuel -> but_up nodes i -> heap (siftUp fuel nodes i).
Proof.
  induction fuel as [|f IH] in nodes, i |- *; intros Hf Hb; [lia|]. cbn [siftUp].
  case_bool_decide as Hi; [|intros j Hj; apply Hb; lia].
  destruct (less_at nodes i (parent i)) eqn:El.
  2:{ intros j Hj. destruct (decide (j = i)) as [->|]; [by apply less_at_false|by apply Hb]. }
  apply less_at_true in El as (El & Hli & Hlp). pose proof (parent_lt i Hi) as Hp. apply IH; [lia|].
  destruct Hb as [Hb1 Hb2]. split.
  - intros j Hj Hne. apply le_at_swap; [done..|]. destruct (decide (j = i)) as [->|Hji].
    + rewrite (decide_True (P := parent i = parent i)) by done. rewrite decide_False by lia.
      exact El.
    + rewrite (decide_False (P := j = parent i)) by done.
      destruct (decide (parent j = parent i)) as [E|Hpp].
      * apply (le_at_trans _ _ (parent i)); [done..|]. rewrite <- E. by apply Hb1.
      * destruct (decide (parent j = i)) as [Epi|]; [by apply Hb2|by apply Hb1].
  - intros Hpp j Hj Ej. pose proof (parent_lt (parent i) Hpp). apply le_at_swap; [done..|].
    rewrite decide_False by lia. rewrite decide_False by lia. rewrite decide_False by (pose proof (parent_lt j Hj); lia).
    case_decide as Eji; [by apply Hb1; lia|].
    apply (le_at_trans _ _ (parent i)); [lia|lia|by apply Hb1; lia|]. rewrite <- Ej. by apply Hb1.
Qed.

Lemma siftDown_heap fuel nodes i : length nodes <= i + fuel -> but_down nodes i -> heap (siftDown fuel nodes i).
Proof.
  induction fuel as [|f IH] in nodes, i |- *; intros Hf Hb.
  { cbn [siftDown]. intros j Hj a b Ha Hbb. apply lookup_lt_Some in Ha as Hla. apply lookup_lt_Some in Hbb as Hlb.
    pose proof (parent_lt j Hj). by apply (proj1 Hb j Hj ltac:(lia)). }
  cbn [siftDown]. set (l := 2 * i + 1). set (r := 2 * i + 2).
  set (s1 := if bool_decide (l < length nodes) && less_at nodes l i then l else i).
  set (s := if bool_decide (r < length nodes) && less_at nodes r s1 then r else s1).
  (* the smallest of the three is one of them, below both children *)
  assert (Hs1 : le_at nodes s1 l /\ (s1 = l /\ i < length nodes /\ l < length nodes /\ le_at nodes l i \/ s1 = i)).
  { unfold s1. destruct (bool_decide (l < length nodes)) eqn:Eb; cbn [andb].
    - destruct (less_at nodes l i) eqn:El; [|split; [by apply less_at_false|by right]].
      apply less_at_true in El as (? & ? & ?). split; [intros a b Ha Hb'; simplify_eq; apply le_refl|by left].
    - apply bool_decide_eq_false in Eb. split; [|by right]. intros a b _ Hb'%lookup_lt_Some. lia. }
  assert (Hs : le_at nodes s l /\ le_at nodes s r /\ (s = i \/ (s = l \/ s = r) /\ i < length nodes /\ s < length nodes /\ le_at nodes s i)).
  { destruct Hs1 as [Hs1l Hs1]. unfold s. destruct (bool_decide (r < length nodes)) eqn:Eb; cbn [andb].
    - destruct (less_at nodes r s1) eqn:El.
      + apply less_at_true in El as (Hr & Hlr & Hls). split_and!.
        * by apply (le_at_trans _ _ s1).
        * intros a b Ha Hb'; simplify_eq; apply le_refl.
        * right. destruct Hs1 as [(E & ? & ? & ?)| E]; rewrite E in *; split_and!; try done; try by right.
          by apply (le_at_trans _ _ l).
      + split_and!; [done|by apply less_at_false|]. destruct Hs1 as [(-> & ? & ? & ?)| ->]; [right|by left].
        split_and!; [by left|done..].
    - apply bool_decide_eq_false in Eb. split_and!; [done|intros a b _ Hb'%lookup_lt_Some; lia|].
      destruct Hs1 as [(-> & ? & ? & ?)| ->]; [right|by left]. split_and!; [by left|done..]. }
  destruct Hs as (Hsl & Hsr & Hs). destruct Hb as [Hb1 Hb2].
  case_bool_decide as Ei.
  { intros j Hj. destruct (decide (parent j = i)) as [Ep|]; [|by apply Hb1].
    rewrite Ep. rewrite <- Ei at 1. apply parent_child in Ep as [->| ->]; done. }
  destruct Hs as [?|(Hlr & Hli & Hls & Hsi)]; [done|].
  assert (Hps : parent s = i) by (apply parent_child; [lia|destruct Hlr; lia]).
  assert (Hch : forall j, 0 < j -> parent j = i -> le_at nodes s j) by (intros j Hj Ej; apply parent_child in Ej as [->| ->]; done).
  apply IH; [rewrite length_swap; lia|]. split.
  - intros j Hj Hjs. apply le_at_swap; [done..|]. rewrite (decide_False (P := parent j = s)) by done.
    destruct (decide (parent j = i)) as [Ep|Hpi].
    + destruct (decide (j = s)) as [->|]; [done|]. rewrite decide_False by (intros ->; pose proof (parent_lt i Hj); lia). by apply Hch.
    + rewrite (decide_False (P := j = s)) by congruence. destruct (decide (j = i)) as [->|]; [by apply Hb2; lia|by apply Hb1].
  - intros Hsp j Hj Ej. apply le_at_swap; [done..|]. pose proof (parent_lt j Hj).
    rewrite Hps. rewrite (decide_False (P := i = s)) by lia. rewrite (decide_True (P := i = i)) by done.
    rewrite !decide_False by lia. rewrite <- Ej. apply Hb1; lia.
Qed.

Lemma push_Permutation x nodes : push x nodes ≡ₚ x :: nodes.
Proof. unfold push. by rewrite siftUp_Permutation, Permutation_app_comm. Qed.

Lemma push_heap x nodes : heap nodes -> heap (push x nodes).
Proof.
  intros Hh. unfold push. rewrite length_app. cbn [length]. apply siftUp_heap; [lia|].
  replace (length nodes + 1 - 1) with (length nodes) by lia. split.
  - intros j Hj Hne a b Ha Hb. apply lookup_lt_Some in Hb as Hl. rewrite length_app in Hl. cbn in Hl.
    pose proof (parent_lt j Hj). rewrite lookup_app_l in Ha, Hb by lia. by eapply (Hh j Hj).
  - intros Hpos j Hj Ej a b _ Hb%lookup_lt_Some. rewrite length_app in Hb. cbn in Hb. pose proof (parent_lt j Hj). lia.
Qed.

(** What pop takes is the least, and what it leaves a heap of the rest. *)
Lemma pop_spec nodes :
  heap nodes -> nodes <> [] ->
  exists t rest, pop nodes = Some (t, rest) /\ nodes ≡ₚ t :: rest /\ heap rest /\ forall a, a ∈ rest -> le t a.
Proof.
  intros Hh Hne. destruct nodes as [|t tl]; [done|]. clear Hne. unfold pop.
  destruct (last (t :: tl)) as [x|] eqn:Ex; [|by apply last_None in Ex].
  assert (Emin : forall a, a ∈ t :: tl -> le t a) by (intros a Ha; by eapply root_minimal).
  apply last_Some in Ex as [l' El']. rewrite El', removelast_last. destruct l' as [|t' l'].
  { cbn in El'. injection El' as -> ->. exists x, []. cbn. split_and!; [done|done| |by intros a Ha%elem_of_nil].
    intros j Hj a b Ha. by rewrite lookup_nil in Ha. }
  injection El' as <- ->. cbn [length]. rewrite bool_decide_eq_true_2 by lia.
  assert (Ep : t :: l' ++ [x] ≡ₚ t :: siftDown (S (length l')) (<[0:=x]> (t :: l')) 0)
    by (rewrite siftDown_Permutation; cbn; by rewrite Permutation_app_comm).
  eexists t, _. split_and!; [reflexivity|exact Ep| |].
  - apply siftDown_heap; [cbn; lia|]. split; [|lia]. intros j Hj Hpj a b Ha Hb.
    change (<[0:=x]> (t :: l')) with (x :: l') in Ha, Hb.
    destruct j as [|j]; [lia|]. destruct (parent (S j)) as [|p] eqn:Epp; [done|]. cbn in Ha, Hb.
    apply (Hh (S j) Hj); [rewrite Epp|]; rewrite app_comm_cons, lookup_app_l; try done; cbn; apply lookup_lt_Some in Ha, Hb; lia.
  - intros a Ha. apply Emin. rewrite Ep. by right.
Qed.

Lemma pop_nil : pop ([] : list A) = None.
Proof. done. Qed.

Lemma heap_nil : heap [].
Proof. intros j Hj a b Ha. by rewrite lookup_nil in Ha. Qed.
End heap.
