(* ===== verification/ExternalSort.v ===== *)
(** [bulk_sync/merger/external_sort.js]: sorting a file of fixed-size records by a key
    prefix in bounded memory, by sorted runs and a k-way merge over the min-heap.  The
    reference is a stable sort of the records; the runs are files, the merge reads each
    from its own cursor, kept here as what is left of the run. *)

From S2P Require Import Prelude LevelDb Wire RecordFiles Heap.

#[local] Open Scope string_scope.
#[local] Open Scope nat_scope.
#[local] Open Scope list_scope.

(** * The reference

    [Array.prototype.sort], stable as the language asks: an element goes before the
    first later one that is not below it. *)

Section stable.
Context {A : Type} (key : A -> bytes).

Fixpoint insert_stable (x : A) (l : list A) : list A :=
  match l with
  | [] => [x]
  | y :: r => if ble (key x) (key y) then x :: l else y :: insert_stable x r
  end.

Definition stable_sort (l : list A) : list A := foldr insert_stable [] l.

Definition key_sorted : list A -> Prop := StronglySorted (fun a b => ble (key a) (key b) = true).

(** The elements with one key, in order. *)
Definition with_key (k : bytes) (l : list A) : list A := filter (fun x => key x = k) l.

Lemma elem_of_insert_stable x l a : a ∈ insert_stable x l <-> a = x \/ a ∈ l.
Proof.
  induction l as [|y r IH]; cbn [insert_stable]; [set_solver|]. destruct (ble _ _); [set_solver|].
  rewrite !elem_of_cons, IH. tauto.
Qed.

Lemma insert_stable_sorted x l : key_sorted l -> key_sorted (insert_stable x l).
Proof.
  induction 1 as [|y r Hr IH Hy]; cbn [insert_stable]; [repeat constructor|].
  destruct (ble (key x) (key y)) eqn:E.
  - constructor; [by constructor|]. constructor; [done|]. rewrite Forall_forall in Hy |- *. intros a Ha.
    by eapply ble_trans; [|apply Hy].
  - constructor; [done|]. rewrite Forall_forall in Hy |- *. intros a [->|Ha]%elem_of_insert_stable; [|by apply Hy].
    destruct (ble_total (key x) (key y)) as [E'|E']; [by rewrite E in E'|done].
Qed.

Lemma stable_sort_sorted l : key_sorted (stable_sort l).
Proof. induction l as [|x l IH]; [constructor|]. by apply insert_stable_sorted. Qed.

Lemma with_key_cons k x l : with_key k (x :: l) = if decide (key x = k) then x :: with_key k l else with_key k l.
Proof. done. Qed.

Lemma with_key_insert k x l : with_key k (insert_stable x l) = with_key k (x :: l).
Proof.
  induction l as [|y r IH]; [done|]. cbn [insert_stable]. destruct (ble (key x) (key y)) eqn:E; [done|].
  rewrite with_key_cons, IH, !with_key_cons. do 2 case_decide; try done. subst k.
  match goal with H : key x = key y |- _ => by rewrite H, ble_refl in E end.
Qed.

Lemma with_key_sort k l : with_key k (stable_sort l) = with_key k l.
Proof. induction l as [|x l IH]; [done|]. change (stable_sort (x :: l)) with (insert_stable x (stable_sort l)).
  by rewrite with_key_insert, !with_key_cons, IH. Qed.

Lemma with_key_app k l1 l2 : with_key k (l1 ++ l2) = with_key k l1 ++ with_key k l2.
Proof. apply filter_app. Qed.

Lemma elem_of_with_key k l x : x ∈ with_key k l <-> key x = k /\ x ∈ l.
Proof. unfold with_key. by rewrite list_elem_of_filter. Qed.

(** Sorted lists with the same elements under each key, in the same order, are equal. *)
Lemma sorted_unique l1 l2 :
  key_sorted l1 -> key_sorted l2 -> (forall k, with_key k l1 = with_key k l2) -> l1 = l2.
Proof.
  intros H1. revert l2. induction H1 as [|x l1 H1 IH Hx]; intros l2 H2 He.
  { destruct l2 as [|y l2]; [done|]. specialize (He (key y)). by rewrite with_key_cons, decide_True in He. }
  assert (Hsub : forall a, a ∈ x :: l1 <-> a ∈ l2).
  { intros a. pose proof (elem_of_with_key (key a) (x :: l1) a) as Ha. rewrite He, elem_of_with_key in Ha. tauto. }
  destruct H2 as [|y l2 H2 Hy]; [specialize (Hsub x); set_solver|]. rewrite Forall_forall in Hx, Hy.
  assert (Hmin : key x = key y).
  { apply ble_antisym.
    - destruct (proj1 (elem_of_cons l1 y x) (proj2 (Hsub y) ltac:(left))) as [->|Hin]; [apply ble_refl|by apply Hx].
    - destruct (proj1 (elem_of_cons l2 x y) (proj1 (Hsub x) ltac:(left))) as [->|Hin]; [apply ble_refl|by apply Hy]. }
  assert (x = y) as <- by (specialize (He (key x)); rewrite !with_key_cons, decide_True, decide_True in He by done; congruence).
  f_equal. apply IH; [done|]. intros k. specialize (He k). rewrite !with_key_cons in He. case_decide; congruence.
Qed.

Lemma length_insert_stable x l : length (insert_stable x l) = S (length l).
Proof. induction l as [|y r IH]; [done|]. cbn [insert_stable]. destruct (ble _ _); [done|]. cbn. by rewrite IH. Qed.

Lemma stable_sort_Permutation l : stable_sort l ≡ₚ l.
Proof.
  induction l as [|x l IH]; [done|]. change (stable_sort (x :: l)) with (insert_stable x (stable_sort l)). rewrite <- IH at 2.
  generalize (stable_sort l) as r. induction r as [|y r IHr]; [done|]. cbn [insert_stable]. destruct (ble _ _); [done|]. by rewrite IHr, Permutation_swap.
Qed.
End stable.

(** Sorting through a map that keeps the keys. *)
Lemma stable_sort_fmap {A B} (ka : A -> bytes) (kb : B -> bytes) (f : A -> B) l :
  (forall a, a ∈ l -> kb (f a) = ka a) -> stable_sort kb (f <$> l) = f <$> stable_sort ka l.
Proof.
  induction l as [|x l IH]; intros Hk; [done|].
  change (insert_stable kb (f x) (stable_sort kb (f <$> l)) = f <$> insert_stable ka x (stable_sort ka l)). rewrite IH by (intros a Ha; apply Hk; by right).
  assert (Hs : forall a, a ∈ stable_sort ka l -> kb (f a) = ka a) by (intros a Ha; apply Hk; right; by rewrite stable_sort_Permutation in Ha).
  pose proof (Hk x ltac:(left)) as Hx. clear IH Hk. induction (stable_sort ka l) as [|y r IH]; [done|].
  cbn [insert_stable fmap list_fmap]. rewrite Hx, (Hs y) by left. destruct (ble _ _); [done|].
  cbn [fmap list_fmap]. f_equal. apply IH. intros a Ha. apply Hs. by right.
Qed.

(** * Options *)

Record sort_options := mkSort {
  so_headerSize : nat; so_recordSize : Z; so_keySize : Z; so_ramBudgetBytes : Z; so_preserveHeader : bool }.

(** The defaults and the refusals; a missing budget is 0. *)
Definition resolveSortOptions (o : sort_options) : res sort_options :=
  let ramBudgetBytes := if bool_decide (so_ramBudgetBytes o = 0%Z) then 1073741824%Z else so_ramBudgetBytes o in
  if bool_decide (so_recordSize o <= 0)%Z
  then Err (failure "externalSort: recordSize must be a positive integer")
  else if bool_decide (so_keySize o <= 0)%Z || bool_decide (so_recordSize o < so_keySize o)%Z
  then Err (failure "externalSort: keySize must satisfy 0 < keySize <= recordSize")
  else Ok (mkSort (so_headerSize o) (so_recordSize o) (so_keySize o) ramBudgetBytes (so_preserveHeader o)).

(** Total records and records per run. *)
Definition planRuns (input : bytes) (o : sort_options) : res (Z * Z) :=
  let dataBytes := (len input - Z.of_nat (so_headerSize o))%Z in
  if bool_decide (dataBytes < 0)%Z || negb (bool_decide (dataBytes mod so_recordSize o = 0)%Z)
  then Err (failure "externalSort: input data is not a multiple of recordSize")
  else
    let totalRecords := (dataBytes / so_recordSize o)%Z in
    let MAX_RECORDS_PER_RUN := Z.shiftl 1 26 in
    let recordsPerRun := Z.max 1 (Z.min (so_ramBudgetBytes o / so_recordSize o) MAX_RECORDS_PER_RUN) in
    Ok (totalRecords, recordsPerRun).

(** * Sorted runs *)

Section runs.
Context (recordSize keySize : nat).

(** [bigBuf.subarray(i * recordSize, i * recordSize + n)]. *)
Definition field_at (bigBuf : bytes) (n i : nat) : bytes := slice (i * recordSize) (i * recordSize + n) bigBuf.

Definition sortedIndices (bigBuf : bytes) (wantRecords : nat) : list nat :=
  stable_sort (field_at bigBuf keySize) (seq 0 wantRecords).

Definition writeRun (bigBuf : bytes) (indices : list nat) : bytes :=
  close_file (foldl (fun w i => writeRecord recordSize (field_at bigBuf recordSize i) w) (new_writer []) indices).

(** From [position] on, [want] bytes at a time. *)
Fixpoint createSortedRuns (fuel : nat) (input : bytes) (recordsPerRun : Z) (position : nat) : list bytes :=
  match fuel with
  | O => []
  | S f =>
      if bool_decide (position < length input) then
        let remainingBytes := Z.of_nat (length input - position) in
        let wantBytes := Z.to_nat (Z.min remainingBytes (recordsPerRun * Z.of_nat recordSize)) in
        let bigBuf := slice position (position + wantBytes) input in
        let wantRecords := wantBytes / recordSize in
        writeRun bigBuf (sortedIndices bigBuf wantRecords)
          :: createSortedRuns f input recordsPerRun (position + wantBytes)
      else []
  end.

(** * The merge *)

(** A heap node: the front record of a run, its key and the run's number, which is both
    the payload's and the tie-break. *)
Record node := mkNode { n_key : bytes; n_record : bytes; n_run : nat }.

Definition node_less (a b : node) : bool :=
  if bool_decide (n_key a = n_key b) then bool_decide (n_run a < n_run b) else ble (n_key a) (n_key b).

#[global] Instance MinHeap : HeapOrder node.
Proof.
  refine {| less := node_less |}; unfold node_less.
  - intros a b. destruct (bool_decide_reflect (n_key a = n_key b)) as [E|E].
    + rewrite (bool_decide_eq_true_2 (n_key b = n_key a)) by done. rewrite bool_decide_eq_true, bool_decide_eq_false. lia.
    + rewrite (bool_decide_eq_false_2 (n_key b = n_key a)) by congruence. intros H1.
      destruct (ble (n_key b) (n_key a)) eqn:H2; [|done]. by destruct E; apply ble_antisym.
  - intros a b c. destruct (bool_decide_reflect (n_key b = n_key a)) as [E1|E1], (bool_decide_reflect (n_key c = n_key b)) as [E2|E2].
    + rewrite (bool_decide_eq_true_2 (n_key c = n_key a)) by congruence. rewrite !bool_decide_eq_false. lia.
    + rewrite (bool_decide_eq_false_2 (n_key c = n_key a)) by congruence. by rewrite E1.
    + rewrite (bool_decide_eq_false_2 (n_key c = n_key a)) by congruence. by rewrite E2.
    + intros H1 H2. destruct (ble_total (n_key a) (n_key b)) as [H1'|?]; [|congruence].
      destruct (ble_total (n_key b) (n_key c)) as [H2'|?]; [|congruence]. pose proof (ble_trans _ _ _ H1' H2') as H3.
      destruct (bool_decide_reflect (n_key c = n_key a)) as [E|E]; [exfalso; apply E1; apply ble_antisym; congruence|].
      destruct (ble (n_key c) (n_key a)) eqn:H4; [|done]. by destruct E; apply ble_antisym.
Defined.

(** [readOne(runIdx)]: the next record of a run. *)
Definition readOne (i : nat) (runs : list bytes) : option bytes * list bytes :=
  match runs !! i with
  | Some tl => if bool_decide (tl = []) then (None, runs) else (Some (take recordSize tl), <[i:=drop recordSize tl]> runs)
  | None => (None, runs)
  end.

Definition node_of (i : nat) (record : bytes) : node := mkNode (take keySize record) record i.

(** Reads a run's next record into the heap. *)
Definition pushNext (i : nat) (st : list node * list bytes) : list node * list bytes :=
  match readOne i st.2 with
  | (Some record, runs) => (push (node_of i record) st.1, runs)
  | (None, runs) => (st.1, runs)
  end.

Fixpoint mergeLoop (fuel : nat) (st : list node * list bytes) (out : writer) : writer :=
  match fuel with
  | O => out
  | S f =>
      match pop st.1 with
      | None => out
      | Some (top, heap) => mergeLoop f (pushNext (n_run top) (heap, st.2)) (writeRecord recordSize (n_record top) out)
      end
  end.

(** Appends to the output; every turn emits a record of the runs. *)
Definition mergeRuns (header : bytes) (runs : list bytes) (totalRecords : Z) : res bytes :=
  let st := foldl (fun st i => pushNext i st) ([], runs) (seq 0 (length runs)) in
  let out := mergeLoop (S (length (concat runs))) st (new_writer header) in
  if negb (bool_decide (w_count out = totalRecords))
  then Err (failure "merge emitted a number of records other than expected")
  else Ok (close_file out).
End runs.

(** The output file and the records sorted. *)
Definition externalSort (opts : sort_options) (input : bytes) : res (bytes * Z) :=
  o ← resolveSortOptions opts;
  '(totalRecords, recordsPerRun) ← planRuns input o;
  let recordSize := Z.to_nat (so_recordSize o) in
  let keySize := Z.to_nat (so_keySize o) in
  let runs := createSortedRuns recordSize keySize (S (length input)) input recordsPerRun (so_headerSize o) in
  let header := if so_preserveHeader o && bool_decide (0 < so_headerSize o) then take (so_headerSize o) input else [] in
  out ← mergeRuns recordSize keySize header runs totalRecords;
  Ok (out, totalRecords).
