(* ===== verification/SortFacts.v ===== *)
(** The external sort is the stable sort of its records, whatever the memory budget: each
    run is the stable sort of its chunk, and the merge, which takes equal keys in run
    order, keeps the records of a key in input order. *)

From S2P Require Import Prelude LevelDb Wire RecordFiles Heap ExternalSort.

#[local] Open Scope string_scope.
#[local] Open Scope nat_scope.
#[local] Open Scope list_scope.

Abbreviation joined := (@concat byte).

Section facts.
Context (recordSize keySize : nat) (Hrs : 0 < recordSize).
Implicit Types (fs : list (list bytes)) (l : list bytes).

Abbreviation key := (take keySize).
Abbreviation NodeOf := (node_of keySize).
Abbreviation sizes := (sized recordSize).

(** * Runs *)

Lemma field_at_concat l i r n :
  sizes l -> l !! i = Some r -> n <= recordSize -> field_at recordSize (concat l) n i = take n r.
Proof.
  intros Hl Hi Hn. unfold field_at, slice. rewrite Nat.add_comm, Nat.add_sub.
  rewrite <- (take_drop_middle l i r Hi), concat_app. cbn [concat].
  assert (Ht : length (concat (take i l)) = i * recordSize).
  { rewrite (length_concat_sized recordSize) by (intros x Hx; apply Hl; rewrite <- (take_drop i l), elem_of_app; by left).
    apply lookup_lt_Some in Hi. rewrite length_take. lia. }
  rewrite drop_app_length' by done. rewrite take_app_le; [done|]. rewrite (Hl r) by by eapply list_elem_of_lookup_2. done.
Qed.

Lemma writes_all_fmap {B} (g : B -> bytes) (idx : list B) w :
  foldl (fun w i => writeRecord recordSize (g i) w) w idx = foldl (fun w r => writeRecord recordSize r w) w (g <$> idx).
Proof. revert w. induction idx as [|i idx IH]; intros w; [done|]. apply IH. Qed.

Lemma seq_lookup_all l : (fun i => default [] (l !! i)) <$> seq 0 (length l) = l.
Proof.
  apply list_eq. intros i. rewrite list_lookup_fmap. destruct (decide (i < length l)) as [Hi|Hi].
  - rewrite lookup_seq_lt by done. cbn. destruct (lookup_lt_is_Some_2 l i Hi) as [r ->]. done.
  - rewrite lookup_seq_ge, lookup_ge_None_2 by lia. done.
Qed.

(** A run file holds its chunk's records, stably sorted. *)
Lemma writeRun_spec l :
  sizes l -> keySize <= recordSize ->
  writeRun recordSize (concat l) (sortedIndices recordSize keySize (concat l) (length l)) = concat (stable_sort key l).
Proof.
  intros Hl Hk. unfold writeRun. rewrite writes_all_fmap.
  set (rs := field_at recordSize (concat l) recordSize <$> _).
  destruct (writes_all (writeRecord recordSize) rs (new_writer []) (writes_on_writeRecord _) (writer_ok_new _)) as (Hc & Ho & _).
  rewrite close_contents, Hc by done. cbn. f_equal. unfold rs, sortedIndices.
  assert (Hf : forall i, i ∈ seq 0 (length l) -> exists r, l !! i = Some r).
  { intros i Hi%elem_of_seq. apply lookup_lt_is_Some_2. lia. }
  assert (Hs : forall n i, n <= recordSize -> i ∈ seq 0 (length l) -> field_at recordSize (concat l) n i = take n (default [] (l !! i))).
  { intros n i Hn Hi. destruct (Hf i Hi) as [r Hr]. rewrite Hr. by apply field_at_concat. }
  rewrite <- (stable_sort_fmap (field_at recordSize (concat l) keySize) key).
  - f_equal. rewrite <- (seq_lookup_all l) at 3. apply list_fmap_ext. intros j i Hj%list_elem_of_lookup_2.
    rewrite Hs by done. apply take_ge. destruct (Hf i Hj) as [r Hr]. rewrite Hr. cbn. rewrite (Hl r); [done|]. by eapply list_elem_of_lookup_2.
  - intros i Hi. rewrite !Hs by done. rewrite take_take. f_equal. lia.
Qed.

(** The chunks of a given number of records. *)
Fixpoint chunk_list (fuel n : nat) (l : list bytes) : list (list bytes) :=
  match fuel, l with
  | S f, _ :: _ => take n l :: chunk_list f n (drop n l)
  | _, _ => []
  end.

Lemma concat_chunk_list fuel n l : 0 < n -> length l <= fuel -> concat (chunk_list fuel n l) = l.
Proof.
  intros Hn. induction fuel as [|f IH] in l |- *; intros Hf; [destruct l; [done|cbn in Hf; lia]|].
  destruct l as [|x t] eqn:E; [done|]. rewrite <- E in *. cbn [chunk_list].
  replace (match l with [] => [] | _ :: _ => take n l :: chunk_list f n (drop n l) end) with (take n l :: chunk_list f n (drop n l)) by by rewrite E.
  cbn [concat]. rewrite IH by (rewrite length_drop; rewrite E in *; cbn [length] in *; lia). apply take_drop.
Qed.

Lemma elem_of_chunk_list fuel n l c : c ∈ chunk_list fuel n l -> forall r, r ∈ c -> r ∈ l.
Proof.
  induction fuel as [|f IH] in l |- *; [by intros Hc%elem_of_nil|]. destruct l as [|x t] eqn:E; [by intros Hc%elem_of_nil|].
  rewrite <- E. cbn [chunk_list]. replace (match l with [] => [] | _ :: _ => take n l :: chunk_list f n (drop n l) end)
    with (take n l :: chunk_list f n (drop n l)) by by rewrite E.
  intros [->|Hc]%elem_of_cons r Hr.
  - rewrite <- (take_drop n l), elem_of_app. by left.
  - rewrite <- (take_drop n l), elem_of_app. right. by eapply IH.
Qed.

Lemma createSortedRuns_spec fuel l header perRun :
  sizes l -> keySize <= recordSize -> (0 < perRun)%Z -> length l * recordSize < fuel ->
  createSortedRuns recordSize keySize fuel (header ++ concat l) perRun (length header)
  = (fun c => concat (stable_sort key c)) <$> chunk_list fuel (Z.to_nat (Z.min perRun (Z.of_nat (length l)))) l.
Proof.
  intros Hl Hk Hp. set (n := Z.to_nat perRun).
  assert (Hgen : forall l header fuel, sizes l -> length l * recordSize < fuel ->
    createSortedRuns recordSize keySize fuel (header ++ concat l) perRun (length header)
    = (fun c => concat (stable_sort key c)) <$> chunk_list fuel n l).
  { clear l header fuel Hl. intros l header fuel. revert l header. induction fuel as [|f IH]; intros l header Hl Hf; [lia|].
    cbn [createSortedRuns]. rewrite length_app, (length_concat_sized recordSize) by done. destruct l as [|x t] eqn:E.
    - cbn. rewrite bool_decide_eq_false_2 by lia. done.
    - rewrite <- E in *. assert (0 < length l) by (rewrite E; cbn; lia). rewrite bool_decide_eq_true_2 by nia. cbn [chunk_list].
      replace (match l with [] => [] | _ :: _ => take n l :: chunk_list f n (drop n l) end) with (take n l :: chunk_list f n (drop n l)) by by rewrite E.
      set (want := Z.to_nat (Z.min _ _)). assert (Hw : want = length (take n l) * recordSize).
      { unfold want. rewrite length_take. unfold n. nia. }
      assert (Ht : sizes (take n l)) by (intros r Hr; apply Hl; rewrite <- (take_drop n l), elem_of_app; by left).
      assert (Hd : sizes (drop n l)) by (intros r Hr; apply Hl; rewrite <- (take_drop n l), elem_of_app; by right).
      assert (Hsl : slice (length header) (length header + want) (header ++ concat l) = concat (take n l)).
      { unfold slice. rewrite drop_app_length, Nat.add_comm, Nat.add_sub. rewrite <- (take_drop n l) at 1. rewrite concat_app.
        rewrite Hw, <- (length_concat_sized _ _ Ht). by rewrite take_app_length. }
      rewrite Hsl. rewrite Hw, Nat.div_mul by lia. cbn [fmap list_fmap]. rewrite writeRun_spec by done. f_equal.
      rewrite <- (take_drop n l) at 1. rewrite concat_app, app_assoc, <- (length_concat_sized _ _ Ht), <- length_app.
      apply IH; [done|]. rewrite length_drop. unfold n in *. nia. }
  intros Hf. rewrite Hgen by done. f_equal. unfold n. clear Hgen n. destruct (Z.min_spec perRun (Z.of_nat (length l))) as [[_ ->]|[Hge ->]]; [done|].
  rewrite Nat2Z.id. destruct fuel as [|f]; [lia|]. destruct l as [|x t]; [done|]. cbn [chunk_list].
  rewrite !take_ge, !drop_ge by lia. by destruct f.
Qed.

(** * The merge *)

Definition front (i : nat) (run : list bytes) : list node :=
  match run with [] => [] | r :: _ => [NodeOf i r] end.

(** The heap's nodes and the unread rest, for the runs [fs] whose fronts are loaded. *)
Definition fronts fs : list node := concat (imap front fs).
Definition tails fs : list bytes := (fun run => concat (tail run)) <$> fs.

Lemma fronts_split fs i run :
  fs !! i = Some run -> exists p q, forall run', fronts (<[i:=run']> fs) = p ++ front i run' ++ q.
Proof.
  intros Hi. exists (concat (imap front (take i fs))), (concat (imap (front ∘ (Nat.add (S i))) (drop (S i) fs))).
  intros run'. unfold fronts. rewrite insert_take_drop by (by eapply lookup_lt_Some). rewrite imap_app, concat_app. f_equal.
  apply lookup_lt_Some in Hi. cbn [imap concat]. rewrite length_take_le by lia. f_equal; [by rewrite Nat.add_0_r|].
  f_equal. apply imap_ext. intros j x _. cbn. f_equal. lia.
Qed.

Lemma elem_of_fronts fs m : m ∈ fronts fs <-> exists i r t, fs !! i = Some (r :: t) /\ m = NodeOf i r.
Proof.
  unfold fronts. rewrite list_elem_of_In, in_concat. split.
  - intros (c & Hc & Hm). apply list_elem_of_In in Hc, Hm. apply elem_of_lookup_imap in Hc as (i & run & -> & Hi).
    destruct run as [|r t]; [by apply elem_of_nil in Hm|]. apply list_elem_of_singleton in Hm as ->. by exists i, r, t.
  - intros (i & r & t & Hi & ->). exists (front i (r :: t)). rewrite <- !list_elem_of_In. split; [|by left].
    apply elem_of_lookup_imap. by exists i, (r :: t).
Qed.

(** Reading on in a run whose front was taken. *)
Lemma pushNext_spec fs i r t heap :
  (forall run, run ∈ fs -> sizes run) -> fs !! i = Some (r :: t) -> Heap.heap heap ->
  fronts fs ≡ₚ NodeOf i r :: heap ->
  let st := pushNext recordSize keySize i (heap, tails fs) in
  Heap.heap st.1 /\ st.1 ≡ₚ fronts (<[i:=t]> fs) /\ st.2 = tails (<[i:=t]> fs).
Proof.
  intros Hsz Hi Hh Hp st. destruct (fronts_split fs i (r :: t) Hi) as (p & q & Hpq).
  assert (Hrest : heap ≡ₚ p ++ q).
  { rewrite <- (list_insert_id fs i (r :: t) Hi), Hpq in Hp. cbn [front app] in Hp. rewrite <- Permutation_middle in Hp.
    symmetry. by eapply Permutation_cons_inv. }
  assert (Ht : tails fs !! i = Some (concat t)) by (unfold tails; rewrite list_lookup_fmap, Hi; done).
  assert (Htl : forall run', tails (<[i:=run']> fs) = <[i:=concat (tail run')]> (tails fs)) by (intros; unfold tails; by rewrite list_fmap_insert).
  unfold st, pushNext, readOne. cbn [fst snd]. rewrite Ht. destruct t as [|r' t].
  - cbn [concat]. rewrite bool_decide_eq_true_2 by done. cbn [fst snd]. rewrite Hpq, Htl. cbn [front app concat tail].
    split_and!; [done|done|]. symmetry. by apply list_insert_id.
  - assert (Hr' : length r' = recordSize) by (apply (Hsz (r :: r' :: t)); [by eapply list_elem_of_lookup_2|right; left]).
    cbn [concat]. rewrite bool_decide_eq_false_2 by (intros E; apply app_eq_nil in E as [E _]; apply (f_equal length) in E; cbn in E; lia).
    rewrite take_app_length', drop_app_length' by done. cbn [fst snd]. rewrite Hpq, Htl. cbn [front tail]. split_and!.
    + by apply push_heap.
    + rewrite push_Permutation. cbn [app]. rewrite <- Permutation_middle. by rewrite Hrest.
    + done.
Qed.

(** A state of the merge: runs sorted, everything emitted below everything left, and
    under each key the emitted records and then the runs' in order are the input's. *)
Record merging (input : list bytes) (out : list bytes) (fs : list (list bytes)) : Prop := {
  mg_sized : forall run, run ∈ fs -> sizes run;
  mg_sorted : forall run, run ∈ fs -> key_sorted key run;
  mg_out : key_sorted key out;
  mg_below : forall a b, a ∈ out -> b ∈ concat fs -> ble (key a) (key b) = true;
  mg_keys : forall k, with_key key k (out ++ concat fs) = with_key key k input;
}.

Lemma key_sorted_snoc l x : key_sorted key l -> (forall a, a ∈ l -> ble (key a) (key x) = true) -> key_sorted key (l ++ [x]).
Proof.
  induction 1 as [|y r Hr IH Hy]; intros Hx; [repeat constructor|]. cbn. constructor; [apply IH; intros a Ha; apply Hx; by right|].
  rewrite Forall_forall in Hy |- *. intros a [Ha| ->%list_elem_of_singleton]%elem_of_app; [by apply Hy|apply Hx; by left].
Qed.

Lemma with_key_none k l : (forall a, a ∈ l -> key a <> k) -> with_key key k l = [].
Proof. intros Ha. unfold with_key. destruct (filter _ l) as [|x t] eqn:E; [done|]. assert (Hx : x ∈ filter (fun x => key x = k) l) by (rewrite E; left). apply list_elem_of_filter in Hx as [Hk Hx]. by destruct (Ha x). Qed.

Lemma elem_of_concat_lookup fs b : b ∈ concat fs <-> exists j run, fs !! j = Some run /\ b ∈ run.
Proof.
  rewrite list_elem_of_In, in_concat. split.
  - intros (run & Hr & Hb). apply list_elem_of_In in Hr, Hb. apply list_elem_of_lookup in Hr as [j Hj]. by exists j, run.
  - intros (j & run & Hj & Hb). exists run. rewrite <- !list_elem_of_In. split; [by eapply list_elem_of_lookup_2|done].
Qed.

(** The least front is below every record left, strictly so in the runs before its own. *)
Lemma least_front fs i r t :
  (forall run, run ∈ fs -> key_sorted key run) -> fs !! i = Some (r :: t) ->
  (forall m, m ∈ fronts fs -> Heap.le (NodeOf i r) m) ->
  forall j run b, fs !! j = Some run -> b ∈ run -> ble (key r) (key b) = true /\ (j < i -> key b <> key r).
Proof.
  intros Hs Hi Hmin j run b Hj Hb. destruct run as [|y run]; [by apply elem_of_nil in Hb|].
  assert (Hyb : ble (key y) (key b) = true).
  { pose proof (Hs _ (list_elem_of_lookup_2 _ _ _ Hj)) as Hrun. inversion Hrun as [|? ? _ Hall]; subst. rewrite Forall_forall in Hall.
    apply elem_of_cons in Hb as [->|Hb]; [apply ble_refl|by apply Hall]. }
  pose proof (Hmin (NodeOf j y) (proj2 (elem_of_fronts fs _) (ex_intro _ j (ex_intro _ y (ex_intro _ run (conj Hj eq_refl)))))) as Hle.
  unfold Heap.le, less, MinHeap, node_less, node_of in Hle. cbn [n_key n_run] in Hle.
  destruct (bool_decide_reflect (key y = key r)) as [E|E].
  - apply bool_decide_eq_false in Hle. rewrite <- E. split; [done|]. lia.
  - assert (Hry : ble (key r) (key y) = true) by (destruct (ble_total (key r) (key y)) as [?|?]; congruence).
    split; [by eapply ble_trans|]. intros _ Ebr. apply E. apply ble_antisym; [congruence|done].
Qed.

Lemma merging_step input out fs i r t :
  merging input out fs -> fs !! i = Some (r :: t) -> (forall m, m ∈ fronts fs -> Heap.le (NodeOf i r) m) ->
  merging input (out ++ [r]) (<[i:=t]> fs).
Proof.
  intros [M1 M2 M3 M4 M5] Hi Hmin. pose proof (least_front fs i r t M2 Hi Hmin) as Hleast.
  assert (Hrun : forall run, run ∈ <[i:=t]> fs -> run = t \/ run ∈ fs).
  { intros run [j Hj]%list_elem_of_lookup. apply list_lookup_insert_Some in Hj as [(_ & E & _)|[_ Hj]]; [by left|right].
    by eapply list_elem_of_lookup_2. }
  assert (Hin : r :: t ∈ fs) by by eapply list_elem_of_lookup_2.
  assert (Hsub : forall b, b ∈ concat (<[i:=t]> fs) -> b ∈ concat fs).
  { intros b (j & run & Hj & Hb)%elem_of_concat_lookup. apply elem_of_concat_lookup. apply list_lookup_insert_Some in Hj as [(<- & <- & _)|[_ Hj]].
    - exists i, (r :: t). split; [done|by right].
    - by exists j, run. }
  split.
  - intros run [->|Hr]%Hrun; [intros x Hx; apply (M1 _ Hin); by right|by apply M1].
  - intros run [->|Hr]%Hrun; [|by apply M2]. pose proof (M2 _ Hin) as Hs. by inversion Hs.
  - apply key_sorted_snoc; [done|]. intros a Ha. apply M4; [done|]. apply elem_of_concat_lookup. exists i, (r :: t). split; [done|by left].
  - intros a b [Ha| ->%list_elem_of_singleton]%elem_of_app Hb%Hsub; [by apply M4|].
    apply elem_of_concat_lookup in Hb as (j & run & Hj & Hb). by eapply Hleast.
  - intros k. rewrite <- M5. rewrite <- app_assoc, !with_key_app. f_equal.
    rewrite <- (take_drop_middle fs i (r :: t) Hi) at 2. rewrite insert_take_drop by (by eapply lookup_lt_Some).
    rewrite !concat_app. cbn [concat]. rewrite !with_key_app, with_key_cons, with_key_cons. destruct (decide (key r = k)) as [<-|]; [|done].
    rewrite (with_key_none (key r) (concat (take i fs))); [done|]. intros a (j & run & Hj & Ha)%elem_of_concat_lookup.
    apply lookup_take_Some in Hj as [Hj Hlt]. by eapply Hleast.
Qed.

Lemma length_concat_insert fs i r t : fs !! i = Some (r :: t) -> length (concat fs) = S (length (concat (<[i:=t]> fs))).
Proof.
  intros Hi. rewrite <- (take_drop_middle fs i (r :: t) Hi) at 1. rewrite insert_take_drop by (by eapply lookup_lt_Some).
  rewrite !concat_app. cbn [concat]. rewrite !length_app. cbn [length]. lia.
Qed.

Lemma mergeLoop_spec input fuel : forall heap fs out w,
  Heap.heap heap -> heap ≡ₚ fronts fs -> merging input out fs -> writer_ok w -> length (concat fs) < fuel ->
  exists out' w', mergeLoop recordSize keySize fuel (heap, tails fs) w = w'
    /\ contents w' = contents w ++ concat (drop (length out) out') /\ take (length out) out' = out
    /\ key_sorted key out' /\ (forall k, with_key key k out' = with_key key k input)
    /\ writer_ok w' /\ w_count w' = (w_count w + Z.of_nat (length out' - length out))%Z /\ length out' = length out + length (concat fs).
Proof.
  induction fuel as [|f IH]; intros heap fs out w Hh Hp Hm Hw Hf; [lia|]. cbn [mergeLoop fst snd].
  destruct (decide (heap = [])) as [->|Hne].
  - rewrite pop_nil. exists out, w. assert (Hnil : concat fs = []).
    { destruct (concat fs) as [|b c] eqn:E; [done|]. assert (Hb : b ∈ concat fs) by (rewrite E; left).
      apply elem_of_concat_lookup in Hb as (j & run & Hj & Hb). destruct run as [|y run]; [by apply elem_of_nil in Hb|].
      assert (Hy : NodeOf j y ∈ fronts fs) by (apply elem_of_fronts; by exists j, y, run). rewrite <- Hp in Hy. by apply elem_of_nil in Hy. }
    rewrite drop_ge, take_ge, Hnil by lia. cbn. rewrite app_nil_r. split_and!; try done; try lia; [exact (mg_out _ _ _ Hm)|].
    intros k. rewrite <- (mg_keys _ _ _ Hm k), Hnil. by rewrite app_nil_r.
  - destruct (pop_spec heap Hh Hne) as (top & rest & -> & Hpt & Hr & Hmin).
    assert (Htop : top ∈ fronts fs) by (rewrite <- Hp, Hpt; left).
    apply elem_of_fronts in Htop as (i & r & t & Hi & ->).
    assert (Hmin' : forall m, m ∈ fronts fs -> Heap.le (NodeOf i r) m).
    { intros m Hmm. rewrite <- Hp, Hpt in Hmm. apply elem_of_cons in Hmm as [->|Hmm]; [apply le_refl|by apply Hmin]. }
    destruct (pushNext_spec fs i r t rest (mg_sized _ _ _ Hm) Hi Hr) as (Hh' & Hp' & Htl); [by rewrite <- Hp|].
    cbn [n_run n_record node_of]. destruct (pushNext recordSize keySize i (rest, tails fs)) as [heap' runs'] eqn:Epn. cbn [fst snd] in Hh', Hp', Htl. subst runs'.
    pose proof (merging_step _ _ _ _ _ _ Hm Hi Hmin') as Hm'. pose proof (length_concat_insert fs i r t Hi) as Hlen.
    destruct (writes_on_writeRecord recordSize r w Hw) as (Hc & Hw' & Hcount).
    destruct (IH heap' (<[i:=t]> fs) (out ++ [r]) (writeRecord recordSize r w) Hh' Hp' Hm' Hw') as (out' & w' & -> & C1 & C2 & C3 & C4 & C5 & C6 & C7); [lia|].
    rewrite length_app in *. cbn [length] in *. exists out', w'. split_and!; [done| | |done|done|done| |lia].
    3:{ rewrite C6, Hcount. lia. }
    + assert (Hd : drop (length out) out' = r :: drop (length out + 1) out').
      { rewrite <- (take_drop (length out + 1) out'), C2 at 1. rewrite <- app_assoc, drop_app_length. done. }
      rewrite Hd, C1, Hc. cbn [concat]. by rewrite <- app_assoc.
    + transitivity (take (length out) (out ++ [r])); [|by rewrite take_app_length]. rewrite <- C2, take_take. f_equal. lia.
Qed.

(** Reading the first record of each run. *)
Lemma prime_spec fs :
  (forall run, run ∈ fs -> sizes run) ->
  let st := foldl (fun st i => pushNext recordSize keySize i st) ([], joined <$> fs) (seq 0 (length fs)) in
  Heap.heap st.1 /\ st.1 ≡ₚ fronts fs /\ st.2 = tails fs.
Proof.
  intros Hsz. enough (Hgen : forall n, n <= length fs ->
    let st := foldl (fun st i => pushNext recordSize keySize i st) ([], joined <$> fs) (seq 0 n) in
    Heap.heap st.1 /\ st.1 ≡ₚ fronts (take n fs) /\ st.2 = tails (take n fs) ++ (joined <$> drop n fs)).
  { cbn. destruct (Hgen (length fs) ltac:(lia)) as (H1 & H2 & H3). rewrite take_ge in H2, H3 by lia. rewrite drop_ge in H3 by lia.
    rewrite H3. cbn. by rewrite app_nil_r. }
  induction n as [|n IH]; intros Hn; [cbn; split_and!; [apply heap_nil|done|done]|]. rewrite seq_S, foldl_snoc.
  destruct (IH ltac:(lia)) as (H1 & H2 & H3). destruct (foldl _ _ _) as [heap runs]. cbn [fst snd] in *. subst runs.
  destruct (lookup_lt_is_Some_2 fs n Hn) as [run Hi]. rewrite (take_S_r _ _ _ Hi), (drop_S _ _ _ Hi). cbn [fmap list_fmap].
  unfold tails, fronts. rewrite !fmap_app, imap_app, concat_app. cbn [fmap list_fmap imap concat tail].
  rewrite length_take_le by lia. cbn. rewrite Nat.add_0_r, app_nil_r.
  unfold pushNext, readOne. cbn [fst snd]. fold (tails (take n fs)).
  assert (Hlen : length (tails (take n fs)) = n) by (unfold tails; rewrite length_fmap, length_take; lia).
  rewrite lookup_app_r, Hlen, Nat.sub_diag by lia. cbn. rewrite <- app_assoc. cbn [app].
  pose proof (Hsz run (list_elem_of_lookup_2 _ _ _ Hi)) as Hrun. destruct run as [|r t]; cbn [concat front tail].
  - rewrite bool_decide_eq_true_2 by done. cbn [fst snd]. rewrite app_nil_r. by split_and!.
  - pose proof (Hrun r ltac:(left)) as Hr.
    rewrite bool_decide_eq_false_2 by (intros E; apply app_eq_nil in E as [E _]; apply (f_equal length) in E; cbn in E; lia).
    rewrite take_app_length', drop_app_length' by done. cbn [fst snd]. split_and!.
    + by apply push_heap.
    + rewrite push_Permutation, H2. by rewrite Permutation_app_comm.
    + rewrite insert_app_r_alt, Hlen, Nat.sub_diag by lia. done.
Qed.

(** The merge of sorted runs is the stable sort of the input they are cut from. *)
Lemma mergeRuns_spec header input fs :
  (forall run, run ∈ fs -> sizes run) -> (forall run, run ∈ fs -> key_sorted key run) ->
  (forall k, with_key key k (concat fs) = with_key key k input) -> length (concat fs) = length input ->
  mergeRuns recordSize keySize header (joined <$> fs) (Z.of_nat (length input)) = Ok (header ++ concat (stable_sort key input)).
Proof.
  intros Hsz Hso Hk Hlen. unfold mergeRuns. rewrite length_fmap. destruct (prime_spec fs Hsz) as (H1 & H2 & H3).
  destruct (foldl _ _ _) as [heap runs]. cbn [fst snd] in *. subst runs.
  assert (Hm : merging input [] fs).
  { split; try done; [constructor|]. by intros a b Ha%elem_of_nil. }
  assert (Hf : length (concat fs) < S (length (concat (joined <$> fs)))).
  { enough (length (concat fs) <= length (concat (joined <$> fs))) by lia. clear -Hsz Hrs. induction fs as [|run fs IH]; [done|].
    cbn [concat fmap list_fmap]. rewrite !length_app, (length_concat_sized recordSize) by (apply Hsz; left).
    pose proof (IH ltac:(intros x Hx; apply Hsz; by right)). nia. }
  destruct (mergeLoop_spec input _ heap fs [] (new_writer header) H1 H2 Hm (writer_ok_new _) Hf) as (out & w & -> & C1 & C2 & C3 & C4 & C5 & C6 & C7).
  cbn [length] in *. rewrite C6, bool_decide_eq_true_2 by (cbn; lia). cbn [negb]. rewrite close_contents, C1, drop_0 by done.
  unfold contents, new_writer. cbn [w_file w_buf]. rewrite app_nil_r. do 3 f_equal.
  apply (sorted_unique key); [done|apply stable_sort_sorted|]. intros k. by rewrite C4, with_key_sort.
Qed.
End facts.

(** Options the sort accepts, for records of a known size. *)
Record sort_ok (o : sort_options) (recordSize keySize : nat) (header : bytes) : Prop := {
  sk_record : so_recordSize o = Z.of_nat recordSize;
  sk_key : so_keySize o = Z.of_nat keySize;
  sk_sizes : 0 < keySize <= recordSize;
  sk_header : so_headerSize o = length header;
}.

Definition kept_header (o : sort_options) (header : bytes) : bytes := if so_preserveHeader o then header else [].

Lemma run_externalSort o recordSize keySize header l :
  sort_ok o recordSize keySize header -> sized recordSize l ->
  externalSort o (header ++ concat l)
  = Ok (kept_header o header ++ concat (stable_sort (take keySize) l), Z.of_nat (length l)).
Proof.
  intros [Er Ek Hs Eh] Hl. unfold externalSort, resolveSortOptions. rewrite Er, Ek, Eh.
  rewrite !bool_decide_eq_false_2 by lia. cbn [orb mbind res_bind]. set (ram := if bool_decide _ then _ else _).
  unfold planRuns. cbn [so_headerSize so_recordSize so_keySize so_ramBudgetBytes so_preserveHeader].
  assert (Hc : (len (header ++ concat l) - Z.of_nat (length header) = Z.of_nat (length l) * Z.of_nat recordSize)%Z)
    by (rewrite len_app; unfold len; rewrite (length_concat_sized recordSize) by done; lia).
  rewrite Hc, Z.mod_mul, Z.div_mul by lia. rewrite (bool_decide_eq_false_2 (_ < 0)%Z) by lia. rewrite (bool_decide_eq_true_2 (0 = 0)%Z) by done. cbn [orb negb mbind res_bind].
  set (perRun := Z.max 1 _). rewrite !Nat2Z.id. assert (Hp : (0 < perRun)%Z) by (unfold perRun; lia).
  assert (Hle : length (header ++ concat l) = length header + length l * recordSize) by (rewrite length_app, (length_concat_sized recordSize) by done; lia).
  rewrite createSortedRuns_spec by (done || lia). set (fuel := S _). set (cs := chunk_list fuel _ l).
  assert (Hcc : concat cs = l).
  { destruct l as [|x t]; [done|]. apply (concat_chunk_list recordSize ltac:(lia)); [cbn [length]; lia|]. unfold fuel. rewrite Hle. cbn [length] in *. nia. }
  assert (Hcs : forall c, c ∈ cs -> sized recordSize c) by (intros c Hc' r Hr; apply Hl; by eapply elem_of_chunk_list).
  rewrite (list_fmap_compose (stable_sort (take keySize)) joined cs : (fun c => concat (stable_sort (take keySize) c)) <$> cs = _).
  rewrite (mergeRuns_spec recordSize keySize ltac:(lia) _ l).
  - cbn [mbind res_bind]. do 3 f_equal. unfold kept_header. destruct (so_preserveHeader o); [|done]. cbn [andb].
    case_bool_decide; [by rewrite take_app_length|]. destruct header; [done|cbn in *; lia].
  - intros run (c & -> & Hc')%list_elem_of_fmap r Hr. rewrite stable_sort_Permutation in Hr. by apply (Hcs c).
  - intros run (c & -> & Hc')%list_elem_of_fmap. apply stable_sort_sorted.
  - intros k. rewrite <- Hcc at 1. clear. induction cs as [|c cs IH]; [done|]. cbn [fmap list_fmap concat].
    by rewrite !with_key_app, with_key_sort, IH.
  - rewrite <- Hcc at 1. clear. induction cs as [|c cs IH]; [done|]. cbn [fmap list_fmap concat].
    by rewrite !length_app, IH, stable_sort_Permutation.
Qed.
