(* ===== verification/AntiJoin.v ===== *)
(** [leftAntiJoin] of [bulk_sync/merger/streaming_join.js]: two files sorted by the same
    key prefix, one pass over both, the left records whose key the right does not have. *)

From S2P Require Import Prelude LevelDb Wire RecordFiles Heap ExternalSort.

#[local] Open Scope string_scope.
#[local] Open Scope nat_scope.
#[local] Open Scope list_scope.

(** * The join *)

Record join_stats := mkStats {
  leftRead : Z; rightRead : Z; emitted : Z; canceled : Z; orphanSpends : Z }.

Definition no_stats : join_stats := mkStats 0 0 0 0 0.

(** [left.next(); if (leftCurr) leftRead++], and the same on the right. *)
Definition nextLeft (left_file : reader) (s : join_stats) : option bytes * reader * join_stats :=
  let '(curr, r) := next left_file in
  (curr, r, if curr then mkStats (leftRead s + 1) (rightRead s) (emitted s) (canceled s) (orphanSpends s) else s).

Definition nextRight (right_file : reader) (s : join_stats) : option bytes * reader * join_stats :=
  let '(curr, r) := next right_file in
  (curr, r, if curr then mkStats (leftRead s) (rightRead s + 1) (emitted s) (canceled s) (orphanSpends s) else s).

Definition count_emitted (s : join_stats) : join_stats :=
  mkStats (leftRead s) (rightRead s) (emitted s + 1) (canceled s) (orphanSpends s).
Definition count_canceled (s : join_stats) : join_stats :=
  mkStats (leftRead s) (rightRead s) (emitted s) (canceled s + 1) (orphanSpends s).
Definition count_orphan (s : join_stats) : join_stats :=
  mkStats (leftRead s) (rightRead s) (emitted s) (canceled s) (orphanSpends s + 1).

Section join.
Context (recordSize keySize : nat).

(** What is left on the right has nothing to cancel. *)
Fixpoint drainRight (fuel : nat) (rightCurr : option bytes) (right_file : reader) (s : join_stats) : join_stats :=
  match fuel, rightCurr with
  | S f, Some _ =>
      let '(rightCurr, right_file, s) := nextRight right_file (count_orphan s) in
      drainRight f rightCurr right_file s
  | _, _ => s
  end.

Fixpoint joinLoop (fuel : nat) (leftCurr rightCurr : option bytes) (left_file right_file : reader)
    (out : writer) (s : join_stats) : writer * join_stats :=
  match fuel, leftCurr with
  | S f, Some l =>
      match rightCurr with
      | None =>
          let out := writeRecord recordSize l out in
          let '(leftCurr, left_file, s) := nextLeft left_file (count_emitted s) in
          joinLoop f leftCurr rightCurr left_file right_file out s
      | Some r =>
          let kl := take keySize l in
          let kr := take keySize r in
          if bool_decide (kl = kr) then
            let '(leftCurr, left_file, s) := nextLeft left_file (count_canceled s) in
            let '(rightCurr, right_file, s) := nextRight right_file s in
            joinLoop f leftCurr rightCurr left_file right_file out s
          else if ble kl kr then
            let out := writeRecord recordSize l out in
            let '(leftCurr, left_file, s) := nextLeft left_file (count_emitted s) in
            joinLoop f leftCurr rightCurr left_file right_file out s
          else
            let '(rightCurr, right_file, s) := nextRight right_file (count_orphan s) in
            joinLoop f leftCurr rightCurr left_file right_file out s
      end
  | f, _ => (out, drainRight f rightCurr right_file s)
  end.

(** Every turn reads a record, and there are fewer records than bytes. *)
Definition joinRecords (left_file right_file : reader) (out : writer) : writer * join_stats :=
  let '(leftCurr, left_file, s) := nextLeft left_file no_stats in
  let '(rightCurr, right_file, s) := nextRight right_file s in
  joinLoop (S (length (rd_file left_file) + length (rd_file right_file))) leftCurr rightCurr left_file right_file out s.
End join.

Record join_options := mkJoin {
  jo_leftHeaderSize : nat; jo_leftRecordSize : nat; jo_rightHeaderSize : nat; jo_rightRecordSize : nat;
  jo_keySize : nat; jo_copyLeftHeader : bool }.

Definition leftAntiJoin (o : join_options) (leftFile rightFile : bytes) : res (bytes * join_stats) :=
  if bool_decide (jo_keySize o <= 0) then Err (failure "leftAntiJoin: keySize must be a positive integer")
  else if bool_decide (jo_leftRecordSize o < jo_keySize o) || bool_decide (jo_rightRecordSize o < jo_keySize o)
  then Err (failure "leftAntiJoin: keySize exceeds one of the record sizes")
  else
    left_file ← newRecordReader leftFile (jo_leftHeaderSize o) (jo_leftRecordSize o);
    right_file ← newRecordReader rightFile (jo_rightHeaderSize o) (jo_rightRecordSize o);
    let header := if jo_copyLeftHeader o && bool_decide (0 < jo_leftHeaderSize o)
                  then take (jo_leftHeaderSize o) leftFile else [] in
    let '(out, s) := joinRecords (jo_leftRecordSize o) (jo_keySize o) left_file right_file (new_writer header) in
    Ok (close_file out, s).

(** * What it keeps *)

Section spec.
Context (keySize : nat).
Implicit Types l r : list bytes.

Abbreviation key := (take keySize).

(** The records of [l] with no record of [r] under their key. *)
Definition unmatched l r : list bytes := filter (fun x => key x ∉ (key <$> r)) l.
Definition matched l r : list bytes := filter (fun x => key x ∈ (key <$> r)) l.

(** Strictly ascending keys. *)
Definition keyed : list bytes -> Prop := StronglySorted (fun a b => ble (key a) (key b) = true /\ key a <> key b).

Lemma keyed_sorted l : key_sorted key l -> NoDup (key <$> l) -> keyed l.
Proof.
  induction 1 as [|x l Hl IH Hx]; intros Hn; [constructor|]. rewrite fmap_cons in Hn. apply NoDup_cons in Hn as [Hnx Hn].
  constructor; [by apply IH|]. rewrite Forall_forall in Hx |- *. intros y Hy. split; [by apply Hx|]. intros E. apply Hnx. rewrite E. by apply list_elem_of_fmap_2.
Qed.

Lemma keyed_cons x l : keyed (x :: l) -> keyed l /\ forall y, y ∈ l -> ble (key x) (key y) = true /\ key x <> key y.
Proof. intros Hk. inversion Hk as [|? ? Hl Hx]; subst. split; [done|]. by rewrite Forall_forall in Hx. Qed.

(** A key below all those of [r] is none of them. *)
Lemma below_none (x : bytes) l r : keyed (x :: l) -> (forall y, y ∈ r -> ble (key x) (key y) = true /\ key x <> key y) -> key x ∉ (key <$> r).
Proof. intros _ Hr (y & E & Hy)%list_elem_of_fmap. by destruct (Hr y Hy). Qed.

Lemma below_all (k : bytes) x l : keyed (x :: l) -> ble k (key x) = true -> k <> key x -> forall y, y ∈ x :: l -> ble k (key y) = true /\ k <> key y.
Proof.
  intros [_ Hl]%keyed_cons Hk Hne y [->|Hy]%elem_of_cons; [done|]. destruct (Hl y Hy) as [H1 H2]. split; [by eapply ble_trans|].
  intros ->. apply Hne. by apply ble_antisym.
Qed.

(** Dropping from [r] a record below all of [l] changes nothing. *)
Lemma unmatched_skip l x r : (forall y, y ∈ l -> key y <> key x) -> unmatched l (x :: r) = unmatched l r.
Proof. intros Hx. apply filter_ext_elem. intros y Hy. rewrite fmap_cons, elem_of_cons. specialize (Hx y Hy). tauto. Qed.

Lemma matched_skip l x r : (forall y, y ∈ l -> key y <> key x) -> matched l (x :: r) = matched l r.
Proof. intros Hx. apply filter_ext_elem. intros y Hy. rewrite fmap_cons, elem_of_cons. specialize (Hx y Hy). tauto. Qed.
End spec.

Section run.
Context (recordSize keySize : nat).
Implicit Types l r : list bytes.

Abbreviation key := (take keySize).

Definition add_counts (s : join_stats) (lr rr e c o : nat) : join_stats :=
  mkStats (leftRead s + Z.of_nat lr) (rightRead s + Z.of_nat rr) (emitted s + Z.of_nat e)
          (canceled s + Z.of_nat c) (orphanSpends s + Z.of_nat o).

(** Both cursors on the lists: the current record and a reader on the rest. *)
Definition at_head (curr : option bytes) (rd : reader) l : Prop := curr = head l /\ (l = [] \/ reading rd (tail l)).

Lemma nextLeft_spec curr rd x l s : at_head curr rd (x :: l) ->
  exists curr' rd', nextLeft rd s = (curr', rd', add_counts s (if l then 0 else 1) 0 0 0 0) /\ at_head curr' rd' l.
Proof.
  intros [_ [?|Hr]]; [done|]. pose proof (next_reading rd l Hr) as Hn. unfold nextLeft, add_counts. destruct s.
  destruct l as [|y l]; cbn [tail] in *.
  - destruct (next rd) as [[?|] rd'] eqn:E; cbn in Hn; [done|]. exists None, rd'. cbn. rewrite !Z.add_0_r. split; [done|]. split; [done|by left].
  - destruct Hn as (rd' & -> & Hr'). exists (Some y), rd'. cbn. rewrite !Z.add_0_r. split; [done|]. split; [done|by right].
Qed.

Lemma nextRight_spec curr rd x r s : at_head curr rd (x :: r) ->
  exists curr' rd', nextRight rd s = (curr', rd', add_counts s 0 (if r then 0 else 1) 0 0 0) /\ at_head curr' rd' r.
Proof.
  intros [_ [?|Hr]]; [done|]. pose proof (next_reading rd r Hr) as Hn. unfold nextRight, add_counts. destruct s.
  destruct r as [|y r]; cbn [tail] in *.
  - destruct (next rd) as [[?|] rd'] eqn:E; cbn in Hn; [done|]. exists None, rd'. cbn. rewrite !Z.add_0_r. split; [done|]. split; [done|by left].
  - destruct Hn as (rd' & -> & Hr'). exists (Some y), rd'. cbn. rewrite !Z.add_0_r. split; [done|]. split; [done|by right].
Qed.

Lemma stats_eq s s' : leftRead s = leftRead s' -> rightRead s = rightRead s' -> emitted s = emitted s' -> canceled s = canceled s' ->
  orphanSpends s = orphanSpends s' -> s = s'.
Proof. destruct s, s'. cbn. by intros -> -> -> -> ->. Qed.

Ltac counts := apply stats_eq; cbn; lia.

Lemma drainRight_spec fuel curr rd r s : at_head curr rd r -> length r < fuel ->
  drainRight fuel curr rd s = add_counts s 0 (length r - 1) 0 0 (length r).
Proof.
  induction fuel as [|f IH] in curr, rd, r, s |- *; intros Hr Hf; [lia|]. destruct r as [|x r].
  - destruct Hr as [-> _]. cbn. counts.
  - cbn [drainRight]. rewrite (proj1 Hr). cbn [head]. destruct (nextRight_spec curr rd x r (count_orphan s) Hr) as (c' & rd' & -> & Hr').
    rewrite (IH _ _ r) by (done || (cbn in *; lia)). destruct r; counts.
Qed.

Lemma joinLoop_spec fuel : forall lc rc lf rf l r w s,
  at_head lc lf l -> at_head rc rf r -> keyed keySize l -> keyed keySize r -> writer_ok w -> length l + length r < fuel ->
  exists w', joinLoop recordSize keySize fuel lc rc lf rf w s
    = (w', add_counts s (length l - 1) (length r - 1) (length (unmatched keySize l r)) (length (matched keySize l r)) (length (unmatched keySize r l)))
    /\ contents w' = contents w ++ concat (unmatched keySize l r) /\ writer_ok w'.
Proof.
  induction fuel as [|f IH]; intros lc rc lf rf l r w s Hl Hr Kl Kr Hw Hf; [lia|]. cbn [joinLoop]. rewrite (proj1 Hl). destruct l as [|x l].
  { cbn [head]. rewrite (drainRight_spec _ _ _ r) by (done || lia). exists w. unfold unmatched, matched. cbn.
    rewrite (filter_id _ r), app_nil_r by (intros; set_solver). done. }
  destruct (keyed_cons _ _ _ Kl) as [Kl' Hx]. cbn [head]. assert (lc = Some x) as -> by apply Hl. cbn [length] in Hf.
  assert (Hwrite : forall r, keyed keySize r -> at_head rc rf r -> key x ∉ (key <$> r) ->
    unmatched keySize r (x :: l) = unmatched keySize r l -> length l + length r < f ->
    exists w', (let out := writeRecord recordSize x w in
       let '(leftCurr, left_file, s) := nextLeft lf (count_emitted s) in
       joinLoop recordSize keySize f leftCurr rc left_file rf out s)
    = (w', add_counts s (length (x :: l) - 1) (length r - 1) (length (unmatched keySize (x :: l) r)) (length (matched keySize (x :: l) r)) (length (unmatched keySize r (x :: l))))
    /\ contents w' = contents w ++ concat (unmatched keySize (x :: l) r) /\ writer_ok w').
  { intros r' Kr' Hr' Hxr Hskip Hlen. destruct (nextLeft_spec (Some x) lf x l (count_emitted s) Hl) as (c' & rd' & E & Hl'). cbv zeta. rewrite E.
    destruct (writes_on_writeRecord recordSize x w Hw) as (Hc & Hw' & _).
    destruct (IH c' rc rd' rf l r' (writeRecord recordSize x w) (add_counts (count_emitted s) (if l then 0 else 1) 0 0 0 0) Hl' Hr' Kl' Kr' Hw' Hlen) as (w' & -> & Hc' & Ho).
    exists w'. unfold unmatched, matched in *. rewrite (filter_cons_True _ x), (filter_cons_False _ x) by (done || by intros ?).
    rewrite Hskip. split_and!; [|by rewrite Hc', Hc, <- app_assoc|done]. f_equal. destruct l; counts. }
  destruct r as [|y r].
  { assert (rc = None) as -> by apply Hr. apply (Hwrite []); [done|done|set_solver|done|cbn in *; lia]. }
  assert (rc = Some y) as -> by apply Hr. destruct (keyed_cons _ _ _ Kr) as [Kr' Hy]. cbn [length] in Hf.
  destruct (bool_decide_reflect (key x = key y)) as [E|E].
  { destruct (nextLeft_spec (Some x) lf x l (count_canceled s) Hl) as (c' & rd' & -> & Hl').
    destruct (nextRight_spec (Some y) rf y r (add_counts (count_canceled s) (if l then 0 else 1) 0 0 0 0)) as (c2 & rd2 & -> & Hr'); [done|].
    destruct (IH c' c2 rd' rd2 l r w (add_counts (add_counts (count_canceled s) (if l then 0 else 1) 0 0 0 0) 0 (if r then 0 else 1) 0 0 0)) as (w' & -> & Hc' & Ho); [done..|lia|].
    exists w'.
    assert (U1 : unmatched keySize (x :: l) (y :: r) = unmatched keySize l r).
    { unfold unmatched at 1. rewrite filter_cons_False by (rewrite fmap_cons, E; intros Hn; apply Hn; left).
      apply unmatched_skip. intros z Hz. rewrite <- E. intros Ez. by apply (Hx z Hz). }
    assert (U2 : unmatched keySize (y :: r) (x :: l) = unmatched keySize r l).
    { unfold unmatched at 1. rewrite filter_cons_False by (rewrite fmap_cons, E; intros Hn; apply Hn; left).
      apply unmatched_skip. intros z Hz. rewrite E. intros Ez. by apply (Hy z Hz). }
    assert (M : matched keySize (x :: l) (y :: r) = x :: matched keySize l r).
    { unfold matched at 1. rewrite filter_cons_True by (rewrite fmap_cons, E; left). f_equal.
      apply matched_skip. intros z Hz. rewrite <- E. intros Ez. by apply (Hx z Hz). }
    rewrite U1, U2, M. split_and!; [|done|done]. f_equal. destruct l, r; counts. }
  destruct (ble (key x) (key y)) eqn:Eb.
  { pose proof (below_all keySize (key x) y r Kr Eb E) as Hall. apply (Hwrite (y :: r)); [done|done| | |cbn; lia].
    - intros (z & Ez & Hz)%list_elem_of_fmap. by destruct (Hall z Hz).
    - apply unmatched_skip. intros z Hz Ez. by destruct (Hall z Hz). }
  destruct (ble_total (key x) (key y)) as [?|Eb']; [congruence|].
  pose proof (below_all keySize (key y) x l Kl Eb' ltac:(congruence)) as Hall.
  destruct (nextRight_spec (Some y) rf y r (count_orphan s) Hr) as (c' & rd' & -> & Hr').
  destruct (IH (Some x) c' lf rd' (x :: l) r w (add_counts (count_orphan s) 0 (if r then 0 else 1) 0 0 0)) as (w' & Ej & Hc' & Ho); [done..|cbn; lia|].
  rewrite Ej. exists w'.
  assert (Hne : forall z, z ∈ x :: l -> key z <> key y) by (intros z Hz Ez; by destruct (Hall z Hz)).
  rewrite (unmatched_skip keySize (x :: l) y r Hne), (matched_skip keySize (x :: l) y r Hne).
  assert (U : unmatched keySize (y :: r) (x :: l) = y :: unmatched keySize r (x :: l)).
  { unfold unmatched at 1. rewrite filter_cons_True; [done|]. intros (z & Ez & Hz)%list_elem_of_fmap. by destruct (Hne z Hz). }
  rewrite U. split_and!; [|done|done]. f_equal. destruct r; counts.
Qed.
End run.

(** The join of two files keyed by the same prefix. *)
Record join_ok (o : join_options) (lh rh : bytes) (l r : list bytes) : Prop := {
  jk_key : 0 < jo_keySize o <= jo_leftRecordSize o /\ jo_keySize o <= jo_rightRecordSize o;
  jk_lh : jo_leftHeaderSize o = length lh;
  jk_rh : jo_rightHeaderSize o = length rh;
  jk_left : sized (jo_leftRecordSize o) l;
  jk_right : sized (jo_rightRecordSize o) r;
  jk_lkeys : keyed (jo_keySize o) l;
  jk_rkeys : keyed (jo_keySize o) r;
}.

Lemma run_leftAntiJoin o lh rh l r :
  join_ok o lh rh l r ->
  leftAntiJoin o (lh ++ concat l) (rh ++ concat r)
  = Ok ((if jo_copyLeftHeader o then lh else []) ++ concat (unmatched (jo_keySize o) l r),
        mkStats (Z.of_nat (length l)) (Z.of_nat (length r)) (Z.of_nat (length (unmatched (jo_keySize o) l r)))
          (Z.of_nat (length (matched (jo_keySize o) l r))) (Z.of_nat (length (unmatched (jo_keySize o) r l)))).
Proof.
  intros [[Hk Hk'] Hlh Hrh Hl Hr Kl Kr]. unfold leftAntiJoin. rewrite !bool_decide_eq_false_2 by lia. cbn [orb]. rewrite Hlh, Hrh.
  destruct (reading_new lh (jo_leftRecordSize o) l) as (rl & El & Rl & Fl); [lia|done|]. rewrite El. cbn [mbind res_bind].
  destruct (reading_new rh (jo_rightRecordSize o) r) as (rr & Er & Rr & Fr); [lia|done|]. rewrite Er. cbn [mbind res_bind].
  set (header := if _ && _ then _ else _). assert (Eh : header = if jo_copyLeftHeader o then lh else []).
  { unfold header. destruct (jo_copyLeftHeader o); [|done]. cbn [andb]. case_bool_decide; [by rewrite take_app_length|]. destruct lh; [done|cbn in *; lia]. }
  unfold joinRecords.
  (* a reader at the start of its file is one past a record *)
  destruct (nextLeft_spec (Some []) rl [] l no_stats) as (lc & rl' & E1 & Hl'); [by split; [|right]|]. rewrite E1.
  destruct (nextRight_spec (Some []) rr [] r (add_counts no_stats (if l then 0 else 1) 0 0 0 0)) as (rc & rr' & E2 & Hr'); [by split; [|right]|]. rewrite E2.
  destruct (joinLoop_spec (jo_leftRecordSize o) (jo_keySize o) (S (length (rd_file rl') + length (rd_file rr'))) lc rc rl' rr' l r
    (new_writer header) (add_counts (add_counts no_stats (if l then 0 else 1) 0 0 0 0) 0 (if r then 0 else 1) 0 0 0)) as (w' & Ej & Hc & Ho);
    [done|done|done|done|by split| |].
  { pose proof (next_file rl) as Nl. pose proof (next_file rr) as Nr. unfold nextLeft in E1. unfold nextRight in E2.
    destruct (next rl) as [? ?], (next rr) as [? ?]. cbn in Nl, Nr. injection E1 as -> -> _. injection E2 as -> -> _.
    rewrite Nl, Nr, Fl, Fr, !length_app, (length_concat_sized _ l Hl), (length_concat_sized _ r Hr). nia. }
  rewrite Ej. rewrite close_contents, Hc by done. unfold contents, new_writer. cbn [w_file w_buf]. rewrite app_nil_r, Eh. do 2 f_equal.
  apply stats_eq; destruct l, r; cbn; lia.
Qed.
