(* ===== verification/SeedStreams.v ===== *)
(** The parse streams of the bulk seeder: what a block contributes to them
    ([bulk_sync/process_block.js]), the writers of the three streams and their 64-byte
    header ([writers.js]), the worker that parses a range ([parse_worker.js]), the
    concatenation of the ranges ([orchestrator/file_ops.js]) and the reader of the meta
    stream ([merger/meta_reader.js]). *)

From S2P Require Import Prelude KeyCodec ValueCodec Parsing Wire AuxPow Decoder RecordFiles.

#[local] Open Scope string_scope.
#[local] Open Scope nat_scope.
#[local] Open Scope list_scope.

(** [tx.getHash()] of bitcoinjs-lib, in wire order. *)
Class TxHash := { getHash : transaction -> bytes }.

(** * Fields

    Range-checked Buffer writes, as the bytes they leave. *)

Definition field_if (ok : bool) (b : bytes) : res bytes := if ok then Ok b else Err (Error ERange).
Definition field_u32BE (n : Z) : res bytes := field_if (bool_decide (u32 n)) (be 4 n).
Definition field_i32BE (n : Z) : res bytes := field_if (bool_decide (i32 n)) (be 4 (n mod 4294967296)).
Definition field_u64BE (n : Z) : res bytes := field_if (bool_decide (u64 n)) (be 8 n).
Definition field_u32LE (n : Z) : res bytes := field_if (bool_decide (u32 n)) (le 4 n).
Definition field_u64LE (n : Z) : res bytes := field_if (bool_decide (u64 n)) (le 8 n).

(** * Headers *)

Definition HEADER_SIZE : nat := 64.
Definition FILE_VERSION : Z := 2.
Definition MAGIC_OUTPUTS : bytes := from_latin1 "XCHNOUT2".
Definition MAGIC_SPENDS : bytes := from_latin1 "XCHNSPD2".
Definition MAGIC_META : bytes := from_latin1 "XCHNMTA2".

Definition CHAIN_CODES (chain : string) : option Z :=
  if bool_decide (chain = "bitcoin") then Some 1%Z
  else if bool_decide (chain = "litecoin") then Some 2%Z
  else if bool_decide (chain = "dogecoin") then Some 3%Z
  else None.

Definition NETWORK_CODES (netName : string) : option Z :=
  if bool_decide (netName = "mainnet") then Some 1%Z
  else if bool_decide (netName = "testnet") then Some 2%Z
  else if bool_decide (netName = "regtest") then Some 3%Z
  else None.

Definition writeHeader (magic : bytes) (chain netName : string) (firstHeight lastHeight recordSize : Z) : res bytes :=
  match CHAIN_CODES chain, NETWORK_CODES netName with
  | None, _ => Err (failure "Unknown chain")
  | _, None => Err (failure "Unknown network")
  | Some c, Some n =>
      firstHeight ← field_u32LE firstHeight;
      lastHeight ← field_u32LE lastHeight;
      recordSize ← field_u32LE recordSize;
      Ok (magic ++ [byte_of_Z c; byte_of_Z n] ++ le 2 FILE_VERSION ++ firstHeight ++ lastHeight
          ++ zeros 8 ++ recordSize ++ zeros 32)
  end.

(** The count goes to offset 20 of the closed file. *)
Definition backfillRecordCount (file : bytes) (count : Z) : res bytes :=
  count ← field_u64LE count; Ok (buf_write file 20 count).

(** * The fixed-size streams *)

Definition OUTPUTS_RECORD_SIZE : nat := 113.
Definition SPENDS_RECORD_SIZE : nat := 68.

(** [src.copy(b, off, 0, 32)] into a 32-byte field. *)
Definition copy32 (src : bytes) : bytes := take 32 src.

(** [OutputsWriter.append]. *)
Definition appendOutput (txid : bytes) (vout value height : Z) (scriptPubKey blockHash : bytes) (isCoinbase : bool)
    (w : writer) : res writer :=
  value ← field_u64BE value;
  height ← field_i32BE height;
  Ok (advance OUTPUTS_RECORD_SIZE
        (copy32 txid ++ be 4 (ushr0 vout) ++ value ++ height ++ copy32 scriptPubKey ++ copy32 blockHash
         ++ [if isCoinbase then x01 else x00]) w).

(** [SpendsWriter.append]. *)
Definition appendSpend (prevTxid : bytes) (prevVout : Z) (spenderTxid : bytes) (w : writer) : writer :=
  advance SPENDS_RECORD_SIZE (copy32 prevTxid ++ be 4 (ushr0 prevVout) ++ copy32 spenderTxid) w.

(** [FixedRecordWriter.close]. *)
Definition close_stream (w : writer) : res bytes := backfillRecordCount (close_file w) (w_count w).

(** * The meta stream *)

Definition META_TXID_SIZE : nat := 32.

(** File, filled part of the buffer, the buffer's size, blocks written. *)
Record meta_writer := mkMetaWriter { m_file : bytes; m_buf : bytes; m_cap : Z; m_count : Z }.

Definition new_meta_writer (header : bytes) : meta_writer := mkMetaWriter header [] IO_CHUNK_BYTES 0.

Definition meta_flush (w : meta_writer) : meta_writer := mkMetaWriter (m_file w ++ m_buf w) [] (m_cap w) (m_count w).

Definition ensure (needed : Z) (w : meta_writer) : meta_writer :=
  if bool_decide (len (m_buf w) + needed <= m_cap w)%Z then w
  else
    let w := meta_flush w in
    if bool_decide (m_cap w < needed)%Z then mkMetaWriter (m_file w) (m_buf w) needed (m_count w) else w.

Definition writeBlock (height timestamp : Z) (blockHash previousHash : bytes) (txidList : list bytes) (w : meta_writer)
    : meta_writer :=
  let txCount := Z.of_nat (length txidList) in
  let w := ensure (76 + 32 * txCount) w in
  let record := be 4 (ushr0 height) ++ be 4 (ushr0 timestamp) ++ copy32 blockHash ++ copy32 previousHash
                ++ be 4 (ushr0 txCount) ++ concat (copy32 <$> txidList) in
  mkMetaWriter (m_file w) (m_buf w ++ record) (m_cap w) (m_count w + 1).

Definition close_meta (w : meta_writer) : res bytes :=
  let w := meta_flush w in backfillRecordCount (m_file w) (m_count w).

(** * A block *)

Record writers := mkWriters { ws_outputs : writer; ws_spends : writer; ws_meta : meta_writer }.

Section process.
Context {node : Node} {hash : TxHash}.

(** [out[i] = src[31 - i]]; a byte past the end reads as 0. *)
Definition reverseBytes32 (src : bytes) : bytes := (fun i => default x00 (src !! (31 - i))) <$> seq 0 32.

Definition appendOutputs (tx : transaction) (txid : bytes) (height : Z) (blockHash : bytes) (w : writer) : res writer :=
  fold_res (fun '(vout, o) w =>
      appendOutput txid (Z.of_nat vout) (to_value o) height (sha256 (to_script o)) blockHash (isCoinbaseTransaction tx) w)
    (imap pair (outs tx)) w.

Definition appendSpends (ins : list tx_in) (txid : bytes) (w : writer) : writer :=
  foldl (fun w inp =>
      if skip_input inp then w else appendSpend (reverseBytes32 (ti_hash inp)) (ti_index inp) txid w) w ins.

Definition processTransaction (tx : transaction) (height : Z) (blockHash : bytes) (ws : writers) : res (bytes * writers) :=
  let txid := reverseBytes32 (getHash tx) in
  outputs ← appendOutputs tx txid height blockHash (ws_outputs ws);
  let spends := appendSpends (ins tx) txid (ws_spends ws) in
  Ok (txid, mkWriters outputs spends (ws_meta ws)).

Definition processBlock (block : lib_block) (height : Z) (blockHash : bytes) (ws : writers) : res writers :=
  let previousHash := reverseBytes32 (bl_prevHash block) in
  '(txidList, ws) ← fold_res (fun tx '(l, ws) =>
      '(txid, ws) ← processTransaction tx height blockHash ws; Ok (l ++ [txid], ws))
    (bl_transactions block) ([], ws);
  Ok (mkWriters (ws_outputs ws) (ws_spends ws)
        (writeBlock height (bl_timestamp block) blockHash previousHash txidList (ws_meta ws))).

(** * A range

    The blocks of a dump as its reader yields them: height, hash, bytes. *)

Record dumped := mkDumped { d_height : Z; d_hash : bytes; d_bytes : bytes }.

Context {lib : Bitcoinjs}.

Definition processBlocks (wireFormat : string) (blocks : list dumped) (ws : writers) : res writers :=
  fold_res (fun d ws =>
      block ← blockFromBuffer wireFormat (d_bytes d);
      processBlock block (d_height d) (d_hash d) ws) blocks ws.

(** The three files of a range. *)
Record parsed := mkParsed { p_outputs : bytes; p_spends : bytes; p_meta : bytes }.

Definition finishOutputs (ws : writers) : res parsed :=
  outputs ← close_stream (ws_outputs ws);
  spends ← close_stream (ws_spends ws);
  meta ← close_meta (ws_meta ws);
  Ok (mkParsed outputs spends meta).

Definition parseRange (chain netName : string) (firstHeight lastHeight : Z) (blocks : list dumped) : res parsed :=
  wireFormat ← newDecoder (String.append chain (String.append "-" netName));
  outputs ← writeHeader MAGIC_OUTPUTS chain netName firstHeight lastHeight (Z.of_nat OUTPUTS_RECORD_SIZE);
  spends ← writeHeader MAGIC_SPENDS chain netName firstHeight lastHeight (Z.of_nat SPENDS_RECORD_SIZE);
  meta ← writeHeader MAGIC_META chain netName firstHeight lastHeight 0;
  ws ← processBlocks wireFormat blocks (mkWriters (new_writer outputs) (new_writer spends) (new_meta_writer meta));
  finishOutputs ws.
End process.

(** * Concatenating the ranges *)

Record file_header := mkHdr { h_magic : bytes; h_chain : Z; h_net : Z; h_recordSize : Z }.

#[global] Instance file_header_eq_dec : EqDecision file_header.
Proof. solve_decision. Defined.

(** The fields of a header, its record count and its heights. *)
Definition readHeaderFields (hdr : bytes) : file_header * Z * Z * Z :=
  (mkHdr (take 8 hdr) (unle (slice 8 9 hdr)) (unle (slice 9 10 hdr)) (unle (slice 28 32 hdr)),
   unle (slice 20 28 hdr), unle (slice 12 16 hdr), unle (slice 16 20 hdr)).

(** Against the first input's identity and the previous input's last height. *)
Definition checkInputHeader (file : bytes) (firstHdr : option file_header) (prevLastHeight : option Z)
    : res (file_header * Z * Z) :=
  let '(thisHdr, recordCount, firstH, lastH) := readHeaderFields (take HEADER_SIZE file) in
  if bool_decide (recordCount = 0%Z) && negb (bool_decide (length file = HEADER_SIZE))
  then Err (failure "record_count 0 (crashed/partial worker output); re-run the parse for this range")
  else
    match firstHdr with
    | Some first =>
        if negb (bool_decide (thisHdr = first)) then Err (failure "refusing to concatenate mixed files")
        else if negb (match prevLastHeight with Some p => bool_decide (firstH = (p + 1)%Z) | None => true end)
        then Err (failure "gap or overlap in parsed ranges")
        else Ok (thisHdr, recordCount, lastH)
    | None => Ok (thisHdr, recordCount, lastH)
    end.

Record concat_state := mkConcat {
  ct_out : bytes; ct_first : option file_header; ct_prevLast : option Z; ct_total : Z; ct_maxLast : Z }.

Definition concatOne (file : bytes) (st : concat_state) : res concat_state :=
  if bool_decide (length file < HEADER_SIZE) then Err (failure "smaller than headerSize")
  else
    '(thisHdr, recordCount, lastH) ← checkInputHeader file (ct_first st) (ct_prevLast st);
    Ok (mkConcat
          (ct_out st ++ drop (if ct_first st then HEADER_SIZE else 0) file)
          (Some (default thisHdr (ct_first st))) (Some lastH) (ct_total st + recordCount)
          (if bool_decide (ct_maxLast st < lastH)%Z then lastH else ct_maxLast st)).

Definition patchOutputHeader (file : bytes) (maxLastHeight totalRecordCount : Z) : res bytes :=
  maxLastHeight ← field_u32LE maxLastHeight;
  totalRecordCount ← field_u64LE totalRecordCount;
  Ok (buf_write (buf_write file 16 maxLastHeight) 20 totalRecordCount).

Definition concatFilesWithHeader (inputs : list bytes) : res bytes :=
  if bool_decide (inputs = []) then Err (failure "concatFilesWithHeader: no input files")
  else
    st ← fold_res concatOne inputs (mkConcat [] None None 0 0);
    patchOutputHeader (ct_out st) (ct_maxLast st) (ct_total st).

(** * Reading the meta stream *)

Record meta_block := mkMeta { mb_height : Z; mb_time : Z; mb_hash : bytes; mb_prev : bytes; mb_txids : list bytes }.

Definition MIN_RECORD_SIZE : nat := 76.

(** The blocks from a position on: what [blocks()] yields, or the throw it ends with. *)
Fixpoint metaBlocks (fuel : nat) (rest : bytes) (acc : list meta_block) : res (list meta_block) :=
  match fuel with
  | O => Ok acc
  | S f =>
      if bool_decide (rest = []) then Ok acc
      else if bool_decide (length rest < MIN_RECORD_SIZE) then Err (failure "meta truncated")
      else
        let txCount := unbe (slice 72 76 rest) in
        let total := (Z.of_nat MIN_RECORD_SIZE + Z.of_nat META_TXID_SIZE * txCount)%Z in
        if bool_decide (len rest < total)%Z then Err (failure "meta truncated")
        else
          let blk := mkMeta (unbe (slice 0 4 rest)) (unbe (slice 4 8 rest)) (slice 8 40 rest) (slice 40 72 rest)
                       ((fun i => slice (MIN_RECORD_SIZE + META_TXID_SIZE * i) (MIN_RECORD_SIZE + META_TXID_SIZE * i + META_TXID_SIZE) rest)
                        <$> seq 0 (Z.to_nat txCount)) in
          metaBlocks f (drop (Z.to_nat total) rest) (acc ++ [blk])
  end.

(** [new MetaReader(file).blocks()], to the end. *)
Definition readMeta (file : bytes) : res (list meta_block) :=
  if bool_decide (length file < HEADER_SIZE) then Err (failure "meta file too small")
  else if negb (bool_decide (take 8 file = MAGIC_META)) then Err (failure "bad meta magic")
  else
    let blockCount := unle (slice 20 28 file) in
    blocks ← metaBlocks (S (length file)) (drop HEADER_SIZE file) [];
    if negb (bool_decide (Z.of_nat (length blocks) = blockCount)) then Err (failure "meta block_count differs from the blocks yielded")
    else Ok blocks.
