(* ===== verification/Xdmp.v ===== *)
(** The dump files of the bulk seeder: the writer ([bulk_sync/xdmp_writer.js]) and the
    streaming reader ([bulk_sync/xdmp_reader.js]).  A file is its bytes; a generator is
    what it yields and how it ends. *)

From S2P Require Import Prelude KeyCodec ValueCodec LevelDb Store Json Parsing Wire AuxPow ChainParams Decoder Connector RecordFiles SeedStreams.

#[local] Open Scope string_scope.
#[local] Open Scope nat_scope.
#[local] Open Scope list_scope.

Definition MAGIC_DUMP : bytes := from_latin1 "XCHNDMP1".
Definition DUMP_VERSION : Z := 1.
Definition MAX_BLOCK_SIZE : Z := 33554432.
Definition RECORD_PREFIX : nat := 40.

(** * Writing *)

(** A missing code is [undefined], which [writeUInt8] refuses. *)
Definition field_u8 (n : option Z) : res bytes :=
  match n with
  | Some n => field_if (bool_decide (0 <= n < 256)%Z) [byte_of_Z n]
  | None => Err type_error
  end.

(** [None]: no number, which [writeUInt32LE] refuses. *)
Definition field_u32LE_of (n : option Z) : res bytes := match n with Some n => field_u32LE n | None => Err type_error end.

Definition makeHeader (chain netName : string) (firstHeight lastHeight : Z) (chainTipAtDump : option Z) : res bytes :=
  c ← field_u8 (CHAIN_CODES chain);
  n ← field_u8 (NETWORK_CODES netName);
  first ← field_u32LE firstHeight;
  last ← field_u32LE lastHeight;
  count ← field_u32LE (lastHeight - firstHeight + 1);
  tip ← field_u32LE_of chainTipAtDump;
  Ok (MAGIC_DUMP ++ c ++ n ++ le 2 DUMP_VERSION ++ first ++ last ++ count ++ tip ++ zeros 36).

(** [s.padStart(n, '0')]. *)
Definition padStart0 (n : nat) (s : string) : string :=
  Nat.iter (n - String.length s) (String.String "0"%char) s.

Definition chunkFileName (chain netName : string) (start stop : Z) : string :=
  let s := padStart0 8 (to_radix 10 start) in
  let e := padStart0 8 (to_radix 10 stop) in
  foldr String.append "" ["blocks-"; chain; "-"; netName; "-"; s; "-"; e; ".xdmp"].

(** [fs.writeSync(fd, bytes)] at the end of the open file. *)
Definition append_file (b : bytes) : M bytes unit := modify (fun file => file ++ b).

Definition writeDumpHeader (chain netName : string) (chunkStart chunkEnd : Z) (chainTipAtDump : option Z) : M bytes unit :=
  header ← lift_res (makeHeader chain netName chunkStart chunkEnd chainTipAtDump);
  append_file header.

(** [Buffer.from(v, 'hex')], of strings only. *)
Definition from_hex (v : json) : res bytes := match v with JStr s => Ok (h2b s) | _ => Err type_error end.

Definition writeBlockRecord (b : node_block) : M bytes unit :=
  blockBytes ← lift_res (from_hex (nb_hex b));
  if bool_decide (blockBytes = []) || bool_decide (MAX_BLOCK_SIZE < len blockBytes)%Z
  then throw (failure "block has invalid size")
  else
    hashBytes ← lift_res (from_hex (nb_hash b));
    if negb (bool_decide (length hashBytes = 32)) then throw (failure "block has invalid hash length")
    else
      size ← lift_res (field_u32LE (len blockBytes));
      height ← lift_res (field_u32LE (nb_height b));
      _ ← append_file (size ++ height ++ hashBytes);
      append_file blockBytes.

Definition writeBlockRecords (blocks : list node_block) : M bytes unit := forM blocks writeBlockRecord.

(** * Reading *)

Definition CHAIN_NAMES (code : Z) : option string :=
  if bool_decide (code = 1%Z) then Some "bitcoin"
  else if bool_decide (code = 2%Z) then Some "litecoin"
  else if bool_decide (code = 3%Z) then Some "dogecoin"
  else None.

Definition NETWORK_NAMES (code : Z) : option string :=
  if bool_decide (code = 1%Z) then Some "mainnet"
  else if bool_decide (code = 2%Z) then Some "testnet"
  else if bool_decide (code = 3%Z) then Some "regtest"
  else None.

Record xdmp := mkXdmp {
  x_chain : string; x_network : string; x_firstHeight : Z; x_lastHeight : Z; x_blockCount : Z; x_chainTip : Z;
  x_data : bytes }.

(** [new XdmpReader(file)]: the header, and the data after it. *)
Definition openXdmp (file : bytes) : res xdmp :=
  let hdr := take HEADER_SIZE file in
  if negb (bool_decide (length hdr = HEADER_SIZE)) then Err (failure "short header read")
  else if negb (bool_decide (take 8 hdr = MAGIC_DUMP)) then Err (failure "bad magic")
  else
    match CHAIN_NAMES (unle (slice 8 9 hdr)), NETWORK_NAMES (unle (slice 9 10 hdr)) with
    | None, _ => Err (failure "unknown chain_code")
    | _, None => Err (failure "unknown net_code")
    | Some chain, Some network =>
        if negb (bool_decide (unle (slice 10 12 hdr) = DUMP_VERSION)) then Err (failure "unsupported version")
        else
          let firstHeight := unle (slice 12 16 hdr) in
          let lastHeight := unle (slice 16 20 hdr) in
          let blockCount := unle (slice 20 24 hdr) in
          if negb (bool_decide (blockCount = lastHeight - firstHeight + 1)%Z) then Err (failure "block_count mismatch")
          else Ok (mkXdmp chain network firstHeight lastHeight blockCount (unle (slice 24 28 hdr)) (drop HEADER_SIZE file))
    end.

(** A generator: what it yields, and how it ends. *)
Definition yields (A : Type) : Type := (list A * res unit)%type.

Fixpoint read_blocks (n : nat) (prevHeight : Z) (rest : bytes) : yields dumped :=
  match n with
  | O => ([], Ok tt)
  | S n =>
      if bool_decide (length rest < RECORD_PREFIX) then ([], Err (failure "short prefix read"))
      else
        let blockSize := unle (slice 0 4 rest) in
        let height := unle (slice 4 8 rest) in
        if bool_decide (blockSize = 0%Z) || bool_decide (MAX_BLOCK_SIZE < blockSize)%Z
        then ([], Err (failure "invalid block_size"))
        else if negb (bool_decide (height = prevHeight + 1)%Z) then ([], Err (failure "height gap"))
        else
          let blockHash := slice 8 40 rest in
          let rest := drop RECORD_PREFIX rest in
          if bool_decide (len rest < blockSize)%Z then ([], Err (failure "short data read"))
          else
            let '(l, e) := read_blocks n height (drop (Z.to_nat blockSize) rest) in
            (mkDumped height blockHash (take (Z.to_nat blockSize) rest) :: l, e)
  end.

(** [reader.blocks()]. *)
Definition xdmp_blocks (x : xdmp) : yields dumped :=
  read_blocks (Z.to_nat (x_blockCount x)) (x_firstHeight x - 1) (x_data x).
