(* ===== verification/Dump.v ===== *)
(** The dump of the bulk seeder ([bulk_sync/dump.js]): command line, the end of the dump
    against the undo window, blocks fetched in batches with the AuxPoW recovery, chunk
    files written under a temporary name, and reuse of the chunks of an earlier run. *)

From S2P Require Import Prelude KeyCodec ValueCodec LevelDb Store Json Parsing Wire AuxPow ChainParams Decoder Connector.
From S2P Require Import RecordFiles SeedStreams Xdmp.

#[local] Open Scope string_scope.
#[local] Open Scope nat_scope.
#[local] Open Scope list_scope.

Definition DEFAULT_CHUNK_SIZE : Z := 10000.
Definition DEFAULT_TIP_SAFETY : Z := 10.
Definition RPC_BATCH_SIZE : Z := 25.

(** * Command line

    A number is [None] for [NaN]; an argument that was not given is [None]. *)

Record dump_args := mkDumpArgs {
  da_network : option string; da_from : option (option Z); da_to : option (option Z);
  da_chunkSize : option Z; da_tipSafety : option Z; da_tipSafetyExplicit : bool;
  da_allowUndoWindow : bool; da_out : option string }.

Definition default_dump_args : dump_args :=
  mkDumpArgs None None None (Some DEFAULT_CHUNK_SIZE) (Some DEFAULT_TIP_SAFETY) false false None.


(** [--help] ends the process. *)
Fixpoint parseDumpArgs (argv : list string) (args : dump_args) : res dump_args :=
  let '(mkDumpArgs network from to chunk safety explicit allow out) := args in
  match argv with
  | [] => Ok args
  | "--allow-undo-window" :: argv => parseDumpArgs argv (mkDumpArgs network from to chunk safety explicit true out)
  | [arg] =>
      if bool_decide (arg = "--network") then Ok (mkDumpArgs None from to chunk safety explicit allow out)
      else if bool_decide (arg = "--from") then Ok (mkDumpArgs network (Some None) to chunk safety explicit allow out)
      else if bool_decide (arg = "--to") then Ok (mkDumpArgs network from (Some None) chunk safety explicit allow out)
      else if bool_decide (arg = "--chunk-size") then Ok (mkDumpArgs network from to None safety explicit allow out)
      else if bool_decide (arg = "--tip-safety") then Ok (mkDumpArgs network from to chunk None true allow out)
      else if bool_decide (arg = "--out") then Ok (mkDumpArgs network from to chunk safety explicit allow None)
      else Err (failure "Unknown argument")
  | arg :: v :: argv =>
      if bool_decide (arg = "--network") then parseDumpArgs argv (mkDumpArgs (Some v) from to chunk safety explicit allow out)
      else if bool_decide (arg = "--from") then parseDumpArgs argv (mkDumpArgs network (Some (parseInt v 10)) to chunk safety explicit allow out)
      else if bool_decide (arg = "--to") then parseDumpArgs argv (mkDumpArgs network from (Some (parseInt v 10)) chunk safety explicit allow out)
      else if bool_decide (arg = "--chunk-size") then parseDumpArgs argv (mkDumpArgs network from to (parseInt v 10) safety explicit allow out)
      else if bool_decide (arg = "--tip-safety") then parseDumpArgs argv (mkDumpArgs network from to chunk (parseInt v 10) true allow out)
      else if bool_decide (arg = "--out") then parseDumpArgs argv (mkDumpArgs network from to chunk safety explicit allow (Some v))
      else Err (failure "Unknown argument")
  end.

(** Validated arguments. *)
Record dump_job := mkJob {
  dj_network : string; dj_chain : string; dj_netName : string; dj_from : Z; dj_to : option Z;
  dj_chunkSize : Z; dj_tipSafety : Z; dj_allowUndoWindow : bool }.

(** [s.split('-')]. *)
Fixpoint split_dashes (s : string) : list string :=
  match s with
  | String.EmptyString => [""]
  | String.String a r =>
      if bool_decide (a = "-"%char) then "" :: split_dashes r
      else match split_dashes r with [] => [String.String a ""] | w :: ws => String.String a w :: ws end
  end.

(** Own names of the tables only. *)
Definition validateArgs (args : dump_args) : res dump_job :=
  match da_network args, da_out args with
  | (None | Some ""), _ => Err (failure "--network is required")
  | _, (None | Some "") => Err (failure "--out is required")
  | Some network, Some _ =>
      match default (Some 0%Z) (da_from args) with
      | None => Err (failure "--from must be a non-negative integer")
      | Some from =>
          if bool_decide (from < 0)%Z then Err (failure "--from must be a non-negative integer")
          else if bool_decide (is_Some (da_to args)) && da_tipSafetyExplicit args
          then Err (failure "--to and --tip-safety are mutually exclusive")
          else if match da_to args with
                  | Some (Some to) => bool_decide (to < from)%Z | Some None => true | None => false
                  end
          then Err (failure "--to must be a finite integer >= --from")
          else match da_chunkSize args, da_tipSafety args with
          | None, _ => Err (failure "--chunk-size must be a positive integer")
          | Some chunkSize, tipSafety =>
              if bool_decide (chunkSize <= 0)%Z then Err (failure "--chunk-size must be a positive integer")
              else match tipSafety with
              | None => Err (failure "--tip-safety must be a non-negative integer")
              | Some tipSafety =>
                  if bool_decide (tipSafety < 0)%Z then Err (failure "--tip-safety must be a non-negative integer")
                  else match split_dashes network with
                  | [chain; netName] =>
                      if bool_decide (CHAIN_CODES chain = None) then Err (failure "Unknown chain")
                      else if bool_decide (NETWORK_CODES netName = None) then Err (failure "Unknown network")
                      else Ok (mkJob network chain netName from (da_to args ≫= id) chunkSize tipSafety (da_allowUndoWindow args))
                  | _ => Err (failure "--network must be <chain>-<network>, e.g. bitcoin-regtest")
                  end
              end
          end
      end
  end.

(** The connector and the output directory. *)
Record dumper := mkDumper { dp_node : connector; dp_out : gmap string bytes }.

Abbreviation DM := (M dumper).

(** * The end of the dump *)

Section dump.
Context {envs : Environment} {servers : RpcServers} {lib : Bitcoinjs} {node : Node}.

(** [None]: the tip is no number, which no comparison holds of. *)
Definition assertExplicitToOutsideUndoWindow (dumpEnd : Z) (chainTipAtDump : option Z) (network : string) (allowUndoWindow : bool)
    : res unit :=
  '(undoBlocks, _) ← resolveUndoBlocks network None;
  if match chainTipAtDump with Some tip => bool_decide (dumpEnd <= tip - undoBlocks)%Z | None => false end then Ok tt
  else if negb allowUndoWindow then Err (failure "--to lands inside the live undo window")
  else Ok tt.

(** [None]: [NaN]. *)
Definition resolveDumpEnd (job : dump_job) (chainTipAtDump : option Z) : res (option Z) :=
  match dj_to job with
  | Some dumpEnd =>
      if match chainTipAtDump with Some tip => bool_decide (tip < dumpEnd)%Z | None => false end
      then Err (failure "--to is beyond current tip")
      else
        _ ← assertExplicitToOutsideUndoWindow dumpEnd chainTipAtDump (dj_network job) (dj_allowUndoWindow job);
        Ok (Some dumpEnd)
  | None =>
      match chainTipAtDump with
      | None => Ok None
      | Some tip =>
          let dumpEnd := (tip - dj_tipSafety job)%Z in
          if bool_decide (dumpEnd < dj_from job)%Z then Err (failure "computed dump end is before --from") else Ok (Some dumpEnd)
      end
  end.

(** * Fetching *)

Definition batchHeights (cursor batchEnd : Z) : list Z :=
  (fun i => cursor + Z.of_nat i)%Z <$> seq 0 (Z.to_nat (batchEnd - cursor + 1)).

Definition assertHeaderMatchesHash (hash : json) (hex : string) : res unit :=
  let header := h2b (substring 0 160 hex) in
  let actual := b2h (rev (sha256 (sha256 header))) in
  if negb (bool_decide (length header = 80))
     || negb (match hash with JStr s => bool_decide (actual = toLowerCase s) | _ => false end)
  then Err (failure "reassembled block header hashes to another hash")
  else Ok tt.

Definition fetchAuxPowBlockForDump (height : Z) : CM node_block :=
  hash ← getBlockHash height;
  try_catch (hex ← getBlockWithoutAuxPow hash; mret (mkNodeBlock height hash hex))
    (fun e =>
      if negb (e_auxPowParseFailure e) then throw e
      else
        hex ← getBlockReassembled hash;
        _ ← lift_res (assertHeaderMatchesHash hash hex);
        mret (mkNodeBlock height hash (JStr hex))).

Definition fetchDumpBatch (heights : list Z) (auxPow : bool) : CM (list node_block) :=
  if negb auxPow then getBlocksBatch heights
  else
    try_catch (getBlocksBatchWithoutAuxPow heights)
      (fun e => if negb (e_auxPowParseFailure e) then throw e else mapM_list heights fetchAuxPowBlockForDump).

(** * Chunks *)

Definition on_node {A} (m : CM A) : DM A := fun d => let '(r, c) := m (dp_node d) in (r, mkDumper c (dp_out d)).
Definition on_out (f : gmap string bytes -> gmap string bytes) : DM unit := modify (fun d => mkDumper (dp_node d) (f (dp_out d))).

(** Writes to an open file; what was written stays on a throw. *)
Definition on_file {A} (name : string) (m : M bytes A) : DM A := fun d =>
  let '(r, file) := m (default [] (dp_out d !! name)) in (r, mkDumper (dp_node d) (<[name:=file]> (dp_out d))).

(** A file that covers the range and whose last block is the node's; a file or a node
    that cannot be read is no match. *)
Definition existingChunkMatchesChain (file : bytes) (chunkStart chunkEnd : Z) : CM bool :=
  try_catch (
    reader ← lift_res (openXdmp file);
    if negb (bool_decide (x_firstHeight reader = chunkStart)) || negb (bool_decide (x_lastHeight reader = chunkEnd)) then mret false
    else
      let '(blocks, ended) := xdmp_blocks reader in
      _ ← lift_res ended;
      match last blocks with
      | None => mret false
      | Some b =>
          nodeHash ← getBlockHash chunkEnd;
          mret (match nodeHash with JStr s => bool_decide (b2h (d_hash b) = s) | _ => false end)
      end)
  (fun _ => mret false).

Definition is_auxpow (chain : string) : bool := bool_decide ((FULL_NAME_TO_TICK chain ≫= WIRE_FORMAT) = Some "auxpow").

(** One round per batch. *)
Fixpoint dump_batches (fuel : nat) (auxPow : bool) (tmpPath : string) (cursor chunkEnd : Z) : DM unit :=
  match fuel with
  | O => mret tt
  | S f =>
      if bool_decide (chunkEnd < cursor)%Z then mret tt
      else
        let batchEnd := Z.min (cursor + RPC_BATCH_SIZE - 1) chunkEnd in
        blocks ← on_node (fetchDumpBatch (batchHeights cursor batchEnd) auxPow);
        _ ← on_file tmpPath (writeBlockRecords blocks);
        dump_batches f auxPow tmpPath (batchEnd + 1) chunkEnd
  end.

(** [true]: the chunk was there already. *)
Definition reuseChunk (finalPath : string) (chunkStart chunkEnd : Z) : DM bool :=
  d ← (get : DM dumper);
  match dp_out d !! finalPath with
  | None => mret false
  | Some file =>
      same ← on_node (existingChunkMatchesChain file chunkStart chunkEnd);
      if (same : bool) then mret true else _ ← on_out (delete finalPath); mret false
  end.

Definition dumpChunk (job : dump_job) (chunkStart chunkEnd : Z) (chainTipAtDump : option Z) : DM unit :=
  let finalPath := chunkFileName (dj_chain job) (dj_netName job) chunkStart chunkEnd in
  let tmpPath := String.append finalPath ".tmp" in
  reused ← reuseChunk finalPath chunkStart chunkEnd;
  if (reused : bool) then mret tt
  else
    _ ← on_out (insert tmpPath []);
    _ ← on_file tmpPath (writeDumpHeader (dj_chain job) (dj_netName job) chunkStart chunkEnd chainTipAtDump);
    _ ← dump_batches (Z.to_nat (chunkEnd - chunkStart + 1)) (is_auxpow (dj_chain job)) tmpPath chunkStart chunkEnd;
    d ← (get : DM dumper);
    on_out (fun m => <[finalPath := default [] (dp_out d !! tmpPath)]> (delete tmpPath m)).

(** * The run *)

Fixpoint dump_chunks (fuel : nat) (job : dump_job) (chunkStart dumpEnd : Z) (tip : option Z) : DM unit :=
  match fuel with
  | O => mret tt
  | S f =>
      if bool_decide (dumpEnd < chunkStart)%Z then mret tt
      else
        let chunkEnd := Z.min (chunkStart + dj_chunkSize job - 1) dumpEnd in
        _ ← dumpChunk job chunkStart chunkEnd tip;
        dump_chunks f job (chunkEnd + 1) dumpEnd tip
  end.

(** A variable that is set and not empty. *)
Definition set_env (name : string) : res string :=
  match process_env name with
  | Some v => if bool_decide (v = "") then Err (failure "NODE_URL, NODE_PORT, NODE_USER, NODE_PASSWORD must be set in env") else Ok v
  | None => Err (failure "NODE_URL, NODE_PORT, NODE_USER, NODE_PASSWORD must be set in env")
  end.

Definition blocks_of_info (info : json) : option Z := as_int (member_of (Some info) "blocks").

(** The probe of an AuxPoW chain's node; it only warns. *)
Definition probeDumpTxIndex (chain : string) : CM (option bool) :=
  if is_auxpow chain then warnIfTxIndexMissing else mret None.

(** The requests made before are the other processes'. *)
Definition new_process (before c : connector) : connector :=
  mkConnector (endpoints c) (activeEndpointIndex c) (connectionFailures c) (failoverThreshold c)
    (startedAt c) (lastNodeOkAt c) (lastNodeFailAt c) (posts before).

(** [main] over the arguments after the script's name; the process has a connector of its
    own. *)
Definition dump_main (argv : list string) : DM unit :=
  args ← lift_res (parseDumpArgs argv default_dump_args);
  job ← lift_res (validateArgs args);
  nodeUrl ← lift_res (set_env "NODE_URL");
  nodePort ← lift_res (set_env "NODE_PORT");
  _ ← lift_res (set_env "NODE_USER");
  _ ← lift_res (set_env "NODE_PASSWORD");
  d ← (get : DM dumper);
  connector ← lift_res (newConnector nodeUrl nodePort (rpc_now (posts (dp_node d))));
  _ ← modify (fun d => mkDumper (new_process (dp_node d) connector) (dp_out d));
  info ← on_node getBlockchainInfo;
  let tip := blocks_of_info info in
  _ ← on_node (probeDumpTxIndex (dj_chain job));
  dumpEnd ← lift_res (resolveDumpEnd job tip);
  _ ← match dumpEnd with
      | Some dumpEnd => dump_chunks (Z.to_nat (dumpEnd - dj_from job + 1)) job (dj_from job) dumpEnd tip
      | None => mret tt
      end;
  _ ← on_node getBlockchainInfo;
  mret tt.
End dump.
