(* ===== verification/ValidateChain.v ===== *)
(** The offline check of a dump ([bulk_sync/validate_chain.js]): every stored hash is the
    hash of its header, every header links to the block before it, across all files, and,
    when asked, every merkle root is that of the transactions. *)

From S2P Require Import Prelude KeyCodec ValueCodec LevelDb Store Json Parsing Wire AuxPow ChainParams Decoder Connector.
From S2P Require Import RecordFiles Heap ExternalSort SeedStreams Xdmp.

#[local] Open Scope string_scope.
#[local] Open Scope nat_scope.
#[local] Open Scope list_scope.

Definition HEADER_BYTES : nat := 80.
Definition PREV_OFF : nat := 4.
Definition MERKLE_OFF : nat := 36.
Definition ZERO32 : bytes := zeros 32.

Section validate.
Context {node : Node} {hash : TxHash} {lib : Bitcoinjs}.

Definition hash256 (buf : bytes) : bytes := sha256 (sha256 buf).

(** [reverse32] of [validate_chain.js]: the 32 bytes back to front. *)
Definition reverse32 (src : bytes) : bytes := reverseBytes32 src.

(** * Merkle roots *)

(** One level: the pairs' hashes, an odd last element with itself, and whether two
    neighbours of a pair were equal. *)
Fixpoint merkle_level (level : list bytes) : list bytes * bool :=
  match level with
  | [] => ([], false)
  | [x] => ([hash256 (x ++ x)], false)
  | x :: y :: rest =>
      let '(next, mutated) := merkle_level rest in
      (hash256 (x ++ y) :: next, bool_decide (x = y) || mutated)
  end.

(** A level is shorter than the one below it. *)
Fixpoint merkle_levels (fuel : nat) (level : list bytes) (mutated : bool) : option bytes * bool :=
  match fuel with
  | O => (head level, mutated)
  | S f =>
      if bool_decide (1 < length level) then
        let '(next, m) := merkle_level level in merkle_levels f next (mutated || m)
      else (head level, mutated)
  end.

Definition computeMerkleRoot (txHashes : list bytes) : option bytes * bool := merkle_levels (length txHashes) txHashes false.

(** [true]: no error. *)
Definition verifyMerkleRoot (blockBytes : bytes) (wireFormat : string) : bool :=
  match blockFromBuffer wireFormat blockBytes with
  | Err _ => false
  | Ok block =>
      let txids := getHash <$> bl_transactions block in
      if bool_decide (txids = []) then false
      else
        let '(root, mutated) := computeMerkleRoot txids in
        negb mutated && bool_decide (root = Some (slice MERKLE_OFF (MERKLE_OFF + 32) blockBytes))
  end.

(** * Links *)

(** [prev]: the height and hash of the block before, if there is one in the dump. *)
Definition verifyBackwardLink (height : Z) (headerPrev : bytes) (prev : option (Z * bytes)) : bool :=
  match prev with
  | None => negb (bool_decide (height = 0%Z) && negb (bool_decide (headerPrev = ZERO32)))
  | Some (prevHeight, prevHash) => bool_decide (height = prevHeight + 1)%Z && bool_decide (headerPrev = prevHash)
  end.

Record verdict := mkVerdict { vd_ok : bool; vd_blocksChecked : Z; vd_firstHeight : option Z; vd_lastHeight : option Z }.

(** [wireFormat]: the decoder of a merkle check. *)
Definition block_checks (wireFormat : option string) (d : dumped) (prev : option (Z * bytes)) : bool :=
  let header := take HEADER_BYTES (d_bytes d) in
  bool_decide (HEADER_BYTES <= length (d_bytes d))
  && bool_decide (length (d_hash d) = 32)
  && bool_decide (reverse32 (hash256 header) = d_hash d)
  && match wireFormat with Some wf => verifyMerkleRoot (d_bytes d) wf | None => true end
  && verifyBackwardLink (d_height d) (reverse32 (slice PREV_OFF (PREV_OFF + 32) header)) prev.

Fixpoint verify_blocks (wireFormat : option string) (blocks : list dumped) (ended : res unit)
    (checked : Z) (first : option Z) (prev : option (Z * bytes)) : res verdict :=
  match blocks with
  | [] => _ ← ended; Ok (mkVerdict true checked first (fst <$> prev))
  | d :: blocks =>
      if negb (block_checks wireFormat d prev) then Ok (mkVerdict false checked first (fst <$> prev))
      else
        verify_blocks wireFormat blocks ended (checked + 1)
          (match prev with None => Some (d_height d) | Some _ => first end) (Some (d_height d, d_hash d))
  end.

Definition verifyBlockSequence (blocks : yields dumped) (merkle : bool) (coin : string) : res verdict :=
  wireFormat ← (if merkle then wf ← newDecoder (String.append coin "-any"); Ok (Some wf) else Ok None);
  verify_blocks wireFormat blocks.1 blocks.2 0 None None.

(** * Files *)

(** One generator after the other, up to the first that throws. *)
Definition yields_app {A} (g1 g2 : yields A) : yields A :=
  match g1.2 with Ok _ => (g1.1 ++ g2.1, g2.2) | Err e => (g1.1, Err e) end.

Definition allBlocks (readers : list xdmp) : yields dumped := foldr (fun x => yields_app (xdmp_blocks x)) ([], Ok tt) readers.

(** Each range starts after the one before it. *)
Fixpoint contiguous (readers : list xdmp) : bool :=
  match readers with
  | x :: (y :: _) as rest => bool_decide (x_firstHeight y = x_lastHeight x + 1)%Z && contiguous rest
  | _ => true
  end.

Definition broken (first : option Z) : verdict := mkVerdict false 0 first None.

(** Files in the order of their first heights; a reader that throws on the way is a failed
    check, one that does not open is not caught. *)
Definition validateChainFiles (files : list bytes) (merkle : bool) : res verdict :=
  if bool_decide (files = []) then Ok (broken None)
  else
    readers ← map_res openXdmp files;
    let ranges := stable_sort (fun x => be 4 (x_firstHeight x)) readers in
    if negb (contiguous ranges) then Ok (broken (x_firstHeight <$> head ranges))
    else
      match verifyBlockSequence (allBlocks ranges) merkle (from_option x_chain "" (head ranges)) with
      | Ok v => Ok v
      | Err _ => Ok (broken None)
      end.
End validate.
