(* ===== verification/ConnectorFacts.v ===== *)
(** What the connector promises: batches are matched by id whatever order the answers come
    in, timeouts are retried, the requests of a fetch are bounded, and failures move on to
    the next endpoint. *)

From S2P Require Import Prelude KeyCodec LevelDb Store Json Parsing Wire AuxPow ChainParams Decoder Connector.

#[local] Open Scope string_scope.
#[local] Open Scope nat_scope.
#[local] Open Scope list_scope.

(** * Placing by id *)

(** The [i]-th item has id [i]. *)
Definition numbered (l : list json) : Prop := forall i x, l !! i = Some x -> item_id x = Some (Z.of_nat i).

Lemma place_spec items : forall byId r, place_by_id items byId = Ok r ->
  (forall x, x ∈ items -> exists i, item_id x = Some (Z.of_nat i) /\ byId !! i = Some None /\ r !! i = Some (Some x))
  /\ NoDup (item_id <$> items)
  /\ length r = length byId
  /\ (forall i, (forall x, x ∈ items -> item_id x <> Some (Z.of_nat i)) -> r !! i = byId !! i).
Proof.
  induction items as [|x items IH]; intros byId r; cbn [place_by_id].
  { intros [= ->]. split_and!; [by intros x ?%elem_of_nil|constructor|done|done]. }
  destruct (item_id x) as [id|] eqn:Eid; [|done]. case_bool_decide as Hid; [|done].
  destruct (byId !! Z.to_nat id) as [o|] eqn:Eo; [|apply lookup_ge_None in Eo; lia]. destruct o; [done|]. intros E.
  destruct (IH _ _ E) as (H1 & H2 & H3 & H4). rewrite length_insert in H3.
  assert (Hne : forall y, y ∈ items -> item_id y <> Some id).
  { intros y Hy Ey. destruct (H1 y Hy) as (i & Ei & Hi & _). rewrite Ey in Ei. injection Ei as ->. rewrite Nat2Z.id in *.
    rewrite list_lookup_insert_eq in Hi by (by eapply lookup_lt_Some). done. }
  split_and!.
  - intros y [->|Hy]%elem_of_cons.
    + exists (Z.to_nat id). rewrite Z2Nat.id by lia. split_and!; [done|done|]. rewrite H4.
      * apply list_lookup_insert_eq. by eapply lookup_lt_Some.
      * intros y Hy. rewrite Z2Nat.id by lia. by apply Hne.
    + destruct (H1 y Hy) as (i & Ei & Hi & Hr). exists i. split_and!; [done| |done].
      rewrite list_lookup_insert_ne in Hi; [done|]. intros <-. apply (Hne y Hy). rewrite Ei, Z2Nat.id by lia. done.
  - rewrite fmap_cons. constructor; [|done]. rewrite Eid. intros (y & Ey & Hy)%list_elem_of_fmap. by destruct (Hne y Hy).
  - done.
  - intros i Hi. rewrite H4 by (intros y Hy; apply Hi; by right). apply list_lookup_insert_ne. intros <-.
    apply (Hi x ltac:(left)). rewrite Eid, Z2Nat.id by lia. done.
Qed.

Lemma place_total items : forall byId,
  (forall x, x ∈ items -> exists i, item_id x = Some (Z.of_nat i) /\ byId !! i = Some None) ->
  NoDup (item_id <$> items) -> exists r, place_by_id items byId = Ok r.
Proof.
  induction items as [|x items IH]; intros byId Hx Hn; [by eexists|]. cbn [place_by_id].
  destruct (Hx x ltac:(left)) as (i & Ei & Hi). rewrite fmap_cons in Hn. apply NoDup_cons in Hn as [Hn Hn'].
  rewrite Ei, Nat2Z.id, Hi. pose proof (lookup_lt_Some _ _ _ Hi). rewrite bool_decide_eq_true_2 by lia.
  apply IH; [|done]. intros y Hy. destruct (Hx y ltac:(by right)) as (j & Ej & Hj). exists j. split; [done|].
  rewrite list_lookup_insert_ne; [done|]. intros ->. apply Hn. rewrite Ei, <- Ej. by apply list_elem_of_fmap_2.
Qed.

Lemma numbered_ids l : numbered l -> item_id <$> l = (fun i => Some (Z.of_nat i)) <$> seq 0 (length l).
Proof.
  intros Hl. apply list_eq. intros i. rewrite !list_lookup_fmap. destruct (l !! i) as [x|] eqn:E.
  - pose proof (lookup_lt_Some _ _ _ E). rewrite lookup_seq_lt by done. cbn. f_equal. by apply Hl.
  - apply lookup_ge_None in E. by rewrite lookup_seq_ge by done.
Qed.

Lemma numbered_nodup l : numbered l -> NoDup (item_id <$> l).
Proof.
  intros Hl. rewrite numbered_ids by done. apply NoDup_fmap_2; [|apply NoDup_seq]. intros i j E. injection E. lia.
Qed.

(** A list of the items that were placed. *)
Lemma order_spec data n r : orderBatchResults data n = Ok r <->
  exists items l, data = JArr items /\ items ≡ₚ l /\ length l = n /\ numbered l /\ r = Some <$> l.
Proof.
  split.
  - destruct data as [| | | |items|]; try done. cbn [orderBatchResults]. case_bool_decide as Hlen; [|done]. intros E.
    destruct (place_spec _ _ _ E) as (H1 & H2 & H3 & H4). rewrite length_replicate in H3.
    assert (Hz : forall x, x ∈ items -> Some (Z.of_nat (Z.to_nat (default 0%Z (item_id x)))) = item_id x).
    { intros x Hx. destruct (H1 x Hx) as (j & -> & _). cbn [from_option id]. by rewrite Nat2Z.id. }
    assert (Ejs0 : (fun i => Some (Z.of_nat i)) <$> ((fun x => Z.to_nat (default 0%Z (item_id x))) <$> items) = item_id <$> items).
    { rewrite <- list_fmap_compose. apply list_fmap_ext. intros i x Hx. apply Hz. by eapply list_elem_of_lookup_2. }
    assert (Hperm : exists js, item_id <$> items = (fun i => Some (Z.of_nat i)) <$> js /\ js ≡ₚ seq 0 n).
    { exists ((fun x => Z.to_nat (default 0%Z (item_id x))) <$> items). split; [done|].
      apply submseteq_length_Permutation; [|rewrite length_seq, length_fmap; lia]. apply NoDup_submseteq.
        + apply (NoDup_fmap_1 (fun i => Some (Z.of_nat i))). by rewrite Ejs0.
        + intros j (x & -> & Hx)%list_elem_of_fmap. destruct (H1 x Hx) as (i & -> & _ & Hj). cbn [from_option id]. rewrite Nat2Z.id.
          apply elem_of_seq. apply lookup_lt_Some in Hj. lia. }
    destruct Hperm as (js & Ejs & Hjs).
    assert (Hall : forall i, i < n -> exists x, x ∈ items /\ item_id x = Some (Z.of_nat i) /\ r !! i = Some (Some x)).
    { intros i Hi. assert (Hin : i ∈ js) by (rewrite Hjs; apply elem_of_seq; lia).
      apply (list_elem_of_fmap_2 (fun i => Some (Z.of_nat i))) in Hin. rewrite <- Ejs in Hin. apply list_elem_of_fmap in Hin as (x & Ex & Hx).
      destruct (H1 x Hx) as (j & Ej & _ & Hr). rewrite <- Ex in Ej. injection Ej as Ej. apply Nat2Z.inj in Ej as ->. eauto. }
    set (l := default JNull <$> r).
    assert (Hl : r = Some <$> l).
    { apply list_eq. intros i. unfold l. rewrite !list_lookup_fmap. destruct (r !! i) as [o|] eqn:Er; [|done].
      destruct (Hall i) as (x & _ & _ & Ex); [apply lookup_lt_Some in Er; lia|]. rewrite Er in Ex. by injection Ex as ->. }
    assert (Hnum : numbered l).
    { intros i x Hx. assert (Er : r !! i = Some (Some x)) by (rewrite Hl, list_lookup_fmap, Hx; done).
      destruct (Hall i) as (y & _ & Ey & Eyr); [apply lookup_lt_Some in Er; lia|]. rewrite Er in Eyr. by injection Eyr as ->. }
    exists items, l. split_and!; [done| |unfold l; rewrite length_fmap; lia|done|done].
    apply NoDup_Permutation; [by apply (NoDup_fmap_1 item_id)|by apply (NoDup_fmap_1 item_id), numbered_nodup|]. intros x. split.
    + intros Hx. destruct (H1 x Hx) as (i & _ & _ & Hr). rewrite Hl, list_lookup_fmap in Hr. destruct (l !! i) as [y|] eqn:Ey; [|done].
      injection Hr as ->. by eapply list_elem_of_lookup_2.
    + intros (i & Hi)%list_elem_of_lookup. assert (Er : r !! i = Some (Some x)) by (rewrite Hl, list_lookup_fmap, Hi; done).
      destruct (Hall i) as (y & Hy & _ & Eyr); [apply lookup_lt_Some in Er; lia|]. rewrite Er in Eyr. by injection Eyr as ->.
  - intros (items & l & -> & Hp & Hlen & Hnum & ->). cbn [orderBatchResults]. rewrite bool_decide_eq_true_2 by (rewrite Hp; done).
    assert (Hids : forall x, x ∈ items -> exists i, l !! i = Some x /\ item_id x = Some (Z.of_nat i)).
    { intros x Hx. rewrite Hp in Hx. apply list_elem_of_lookup in Hx as (i & Hi). eauto. }
    destruct (place_total items (replicate n None)) as (r & E).
    { intros x Hx. destruct (Hids x Hx) as (i & Hi & Ei). exists i. split; [done|]. apply lookup_replicate_2. apply lookup_lt_Some in Hi. lia. }
    { rewrite Hp. by apply numbered_nodup. }
    rewrite E. f_equal. destruct (place_spec _ _ _ E) as (H1 & _ & H3 & _). rewrite length_replicate in H3. apply list_eq. intros i.
    rewrite list_lookup_fmap. destruct (l !! i) as [x|] eqn:Ex; cbn.
    + destruct (H1 x) as (j & Ej & _ & Hr); [rewrite Hp; by eapply list_elem_of_lookup_2|]. rewrite (Hnum i x Ex) in Ej. injection Ej as Ej. by apply Nat2Z.inj in Ej as ->.
    + apply lookup_ge_None in Ex. apply lookup_ge_None. lia.
Qed.

Section calls.
Context {servers : RpcServers}.

(** * Requests made

    [m] makes at most [k] requests, and what it returns satisfies [P]. *)
Definition asks {A} (k : nat) (m : CM A) (P : A -> Prop) : Prop :=
  forall c, posts c <= posts (m c).2 <= posts c + k /\ (forall a, (m c).1 = Ok a -> P a).

Definition any {A} (_ : A) : Prop := True.

Lemma asks_bind {A B} k1 k2 (m : CM A) (f : A -> CM B) P Q :
  asks k1 m P -> (forall a, P a -> asks k2 (f a) Q) -> asks (k1 + k2) (m ≫= f) Q.
Proof.
  intros Hm Hf c. destruct (Hm c) as [H1 H2]. unfold mbind, M_bind. destruct (m c) as [[a|e] c']; cbn [fst snd] in *; [|split; [lia|done]].
  destruct (Hf a (H2 a eq_refl) c') as [H3 H4]. split; [lia|done].
Qed.

Lemma asks_try {A} k1 k2 (m : CM A) h P : asks k1 m P -> (forall e, asks k2 (h e) P) -> asks (k1 + k2) (try_catch m h) P.
Proof.
  intros Hm Hh c. destruct (Hm c) as [H1 H2]. unfold try_catch. destruct (m c) as [[a|e] c']; cbn [fst snd] in *.
  - split; [lia|]. intros b [= <-]. by apply H2.
  - destruct (Hh e c') as [H3 H4]. split; [lia|done].
Qed.

Lemma asks_le {A} k k' (m : CM A) (P Q : A -> Prop) : asks k m P -> k <= k' -> (forall a, P a -> Q a) -> asks k' m Q.
Proof. intros Hm Hk HP c. destruct (Hm c) as [H1 H2]. split; [lia|]. intros a Ha. by apply HP, H2. Qed.

Lemma asks_lift {A} (r : res A) (P : A -> Prop) : (forall a, r = Ok a -> P a) -> asks 0 (lift_res r) P.
Proof. intros Hr c. cbn. split; [lia|]. done. Qed.

Lemma asks_ret {A} (a : A) (P : A -> Prop) : P a -> asks 0 (mret a) P.
Proof. intros Ha c. cbn. split; [lia|]. by intros b [= <-]. Qed.

Lemma asks_throw {A} e (P : A -> Prop) : asks 0 (throw e) P.
Proof. intros c. cbn. split; [lia|done]. Qed.

Lemma posts_note c : posts (noteConnectionFailure c) = posts c.
Proof. unfold noteConnectionFailure. by repeat case_bool_decide. Qed.

Lemma posts_rpcPost d c : posts (rpcPost d c).2 = S (posts c).
Proof.
  unfold rpcPost. destruct (client_post _ _ _) as [status body|code body]; [done|]. destruct body, code as [k|]; try done. cbn [snd].
  case_bool_decide; [by rewrite posts_note|done].
Qed.

(** An answer of one of the servers. *)
Definition answered_by (r : request) (data : json) : Prop := exists n u status, client_post n u r = Replied status data.

Lemma asks_post r : asks 1 (rpcPost r) (fun x => answered_by r x.2).
Proof.
  intros c. rewrite posts_rpcPost. split; [lia|]. unfold rpcPost. intros [status data]. destruct (client_post _ _ _) eqn:E; [|done].
  intros [= -> ->]. cbn. unfold answered_by. eauto.
Qed.

Lemma asks_retry {A} tries k (m : CM A) e P : asks k m P -> asks (tries * k) (retry_timeouts tries m e) P.
Proof.
  intros Hm. induction tries as [|n IH]; cbn [retry_timeouts Nat.mul]; [apply asks_throw|].
  apply asks_try; [done|]. intros e'. destruct (timed_out e'); [done|]. apply (asks_le 0 _ _ P); [apply asks_throw|lia|done].
Qed.

Lemma asks_sanitized {A} k (m : CM A) P : asks k m P -> asks k (sanitized m) P.
Proof. intros Hm. rewrite <- (Nat.add_0_r k). apply asks_try; [done|]. intros e. apply asks_throw. Qed.

Lemma asks_postWithRetry r : asks 10 (postWithRetry r) (fun x => answered_by r x.2).
Proof. apply (asks_retry 10 1), asks_post. Qed.

(** The result of an answer to the call. *)
Definition result_to (c : call) (v : json) : Prop := exists data missing, answered_by (One c) data /\ result_of data missing = Ok v.

Lemma asks_result c s k (m : CM (Z * json)) : asks k m (fun x => answered_by (One c) x.2) ->
  asks k ('(_, data) ← m; lift_res (result_of data s)) (result_to c).
Proof.
  intros Hm. rewrite <- (Nat.add_0_r k). eapply asks_bind; [done|]. intros [status data] Ha. apply asks_lift. intros v Hv. by exists data, s.
Qed.

Lemma asks_getBlockHeader h : asks 10 (getBlockHeader h) any.
Proof. eapply (asks_retry 10 1), asks_le; [apply asks_result, asks_post|done|done]. Qed.

Lemma asks_getBlock h : asks 10 (getBlock h) any.
Proof. eapply asks_le; [apply asks_result, asks_postWithRetry|done|done]. Qed.

Lemma asks_getBlockVerbose h : asks 10 (getBlockVerbose h) (result_to (mkCall "getblock" [h; JBool true] 1)).
Proof. apply asks_sanitized, asks_result, asks_postWithRetry. Qed.

Lemma asks_getRawTransaction t : asks 10 (getRawTransaction t) any.
Proof.
  unfold getRawTransaction. generalize 10. intros tries. induction tries as [|n IH]; cbn [runRawTransactionRetries]; [apply asks_throw|].
  apply (asks_try 1 n).
  - change 1 with (1 + 0). eapply asks_bind; [apply asks_post|]. intros [status data] _. by apply asks_lift.
  - intros e. case_bool_decide; [|done]. apply (asks_le 0 _ _ any); [by apply asks_ret|lia|done].
Qed.

Lemma asks_mapM {A B} k (l : list A) (f : A -> CM B) : (forall a, asks k (f a) any) -> asks (length l * k) (mapM_list l f) any.
Proof.
  intros Hf. induction l as [|x l IH]; cbn [mapM_list length Nat.mul]; [by apply asks_ret|].
  eapply asks_bind; [apply Hf|]. intros y _. rewrite <- (Nat.add_0_r (length l * k)). eapply asks_bind; [done|]. intros ys _. by apply asks_ret.
Qed.

Lemma asks_waves n l : 0 < n -> forall fuel, asks (length l * 10) (waves fuel n l) any.
Proof.
  intros Hn fuel. induction fuel as [|f IH] in l |- *; [apply (asks_le 0 _ _ any); [by apply asks_ret|lia|done]|].
  destruct l as [|x l]; [by apply asks_ret|]. cbn [waves]. set (l' := x :: l).
  apply (asks_le (length (take n l') * 10 + (length (drop n l') * 10 + 0)) _ _ any); [|rewrite length_take, length_drop; lia|done].
  eapply asks_bind; [apply asks_mapM; intros t; apply asks_getRawTransaction|]. intros w _.
  eapply asks_bind; [apply IH|]. intros r _. by apply asks_ret.
Qed.

Context {envs : Environment} {lib : Bitcoinjs}.

Lemma concurrency_pos : 0 < Z.to_nat (envInt "UTXO_TRACKER_RPC_CONCURRENCY" 50 1).
Proof.
  unfold envInt, intKnob. destruct (ir_absent _); [lia|]. destruct (ir_value _) as [v|]; [|lia]. case_bool_decide; lia.
Qed.

Lemma asks_getBlockWithoutAuxPow h : asks 20 (getBlockWithoutAuxPow h) any.
Proof.
  unfold getBlockWithoutAuxPow. change 20 with (10 + (10 + 0)).
  eapply asks_bind; [apply asks_getBlockHeader|]. intros v _. eapply asks_bind; [apply asks_getBlock|]. intros b _. by apply asks_lift.
Qed.

(** [m] bounds the transactions a node lists in a block. *)
Lemma asks_getBlockReassembled m h :
  (forall v l, result_to (mkCall "getblock" [h; JBool true] 1) v -> tx_list v = Ok l -> length l <= m) ->
  asks (20 + m * 10) (getBlockReassembled h) any.
Proof.
  intros Hm. unfold getBlockReassembled. rewrite <- (Nat.add_0_r (20 + m * 10)). apply asks_try; [|intros e; apply asks_throw].
  apply (asks_le (10 + (0 + (10 + (0 + (m * 10 + (0 + (0 + 0))))))) _ _ any); [|lia|done].
  eapply asks_bind; [apply asks_getBlockHeader|]. intros v _.
  eapply (asks_bind _ _ _ _ any); [by apply asks_lift|]. intros hd _.
  eapply asks_bind; [apply asks_getBlockVerbose|]. intros verbose Hv.
  eapply (asks_bind 0 _ _ _ (fun l => length l <= m)); [apply asks_lift; intros l Hl; by eapply Hm|]. intros l Hl.
  eapply (asks_bind _ _ _ _ any).
  { eapply asks_le; [apply asks_waves, concurrency_pos|lia|done]. }
  intros a _. eapply (asks_bind _ _ _ _ any); [by apply asks_lift|]. intros xs _.
  eapply (asks_bind _ _ _ _ any); [by apply asks_lift|]. intros s _. by apply asks_ret.
Qed.

(** A server answered the batch: one item per call, the [i]-th value being the result of the
    only item with id [i]. *)
Definition answers_batch (method : string) (ps : list (list json)) (vs : list json) : Prop :=
  exists items, answered_by (batch_of method ps) (JArr items) /\ length items = length ps /\ length vs = length ps
    /\ forall i v, vs !! i = Some v -> exists x, x ∈ items /\ item_id x = Some (Z.of_nat i)
         /\ member x "result" = Ok (Some v) /\ truthy (Some v) = true /\ forall y, y ∈ items -> item_id y = Some (Z.of_nat i) -> y = x.

Lemma result_of_ok x s v : result_of x s = Ok v -> member x "result" = Ok (Some v) /\ truthy (Some v) = true.
Proof.
  unfold result_of. destruct (member x "result") as [[w|]|]; cbn [mbind res_bind]; [|done..]. destruct (truthy (Some w)) eqn:E; [|done]. by intros [= <-].
Qed.

Lemma map_res_ok {A B} (f : A -> res B) l : forall ys, map_res f l = Ok ys -> Forall2 (fun x y => f x = Ok y) l ys.
Proof.
  induction l as [|x l IH]; intros ys; cbn [map_res]; [intros [= <-]; constructor|].
  destruct (f x) as [y|] eqn:E; [|done]. cbn [mbind res_bind]. destruct (map_res f l) as [zs|]; [|done]. intros [= <-]. constructor; [done|by apply IH].
Qed.

Lemma batch_answers method ps data byId vs : answered_by (batch_of method ps) data -> orderBatchResults data (length ps) = Ok byId ->
  map_res batch_result byId = Ok vs -> answers_batch method ps vs.
Proof.
  intros Ha (items & l & -> & Hp & Hlen & Hnum & ->)%order_spec Hv%map_res_ok. pose proof (Forall2_length _ _ _ Hv) as Hl. rewrite length_fmap in Hl.
  exists items. split_and!; [done|by rewrite Hp|congruence|]. intros i v Hi. destruct (Forall2_lookup_r _ _ _ _ _ Hv Hi) as (o & Ho & Er).
  rewrite list_lookup_fmap in Ho. destruct (l !! i) as [x|] eqn:Ex; [|done]. injection Ho as <-. apply result_of_ok in Er as [Hm Ht].
  exists x. split_and!; [rewrite Hp; by eapply list_elem_of_lookup_2|by apply Hnum|done|done|].
  intros y Hy Ey. rewrite Hp in Hy. apply list_elem_of_lookup in Hy as (j & Hj). rewrite (Hnum j y Hj) in Ey. injection Ey as Ey.
  apply Nat2Z.inj in Ey as ->. rewrite Ex in Hj. by injection Hj.
Qed.

Lemma asks_runBatch method ps : asks 10 (runBatch method ps) (answers_batch method ps).
Proof.
  unfold runBatch. change 10 with (10 + 0). eapply asks_bind; [apply asks_postWithRetry|]. intros [status data] Ha. cbn [snd] in Ha.
  change 0 with (0 + 0). eapply (asks_bind _ _ _ _ (fun byId => orderBatchResults data (length ps) = Ok byId)); [by apply asks_lift|].
  intros byId Ho. apply asks_lift. intros vs Hv. by apply (batch_answers _ _ data byId).
Qed.

(** The hashes and the blocks of the heights, one batch each. *)
Definition batch_fetched (hs : list Z) (bs : list node_block) : Prop :=
  nb_height <$> bs = hs
  /\ answers_batch "getblockhash" ((fun h => [JInt h]) <$> hs) (nb_hash <$> bs)
  /\ answers_batch "getblock" ((fun v => [v; JBool false]) <$> (nb_hash <$> bs)) (nb_hex <$> bs).

Lemma node_blocks_parts hs : forall vs ws, length vs = length hs -> length ws = length hs ->
  let bs := node_blocks hs vs ws in nb_height <$> bs = hs /\ nb_hash <$> bs = vs /\ nb_hex <$> bs = ws.
Proof.
  induction hs as [|h hs IH]; intros [|v vs] [|w ws] H1 H2; try done. destruct (IH vs ws) as (E1 & E2 & E3); [by injection H1|by injection H2|].
  cbn [node_blocks] in *. rewrite !fmap_cons. cbn [nb_height nb_hash nb_hex] in *. by rewrite E1, E2, E3.
Qed.

Lemma answers_length method ps vs : answers_batch method ps vs -> length vs = length ps.
Proof. by intros (items & _ & _ & H & _). Qed.

Lemma asks_getBlocksBatch hs : asks 20 (getBlocksBatch hs) (fun bs => hs <> [] -> batch_fetched hs bs).
Proof.
  unfold getBlocksBatch. case_bool_decide; [apply (asks_le 0 _ _ (fun bs => hs <> [] -> batch_fetched hs bs)); [by apply asks_ret|lia|done]|].
  change 20 with (10 + (10 + 0)). eapply asks_bind; [apply asks_runBatch|]. intros vs Hvs. eapply asks_bind; [apply asks_runBatch|]. intros ws Hws.
  apply asks_ret. intros _. pose proof (answers_length _ _ _ Hvs) as L1. pose proof (answers_length _ _ _ Hws) as L2. rewrite length_fmap in L1. rewrite length_fmap in L2.
  destruct (node_blocks_parts hs vs ws) as (E1 & E2 & E3); [done|congruence|]. unfold batch_fetched. by rewrite E1, E2, E3.
Qed.

Lemma asks_getBlocksBatchWithoutAuxPow hs : asks 30 (getBlocksBatchWithoutAuxPow hs) any.
Proof.
  unfold getBlocksBatchWithoutAuxPow. case_bool_decide; [apply (asks_le 0 _ _ any); [by apply asks_ret|lia|done]|]. change 30 with (10 + (10 + (10 + (0 + 0)))).
  eapply asks_bind; [apply asks_runBatch|]. intros x _. eapply asks_bind; [apply asks_runBatch|]. intros y _.
  eapply asks_bind; [apply asks_runBatch|]. intros z _. eapply (asks_bind _ _ _ _ any); [by apply asks_lift|]. intros w _. by apply asks_ret.
Qed.
End calls.

(** * Failover *)

Section failover.
Context {servers : RpcServers}.

(** The server behind [u] answers; any other endpoint refuses connections. *)
Record only_alive (u : string) (us : list string) : Prop := {
  oa_alive : forall n d, exists status body, client_post n u d = Replied status body;
  oa_dead : forall u' n d, u' ∈ us -> u' <> u -> exists code, code ∈ CONNECTION_ERROR_CODES /\ client_post n u' d = Failed (Some code) None;
}.

Record failover_ok (c : connector) : Prop := {
  fo_several : 2 <= length (endpoints c);
  fo_active : activeEndpointIndex c < length (endpoints c);
  fo_streak : (0 <= connectionFailures c < failoverThreshold c)%Z;
}.

(** What is left to go: failures until the endpoint at [k] is the active one. *)
Definition distance (c : connector) (k : nat) : nat :=
  if bool_decide (activeEndpointIndex c <= k) then k - activeEndpointIndex c else k + length (endpoints c) - activeEndpointIndex c.
Definition failures_left (c : connector) (k : nat) : Z := (Z.of_nat (distance c k) * failoverThreshold c - connectionFailures c)%Z.

Definition same_endpoints (c c' : connector) : Prop := endpoints c' = endpoints c /\ failoverThreshold c' = failoverThreshold c.

Lemma url_lookup c : failover_ok c -> endpoints c !! activeEndpointIndex c = Some (url c).
Proof.
  intros [_ Ha _]. unfold url. destruct (endpoints c !! activeEndpointIndex c) eqn:E; [done|]. apply lookup_ge_None in E. lia.
Qed.

Lemma post_alive u us c d : only_alive u us -> failover_ok c -> url c = u ->
  exists r, rpcPost d c = (Ok r, answered (rpc_now (posts c)) (set_failures 0 c)).
Proof.
  intros [Ha _] _ Hu. unfold rpcPost. rewrite Hu. destruct (Ha (posts c) d) as (status & body & ->). by exists (status, body).
Qed.

Lemma ok_after_answer now c : failover_ok c -> failover_ok (answered now (set_failures 0 c)).
Proof. intros [H1 H2 H3]. split; cbn; [done|done|lia]. Qed.

Lemma next_index i n : i < n -> (i + 1) mod n = if bool_decide (i + 1 = n) then 0 else i + 1.
Proof. intros Hi. case_bool_decide as E; [rewrite E; apply Nat.Div0.mod_same|apply Nat.mod_small; lia]. Qed.

(** A refused connection is one failure less to go. *)
Lemma post_dead u k c d : only_alive u (endpoints c) -> failover_ok c -> endpoints c !! k = Some u -> url c <> u ->
  failover_ok (rpcPost d c).2 /\ same_endpoints c (rpcPost d c).2 /\ failures_left (rpcPost d c).2 k = (failures_left c k - 1)%Z.
Proof.
  intros [_ Hd] Hc Hk Hne. pose proof (url_lookup c Hc) as Hu. destruct Hc as [H1 H2 H3].
  assert (Hik : activeEndpointIndex c <> k) by (intros E; rewrite E, Hk in Hu; by injection Hu).
  pose proof (lookup_lt_Some _ _ _ Hk) as Hkl.
  destruct (Hd (url c) (posts c) d) as (code & Hcode & E); [by eapply list_elem_of_lookup_2|done|].
  unfold rpcPost. rewrite E. cbn [snd]. rewrite bool_decide_eq_true_2 by done. unfold noteConnectionFailure, failures_left, distance. cbn.
  rewrite bool_decide_eq_false_2 by lia. case_bool_decide as Ht; cbn.
  - rewrite next_index by done. split_and!; [split; cbn; [done|case_bool_decide; lia|lia]|done|].
    assert (connectionFailures c = failoverThreshold c - 1)%Z as -> by lia. repeat case_bool_decide; try lia; nia.
  - split_and!; [split; cbn; [done|done|lia]|done|]. lia.
Qed.

Definition post_all (ds : list request) (c : connector) : connector := foldl (fun c d => (rpcPost d c).2) c ds.

Lemma stays_alive u us ds : forall c, only_alive u us -> failover_ok c -> url c = u -> failover_ok (post_all ds c) /\ url (post_all ds c) = u.
Proof.
  induction ds as [|d ds IH]; intros c Ha Hc Hu; [done|]. unfold post_all in *. cbn [foldl].
  destruct (post_alive u us c d Ha Hc Hu) as (r & ->). cbn [snd]. apply IH; [done|by apply ok_after_answer|done].
Qed.

Lemma reaches_alive u k ds : forall c, only_alive u (endpoints c) -> failover_ok c -> endpoints c !! k = Some u ->
  (failures_left c k <= Z.of_nat (length ds))%Z -> failover_ok (post_all ds c) /\ url (post_all ds c) = u.
Proof.
  induction ds as [|d ds IH]; intros c Ha Hc Hk Hl.
  - split; [done|]. destruct Hc as [H1 H2 H3]. cbn in Hl. unfold failures_left, distance in Hl. pose proof (lookup_lt_Some _ _ _ Hk).
    assert (activeEndpointIndex c = k) as <- by (case_bool_decide; nia). unfold post_all, url. cbn. by rewrite Hk.
  - destruct (decide (url c = u)) as [Hu|Hu]; [by apply (stays_alive u (endpoints c))|].
    destruct (post_dead u k c d Ha Hc Hk Hu) as (H1 & [H2 H3] & H4). unfold post_all. cbn [foldl].
    apply (IH (rpcPost d c).2); [by rewrite H2|done|by rewrite H2|]. rewrite H4. cbn [length] in Hl. lia.
Qed.

Lemma failures_left_bound c k : failover_ok c -> k < length (endpoints c) ->
  (failures_left c k <= failoverThreshold c * (Z.of_nat (length (endpoints c)) - 1))%Z.
Proof.
  intros [H1 H2 H3] Hk. unfold failures_left, distance. case_bool_decide; nia.
Qed.
End failover.

(** * An honest node

    The node's chain by height: its tip, hashes, header texts and block texts. *)

Record node_view := mkView { nc_tip : Z; nc_hash : Z -> string; nc_header : Z -> string; nc_block : Z -> string }.

(** The result of a call for a block of it. *)
Inductive replies (N : node_view) : call -> json -> Prop :=
  | replies_hash h id : (0 <= h <= nc_tip N)%Z -> replies N (mkCall "getblockhash" [JInt h] id) (JStr (nc_hash N h))
  | replies_header h id : (0 <= h <= nc_tip N)%Z ->
      replies N (mkCall "getblockheader" [JStr (nc_hash N h); JBool false] id) (JStr (nc_header N h))
  | replies_block h id : (0 <= h <= nc_tip N)%Z ->
      replies N (mkCall "getblock" [JStr (nc_hash N h); JBool false] id) (JStr (nc_block N h)).

Definition answers_call (c : call) (v x : json) : Prop := item_id x = Some (c_id c) /\ member x "result" = Ok (Some v).

(** The tip is answered; a batch is answered in any order, or times out, but not ten times
    in a row. *)
Record honest {servers : RpcServers} (N : node_view) (up : nat -> bool) : Prop := {
  hn_info : forall n u id, exists status data v, client_post n u (One (mkCall "getblockchaininfo" [] id)) = Replied status data
    /\ member data "result" = Ok (Some v) /\ truthy (Some v) = true /\ as_int (member_of (Some v) "blocks") = Some (nc_tip N);
  hn_many : forall n u cs vs, up n = true -> Forall2 (replies N) cs vs -> exists status items l,
    client_post n u (Many cs) = Replied status (JArr items) /\ items ≡ₚ l /\ Forall2 (fun '(c, v) x => answers_call c v x) (zip cs vs) l;
  hn_timeout : forall n u cs, up n = false -> client_post n u (Many cs) = Failed (Some "ECONNABORTED") None;
  hn_patience : forall n, exists k, k < 10 /\ up (n + k) = true;
  hn_texts : forall h, (0 <= h <= nc_tip N)%Z -> nc_hash N h <> "" /\ nc_header N h <> "" /\ nc_block N h <> "";
}.

Section honest.
Context {servers : RpcServers} (N : node_view) (up : nat -> bool) (Hn : honest N up).

Lemma result_truthy data v s : member data "result" = Ok (Some v) -> truthy (Some v) = true -> result_of data s = Ok v.
Proof. intros Hm Ht. unfold result_of. rewrite Hm. cbn [mbind res_bind]. by rewrite Ht. Qed.

Lemma nonempty_truthy s : s <> "" -> truthy (Some (JStr s)) = true.
Proof. intros Hs. cbn. by rewrite bool_decide_eq_false_2. Qed.

Lemma replies_truthy c v : replies N c v -> truthy (Some v) = true.
Proof. destruct 1 as [h id Hh | h id Hh | h id Hh]; apply nonempty_truthy, (hn_texts _ _ Hn h Hh). Qed.

Lemma run_getBlockchainInfo k : exists v k', getBlockchainInfo k = (Ok v, k') /\ as_int (member_of (Some v) "blocks") = Some (nc_tip N).
Proof.
  destruct (hn_info _ _ Hn (posts k) (url k) 1) as (status & data & v & E & Hm & Ht & Hb).
  eexists v, _. split; [|done]. unfold getBlockchainInfo.
  erewrite run_bind_ok; [|unfold sanitized, try_catch, rpcPost; rewrite E; done]. cbn. unfold lift_res. by rewrite (result_truthy _ v).
Qed.

(** ** Batches *)

Lemma run_batch_post cs vs : Forall2 (replies N) cs vs -> forall tries k e, (exists j, j < tries /\ up (posts k + j) = true) ->
  exists status items l k', retry_timeouts tries (rpcPost (Many cs)) e k = (Ok (status, JArr items), k')
    /\ items ≡ₚ l /\ Forall2 (fun '(c, v) x => answers_call c v x) (zip cs vs) l.
Proof.
  intros Hcs tries. induction tries as [|n IH]; intros k e (j & Hj & Hup); [lia|]. cbn [retry_timeouts].
  destruct (up (posts k)) eqn:Eup.
  - destruct (hn_many _ _ Hn (posts k) (url k) cs vs Eup Hcs) as (status & items & l & E & Hp & Hl). eexists status, items, l, _.
    split; [|done]. unfold try_catch, rpcPost. by rewrite E.
  - destruct j as [|j]; [by rewrite Nat.add_0_r, Eup in Hup|].
    pose proof (posts_rpcPost (Many cs) k) as Hposts. pose proof (hn_timeout _ _ Hn (posts k) (url k) cs Eup) as E.
    destruct (IH (rpcPost (Many cs) k).2 e) as (status & items & l & k' & Er & Hr); [exists j; split; [lia|rewrite Hposts; by rewrite Nat.add_succ_comm]|].
    exists status, items, l, k'. split; [|done]. unfold try_catch. unfold rpcPost in Er |- *. rewrite E in *. exact Er.
Qed.

Lemma replies_ids method ps vs l :
  Forall2 (fun '(c, v) x => answers_call c v x) (zip (imap (fun i p => mkCall method p (Z.of_nat i)) ps) vs) l -> length ps = length vs ->
  length l = length ps /\ numbered l /\ map_res batch_result (Some <$> l) = map_res (fun x => result_of x "Error in batch") l.
Proof.
  intros Hl Hlen. assert (Hll : length l = length ps).
  { apply Forall2_length in Hl. rewrite length_zip_with, length_imap in Hl. lia. }
  split_and!; [done| |].
  - intros i x Hx. destruct (Forall2_lookup_r _ _ _ _ _ Hl Hx) as ([c v] & Hz & [Hid _]).
    apply lookup_zip_Some in Hz as [Hc _]. rewrite list_lookup_imap in Hc. apply fmap_Some in Hc as (p & _ & ->). exact Hid.
  - clear. induction l as [|x l IH]; [done|]. rewrite fmap_cons. cbn [map_res batch_result]. by rewrite IH.
Qed.

Lemma run_runBatch method ps vs k :
  Forall2 (replies N) (imap (fun i p => mkCall method p (Z.of_nat i)) ps) vs -> exists k', runBatch method ps k = (Ok vs, k').
Proof.
  intros Hcs. assert (Hlen : length ps = length vs) by (apply Forall2_length in Hcs; by rewrite length_imap in Hcs).
  destruct (run_batch_post _ _ Hcs 10 k (rpc_failure "There were problems with a batch RPC call after retries. ") (hn_patience _ _ Hn (posts k))) as (status & items & l & k' & E & Hp & Hl).
  destruct (replies_ids _ _ _ _ Hl Hlen) as (Hll & Hnum & Hres). exists k'. unfold runBatch, batch_of, postWithRetry. run_ok E. cbn beta iota.
  assert (Ho : orderBatchResults (JArr items) (length ps) = Ok (Some <$> l)) by (apply order_spec; eauto 10).
  rewrite (run_bind_ok _ _ k' (Some <$> l) k') by (unfold lift_res; by rewrite Ho). unfold lift_res. f_equal. rewrite Hres.
  clear - Hl Hcs Hn Hlen. assert (Ht : Forall (fun v => truthy (Some v) = true) vs).
  { apply Forall_forall. intros v (i & Hi)%list_elem_of_lookup. destruct (Forall2_lookup_r _ _ _ _ _ Hcs Hi) as (c & _ & Hc). by eapply replies_truthy. }
  assert (Hl' : Forall2 (fun v x => member x "result" = Ok (Some v)) vs l).
  { apply Forall2_same_length_lookup_2; [apply Forall2_length in Hl; rewrite length_zip_with, length_imap in Hl; lia|].
    intros i v x Hv Hx. destruct (Forall2_lookup_r _ _ _ _ _ Hl Hx) as ([c w] & Hz & [_ Hm]). apply lookup_zip_Some in Hz as [_ Hw]. rewrite Hv in Hw. by injection Hw as ->. }
  clear - Ht Hl'. induction Hl' as [|v x vs l Hx _ IH]; [done|]. apply Forall_cons in Ht as [Hv Ht]. cbn [map_res].
  rewrite (result_truthy _ v) by done. cbn [mbind res_bind]. rewrite IH by done. done.
Qed.

Definition known (h : Z) : Prop := (0 <= h <= nc_tip N)%Z.

(** One batch over heights: the calls that [ps] makes of them, the results [vs]. *)
Lemma run_batch_over method (p : Z -> list json) (v : Z -> json) hs k :
  (forall h id, known h -> replies N (mkCall method (p h) id) (v h)) -> Forall known hs ->
  exists k', runBatch method (p <$> hs) k = (Ok (v <$> hs), k').
Proof.
  intros Hr Hh. apply run_runBatch. apply Forall2_same_length_lookup_2; [by rewrite length_imap, !length_fmap|].
  intros i c w Hc Hw. rewrite list_lookup_imap, list_lookup_fmap in Hc. rewrite list_lookup_fmap in Hw.
  destruct (hs !! i) as [h|] eqn:E; [|done]. injection Hc as <-. injection Hw as <-. apply Hr. by eapply Forall_lookup_1.
Qed.

Definition fetched (block : Z -> string) (h : Z) : node_block := mkNodeBlock h (JStr (nc_hash N h)) (JStr (block h)).

Lemma node_blocks_of f hs : node_blocks hs ((fun h => JStr (nc_hash N h)) <$> hs) ((fun h => JStr (f h)) <$> hs) = fetched f <$> hs.
Proof. induction hs as [|h hs IH]; [done|]. rewrite !fmap_cons. cbn [node_blocks]. by rewrite IH. Qed.

Lemma run_getBatchHashes hs k : Forall known hs -> exists k', getBatchHashes hs k = (Ok ((fun h => JStr (nc_hash N h)) <$> hs), k').
Proof. intros Hh. apply (run_batch_over "getblockhash" (fun h => [JInt h])); [|done]. intros h id. by constructor. Qed.

Lemma over_hashes method (v : Z -> json) hs k :
  (forall h id, known h -> replies N (mkCall method [JStr (nc_hash N h); JBool false] id) (v h)) -> Forall known hs ->
  exists k', runBatch method ((fun h => [h; JBool false]) <$> ((fun h => JStr (nc_hash N h)) <$> hs)) k = (Ok (v <$> hs), k').
Proof. intros Hr Hh. rewrite <- list_fmap_compose. by apply (run_batch_over method (fun h => [JStr (nc_hash N h); JBool false])). Qed.

Lemma run_getBatchHeaders hs k : Forall known hs -> exists k',
  getBatchHeaders ((fun h => JStr (nc_hash N h)) <$> hs) k = (Ok ((fun h => JStr (nc_header N h)) <$> hs), k').
Proof. intros Hh. apply over_hashes; [|done]. intros h id. by constructor. Qed.

Lemma run_getBatchBlocks hs k : Forall known hs -> exists k',
  getBatchBlocks ((fun h => JStr (nc_hash N h)) <$> hs) k = (Ok ((fun h => JStr (nc_block N h)) <$> hs), k').
Proof. intros Hh. apply over_hashes; [|done]. intros h id. by constructor. Qed.

(** The blocks asked for, in the order asked for. *)
Lemma run_getBlocksBatch hs k : Forall known hs -> exists k', getBlocksBatch hs k = (Ok (fetched (nc_block N) <$> hs), k').
Proof.
  intros Hh. unfold getBlocksBatch. case_bool_decide as E; [subst; by exists k|].
  destruct (run_getBatchHashes hs k Hh) as (k1 & E1). run_ok E1. destruct (run_getBatchBlocks hs k1 Hh) as (k2 & E2). run_ok E2.
  exists k2. unfold mret, M_ret. by rewrite node_blocks_of.
Qed.

Context {envs : Environment} {lib : Bitcoinjs}.

Lemma strip_all_of (clean : Z -> string) hs :
  Forall (fun h => stripAuxPowFromBlockHex (nc_header N h) (nc_block N h) = Ok (clean h)) hs ->
  strip_all ((fun h => JStr (nc_header N h)) <$> hs) ((fun h => JStr (nc_block N h)) <$> hs) = Ok ((fun h => JStr (clean h)) <$> hs).
Proof.
  induction 1 as [|h hs Hh _ IH]; [done|]. rewrite !fmap_cons. cbn [strip_all]. rewrite IH. cbn [strip_answer]. rewrite Hh. done.
Qed.

Lemma run_getBlocksBatchWithoutAuxPow (clean : Z -> string) hs k : Forall known hs ->
  Forall (fun h => stripAuxPowFromBlockHex (nc_header N h) (nc_block N h) = Ok (clean h)) hs ->
  exists k', getBlocksBatchWithoutAuxPow hs k = (Ok (fetched clean <$> hs), k').
Proof.
  intros Hh Hc. unfold getBlocksBatchWithoutAuxPow. case_bool_decide as E; [subst; by exists k|].
  destruct (run_getBatchHashes hs k Hh) as (k1 & E1). run_ok E1. destruct (run_getBatchHeaders hs k1 Hh) as (k2 & E2). run_ok E2.
  destruct (run_getBatchBlocks hs k2 Hh) as (k3 & E3). run_ok E3.
  erewrite run_bind_ok; [|unfold lift_res; by rewrite (strip_all_of clean hs Hc)]. exists k3. unfold mret, M_ret. by rewrite node_blocks_of.
Qed.
End honest.
