(* ===== verification/WorkDir.v ===== *)
(** The work directory of a seeding run: the parsed streams, the files of the merge with
    the manifests of the sorted ones ([bulk_sync/merger/resume_manifest.js]), the derived
    key files, and the queue of files that are no longer needed ([CleanupManager] of
    [bulk_sync/orchestrator.js]).  Directories are maps from file names; what the disk
    does when space runs low is an oracle, [wd_pressure]. *)

From S2P Require Import Prelude Wire RecordFiles SeedStreams.

#[local] Open Scope string_scope.
#[local] Open Scope nat_scope.
#[local] Open Scope list_scope.

(** * Key files *)

(** [L.json]. *)
Record last_markers := mkMarkers { l_height : string; l_hash : string; l_txIndex : option bool }.

Record key_files := mkFiles { kf_dat : gmap string bytes; kf_L : option last_markers }.

(** * Headers *)

(** A decoded header; the size is the whole file's. *)
Record dat_head := mkHead {
  dh_magic : bytes; dh_chain : Z; dh_net : Z; dh_version : Z; dh_firstHeight : Z; dh_lastHeight : Z;
  dh_recordCount : Z; dh_recordSize : Z; dh_fileSize : Z }.

Definition parseDatHeader (file : bytes) : res dat_head :=
  if bool_decide (length file < HEADER_SIZE) then Err (failure "short header read")
  else Ok (mkHead (take 8 file) (unle (slice 8 9 file)) (unle (slice 9 10 file)) (unle (slice 10 12 file))
             (unle (slice 12 16 file)) (unle (slice 16 20 file)) (unle (slice 20 28 file)) (unle (slice 28 32 file)) (len file)).

(** * Manifests *)

(** What a sorted file is bound to. *)
Record manifest := mkManifest {
  mf_magic : bytes; mf_chain : Z; mf_net : Z; mf_firstHeight : Z; mf_lastHeight : Z;
  mf_recordCount : Z; mf_recordSize : Z; mf_sortedSize : Z }.

(** A manifest file: the fields written, or text without them. *)
Inductive manifest_text := Manifest (m : manifest) | Unreadable.

Record work_dir := mkWorkDir {
  wd_parsed : gmap string bytes;
  wd_merge : gmap string bytes;
  wd_manifests : gmap string manifest_text;
  wd_keys : key_files;
  wd_queue : list string;
  wd_pressure : list (list bool);
}.

Abbreviation WM := (M work_dir).

Definition on_merge (f : gmap string bytes -> gmap string bytes) (d : work_dir) : work_dir :=
  mkWorkDir (wd_parsed d) (f (wd_merge d)) (wd_manifests d) (wd_keys d) (wd_queue d) (wd_pressure d).
Definition on_manifests (f : gmap string manifest_text -> gmap string manifest_text) (d : work_dir) : work_dir :=
  mkWorkDir (wd_parsed d) (wd_merge d) (f (wd_manifests d)) (wd_keys d) (wd_queue d) (wd_pressure d).
Definition on_keys (f : key_files -> key_files) (d : work_dir) : work_dir :=
  mkWorkDir (wd_parsed d) (wd_merge d) (wd_manifests d) (f (wd_keys d)) (wd_queue d) (wd_pressure d).

(** Opening a file of the merge directory. *)
Definition read_merge (name : string) : WM bytes := fun d =>
  (match wd_merge d !! name with Some file => Ok file | None => Err (failure "ENOENT") end, d).

Definition write_merge (name : string) (file : bytes) : WM unit := modify (on_merge (insert name file)).

(** * Reuse

    Whether artifacts already in the directory belong to this run. *)

Definition KNOWN_MAGICS : list bytes := [MAGIC_OUTPUTS; MAGIC_SPENDS; MAGIC_META].

(** [String.prototype.indexOf('-')] split; own names only are looked up. *)
Fixpoint split_dash (s : string) : string * option string :=
  match s with
  | String c r => if bool_decide (c = "-"%char) then (EmptyString, Some r) else let '(a, b) := split_dash r in (String c a, b)
  | EmptyString => (EmptyString, None)
  end.

Definition networkToCodes (network : string) : res (Z * Z) :=
  let '(chainName, netName) := split_dash network in
  match CHAIN_CODES chainName, NETWORK_CODES (default "" netName) with
  | None, _ => Err (failure "Unknown chain in network")
  | _, None => Err (failure "Unknown net in network")
  | Some c, Some n => Ok (c, n)
  end.

(** The header of a reusable artifact; [to] is [None] in tip mode. *)
Definition validateConcatArtifact (file : bytes) (codes : Z * Z) (from to : option Z) : option dat_head :=
  match parseDatHeader file with
  | Err _ => None
  | Ok h =>
      let body := (dh_fileSize h - Z.of_nat HEADER_SIZE)%Z in
      if negb (bool_decide (dh_magic h ∈ KNOWN_MAGICS)) then None
      else if negb (bool_decide (dh_chain h = codes.1)) || negb (bool_decide (dh_net h = codes.2)) then None
      else if match from with Some f => negb (bool_decide (dh_firstHeight h = f)) | None => false end then None
      else if match to with Some t => negb (bool_decide (dh_lastHeight h = t)) | None => false end then None
      else if bool_decide (dh_recordSize h = 0%Z) then None
      else if bool_decide (body < 0)%Z || negb (bool_decide (body = dh_recordCount h * dh_recordSize h)%Z) then None
      else Some h
  end.

Definition manifestFieldsFromHeader (h : dat_head) (sortedSize : Z) : manifest :=
  mkManifest (dh_magic h) (dh_chain h) (dh_net h) (dh_firstHeight h) (dh_lastHeight h) (dh_recordCount h) (dh_recordSize h) sortedSize.

#[global] Instance manifest_eq_dec : EqDecision manifest.
Proof. solve_decision. Defined.

(** [fs.statSync(path).size], [-1] for no file. *)
Definition size_of (name : string) (d : work_dir) : Z := match wd_merge d !! name with Some f => len f | None => -1 end.

Definition writeSortedManifest (name : string) (sourceHeader : dat_head) : WM unit := fun d =>
  (Ok tt, on_manifests (insert name (Manifest (manifestFieldsFromHeader sourceHeader (size_of name d)))) d).

Definition checkSortedManifest (name : string) (sourceHeader : dat_head) (d : work_dir) : bool :=
  match wd_manifests d !! name with
  | Some (Manifest m) => bool_decide (m = manifestFieldsFromHeader sourceHeader (mf_sortedSize m)) && bool_decide (size_of name d = mf_sortedSize m)
  | _ => false
  end.

(** * Freeing consumed files *)

Definition enqueue (name : string) : WM unit := fun d =>
  (Ok tt, if bool_decide (is_Some (wd_merge d !! name))
          then mkWorkDir (wd_parsed d) (wd_merge d) (wd_manifests d) (wd_keys d) (wd_queue d ++ [name]) (wd_pressure d) else d).

(** While space is short, the next queued file is unlinked, or not ([false]). *)
Fixpoint unlink_while_low (short : list bool) (queue : list string) (m : gmap string bytes) : list string * gmap string bytes :=
  match short, queue with
  | b :: short, name :: queue => unlink_while_low short queue (if b then delete name m else m)
  | _, _ => (queue, m)
  end.

(** [x | 0]. *)
Definition int32_of (z : Z) : Z := (z + 2147483648) mod 4294967296 - 2147483648.

(** A threshold of 0 disables it. *)
Definition maybeFree (thresholdMb : Z) : WM unit := fun d =>
  if bool_decide (int32_of thresholdMb <= 0)%Z then (Ok tt, d)
  else
    let '(queue, m) := unlink_while_low (hd [] (wd_pressure d)) (wd_queue d) (wd_merge d) in
    (Ok tt, mkWorkDir (wd_parsed d) m (wd_manifests d) (wd_keys d) queue (tl (wd_pressure d))).
