(* ===== verification/DeriveKeys.v ===== *)
(** Deriving the store's records from the merged streams
    ([bulk_sync/merger/derive_keys/]): one file of fixed-size key and value records per
    prefix, each sorted by key, and the last-block markers.  A directory of key files is
    a map from prefixes to files, with the markers of [L.json] as the object it holds. *)

From S2P Require Import Prelude KeyCodec ValueCodec Parsing Wire AuxPow ChainParams.
From S2P Require Import Decoder RecordFiles Heap ExternalSort SeedStreams WorkDir.

#[local] Open Scope string_scope.
#[local] Open Scope nat_scope.
#[local] Open Scope list_scope.

(** * Layout *)

(** [{ keySize, recordSize }] of a prefix. *)
Definition LAYOUT (pfx : string) : option (nat * nat) :=
  if bool_decide (pfx = "B") then Some (33, 73)
  else if bool_decide (pfx = "T") then Some (33, 65)
  else if bool_decide (pfx = "I") then Some (37, 69)
  else if bool_decide (pfx = "O") then Some (69, 114)
  else if bool_decide (pfx = "H") then Some (37, 69)
  else if bool_decide (pfx = "J") then Some (69, 69)
  else if bool_decide (pfx = "N") then Some (33, 33)
  else if bool_decide (pfx = "S") then Some (33, 37)
  else if bool_decide (pfx = "W") then Some (69, 101)
  else if bool_decide (pfx = "Z") then Some (65, 65)
  else None.

(** T carries the block's height after its key. *)
Definition TX_INDEX_LAYOUT (pfx : string) : option (nat * nat) :=
  if bool_decide (pfx = "T") then Some (33, 101)
  else if bool_decide (pfx = "X") then Some (33, 65)
  else if bool_decide (pfx = "Y") then Some (65, 97)
  else None.

Definition LAYOUT_PREFIXES : list string := ["B"; "T"; "I"; "O"; "H"; "J"; "N"; "S"; "W"; "Z"].
Definition TX_INDEX_PREFIXES : list string := ["T"; "X"; "Y"].

Definition write_dat (pfx : string) (file : bytes) : WM unit :=
  modify (on_keys (fun d => mkFiles (<[pfx:=file]> (kf_dat d)) (kf_L d))).

(** [L.json] first, then the files of every prefix. *)
Definition clearPriorDeriveOutputs (prefixes : list string) : WM unit :=
  modify (on_keys (fun d => mkFiles (foldl (fun m pfx => delete pfx m) (kf_dat d) prefixes) None)).

Definition sortByKey (input : bytes) (recordSize keySize : nat) (ramBudgetBytes : Z) : res bytes :=
  '(out, _) ← externalSort (mkSort 0 (Z.of_nat recordSize) (Z.of_nat keySize) ramBudgetBytes false) input; Ok out.

(** * Options *)

Record derive_ctx := mkCtx {
  cx_meta : string; cx_outputs : string; cx_liveUtxos : string; cx_spendsByPrev : string;
  cx_undoBlocks : Z; cx_removeSpent : bool; cx_txIndex : bool; cx_ramBudgetBytes : Z }.

(** [/^bitcoin(?:-|$)/i.test(network)]. *)
Definition is_bitcoin (network : string) : bool :=
  bool_decide (toLowerCase (before_dash network) = "bitcoin").

Section derive.
Context {envs : Environment}.

(** [undoBlocks], [removeSpent] and [txIndex] as given, [None] for undefined; the width
    is that of the outputs' header. *)
Definition resolveDeriveOptions (metaPath outputsPath liveUtxosPath spendsByPrevPath network : string) (undoBlocks : option Z) (removeSpent txIndex : option bool)
    (ramBudgetBytes outputsRecordSize : Z) : res derive_ctx :=
  '(undoBlocks, _) ← resolveUndoBlocks network undoBlocks;
  let txIndex := default (negb (is_bitcoin network)) txIndex in
  let outputsRecordSize := if bool_decide (outputsRecordSize = 0%Z) then Z.of_nat OUTPUTS_RECORD_SIZE else outputsRecordSize in
  if negb (bool_decide (outputsRecordSize = Z.of_nat OUTPUTS_RECORD_SIZE))
  then Err (failure "deriveKeys: unsupported outputsRecordSize")
  else Ok (mkCtx metaPath outputsPath liveUtxosPath spendsByPrevPath undoBlocks (default true removeSpent) txIndex ramBudgetBytes).

(** [onProgress({ phase, ... })]. *)
Context (onProgress : string -> WM unit).

(** * Blocks: B, N and the legacy T *)

Record block_scan := mkScan {
  sc_bRaw : writer; sc_tRaw : option writer; sc_nWindow : list bytes; sc_lastHeight : Z; sc_lastBlockHash : option bytes }.

Definition b_record (blk : meta_block) : bytes :=
  [P_BLOCK] ++ copy32 (mb_hash blk) ++ be 4 (mb_height blk) ++ be 4 (mb_time blk) ++ copy32 (mb_prev blk).

Definition legacy_t_record (blk : meta_block) (txid : bytes) : bytes :=
  [P_TX] ++ copy32 txid ++ copy32 (mb_hash blk).

Definition scanMetaBlock (undoBlocks : Z) (blk : meta_block) (st : block_scan) : block_scan :=
  let nWindow := sc_nWindow st ++ [mb_hash blk] in
  mkScan (flatWrite 73 (b_record blk) (sc_bRaw st))
    ((fun w => foldl (fun w txid => flatWrite 65 (legacy_t_record blk txid) w) w (mb_txids blk)) <$> sc_tRaw st)
    (if bool_decide (undoBlocks < Z.of_nat (length nWindow))%Z then tail nWindow else nWindow)
    (mb_height blk) (Some (mb_hash blk)).

Definition scanMetaBlocks (ctx : derive_ctx) (blocks : list meta_block) : block_scan :=
  foldl (fun st blk => scanMetaBlock (cx_undoBlocks ctx) blk st)
    (mkScan (new_writer []) (if cx_removeSpent ctx || cx_txIndex ctx then None else Some (new_writer [])) [] (-1) None)
    blocks.

Definition n_record (h : bytes) : bytes := [P_STORED_BLK] ++ copy32 h.

Definition deriveBlockKeys (ctx : derive_ctx) : WM (Z * option bytes) :=
  _ ← onProgress "meta-start";
  metaFile ← read_merge (cx_meta ctx);
  blocks ← lift_res (readMeta metaFile);
  let st := scanMetaBlocks ctx blocks in
  let nRaw := close_file (foldl (fun w h => flatWrite 33 (n_record h) w) (new_writer []) (sc_nWindow st)) in
  _ ← onProgress "meta-done";
  bFile ← lift_res (sortByKey (close_file (sc_bRaw st)) 73 33 (cx_ramBudgetBytes ctx));
  _ ← write_dat "B" bFile;
  _ ← match sc_tRaw st with
      | Some tRaw => tFile ← lift_res (sortByKey (close_file tRaw) 65 33 (cx_ramBudgetBytes ctx)); write_dat "T" tFile
      | None => mret tt
      end;
  nFile ← lift_res (sortByKey nRaw 33 33 (cx_ramBudgetBytes ctx));
  _ ← write_dat "N" nFile;
  _ ← onProgress "sort-BTN-done";
  mret (sc_lastHeight st, sc_lastBlockHash st).

(** * Fields of an outputs record *)

Definition out_txid (rec : bytes) : bytes := slice 0 32 rec.
Definition out_voutBE (rec : bytes) : bytes := slice 32 36 rec.
Definition out_valBE (rec : bytes) : bytes := slice 36 44 rec.
Definition out_heightBE (rec : bytes) : bytes := slice 44 48 rec.
Definition out_script (rec : bytes) : bytes := slice 48 80 rec.
Definition out_block (rec : bytes) : bytes := slice 80 112 rec.
Definition out_coinbase (rec : bytes) : bool := bool_decide (rec !! 112 = Some x01).

(** * Live outputs: H and O *)

Definition h_record (rec : bytes) : bytes := [P_OUT_HINT] ++ out_txid rec ++ out_voutBE rec ++ out_script rec.

Definition o_record (rec : bytes) : bytes :=
  [P_OUTPUT] ++ out_script rec ++ out_txid rec ++ out_voutBE rec
  ++ out_valBE rec ++ out_heightBE rec ++ out_txid rec ++ [if out_coinbase rec then x01 else x00].

(** H, raw O and the count. *)
Definition writeLiveOutputRecords (liveUtxos : bytes) : res (writer * writer) :=
  for_records liveUtxos 0 OUTPUTS_RECORD_SIZE
    (fun rec '(hOut, oRaw) => Ok (writeRecord 69 (h_record rec) hOut, flatWrite 114 (o_record rec) oRaw))
    (new_writer [], new_writer []).

Definition deriveOutputKeys (ctx : derive_ctx) : WM unit :=
  liveUtxos ← read_merge (cx_liveUtxos ctx);
  '(hOut, oRaw) ← lift_res (writeLiveOutputRecords liveUtxos);
  _ ← write_dat "H" (close_file hOut);
  _ ← onProgress "live-done";
  oFile ← lift_res (sortByKey (close_file oRaw) 114 69 (cx_ramBudgetBytes ctx));
  _ ← write_dat "O" oFile;
  onProgress "sort-O-done".

(** * The transaction index: T, X and Y *)

Definition t_record (rec : bytes) : bytes :=
  [P_TX] ++ out_txid rec ++ out_heightBE rec ++ out_block rec ++ out_txid rec.
Definition x_record (rec : bytes) : bytes := [P_TX_EXACT] ++ out_txid rec ++ out_block rec.
Definition y_record (rec : bytes) : bytes := [P_TX_BLOCK_RECOVERY] ++ out_block rec ++ out_txid rec ++ out_txid rec.

Record tx_raw := mkTxRaw { xr_prev : option bytes; xr_T : writer; xr_X : writer; xr_Y : writer }.

(** The outputs of a transaction are adjacent: the first one names it. *)
Definition writeTxIndexRecord (wMinHeight : Z) (rec : bytes) (st : tx_raw) : tx_raw :=
  let fullTxid := out_txid rec in
  if bool_decide (xr_prev st = Some fullTxid) then st
  else
    let st := mkTxRaw (Some fullTxid) (flatWrite 101 (t_record rec) (xr_T st)) (flatWrite 65 (x_record rec) (xr_X st)) (xr_Y st) in
    if bool_decide (unbe (out_heightBE rec) < wMinHeight)%Z then st
    else mkTxRaw (xr_prev st) (xr_T st) (xr_X st) (flatWrite 97 (y_record rec) (xr_Y st)).

Definition deriveTxIndexKeys (ctx : derive_ctx) (wMinHeight : Z) : WM unit :=
  outputsFile ← read_merge (cx_outputs ctx);
  st ← lift_res (for_records outputsFile HEADER_SIZE OUTPUTS_RECORD_SIZE
         (fun rec st => Ok (writeTxIndexRecord wMinHeight rec st)) (mkTxRaw None (new_writer []) (new_writer []) (new_writer [])));
  tFile ← lift_res (sortByKey (close_file (xr_T st)) 101 37 (cx_ramBudgetBytes ctx));
  _ ← write_dat "T" tFile;
  xFile ← lift_res (sortByKey (close_file (xr_X st)) 65 33 (cx_ramBudgetBytes ctx));
  _ ← write_dat "X" xFile;
  yFile ← lift_res (sortByKey (close_file (xr_Y st)) 97 65 (cx_ramBudgetBytes ctx));
  _ ← write_dat "Y" yFile;
  onProgress "tx-index-done".

(** * Scripts: W, S and Z *)

Definition CAND_REC_SIZE : nat := 72.
Definition CAND_KEY_SIZE : nat := 36.

Definition cand_record (rec : bytes) (rid : Z) : bytes := out_script rec ++ be 4 rid ++ out_block rec ++ out_heightBE rec.
Definition w_record (rec : bytes) : bytes := [P_OUT_BLK] ++ out_block rec ++ out_txid rec ++ out_voutBE rec ++ out_script rec.

Definition writeCandidateAndWRecord (wMinHeight : Z) (rec : bytes) (st : Z * writer * writer) : res (Z * writer * writer) :=
  let '(rid, candRaw, wRaw) := st in
  if bool_decide (0xFFFFFFFF < rid)%Z then Err (failure "deriveKeys: output rowId exceeds u32")
  else
    let candRaw := flatWrite CAND_REC_SIZE (cand_record rec rid) candRaw in
    if bool_decide (unbe (out_heightBE rec) < wMinHeight)%Z then Ok (rid + 1, candRaw, wRaw)%Z
    else Ok (rid + 1, candRaw, flatWrite 101 (w_record rec) wRaw)%Z.

Definition writeCandidateAndWRecords (outputsFile : bytes) (wMinHeight : Z) : res (Z * writer * writer) :=
  for_records outputsFile HEADER_SIZE OUTPUTS_RECORD_SIZE (writeCandidateAndWRecord wMinHeight) (0%Z, new_writer [], new_writer []).

(** The sorted candidates. *)
Definition writeScriptCandidates (ctx : derive_ctx) (lastHeight : Z) : WM bytes :=
  let wMinHeight := Z.max 0 (lastHeight - cx_undoBlocks ctx + 1) in
  outputsFile ← read_merge (cx_outputs ctx);
  '(_, candRaw, wRaw) ← lift_res (writeCandidateAndWRecords outputsFile wMinHeight);
  _ ← onProgress "script-cand-raw-done";
  candSorted ← lift_res (sortByKey (close_file candRaw) CAND_REC_SIZE CAND_KEY_SIZE (cx_ramBudgetBytes ctx));
  _ ← onProgress "sort-cand-done";
  wFile ← lift_res (sortByKey (close_file wRaw) 101 69 (cx_ramBudgetBytes ctx));
  _ ← write_dat "W" wFile;
  _ ← onProgress "sort-W-done";
  mret candSorted.

Definition cand_script (rec : bytes) : bytes := slice 0 32 rec.
Definition cand_block (rec : bytes) : bytes := slice 36 68 rec.
Definition cand_heightBE (rec : bytes) : bytes := slice 68 72 rec.
Definition s_record (rec : bytes) : bytes := [P_SCRIPT_BLK] ++ cand_script rec ++ cand_heightBE rec.
Definition z_record (rec : bytes) : bytes := [P_BLK_SCRIPT] ++ cand_block rec ++ cand_script rec.

Record script_scan := mkScripts { ss_last : option bytes; ss_S : writer; ss_Z : writer }.

(** Only a script's first candidate counts. *)
Definition writeFirstSeenScriptRecord (wMinHeight : Z) (rec : bytes) (st : script_scan) : script_scan :=
  let scriptHash := cand_script rec in
  if bool_decide (ss_last st = Some scriptHash) then st
  else
    let sOut := writeRecord 37 (s_record rec) (ss_S st) in
    mkScripts (Some scriptHash) sOut
      (if bool_decide (unbe (cand_heightBE rec) < wMinHeight)%Z then ss_Z st else flatWrite 65 (z_record rec) (ss_Z st)).

Definition writeFirstSeenScriptRecords (candSorted : bytes) (wMinHeight : Z) : res script_scan :=
  for_records candSorted 0 CAND_REC_SIZE (fun rec st => Ok (writeFirstSeenScriptRecord wMinHeight rec st))
    (mkScripts None (new_writer []) (new_writer [])).

Definition deriveScriptKeys (ctx : derive_ctx) (candSorted : bytes) (wMinHeight : Z) : WM unit :=
  st ← lift_res (writeFirstSeenScriptRecords candSorted wMinHeight);
  _ ← write_dat "S" (close_file (ss_S st));
  _ ← onProgress "SZ-dedup-done";
  zFile ← lift_res (sortByKey (close_file (ss_Z st)) 65 65 (cx_ramBudgetBytes ctx));
  _ ← write_dat "Z" zFile;
  onProgress "sort-Z-done".

(** * Spends: I and J *)

Definition spd_prevTxid (rec : bytes) : bytes := slice 0 32 rec.
Definition spd_prevVoutBE (rec : bytes) : bytes := slice 32 36 rec.
Definition spd_spenderTxid (rec : bytes) : bytes := slice 36 68 rec.

Definition i_record (rec : bytes) : bytes := [P_INPUT] ++ spd_prevTxid rec ++ spd_prevVoutBE rec ++ spd_spenderTxid rec.
Definition j_record (rec : bytes) : bytes := [P_IN_HINT] ++ spd_spenderTxid rec ++ spd_prevTxid rec ++ spd_prevVoutBE rec.

Definition writeSpendRecords (spendsByPrev : bytes) : res (writer * writer) :=
  for_records spendsByPrev 0 SPENDS_RECORD_SIZE
    (fun rec '(iOut, jRaw) => Ok (writeRecord 69 (i_record rec) iOut, flatWrite 69 (j_record rec) jRaw))
    (new_writer [], new_writer []).

Definition deriveSpendKeys (ctx : derive_ctx) : WM unit :=
  if cx_removeSpent ctx then onProgress "spends-skipped-removeSpent"
  else
    spendsByPrev ← read_merge (cx_spendsByPrev ctx);
    '(iOut, jRaw) ← lift_res (writeSpendRecords spendsByPrev);
    _ ← write_dat "I" (close_file iOut);
    _ ← onProgress "spends-done";
    jFile ← lift_res (sortByKey (close_file jRaw) 69 69 (cx_ramBudgetBytes ctx));
    _ ← write_dat "J" jFile;
    onProgress "sort-J-done".

(** * The whole pass *)

Definition writeLastBlockMarkers (lastHeight : Z) (lastBlockHash : option bytes) (txIndex : bool) : WM unit :=
  match lastBlockHash with
  | None => throw (failure "deriveKeys: meta file had no blocks; cannot emit LAST_* markers")
  | Some h => modify (on_keys (fun d => mkFiles (kf_dat d) (Some (mkMarkers (to_radix 16 lastHeight) (b2h h) (Some txIndex)))))
  end.

Definition deriveKeys (ctx : derive_ctx) : WM unit :=
  _ ← clearPriorDeriveOutputs (LAYOUT_PREFIXES ++ TX_INDEX_PREFIXES);
  '(lastHeight, lastBlockHash) ← deriveBlockKeys ctx;
  _ ← deriveOutputKeys ctx;
  let wMinHeight := Z.max 0 (lastHeight - cx_undoBlocks ctx + 1) in
  _ ← when (cx_txIndex ctx) (deriveTxIndexKeys ctx wMinHeight);
  candSorted ← writeScriptCandidates ctx lastHeight;
  _ ← deriveScriptKeys ctx candSorted wMinHeight;
  _ ← deriveSpendKeys ctx;
  _ ← writeLastBlockMarkers lastHeight lastBlockHash (cx_txIndex ctx);
  onProgress "done".
End derive.
