(* ===== verification/Loader.v ===== *)
(** Loading the key files into a store ([bulk_sync/merger/loader.js]): the refusal of a
    store that holds anything but the current layout stamp, the files in batches, and
    the markers in a last batch of their own.  A batch may be refused by the database
    ([ld_faults]); a load that throws keeps the batches before. *)

From S2P Require Import Prelude KeyCodec ValueCodec LevelDb Startup Wire AuxPow.
From S2P Require Import RecordFiles Heap ExternalSort SeedStreams WorkDir DeriveKeys.

#[local] Open Scope string_scope.
#[local] Open Scope nat_scope.
#[local] Open Scope list_scope.

(** * Choosing the files *)

Definition PREFIX_FILES : list string := ["B"; "H"; "I"; "J"; "N"; "O"; "S"; "T"; "W"; "Z"].
Definition TX_INDEX_FILES : list string := ["T"; "X"; "Y"].

(** [.sort()] orders the letters by code. *)
Definition selectPrefixes (removeSpent txIndex : bool) : list string :=
  let base := if removeSpent
              then filter (fun p => ~ (p = "T" \/ p = "I" \/ p = "J")) PREFIX_FILES
              else filter (fun p => ~ (txIndex = true /\ p = "T")) PREFIX_FILES in
  if negb txIndex then base else stable_sort from_latin1 (base ++ TX_INDEX_FILES).

(** The option, else what the derive recorded, else the files present. *)
Definition resolveTxIndex (d : key_files) (option : option bool) (L : Datatypes.option last_markers) : bool :=
  match option, L ← L; l_txIndex L with
  | Some b, _ => b
  | None, Some b => b
  | None, None => bool_decide (is_Some (kf_dat d !! "X")) || bool_decide (is_Some (kf_dat d !! "Y"))
  end.

(** * Records on the way in *)

Section load.
Context {node : Node} {DB : Type} `{LevelDb DB}.

(** The 45-byte intermediate value in the form the live path writes. *)
Definition transformOValue (value : bytes) : res bytes :=
  sat ← read_u64 value 0;
  height ← read_i32 value 8;
  let fullTxHash := b2h (slice 12 44 value) in
  let isCoinbase := bool_decide (44 < length value) && bool_decide (value !! 44 = Some x01) in
  encodeOutput sat (Some height) (Some fullTxHash) isCoinbase.

(** The key rebuilt by the live builder, and a whole script hash. *)
Definition validateWRecord (key value : bytes) : res unit :=
  if negb (bool_decide (length key = 69)) then Err (failure "loadKeys: W key must be 69 bytes")
  else if negb (bool_decide (length value = 32)) then Err (failure "loadKeys: W value (scriptPubKey) must be 32 bytes")
  else
    idx ← read_u32 key 65;
    liveKey ← kOutBlk (b2h (slice 1 33 key)) (b2h (slice 33 65 key)) idx;
    if negb (bool_decide (liveKey = key)) then Err (failure "loadKeys: W key mismatch vs live insertOutputBlock encoding")
    else Ok tt.

Definition dropTHeight (value : bytes) : bytes := drop 4 value.

(** * The load *)

Record load := mkLoad { ld_db : DB; ld_faults : list bool }.

Abbreviation LM := (M load).

(** [await db.batch(ops)]. *)
Definition load_batch (ops : list (bytes * item)) : LM unit := fun s =>
  match ld_faults s with
  | true :: f => (Err (Error EBatch), mkLoad (ld_db s) f)
  | _ => (Ok tt, mkLoad (db_batch (ld_db s) ops) (tail (ld_faults s)))
  end.

Definition holdsNothingButCurrentStamp : LM bool := fun s =>
  let keys := fst <$> db_iterator (ld_db s) (mkRange None None None (Some 2)) in
  (Ok (match keys with
       | [] => true
       | [k] =>
           if bool_decide (k = PREFIX_LAYOUT_VERSION) then
             match db_get (ld_db s) PREFIX_LAYOUT_VERSION with
             | Some stamp => bool_decide (to_latin1 stamp = to_radix 10 STORE_LAYOUT_VERSION)
             | None => false
             end
           else false
       | _ => false
       end), s).

Definition put_op (key value : bytes) : bytes * item := (key, mkItem put (Some value)).

(** The batch entry of a record. *)
Definition load_op (keySize : nat) (valueTransform : option (bytes -> res bytes))
    (recordValidator : option (bytes -> bytes -> res unit)) (rec : bytes) : res (bytes * item) :=
  let key := take keySize rec in
  let value := drop keySize rec in
  _ ← match recordValidator with Some f => f key value | None => Ok tt end;
  value ← match valueTransform with Some f => f value | None => Ok value end;
  Ok (put_op key value).

(** The records from a reader on, in batches; a file has fewer records than bytes. *)
Fixpoint loadRecords (fuel : nat) (r : reader) (keySize batchSize : nat) (valueTransform : option (bytes -> res bytes))
    (recordValidator : option (bytes -> bytes -> res unit)) (ops : list (bytes * item)) (count : Z) : LM Z :=
  match fuel with
  | O => mret count
  | S f =>
      match next r with
      | (Some rec, r) =>
          op ← lift_res (load_op keySize valueTransform recordValidator rec);
          let ops := ops ++ [op] in
          if bool_decide (batchSize <= length ops) then
            _ ← load_batch ops;
            loadRecords f r keySize batchSize valueTransform recordValidator [] (count + 1)
          else loadRecords f r keySize batchSize valueTransform recordValidator ops (count + 1)
      | (None, _) => _ ← when (bool_decide (0 < length ops)) (load_batch ops); mret count
      end
  end.

Definition loadPrefixFile (file : bytes) (keySize recordSize batchSize : nat) (valueTransform : option (bytes -> res bytes))
    (recordValidator : option (bytes -> bytes -> res unit)) : LM Z :=
  r ← lift_res (newRecordReader file 0 recordSize);
  loadRecords (S (length file)) r keySize batchSize valueTransform recordValidator [] 0.

Record prefix_load := mkPrefixLoad {
  pl_keySize : nat; pl_recordSize : nat; pl_file : bytes;
  pl_valueTransform : option (bytes -> res bytes); pl_recordValidator : option (bytes -> bytes -> res unit) }.

Definition preparePrefixLoad (d : key_files) (pfx : string) (txIndex : bool) : res prefix_load :=
  let layout := match (if txIndex then TX_INDEX_LAYOUT pfx else None) with Some l => Some l | None => LAYOUT pfx end in
  match layout, kf_dat d !! pfx with
  | Some (keySize, recordSize), Some file =>
      Ok (mkPrefixLoad keySize recordSize file
            (if bool_decide (pfx = "O") then Some transformOValue
             else if txIndex && bool_decide (pfx = "T") then Some (fun v => Ok (dropTHeight v))
             else None)
            (if bool_decide (pfx = "W") then Some validateWRecord else None))
  | Some _, None => Err (failure "loadKeys: missing file (partial derive_keys.js output; re-run derive)")
  | None, _ => Err (failure "loadKeys: no layout")
  end.

(** Count of N records, which the last batch asks for. *)
Definition loadPrefix (d : key_files) (txIndex : bool) (batchSize : nat) (pfx : string) : LM Z :=
  p ← lift_res (preparePrefixLoad d pfx txIndex);
  loadPrefixFile (pl_file p) (pl_keySize p) (pl_recordSize p) batchSize (pl_valueTransform p) (pl_recordValidator p).

Definition readLastMarkers (d : key_files) : res last_markers :=
  match kf_L d with Some L => Ok L | None => Err (failure "loadKeys: missing L.json") end.

Definition writeFinalMarkers (d : key_files) (countN : Z) : LM unit :=
  L ← lift_res (readLastMarkers d);
  let finalOps :=
    [put_op PREFIX_LAST_BLOCK_HEIGHT (from_latin1 (l_height L));
     put_op PREFIX_LAST_BLOCK_HASH (from_latin1 (l_hash L));
     put_op PREFIX_LAYOUT_VERSION (from_latin1 (to_radix 10 STORE_LAYOUT_VERSION))]
    ++ (if bool_decide (0 < countN)%Z then [put_op Q_UNDO_WATERMARK_KEY (from_latin1 (to_radix 10 countN))] else []) in
  load_batch finalOps.

(** [stats[pfx]] of the prefixes in turn; the count of N is kept. *)
Fixpoint loadPrefixes (d : key_files) (txIndex : bool) (batchSize : nat) (prefixes : list string) (countN : Z) : LM Z :=
  match prefixes with
  | [] => mret countN
  | pfx :: rest =>
      count ← loadPrefix d txIndex batchSize pfx;
      loadPrefixes d txIndex batchSize rest (if bool_decide (pfx = "N") then count else countN)
  end.

(** A [batchSize] of 0 is the default. *)
Definition loadKeys (d : key_files) (batchSize : nat) (removeSpent : option bool) (txIndexOpt : option bool) : LM Z :=
  let batchSize := if bool_decide (batchSize = 0) then 10000 else batchSize in
  let removeSpent := default true removeSpent in
  let txIndex := resolveTxIndex d txIndexOpt (kf_L d) in
  let prefixes := selectPrefixes removeSpent txIndex in
  fresh ← holdsNothingButCurrentStamp;
  if negb fresh then throw (failure "loadKeys: target DB is not empty")
  else
    countN ← loadPrefixes d txIndex batchSize prefixes 0;
    _ ← writeFinalMarkers d countN;
    mret countN.
End load.
