(* ===== verification/LoadFacts.v ===== *)
(** What a load does to the store: keys of a length the key files do not have are left
    alone whatever happens, and a load that meets no refusal puts the records of its
    files one after the other, whatever the batch size. *)

From S2P Require Import Prelude KeyCodec ValueCodec LevelDb Startup Wire AuxPow.
From S2P Require Import RecordFiles Heap ExternalSort SeedStreams WorkDir DeriveKeys Loader.

#[local] Open Scope string_scope.
#[local] Open Scope nat_scope.
#[local] Open Scope list_scope.

Lemma next_length r rec r' : reader_ok r -> next r = (Some rec, r') -> length rec = rd_size r.
Proof.
  intros Hr E. pose proof (next_spec r Hr) as Hn. rewrite E in Hn. destruct Hn as (Hne & -> & _).
  destruct Hr as (Hp & [a Ha] & [b Hb]). rewrite length_take. enough (rd_size r <= length (unread r)) by lia.
  assert (Hl : length (unread r) = (a + b) * rd_size r) by (unfold unread; rewrite length_app; lia).
  assert (length (unread r) <> 0) by by destruct (unread r). assert (a + b <> 0) by (intros E0; rewrite E0 in Hl; lia). nia.
Qed.

Lemma newRecordReader_ok file n r : 0 < n -> newRecordReader file 0 n = Ok r -> reader_ok r /\ rd_size r = n.
Proof.
  intros Hn. unfold newRecordReader. destruct (_ || _) eqn:E; [done|]. intros [= <-]. apply orb_false_iff in E as [_ E].
  apply negb_false_iff, bool_decide_eq_true in E. cbn [rd_size]. split; [|done]. split_and!; [done|by exists 0|]. cbn [rd_pos rd_file rd_size].
  rewrite drop_0. exists (Z.to_nat (len file / Z.of_nat n)). unfold len in *. apply Z.mod_divide in E as [k E]; [|lia].
  replace (Z.of_nat (length file)) with (k * Z.of_nat n)%Z by lia. rewrite Z.div_mul by lia. nia.
Qed.

Section load.
Context {node : Node} {DB : Type} `{LevelDbLaws DB}.
Implicit Type s : load (DB := DB).

Abbreviation stored s := (db_get (ld_db s)).

(** The value of [k] after the entries are put in turn. *)
Definition putting (l : list (bytes * bytes)) (k : bytes) (old : option bytes) : option bytes :=
  foldl (fun o e => if decide (e.1 = k) then Some e.2 else o) old l.

Definition puts (l : list (bytes * bytes)) : list (bytes * item) := (fun e => put_op e.1 e.2) <$> l.

Lemma get_batch_puts d l k : db_get (db_batch d (puts l)) k = putting l k (db_get d k).
Proof.
  induction l as [|[a v] l IH] using rev_ind; [apply get_batch_nil|]. unfold puts, putting in *.
  rewrite fmap_app, foldl_snoc. change (?f <$> [(a, v)]) with [f (a, v)]. unfold put_op at 2. cbn [fst snd].
  by rewrite get_batch_snoc, IH.
Qed.

Lemma putting_app l1 l2 k o : putting (l1 ++ l2) k o = putting l2 k (putting l1 k o).
Proof. apply foldl_app. Qed.

Lemma putting_none l k o : (forall e, e ∈ l -> e.1 <> k) -> putting l k o = o.
Proof.
  unfold putting. induction l as [|e l IH] in o |- *; intros Hl; [done|]. cbn [foldl]. rewrite decide_False by (apply Hl; left).
  apply IH. intros e' He. apply Hl. by right.
Qed.

Lemma putting_in l k v o : putting l k o = Some v -> (k, v) ∈ l \/ o = Some v.
Proof.
  induction l as [|[a w] l IH] using rev_ind; [by right|]. rewrite putting_app. cbn [putting foldl fst snd]. case_decide as E.
  - intros [= <-]. left. subst a. set_solver.
  - intros [?|?]%IH; [left; set_solver|by right].
Qed.

(** When equal keys carry equal values the order does not matter. *)
Lemma putting_some l k v o : (k, v) ∈ l -> (forall e, e ∈ l -> e.1 = k -> e.2 = v) -> putting l k o = Some v.
Proof.
  induction l as [|e l IH] using rev_ind; intros Hin Hl; [by apply elem_of_nil in Hin|]. rewrite putting_app. cbn [putting foldl].
  case_decide as E; [f_equal; apply Hl; [set_solver|done]|]. apply IH; [|set_solver]. apply elem_of_app in Hin as [?|Hin]; [done|].
  apply list_elem_of_singleton in Hin as <-. done.
Qed.

(** ** The frame *)

Lemma load_batch_frame ops s k : (forall e, e ∈ ops -> e.1 <> k) -> stored (load_batch (puts ops) s).2 k = stored s k.
Proof.
  intros Hk. unfold load_batch. destruct (ld_faults s) as [|[|] f]; cbn [snd ld_db]; try done; by rewrite get_batch_puts, putting_none.
Qed.

Lemma load_op_key keySize vt rv rec op : load_op keySize vt rv rec = Ok op -> exists v, op = put_op (take keySize rec) v.
Proof.
  unfold load_op. destruct rv as [f|]; [destruct (f _ _) as [[]|]|]; cbn [mbind res_bind]; try done;
    (destruct vt as [g|]; [destruct (g _)|]); cbn [mbind res_bind]; intros [=]; subst; eauto.
Qed.

Lemma loadRecords_frame fuel vt rv keySize batchSize k : forall r ops count s,
  reader_ok r -> keySize <= rd_size r -> length k <> keySize -> (forall e, e ∈ ops -> length e.1 = keySize) ->
  stored (loadRecords fuel r keySize batchSize vt rv (puts ops) count s).2 k = stored s k.
Proof.
  induction fuel as [|f IH]; intros r ops count s Hr Hsz Hk Hops; [done|]. cbn [loadRecords].
  assert (Hne : forall e, e ∈ ops -> e.1 <> k) by (intros e He <-; by destruct Hk; apply Hops).
  pose proof (next_spec r Hr) as Hn. destruct (next r) as [[rec|] r'] eqn:En.
  - destruct Hn as (_ & _ & _ & Hr' & Hs'). pose proof (next_length r rec r' Hr En) as Hlen. unfold mbind, M_bind, lift_res.
    destruct (load_op keySize vt rv rec) as [op|e] eqn:Eo; [|done]. apply load_op_key in Eo as [v ->].
    assert (Ep : puts ops ++ [put_op (take keySize rec) v] = puts (ops ++ [(take keySize rec, v)])) by (unfold puts; by rewrite fmap_app).
    rewrite Ep. assert (Hops' : forall e, e ∈ ops ++ [(take keySize rec, v)] -> length e.1 = keySize).
    { intros e [He|He%list_elem_of_singleton]%elem_of_app; [by apply Hops|]. subst e. cbn. rewrite length_take. lia. }
    assert (Hne' : forall e, e ∈ ops ++ [(take keySize rec, v)] -> e.1 <> k) by (intros e He <-; by destruct Hk; apply Hops').
    case_bool_decide; [|apply IH; [done|lia|done|done]].
    destruct (load_batch _ s) as [[[]|e] s'] eqn:Eb; pose proof (load_batch_frame _ s k Hne') as Hb; rewrite Eb in Hb; cbn [snd] in *; [|done].
    rewrite <- Hb. change (@nil (bytes * item)) with (puts []). apply IH; [done|lia|done|]. by intros e He%elem_of_nil.
  - unfold mbind, M_bind, when. pose proof (load_batch_frame ops s k Hne) as Hb. case_bool_decide; [|done].
    destruct (load_batch (puts ops) s) as [[[]|e] s']; cbn [snd] in *; exact Hb.
Qed.

(** The lengths of the keys in the files. *)
Lemma layout_sizes d pfx txIndex p : preparePrefixLoad d pfx txIndex = Ok p -> 33 <= pl_keySize p <= pl_recordSize p.
Proof.
  unfold preparePrefixLoad. cbv zeta. remember (match (if txIndex then TX_INDEX_LAYOUT pfx else None) with Some l => Some l | None => LAYOUT pfx end) as layout eqn:E.
  destruct layout as [[ks rs]|]; [|done]. destruct (kf_dat d !! pfx); [|done]. intros [= <-]. cbn. symmetry in E. revert E.
  unfold TX_INDEX_LAYOUT, LAYOUT. destruct txIndex; repeat case_bool_decide; intros [= <- <-]; lia.
Qed.

Lemma loadPrefix_frame d txIndex batchSize pfx s k :
  length k < 33 -> stored (loadPrefix d txIndex batchSize pfx s).2 k = stored s k.
Proof.
  intros Hk. unfold loadPrefix, mbind, M_bind, lift_res. destruct (preparePrefixLoad d pfx txIndex) as [p|e] eqn:E; [|done].
  apply layout_sizes in E. unfold loadPrefixFile, mbind, M_bind, lift_res.
  destruct (newRecordReader (pl_file p) 0 (pl_recordSize p)) as [r|e] eqn:Er; [|done].
  apply newRecordReader_ok in Er as [Hr Hs]; [|lia]. change (@nil (bytes * item)) with (puts []).
  apply loadRecords_frame; [done|lia|lia|]. by intros e He%elem_of_nil.
Qed.

Lemma loadPrefixes_frame d txIndex batchSize k prefixes : forall n s,
  length k < 33 -> stored (loadPrefixes d txIndex batchSize prefixes n s).2 k = stored s k.
Proof.
  induction prefixes as [|pfx rest IH]; intros n s Hk; [done|]. cbn [loadPrefixes]. unfold mbind, M_bind.
  pose proof (loadPrefix_frame d txIndex batchSize pfx s k Hk) as Hp.
  destruct (loadPrefix d txIndex batchSize pfx s) as [[c|e] s']; cbn [snd] in *; [|done]. by rewrite IH.
Qed.

(** ** A load without refusals *)

Definition no_faults s : Prop := ld_faults s = [].

Lemma run_load_batch ops s : no_faults s ->
  exists s', load_batch (puts ops) s = (Ok tt, s') /\ no_faults s' /\ forall k, stored s' k = putting ops k (stored s k).
Proof.
  intros Hf. unfold load_batch. rewrite Hf. eexists. split; [reflexivity|]. split; [done|]. intros k. apply get_batch_puts.
Qed.

(** What a record of the file becomes. *)
Definition loads_as keySize vt rv (rec : bytes) (e : bytes * bytes) : Prop := load_op keySize vt rv rec = Ok (put_op e.1 e.2).

Lemma run_loadRecords fuel vt rv keySize batchSize : forall recs es r ops count s,
  reading r recs -> Forall2 (loads_as keySize vt rv) recs es -> length recs < fuel -> no_faults s ->
  exists s', loadRecords fuel r keySize batchSize vt rv (puts ops) count s = (Ok (count + Z.of_nat (length es))%Z, s')
    /\ no_faults s' /\ forall k, stored s' k = putting (ops ++ es) k (stored s k).
Proof.
  induction fuel as [|f IH]; intros recs es r ops count s Hr Hes Hf Hs; [lia|]. cbn [loadRecords].
  pose proof (next_reading r recs Hr) as Hn. destruct Hes as [|rec e recs es He Hes].
  - destruct (next r) as [[?|] r']; [done|]. cbn [length]. rewrite Z.add_0_r, app_nil_r. unfold mbind, M_bind, when.
    case_bool_decide as Eo.
    + destruct (run_load_batch ops s Hs) as (s' & -> & Hs' & Hg). by exists s'.
    + destruct ops; [|cbn in Eo; lia]. by exists s.
  - destruct Hn as (r' & -> & Hr'). unfold mbind, M_bind, lift_res. rewrite He. cbn [length] in *.
    assert (Ep : puts ops ++ [put_op e.1 e.2] = puts (ops ++ [e])) by (unfold puts; by rewrite fmap_app).
    rewrite Ep. replace (count + Z.of_nat (S (length es)))%Z with (count + 1 + Z.of_nat (length es))%Z by lia.
    case_bool_decide.
    + destruct (run_load_batch (ops ++ [e]) s Hs) as (s' & -> & Hs' & Hg). change (@nil (bytes * item)) with (puts []).
      destruct (IH recs es r' [] (count + 1)%Z s' Hr' Hes ltac:(lia) Hs') as (s2 & -> & Hs2 & Hg2). exists s2. split_and!; [done|done|].
      intros k. rewrite Hg2, Hg. cbn [app]. by rewrite <- putting_app, <- app_assoc.
    + destruct (IH recs es r' (ops ++ [e]) (count + 1)%Z s Hr' Hes ltac:(lia) Hs) as (s2 & -> & Hs2 & Hg2). exists s2. split_and!; [done|done|].
      intros k. by rewrite Hg2, <- app_assoc.
Qed.

(** A key file and the entries it puts. *)
Record key_file_of (d : key_files) (txIndex : bool) (pfx : string) (es : list (bytes * bytes)) : Prop := {
  kfo_load : exists p recs, preparePrefixLoad d pfx txIndex = Ok p /\ pl_file p = concat recs /\ sized (pl_recordSize p) recs
    /\ Forall2 (loads_as (pl_keySize p) (pl_valueTransform p) (pl_recordValidator p)) recs es;
}.

Lemma run_loadPrefix d txIndex batchSize pfx es s :
  key_file_of d txIndex pfx es -> no_faults s ->
  exists s', loadPrefix d txIndex batchSize pfx s = (Ok (Z.of_nat (length es)), s')
    /\ no_faults s' /\ forall k, stored s' k = putting es k (stored s k).
Proof.
  intros [(p & recs & Ep & Ef & Hsz & Hes)] Hs. pose proof (layout_sizes _ _ _ _ Ep) as Hks. unfold loadPrefix, mbind, M_bind, lift_res.
  rewrite Ep. unfold loadPrefixFile, mbind, M_bind, lift_res.
  destruct (reading_new [] (pl_recordSize p) recs) as (r & Er & Hr & _); [lia|done|]. cbn [app length] in Er. rewrite Ef, Er.
  change (@nil (bytes * item)) with (puts []).
  destruct (run_loadRecords (S (length (concat recs))) (pl_valueTransform p) (pl_recordValidator p) (pl_keySize p) batchSize recs es r [] 0 s)
    as (s' & -> & Hs' & Hg); [done|done| |done|by exists s'].
  rewrite (length_concat_sized _ _ Hsz). nia.
Qed.

Lemma run_loadPrefixes d txIndex batchSize (es : string -> list (bytes * bytes)) prefixes : forall n s,
  (forall pfx, pfx ∈ prefixes -> key_file_of d txIndex pfx (es pfx)) -> no_faults s ->
  exists s', loadPrefixes d txIndex batchSize prefixes n s
      = (Ok (if decide ("N" ∈ prefixes) then Z.of_nat (length (es "N")) else n), s')
    /\ no_faults s' /\ forall k, stored s' k = putting (concat (es <$> prefixes)) k (stored s k).
Proof.
  induction prefixes as [|pfx rest IH]; intros n s Hes Hs; [exists s; by cbn|]. cbn [loadPrefixes]. unfold mbind, M_bind.
  destruct (run_loadPrefix d txIndex batchSize pfx (es pfx) s) as (s1 & -> & Hs1 & Hg1); [apply Hes; left|done|].
  destruct (IH (if bool_decide (pfx = "N") then Z.of_nat (length (es pfx)) else n) s1) as (s2 & -> & Hs2 & Hg2);
    [intros q Hq; apply Hes; by right|done|].
  exists s2. split_and!; [|done|].
  - f_equal. f_equal. case_bool_decide as E; [subst pfx|]; repeat case_decide; set_solver.
  - intros k. rewrite Hg2, Hg1. cbn [fmap list_fmap concat]. by rewrite putting_app.
Qed.

(** ** The last batch *)

Definition final_entries (L : last_markers) (countN : Z) : list (bytes * bytes) :=
  [(PREFIX_LAST_BLOCK_HEIGHT, from_latin1 (l_height L)); (PREFIX_LAST_BLOCK_HASH, from_latin1 (l_hash L));
   (PREFIX_LAYOUT_VERSION, from_latin1 (to_radix 10 STORE_LAYOUT_VERSION))]
  ++ (if bool_decide (0 < countN)%Z then [(Q_UNDO_WATERMARK_KEY, from_latin1 (to_radix 10 countN))] else []).

Lemma writeFinalMarkers_puts d countN s :
  writeFinalMarkers d countN s
  = match kf_L d with
    | Some L => load_batch (puts (final_entries L countN)) s
    | None => (Err (failure "loadKeys: missing L.json"), s)
    end.
Proof.
  unfold writeFinalMarkers, readLastMarkers, mbind, M_bind, lift_res. destruct (kf_L d) as [L|]; [|done].
  unfold final_entries, puts. rewrite fmap_app. by case_bool_decide.
Qed.

Lemma final_entries_stored L countN (old : bytes -> option bytes) :
  let new k := putting (final_entries L countN) k (old k) in
  new PREFIX_LAST_BLOCK_HEIGHT = Some (from_latin1 (l_height L)) /\ new PREFIX_LAST_BLOCK_HASH = Some (from_latin1 (l_hash L))
  /\ new PREFIX_LAYOUT_VERSION = Some (from_latin1 (to_radix 10 STORE_LAYOUT_VERSION))
  /\ ((0 < countN)%Z -> new Q_UNDO_WATERMARK_KEY = Some (from_latin1 (to_radix 10 countN))).
Proof.
  cbv zeta. unfold putting, final_entries. split_and!; [..|intros Hn; rewrite bool_decide_eq_true_2 by done]; try case_bool_decide; cbn [app foldl fst snd];
    repeat (case_decide as E; [try discriminate E|try by destruct E]); done.
Qed.

(** Whole or nothing, and only the four keys. *)
Lemma load_batch_all_or_none l s r s' : load_batch (puts l) s = (r, s') ->
  match r with
  | Ok _ => forall k, stored s' k = putting l k (stored s k)
  | Err _ => ld_db s' = ld_db s
  end.
Proof.
  unfold load_batch. destruct (ld_faults s) as [|[|] f]; intros [= <- <-]; try done; intros k; apply get_batch_puts.
Qed.

(** ** An empty store *)

(** The store holds something other than the current layout stamp. *)
Definition populated (d : DB) : Prop :=
  exists k v, db_get d k = Some v /\ (k <> PREFIX_LAYOUT_VERSION \/ to_latin1 v <> to_radix 10 STORE_LAYOUT_VERSION).

Lemma run_holdsNothing s : exists b,
  holdsNothingButCurrentStamp s = (Ok b, s) /\ (b = true <-> ~ populated (ld_db s)).
Proof.
  unfold holdsNothingButCurrentStamp. eexists. split; [reflexivity|].
  rewrite iterator_limit. cbn [take_limit r_limit r_gt r_gte r_lte]. set (full := mkRange None None None None).
  assert (Hfull : forall k v, (k, v) ∈ db_iterator (ld_db s) full <-> db_get (ld_db s) k = Some v).
  { intros k v. rewrite iterator_elem by done. cbn. tauto. }
  pose proof (iterator_sorted (ld_db s) full) as Hso.
  destruct (db_iterator (ld_db s) full) as [|[k v] rest] eqn:Ei.
  { split; [|done]. intros _ (k & v & E & _). apply Hfull in E. by apply elem_of_nil in E. }
  assert (Hk : db_get (ld_db s) k = Some v) by (apply Hfull; left).
  destruct rest as [|[k2 v2] rest]; cbn [take fmap list_fmap fst].
  - case_bool_decide as E; [subst k|split; [done|]; intros Hn; destruct Hn; exists k, v; auto].
    rewrite Hk. rewrite bool_decide_eq_true. split.
    + intros Ev (k & v' & E & Hd). apply Hfull in E. apply list_elem_of_singleton in E as [= -> ->]. naive_solver.
    + intros Hn. destruct (decide (to_latin1 v = to_radix 10 STORE_LAYOUT_VERSION)) as [?|Hd]; [done|]. destruct Hn. exists PREFIX_LAYOUT_VERSION, v. auto.
  - split; [done|]. intros Hn. destruct Hn. assert (Hne : k <> k2).
    { inversion Hso as [|? ? _ Hall]; subst. rewrite Forall_forall in Hall. by destruct (Hall (k2, v2)) as [_ ?]; [left|]. }
    assert (Hk2 : db_get (ld_db s) k2 = Some v2) by (apply Hfull; right; left).
    destruct (decide (k = PREFIX_LAYOUT_VERSION)) as [->|?]; [|by exists k, v; auto].
    exists k2, v2. split; [done|]. left. congruence.
Qed.

End load.
