(* ===== verification/Seeder.v ===== *)
(** The merge and load phases of a seeding run ([bulk_sync/orchestrator/phases.js]) over
    the work directory: concatenation or reuse, format checks, the two sorts, the
    anti-join with its refusal of orphan spends, the derivation, and the load. *)

From S2P Require Import Prelude KeyCodec ValueCodec LevelDb Startup Parsing Wire AuxPow ChainParams.
From S2P Require Import Decoder RecordFiles Heap ExternalSort AntiJoin SeedStreams WorkDir DeriveKeys Loader.

#[local] Open Scope string_scope.
#[local] Open Scope nat_scope.
#[local] Open Scope list_scope.

Definition OUTPUTS_KEY_SIZE : nat := 36.
Definition SPENDS_KEY_SIZE : nat := 36.

(** * Finding and checking the streams *)

Fixpoint starts_with (pre s : string) : bool :=
  match pre, s with
  | EmptyString, _ => true
  | String a pre, String b s => bool_decide (a = b) && starts_with pre s
  | _, _ => false
  end.

(** [f.startsWith(prefix) && f.endsWith(suffix)], sorted by name. *)
Definition findFiles (dir : gmap string bytes) (prefix suffix : string) : list bytes :=
  let names := filter (fun f => starts_with prefix f && starts_with (rev_string suffix "") (rev_string f "") = true) (fst <$> map_to_list dir) in
  omap (fun f => dir !! f) (stable_sort from_latin1 names).

(** The first eight bytes of each stream; a shorter file has none. *)
Definition assertCurrentParseFormat (outputs spends meta : bytes) : res unit :=
  let current file magic := bool_decide (8 <= length file) && bool_decide (take 8 file = magic) in
  if negb (current outputs MAGIC_OUTPUTS) || negb (current spends MAGIC_SPENDS) || negb (current meta MAGIC_META)
  then Err (failure "Remove parsed and merge and run again so the blocks are dumped and parsed afresh.")
  else Ok tt.

(** Falls back on the current size when the field is absent or 0. *)
Definition readOutputsRecordSize (file : bytes) : Z :=
  if bool_decide (length (slice 28 32 file) < 4) then Z.of_nat OUTPUTS_RECORD_SIZE
  else let rs := unle (slice 28 32 file) in if bool_decide (0 < rs)%Z then rs else Z.of_nat OUTPUTS_RECORD_SIZE.

(** * The merge *)

(** The arguments of a run the merge and the load read. *)
Record seed_args := mkSeedArgs {
  ar_network : string; ar_from : Z; ar_to : option Z; ar_ramBudget : Z; ar_batchSize : nat; ar_removeSpent : bool;
  ar_cleanupThresholdMb : Z }.

Section merge.
Context {envs : Environment}.
Context (args : seed_args).

(** Whether the three concatenated files on disk are this run's. *)
Definition concatReusableForRun (d : work_dir) : res bool :=
  match wd_merge d !! "all-outputs.dat", wd_merge d !! "all-spends.dat", wd_merge d !! "all-meta.dat" with
  | Some outputs, Some spends, Some meta =>
      codes ← networkToCodes (ar_network args);
      let check file := validateConcatArtifact file codes (Some (ar_from args)) (ar_to args) in
      match check outputs, check spends, check meta with
      | Some outH, Some spdH, Some metaH =>
          let agrees h := bool_decide (dh_firstHeight h = dh_firstHeight outH) && bool_decide (dh_lastHeight h = dh_lastHeight outH) in
          Ok (agrees spdH && agrees metaH)
      | _, _, _ => Ok false
      end
  | _, _, _ => Ok false
  end.

Definition concatOrReuse : WM unit :=
  d ← (get : WM work_dir);
  concatReusable ← lift_res (concatReusableForRun d);
  if (concatReusable : bool) then mret tt
  else
    outputs ← lift_res (concatFilesWithHeader (findFiles (wd_parsed d) "outputs-" ".dat"));
    _ ← write_merge "all-outputs.dat" outputs;
    spends ← lift_res (concatFilesWithHeader (findFiles (wd_parsed d) "spends-" ".dat"));
    _ ← write_merge "all-spends.dat" spends;
    meta ← lift_res (concatFilesWithHeader (findFiles (wd_parsed d) "meta-" ".dat"));
    write_merge "all-meta.dat" meta.

Definition expectedSortedSize (input : bytes) : Z := len input - Z.of_nat HEADER_SIZE.

Definition sortedReusable (sortedName : string) (expSize : Z) (sourceHeader : dat_head) : WM bool :=
  gets (fun d => bool_decide (is_Some (wd_merge d !! sortedName)) && bool_decide (size_of sortedName d = expSize)
                 && checkSortedManifest sortedName sourceHeader d).

(** [sortOutputs] and [sortSpends]. *)
Definition sortStream (allName sortedName : string) (recordSize keySize : Z) (ramBudgetBytes : Z) : WM unit :=
  input ← read_merge allName;
  header ← lift_res (parseDatHeader input);
  reusable ← sortedReusable sortedName (expectedSortedSize input) header;
  if (reusable : bool) then mret tt
  else
    '(sorted, _) ← lift_res (externalSort (mkSort HEADER_SIZE recordSize keySize ramBudgetBytes false) input);
    _ ← write_merge sortedName sorted;
    writeSortedManifest sortedName header.

Definition sortOutputs (outputsRecordSize ramBudgetBytes : Z) : WM unit :=
  sortStream "all-outputs.dat" "outputs-sorted.dat" outputsRecordSize (Z.of_nat OUTPUTS_KEY_SIZE) ramBudgetBytes.

Definition sortSpends (ramBudgetBytes : Z) : WM unit :=
  sortStream "all-spends.dat" "spends-sorted.dat" (Z.of_nat SPENDS_RECORD_SIZE) (Z.of_nat SPENDS_KEY_SIZE) ramBudgetBytes.

Definition antiJoinLiveUtxos (outputsRecordSize : Z) : WM unit :=
  outputs ← read_merge "outputs-sorted.dat";
  spends ← read_merge "spends-sorted.dat";
  '(live, stats) ← lift_res (leftAntiJoin (mkJoin 0 (Z.to_nat outputsRecordSize) 0 SPENDS_RECORD_SIZE OUTPUTS_KEY_SIZE false) outputs spends);
  _ ← write_merge "live-utxos.dat" live;
  if bool_decide (0 < orphanSpends stats)%Z && bool_decide (ar_from args = 0%Z)
  then throw (failure "anti-join found orphan spends on a from-genesis run: outputs stream is incomplete, aborting before load")
  else mret tt.

Definition free_after (name : string) : WM unit := _ ← enqueue name; maybeFree (ar_cleanupThresholdMb args).

(** The callback of the derivation: inputs that are done with may go. *)
Definition derive_progress (phase : string) : WM unit :=
  if bool_decide (phase = "meta-done") then free_after "all-meta.dat"
  else if bool_decide (phase = "live-done") then free_after "live-utxos.dat"
  else if bool_decide (phase = "script-cand-raw-done") then
    _ ← enqueue "all-outputs.dat";
    _ ← when (ar_removeSpent args) (enqueue "spends-sorted.dat");
    maybeFree (ar_cleanupThresholdMb args)
  else if bool_decide (phase = "spends-done") then free_after "spends-sorted.dat"
  else mret tt.

Definition deriveLevelDbKeys (outputsRecordSize ramBudgetBytes : Z) : WM unit :=
  ctx ← lift_res (resolveDeriveOptions "all-meta.dat" "all-outputs.dat" "live-utxos.dat" "spends-sorted.dat" (ar_network args)
                    None (Some (ar_removeSpent args)) None ramBudgetBytes outputsRecordSize);
  deriveKeys derive_progress ctx.

Definition phaseMerge : WM unit :=
  _ ← concatOrReuse;
  let ramBudgetBytes := (ar_ramBudget args * 1024 * 1024)%Z in
  outputs ← read_merge "all-outputs.dat";
  spends ← read_merge "all-spends.dat";
  meta ← read_merge "all-meta.dat";
  _ ← lift_res (assertCurrentParseFormat outputs spends meta);
  let outputsRecordSize := readOutputsRecordSize outputs in
  if negb (bool_decide (outputsRecordSize = Z.of_nat OUTPUTS_RECORD_SIZE))
  then throw (failure "unexpected outputs record size")
  else
    _ ← sortOutputs outputsRecordSize ramBudgetBytes;
    _ ← sortSpends ramBudgetBytes;
    _ ← free_after "all-spends.dat";
    _ ← antiJoinLiveUtxos outputsRecordSize;
    _ ← free_after "outputs-sorted.dat";
    deriveLevelDbKeys outputsRecordSize ramBudgetBytes.
End merge.

(** * The load *)

Definition phaseLoad {node : Node} {DB : Type} `{LevelDb DB} (args : seed_args) (d : work_dir) : M load Z :=
  loadKeys (wd_keys d) (ar_batchSize args) (Some (ar_removeSpent args)) None.
