(* ===== verification/Orchestrator.v ===== *)
(** A whole seeding run ([bulk_sync/orchestrator.js] with [orchestrator/cli_options.js],
    the dump and parse phases of [orchestrator/phases.js] and the worker
    [bulk_sync/parse_worker.js]): options, the margin below the tip, the dump, its check,
    the parse of every chunk, the merge and the load.  A child process is its main
    function; the workers of a parse touch different files and run one after the other. *)

From S2P Require Import Prelude KeyCodec ValueCodec LevelDb Store Json Startup Parsing Wire AuxPow ChainParams Decoder Connector.
From S2P Require Import RecordFiles Heap ExternalSort AntiJoin SeedStreams Xdmp Dump ValidateChain WorkDir DeriveKeys Loader Seeder.

#[local] Open Scope string_scope.
#[local] Open Scope nat_scope.
#[local] Open Scope list_scope.

(** * Options *)

(** The verification flags are [None] where unset. *)
Record run_args := mkRunArgs {
  ra_seed : seed_args;
  ra_tipSafety : Z;
  ra_allowUndoWindow : bool;
  ra_chunkSize : Z;
  ra_skipDump : bool;
  ra_skipParse : bool;
  ra_verifyChain : option bool;
  ra_verifyMerkle : option bool;
}.

Definition ends_with (suffix s : string) : bool := starts_with (rev_string suffix "") (rev_string s "").

Definition isMainnetNetwork (network : string) : bool := ends_with "-mainnet" network.

(** The flags in effect: chain, merkle. *)
Definition resolveVerifyDefaults (args : run_args) : bool * bool :=
  let mainnet := isMainnetNetwork (ar_network (ra_seed args)) in
  let verifyMerkle := default mainnet (ra_verifyMerkle args) in
  let verifyChain := default mainnet (ra_verifyChain args) in
  (if verifyMerkle then true else verifyChain, verifyMerkle).

Section run.
Context {envs : Environment}.

Definition effectiveTipSafety (tipSafety : Z) (to : option Z) (network : string) : res Z :=
  match to with
  | Some _ => Ok tipSafety
  | None => '(undoBlocks, _) ← resolveUndoBlocks network None; Ok (Z.max tipSafety undoBlocks)
  end.

(** It asks for the window whatever [--to] says. *)
Definition clampTipSafety (args : run_args) : res Z :=
  _ ← resolveUndoBlocks (ar_network (ra_seed args)) None;
  effectiveTipSafety (ra_tipSafety args) (ar_to (ra_seed args)) (ar_network (ra_seed args)).

(** * The parse worker *)

Definition h8 (n : Z) : string := padStart0 8 (to_radix 10 n).

(** [outPaths]: outputs, spends, meta. *)
Definition outPath (stream : string) (firstHeight lastHeight : Z) : string :=
  foldr String.append "" [stream; "-h"; h8 firstHeight; "-h"; h8 lastHeight; ".dat"].

Definition existingDatLooksComplete (file : option bytes) : bool :=
  match file with
  | None => false
  | Some file =>
      let hdr := take HEADER_SIZE file in
      if negb (bool_decide (length hdr = HEADER_SIZE)) then false
      else
        let count := unle (slice 20 28 hdr) in
        let recordSize := unle (slice 28 32 hdr) in
        if bool_decide (0 < recordSize)%Z then bool_decide (len file = 64 + count * recordSize)%Z
        else negb (bool_decide (count = 0%Z))
  end.

Context {node : Node} {hash : TxHash} {servers : RpcServers} {lib : Bitcoinjs}.

(** [main] of the worker over the directory of the parsed streams; it writes under
    temporary names and renames at the end. *)
Definition parse_main (file : bytes) : M (gmap string bytes) unit :=
  reader ← lift_res (openXdmp file);
  let outputs := outPath "outputs" (x_firstHeight reader) (x_lastHeight reader) in
  let spends := outPath "spends" (x_firstHeight reader) (x_lastHeight reader) in
  let meta := outPath "meta" (x_firstHeight reader) (x_lastHeight reader) in
  dir ← (get : M (gmap string bytes) (gmap string bytes));
  if existingDatLooksComplete (dir !! outputs) && existingDatLooksComplete (dir !! spends)
     && existingDatLooksComplete (dir !! meta)
  then mret tt
  else
    let '(blocks, ended) := xdmp_blocks reader in
    p ← lift_res (parseRange (x_chain reader) (x_network reader) (x_firstHeight reader) (x_lastHeight reader) blocks);
    _ ← lift_res ended;
    modify (fun dir => <[meta := p_meta p]> (<[spends := p_spends p]> (<[outputs := p_outputs p]> dir))).

(** * The run *)

Context {DB : Type} {db : LevelDb DB}.

(** The node as the children reach it, the dumps, the work directory and the target. *)
Record run := mkRun { rn_node : connector; rn_dumps : gmap string bytes; rn_dir : work_dir; rn_load : @load DB }.

Abbreviation RM := (M run).

(** A child that fails is an exit code. *)
Definition runChild {S A} (m : M S A) : M S unit := fun s =>
  match m s with (Ok _, s) => (Ok tt, s) | (Err _, s) => (Err (failure "exited with code 1"), s) end.

Definition in_dump {A} (m : DM A) : RM A := fun r =>
  let '(x, d) := m (mkDumper (rn_node r) (rn_dumps r)) in (x, mkRun (dp_node d) (dp_out d) (rn_dir r) (rn_load r)).

Definition in_parsed {A} (m : M (gmap string bytes) A) : RM A := fun r =>
  let d := rn_dir r in
  let '(x, p) := m (wd_parsed d) in
  (x, mkRun (rn_node r) (rn_dumps r) (mkWorkDir p (wd_merge d) (wd_manifests d) (wd_keys d) (wd_queue d) (wd_pressure d)) (rn_load r)).

Definition in_dir {A} (m : WM A) : RM A := fun r =>
  let '(x, d) := m (rn_dir r) in (x, mkRun (rn_node r) (rn_dumps r) d (rn_load r)).

Definition in_load {A} (m : M (@load DB) A) : RM A := fun r =>
  let '(x, l) := m (rn_load r) in (x, mkRun (rn_node r) (rn_dumps r) (rn_dir r) l).

(** The arguments of the dump's process. *)
Definition dumpArgv (args : run_args) (tipSafety : Z) : list string :=
  ["--network"; ar_network (ra_seed args); "--from"; to_radix 10 (ar_from (ra_seed args));
   "--chunk-size"; to_radix 10 (ra_chunkSize args); "--out"; "dumps"]
  ++ match ar_to (ra_seed args) with
     | Some to => ["--to"; to_radix 10 to] ++ (if ra_allowUndoWindow args then ["--allow-undo-window"] else [])
     | None => ["--tip-safety"; to_radix 10 tipSafety]
     end.

Definition phaseDump (args : run_args) (tipSafety : Z) : RM (list bytes) :=
  _ ← in_dump (runChild (dump_main (dumpArgv args tipSafety)));
  gets (fun r => findFiles (rn_dumps r) "blocks-" ".xdmp").

Definition verifyDumpChain (args : run_args) (xdmpFiles : list bytes) : res unit :=
  let '(verifyChain, verifyMerkle) := resolveVerifyDefaults args in
  if verifyChain then
    v ← validateChainFiles xdmpFiles verifyMerkle;
    if vd_ok v then Ok tt else Err (failure "chain-continuity check failed")
  else Ok tt.

(** The dumps are removed afterwards. *)
Definition phaseParse (xdmpFiles : list bytes) : RM unit :=
  _ ← forM xdmpFiles (fun file => in_parsed (runChild (parse_main file)));
  modify (fun r => mkRun (rn_node r) ∅ (rn_dir r) (rn_load r)).

Definition orchestrate (args : run_args) : RM unit :=
  tipSafety ← lift_res (clampTipSafety args);
  xdmpFiles ← (if ra_skipParse args || ra_skipDump args
               then gets (fun r => findFiles (rn_dumps r) "blocks-" ".xdmp")
               else phaseDump args tipSafety);
  _ ← lift_res (verifyDumpChain args xdmpFiles);
  _ ← (if ra_skipParse args then mret tt else phaseParse xdmpFiles);
  _ ← in_dir (phaseMerge (ra_seed args));
  r ← (get : RM run);
  _ ← in_load (phaseLoad (ra_seed args) (rn_dir r));
  mret tt.
End run.
