(* ===== verification/StreamFacts.v ===== *)
(** What the parse of a range leaves in its three files: the outputs created, the spends
    made and the blocks themselves, in chain order, each as its fixed bytes. *)

From S2P Require Import Prelude KeyCodec ValueCodec LevelDb Store Outputs StoreFacts Rollback Parsing Apply Spend Block.
From S2P Require Import Wire AuxPow Decoder RecordFiles SeedStreams.

#[local] Open Scope string_scope.
#[local] Open Scope nat_scope.
#[local] Open Scope list_scope.

(** * Entries of the streams *)

(** A created output. *)
Record born := mkBorn {
  n_txid : bytes; n_vout : Z; n_value : Z; n_height : Z; n_script : bytes; n_block : bytes; n_coinbase : bool }.

Definition born_bytes (x : born) : bytes :=
  n_txid x ++ be 4 (n_vout x) ++ be 8 (n_value x) ++ be 4 (n_height x) ++ n_script x ++ n_block x
  ++ [if n_coinbase x then x01 else x00].

(** The widths of its fields. *)
Record born_ok (x : born) : Prop := {
  bn_txid : hash32 (n_txid x);
  bn_vout : u32 (n_vout x);
  bn_value : u64 (n_value x);
  bn_height : height_ok (n_height x);
  bn_script : hash32 (n_script x);
  bn_block : hash32 (n_block x);
}.

Definition born_op (x : born) : bytes * Z := (n_txid x, n_vout x).

(** A spend: outpoint and spender. *)
Record spent := mkSpent { q_txid : bytes; q_vout : Z; q_spender : bytes }.

Definition spent_bytes (x : spent) : bytes := q_txid x ++ be 4 (q_vout x) ++ q_spender x.
Definition spent_op (x : spent) : bytes * Z := (q_txid x, q_vout x).

Record spent_ok (x : spent) : Prop := { sn_txid : hash32 (q_txid x); sn_vout : u32 (q_vout x); sn_spender : hash32 (q_spender x) }.

Lemma length_born_bytes x : born_ok x -> length (born_bytes x) = OUTPUTS_RECORD_SIZE.
Proof. intros [H1 _ _ _ H2 H3]. unfold born_bytes. rewrite !length_app, !length_be, H1, H2, H3. done. Qed.

Lemma length_spent_bytes x : spent_ok x -> length (spent_bytes x) = SPENDS_RECORD_SIZE.
Proof. intros [H1 _ H2]. unfold spent_bytes. rewrite !length_app, length_be, H1, H2. done. Qed.

Section of_block.
Context {node : Node}.

Definition born_tx (b : block_data) (tx : transaction) : list born :=
  imap (fun i o => mkBorn (txid32 tx) (Z.of_nat i) (to_value o) (bd_height b) (sha256 (to_script o)) (h2b (bd_hash b))
                     (isCoinbaseTransaction tx)) (outs tx).

Definition born_of (b : block_data) : list born := flat_map (born_tx b) (bd_txs b).

Definition spent_tx (tx : transaction) : list spent :=
  (fun i => mkSpent (rev (ti_hash i)) (ti_index i) (txid32 tx)) <$> filter (fun i => skip_input i = false) (ins tx).

Definition spent_of (b : block_data) : list spent := flat_map spent_tx (bd_txs b).

Definition meta_bytes (b : block_data) : bytes :=
  be 4 (bd_height b) ++ be 4 (bd_time b) ++ h2b (bd_hash b) ++ h2b (bd_prev b)
  ++ be 4 (Z.of_nat (length (bd_txs b))) ++ concat (txids b).

Definition meta_of (b : block_data) : meta_block :=
  mkMeta (bd_height b) (bd_time b) (h2b (bd_hash b)) (h2b (bd_prev b)) (txids b).

(** The outputs are those of the live path, *)
Definition born_rec (x : born) : out_rec :=
  mkOut (n_txid x) (n_vout x) (n_script x) (output_val (n_value x) (n_height x) (n_txid x) (n_coinbase x)).

Lemma created_born b : created b = born_rec <$> born_of b.
Proof.
  unfold created, block_created, born_of, tx_created. induction (bd_txs b) as [|tx txs IH]; [done|]. cbn [flat_map]. rewrite fmap_app. f_equal; [|done].
  unfold born_tx. apply list_eq. intros j. rewrite list_lookup_fmap, !list_lookup_imap. by destruct (outs tx !! j).
Qed.

(** and so are the spends. *)
Lemma spent_ops_of b : spent_ops b = spent_op <$> spent_of b.
Proof.
  unfold spent_ops, spends, removeInputs, spent_of. induction (bd_txs b) as [|tx txs IH]; [done|]. cbn [flat_map].
  rewrite fmap_app, <- IH. cbn [mbind list_bind]. rewrite fmap_app. f_equal. unfold spent_tx.
  induction (filter _ (ins tx)) as [|i l IHl]; [done|]. cbn [mbind list_bind fmap list_fmap app]. f_equal; [|exact IHl].
  unfold sp_op, sp_t, spent_op. cbn. unfold prevTxHashHex. by rewrite uint8ArrayToHex_b2h, h2b_b2h.
Qed.

Lemma elem_of_born b x : x ∈ born_of b ->
  exists tx n o, tx ∈ bd_txs b /\ outs tx !! n = Some o
    /\ x = mkBorn (txid32 tx) (Z.of_nat n) (to_value o) (bd_height b) (sha256 (to_script o)) (h2b (bd_hash b)) (isCoinbaseTransaction tx).
Proof.
  unfold born_of. rewrite elem_of_flat_map. intros (tx & Htx & [n Hn]%list_elem_of_lookup). unfold born_tx in Hn.
  rewrite list_lookup_imap in Hn. destruct (outs tx !! n) as [o|] eqn:E; [|done]. injection Hn as <-. by exists tx, n, o.
Qed.

Lemma txid32_hash tx : tx_ok tx -> hash32 (txid32 tx).
Proof. intros H. apply h2b_hash32, H. Qed.

Lemma born_of_ok b x : block_wf b -> x ∈ born_of b -> born_ok x.
Proof.
  intros Hb (tx & n & o & Htx & Ho & ->)%elem_of_born. destruct (bk_txs _ Hb tx Htx) as [Hok _]. split; cbn.
  - by apply txid32_hash.
  - apply lookup_lt_Some in Ho. pose proof (txo_count _ Hok). unfold u32. lia.
  - apply (txo_value _ Hok). by eapply list_elem_of_lookup_2.
  - apply Hb.
  - apply length_sha256.
  - apply h2b_hash32, Hb.
Qed.

Lemma spent_of_ok b x : block_wf b -> x ∈ spent_of b -> spent_ok x.
Proof.
  intros Hb. unfold spent_of. rewrite elem_of_flat_map. intros (tx & Htx & (i & -> & [_ Hi]%list_elem_of_filter)%list_elem_of_fmap).
  destruct (bk_txs _ Hb tx Htx) as [Hok _]. destruct (txo_ins _ Hok i Hi) as [Hh Hx]. split; cbn; [unfold hash32; by rewrite length_rev|done|by apply txid32_hash].
Qed.

Lemma born_height b x : x ∈ born_of b -> n_height x = bd_height b /\ n_block x = h2b (bd_hash b) /\ n_txid x ∈ txids b.
Proof.
  intros (tx & n & o & Htx & _ & ->)%elem_of_born. split_and!; [done..|]. apply list_elem_of_fmap. by exists tx.
Qed.
End of_block.

(** * Writing the streams *)

Lemma reverseBytes32_rev src : hash32 src -> reverseBytes32 src = rev src.
Proof. unfold hash32. intros Hs. do 32 (destruct src as [|? src]; [discriminate Hs|]). by destruct src. Qed.

Lemma copy32_id b : hash32 b -> copy32 b = b.
Proof. intros Hb. apply take_ge. by rewrite Hb. Qed.

Lemma copy32_all l : (forall t, t ∈ l -> hash32 t) -> concat (copy32 <$> l) = concat l.
Proof.
  induction l as [|t l IH]; intros Hl; [done|]. cbn [fmap list_fmap concat]. rewrite copy32_id by (apply Hl; left).
  f_equal. apply IH. intros x Hx. apply Hl. by right.
Qed.

(** [getHash()] is the id in wire order. *)
Class TxHashLaws {node : Node} {hash : TxHash} : Prop := {
  getHash_id : forall tx, tx_ok tx -> getHash tx = rev (txid32 tx);
}.

(** [w'] continues [w] by records. *)
Record wrote (w w' : writer) (l : list bytes) : Prop := {
  wt_contents : contents w' = contents w ++ concat l;
  wt_ok : writer_ok w';
  wt_count : w_count w' = (w_count w + Z.of_nat (length l))%Z;
}.

Lemma wrote_nil w : writer_ok w -> wrote w w [].
Proof. intros Hw. split; [by rewrite app_nil_r|done|cbn; lia]. Qed.

Lemma wrote_app w1 w2 w3 l1 l2 : wrote w1 w2 l1 -> wrote w2 w3 l2 -> wrote w1 w3 (l1 ++ l2).
Proof.
  intros [C1 O1 N1] [C2 O2 N2]. split; [by rewrite C2, C1, concat_app, app_assoc|done|rewrite N2, N1, length_app; lia].
Qed.

Lemma wrote_one write r w : writes_on write -> writer_ok w -> wrote w (write r w) [r].
Proof. intros Hw Ho. destruct (Hw r w Ho) as (C & O & N). split; [by rewrite C; cbn; rewrite app_nil_r|done|by rewrite N]. Qed.

Lemma run_appendOutput x w : born_ok x -> writer_ok w ->
  exists w', appendOutput (n_txid x) (n_vout x) (n_value x) (n_height x) (n_script x) (n_block x) (n_coinbase x) w = Ok w'
    /\ wrote w w' [born_bytes x].
Proof.
  intros Hx Hw. unfold appendOutput, field_u64BE, field_i32BE, field_if.
  rewrite (bool_decide_eq_true_2 (u64 _)) by apply Hx. cbn [mbind res_bind].
  rewrite (bool_decide_eq_true_2 (i32 _)) by apply height_ok_i32, Hx. cbn [mbind res_bind].
  eexists. split; [reflexivity|]. rewrite !copy32_id, ushr0_id by apply Hx.
  replace (n_height x mod 4294967296)%Z with (n_height x) by (rewrite Z.mod_small; [done|]; pose proof (bn_height _ Hx); unfold height_ok in *; lia).
  apply wrote_one; [apply writes_on_advance|done].
Qed.

Lemma run_appendSpend x w : spent_ok x -> writer_ok w -> wrote w (appendSpend (q_txid x) (q_vout x) (q_spender x) w) [spent_bytes x].
Proof.
  intros Hx Hw. unfold appendSpend. rewrite !copy32_id, ushr0_id by apply Hx. apply wrote_one; [apply writes_on_advance|done].
Qed.

Lemma fold_wrote {A} (f : A -> writer -> res writer) (g : A -> list bytes) l : forall w,
  writer_ok w -> (forall a w, a ∈ l -> writer_ok w -> exists w', f a w = Ok w' /\ wrote w w' (g a)) ->
  exists w', fold_res f l w = Ok w' /\ wrote w w' (flat_map g l).
Proof.
  induction l as [|a l IH]; intros w Hw Hf; [exists w; split; [done|by apply wrote_nil]|]. cbn [fold_res flat_map].
  destruct (Hf a w ltac:(left) Hw) as (w1 & -> & H1). cbn [mbind res_bind].
  destruct (IH w1 (wt_ok _ _ _ H1)) as (w2 & E2 & H2); [intros; apply Hf; [by right|done]|].
  exists w2. split; [done|by eapply wrote_app].
Qed.

Section parse.
Context {node : Node} {hash : TxHash} {laws : TxHashLaws}.

Lemma run_appendOutputs b tx w : block_wf b -> tx ∈ bd_txs b -> writer_ok w ->
  exists w', appendOutputs tx (txid32 tx) (bd_height b) (h2b (bd_hash b)) w = Ok w' /\ wrote w w' (born_bytes <$> born_tx b tx).
Proof.
  intros Hb Htx Hw. unfold appendOutputs.
  set (mk := fun '(i, o) => mkBorn (txid32 tx) (Z.of_nat i) (to_value o) (bd_height b) (sha256 (to_script o)) (h2b (bd_hash b)) (isCoinbaseTransaction tx)).
  assert (E : born_tx b tx = mk <$> imap pair (outs tx)).
  { unfold born_tx. apply list_eq. intros j. rewrite list_lookup_fmap, !list_lookup_imap. by destruct (outs tx !! j). }
  assert (Hok : forall io, io ∈ imap pair (outs tx) -> born_ok (mk io)).
  { intros io Hio. apply (born_of_ok b); [done|]. apply elem_of_flat_map. exists tx. split; [done|]. rewrite E. by apply list_elem_of_fmap_2. }
  destruct (fold_wrote (fun '(vout, o) w => appendOutput (txid32 tx) (Z.of_nat vout) (to_value o) (bd_height b) (sha256 (to_script o))
      (h2b (bd_hash b)) (isCoinbaseTransaction tx) w) (fun io => [born_bytes (mk io)]) (imap pair (outs tx)) w Hw) as (w' & E' & Hw').
  - intros [i o] w1 Hio Hw1. exact (run_appendOutput (mk (i, o)) w1 (Hok _ Hio) Hw1).
  - exists w'. split; [exact E'|]. rewrite E. clear -Hw'. replace (born_bytes <$> (mk <$> imap pair (outs tx))) with (flat_map (fun io => [born_bytes (mk io)]) (imap pair (outs tx))); [done|].
    generalize (imap pair (outs tx)) as l. induction l as [|io l IH]; [done|]. cbn [flat_map fmap list_fmap app]. by rewrite IH.
Qed.

Lemma run_appendSpends b tx w : block_wf b -> tx ∈ bd_txs b -> writer_ok w ->
  wrote w (appendSpends (ins tx) (txid32 tx) w) (spent_bytes <$> spent_tx tx).
Proof.
  intros Hb Htx. assert (Hi : forall i, i ∈ ins tx -> hash32 (ti_hash i) /\ u32 (ti_index i)) by (apply (bk_txs _ Hb tx Htx)).
  pose proof (txid32_hash tx ltac:(apply (bk_txs _ Hb tx Htx))) as Ht. unfold appendSpends, spent_tx.
  induction (ins tx) as [|i l IH] in w, Hi |- *; intros Hw; [by apply wrote_nil|]. cbn [foldl].
  destruct (Hi i ltac:(left)) as [Hh Hx]. assert (Hl : forall i, i ∈ l -> hash32 (ti_hash i) /\ u32 (ti_index i)) by (intros; apply Hi; by right).
  destruct (skip_input i) eqn:Es.
  - rewrite filter_cons_False by congruence. by apply IH.
  - rewrite filter_cons_True by done. cbn [fmap list_fmap]. rewrite reverseBytes32_rev by done.
    pose proof (run_appendSpend (mkSpent (rev (ti_hash i)) (ti_index i) (txid32 tx)) w) as Hone. cbn [q_txid q_vout q_spender] in Hone.
    assert (H1 := Hone ltac:(split; cbn; [unfold hash32; by rewrite length_rev|done|done]) Hw).
    eapply (wrote_app _ _ _ [_] _ H1). apply IH; [done|]. apply H1.
Qed.

(** ** The meta stream *)

Definition meta_contents (m : meta_writer) : bytes := m_file m ++ m_buf m.

Lemma meta_contents_ensure n m : meta_contents (ensure n m) = meta_contents m /\ m_count (ensure n m) = m_count m.
Proof.
  unfold ensure, meta_contents, meta_flush. case_bool_decide; [done|]. case_bool_decide; cbn; by rewrite app_nil_r.
Qed.

Record meta_ok (b : block_data) : Prop := { mo_wf : block_wf b; mo_count : u32 (Z.of_nat (length (bd_txs b))) }.

Lemma txids_hash b t : block_wf b -> t ∈ txids b -> hash32 t.
Proof. intros Hb (tx & -> & Htx)%list_elem_of_fmap. apply txid32_hash. by apply (bk_txs _ Hb). Qed.

Lemma run_writeBlock b m : meta_ok b ->
  let m' := writeBlock (bd_height b) (bd_time b) (h2b (bd_hash b)) (h2b (bd_prev b)) (txids b) m in
  meta_contents m' = meta_contents m ++ meta_bytes b /\ m_count m' = (m_count m + 1)%Z.
Proof.
  intros [Hb Hc]. unfold writeBlock. cbn zeta. rewrite !copy32_id by (apply h2b_hash32, Hb).
  assert (Hl : length (txids b) = length (bd_txs b)) by (unfold txids; by rewrite length_fmap).
  rewrite (ushr0_id (bd_height b)) by apply height_ok_u32, Hb. rewrite (ushr0_id (bd_time b)) by apply Hb.
  rewrite Hl, (ushr0_id (Z.of_nat _)) by done.
  destruct (meta_contents_ensure (76 + 32 * Z.of_nat (length (bd_txs b))) m) as [Hm Hn].
  set (m1 := ensure _ m) in *. unfold meta_contents in *. cbn [m_file m_buf m_count]. rewrite Hn. split; [|done].
  rewrite app_assoc, Hm. unfold meta_bytes. do 6 f_equal.
  apply copy32_all. intros t. by apply txids_hash.
Qed.

(** ** A block, and a range *)

(** The three streams after the blocks [bs]. *)
Record streamed (ws ws' : writers) (bs : list block_data) : Prop := {
  sm_outputs : wrote (ws_outputs ws) (ws_outputs ws') (born_bytes <$> flat_map born_of bs);
  sm_spends : wrote (ws_spends ws) (ws_spends ws') (spent_bytes <$> flat_map spent_of bs);
  sm_meta : meta_contents (ws_meta ws') = meta_contents (ws_meta ws) ++ concat (meta_bytes <$> bs);
  sm_count : m_count (ws_meta ws') = (m_count (ws_meta ws) + Z.of_nat (length bs))%Z;
}.

Definition ws_ok (ws : writers) : Prop := writer_ok (ws_outputs ws) /\ writer_ok (ws_spends ws).

Lemma streamed_ok ws ws' bs : streamed ws ws' bs -> ws_ok ws'.
Proof. intros [H1 H2 _ _]. split; [apply H1|apply H2]. Qed.

Lemma streamed_nil ws : ws_ok ws -> streamed ws ws [].
Proof. intros [H1 H2]. split; [by apply wrote_nil..|by rewrite app_nil_r|cbn; lia]. Qed.

Lemma streamed_app ws1 ws2 ws3 bs1 bs2 : streamed ws1 ws2 bs1 -> streamed ws2 ws3 bs2 -> streamed ws1 ws3 (bs1 ++ bs2).
Proof.
  intros [O1 S1 M1 C1] [O2 S2 M2 C2]. split.
  - rewrite flat_map_app, fmap_app. by eapply wrote_app.
  - rewrite flat_map_app, fmap_app. by eapply wrote_app.
  - by rewrite M2, M1, fmap_app, concat_app, app_assoc.
  - rewrite C2, C1, length_app. lia.
Qed.

Lemma run_processTransaction b tx ws : block_wf b -> tx ∈ bd_txs b -> ws_ok ws ->
  exists ws', processTransaction tx (bd_height b) (h2b (bd_hash b)) ws = Ok (txid32 tx, ws')
    /\ wrote (ws_outputs ws) (ws_outputs ws') (born_bytes <$> born_tx b tx)
    /\ wrote (ws_spends ws) (ws_spends ws') (spent_bytes <$> spent_tx tx) /\ ws_meta ws' = ws_meta ws.
Proof.
  intros Hb Htx [Ho Hs]. destruct (bk_txs _ Hb tx Htx) as [Hok _]. unfold processTransaction.
  rewrite getHash_id, reverseBytes32_rev, rev_involutive by (done || (unfold hash32; rewrite length_rev; by apply txid32_hash)).
  destruct (run_appendOutputs b tx (ws_outputs ws) Hb Htx Ho) as (w1 & -> & H1).
  eexists. split; [reflexivity|]. split_and!; [done|by apply (run_appendSpends b)|done].
Qed.

(** The transactions of a block, the meta stream untouched. *)
Lemma run_transactions b txs : forall l ws, block_wf b -> (forall tx, tx ∈ txs -> tx ∈ bd_txs b) -> ws_ok ws ->
  exists ws', fold_res (fun tx '(l, ws) =>
      '(txid, ws) ← processTransaction tx (bd_height b) (h2b (bd_hash b)) ws; Ok (l ++ [txid], ws)) txs (l, ws)
    = Ok (l ++ (txid32 <$> txs), ws')
    /\ wrote (ws_outputs ws) (ws_outputs ws') (born_bytes <$> flat_map (born_tx b) txs)
    /\ wrote (ws_spends ws) (ws_spends ws') (spent_bytes <$> flat_map spent_tx txs) /\ ws_meta ws' = ws_meta ws.
Proof.
  induction txs as [|tx txs IH]; intros l ws Hb Hin Hw.
  { destruct Hw as [Ho Hs]. exists ws. cbn [fmap list_fmap]. rewrite app_nil_r. split_and!; [done|by apply wrote_nil..|done]. }
  cbn [fold_res]. destruct (run_processTransaction b tx ws Hb ltac:(apply Hin; left) Hw) as (ws1 & -> & H1 & H2 & H3). cbn [mbind res_bind].
  destruct (IH (l ++ [txid32 tx]) ws1 Hb) as (ws' & -> & H4 & H5 & H6).
  { intros x Hx. apply Hin. by right. }
  { split; [apply H1|apply H2]. }
  exists ws'. cbn [flat_map fmap list_fmap]. rewrite !fmap_app, <- app_assoc.
  split_and!; [done|by eapply wrote_app..|by rewrite H6].
Qed.

(** A decoded block that stands for [b]. *)
Record lib_of (lb : lib_block) (b : block_data) : Prop := {
  lo_txs : bl_transactions lb = bd_txs b;
  lo_time : bl_timestamp lb = bd_time b;
  lo_prev : bl_prevHash lb = rev (h2b (bd_prev b));
}.

Lemma run_processBlock lb b ws : lib_of lb b -> meta_ok b -> ws_ok ws ->
  exists ws', processBlock lb (bd_height b) (h2b (bd_hash b)) ws = Ok ws' /\ streamed ws ws' [b].
Proof.
  intros [Et Ets Ep] Hm Hw. pose proof (mo_wf _ Hm) as Hb. unfold processBlock. rewrite Et, Ets, Ep.
  rewrite reverseBytes32_rev, rev_involutive by (unfold hash32; rewrite length_rev; apply h2b_hash32, Hb).
  destruct (run_transactions b (bd_txs b) [] ws Hb) as (ws' & -> & H1 & H2 & H3); [done..|]. cbn [mbind res_bind app].
  eexists. split; [reflexivity|]. destruct (run_writeBlock b (ws_meta ws') Hm) as [Hc Hn].
  split; cbn [ws_outputs ws_spends ws_meta flat_map fmap list_fmap concat length].
  - rewrite app_nil_r. exact H1.
  - rewrite app_nil_r. exact H2.
  - rewrite app_nil_r, <- H3. exact Hc.
  - rewrite <- H3. exact Hn.
Qed.

Context {lib : Bitcoinjs}.

(** A dumped block that decodes to [b]. *)
Record carries (wireFormat : string) (d : dumped) (b : block_data) : Prop := {
  ca_height : d_height d = bd_height b;
  ca_hash : d_hash d = h2b (bd_hash b);
  ca_block : exists lb, blockFromBuffer wireFormat (d_bytes d) = Ok lb /\ lib_of lb b;
}.

Lemma run_processBlocks wf ds bs : Forall2 (carries wf) ds bs -> forall ws,
  (forall b, b ∈ bs -> meta_ok b) -> ws_ok ws ->
  exists ws', processBlocks wf ds ws = Ok ws' /\ streamed ws ws' bs.
Proof.
  induction 1 as [|d b ds bs [Eh Ehs (lb & El & Hl)] _ IH]; intros ws Hb Hw; [exists ws; split; [done|by apply streamed_nil]|].
  unfold processBlocks in *. cbn [fold_res]. rewrite El. cbn [mbind res_bind]. rewrite Eh, Ehs.
  destruct (run_processBlock lb b ws Hl ltac:(apply Hb; left) Hw) as (ws1 & -> & H1). cbn [mbind res_bind].
  destruct (IH ws1) as (ws2 & -> & H2); [intros; apply Hb; by right|by eapply streamed_ok|].
  exists ws2. split; [done|]. by apply (streamed_app _ _ _ [b] bs H1).
Qed.
End parse.
