(* ===== verification/ValidateFacts.v ===== *)
(** What the offline check of a dump establishes: a merkle root pins the transactions it
    was computed from, and an accepted dump is a chain of blocks that hash to their hashes,
    pinned by the hash of the last one. *)

From S2P Require Import Prelude KeyCodec ValueCodec LevelDb Store Json Parsing Wire AuxPow ChainParams Decoder Connector.
From S2P Require Import RecordFiles Heap ExternalSort SeedStreams StreamFacts Xdmp ValidateChain.

#[local] Open Scope string_scope.
#[local] Open Scope nat_scope.
#[local] Open Scope list_scope.

Section facts.
Context {node : Node} {hash : TxHash} {lib : Bitcoinjs}.

(** * Collisions *)

(** The digest tells the first inputs from the second ones. *)
Definition no_collision (xs ys : list bytes) : Prop := forall x y, x ∈ xs -> y ∈ ys -> hash256 x = hash256 y -> x = y.

Lemma no_collision_mono xs ys xs' ys' : no_collision xs ys -> xs' ⊆ xs -> ys' ⊆ ys -> no_collision xs' ys'.
Proof. intros H Hx Hy x y Ex Ey. by apply H; [apply Hx|apply Hy]. Qed.

Definition no_collisionb (xs ys : list bytes) : bool :=
  forallb (fun x => forallb (fun y => bool_decide (x = y) || negb (bool_decide (hash256 x = hash256 y))) ys) xs.

Lemma no_collision_dec xs ys : no_collisionb xs ys = true -> no_collision xs ys.
Proof.
  intros H x y Hx Hy E. unfold no_collisionb in H. rewrite forallb_forall in H. apply list_elem_of_In in Hx, Hy. specialize (H x Hx).
  rewrite forallb_forall in H. specialize (H y Hy). apply orb_true_iff in H as [H|H]; [by apply bool_decide_eq_true in H|]. by rewrite bool_decide_eq_true_2 in H.
Qed.

Lemma length_hash256 b : length (hash256 b) = 32.
Proof. apply length_sha256. Qed.

Lemma hashes_inj xs : forall ys, no_collision xs ys -> hash256 <$> xs = hash256 <$> ys -> xs = ys.
Proof.
  induction xs as [|x xs IH]; intros [|y ys] Hc; [done..|]. rewrite !fmap_cons. intros [= E1 E2]. f_equal.
  - apply Hc; [left|left|done].
  - apply IH; [|done]. eapply no_collision_mono; [exact Hc|by intros z Hz; right..].
Qed.

(** * One level *)

Fixpoint level_inputs (level : list bytes) : list bytes :=
  match level with [] => [] | [x] => [x ++ x] | x :: y :: rest => (x ++ y) :: level_inputs rest end.

Lemma pairs_ind {A} (P : list A -> Prop) : P [] -> (forall x, P [x]) -> (forall x y l, P l -> P (x :: y :: l)) -> forall l, P l.
Proof.
  intros H0 H1 H2. assert (H : forall n l, length l <= n -> P l).
  { intros n. induction n as [|n IH]; intros [|x [|y l]] Hl; cbn in Hl; [done|lia|lia|done|done|]. apply H2, IH. lia. }
  intros l. by apply (H (length l)).
Qed.

Lemma level_hashes l : (merkle_level l).1 = hash256 <$> level_inputs l.
Proof.
  induction l as [|x|x y l IH] using pairs_ind; [done|done|]. cbn [merkle_level level_inputs]. destruct (merkle_level l). cbn in *. by rewrite IH.
Qed.

Lemma length_level l : length (level_inputs l) = Nat.div2 (S (length l)).
Proof. induction l as [|x|x y l IH] using pairs_ind; [done|done|]. cbn [level_inputs length Nat.div2]. by rewrite IH. Qed.

Lemma level_mutated x y l : (merkle_level (x :: y :: l)).2 = false -> x <> y /\ (merkle_level l).2 = false.
Proof. cbn [merkle_level]. destruct (merkle_level l) as [nx m]. cbn. intros [H1 H2]%orb_false_iff. by apply bool_decide_eq_false in H1. Qed.

(** Of 32-byte elements with no equal neighbours. *)
Lemma level_pins l1 : forall l2, Forall hash32 l1 -> Forall hash32 l2 -> (merkle_level l1).2 = false -> (merkle_level l2).2 = false ->
  level_inputs l1 = level_inputs l2 -> l1 = l2.
Proof.
  induction l1 as [|x|x y l1 IH] using pairs_ind; intros [|x' [|y' l2]] H1 H2 M1 M2; try done; cbn [level_inputs];
    repeat match goal with H : Forall hash32 (_ :: _) |- _ => apply Forall_cons in H as [? H] end.
  - intros [= E]. apply app_inj_1 in E as [-> _]; [done|]. unfold hash32 in *. congruence.
  - intros [= E _]. apply app_inj_1 in E as [-> ->]; [|unfold hash32 in *; congruence]. by apply level_mutated in M2 as [? _].
  - intros [= E _]. apply app_inj_1 in E as [-> ->]; [|unfold hash32 in *; congruence]. by apply level_mutated in M1 as [? _].
  - intros [= E El]. apply app_inj_1 in E as [-> ->]; [|unfold hash32 in *; congruence]. do 2 f_equal.
    apply level_mutated in M1 as [_ M1]. apply level_mutated in M2 as [_ M2]. by apply IH.
Qed.

(** * All levels *)

(** What is hashed on the way to the root. *)
Fixpoint merkle_inputs (fuel : nat) (level : list bytes) : list bytes :=
  match fuel with
  | O => []
  | S f => if bool_decide (1 < length level) then level_inputs level ++ merkle_inputs f (hash256 <$> level_inputs level) else []
  end.

Lemma log2_up_half n : 1 < n -> Nat.log2_up (Nat.div2 (S n)) = pred (Nat.log2_up n).
Proof.
  intros Hn. pose proof (Nat.log2_up_spec n Hn) as [H1 H2]. pose proof (Nat.log2_up_pos n Hn) as Hp.
  destruct (Nat.log2_up n) as [|[|k]]; [lia| |]; cbn [pred] in *.
  - assert (n = 2) as -> by (cbn in H2; lia). reflexivity.
  - rewrite Nat.pow_succ_r' in H1, H2. rewrite Nat.pow_succ_r' in H2. pose proof (Nat.div2_div (S n)) as Hd.
    apply Nat.log2_up_unique; [lia|]. rewrite Hd. cbn [pred]. rewrite Nat.pow_succ_r'. split; [apply Nat.lt_le_trans with (S (2 ^ k)); [lia|]; apply Nat.div_le_lower_bound; lia|].
    apply Nat.lt_succ_r, Nat.Div0.div_lt_upper_bound. lia.
Qed.

Lemma log2_up_pos_iff n : 1 < n <-> 0 < Nat.log2_up n.
Proof. pose proof (Nat.log2_up_null n). lia. Qed.

Lemma half_shorter n : 1 < n -> Nat.div2 (S n) < n.
Proof. intros Hn. rewrite Nat.div2_div. apply Nat.Div0.div_lt_upper_bound. lia. Qed.

Lemma merkle_levels_unmutated fuel l m r : merkle_levels fuel l m = (r, false) -> m = false.
Proof.
  revert l m. induction fuel as [|f IH]; intros l m; cbn [merkle_levels]; [by intros [= _ ->]|].
  case_bool_decide; [|by intros [= _ ->]]. destruct (merkle_level l) as [nx m']. intros E. apply IH in E. by apply orb_false_iff in E as [-> _].
Qed.

Lemma levels_pin fuel1 : forall fuel2 l1 l2 root, Forall hash32 l1 -> Forall hash32 l2 -> length l1 <= fuel1 -> length l2 <= fuel2 ->
  Nat.log2_up (length l1) = Nat.log2_up (length l2) -> merkle_levels fuel1 l1 false = (Some root, false) -> merkle_levels fuel2 l2 false = (Some root, false) ->
  no_collision (merkle_inputs fuel1 l1) (merkle_inputs fuel2 l2) -> l1 = l2.
Proof.
  induction fuel1 as [|f1 IH]; intros fuel2 l1 l2 root H1 H2 F1 F2 Hd E1 E2 Hc.
  { destruct l1; [discriminate E1|cbn in F1; lia]. }
  destruct fuel2 as [|f2]; [destruct l2; [discriminate E2|cbn in F2; lia]|]. cbn [merkle_levels merkle_inputs] in *.
  destruct (decide (1 < length l1)) as [L1|L1].
  - assert (L2 : 1 < length l2) by (rewrite log2_up_pos_iff, <- Hd; by apply log2_up_pos_iff).
    rewrite bool_decide_eq_true_2 in E1, E2, Hc by done. rewrite bool_decide_eq_true_2 in Hc by done.
    pose proof (level_hashes l1) as A1. pose proof (level_hashes l2) as A2.
    destruct (merkle_level l1) as [n1 m1] eqn:M1. destruct (merkle_level l2) as [n2 m2] eqn:M2. cbn [fst] in A1, A2. subst n1 n2.
    cbn [orb] in E1, E2. pose proof (merkle_levels_unmutated _ _ _ _ E1) as ->. pose proof (merkle_levels_unmutated _ _ _ _ E2) as ->.
    apply level_pins; [done|done|by rewrite M1|by rewrite M2|]. apply hashes_inj.
    { eapply no_collision_mono; [exact Hc|intros z Hz; apply elem_of_app; by left..]. }
    assert (Hh : forall l : list bytes, Forall hash32 (hash256 <$> l)) by (intros l; apply Forall_fmap, Forall_forall; intros z _; apply length_hash256).
    apply (IH f2 _ _ root); [done|done| | | |done|done|].
    + rewrite length_fmap, length_level. pose proof (half_shorter _ L1). lia.
    + rewrite length_fmap, length_level. pose proof (half_shorter _ L2). lia.
    + rewrite !length_fmap, !length_level, !log2_up_half by done. congruence.
    + eapply no_collision_mono; [exact Hc|intros z Hz; apply elem_of_app; by right..].
  - assert (L2 : ~ 1 < length l2) by (rewrite log2_up_pos_iff, <- Hd; by rewrite <- log2_up_pos_iff).
    rewrite bool_decide_eq_false_2 in E1, E2 by done. destruct l1 as [|x [|? ?]]; [done| |cbn in L1; lia]. destruct l2 as [|y [|? ?]]; [done| |cbn in L2; lia].
    cbn in E1, E2. congruence.
Qed.

(** * An accepted dump *)

Definition header_of (d : dumped) : bytes := take HEADER_BYTES (d_bytes d).
Definition prev_of (d : dumped) : bytes := reverse32 (slice PREV_OFF (PREV_OFF + 32) (header_of d)).

(** A block that hashes to its hash, and whose merkle root is its transactions'. *)
Record sound (wireFormat : option string) (d : dumped) : Prop := {
  so_size : HEADER_BYTES <= length (d_bytes d);
  so_hash : reverse32 (hash256 (header_of d)) = d_hash d;
  so_merkle : forall wf, wireFormat = Some wf -> exists block, blockFromBuffer wf (d_bytes d) = Ok block
    /\ computeMerkleRoot (getHash <$> bl_transactions block) = (Some (slice MERKLE_OFF (MERKLE_OFF + 32) (d_bytes d)), false);
}.

Definition follows (d d' : dumped) : Prop := d_height d' = (d_height d + 1)%Z /\ prev_of d' = d_hash d.

Lemma merkle_checked bytes wf : verifyMerkleRoot bytes wf = true -> exists block, blockFromBuffer wf bytes = Ok block
  /\ computeMerkleRoot (getHash <$> bl_transactions block) = (Some (slice MERKLE_OFF (MERKLE_OFF + 32) bytes), false).
Proof.
  unfold verifyMerkleRoot. destruct (blockFromBuffer wf bytes) as [block|]; [|done]. case_bool_decide; [done|].
  destruct (computeMerkleRoot _) as [root m] eqn:E. intros [Hm Hr]%andb_prop. apply bool_decide_eq_true in Hr as ->. destruct m; [done|]. by exists block.
Qed.

Lemma checks_sound wf d prev : block_checks wf d prev = true -> sound wf d
  /\ match prev with None => d_height d = 0%Z -> prev_of d = ZERO32 | Some (h, hash) => d_height d = (h + 1)%Z /\ prev_of d = hash end.
Proof.
  unfold block_checks. fold (header_of d). fold (prev_of d). rewrite !andb_true_iff, !bool_decide_eq_true. intros ((((H1 & H2) & H3) & H4) & H5). split.
  - split; [done|done|]. intros w ->. by apply merkle_checked.
  - unfold verifyBackwardLink in H5. destruct prev as [[h p]|].
    + apply andb_prop in H5 as [E1 E2]. by apply bool_decide_eq_true in E1, E2.
    + intros E. rewrite bool_decide_eq_true_2 in H5 by done. cbn [andb] in H5. by case_bool_decide.
Qed.

(** What [verify_blocks] accepts after a block with this height and hash. *)
Fixpoint linked_after (prev : option (Z * bytes)) (l : list dumped) : Prop :=
  match l with
  | [] => True
  | d :: l =>
      match prev with None => d_height d = 0%Z -> prev_of d = ZERO32 | Some (h, hash) => d_height d = (h + 1)%Z /\ prev_of d = hash end
      /\ linked_after (Some (d_height d, d_hash d)) l
  end.

Lemma verify_blocks_ok wf l ended : forall checked first prev v, verify_blocks wf l ended checked first prev = Ok v -> vd_ok v = true ->
  ended = Ok tt /\ Forall (sound wf) l /\ linked_after prev l /\ vd_blocksChecked v = (checked + Z.of_nat (length l))%Z
  /\ vd_firstHeight v = (match prev, l with None, d :: _ => Some (d_height d) | _, _ => first end)
  /\ vd_lastHeight v = (match last l with Some d => Some (d_height d) | None => fst <$> prev end).
Proof.
  induction l as [|d l IH]; intros checked first prev v; cbn [verify_blocks].
  { destruct ended as [[]|]; [|done]. cbn. intros [= <-] _. split_and!; [done|done|done|cbn; lia|by destruct prev|done]. }
  destruct (block_checks wf d prev) eqn:Ec; cbn [negb]; [|by intros [= <-]]. intros E Hv.
  destruct (checks_sound _ _ _ Ec) as [Hs Hl]. destruct (IH _ _ _ _ E Hv) as (I1 & I2 & I3 & I4 & I5 & I6).
  cbn [linked_after length]. split; [exact I1|]. split; [by apply Forall_cons|]. split; [by split|]. split; [rewrite I4; lia|].
  split; [rewrite I5; by destruct prev|]. rewrite I6. destruct l as [|d' l]; [done|]. cbn [last].
  by destruct (last (d' :: l)) eqn:El; [|apply last_None in El].
Qed.

Lemma linked_follows l : forall prev i d d', linked_after prev l -> l !! i = Some d -> l !! S i = Some d' -> follows d d'.
Proof.
  induction l as [|x l IH]; intros prev i d d' Hl; [done|]. destruct Hl as [_ Hl]. destruct i as [|i]; [|apply (IH _ i d d' Hl)].
  cbn. intros [= ->]. destruct l as [|y l]; [done|]. intros [= ->]. destruct Hl as [Hl _]. done.
Qed.

(** The blocks of the files, in the order of their first heights. *)
Definition dump_of (files : list bytes) (l : list dumped) : Prop := exists readers, map_res openXdmp files = Ok readers
  /\ allBlocks (stable_sort (fun x => be 4 (x_firstHeight x)) readers) = (l, Ok tt).

Lemma accepted files merkle v : validateChainFiles files merkle = Ok v -> vd_ok v = true ->
  exists l wf, dump_of files l /\ Forall (sound wf) l /\ linked_after None l /\ (merkle = true -> is_Some wf)
    /\ vd_blocksChecked v = Z.of_nat (length l) /\ vd_firstHeight v = d_height <$> head l /\ vd_lastHeight v = d_height <$> last l.
Proof.
  unfold validateChainFiles. case_bool_decide; [by intros [= <-]|]. destruct (map_res openXdmp files) as [readers|] eqn:Er; [|done]. cbn [mbind res_bind].
  destruct (contiguous _); cbn [negb]; [|by intros [= <-]].
  destruct (verifyBlockSequence _ _ _) as [w|] eqn:Ev; [|by intros [= <-]]. intros [= ->] Hv. unfold verifyBlockSequence in Ev.
  destruct (allBlocks _) as [l ended] eqn:El. cbn [fst snd] in Ev.
  assert (Hwf : exists wf, (merkle = true -> is_Some wf) /\ verify_blocks wf l ended 0 None None = Ok v).
  { destruct merkle; [|by exists None]. destruct (newDecoder _) as [wf|]; [|done]. exists (Some wf). split; [by eexists|exact Ev]. }
  clear Ev. destruct Hwf as (wf & Hm & E). destruct (verify_blocks_ok _ _ _ _ _ _ _ E Hv) as (-> & H2 & H3 & H4 & H5 & H6).
  exists l, wf. split_and!; [by exists readers|done|done|done|by rewrite H4, Z.add_0_l|rewrite H5; by destruct l|rewrite H6; by destruct (last l)].
Qed.

(** ** Pinned by the last hash *)

Lemma reverse32_inj a b : length a = 32 -> length b = 32 -> reverse32 a = reverse32 b -> a = b.
Proof. intros Ha Hb. unfold reverse32. rewrite !reverseBytes32_rev by done. apply rev_inj. Qed.

Lemma rev_lookup_last {A} (l : list A) i x : reverse l !! i = Some x -> l !! (length l - S i) = Some x /\ i < length l.
Proof. by intros [? ?]%reverse_lookup_Some. Qed.

Lemma pinned wf1 wf2 l1 l2 : Forall (sound wf1) l1 -> Forall (sound wf2) l2 -> linked_after None l1 -> linked_after None l2 ->
  d_hash <$> last l1 = d_hash <$> last l2 -> no_collision (header_of <$> l1) (header_of <$> l2) ->
  forall i d1 d2, reverse l1 !! i = Some d1 -> reverse l2 !! i = Some d2 -> d_hash d1 = d_hash d2 /\ header_of d1 = header_of d2.
Proof.
  intros S1 S2 L1 L2 Hlast Hc. assert (Hheader : forall d1 d2, d1 ∈ l1 -> d2 ∈ l2 -> d_hash d1 = d_hash d2 -> header_of d1 = header_of d2).
  { intros d1 d2 H1 H2 E. rewrite Forall_forall in S1, S2. rewrite <- (so_hash _ _ (S1 d1 H1)), <- (so_hash _ _ (S2 d2 H2)) in E.
    apply reverse32_inj in E; [|apply length_hash256..]. apply Hc; [by apply list_elem_of_fmap_2..|done]. }
  induction i as [|i IH]; intros d1 d2 E1 E2.
  - apply rev_lookup_last in E1 as [E1 _]. apply rev_lookup_last in E2 as [E2 _].
    assert (Hh : d_hash d1 = d_hash d2).
    { rewrite !last_lookup in Hlast. replace (length l1 - 1) with (pred (length l1)) in E1 by lia. replace (length l2 - 1) with (pred (length l2)) in E2 by lia.
      rewrite E1, E2 in Hlast. by injection Hlast. }
    split; [done|]. apply Hheader; [by eapply list_elem_of_lookup_2..|done].
  - apply rev_lookup_last in E1 as [E1 N1]. apply rev_lookup_last in E2 as [E2 N2].
    assert (Hn : forall l : list dumped, S i < length l -> exists d, reverse l !! i = Some d /\ l !! S (length l - S (S i)) = Some d).
    { intros l Hl. destruct (reverse l !! i) as [d|] eqn:E; [|apply lookup_ge_None in E; rewrite length_reverse in E; lia]. exists d. split; [done|].
      apply rev_lookup_last in E as [E _]. by replace (S (length l - S (S i))) with (length l - S i) by lia. }
    destruct (Hn l1 N1) as (y1 & Y1 & F1). destruct (Hn l2 N2) as (y2 & Y2 & F2). destruct (IH y1 y2 Y1 Y2) as [_ Hh].
    destruct (linked_follows _ _ _ _ _ L1 E1 F1) as [_ P1]. destruct (linked_follows _ _ _ _ _ L2 E2 F2) as [_ P2].
    assert (Hd : d_hash d1 = d_hash d2) by (rewrite <- P1, <- P2; unfold prev_of; by rewrite Hh).
    split; [done|]. apply Hheader; [by eapply list_elem_of_lookup_2..|done].
Qed.

Lemma dump_of_fun files l l' : dump_of files l -> dump_of files l' -> l = l'.
Proof. intros (r & Er & El) (r' & Er' & El'). rewrite Er in Er'. injection Er' as <-. rewrite El in El'. by injection El'. Qed.

(** The root a header names, read from the block. *)
Lemma header_root d : slice MERKLE_OFF (MERKLE_OFF + 32) (header_of d) = slice MERKLE_OFF (MERKLE_OFF + 32) (d_bytes d).
Proof. unfold slice, header_of. rewrite skipn_firstn_comm, take_take. reflexivity. Qed.

Definition txids_of (b : lib_block) : list bytes := getHash <$> bl_transactions b.

(** Two merkle trees over txids that can be told apart by nothing but a collision. *)
Record comparable (ids1 ids2 : list bytes) : Prop := {
  cm_first : Forall hash32 ids1;
  cm_second : Forall hash32 ids2;
  cm_depth : Nat.log2_up (length ids1) = Nat.log2_up (length ids2);
  cm_collision : no_collision (merkle_inputs (length ids1) ids1) (merkle_inputs (length ids2) ids2);
}.

Lemma root_pins ids1 ids2 root : computeMerkleRoot ids1 = (Some root, false) -> computeMerkleRoot ids2 = (Some root, false) ->
  comparable ids1 ids2 -> ids1 = ids2.
Proof. intros E1 E2 [H1 H2 H3 H4]. by apply (levels_pin (length ids1) (length ids2) ids1 ids2 root). Qed.
End facts.
