(* ===== verification/RangeFacts.v ===== *)
(** The files of parsed ranges: their headers, their concatenation, and the blocks the
    meta reader yields again. *)

From S2P Require Import Prelude KeyCodec ValueCodec LevelDb Store Outputs StoreFacts Rollback Parsing Apply Spend Block.
From S2P Require Import Wire AuxPow Decoder RecordFiles SeedStreams StreamFacts.

#[local] Open Scope string_scope.
#[local] Open Scope nat_scope.
#[local] Open Scope list_scope.

(** * Headers *)

Definition net_codes (chain netName : string) (c n : Z) : Prop := CHAIN_CODES chain = Some c /\ NETWORK_CODES netName = Some n.

Definition header_fields (magic : bytes) (c n first last count recordSize : Z) : list bytes :=
  [magic; [byte_of_Z c]; [byte_of_Z n]; le 2 FILE_VERSION; le 4 first; le 4 last; le 8 count; le 4 recordSize; zeros 32].

Definition dat_header (magic : bytes) (c n first last count recordSize : Z) : bytes :=
  concat (header_fields magic c n first last count recordSize).

Definition magic8 (magic : bytes) : Prop := length magic = 8.

Lemma length_le n v : length (le n v) = n.
Proof. unfold le. by rewrite length_rev, length_be. Qed.

Ltac offsets Hm := cbn [take header_fields concat]; rewrite ?length_app, ?length_le, ?Hm; reflexivity.

Lemma length_dat_header magic c n first last count rs : magic8 magic -> length (dat_header magic c n first last count rs) = HEADER_SIZE.
Proof. intros Hm. unfold dat_header. offsets Hm. Qed.

Lemma run_writeHeader magic chain netName c n first last rs :
  net_codes chain netName c n -> u32 first -> u32 last -> u32 rs ->
  writeHeader magic chain netName first last rs = Ok (dat_header magic c n first last 0 rs).
Proof.
  intros [Hc Hn] Hf Hl Hr. unfold writeHeader, field_u32LE, field_if. rewrite Hc, Hn, !bool_decide_eq_true_2 by done.
  reflexivity.
Qed.

Section fields.
Context (magic : bytes) (c n first last count rs : Z) (body : bytes).
Context (Hm : magic8 magic).

Abbreviation fields := (header_fields magic c n first last count rs).
Abbreviation file := (dat_header magic c n first last count rs ++ body).

Lemma patch_count v : buf_write file 20 (le 8 v) = dat_header magic c n first last v rs ++ body.
Proof. apply (patch_field fields 6 (le 8 count)); [done|by rewrite !length_le|offsets Hm]. Qed.

Lemma patch_last v : buf_write file 16 (le 4 v) = dat_header magic c n first v count rs ++ body.
Proof. apply (patch_field fields 5 (le 4 last)); [done|by rewrite !length_le|offsets Hm]. Qed.

Lemma header_magic : take 8 file = magic.
Proof. pose proof (slice_field fields 0 magic body 0 eq_refl eq_refl) as E. by rewrite Hm in E. Qed.

Lemma header_field i f a b : fields !! i = Some f -> length (concat (take i fields)) = a -> a + length f = b -> slice a b file = f.
Proof. intros Hi Ha <-. by apply (slice_field fields i). Qed.

Lemma header_chain : slice 8 9 file = [byte_of_Z c].
Proof. apply (header_field 1); [done|offsets Hm|done]. Qed.

Lemma header_net : slice 9 10 file = [byte_of_Z n].
Proof. apply (header_field 2); [done|offsets Hm|done]. Qed.

Lemma header_first : slice 12 16 file = le 4 first.
Proof. apply (header_field 4); [done|offsets Hm|by rewrite length_le]. Qed.

Lemma header_last : slice 16 20 file = le 4 last.
Proof. apply (header_field 5); [done|offsets Hm|by rewrite length_le]. Qed.

Lemma header_count : slice 20 28 file = le 8 count.
Proof. apply (header_field 6); [done|offsets Hm|by rewrite length_le]. Qed.

Lemma header_recordSize : slice 28 32 file = le 4 rs.
Proof. apply (header_field 7); [done|offsets Hm|by rewrite length_le]. Qed.

Lemma take_header : take HEADER_SIZE file = dat_header magic c n first last count rs.
Proof. apply take_app_length'. by rewrite length_dat_header. Qed.

Lemma drop_header : drop HEADER_SIZE file = body.
Proof. apply drop_app_length'. by rewrite length_dat_header. Qed.
End fields.

(** * A range *)

(** A parse stream of one or more ranges: its heights, its record count, its records. *)
Record piece := mkPiece { pc_first : Z; pc_last : Z; pc_count : Z; pc_body : bytes }.

Definition piece_file (magic : bytes) (c n rs : Z) (p : piece) : bytes :=
  dat_header magic c n (pc_first p) (pc_last p) (pc_count p) rs ++ pc_body p.

Lemma run_close_stream w w' l magic c n first last rs : magic8 magic ->
  w = new_writer (dat_header magic c n first last 0 rs) -> wrote w w' l -> u64 (Z.of_nat (length l)) ->
  close_stream w' = Ok (piece_file magic c n rs (mkPiece first last (Z.of_nat (length l)) (concat l))).
Proof.
  intros Hm -> [Hc Ho Hn] Hl. unfold close_stream, backfillRecordCount, field_u64LE, field_if. rewrite Hn. cbn [w_count new_writer].
  rewrite Z.add_0_l, bool_decide_eq_true_2 by done. cbn [mbind res_bind]. rewrite close_contents, Hc by done.
  unfold contents, new_writer. cbn [w_file w_buf]. rewrite app_nil_r. by rewrite patch_count.
Qed.

Section range.
Context {node : Node} {hash : TxHash} {laws : TxHashLaws} {lib : Bitcoinjs}.

Definition outputs_piece (first last : Z) (bs : list block_data) : piece :=
  mkPiece first last (Z.of_nat (length (flat_map born_of bs))) (concat (born_bytes <$> flat_map born_of bs)).
Definition spends_piece (first last : Z) (bs : list block_data) : piece :=
  mkPiece first last (Z.of_nat (length (flat_map spent_of bs))) (concat (spent_bytes <$> flat_map spent_of bs)).
Definition meta_piece (first last : Z) (bs : list block_data) : piece :=
  mkPiece first last (Z.of_nat (length bs)) (concat (meta_bytes <$> bs)).

Definition counts_ok (bs : list block_data) : Prop :=
  u64 (Z.of_nat (length (flat_map born_of bs))) /\ u64 (Z.of_nat (length (flat_map spent_of bs))) /\ u64 (Z.of_nat (length bs)).

Definition parsed_of (c n first last : Z) (bs : list block_data) : parsed :=
  mkParsed (piece_file MAGIC_OUTPUTS c n 113 (outputs_piece first last bs)) (piece_file MAGIC_SPENDS c n 68 (spends_piece first last bs))
           (piece_file MAGIC_META c n 0 (meta_piece first last bs)).

Lemma run_parseRange wf chain netName c n first last ds bs :
  newDecoder (String.append chain (String.append "-" netName)) = Ok wf -> net_codes chain netName c n ->
  u32 first -> u32 last -> Forall2 (carries wf) ds bs -> (forall b, b ∈ bs -> meta_ok b) -> counts_ok bs ->
  parseRange chain netName first last ds = Ok (parsed_of c n first last bs).
Proof.
  intros Hd Hc Hf Hl Hds Hb (Ho & Hs & Hm). unfold parseRange. rewrite Hd. cbn [mbind res_bind].
  rewrite !(run_writeHeader _ _ _ c n) by done. cbn [mbind res_bind].
  set (ws := mkWriters _ _ _). destruct (run_processBlocks wf ds bs Hds ws Hb) as (ws' & -> & [H1 H2 H3 H4]).
  { split; apply writer_ok_new. }
  cbn [mbind res_bind]. unfold finishOutputs.
  rewrite (run_close_stream _ _ _ MAGIC_OUTPUTS c n first last 113 eq_refl eq_refl H1) by by rewrite length_fmap.
  rewrite (run_close_stream _ _ _ MAGIC_SPENDS c n first last 68 eq_refl eq_refl H2) by by rewrite length_fmap.
  cbn [mbind res_bind]. unfold close_meta, backfillRecordCount, field_u64LE, field_if. cbn [m_count m_file meta_flush].
  assert (E4 : m_count (ws_meta ws') = Z.of_nat (length bs)) by (rewrite H4; apply Z.add_0_l).
  assert (E3 : m_file (ws_meta ws') ++ m_buf (ws_meta ws') = dat_header MAGIC_META c n first last 0 0 ++ concat (meta_bytes <$> bs)).
  { change (m_file (ws_meta ws') ++ m_buf (ws_meta ws')) with (meta_contents (ws_meta ws')). rewrite H3. unfold meta_contents, ws.
    cbn [ws_meta m_file m_buf new_meta_writer]. by rewrite app_nil_r. }
  rewrite E4, E3, bool_decide_eq_true_2 by done. cbn [mbind res_bind]. rewrite (patch_count MAGIC_META) by done.
  unfold parsed_of, outputs_piece, spends_piece, meta_piece. by rewrite !length_fmap.
Qed.
End range.

(** * Concatenation *)

(** Pieces that follow one another after height [prev]; 0 records means no body. *)
Fixpoint pieces_ok (prev : option Z) (ps : list piece) : Prop :=
  match ps with
  | [] => True
  | p :: ps =>
      u32 (pc_first p) /\ u32 (pc_last p) /\ u64 (pc_count p) /\ (pc_first p <= pc_last p)%Z
      /\ (pc_count p = 0%Z -> pc_body p = []) /\ (forall h, prev = Some h -> pc_first p = (h + 1)%Z) /\ pieces_ok (Some (pc_last p)) ps
  end.

Definition total_count (ps : list piece) : Z := foldr (fun p t => (pc_count p + t)%Z) 0%Z ps.

Definition join_pieces (p : piece) (ps : list piece) : piece :=
  mkPiece (pc_first p) (pc_last (List.last ps p)) (total_count (p :: ps)) (concat (pc_body <$> p :: ps)).

Section concat.
Context (magic : bytes) (c n rs : Z).
Context (Hm : magic8 magic).

Definition piece_header : file_header := mkHdr magic (unle [byte_of_Z c]) (unle [byte_of_Z n]) (unle (le 4 rs)).

Lemma read_piece_header p : u32 (pc_first p) -> u32 (pc_last p) -> u64 (pc_count p) ->
  readHeaderFields (take HEADER_SIZE (piece_file magic c n rs p)) = (piece_header, pc_count p, pc_first p, pc_last p).
Proof.
  intros Hf Hl Hc. unfold piece_file. rewrite take_header by done. rewrite <- (app_nil_r (dat_header _ _ _ _ _ _ _)).
  unfold readHeaderFields. rewrite header_magic, header_chain, header_net, header_first, header_last, header_count, header_recordSize by done.
  by rewrite (unle_le 8 (pc_count p)), (unle_le 4 (pc_first p)), (unle_le 4 (pc_last p)) by done.
Qed.

Lemma run_concatOne p st :
  u32 (pc_first p) -> u32 (pc_last p) -> u64 (pc_count p) -> (pc_count p = 0%Z -> pc_body p = []) ->
  (forall h, ct_first st = Some h -> h = piece_header) ->
  (forall h, ct_prevLast st = Some h -> is_Some (ct_first st) -> pc_first p = (h + 1)%Z) ->
  concatOne (piece_file magic c n rs p) st
  = Ok (mkConcat (ct_out st ++ (if ct_first st then pc_body p else piece_file magic c n rs p)) (Some piece_header) (Some (pc_last p))
          (ct_total st + pc_count p) (Z.max (ct_maxLast st) (pc_last p))).
Proof.
  intros Hf Hl Hc Hb Hfirst Hprev. unfold concatOne.
  assert (Hlen : length (piece_file magic c n rs p) = HEADER_SIZE + length (pc_body p)).
  { unfold piece_file. by rewrite length_app, length_dat_header. }
  rewrite bool_decide_eq_false_2 by lia. unfold checkInputHeader. rewrite read_piece_header by done. cbv zeta beta iota.
  assert (Emax : (if bool_decide (ct_maxLast st < pc_last p)%Z then pc_last p else ct_maxLast st) = Z.max (ct_maxLast st) (pc_last p))
    by (case_bool_decide; lia).
  assert (E0 : bool_decide (pc_count p = 0%Z) && negb (bool_decide (length (piece_file magic c n rs p) = HEADER_SIZE)) = false).
  { destruct (bool_decide_reflect (pc_count p = 0%Z)) as [E|E]; [|done]. rewrite Hlen, (Hb E), bool_decide_eq_true_2 by apply Nat.add_0_r. done. }
  rewrite E0.
  destruct (ct_first st) as [h|] eqn:Ef.
  - rewrite (Hfirst h eq_refl). rewrite (bool_decide_eq_true_2 (piece_header = piece_header)) by done. cbn [negb].
    assert (E1 : (match ct_prevLast st with Some p0 => bool_decide (pc_first p = (p0 + 1)%Z) | None => true end) = true).
    { destruct (ct_prevLast st) as [q|]; [|done]. apply bool_decide_eq_true. apply Hprev; [done|by eexists]. }
    rewrite E1. cbn [negb mbind res_bind default]. unfold piece_file at 1. rewrite drop_header by done. rewrite Emax. done.
  - cbn [mbind res_bind default]. rewrite drop_0, Emax. done.
Qed.

Lemma last_shift {A} (x : A) l d : List.last (x :: l) d = List.last l x.
Proof. induction l as [|y l IH] in x, d |- *; [done|]. change (List.last (y :: l) d = List.last (y :: l) x). by rewrite !IH. Qed.

Lemma run_concat_rest ps : forall st h,
  ct_first st = Some piece_header -> ct_prevLast st = Some h -> (0 <= h)%Z -> ct_maxLast st = h -> pieces_ok (Some h) ps ->
  fold_res concatOne (piece_file magic c n rs <$> ps) st
  = Ok (mkConcat (ct_out st ++ concat (pc_body <$> ps)) (Some piece_header)
          (Some (List.last (pc_last <$> ps) h)) (ct_total st + total_count ps) (List.last (pc_last <$> ps) h)).
Proof.
  induction ps as [|p ps IH]; intros st h Hf Hp Hh Hx Hok.
  - cbn. rewrite app_nil_r, Z.add_0_r. destruct st. cbn in *. by subst.
  - destruct Hok as (H1 & H2 & H3 & H4 & H5 & H6 & H7). cbn [fmap list_fmap fold_res].
    rewrite run_concatOne; [|done|done|done|done|rewrite Hf; by intros ? [= <-]|intros q Hq _; apply H6; congruence].
    cbn [mbind res_bind]. rewrite Hf. pose proof (H6 h eq_refl). rewrite (Z.max_r (ct_maxLast st)) by lia.
    rewrite (IH _ (pc_last p)); [|done|done|cbn in *; lia|done|done]. cbn [ct_out ct_total concat]. rewrite <- app_assoc, <- Z.add_assoc.
    by rewrite last_shift.
Qed.

(** Ranges in height order concatenate to the range of all their blocks. *)
Lemma run_concatFiles p ps :
  pieces_ok None (p :: ps) -> u64 (total_count (p :: ps)) ->
  concatFilesWithHeader (piece_file magic c n rs <$> p :: ps) = Ok (piece_file magic c n rs (join_pieces p ps)).
Proof.
  intros (H1 & H2 & H3 & H4 & H5 & _ & H7) Ht. unfold concatFilesWithHeader. rewrite bool_decide_eq_false_2 by done.
  cbn [fmap list_fmap fold_res]. rewrite run_concatOne by done. cbn [mbind res_bind ct_out ct_first ct_total ct_maxLast ct_prevLast app].
  rewrite Z.max_r by (unfold u32 in *; lia). rewrite (run_concat_rest ps _ (pc_last p)); [|done|done|unfold u32 in *; lia|done|done].
  cbn [mbind res_bind ct_out ct_total ct_maxLast]. unfold patchOutputHeader, field_u32LE, field_u64LE, field_if.
  assert (El : List.last (pc_last <$> ps) (pc_last p) = pc_last (List.last ps p)).
  { clear. induction ps as [|q ps IH] in p |- *; [done|]. cbn [fmap list_fmap]. rewrite !last_shift. apply IH. }
  rewrite El. assert (Hu : u32 (pc_last (List.last ps p))).
  { clear -H2 H7. revert H2 H7. generalize (Some (pc_last p)) at 1. induction ps as [|q ps IH] in p |- *; intros o H2 H7; [done|].
    destruct H7 as (_ & ? & _ & _ & _ & _ & H7). rewrite last_shift. by apply (IH q (Some (pc_last q))). }
  rewrite !bool_decide_eq_true_2 by done. cbn [mbind res_bind]. unfold piece_file at 1. rewrite <- app_assoc, patch_last, patch_count by done.
  unfold piece_file, join_pieces. cbn [pc_first pc_last pc_count pc_body fmap list_fmap concat]. done.
Qed.
End concat.

(** * Reading the blocks back *)

Section meta.
Context {node : Node}.

Definition meta_fields (b : block_data) : list bytes :=
  [be 4 (bd_height b); be 4 (bd_time b); h2b (bd_hash b); h2b (bd_prev b); be 4 (Z.of_nat (length (bd_txs b)))] ++ txids b.

Lemma meta_bytes_fields b : meta_bytes b = concat (meta_fields b).
Proof. unfold meta_bytes, meta_fields. rewrite concat_app. cbn [concat]. rewrite app_nil_r. by rewrite <- !app_assoc. Qed.

Lemma meta_offset b i : block_wf b -> i <= length (bd_txs b) -> length (concat (take (5 + i) (meta_fields b))) = MIN_RECORD_SIZE + META_TXID_SIZE * i.
Proof.
  intros Hb Hi. unfold meta_fields. rewrite take_app_ge by (cbn; lia). rewrite concat_app. cbn [concat length].
  replace (5 + i - 5) with i by lia. rewrite !length_app, !length_be, (h2b_hash32 _ (bk_hash _ Hb)), (h2b_hash32 _ (bk_prev _ Hb)).
  rewrite (length_concat_sized 32).
  - rewrite length_take_le; [cbn [length]; unfold MIN_RECORD_SIZE, META_TXID_SIZE; lia|]. unfold txids. by rewrite length_fmap.
  - intros t (j & Ht%list_elem_of_lookup_2 & _)%elem_of_take. by apply (txids_hash b).
Qed.

Lemma length_meta_bytes b : block_wf b -> length (meta_bytes b) = MIN_RECORD_SIZE + META_TXID_SIZE * length (bd_txs b).
Proof.
  intros Hb. rewrite meta_bytes_fields, <- (meta_offset b _ Hb (le_n _)). f_equal. f_equal. symmetry. apply take_ge.
  unfold meta_fields. rewrite length_app. unfold txids. by rewrite length_fmap.
Qed.

Lemma read_meta_field b i f a z rest : block_wf b -> meta_fields b !! i = Some f ->
  length (concat (take i (meta_fields b))) = a -> a + length f = z -> slice a z (meta_bytes b ++ rest) = f.
Proof. intros Hb Hi Ha <-. rewrite meta_bytes_fields. by apply (slice_field _ i). Qed.

Lemma read_txid b i t rest : block_wf b -> txids b !! i = Some t ->
  slice (MIN_RECORD_SIZE + META_TXID_SIZE * i) (MIN_RECORD_SIZE + META_TXID_SIZE * i + META_TXID_SIZE) (meta_bytes b ++ rest) = t.
Proof.
  intros Hb Hi. pose proof (lookup_lt_Some _ _ _ Hi) as Hlt. unfold txids in Hlt. rewrite length_fmap in Hlt.
  apply (read_meta_field b (5 + i)); [done|exact Hi|apply meta_offset; [done|lia]|].
  rewrite (txids_hash b t Hb); [done|]. by eapply list_elem_of_lookup_2.
Qed.

(** The offset of a metadata field is the length of the fields before it. *)
Ltac at_offset H1 H2 := unfold meta_fields; cbn [app take concat]; rewrite ?length_app, ?length_be, ?H1, ?H2; reflexivity.

Lemma run_metaBlocks bs : forall fuel acc, (forall b, b ∈ bs -> meta_ok b) -> length bs < fuel ->
  metaBlocks fuel (concat (meta_bytes <$> bs)) acc = Ok (acc ++ (meta_of <$> bs)).
Proof.
  induction bs as [|b bs IH]; intros fuel acc Hok Hf; destruct fuel as [|f]; cbn [length] in *; try lia; [by cbn; rewrite app_nil_r|].
  cbn [fmap list_fmap concat metaBlocks]. destruct (Hok b ltac:(left)) as [Hb Hc]. set (rest := concat (meta_bytes <$> bs)).
  assert (Hl : length (meta_bytes b ++ rest) = MIN_RECORD_SIZE + META_TXID_SIZE * length (bd_txs b) + length rest) by (rewrite length_app, length_meta_bytes by done; lia).
  rewrite bool_decide_eq_false_2 by (intros E; rewrite E in Hl; cbn in Hl; lia).
  rewrite bool_decide_eq_false_2 by lia.
  pose proof (h2b_hash32 _ (bk_hash _ Hb)) as H1. pose proof (h2b_hash32 _ (bk_prev _ Hb)) as H2.
  assert (E : forall i f a z, meta_fields b !! i = Some f -> length (concat (take i (meta_fields b))) = a -> a + length f = z ->
    slice a z (meta_bytes b ++ rest) = f) by (intros; by eapply read_meta_field).
  rewrite (E 4 (be 4 (Z.of_nat (length (bd_txs b)))) 72 76) by (done || at_offset H1 H2). rewrite (unbe_be4 (Z.of_nat _)) by done.
  rewrite bool_decide_eq_false_2 by (unfold len; rewrite Hl; lia).
  rewrite (E 0 (be 4 (bd_height b)) 0 4) by (done || at_offset H1 H2). rewrite (E 1 (be 4 (bd_time b)) 4 8) by (done || at_offset H1 H2).
  rewrite (E 2 (h2b (bd_hash b)) 8 40) by (done || at_offset H1 H2). rewrite (E 3 (h2b (bd_prev b)) 40 72) by (done || at_offset H1 H2).
  rewrite !unbe_be4 by (apply height_ok_u32, Hb || apply Hb). rewrite Nat2Z.id.
  assert (Et : (fun i => slice (MIN_RECORD_SIZE + META_TXID_SIZE * i) (MIN_RECORD_SIZE + META_TXID_SIZE * i + META_TXID_SIZE) (meta_bytes b ++ rest))
      <$> seq 0 (length (bd_txs b)) = txids b).
  { apply list_eq. intros i. rewrite list_lookup_fmap. destruct (decide (i < length (bd_txs b))) as [Hi|Hi].
    - rewrite lookup_seq_lt by done. cbn [fmap option_fmap option_map].
      destruct (lookup_lt_is_Some_2 (txids b) i) as [t Ht]; [unfold txids; by rewrite length_fmap|]. rewrite Ht. f_equal. by apply read_txid.
    - rewrite lookup_seq_ge by lia. symmetry. apply lookup_ge_None_2. unfold txids. rewrite length_fmap. lia. }
  rewrite Et. replace (Z.to_nat _) with (length (meta_bytes b)) by (rewrite length_meta_bytes by done; lia).
  rewrite drop_app_length, IH; [|intros; apply Hok; by right|lia]. by rewrite <- app_assoc.
Qed.

Lemma run_readMeta c n first last bs : (forall b, b ∈ bs -> meta_ok b) -> u64 (Z.of_nat (length bs)) ->
  readMeta (piece_file MAGIC_META c n 0 (meta_piece first last bs)) = Ok (meta_of <$> bs).
Proof.
  intros Hok Hu. unfold readMeta, piece_file. cbn [pc_first pc_last pc_count pc_body meta_piece].
  rewrite bool_decide_eq_false_2 by (rewrite length_app, (length_dat_header MAGIC_META) by done; lia).
  rewrite header_magic, bool_decide_eq_true_2 by done. cbn [negb]. rewrite drop_header, header_count by done. rewrite (unle_le 8 (Z.of_nat _)) by done.
  rewrite run_metaBlocks; [|done|].
  - cbn [mbind res_bind app]. rewrite length_fmap, bool_decide_eq_true_2 by done. done.
  - rewrite length_app, (length_dat_header MAGIC_META) by done. enough (length bs <= length (concat (meta_bytes <$> bs))) by lia.
    clear -Hok. induction bs as [|b bs IH]; [done|]. cbn [fmap list_fmap concat length]. rewrite length_app, length_meta_bytes by (apply Hok; left).
    assert (length bs <= length (concat (meta_bytes <$> bs))) by (apply IH; intros; apply Hok; by right). unfold MIN_RECORD_SIZE. lia.
Qed.
End meta.
