(* ===== verification/SeedChain.v ===== *)
(** The records of a chain indexed from an empty store, one kind of record at a time:
    which blocks, outputs and scripts each of them comes from. *)

From S2P Require Import Prelude KeyCodec LevelDb ValueCodec Store Outputs StoreFacts Rollback Parsing Apply Spend Block Roundtrip Tracker Window Reorg.
From S2P Require Import SyncLoop Batch Chain Forward Indexing Utxo Undo Startup Wire AuxPow Decoder RecordFiles Heap ExternalSort SeedStreams WorkDir.
From S2P Require Import DeriveKeys Loader LoadFacts StreamFacts.

#[local] Open Scope string_scope.
#[local] Open Scope nat_scope.
#[local] Open Scope list_scope.

Section chain.
Context {node : Node}.
Implicit Types (bs : list block_data) (b : block_data) (x : born).

Definition all_born bs : list born := flat_map born_of bs.
Definition all_spent bs : list spent := flat_map spent_of bs.
Definition all_txids bs : list bytes := flat_map txids bs.

(** What consensus says of a chain from the first block on: blocks and transactions are
    distinct, an output is spent once, in the block that creates it or later. *)
Record valid_chain bs : Prop := {
  vc_blocks : forall b, b ∈ bs -> block_wf b;
  vc_hashes : NoDup (bd_hash <$> bs);
  vc_txids : NoDup (all_txids bs);
  vc_spends : NoDup (spent_op <$> all_spent bs);
  vc_known : forall bs1 b bs2, bs = bs1 ++ b :: bs2 -> forall op, op ∈ spent_ops b -> op ∈ born_op <$> all_born (bs1 ++ [b]);
}.

Definition nothing : Chain.records := fun _ => None.

Definition indexed bs : Chain.records := chain_records nothing bs.

Lemma all_born_snoc bs b : all_born (bs ++ [b]) = all_born bs ++ born_of b.
Proof. unfold all_born. rewrite flat_map_app. cbn. by rewrite app_nil_r. Qed.
Lemma all_spent_snoc bs b : all_spent (bs ++ [b]) = all_spent bs ++ spent_of b.
Proof. unfold all_spent. rewrite flat_map_app. cbn. by rewrite app_nil_r. Qed.
Lemma all_txids_snoc bs b : all_txids (bs ++ [b]) = all_txids bs ++ txids b.
Proof. unfold all_txids. rewrite flat_map_app. cbn. by rewrite app_nil_r. Qed.

Lemma valid_snoc bs b : valid_chain (bs ++ [b]) -> valid_chain bs.
Proof.
  intros [H1 H2 H3 H4 H5]. rewrite fmap_app in H2. rewrite all_txids_snoc in H3. rewrite all_spent_snoc, fmap_app in H4. split.
  - intros x Hx. apply H1. set_solver.
  - by apply NoDup_app in H2 as [? _].
  - by apply NoDup_app in H3 as [? _].
  - by apply NoDup_app in H4 as [? _].
  - intros bs1 c bs2 -> op Hop. apply (H5 bs1 c (bs2 ++ [b])); [by rewrite <- app_assoc|done].
Qed.

Lemma elem_of_all_born bs x : x ∈ all_born bs <-> exists b, b ∈ bs /\ x ∈ born_of b.
Proof. unfold all_born. rewrite elem_of_flat_map. naive_solver. Qed.

Lemma all_born_txid bs x : x ∈ all_born bs -> n_txid x ∈ all_txids bs.
Proof.
  intros (b & Hb & Hx)%elem_of_all_born. unfold all_txids. apply elem_of_flat_map. exists b. split; [done|]. by apply born_height.
Qed.

(** Blocks of different hashes have different raw hashes. *)
Lemma raw_hash_inj b b' : block_wf b -> block_wf b' -> h2b (bd_hash b) = h2b (bd_hash b') -> bd_hash b = bd_hash b'.
Proof. intros [H1] [H2] E. rewrite <- (b2h_h2b (bd_hash b)), <- (b2h_h2b (bd_hash b')) by done. by rewrite E. Qed.

Lemma valid_new_hash bs b : valid_chain (bs ++ [b]) -> forall c, c ∈ bs -> h2b (bd_hash c) <> h2b (bd_hash b).
Proof.
  intros Hv c Hc E. pose proof (vc_hashes _ Hv) as Hn. rewrite fmap_app in Hn. apply NoDup_app in Hn as (_ & Hn & _).
  apply raw_hash_inj in E; [|apply (vc_blocks _ Hv); set_solver..]. apply (Hn (bd_hash c)); [by apply list_elem_of_fmap_2|]. rewrite E. left.
Qed.

Lemma valid_new_txid bs b t : valid_chain (bs ++ [b]) -> t ∈ txids b -> t ∉ all_txids bs.
Proof. intros Hv Ht Hin. pose proof (vc_txids _ Hv) as Hn. rewrite all_txids_snoc in Hn. apply NoDup_app in Hn as (_ & Hn & _). by apply (Hn t). Qed.

(** Earlier spends are of earlier outputs. *)
Lemma spent_known bs op : valid_chain bs -> op ∈ spent_op <$> all_spent bs -> op ∈ born_op <$> all_born bs.
Proof.
  induction bs as [|b bs IH] using rev_ind; intros Hv Hop; [by apply elem_of_nil in Hop|].
  rewrite all_spent_snoc, fmap_app in Hop. apply elem_of_app in Hop as [Hop|Hop].
  - rewrite all_born_snoc, fmap_app. apply elem_of_app. left. apply IH; [by eapply valid_snoc|done].
  - apply (vc_known _ Hv bs b []); [done|]. by rewrite spent_ops_of.
Qed.

Lemma spent_not_new bs b op : valid_chain (bs ++ [b]) -> op ∈ spent_op <$> all_spent bs -> op.1 ∉ txids b.
Proof.
  intros Hv Hop Ht. apply spent_known in Hop as (x & -> & Hx)%list_elem_of_fmap; [|by eapply valid_snoc].
  by eapply valid_new_txid; [|exact Ht|apply all_born_txid].
Qed.

Lemma created_at_born b op : block_wf b -> created_at (created b) op = None <-> op ∉ born_op <$> born_of b.
Proof.
  intros Hb. split.
  - intros Hn (x & -> & Hx)%list_elem_of_fmap. apply (created_at_None _ _ (born_rec x) Hn); [|done].
    rewrite created_born. by apply list_elem_of_fmap_2.
  - intros Hn. destruct (created_at (created b) op) as [r|] eqn:E; [|done]. apply created_at_Some in E as [Hr <-].
    rewrite created_born in Hr. apply list_elem_of_fmap in Hr as (x & -> & Hx). destruct Hn. apply list_elem_of_fmap. by exists x.
Qed.

Lemma created_at_some b op r : created_at (created b) op = Some r -> exists x, x ∈ born_of b /\ r = born_rec x /\ born_op x = op.
Proof.
  intros [Hr Ho]%created_at_Some. rewrite created_born in Hr. apply list_elem_of_fmap in Hr as (x & -> & Hx). by exists x.
Qed.

Lemma created_at_elem b x : block_wf b -> x ∈ born_of b -> created_at (created b) (born_op x) = Some (born_rec x).
Proof.
  intros Hb Hx. apply (created_at_in _ (born_rec x)); [by apply created_unique|]. rewrite created_born. by apply list_elem_of_fmap_2.
Qed.

(** Blocks are named by their hash and by any of their transactions. *)
Lemma same_hash bs b c : valid_chain bs -> b ∈ bs -> c ∈ bs -> h2b (bd_hash b) = h2b (bd_hash c) -> b = c.
Proof.
  intros Hv Hb Hc E. apply raw_hash_inj in E; [|by apply (vc_blocks _ Hv)..]. pose proof (vc_hashes _ Hv) as Hn.
  apply list_elem_of_lookup in Hb as [i Hi]. apply list_elem_of_lookup in Hc as [j Hj].
  assert (i = j) as ->; [|congruence]. apply (NoDup_lookup _ i j (bd_hash b) Hn); rewrite list_lookup_fmap; [by rewrite Hi|]. by rewrite Hj, E.
Qed.

Lemma same_tx bs b c t : valid_chain bs -> b ∈ bs -> c ∈ bs -> t ∈ txids b -> t ∈ txids c -> b = c.
Proof.
  induction bs as [|a bs IH] using rev_ind; intros Hv Hb Hc Htb Htc; [by apply elem_of_nil in Hb|].
  assert (Hold : forall d, d ∈ bs -> t ∈ txids d -> t ∈ all_txids bs) by (intros d ? ?; apply elem_of_flat_map; by exists d).
  apply elem_of_app in Hb as [Hb|Hb%list_elem_of_singleton], Hc as [Hc|Hc%list_elem_of_singleton]; try subst b; try subst c; [|..|done].
  - apply IH; [by eapply valid_snoc|done..].
  - by destruct (valid_new_txid bs a t Hv Htc (Hold b Hb Htb)).
  - by destruct (valid_new_txid bs a t Hv Htb (Hold c Hc Htc)).
Qed.

(** ** Records one block writes *)

Lemma indexed_by_block (k : key) (P : block_data -> Prop) `{forall b, Decision (P b)} (f : block_data -> bytes) bs v :
  (forall b V, committed b V k = if decide (P b) then Some (f b) else V k) ->
  (forall b c, b ∈ bs -> c ∈ bs -> P b -> P c -> b = c) ->
  indexed bs k = Some v <-> exists b, b ∈ bs /\ P b /\ v = f b.
Proof.
  intros Hk. unfold indexed. induction bs as [|b bs IH] using rev_ind; intros Hu; [split; [done|intros (b & Hb & _); by apply elem_of_nil in Hb]|].
  rewrite chain_records_snoc, Hk. case_decide as E.
  - split; [intros [= <-]; exists b; split; [set_solver|done]|]. intros (c & Hc & Hp & ->). by rewrite (Hu b c ltac:(set_solver) Hc E Hp).
  - rewrite IH by (intros; apply Hu; set_solver). split; intros (c & Hc & Hp & ->); exists c; (split; [|done]); [set_solver|].
    apply elem_of_app in Hc as [Hc|Hc%list_elem_of_singleton]; [done|]. by subst c.
Qed.

Lemma indexed_block bs bh v : valid_chain bs ->
  indexed bs (KBlock bh) = Some v <-> exists b, b ∈ bs /\ bh = h2b (bd_hash b) /\ v = block_record b.
Proof.
  intros Hv. apply (indexed_by_block _ (fun b => bh = h2b (bd_hash b))); [done|].
  intros b c Hb Hc -> E. by apply (same_hash bs).
Qed.

Lemma indexed_stored bs bh v : valid_chain bs ->
  indexed bs (KStoredBlk bh) = Some v <-> exists b, b ∈ bs /\ bh = h2b (bd_hash b) /\ v = [].
Proof.
  intros Hv. apply (indexed_by_block _ (fun b => bh = h2b (bd_hash b)) (fun _ => [])); [done|].
  intros b c Hb Hc -> E. by apply (same_hash bs).
Qed.

Lemma indexed_tx bs t v : valid_chain bs ->
  indexed bs (KTx t) = Some v <-> exists b, b ∈ bs /\ t ∈ txids b /\ v = h2b (bd_hash b) ++ t.
Proof.
  intros Hv. apply (indexed_by_block _ (fun b => t ∈ txids b) (fun b => h2b (bd_hash b) ++ t)); [done|].
  intros b c Hb Hc. by apply (same_tx bs).
Qed.

Lemma indexed_tx_exact bs t v : valid_chain bs ->
  indexed bs (KTxExact t) = Some v <-> exists b, b ∈ bs /\ t ∈ txids b /\ v = h2b (bd_hash b).
Proof.
  intros Hv. apply (indexed_by_block _ (fun b => t ∈ txids b) (fun b => h2b (bd_hash b))); [done|].
  intros b c Hb Hc. by apply (same_tx bs).
Qed.

Lemma indexed_tx_block bs bh t v : valid_chain bs ->
  indexed bs (KTxBlockRecovery bh t) = Some v <-> exists b, b ∈ bs /\ (bh = h2b (bd_hash b) /\ t ∈ txids b) /\ v = t.
Proof.
  intros Hv. apply (indexed_by_block _ (fun b => bh = h2b (bd_hash b) /\ t ∈ txids b) (fun _ => t)); [done|].
  intros b c Hb Hc [-> _] [E _]. by apply (same_hash bs).
Qed.

(** ** Outputs *)

Lemma applied_spent b V k op : key_op k = Some op -> op ∈ spent_ops b ->
  applied b V k = spend_view (bd_hash b) (with_created b V) (fun _ => restorable b k) k.
Proof. intros E Hin. unfold applied. rewrite E. by rewrite decide_True. Qed.

(** An outpoint is created once. *)
Lemma same_op bs x y : valid_chain bs -> x ∈ all_born bs -> y ∈ all_born bs -> born_op x = born_op y -> x = y.
Proof.
  intros Hv (b & Hb & Hx)%elem_of_all_born (c & Hc & Hy)%elem_of_all_born E. injection E as Et Ei.
  assert (b = c) as <-.
  { apply (same_tx bs b c (n_txid x)); [done..| |]; [|rewrite Et]; by apply born_height. }
  apply elem_of_born in Hx as (tx & n & o & Htx & Ho & ->), Hy as (tx' & n' & o' & Htx' & Ho' & ->). cbn in Et, Ei.
  apply Nat2Z.inj in Ei as <-. assert (tx = tx') as <-; [|congruence]. clear Ho Ho'.
  apply list_elem_of_lookup in Htx as [i Hi], Htx' as [j Hj]. assert (i = j) as ->; [|congruence].
  apply (NoDup_lookup _ i j (txid32 tx) (bk_txids _ (vc_blocks _ Hv b Hb))); unfold txids; rewrite list_lookup_fmap; [by rewrite Hi|]. by rewrite Hj, Et.
Qed.

Definition unspent bs x : Prop := x ∈ all_born bs /\ born_op x ∉ spent_op <$> all_spent bs.

Lemma unspent_snoc bs b x : valid_chain (bs ++ [b]) ->
  unspent (bs ++ [b]) x <-> born_op x ∉ spent_ops b /\ (x ∈ born_of b \/ unspent bs x).
Proof.
  intros Hv. unfold unspent. rewrite all_born_snoc, all_spent_snoc, fmap_app, <- spent_ops_of, !not_elem_of_app, elem_of_app. split.
  - intros ([?|?] & ? & ?); tauto.
  - intros (? & [Hx|[? ?]]); split_and!; try tauto. intros Hop. apply (spent_not_new bs b _ Hv Hop). by apply born_height.
Qed.

(** A block's own outputs are not found under an earlier outpoint. *)
Lemma born_exclusive bs b x y : valid_chain (bs ++ [b]) -> x ∈ born_of b -> y ∈ all_born bs -> born_op x <> born_op y.
Proof.
  intros Hv Hx Hy E. injection E as Et _. apply (valid_new_txid bs b (n_txid x) Hv); [by apply born_height|]. rewrite Et. by apply all_born_txid.
Qed.

Lemma unspent_born bs x : unspent bs x -> x ∈ all_born bs.
Proof. by intros []. Qed.

Lemma born_snoc bs b x : x ∈ born_of b -> x ∈ all_born (bs ++ [b]).
Proof. intros Hx. rewrite all_born_snoc. set_solver. Qed.

(** What block [b] makes of an outpoint it does not spend. *)
Lemma created_unspent bs b t i : valid_chain (bs ++ [b]) -> (t, i) ∉ spent_ops b ->
  match created_at (created b) (t, i) with
  | Some r => exists x, r = born_rec x /\ born_op x = (t, i) /\ forall y, born_op y = (t, i) -> unspent (bs ++ [b]) y <-> y = x
  | None => forall y, born_op y = (t, i) -> unspent (bs ++ [b]) y <-> unspent bs y
  end.
Proof.
  intros Hv Hs. assert (Hb : block_wf b) by (apply (vc_blocks _ Hv); set_solver). destruct (created_at (created b) (t, i)) as [r|] eqn:Ec.
  - apply created_at_some in Ec as (x & Hx & -> & Ex). exists x. split_and!; [done|done|]. intros y Ey. split.
    + intros Hy. apply (same_op (bs ++ [b])); [done|by apply unspent_born|by apply born_snoc|congruence].
    + intros ->. apply unspent_snoc; [done|]. rewrite Ex. auto.
  - apply created_at_born in Ec; [|done]. intros y Ey. rewrite unspent_snoc by done. rewrite Ey. split; [|tauto].
    intros [_ [Hy|Hy]]; [|done]. destruct Ec. apply list_elem_of_fmap. by exists y.
Qed.

Lemma unspent_spent bs b y : valid_chain (bs ++ [b]) -> born_op y ∈ spent_ops b -> ~ unspent (bs ++ [b]) y.
Proof. intros Hv Hs Hy. apply unspent_snoc in Hy as [Hy _]; done. Qed.

Lemma indexed_hint bs t i sh : valid_chain bs ->
  indexed bs (KOutHint t i) = Some sh <-> exists x, unspent bs x /\ born_op x = (t, i) /\ n_script x = sh.
Proof.
  unfold indexed. induction bs as [|b bs IH] using rev_ind; intros Hv.
  { split; [done|]. intros (x & [Hx _] & _). by apply elem_of_nil in Hx. }
  rewrite chain_records_snoc, committed_hint. case_decide as Hs.
  { split; [done|]. intros (x & Hx & E & _). rewrite <- E in Hs. by destruct (unspent_spent bs b x Hv Hs). }
  pose proof (created_unspent bs b t i Hv Hs) as Hc. destruct (created_at (created b) (t, i)) as [r|].
  - destruct Hc as (x & -> & Ex & Hx). split; [intros [= <-]; exists x; by rewrite Hx|]. intros (y & Hy & Ey & <-). by apply Hx in Hy as ->.
  - rewrite IH by by eapply valid_snoc. split; intros (y & Hy & Ey & E); exists y; (split; [|done]); by apply Hc.
Qed.

Lemma indexed_output bs sh t i v : valid_chain bs ->
  indexed bs (KOutput sh t i) = Some v
  <-> exists x, unspent bs x /\ born_op x = (t, i) /\ n_script x = sh /\ v = c_v (born_rec x).
Proof.
  unfold indexed. induction bs as [|b bs IH] using rev_ind in v |- *; intros Hv.
  { split; [done|]. intros (x & [Hx _] & _). by apply elem_of_nil in Hx. }
  pose proof (valid_snoc _ _ Hv) as Hv'. specialize (fun v => IH v Hv') as IH'. clear IH. rename IH' into IH. rewrite chain_records_snoc.
  destruct (decide ((t, i) ∈ spent_ops b)) as [Hs|Hs].
  - assert (Hno : committed b (chain_records nothing bs) (KOutput sh t i) = None).
    { change (applied b (chain_records nothing bs) (KOutput sh t i) = None). rewrite (applied_spent _ _ _ (t, i)) by done.
      cbn [spend_view with_created]. case_decide as Eh; [done|]. destruct (created_at (created b) (t, i)) as [r|] eqn:Ec.
      - case_decide as Er; [by destruct Eh; f_equal|]. apply eq_None_not_Some. intros [v' (y & Hy & Ey & _)%IH].
        apply created_at_some in Ec as (x & Hx & -> & Ex). apply (born_exclusive bs b x y Hv Hx (unspent_born _ _ Hy)). congruence.
      - apply eq_None_not_Some. intros [v' (y & Hy & Ey & Es & _)%IH]. apply Eh. apply (indexed_hint bs t i sh Hv'). by exists y. }
    rewrite Hno. split; [done|]. intros (x & Hx & E & _). rewrite <- E in Hs. by destruct (unspent_spent bs b x Hv Hs).
  - rewrite committed_output by done. pose proof (created_unspent bs b t i Hv Hs) as Hc. destruct (created_at (created b) (t, i)) as [r|] eqn:Ec.
    + destruct Hc as (x & -> & Ex & Hx). assert (Ho : forall y, unspent bs y -> born_op y = (t, i) -> False).
      { intros y Hy Ey. apply created_at_some in Ec as (z & Hz & _ & Ez). apply (born_exclusive bs b z y Hv Hz (unspent_born _ _ Hy)). congruence. }
      cbn [c_sh born_rec]. case_decide as Esh.
      * split; [intros [= <-]; exists x; by rewrite Hx|]. intros (y & Hy & Ey & _ & ->). by apply Hx in Hy as ->.
      * split; [intros (y & Hy & Ey & _)%IH; by destruct (Ho y)|]. intros (y & Hy & Ey & Es & _). by apply Hx in Hy as ->.
    + rewrite IH. split; intros (y & Hy & Ey & E); exists y; (split; [|done]); by apply Hc.
Qed.

Lemma indexed_out_block bs bh t i v : valid_chain bs ->
  indexed bs (KOutBlk bh t i) = Some v <-> exists b x, b ∈ bs /\ bh = h2b (bd_hash b) /\ x ∈ born_of b /\ born_op x = (t, i) /\ v = n_script x.
Proof.
  intros Hv. rewrite (indexed_by_block (KOutBlk bh t i) (fun b => bh = h2b (bd_hash b) /\ created_at (created b) (t, i) <> None)
    (fun b => match created_at (created b) (t, i) with Some r => c_sh r | None => [] end)).
  - split.
    + intros (b & Hb & [-> Hc] & ->). destruct (created_at (created b) (t, i)) as [r|] eqn:E; [|done].
      apply created_at_some in E as (x & Hx & -> & Ex). by exists b, x.
    + intros (b & x & Hb & -> & Hx & Ex & ->). exists b. rewrite <- Ex, (created_at_elem b x) by (done || by apply (vc_blocks _ Hv)). done.
  - intros b V. cbn [committed]. unfold applied. cbn [key_op with_created]. destruct (created_at (created b) (t, i)); repeat case_decide; naive_solver.
  - intros b c Hb Hc [-> _] [E _]. by apply (same_hash bs).
Qed.

(** ** Scripts *)

(** The first output with a script. *)
Definition first_with (sh : bytes) (l : list born) : option born := head (filter (fun x => n_script x = sh) l).

Lemma first_with_app sh l1 l2 : first_with sh (l1 ++ l2) = match first_with sh l1 with Some x => Some x | None => first_with sh l2 end.
Proof. unfold first_with. rewrite filter_app. by destruct (filter _ l1). Qed.

Lemma first_with_some sh l x : first_with sh l = Some x -> x ∈ l /\ n_script x = sh.
Proof. intros E%head_Some_elem_of. by apply list_elem_of_filter in E as [? ?]. Qed.

Lemma first_with_none sh l : first_with sh l = None <-> sh ∉ n_script <$> l.
Proof.
  unfold first_with. split.
  - intros E (x & -> & Hx)%list_elem_of_fmap. assert (Hin : x ∈ filter (fun y => n_script y = n_script x) l) by by apply list_elem_of_filter.
    destruct (filter _ l); [by apply elem_of_nil in Hin|done].
  - intros Hn. destruct (filter _ l) as [|x r] eqn:E; [done|]. destruct Hn. apply list_elem_of_fmap. exists x.
    assert (Hx : x ∈ filter (fun x => n_script x = sh) l) by (rewrite E; left). apply list_elem_of_filter in Hx as [? ?]. done.
Qed.

Lemma created_scripts b sh : sh ∈ c_sh <$> created b <-> first_with sh (born_of b) <> None.
Proof.
  rewrite first_with_none, created_born, <- list_fmap_compose. change (c_sh ∘ born_rec) with n_script.
  destruct (decide (sh ∈ n_script <$> born_of b)); tauto.
Qed.

Lemma indexed_script bs sh : indexed bs (KScriptBlk sh) = (fun x => be 4 (n_height x)) <$> first_with sh (all_born bs).
Proof.
  unfold indexed. induction bs as [|b bs IH] using rev_ind; [done|].
  rewrite chain_records_snoc, all_born_snoc, first_with_app. cbn [committed]. unfold applied. cbn [key_op with_created].
  case_decide as Ed; rewrite created_scripts, IH in Ed; [|rewrite IH]; destruct (first_with sh (all_born bs)) as [x|]; cbn [fmap option_fmap option_map] in *; try naive_solver.
  - destruct (first_with sh (born_of b)) as [y|] eqn:E; [|naive_solver]. apply first_with_some in E as [Hy _]. apply born_height in Hy as [Hy _]. cbn. by rewrite Hy.
  - destruct (first_with sh (born_of b)); naive_solver.
Qed.

Lemma indexed_block_script bs bh sh v : valid_chain bs ->
  indexed bs (KBlkScript bh sh) = Some v <-> exists x, first_with sh (all_born bs) = Some x /\ n_block x = bh /\ v = [].
Proof.
  unfold indexed. induction bs as [|b bs IH] using rev_ind; intros Hv; [split; [done|by intros (x & E & _)]|].
  pose proof (valid_snoc _ _ Hv) as Hv'. specialize (IH Hv').
  rewrite chain_records_snoc, all_born_snoc, first_with_app. cbn [committed]. unfold applied. cbn [key_op with_created].
  pose proof (indexed_script bs sh) as Es. unfold indexed in Es.
  case_decide as Ed; rewrite created_scripts, Es in Ed; destruct (first_with sh (all_born bs)) as [x|]; cbn [fmap option_fmap option_map] in *.
  - naive_solver.
  - destruct Ed as (-> & _ & Ed). destruct (first_with sh (born_of b)) as [y|] eqn:E; [|done]. apply first_with_some in E as [Hy _].
    apply born_height in Hy as (_ & Hbk & _). split; [intros [= <-]; by exists y|by intros (z & _ & _ & ->)].
  - exact IH.
  - rewrite IH. split; [by intros (z & Ez & _)|]. intros (y & E & Ey & ->). destruct Ed. rewrite E. split_and!; [|done|done].
    apply first_with_some in E as [Hy _]. apply born_height in Hy as (_ & Hbk & _). congruence.
Qed.

(** ** Records of spending *)

Lemma indexed_inputs bs k : (exists a i, k = KInput a i) \/ (exists a c i, k = KInHint a c i) -> indexed bs k = None.
Proof.
  intros Hk. unfold indexed. induction bs as [|b bs IH] using rev_ind; [done|]. rewrite chain_records_snoc, <- IH.
  destruct Hk as [(a & i & ->)|(a & b' & i & ->)]; done.
Qed.
End chain.

(** * The derived records are the store's records *)

(** * Fields of an outputs record *)

Definition born_fields (x : born) : list bytes :=
  [n_txid x; be 4 (n_vout x); be 8 (n_value x); be 4 (n_height x); n_script x; n_block x; [if n_coinbase x then x01 else x00]].

Lemma born_bytes_fields x : born_bytes x = concat (born_fields x).
Proof. unfold born_bytes, born_fields. cbn [concat]. by rewrite app_nil_r. Qed.

Section fields.
Context (x : born) (Hx : born_ok x).

Lemma born_field i f a b : born_fields x !! i = Some f -> length (concat (take i (born_fields x))) = a -> a + length f = b ->
  slice a b (born_bytes x) = f.
Proof. intros Hi Ha <-. rewrite born_bytes_fields, <- (app_nil_r (concat _)). by apply (slice_field _ i). Qed.

Ltac at_field i :=
  apply (born_field i); [reflexivity| |]; cbn [take born_fields concat]; rewrite ?length_app, ?length_be, ?(bn_txid _ Hx), ?(bn_script _ Hx), ?(bn_block _ Hx); reflexivity.

Lemma out_txid_born : out_txid (born_bytes x) = n_txid x.
Proof. at_field 0. Qed.
Lemma out_voutBE_born : out_voutBE (born_bytes x) = be 4 (n_vout x).
Proof. at_field 1. Qed.
Lemma out_valBE_born : out_valBE (born_bytes x) = be 8 (n_value x).
Proof. at_field 2. Qed.
Lemma out_heightBE_born : out_heightBE (born_bytes x) = be 4 (n_height x).
Proof. at_field 3. Qed.
Lemma out_script_born : out_script (born_bytes x) = n_script x.
Proof. at_field 4. Qed.
Lemma out_block_born : out_block (born_bytes x) = n_block x.
Proof. at_field 5. Qed.

Lemma out_coinbase_born : out_coinbase (born_bytes x) = n_coinbase x.
Proof.
  unfold out_coinbase. rewrite born_bytes_fields, (concat_split (born_fields x) 6 [if n_coinbase x then x01 else x00] eq_refl).
  cbn [take drop born_fields concat]. rewrite lookup_app_r; rewrite !length_app, !length_be, (bn_txid _ Hx), (bn_script _ Hx), (bn_block _ Hx); [|cbn; lia].
  by destruct (n_coinbase x).
Qed.

Lemma height_born : unbe (out_heightBE (born_bytes x)) = n_height x.
Proof. rewrite out_heightBE_born. apply unbe_be4, height_ok_u32, Hx. Qed.

(** ** Their records *)

(** The O value of the key file: a fixed coinbase byte. *)
Definition o_value : bytes := be 8 (n_value x) ++ be 4 (n_height x) ++ n_txid x ++ [if n_coinbase x then x01 else x00].

Lemma h_record_born : h_record (born_bytes x) = enc (KOutHint (n_txid x) (n_vout x)) ++ n_script x.
Proof. unfold h_record. rewrite out_txid_born, out_voutBE_born, out_script_born. cbn [enc]. by rewrite <- !app_assoc. Qed.

Lemma o_record_born : o_record (born_bytes x) = enc (KOutput (n_script x) (n_txid x) (n_vout x)) ++ o_value.
Proof.
  unfold o_record, o_value. rewrite out_txid_born, out_voutBE_born, out_script_born, out_valBE_born, out_heightBE_born, out_coinbase_born.
  cbn [enc]. by rewrite <- !app_assoc.
Qed.

Lemma w_record_born : w_record (born_bytes x) = enc (KOutBlk (n_block x) (n_txid x) (n_vout x)) ++ n_script x.
Proof. unfold w_record. rewrite out_txid_born, out_voutBE_born, out_script_born, out_block_born. cbn [enc]. by rewrite <- !app_assoc. Qed.

Lemma t_record_born : t_record (born_bytes x) = enc (KTx (n_txid x)) ++ be 4 (n_height x) ++ n_block x ++ n_txid x.
Proof. unfold t_record. rewrite out_txid_born, out_heightBE_born, out_block_born. cbn [enc]. by rewrite <- !app_assoc. Qed.

Lemma x_record_born : x_record (born_bytes x) = enc (KTxExact (n_txid x)) ++ n_block x.
Proof. unfold x_record. rewrite out_txid_born, out_block_born. cbn [enc]. by rewrite <- !app_assoc. Qed.

Lemma y_record_born : y_record (born_bytes x) = enc (KTxBlockRecovery (n_block x) (n_txid x)) ++ n_txid x.
Proof. unfold y_record. rewrite out_txid_born, out_block_born. cbn [enc]. by rewrite <- !app_assoc. Qed.
End fields.

(** * Script candidates *)

(** A candidate: an output and its row. *)
Definition cand_bytes (p : Z * born) : bytes := n_script p.2 ++ be 4 p.1 ++ n_block p.2 ++ be 4 (n_height p.2).

Lemma cand_record_born x rid : born_ok x -> cand_record (born_bytes x) rid = cand_bytes (rid, x).
Proof. intros Hx. unfold cand_record, cand_bytes. by rewrite out_script_born, out_block_born, out_heightBE_born. Qed.

Section cand.
Context (p : Z * born) (Hp : born_ok p.2).

Lemma length_cand : length (cand_bytes p) = CAND_REC_SIZE.
Proof. unfold cand_bytes. by rewrite !length_app, !length_be, (bn_script _ Hp), (bn_block _ Hp). Qed.

Lemma cand_field fs i f a b : cand_bytes p = concat fs -> fs !! i = Some f -> length (concat (take i fs)) = a -> a + length f = b -> slice a b (cand_bytes p) = f.
Proof. intros -> Hi Ha <-. rewrite <- (app_nil_r (concat _)). by apply (slice_field _ i). Qed.

Ltac at_cand i :=
  apply (cand_field [n_script p.2; be 4 p.1; n_block p.2; be 4 (n_height p.2)] i);
  [unfold cand_bytes; cbn [concat]; by rewrite app_nil_r|reflexivity|..]; cbn [take concat];
  rewrite ?length_app, ?length_be, ?(bn_script _ Hp), ?(bn_block _ Hp); reflexivity.

Lemma cand_script_of : cand_script (cand_bytes p) = n_script p.2.
Proof. at_cand 0. Qed.
Lemma cand_block_of : cand_block (cand_bytes p) = n_block p.2.
Proof. at_cand 2. Qed.
Lemma cand_heightBE_of : cand_heightBE (cand_bytes p) = be 4 (n_height p.2).
Proof. at_cand 3. Qed.

Lemma cand_key : take CAND_KEY_SIZE (cand_bytes p) = n_script p.2 ++ be 4 p.1.
Proof. unfold cand_bytes. rewrite app_assoc. apply take_app_length'. by rewrite length_app, length_be, (bn_script _ Hp). Qed.

Lemma s_record_of : s_record (cand_bytes p) = enc (KScriptBlk (n_script p.2)) ++ be 4 (n_height p.2).
Proof. unfold s_record. rewrite cand_script_of, cand_heightBE_of. cbn [enc]. by rewrite <- !app_assoc. Qed.

Lemma z_record_of : z_record (cand_bytes p) = enc (KBlkScript (n_block p.2) (n_script p.2)) ++ [].
Proof. unfold z_record. rewrite cand_block_of, cand_script_of. cbn [enc]. by rewrite app_nil_r. Qed.
End cand.

(** * Blocks *)

Section blocks.
Context {node : Node}.

Lemma b_record_of b : block_wf b -> b_record (meta_of b) = enc (KBlock (h2b (bd_hash b))) ++ block_record b.
Proof. intros Hb. unfold b_record. cbn. rewrite !copy32_id by (apply h2b_hash32, Hb). unfold block_record, block_val. by rewrite <- ?app_assoc. Qed.

Lemma n_record_of b : block_wf b -> n_record (h2b (bd_hash b)) = enc (KStoredBlk (h2b (bd_hash b))) ++ [].
Proof. intros Hb. unfold n_record. rewrite copy32_id by (apply h2b_hash32, Hb). cbn [enc]. by rewrite app_nil_r. Qed.

(** * Loading them *)

Lemma loads_plain ks k v : length k = ks -> loads_as ks None None (k ++ v) (k, v).
Proof. intros <-. unfold loads_as, load_op. rewrite take_app_length, drop_app_length. done. Qed.

Lemma transform_o_value x : born_ok x -> transformOValue (o_value x) = Ok (c_v (born_rec x)).
Proof.
  intros Hx. pose proof (bn_txid _ Hx) as Ht. unfold transformOValue, read_u64, read_i32, read_u32, o_value.
  set (fl := [if n_coinbase x then x01 else x00]).
  rewrite (read_field_head (be 8 (n_value x)) _ 8) by by rewrite length_be.
  rewrite (read_field_mid (be 8 (n_value x)) (be 4 (n_height x)) (n_txid x ++ fl) 8 4) by by rewrite ?length_be. cbn [mbind res_bind].
  rewrite unbe_be by apply Hx. rewrite unbe_be4 by apply height_ok_u32, Hx. rewrite bool_decide_eq_true_2 by apply (bn_height _ Hx).
  rewrite (app_assoc (be 8 _)), slice_mid by (rewrite ?length_app, ?length_be; done || lia).
  assert (Ecb : bool_decide (44 < length ((be 8 (n_value x) ++ be 4 (n_height x)) ++ n_txid x ++ fl))
    && bool_decide (((be 8 (n_value x) ++ be 4 (n_height x)) ++ n_txid x ++ fl) !! 44 = Some x01) = n_coinbase x).
  { rewrite !length_app, !length_be, Ht. rewrite (bool_decide_eq_true_2 (44 < _)) by (cbn; lia). cbn [andb].
    rewrite app_assoc, lookup_app_r by (rewrite !length_app, !length_be, Ht; cbn; lia). rewrite !length_app, !length_be, Ht. unfold fl. by destruct (n_coinbase x). }
  rewrite Ecb, encodeOutput_ok by (apply Hx || apply height_ok_i32, Hx || by apply b2h_is_hash). by rewrite h2b_b2h.
Qed.

Lemma loads_o x : born_ok x ->
  loads_as 69 (Some transformOValue) None (o_record (born_bytes x)) (enc (KOutput (n_script x) (n_txid x) (n_vout x)), c_v (born_rec x)).
Proof.
  intros Hx. rewrite o_record_born by done. set (k := enc _). assert (Hk : length k = 69).
  { unfold k. cbn [enc]. by rewrite !length_app, length_be, (bn_script _ Hx), (bn_txid _ Hx). }
  unfold loads_as, load_op. rewrite take_app_length', drop_app_length' by done. cbn [mbind res_bind fst snd]. by rewrite transform_o_value.
Qed.

Lemma loads_t x : born_ok x ->
  loads_as 33 (Some (fun v => Ok (dropTHeight v))) None (t_record (born_bytes x)) (enc (KTx (n_txid x)), n_block x ++ n_txid x).
Proof.
  intros Hx. rewrite t_record_born by done. set (k := enc _). assert (Hk : length k = 33) by (unfold k; cbn [enc]; by rewrite length_app, (bn_txid _ Hx)).
  unfold loads_as, load_op. rewrite take_app_length', drop_app_length' by done. cbn [mbind res_bind fst snd]. unfold dropTHeight.
  by rewrite drop_app_length' by by rewrite length_be.
Qed.

Lemma loads_w x : born_ok x ->
  loads_as 69 None (Some validateWRecord) (w_record (born_bytes x)) (enc (KOutBlk (n_block x) (n_txid x) (n_vout x)), n_script x).
Proof.
  intros Hx. rewrite w_record_born by done. pose proof (bn_block _ Hx) as Hb. pose proof (bn_txid _ Hx) as Ht. set (k := enc _).
  assert (Hk : length k = 69) by (unfold k; cbn [enc]; by rewrite !length_app, length_be, Hb, Ht).
  unfold loads_as, load_op. rewrite take_app_length', drop_app_length' by done. unfold validateWRecord.
  rewrite !bool_decide_eq_true_2 by (done || apply (bn_script _ Hx)). cbn [negb]. unfold read_u32.
  assert (E1 : slice 1 33 k = n_block x).
  { unfold k. cbn [enc]. apply slice_mid; [done|exact Hb|lia]. }
  assert (E2 : slice 33 65 k = n_txid x).
  { unfold k. cbn [enc]. rewrite (app_assoc [P_OUT_BLK]). apply slice_mid; rewrite ?length_app, ?Hb, ?Ht; cbn; lia. }
  assert (E3 : read_field k 65 4 = Ok (be 4 (n_vout x))).
  { unfold k. cbn [enc]. rewrite <- (app_nil_r (be 4 _)), !app_assoc. rewrite <- (app_assoc _ (be 4 _) []).
    apply read_field_mid; rewrite ?length_app, ?length_be, ?Hb, ?Ht; done. }
  rewrite E1, E2, E3. cbn [mbind res_bind]. rewrite unbe_be4 by apply Hx.
  rewrite kOutBlk_ok by by apply b2h_is_hash. rewrite !h2b_b2h, ushr0_id by apply Hx. cbn [mbind res_bind].
  fold k. by rewrite bool_decide_eq_true_2.
Qed.
End blocks.
