(* ===== verification/DeriveFacts.v ===== *)
(** What the passes of the derivation write for a chain: the lists of records behind each
    key file, before they are sorted. *)

From S2P Require Import Prelude KeyCodec ValueCodec LevelDb Store Outputs StoreFacts Rollback Parsing Apply Spend Block.
From S2P Require Import Roundtrip Tracker Window Reorg SyncLoop Batch Undo Chain Forward Indexing Utxo Startup.
From S2P Require Import Wire AuxPow ChainParams Decoder RecordFiles Heap ExternalSort SortFacts SeedStreams WorkDir DeriveKeys Loader LoadFacts.
From S2P Require Import StreamFacts RangeFacts SeedChain.

#[local] Open Scope string_scope.
#[local] Open Scope nat_scope.
#[local] Open Scope list_scope.

(** * Sorting *)

Lemma run_sortByKey l recordSize keySize ram : 0 < keySize <= recordSize -> sized recordSize l ->
  sortByKey (concat l) recordSize keySize ram = Ok (concat (stable_sort (take keySize) l)).
Proof.
  intros Hk Hl. unfold sortByKey. change (concat l) with (@nil byte ++ concat l).
  rewrite (run_externalSort _ recordSize keySize [] l); [done| |done]. by split.
Qed.

(** Big-endian integers in byte order. *)
Lemma unbe_cons x a : unbe (x :: a) = (Z_of_byte x * 256 ^ Z.of_nat (length a) + unbe a)%Z.
Proof. unfold unbe. cbn [unbe_acc]. by rewrite unbe_acc_split. Qed.

Lemma ble_unbe a b : length a = length b -> ble a b = true <-> (unbe a <= unbe b)%Z.
Proof.
  revert b. induction a as [|x a IH]; intros [|y b] Hl; try discriminate Hl; [done|]. injection Hl as Hl. rewrite ble_cons, IH, !unbe_cons, Hl by done.
  pose proof (unbe_range a) as Ha. pose proof (unbe_range b) as Hb. rewrite Hl in Ha. set (p := (256 ^ Z.of_nat (length b))%Z) in *.
  assert (Hp : (0 < p)%Z) by lia. split.
  - intros [?|[-> ?]]; [nia|lia].
  - intros Hle. destruct (Z.lt_total (Z_of_byte x) (Z_of_byte y)) as [?|[E|?]]; [by left| |nia]. right. split; [by apply Z_of_byte_inj|]. rewrite E in Hle. lia.
Qed.

Lemma ble_be4 i j : u32 i -> u32 j -> (i <= j)%Z -> ble (be 4 i) (be 4 j) = true.
Proof. intros Hi Hj Hij. apply ble_unbe; [by rewrite !length_be|]. by rewrite !unbe_be4. Qed.

Lemma ble_app_r a b c d : length a = length b -> ble (a ++ c) (b ++ d) = true -> ble a b = true.
Proof.
  revert b. induction a as [|x a IH]; intros [|y b] Hl; try discriminate Hl; [done|]. injection Hl as Hl. cbn [app]. rewrite !ble_cons.
  intros [?|[? ?]]; [by left|right]. eauto.
Qed.

Section sorted.
Context {A : Type} (key : A -> bytes).
Implicit Types l : list A.

Lemma sort_id l : key_sorted key l -> stable_sort key l = l.
Proof. intros Hl. apply (sorted_unique key); [apply stable_sort_sorted|done|intros k; apply with_key_sort]. Qed.

Lemma key_sorted_filter (P : A -> Prop) `{forall x, Decision (P x)} l : key_sorted key l -> key_sorted key (filter P l).
Proof.
  induction 1 as [|x l Hl IH Hx]; [constructor|]. rewrite filter_cons. case_decide; [|done]. constructor; [done|].
  rewrite Forall_forall in Hx |- *. intros y [_ Hy]%list_elem_of_filter. by apply Hx.
Qed.

Lemma filter_comm (P Q : A -> Prop) `{forall x, Decision (P x)} `{forall x, Decision (Q x)} l : filter P (filter Q l) = filter Q (filter P l).
Proof. rewrite !list_filter_filter. apply list_filter_iff. intros x. tauto. Qed.

Lemma filter_sort (P : A -> Prop) `{forall x, Decision (P x)} l : filter P (stable_sort key l) = stable_sort key (filter P l).
Proof.
  apply (sorted_unique key); [apply key_sorted_filter, stable_sort_sorted|apply stable_sort_sorted|]. intros k.
  rewrite with_key_sort. unfold with_key. rewrite filter_comm. fold (with_key key k (stable_sort key l)). rewrite with_key_sort. unfold with_key. apply filter_comm.
Qed.

(** ** Runs

    The first of each run of elements with equal keys. *)

Fixpoint heads (prev : option bytes) l : list A :=
  match l with
  | [] => []
  | x :: l => if decide (prev = Some (key x)) then heads prev l else x :: heads (Some (key x)) l
  end.

Lemma heads_sub prev l x : x ∈ heads prev l -> x ∈ l.
Proof.
  induction l as [|y l IH] in prev |- *; [done|]. cbn [heads]. case_decide; [intros Hx; right; by eapply IH|].
  intros [->|Hx]%elem_of_cons; [left|right; by eapply IH].
Qed.

Lemma heads_cover prev l x : x ∈ l -> prev = Some (key x) \/ exists y, y ∈ heads prev l /\ key y = key x.
Proof.
  induction l as [|y l IH] in prev |- *; [by intros ?%elem_of_nil|]. cbn [heads]. intros [->|Hx]%elem_of_cons.
  - case_decide; [by left|]. right. exists y. split; [left|done].
  - case_decide; [by apply IH|]. right. destruct (IH (Some (key y)) Hx) as [[= E]|(z & Hz & E)]; [exists y; split; [left|done]|exists z; split; [by right|done]].
Qed.

(** Of sorted elements they are the first with each key. *)
Lemma heads_after k l x : key_sorted key l -> (forall y, y ∈ l -> ble k (key y) = true) ->
  x ∈ heads (Some k) l <-> key x <> k /\ head (with_key key (key x) l) = Some x.
Proof.
  intros Hs. induction Hs as [|a l Hs IH Ha] in k |- *; intros Hk; [cbn; split; [by intros ?%elem_of_nil|by intros []]|].
  rewrite Forall_forall in Ha. cbn [heads]. rewrite with_key_cons. case_decide as E.
  - injection E as ->. rewrite IH by (intros y Hy; by apply Ha). case_decide; split; intros [? ?]; (split; [done|]); congruence.
  - rewrite elem_of_cons, IH by (intros y Hy; by apply Ha). case_decide as E2.
    + cbn. split; [intros [->|[? _]]; [split; congruence|congruence]|]. intros [_ [= ->]]. by left.
    + split.
      * intros [->|[? Hh]]; [done|]. split; [|done]. intros Ex. assert (Hx : x ∈ l) by (apply head_Some_elem_of, elem_of_with_key in Hh; tauto).
        apply E. f_equal. apply ble_antisym; [apply Hk; left|]. rewrite <- Ex. by apply Ha.
      * intros [? ?]. right. split; [congruence|done].
Qed.

Lemma heads_first l x : key_sorted key l -> x ∈ heads None l <-> head (with_key key (key x) l) = Some x.
Proof.
  destruct l as [|a l]; [intros _; cbn; split; [by intros ?%elem_of_nil|done]|]. intros Hs. inversion Hs as [|? ? Hs' Ha]; subst. rewrite Forall_forall in Ha.
  cbn [heads]. rewrite decide_False by done. rewrite elem_of_cons, heads_after, with_key_cons by done. case_decide as E.
  - cbn. split; [intros [->|[? _]]; congruence|]. intros [= ->]. by left.
  - split; [intros [->|[_ ?]]; done|]. intros ?. right. split; [congruence|done].
Qed.
End sorted.

(** A file written record by record. *)
Lemma close_writes write l : writes_on write -> close_file (foldl (fun w r => write r w) (new_writer []) l) = concat l.
Proof. intros Hw. destruct (writes_all write l (new_writer []) Hw (writer_ok_new [])) as (E & Ho & _). by rewrite close_contents, E. Qed.

(** * Blocks *)

Definition last_n {A} (n : Z) (l : list A) : list A := drop (Z.to_nat (Z.of_nat (length l) - n)) l.

Lemma last_n_snoc {A} n (l : list A) x : (0 < n)%Z ->
  last_n n (l ++ [x]) = (let w := last_n n l ++ [x] in if bool_decide (n < Z.of_nat (length w))%Z then tail w else w).
Proof.
  intros Hn. unfold last_n. rewrite length_app. cbn [length]. cbv zeta. rewrite length_app, length_drop. cbn [length].
  destruct (decide (Z.of_nat (length l) < n)%Z) as [Hl|Hl].
  - replace (Z.to_nat (Z.of_nat (length l + 1) - n)) with 0 by lia. replace (Z.to_nat (Z.of_nat (length l) - n)) with 0 by lia.
    rewrite bool_decide_eq_false_2 by lia. done.
  - rewrite bool_decide_eq_true_2 by lia. replace (Z.to_nat (Z.of_nat (length l + 1) - n)) with (S (Z.to_nat (Z.of_nat (length l) - n))) by lia.
    set (k := Z.to_nat (Z.of_nat (length l) - n)). rewrite drop_app_le by lia. replace (S k) with (k + 1) by lia. rewrite <- drop_drop.
    assert (Hk : length (drop k l) <> 0) by (rewrite length_drop; lia). destruct (drop k l) as [|y r]; [by destruct Hk|]. cbn. by rewrite ?drop_0.
Qed.

Section blocks.
Context {node : Node}.

(** B has every block, the window the last ones, and the last block is the tip. *)
Lemma run_scanMetaBlocks ctx bs : cx_removeSpent ctx = true -> (0 < cx_undoBlocks ctx)%Z ->
  let st := scanMetaBlocks ctx (meta_of <$> bs) in
  close_file (sc_bRaw st) = concat ((fun b => b_record (meta_of b)) <$> bs) /\ sc_tRaw st = None
  /\ sc_nWindow st = last_n (cx_undoBlocks ctx) ((fun b => h2b (bd_hash b)) <$> bs)
  /\ sc_lastHeight st = from_option bd_height (-1)%Z (last bs) /\ sc_lastBlockHash st = (fun b => h2b (bd_hash b)) <$> last bs.
Proof.
  intros Hr Hu. cbv zeta. unfold scanMetaBlocks. rewrite Hr. cbn [orb].
  enough (forall bs, let st := foldl (fun st blk => scanMetaBlock (cx_undoBlocks ctx) blk st) (mkScan (new_writer []) None [] (-1) None) (meta_of <$> bs) in
    sc_bRaw st = foldl (fun w r => flatWrite 73 r w) (new_writer []) ((fun b => b_record (meta_of b)) <$> bs) /\ sc_tRaw st = None
    /\ sc_nWindow st = last_n (cx_undoBlocks ctx) ((fun b => h2b (bd_hash b)) <$> bs)
    /\ sc_lastHeight st = from_option bd_height (-1)%Z (last bs) /\ sc_lastBlockHash st = (fun b => h2b (bd_hash b)) <$> last bs) as H.
  { destruct (H bs) as (E & H2 & H3 & H4 & H5). rewrite E. split_and!; [apply close_writes, writes_on_flatWrite|done..]. }
  clear bs. induction bs as [|b bs IH] using rev_ind; [by unfold last_n; cbn; rewrite ?drop_nil|]. cbv zeta in *. rewrite !fmap_app, last_snoc. cbn [fmap list_fmap]. rewrite !foldl_snoc.
  set (st := foldl _ _ (meta_of <$> bs)) in *. destruct IH as (E1 & E2 & E3 & E4 & E5). 
  cbn [scanMetaBlock sc_bRaw sc_tRaw sc_nWindow sc_lastHeight sc_lastBlockHash meta_of mb_hash mb_height].
  rewrite E1, E2. split_and!; [done|done| |done|done]. rewrite last_n_snoc by done. cbn [fmap option_fmap option_map mb_hash]. by rewrite E3.
Qed.
End blocks.

(** * Outputs *)

Lemma fold_pair {A W1 W2} (f : A -> W1 -> W1) (g : A -> W2 -> W2) l : forall a b,
  fold_res (fun x '(a, b) => Ok (f x a, g x b)) l (a, b) = Ok (foldl (fun a x => f x a) a l, foldl (fun b x => g x b) b l).
Proof. induction l as [|x l IH]; intros a b; [done|]. apply IH. Qed.

Lemma sized_born B : (forall x, x ∈ B -> born_ok x) -> sized OUTPUTS_RECORD_SIZE (born_bytes <$> B).
Proof. intros HB r (x & -> & Hx)%list_elem_of_fmap. by apply length_born_bytes, HB. Qed.

Lemma sized_spent B : (forall x, x ∈ B -> spent_ok x) -> sized SPENDS_RECORD_SIZE (spent_bytes <$> B).
Proof. intros HB r (x & -> & Hx)%list_elem_of_fmap. by apply length_spent_bytes, HB. Qed.

Lemma close_mapped {A} write (h : bytes -> bytes) (e g : A -> bytes) l : writes_on write -> (forall x, x ∈ l -> h (e x) = g x) ->
  close_file (foldl (fun w r => write (h r) w) (new_writer []) (e <$> l)) = concat (g <$> l).
Proof.
  intros Hw Hl. rewrite <- (close_writes write (g <$> l) Hw). f_equal. generalize (new_writer []) as w.
  induction l as [|x l IH]; intros w; [done|]. cbn [fmap list_fmap foldl]. rewrite Hl by left. apply IH. intros y Hy. apply Hl. by right.
Qed.

Section outputs.
Context (B : list born) (HB : forall x, x ∈ B -> born_ok x).

(** The live outputs of the anti-join give H and O. *)
Lemma run_writeLiveOutputRecords : exists h o, writeLiveOutputRecords (concat (born_bytes <$> B)) = Ok (h, o)
  /\ close_file h = concat ((fun x => h_record (born_bytes x)) <$> B) /\ close_file o = concat ((fun x => o_record (born_bytes x)) <$> B).
Proof.
  unfold writeLiveOutputRecords. change (concat (born_bytes <$> B)) with ([] ++ concat (born_bytes <$> B)). change 0 with (length (@nil byte)).
  rewrite for_records_written by (by apply sized_born || (unfold OUTPUTS_RECORD_SIZE; lia)). rewrite fold_pair. eexists _, _. split; [done|].
  split; [apply (close_mapped (writeRecord 69) h_record)|apply (close_mapped (flatWrite 114) o_record)]; done || apply writes_on_writeRecord || apply writes_on_flatWrite.
Qed.

Context (header : bytes) (Hh : length header = HEADER_SIZE) (wMin : Z).

(** Outputs of the blocks that can still be undone. *)
Definition recent (x : born) : Prop := (wMin <= n_height x)%Z.
#[global] Instance recent_dec x : Decision (recent x).
Proof. apply Z.le_dec. Defined.

Definition tx_heads : list born := heads n_txid None B.

Lemma writeTxIndexRecord_born x st : born_ok x ->
  writeTxIndexRecord wMin (born_bytes x) st
  = if decide (xr_prev st = Some (n_txid x)) then st
    else mkTxRaw (Some (n_txid x)) (flatWrite 101 (t_record (born_bytes x)) (xr_T st)) (flatWrite 65 (x_record (born_bytes x)) (xr_X st))
           (if decide (recent x) then flatWrite 97 (y_record (born_bytes x)) (xr_Y st) else xr_Y st).
Proof.
  clear B HB header Hh.
  intros Hx. unfold writeTxIndexRecord. rewrite out_txid_born, height_born by done. cbv zeta. destruct (decide (xr_prev st = _)) as [E|E].
  - by rewrite bool_decide_eq_true_2.
  - rewrite bool_decide_eq_false_2 by done. destruct (decide (recent x)) as [Hr|Hr]; unfold recent in Hr; [rewrite bool_decide_eq_false_2 by lia|rewrite bool_decide_eq_true_2 by lia]; done.
Qed.

Lemma fold_writeTxIndexRecord l : forall st, (forall x, x ∈ l -> born_ok x) ->
  let st' := foldl (fun st rec => writeTxIndexRecord wMin rec st) st (born_bytes <$> l) in
  let hs := heads n_txid (xr_prev st) l in
  xr_T st' = foldl (fun w r => flatWrite 101 r w) (xr_T st) ((fun x => t_record (born_bytes x)) <$> hs)
  /\ xr_X st' = foldl (fun w r => flatWrite 65 r w) (xr_X st) ((fun x => x_record (born_bytes x)) <$> hs)
  /\ xr_Y st' = foldl (fun w r => flatWrite 97 r w) (xr_Y st) ((fun x => y_record (born_bytes x)) <$> filter recent hs).
Proof.
  clear B HB header Hh.
  induction l as [|x l IH]; intros st Hl; [done|]. cbn [fmap list_fmap foldl heads]. rewrite writeTxIndexRecord_born by (apply Hl; left).
  specialize (fun st => IH st (fun y Hy => Hl y (list_elem_of_further y x l Hy))). destruct (decide (xr_prev st = _)) as [E|E]; [apply IH|].
  rewrite filter_cons. destruct (decide (recent x)) as [Hr|Hr]; apply IH.
Qed.

Lemma run_writeTxIndexRecords : exists st,
  for_records (header ++ concat (born_bytes <$> B)) HEADER_SIZE OUTPUTS_RECORD_SIZE
    (fun rec st => Ok (writeTxIndexRecord wMin rec st)) (mkTxRaw None (new_writer []) (new_writer []) (new_writer [])) = Ok st
  /\ close_file (xr_T st) = concat ((fun x => t_record (born_bytes x)) <$> tx_heads)
  /\ close_file (xr_X st) = concat ((fun x => x_record (born_bytes x)) <$> tx_heads)
  /\ close_file (xr_Y st) = concat ((fun x => y_record (born_bytes x)) <$> filter recent tx_heads).
Proof.
  rewrite <- Hh, for_records_written by (by apply sized_born || (unfold OUTPUTS_RECORD_SIZE; lia)). rewrite fold_res_pure. eexists. split; [reflexivity|].
  destruct (fold_writeTxIndexRecord B (mkTxRaw None (new_writer []) (new_writer []) (new_writer [])) HB) as (-> & -> & ->). cbn [xr_prev xr_T xr_X xr_Y].
  split_and!; apply close_writes, writes_on_flatWrite.
Qed.

(** ** Script candidates *)

Fixpoint rows (rid : Z) (l : list born) : list (Z * born) :=
  match l with [] => [] | x :: l => (rid, x) :: rows (rid + 1) l end.

Lemma fold_writeCandidate l : forall rid c w, (forall x, x ∈ l -> born_ok x) -> (rid + Z.of_nat (length l) <= 2 ^ 32)%Z ->
  fold_res (writeCandidateAndWRecord wMin) (born_bytes <$> l) (rid, c, w)
  = Ok (rid + Z.of_nat (length l), foldl (fun w r => flatWrite CAND_REC_SIZE r w) c (cand_bytes <$> rows rid l),
        foldl (fun w r => flatWrite 101 r w) w ((fun x => w_record (born_bytes x)) <$> filter recent l))%Z.
Proof.
  clear B HB header Hh.
  induction l as [|x l IH]; intros rid c w Hl Hn; [cbn; by rewrite Z.add_0_r|]. cbn [fmap list_fmap fold_res rows length] in *.
  assert (Hx : born_ok x) by (apply Hl; left). replace (rid + Z.of_nat (S (length l)))%Z with (rid + 1 + Z.of_nat (length l))%Z by lia.
  assert (E : writeCandidateAndWRecord wMin (born_bytes x) (rid, c, w)
    = Ok (rid + 1, flatWrite CAND_REC_SIZE (cand_bytes (rid, x)) c, if decide (recent x) then flatWrite 101 (w_record (born_bytes x)) w else w)%Z).
  { unfold writeCandidateAndWRecord. rewrite bool_decide_eq_false_2 by lia. rewrite height_born, cand_record_born by done.
    destruct (decide (recent x)) as [Hr|Hr]; unfold recent in Hr; [rewrite bool_decide_eq_false_2 by lia|rewrite bool_decide_eq_true_2 by lia]; done. }
  rewrite E. cbn [mbind res_bind foldl]. rewrite IH by (lia || (intros y Hy; apply Hl; by right)). rewrite filter_cons. by destruct (decide (recent x)).
Qed.

Lemma run_writeCandidateAndWRecords : (Z.of_nat (length B) <= 2 ^ 32)%Z -> exists n c w,
  writeCandidateAndWRecords (header ++ concat (born_bytes <$> B)) wMin = Ok (n, c, w)
  /\ close_file c = concat (cand_bytes <$> rows 0 B) /\ close_file w = concat ((fun x => w_record (born_bytes x)) <$> filter recent B).
Proof.
  intros Hn. unfold writeCandidateAndWRecords.
  rewrite <- Hh, for_records_written by (by apply sized_born || (unfold OUTPUTS_RECORD_SIZE; lia)). rewrite fold_writeCandidate by done.
  eexists _, _, _. split; [reflexivity|]. split; apply close_writes, writes_on_flatWrite.
Qed.

Definition cand_script_key (p : Z * born) : bytes := n_script p.2.
Definition recent_row (p : Z * born) : Prop := recent p.2.
#[global] Instance recent_row_dec p : Decision (recent_row p).
Proof. apply recent_dec. Defined.

Lemma fold_writeFirstSeen ps : forall st, (forall p, p ∈ ps -> born_ok p.2) ->
  let st' := foldl (fun st rec => writeFirstSeenScriptRecord wMin rec st) st (cand_bytes <$> ps) in
  let hs := heads cand_script_key (ss_last st) ps in
  ss_S st' = foldl (fun w r => writeRecord 37 r w) (ss_S st) ((fun p => s_record (cand_bytes p)) <$> hs)
  /\ ss_Z st' = foldl (fun w r => flatWrite 65 r w) (ss_Z st) ((fun p => z_record (cand_bytes p)) <$> filter recent_row hs).
Proof.
  clear B HB header Hh.
  induction ps as [|p ps IH]; intros st Hl; [done|]. cbn [fmap list_fmap foldl heads]. assert (Hp : born_ok p.2) by (apply Hl; left).
  specialize (fun st => IH st (fun y Hy => Hl y (list_elem_of_further y p ps Hy))).
  assert (E : writeFirstSeenScriptRecord wMin (cand_bytes p) st
    = if decide (ss_last st = Some (cand_script_key p)) then st
      else mkScripts (Some (cand_script_key p)) (writeRecord 37 (s_record (cand_bytes p)) (ss_S st))
             (if decide (recent_row p) then flatWrite 65 (z_record (cand_bytes p)) (ss_Z st) else ss_Z st)).
  { unfold writeFirstSeenScriptRecord. rewrite cand_script_of, cand_heightBE_of, unbe_be4 by (done || apply height_ok_u32, Hp).
    change (n_script p.2) with (cand_script_key p). cbv zeta. destruct (decide (ss_last st = _)) as [E|E]; [by rewrite bool_decide_eq_true_2|].
    rewrite bool_decide_eq_false_2 by done. destruct (decide (recent_row p)) as [Hr|Hr]; unfold recent_row, recent in Hr;
      [rewrite bool_decide_eq_false_2 by lia|rewrite bool_decide_eq_true_2 by lia]; done. }
  rewrite E. destruct (decide (ss_last st = _)) as [E2|E2]; [apply IH|]. rewrite filter_cons. destruct (decide (recent_row p)) as [Hr|Hr]; apply IH.
Qed.
End outputs.

(** * First-seen scripts *)

Lemma rows_snd rid l : snd <$> rows rid l = l.
Proof. induction l as [|x l IH] in rid |- *; [done|]. cbn. by rewrite IH. Qed.

Lemma elem_of_rows rid l p : p ∈ rows rid l -> p.2 ∈ l /\ (rid <= p.1 < rid + Z.of_nat (length l))%Z.
Proof.
  induction l as [|x l IH] in rid |- *; [by intros ?%elem_of_nil|]. cbn [rows length]. intros [->|Hp]%elem_of_cons; cbn; [split; [left|lia]|].
  apply IH in Hp as [? ?]. split; [by right|lia].
Qed.

(** The order of the candidates: by script, then by row. *)
Definition cand_key_of (p : Z * born) : bytes := n_script p.2 ++ be 4 p.1.

Definition script_rows (B : list born) : list (Z * born) := stable_sort cand_key_of (rows 0 B).
Definition firsts (B : list born) : list (Z * born) := heads cand_script_key None (script_rows B).

Lemma rows_sorted s rid l : (0 <= rid)%Z -> (rid + Z.of_nat (length l) <= 2 ^ 32)%Z ->
  key_sorted cand_key_of (filter (fun p => cand_script_key p = s) (rows rid l)).
Proof.
  intros Hr. induction l as [|x l IH] in rid, Hr |- *; intros Hn; [constructor|]. cbn [rows length] in *.
  specialize (IH (rid + 1)%Z ltac:(lia) ltac:(lia)). rewrite filter_cons. case_decide as E; [|done]. constructor; [done|].
  rewrite Forall_forall. intros q [Eq Hq]%list_elem_of_filter. apply elem_of_rows in Hq as [_ Hq]. unfold cand_key_of, cand_script_key in *. cbn [fst snd] in *.
  rewrite E, Eq, ble_app_l. apply ble_be4; unfold u32; lia.
Qed.

Lemma first_with_rows s rid l : first_with s l = snd <$> head (filter (fun p => cand_script_key p = s) (rows rid l)).
Proof.
  unfold first_with. induction l as [|x l IH] in rid |- *; [done|]. cbn [rows]. rewrite !filter_cons. unfold cand_script_key at 1. cbn [snd].
  repeat case_decide; try done; apply IH.
Qed.

Section scripts.
Context (B : list born) (HB : forall x, x ∈ B -> born_ok x) (Hn : (Z.of_nat (length B) <= 2 ^ 32)%Z).

Lemma elem_of_script_rows p : p ∈ script_rows B -> p.2 ∈ B /\ born_ok p.2.
Proof. unfold script_rows. rewrite stable_sort_Permutation. intros [Hp _]%elem_of_rows. auto. Qed.

Lemma script_rows_sorted : key_sorted cand_script_key (script_rows B).
Proof.
  assert (Hin : forall p, p ∈ script_rows B -> born_ok p.2) by (intros p Hp; by apply elem_of_script_rows). revert Hin.
  pose proof (stable_sort_sorted cand_key_of (rows 0 B)) as Hs. fold (script_rows B) in Hs. induction Hs as [|p l Hl IH Hp]; intros Hin; [constructor|].
  constructor; [apply IH; intros q Hq; apply Hin; by right|]. rewrite Forall_forall in Hp |- *. intros q Hq. eapply ble_app_r; [|by apply Hp].
  by rewrite (bn_script _ (Hin p ltac:(left))), (bn_script _ (Hin q ltac:(by right))).
Qed.

Lemma elem_of_firsts p : p ∈ firsts B <-> head (filter (fun q => cand_script_key q = n_script p.2) (rows 0 B)) = Some p.
Proof.
  unfold firsts. rewrite heads_first by apply script_rows_sorted. unfold with_key, script_rows.
  rewrite filter_sort, sort_id by by apply rows_sorted. done.
Qed.

(** The first of each script's run is its first output. *)
Lemma firsts_first p : p ∈ firsts B -> first_with (n_script p.2) B = Some p.2.
Proof. rewrite elem_of_firsts, (first_with_rows _ 0). by intros ->. Qed.

Lemma first_firsts s x : first_with s B = Some x -> exists p, p ∈ firsts B /\ p.2 = x.
Proof.
  intros E. pose proof (first_with_some _ _ _ E) as [_ Es]. rewrite (first_with_rows _ 0) in E.
  destruct (head _) as [p|] eqn:Ep in E; [|done]. injection E as E. exists p. split; [|done]. rewrite elem_of_firsts, E, Es. exact Ep.
Qed.

Lemma run_writeFirstSeenScriptRecords wMin : exists st,
  writeFirstSeenScriptRecords (concat (cand_bytes <$> script_rows B)) wMin = Ok st
  /\ close_file (ss_S st) = concat ((fun p => s_record (cand_bytes p)) <$> firsts B)
  /\ close_file (ss_Z st) = concat ((fun p => z_record (cand_bytes p)) <$> filter (recent_row wMin) (firsts B)).
Proof.
  unfold writeFirstSeenScriptRecords. change (concat (cand_bytes <$> script_rows B)) with ([] ++ concat (cand_bytes <$> script_rows B)).
  change 0 with (length (@nil byte)). rewrite for_records_written; [|unfold CAND_REC_SIZE; lia|].
  - rewrite fold_res_pure. eexists. split; [reflexivity|].
    destruct (fold_writeFirstSeen wMin (script_rows B) (mkScripts None (new_writer []) (new_writer []))) as (-> & ->).
    + intros p Hp. by apply elem_of_script_rows.
    + split; apply close_writes; [apply writes_on_writeRecord|apply writes_on_flatWrite].
  - intros r (p & -> & Hp)%list_elem_of_fmap. apply length_cand. by apply elem_of_script_rows.
Qed.

(** The sorted candidates. *)
Lemma sort_candidates ram : sortByKey (concat (cand_bytes <$> rows 0 B)) CAND_REC_SIZE CAND_KEY_SIZE ram = Ok (concat (cand_bytes <$> script_rows B)).
Proof.
  rewrite run_sortByKey.
  - f_equal. f_equal. apply stable_sort_fmap. intros p Hp. apply cand_key. apply elem_of_rows in Hp as [Hp _]. auto.
  - unfold CAND_KEY_SIZE, CAND_REC_SIZE. lia.
  - intros r (p & -> & Hp)%list_elem_of_fmap. apply length_cand. apply elem_of_rows in Hp as [Hp _]. auto.
Qed.
End scripts.
