(* ===== verification/MergeFacts.v ===== *)
(** Running the merge over a work directory: which files each step reads and leaves, and
    that the freeing of files that are done with, whenever space happens to run short,
    never takes one that is still to be read. *)

From S2P Require Import Prelude KeyCodec LevelDb ValueCodec Store Outputs StoreFacts Rollback Parsing Apply Spend Block Roundtrip Tracker Window Reorg.
From S2P Require Import SyncLoop Batch Chain Forward Indexing Utxo Undo ChainParams Startup Wire AuxPow Decoder RecordFiles Heap ExternalSort SortFacts.
From S2P Require Import AntiJoin SeedStreams WorkDir DeriveKeys Loader Seeder StreamFacts RangeFacts SeedChain DeriveFacts.

#[local] Open Scope string_scope.
#[local] Open Scope nat_scope.
#[local] Open Scope list_scope.

(** * Steps that return *)

(** From [P] the step returns [a] and leaves [Q]. *)
Definition returns {A} (P : work_dir -> Prop) (m : WM A) (a : A) (Q : work_dir -> Prop) : Prop :=
  forall d, P d -> exists d', m d = (Ok a, d') /\ Q d'.

Lemma returns_bind {A B} P Q R (m : WM A) (f : A -> WM B) a b :
  returns P m a Q -> returns Q (f a) b R -> returns P (m ≫= f) b R.
Proof.
  intros Hm Hf d Hd. destruct (Hm d Hd) as (d1 & E1 & H1). destruct (Hf d1 H1) as (d2 & E2 & H2). exists d2. split; [|done]. by rewrite (run_bind_ok _ _ _ _ _ E1).
Qed.

Lemma returns_lift {A} P (r : res A) a : r = Ok a -> returns P (lift_res r) a P.
Proof. intros -> d Hd. by exists d. Qed.

Lemma returns_ret {A} P (a : A) : returns P (mret a) a P.
Proof. intros d Hd. by exists d. Qed.

Lemma returns_post {A} P (Q Q' : work_dir -> Prop) (m : WM A) a : returns P m a Q -> (forall d, Q d -> Q' d) -> returns P m a Q'.
Proof. intros Hm HQ d Hd. destruct (Hm d Hd) as (d' & E & H). exists d'. auto. Qed.

(** * Directories *)

(** The files [F] are there, only names among [Q] are queued, and the key files are [K]. *)
Record dir (F : list (string * bytes)) (Q : list string) (K : key_files) (d : work_dir) : Prop := {
  dr_files : forall n f, (n, f) ∈ F -> wd_merge d !! n = Some f;
  dr_queue : forall n, n ∈ wd_queue d -> n ∈ Q;
  dr_keys : wd_keys d = K;
}.

(** No file of [F] may be freed. *)
Definition apart (F : list (string * bytes)) (Q : list string) : Prop := forall n, n ∈ F.*1 -> n ∉ Q.

Lemma dir_weaken F F' Q Q' K d : F' ⊆ F -> Q ⊆ Q' -> dir F Q K d -> dir F' Q' K d.
Proof. intros HF HQ [H1 H2 H3]. split; [intros n f Hn; by apply H1, HF|intros n Hn; by apply HQ, H2|done]. Qed.

Lemma returns_read F Q K n f : (n, f) ∈ F -> returns (dir F Q K) (read_merge n) f (dir F Q K).
Proof. intros Hn d Hd. exists d. split; [|done]. unfold read_merge. by rewrite (dr_files _ _ _ _ Hd n f Hn). Qed.

Lemma returns_write F Q K n f : n ∉ F.*1 -> returns (dir F Q K) (write_merge n f) tt (dir ((n, f) :: F) Q K).
Proof.
  intros Hn d [H1 H2 H3]. eexists. split; [reflexivity|]. split; [|done|done]. intros n' f' [[= -> ->]|Hf]%elem_of_cons; cbn; [by rewrite lookup_insert_eq|].
  rewrite lookup_insert_ne; [by apply H1|]. intros ->. apply Hn. apply list_elem_of_fmap. by exists (n', f').
Qed.

Definition put_file (pfx : string) (file : bytes) (K : key_files) : key_files := mkFiles (<[pfx:=file]> (kf_dat K)) (kf_L K).

Lemma returns_write_dat F Q K pfx file : returns (dir F Q K) (write_dat pfx file) tt (dir F Q (put_file pfx file K)).
Proof. intros d [H1 H2 H3]. eexists. split; [reflexivity|]. split; [done|done|]. cbn. by rewrite H3. Qed.

Lemma returns_enqueue F Q K n : returns (dir F Q K) (enqueue n) tt (dir F (n :: Q) K).
Proof.
  intros d [H1 H2 H3]. eexists. split; [reflexivity|]. case_bool_decide; cbn; (split; [done| |done]); cbn; intros m; [|intros ?; right; auto].
  intros [?|?%list_elem_of_singleton]%elem_of_app; [right; auto|]. subst. left.
Qed.

Lemma unlink_apart short queue m : let r := unlink_while_low short queue m in
  (forall n, n ∈ r.1 -> n ∈ queue) /\ (forall n, n ∉ queue -> r.2 !! n = m !! n).
Proof.
  cbv zeta. induction short as [|b short IH] in queue, m |- *; [by destruct queue|]. destruct queue as [|q queue]; [done|]. cbn [unlink_while_low].
  destruct (IH queue (if b then delete q m else m)) as [I1 I2]. split; [intros n Hn; right; by apply I1|].
  intros n Hn. rewrite not_elem_of_cons in Hn. rewrite I2 by tauto. destruct b; [|done]. apply lookup_delete_ne. intros ->. tauto.
Qed.

(** Freeing while space is short takes queued files only. *)
Lemma returns_maybeFree F Q K t : apart F Q -> returns (dir F Q K) (maybeFree t) tt (dir F Q K).
Proof.
  intros Ha d [H1 H2 H3]. unfold maybeFree. case_bool_decide; [by exists d|]. pose proof (unlink_apart (hd [] (wd_pressure d)) (wd_queue d) (wd_merge d)) as [U1 U2].
  destruct (unlink_while_low _ _ _) as [queue m]. cbn [fst snd] in *. eexists. split; [reflexivity|]. split; cbn; [|auto|done].
  intros n f Hn. rewrite U2; [by apply H1|]. intros Hq%H2. revert Hq. apply Ha. apply list_elem_of_fmap. by exists (n, f).
Qed.

(** The length of a concatenation of fields. *)
Ltac fields := intros; cbn [enc]; rewrite ?length_app, ?length_be; repeat match goal with Hx : born_ok ?x |- _ => rewrite ?(bn_txid x Hx), ?(bn_script x Hx), ?(bn_block x Hx); clear Hx end; reflexivity.

Section merge.
Context {envs : Environment}.
Context (args : seed_args).

Lemma returns_free_after F F' Q K n : F' ⊆ F -> apart F' (n :: Q) -> returns (dir F Q K) (free_after args n) tt (dir F' (n :: Q) K).
Proof.
  intros HF Ha. unfold free_after. eapply returns_bind; [apply returns_enqueue|]. intros d Hd. apply (returns_maybeFree F' (n :: Q) K); [done|].
  by eapply dir_weaken; [exact HF|done|].
Qed.

(** * The derivation *)

Section derive.
Context {node : Node}.
Context (bs : list block_data) (L : list born) (header meta spends : bytes) (undo ram : Z) (txIndex : bool).
Implicit Type K : key_files.

Abbreviation B := (all_born bs).

Definition derive_of : derive_ctx := mkCtx "all-meta.dat" "all-outputs.dat" "live-utxos.dat" "spends-sorted.dat" undo true txIndex ram.

Definition tip_of : Z := from_option bd_height (-1)%Z (last bs).
Definition wMin : Z := Z.max 0 (tip_of - undo + 1).

Definition sorted_file (n : nat) (recs : list bytes) : bytes := concat (stable_sort (take n) recs).

Definition b_file : bytes := sorted_file 33 ((fun b => b_record (meta_of b)) <$> bs).
Definition n_file : bytes := sorted_file 33 (n_record <$> last_n undo ((fun b => h2b (bd_hash b)) <$> bs)).
Definition h_file : bytes := concat ((fun x => h_record (born_bytes x)) <$> L).
Definition o_file : bytes := sorted_file 69 ((fun x => o_record (born_bytes x)) <$> L).
Definition t_file : bytes := sorted_file 37 ((fun x => t_record (born_bytes x)) <$> tx_heads B).
Definition x_file : bytes := sorted_file 33 ((fun x => x_record (born_bytes x)) <$> tx_heads B).
Definition y_file : bytes := sorted_file 65 ((fun x => y_record (born_bytes x)) <$> filter (recent wMin) (tx_heads B)).
Definition w_file : bytes := sorted_file 69 ((fun x => w_record (born_bytes x)) <$> filter (recent wMin) B).
Definition s_file : bytes := concat ((fun p => s_record (cand_bytes p)) <$> firsts B).
Definition z_file : bytes := sorted_file 65 ((fun p => z_record (cand_bytes p)) <$> filter (recent_row wMin) (firsts B)).

Lemma close_mapped_n (l : list bytes) : close_file (foldl (fun w h => flatWrite 33 (n_record h) w) (new_writer []) l) = concat (n_record <$> l).
Proof. rewrite <- (list_fmap_id l) at 1. apply (close_mapped (flatWrite 33) n_record); [apply writes_on_flatWrite|done]. Qed.

Lemma last_n_sub {A} n (l : list A) x : x ∈ last_n n l -> x ∈ l.
Proof. unfold last_n. intros Hx. rewrite <- (take_drop (Z.to_nat (Z.of_nat (length l) - n)) l), elem_of_app. by right. Qed.

(** The directory as the files are read and freed. *)
Definition files_meta : list (string * bytes) :=
  [("all-meta.dat", meta); ("live-utxos.dat", concat (born_bytes <$> L)); ("all-outputs.dat", header ++ concat (born_bytes <$> B)); ("spends-sorted.dat", spends)].
Definition files_live := tail files_meta.
Definition files_outputs := tail files_live.
Definition queued0 : list string := ["outputs-sorted.dat"; "all-spends.dat"].
Definition queued_meta := "all-meta.dat" :: queued0.
Definition queued_live := "live-utxos.dat" :: queued_meta.
Definition queued_outputs := "spends-sorted.dat" :: "all-outputs.dat" :: queued_live.

Ltac apart_names := unfold apart; cbn; set_solver.

Context (Hbs : forall b, b ∈ bs -> block_wf b) (HL : forall x, x ∈ L -> born_ok x) (Hu : (0 < undo)%Z).
Context (Hmeta : readMeta meta = Ok (meta_of <$> bs)) (Hheader : length header = HEADER_SIZE).
Context (Hcount : (Z.of_nat (length B) <= 2 ^ 32)%Z) (Hrs : ar_removeSpent args = true).

Lemma born_of_chain x : x ∈ B -> born_ok x.
Proof. intros (b & Hb & Hx)%elem_of_all_born. eapply born_of_ok; [by apply Hbs|done]. Qed.

Lemma sized_fmap {A} n (g : A -> bytes) (l : list A) : (forall x, x ∈ l -> length (g x) = n) -> sized n (g <$> l).
Proof. intros Hl r (x & -> & Hx)%list_elem_of_fmap. by apply Hl. Qed.

Lemma returns_sort F Q K {A} (g : A -> bytes) (l : list A) rs ks : 0 < ks <= rs -> (forall x, x ∈ l -> length (g x) = rs) ->
  returns (dir F Q K) (lift_res (sortByKey (concat (g <$> l)) rs ks ram)) (sorted_file ks (g <$> l)) (dir F Q K).
Proof. intros Hk Hl. apply returns_lift. apply run_sortByKey; [done|]. by apply sized_fmap. Qed.

(** ** Lengths of the records *)

Lemma length_b b : block_wf b -> length (b_record (meta_of b)) = 73.
Proof. intros Hb. unfold b_record. cbn [meta_of mb_hash mb_prev]. rewrite !copy32_id by (apply h2b_hash32, Hb). rewrite !length_app, !length_be, (h2b_hash32 _ (bk_hash _ Hb)), (h2b_hash32 _ (bk_prev _ Hb)). done. Qed.

Lemma length_n h : hash32 h -> length (n_record h) = 33.
Proof. intros Hh. unfold n_record. rewrite copy32_id, length_app, Hh by done. done. Qed.

Lemma length_h x : born_ok x -> length (h_record (born_bytes x)) = 69.
Proof. intros Hx. rewrite h_record_born by done. fields. Qed.
Lemma length_o x : born_ok x -> length (o_record (born_bytes x)) = 114.
Proof. intros Hx. rewrite o_record_born by done. unfold o_value. fields. Qed.
Lemma length_t x : born_ok x -> length (t_record (born_bytes x)) = 101.
Proof. intros Hx. rewrite t_record_born by done. fields. Qed.
Lemma length_x x : born_ok x -> length (x_record (born_bytes x)) = 65.
Proof. intros Hx. rewrite x_record_born by done. fields. Qed.
Lemma length_y x : born_ok x -> length (y_record (born_bytes x)) = 97.
Proof. intros Hx. rewrite y_record_born by done. fields. Qed.
Lemma length_w x : born_ok x -> length (w_record (born_bytes x)) = 101.
Proof. intros Hx. rewrite w_record_born by done. fields. Qed.
Lemma length_s p : born_ok p.2 -> length (s_record (cand_bytes p)) = 37.
Proof. intros Hx. rewrite s_record_of by done. fields. Qed.
Lemma length_z p : born_ok p.2 -> length (z_record (cand_bytes p)) = 65.
Proof. intros Hx. rewrite z_record_of by done. fields. Qed.

Lemma run_deriveBlockKeys K :
  returns (dir files_meta queued0 K) (deriveBlockKeys (derive_progress args) derive_of)
    (tip_of, (fun b => h2b (bd_hash b)) <$> last bs) (dir files_live queued_meta (put_file "N" n_file (put_file "B" b_file K))).
Proof.
  destruct (run_scanMetaBlocks derive_of bs eq_refl Hu) as (E1 & E2 & E3 & E4 & E5). unfold deriveBlockKeys.
  eapply returns_bind; [apply returns_ret|]. eapply returns_bind; [apply returns_read; left|]. eapply returns_bind; [by apply returns_lift|].
  cbv zeta. rewrite E1, E2, E3, E4, E5.
  eapply returns_bind; [apply (returns_free_after files_meta files_live); [set_solver|apart_names]|].
  eapply returns_bind; [apply returns_sort; [lia|]|].
  { intros b Hb. by apply length_b, Hbs. }
  eapply returns_bind; [apply returns_write_dat|]. eapply returns_bind; [apply returns_ret|].
  rewrite close_mapped_n. eapply returns_bind; [apply returns_sort; [lia|]|].
  { intros h (b & -> & Hb)%last_n_sub%list_elem_of_fmap. apply length_n, h2b_hash32. by apply Hbs. }
  eapply returns_bind; [apply returns_write_dat|]. eapply returns_bind; [apply returns_ret|]. apply returns_ret.
Qed.

Lemma run_deriveOutputKeys K :
  returns (dir files_live queued_meta K) (deriveOutputKeys (derive_progress args) derive_of) tt
    (dir files_outputs queued_live (put_file "O" o_file (put_file "H" h_file K))).
Proof.
  destruct (run_writeLiveOutputRecords L HL) as (h & o & El & Eh & Eo). unfold deriveOutputKeys.
  eapply returns_bind; [apply returns_read; left|]. eapply returns_bind; [by apply returns_lift|]. cbv beta iota. rewrite Eh, Eo.
  eapply returns_bind; [apply returns_write_dat|].
  eapply returns_bind; [apply (returns_free_after files_live files_outputs); [set_solver|apart_names]|].
  eapply returns_bind; [apply returns_sort; [lia|]|].
  { intros x Hx. by apply length_o, HL. }
  eapply returns_bind; [apply returns_write_dat|]. apply returns_ret.
Qed.

Lemma elem_of_tx_heads x : x ∈ tx_heads B -> x ∈ B.
Proof. apply heads_sub. Qed.

Lemma run_deriveTxIndexKeys K :
  returns (dir files_outputs queued_live K) (deriveTxIndexKeys (derive_progress args) derive_of wMin) tt
    (dir files_outputs queued_live (put_file "Y" y_file (put_file "X" x_file (put_file "T" t_file K)))).
Proof.
  destruct (run_writeTxIndexRecords B born_of_chain header Hheader wMin) as (st & Es & Et & Ex & Ey). unfold deriveTxIndexKeys.
  eapply returns_bind; [apply returns_read; left|]. eapply returns_bind; [by apply returns_lift|]. rewrite Et, Ex, Ey.
  eapply returns_bind; [apply returns_sort; [lia|]|].
  { intros x Hx. by apply length_t, born_of_chain, elem_of_tx_heads. }
  eapply returns_bind; [apply returns_write_dat|].
  eapply returns_bind; [apply returns_sort; [lia|]|].
  { intros x Hx. by apply length_x, born_of_chain, elem_of_tx_heads. }
  eapply returns_bind; [apply returns_write_dat|].
  eapply returns_bind; [apply returns_sort; [lia|]|].
  { intros x [_ Hx]%list_elem_of_filter. by apply length_y, born_of_chain, elem_of_tx_heads. }
  eapply returns_bind; [apply returns_write_dat|]. apply returns_ret.
Qed.

Lemma run_writeScriptCandidates K :
  returns (dir files_outputs queued_live K) (writeScriptCandidates (derive_progress args) derive_of tip_of)
    (concat (cand_bytes <$> script_rows B)) (dir [] queued_outputs (put_file "W" w_file K)).
Proof.
  destruct (run_writeCandidateAndWRecords B born_of_chain header Hheader wMin Hcount) as (n & c & w & E & Ec & Ew). unfold writeScriptCandidates.
  eapply returns_bind; [apply returns_read; left|]. cbv zeta. change (Z.max 0 _) with wMin.
  eapply returns_bind; [by apply returns_lift|]. cbv beta iota. rewrite Ec, Ew.
  eapply (returns_bind _ (dir [] queued_outputs K)).
  { unfold derive_progress. cbn [bool_decide decide]. rewrite !bool_decide_eq_false_2, bool_decide_eq_true_2 by done. rewrite Hrs.
    eapply returns_bind; [apply returns_enqueue|]. eapply returns_bind; [apply returns_enqueue|].
    intros d Hd. apply (returns_maybeFree [] queued_outputs K); [apart_names|]. by eapply dir_weaken; [| |exact Hd]; set_solver. }
  eapply returns_bind; [apply returns_lift; apply (sort_candidates B born_of_chain)|]. eapply returns_bind; [apply returns_ret|].
  eapply returns_bind; [apply returns_sort; [lia|]|].
  { intros x [_ Hx]%list_elem_of_filter. by apply length_w, born_of_chain. }
  eapply returns_bind; [apply returns_write_dat|]. eapply returns_bind; [apply returns_ret|]. apply returns_ret.
Qed.

Lemma run_deriveScriptKeys K :
  returns (dir [] queued_outputs K) (deriveScriptKeys (derive_progress args) derive_of (concat (cand_bytes <$> script_rows B)) wMin) tt
    (dir [] queued_outputs (put_file "Z" z_file (put_file "S" s_file K))).
Proof.
  destruct (run_writeFirstSeenScriptRecords B born_of_chain wMin) as (st & E & Es & Ez). unfold deriveScriptKeys.
  eapply returns_bind; [by apply returns_lift|]. rewrite Es, Ez.
  eapply returns_bind; [apply returns_write_dat|]. eapply returns_bind; [apply returns_ret|].
  eapply returns_bind; [apply returns_sort; [lia|]|].
  { intros p [_ Hp]%list_elem_of_filter. apply length_z. apply heads_sub in Hp. by apply (elem_of_script_rows B born_of_chain). }
  eapply returns_bind; [apply returns_write_dat|]. apply returns_ret.
Qed.

(** The key files of the whole pass. *)
Definition cleared K : key_files := mkFiles (foldl (fun m pfx => delete pfx m) (kf_dat K) (LAYOUT_PREFIXES ++ TX_INDEX_PREFIXES)) None.

Definition derived K : key_files :=
  let K := put_file "O" o_file (put_file "H" h_file (put_file "N" n_file (put_file "B" b_file (cleared K)))) in
  let K := if txIndex then put_file "Y" y_file (put_file "X" x_file (put_file "T" t_file K)) else K in
  let K := put_file "Z" z_file (put_file "S" s_file (put_file "W" w_file K)) in
  mkFiles (kf_dat K) ((fun b => mkMarkers (to_radix 16 (bd_height b)) (b2h (h2b (bd_hash b))) (Some txIndex)) <$> last bs).

Lemma run_deriveKeys K : bs <> [] ->
  returns (dir files_meta queued0 K) (deriveKeys (derive_progress args) derive_of) tt (dir [] queued_outputs (derived K)).
Proof.
  intros Hne. unfold deriveKeys, derived. destruct (last bs) as [b|] eqn:El; [|by apply last_None in El].
  eapply (returns_bind _ (dir files_meta queued0 (cleared K))).
  { intros d [H1 H2 H3]. eexists. split; [reflexivity|]. split; [done|done|]. cbn. by rewrite H3. }
  eapply returns_bind; [apply run_deriveBlockKeys|]. cbv beta iota. eapply returns_bind; [apply run_deriveOutputKeys|].
  cbv zeta. change (Z.max 0 _) with wMin. change (cx_txIndex derive_of) with txIndex.
  set (K2 := put_file "O" _ _). set (K3 := if txIndex then _ else _).
  eapply (returns_bind _ (dir files_outputs queued_live K3)).
  { unfold K3. destruct txIndex; [apply run_deriveTxIndexKeys|apply returns_ret]. }
  eapply returns_bind; [apply run_writeScriptCandidates|]. eapply returns_bind; [apply run_deriveScriptKeys|].
  eapply returns_bind.
  { unfold deriveSpendKeys. cbn [cx_removeSpent derive_of]. apply returns_ret. }
  rewrite El. cbn [fmap option_fmap option_map]. assert (Et : tip_of = bd_height b) by (unfold tip_of; by rewrite El). rewrite Et.
  eapply returns_bind; [|apply returns_ret]. intros d [H1 H2 H3]. eexists. split; [reflexivity|]. split; [done|done|]. cbn. by rewrite H3.
Qed.
End derive.
End merge.

(** * The anti-join over a chain's outputs and spends *)

(** * Outpoints as keys *)

Definition op_key (op : bytes * Z) : bytes := op.1 ++ be 4 op.2.

Lemma op_key_inj op op' : hash32 op.1 -> hash32 op'.1 -> u32 op.2 -> u32 op'.2 -> op_key op = op_key op' -> op = op'.
Proof. destruct op as [t i], op' as [t' i']. cbn. unfold op_key. cbn. intros Ht Ht' Hi Hi' E. apply app_inj_32 in E as [-> E]; [|done..]. by apply be4_inj in E as ->. Qed.

Lemma born_key x : born_ok x -> take OUTPUTS_KEY_SIZE (born_bytes x) = op_key (born_op x).
Proof. intros Hx. unfold born_bytes, op_key. cbn [fst snd born_op]. rewrite app_assoc. apply take_app_length'. by rewrite length_app, length_be, (bn_txid _ Hx). Qed.

Lemma spent_key q : spent_ok q -> take OUTPUTS_KEY_SIZE (spent_bytes q) = op_key (spent_op q).
Proof. intros Hq. unfold spent_bytes, op_key. cbn [fst snd spent_op]. rewrite app_assoc. apply take_app_length'. by rewrite length_app, length_be, (sn_txid _ Hq). Qed.

Lemma NoDup_flat {A C T} (f : A -> list C) (tags : A -> list T) (tag : C -> T) (l : list A) :
  NoDup (flat_map tags l) -> (forall a, a ∈ l -> NoDup (f a)) -> (forall a y, a ∈ l -> y ∈ f a -> tag y ∈ tags a) -> NoDup (flat_map f l).
Proof.
  intros Hn Hf Ht. induction l as [|a l IH]; [constructor|]. cbn [flat_map] in *. apply NoDup_app in Hn as (_ & Hd & Hn). apply NoDup_app. split_and!.
  - apply Hf. left.
  - intros y Hy (b & Hb & Hy')%elem_of_flat_map. apply (Hd (tag y)); [apply Ht; [left|done]|]. apply elem_of_flat_map. exists b. split; [done|]. apply Ht; [by right|done].
  - apply IH; [done|intros; apply Hf; by right|intros b y Hb; apply Ht; by right].
Qed.

Section chain.
Context {node : Node}.
Context (bs : list block_data) (Hv : valid_chain bs).

Lemma born_ok_all x : x ∈ all_born bs -> born_ok x.
Proof. intros (b & Hb & Hx)%elem_of_all_born. eapply born_of_ok; [by apply (vc_blocks _ Hv)|done]. Qed.

Lemma spent_ok_all q : q ∈ all_spent bs -> spent_ok q.
Proof. intros (b & Hb & Hq)%elem_of_flat_map. eapply spent_of_ok; [by apply (vc_blocks _ Hv)|done]. Qed.

Lemma born_NoDup : NoDup (all_born bs).
Proof.
  apply (NoDup_flat born_of txids n_txid); [apply (vc_txids _ Hv)| |].
  - intros b Hb. apply (NoDup_flat (born_tx b) (fun tx => [txid32 tx]) n_txid).
    + pose proof (bk_txids _ (vc_blocks _ Hv b Hb)) as Hn. unfold txids in Hn. revert Hn. generalize (bd_txs b) as l.
      induction l as [|tx l IH]; [done|]. cbn [fmap list_fmap flat_map app]. intros [Hnin Hn]%NoDup_cons. constructor; [|by apply IH].
      intros (t & Ht & E%list_elem_of_singleton)%elem_of_flat_map. apply Hnin. rewrite E. by apply list_elem_of_fmap_2.
    + intros tx _. apply (NoDup_fmap_1 n_vout). unfold born_tx.
      apply NoDup_alt. intros i j x Hi Hj. rewrite list_lookup_fmap, list_lookup_imap in Hi, Hj.
      destruct (outs tx !! i), (outs tx !! j); try discriminate. cbn in Hi, Hj. injection Hi as <-. injection Hj as E. lia.
    + intros tx y _ Hy. unfold born_tx in Hy. apply list_elem_of_lookup in Hy as [i Hi]. rewrite list_lookup_imap in Hi.
      destruct (outs tx !! i); [|done]. injection Hi as <-. left.
  - intros b y Hb Hy. by apply born_height.
Qed.

Lemma born_ops_NoDup : NoDup (born_op <$> all_born bs).
Proof. apply NoDup_fmap_2_strong; [|apply born_NoDup]. intros x y Hx Hy. by apply (same_op bs). Qed.

(** ** The sorted streams *)

Definition sorted_born : list born := stable_sort (fun x => op_key (born_op x)) (all_born bs).
Definition sorted_spent : list spent := stable_sort (fun q => op_key (spent_op q)) (all_spent bs).

(** The outputs the chain leaves unspent, in outpoint order. *)
Definition live : list born := filter (fun x => born_op x ∉ spent_op <$> all_spent bs) sorted_born.

Lemma elem_of_live x : x ∈ live <-> unspent bs x.
Proof. unfold live, unspent, sorted_born. rewrite list_elem_of_filter, stable_sort_Permutation. tauto. Qed.

Lemma elem_of_sorted_born x : x ∈ sorted_born <-> x ∈ all_born bs.
Proof. unfold sorted_born. by rewrite stable_sort_Permutation. Qed.
Lemma elem_of_sorted_spent q : q ∈ sorted_spent <-> q ∈ all_spent bs.
Proof. unfold sorted_spent. by rewrite stable_sort_Permutation. Qed.

Lemma sort_born : stable_sort (take OUTPUTS_KEY_SIZE) (born_bytes <$> all_born bs) = born_bytes <$> sorted_born.
Proof. apply stable_sort_fmap. intros x Hx. by apply born_key, born_ok_all. Qed.

Lemma sort_spent : stable_sort (take SPENDS_KEY_SIZE) (spent_bytes <$> all_spent bs) = spent_bytes <$> sorted_spent.
Proof. apply stable_sort_fmap. intros q Hq. by apply spent_key, spent_ok_all. Qed.

Lemma key_of_spent_or_born x q : x ∈ all_born bs -> q ∈ all_spent bs ->
  take OUTPUTS_KEY_SIZE (born_bytes x) = take OUTPUTS_KEY_SIZE (spent_bytes q) <-> born_op x = spent_op q.
Proof.
  intros Hx%born_ok_all Hq%spent_ok_all. rewrite born_key, spent_key by done. split; [|congruence]. apply op_key_inj; [apply Hx|apply Hq|apply Hx|apply Hq].
Qed.

Lemma filter_fmap_iff {A C} (f : A -> C) (P : C -> Prop) (Q : A -> Prop) `{forall x, Decision (P x)} `{forall x, Decision (Q x)} (l : list A) :
  (forall a, a ∈ l -> P (f a) <-> Q a) -> filter P (f <$> l) = f <$> filter Q l.
Proof.
  induction l as [|a l IH]; intros Hl; [done|]. cbn [fmap list_fmap]. rewrite !filter_cons, IH by (intros b Hb; apply Hl; by right).
  specialize (Hl a ltac:(left)). repeat case_decide; try done; tauto.
Qed.

Lemma unmatched_live : unmatched OUTPUTS_KEY_SIZE (born_bytes <$> sorted_born) (spent_bytes <$> sorted_spent) = born_bytes <$> live.
Proof.
  apply filter_fmap_iff. intros x Hx%elem_of_sorted_born. f_equiv. rewrite <- list_fmap_compose, !list_elem_of_fmap.
  split; intros (q & E & Hq); exists q; [apply elem_of_sorted_spent in Hq|pose proof Hq as Hq'; apply elem_of_sorted_spent in Hq']; (split; [|done]); by apply key_of_spent_or_born.
Qed.

Lemma unmatched_orphans : unmatched OUTPUTS_KEY_SIZE (spent_bytes <$> sorted_spent) (born_bytes <$> sorted_born) = [].
Proof.
  unfold unmatched. destruct (filter _ _) as [|r l] eqn:E; [done|]. exfalso.
  assert (Hr : r ∈ r :: l) by left. rewrite <- E in Hr. apply list_elem_of_filter in Hr as [Hn (q & -> & Hq)%list_elem_of_fmap].
  apply elem_of_sorted_spent in Hq. pose proof (spent_known bs (spent_op q) Hv (list_elem_of_fmap_2 _ _ _ Hq)) as (x & Ex & Hx)%list_elem_of_fmap.
  apply Hn. rewrite <- list_fmap_compose. apply list_elem_of_fmap. exists x. split; [|by apply elem_of_sorted_born]. symmetry. by apply key_of_spent_or_born.
Qed.

Lemma keyed_ops {A} (enc_of : A -> bytes) (op : A -> bytes * Z) (l : list A) :
  (forall a, a ∈ l -> take OUTPUTS_KEY_SIZE (enc_of a) = op_key (op a)) -> (forall a b, a ∈ l -> b ∈ l -> op_key (op a) = op_key (op b) -> op a = op b) ->
  NoDup (op <$> l) -> keyed OUTPUTS_KEY_SIZE (enc_of <$> stable_sort (fun a => op_key (op a)) l).
Proof.
  intros Hk Hi Hn. rewrite <- (stable_sort_fmap (fun a => op_key (op a)) (take OUTPUTS_KEY_SIZE)) by done. apply keyed_sorted; [apply stable_sort_sorted|].
  rewrite stable_sort_Permutation, <- list_fmap_compose. apply NoDup_fmap_2_strong; [|by eapply NoDup_fmap_1].
  intros a b Ha Hb E. cbn in E. rewrite !Hk in E by done. apply Hi in E; [|done..].
  apply list_elem_of_lookup in Ha as [i Ha], Hb as [j Hb]. assert (i = j) as ->; [|congruence].
  apply (NoDup_lookup _ i j (op a) Hn); rewrite list_lookup_fmap; [by rewrite Ha|]. by rewrite Hb, E.
Qed.

Lemma run_join : leftAntiJoin (mkJoin 0 OUTPUTS_RECORD_SIZE 0 SPENDS_RECORD_SIZE OUTPUTS_KEY_SIZE false)
    (concat (born_bytes <$> sorted_born)) (concat (spent_bytes <$> sorted_spent))
  = Ok (concat (born_bytes <$> live), mkStats (Z.of_nat (length sorted_born)) (Z.of_nat (length sorted_spent)) (Z.of_nat (length live))
      (Z.of_nat (length (matched OUTPUTS_KEY_SIZE (born_bytes <$> sorted_born) (spent_bytes <$> sorted_spent)))) 0).
Proof.
  pose proof (run_leftAntiJoin (mkJoin 0 OUTPUTS_RECORD_SIZE 0 SPENDS_RECORD_SIZE OUTPUTS_KEY_SIZE false) [] [] (born_bytes <$> sorted_born) (spent_bytes <$> sorted_spent)) as E.
  cbn [app jo_copyLeftHeader jo_keySize] in E. rewrite E.
  - rewrite unmatched_live, unmatched_orphans, !length_fmap. done.
  - split; cbn [jo_keySize jo_leftRecordSize jo_rightRecordSize jo_leftHeaderSize jo_rightHeaderSize]; try done.
    + unfold OUTPUTS_KEY_SIZE, OUTPUTS_RECORD_SIZE, SPENDS_RECORD_SIZE. lia.
    + apply sized_born. intros x Hx%elem_of_sorted_born. by apply born_ok_all.
    + apply sized_spent. intros x Hx%elem_of_sorted_spent. by apply spent_ok_all.
    + apply keyed_ops; [intros x Hx; by apply born_key, born_ok_all| |apply born_ops_NoDup].
      intros x y Hx%born_ok_all Hy%born_ok_all. apply op_key_inj; [apply Hx|apply Hy|apply Hx|apply Hy].
    + apply keyed_ops; [intros x Hx; by apply spent_key, spent_ok_all| |apply (vc_spends _ Hv)].
      intros x y Hx%spent_ok_all Hy%spent_ok_all. apply op_key_inj; [apply Hx|apply Hy|apply Hx|apply Hy].
Qed.
End chain.
