(* ===== verification/PhaseFacts.v ===== *)
(** A seeding run from the parsed ranges of a chain to its key files: the whole merge
    phase over a fresh directory. *)

From S2P Require Import Prelude KeyCodec ValueCodec LevelDb Store Outputs StoreFacts Rollback Parsing Apply Spend Block.
From S2P Require Import Roundtrip Tracker Window Reorg SyncLoop Batch Undo Chain Forward Indexing Utxo Startup.
From S2P Require Import Wire AuxPow ChainParams Decoder RecordFiles Heap ExternalSort SortFacts AntiJoin SeedStreams WorkDir DeriveKeys Loader Seeder.
From S2P Require Import StreamFacts RangeFacts SeedChain DeriveFacts MergeFacts.

#[local] Open Scope string_scope.
#[local] Open Scope nat_scope.
#[local] Open Scope list_scope.

(** * Parsed ranges *)

(** The blocks of heights [sn_first] to [sn_last]. *)
Record span := mkSpan { sn_first : Z; sn_last : Z; sn_blocks : list block_data }.

Section ranges.
Context {node : Node}.

(** Ranges in height order, one right after the other. *)
Fixpoint spans_ok (prev : option Z) (rs : list span) : Prop :=
  match rs with
  | [] => True
  | r :: rs =>
      u32 (sn_first r) /\ u32 (sn_last r) /\ (sn_first r <= sn_last r)%Z /\ (forall h, prev = Some h -> sn_first r = (h + 1)%Z)
      /\ spans_ok (Some (sn_last r)) rs
  end.

Definition blocks_of (rs : list span) : list block_data := flat_map sn_blocks rs.
Definition last_of (r : span) (rs : list span) : Z := sn_last (List.last rs r).

Section stream.
Context {A : Type} (items : list block_data -> list A) (e : A -> bytes).
Context (Hnil : items [] = []) (Happ : forall l1 l2, items (l1 ++ l2) = items l1 ++ items l2).

Definition stream_piece (first last : Z) (bs : list block_data) : piece :=
  mkPiece first last (Z.of_nat (length (items bs))) (concat (e <$> items bs)).

Definition piece_of (r : span) : piece := stream_piece (sn_first r) (sn_last r) (sn_blocks r).

Lemma total_of rs : total_count (piece_of <$> rs) = Z.of_nat (length (items (blocks_of rs))).
Proof.
  induction rs as [|r rs IH]; [cbn; by rewrite Hnil|]. cbn [fmap list_fmap blocks_of flat_map]. rewrite Happ, length_app, Nat2Z.inj_add.
  change (total_count (piece_of r :: ?l)) with (pc_count (piece_of r) + total_count l)%Z. by rewrite IH.
Qed.

Lemma bodies_of rs : concat (pc_body <$> (piece_of <$> rs)) = concat (e <$> items (blocks_of rs)).
Proof.
  induction rs as [|r rs IH]; [cbn; by rewrite Hnil|]. cbn [fmap list_fmap blocks_of flat_map concat]. rewrite Happ, fmap_app, concat_app. f_equal. exact IH.
Qed.

Lemma pieces_of prev rs : spans_ok prev rs -> u64 (Z.of_nat (length (items (blocks_of rs)))) -> pieces_ok prev (piece_of <$> rs).
Proof.
  induction rs as [|r rs IH] in prev |- *; [done|]. intros (H1 & H2 & H3 & H4 & H5) Hn. cbn [blocks_of flat_map] in Hn.
  rewrite Happ, length_app in Hn. unfold u64 in Hn. cbn [fmap list_fmap pieces_ok]. split_and!; try done.
  - cbn. unfold u64. lia.
  - cbn. intros E. assert (E' : length (items (sn_blocks r)) = 0) by lia. by destruct (items (sn_blocks r)).
  - apply IH; [done|]. unfold u64, blocks_of. lia.
Qed.

Lemma join_of r rs : join_pieces (piece_of r) (piece_of <$> rs) = stream_piece (sn_first r) (last_of r rs) (blocks_of (r :: rs)).
Proof.
  unfold join_pieces, stream_piece. change (piece_of r :: (piece_of <$> rs)) with (piece_of <$> r :: rs). rewrite total_of, bodies_of. f_equal.
  unfold last_of. clear. induction rs as [|q rs IH] in r |- *; [done|]. cbn [fmap list_fmap]. rewrite !last_shift. apply IH.
Qed.

Lemma run_concat magic c n rsize r rs : magic8 magic -> spans_ok None (r :: rs) -> u64 (Z.of_nat (length (items (blocks_of (r :: rs))))) ->
  concatFilesWithHeader ((fun r => piece_file magic c n rsize (piece_of r)) <$> r :: rs)
  = Ok (piece_file magic c n rsize (stream_piece (sn_first r) (last_of r rs) (blocks_of (r :: rs)))).
Proof.
  intros Hm Hs Hn. rewrite <- join_of, <- run_concatFiles.
  - f_equal. change (piece_of r :: (piece_of <$> rs)) with (piece_of <$> r :: rs). by rewrite <- list_fmap_compose.
  - done.
  - exact (pieces_of None (r :: rs) Hs Hn).
  - change (u64 (total_count (piece_of <$> r :: rs))). by rewrite total_of.
Qed.
End stream.
End ranges.

(** * The merge phase *)

Section phase.
Context {envs : Environment} {node : Node}.
Context (args : seed_args) (c n : Z) (r : span) (rs : list span).

Abbreviation bs := (blocks_of (r :: rs)).
Abbreviation first := (sn_first r).
Abbreviation lastH := (last_of r rs).

(** The files the parse of each range leaves. *)
Definition range_files (r : span) : parsed := parsed_of c n (sn_first r) (sn_last r) (sn_blocks r).

(** A work directory with the parsed ranges and nothing merged yet. *)
Record fresh_dir (d : work_dir) : Prop := {
  fr_merge : wd_merge d = ∅;
  fr_queue : wd_queue d = [];
  fr_outputs : findFiles (wd_parsed d) "outputs-" ".dat" = (fun r => p_outputs (range_files r)) <$> r :: rs;
  fr_spends : findFiles (wd_parsed d) "spends-" ".dat" = (fun r => p_spends (range_files r)) <$> r :: rs;
  fr_meta : findFiles (wd_parsed d) "meta-" ".dat" = (fun r => p_meta (range_files r)) <$> r :: rs;
}.

Context (Hspans : spans_ok None (r :: rs)) (Hcounts : counts_ok bs).

Definition head_of (magic : bytes) (count rsize : Z) : bytes := dat_header magic c n first lastH count rsize.
Definition outputs_head := head_of MAGIC_OUTPUTS (Z.of_nat (length (all_born bs))) 113.
Definition spends_head := head_of MAGIC_SPENDS (Z.of_nat (length (all_spent bs))) 68.
Definition meta_head := head_of MAGIC_META (Z.of_nat (length bs)) 0.

Definition all_outputs : bytes := outputs_head ++ concat (born_bytes <$> all_born bs).
Definition all_spends : bytes := spends_head ++ concat (spent_bytes <$> all_spent bs).
Definition all_meta : bytes := meta_head ++ concat (meta_bytes <$> bs).

(** Exactly these merge files. *)
Record exactly (m : gmap string bytes) (K : key_files) (d : work_dir) : Prop := {
  ex_merge : wd_merge d = m; ex_queue : wd_queue d = []; ex_keys : wd_keys d = K }.

Definition merged : gmap string bytes :=
  <["all-meta.dat":=all_meta]> (<["all-spends.dat":=all_spends]> (<["all-outputs.dat":=all_outputs]> ∅)).

Lemma run_concatOrReuse d : fresh_dir d -> exists d', concatOrReuse args d = (Ok tt, d') /\ exactly merged (wd_keys d) d'.
Proof.
  intros [Hm Hq Ho Hs Ht]. destruct Hcounts as (Co & Cs & Cm). unfold concatOrReuse, mbind, M_bind, get, lift_res.
  assert (E1 : concatFilesWithHeader ((fun r => p_outputs (range_files r)) <$> r :: rs) = Ok all_outputs)
    by exact (run_concat (flat_map born_of) born_bytes eq_refl (fun l1 l2 => flat_map_app _ l1 l2) MAGIC_OUTPUTS c n 113 r rs eq_refl Hspans Co).
  assert (E2 : concatFilesWithHeader ((fun r => p_spends (range_files r)) <$> r :: rs) = Ok all_spends)
    by exact (run_concat (flat_map spent_of) spent_bytes eq_refl (fun l1 l2 => flat_map_app _ l1 l2) MAGIC_SPENDS c n 68 r rs eq_refl Hspans Cs).
  assert (E3 : concatFilesWithHeader ((fun r => p_meta (range_files r)) <$> r :: rs) = Ok all_meta)
    by exact (run_concat (fun bs => bs) meta_bytes eq_refl (fun l1 l2 => eq_refl) MAGIC_META c n 0 r rs eq_refl Hspans Cm).
  unfold concatReusableForRun. rewrite Hm, lookup_empty, Ho, Hs, Ht, E1, E2, E3.
  eexists. split; [reflexivity|]. split; cbn; [by rewrite Hm|done|done].
Qed.

Lemma run_sortStream m K allName sortedName header recs rsize ks ram :
  length header = HEADER_SIZE -> m !! allName = Some (header ++ concat recs) -> m !! sortedName = None -> 0 < ks <= rsize -> sized rsize recs ->
  returns (exactly m K) (sortStream allName sortedName (Z.of_nat rsize) (Z.of_nat ks) ram) tt
    (exactly (<[sortedName:=concat (stable_sort (take ks) recs)]> m) K).
Proof.
  intros Hh Ha Hs Hk Hl d [H1 H2 H3]. unfold sortStream, mbind, M_bind, read_merge, lift_res. rewrite H1, Ha. cbn [fst snd].
  unfold parseDatHeader. rewrite bool_decide_eq_false_2 by (rewrite length_app; lia).
  unfold sortedReusable, gets. rewrite H1, Hs. rewrite bool_decide_eq_false_2 by (by intros []). cbn [andb].
  rewrite (run_externalSort _ rsize ks header recs) by done. cbn [kept_header so_preserveHeader app write_merge modify].
  eexists. split; [reflexivity|]. split; cbn; [by rewrite H1|done|done].
Qed.

Context (Hv : valid_chain bs) (Hmeta : forall b, b ∈ bs -> meta_ok b) (Hcount : (Z.of_nat (length (all_born bs)) <= 2 ^ 32)%Z).
Context (Hrs : ar_removeSpent args = true) (undo : Z) (low : bool).
Context (Hundo : resolveUndoBlocks (ar_network args) None = Ok (undo, low)) (Hpos : (0 < undo)%Z) (Hne : bs <> []).

Definition ram : Z := (ar_ramBudget args * 1024 * 1024)%Z.
Definition txIndexed : bool := negb (is_bitcoin (ar_network args)).

Definition sorted_outputs : bytes := concat (born_bytes <$> sorted_born bs).
Definition sorted_spends : bytes := concat (spent_bytes <$> sorted_spent bs).

Lemma length_head magic count rsize : magic8 magic -> length (head_of magic count rsize) = HEADER_SIZE.
Proof. apply length_dat_header. Qed.

Lemma current_format : assertCurrentParseFormat all_outputs all_spends all_meta = Ok tt.
Proof.
  unfold assertCurrentParseFormat, all_outputs, all_spends, all_meta, outputs_head, spends_head, meta_head, head_of.
  assert (Hl : forall magic count rsize body, magic8 magic -> 8 <= length (dat_header magic c n first lastH count rsize ++ body)).
  { intros. rewrite length_app, length_dat_header by done. unfold HEADER_SIZE. lia. }
  rewrite !bool_decide_eq_true_2; [done|..]; try (by apply Hl); by apply header_magic.
Qed.

Lemma outputs_size : readOutputsRecordSize all_outputs = Z.of_nat OUTPUTS_RECORD_SIZE.
Proof.
  unfold readOutputsRecordSize, all_outputs, outputs_head, head_of. rewrite header_recordSize by done.
  rewrite bool_decide_eq_false_2 by (rewrite length_le; lia). reflexivity.
Qed.

Definition after_sorts : gmap string bytes := <["spends-sorted.dat":=sorted_spends]> (<["outputs-sorted.dat":=sorted_outputs]> merged).

Definition files_join : list (string * bytes) :=
  [("outputs-sorted.dat", sorted_outputs); ("spends-sorted.dat", sorted_spends); ("all-meta.dat", all_meta); ("all-outputs.dat", all_outputs)].

Lemma after_sorts_dir K d : exactly after_sorts K d -> dir (("all-spends.dat", all_spends) :: files_join) [] K d.
Proof.
  intros [H1 H2 H3]. split; [|by rewrite H2|done]. rewrite H1. unfold after_sorts, merged. intros m f Hm.
  repeat (apply elem_of_cons in Hm as [[= -> ->]|Hm]; [by simplify_map_eq|]). by apply elem_of_nil in Hm.
Qed.

(** What the phase leaves among the key files. *)
Definition seed_files (K : key_files) : key_files := derived bs (live bs) undo txIndexed K.

Lemma read_exactly m K name file : m !! name = Some file -> returns (exactly m K) (read_merge name) file (exactly m K).
Proof. intros Hn d Hd. exists d. split; [|done]. unfold read_merge. by rewrite (ex_merge _ _ _ Hd), Hn. Qed.

Lemma returns_pre {A} (P P' Q : work_dir -> Prop) (m : WM A) a : (forall d, P d -> P' d) -> returns P' m a Q -> returns P m a Q.
Proof. intros HP Hm d Hd. by apply Hm, HP. Qed.

Lemma run_sorts K : returns (exactly merged K)
  (_ ← sortOutputs (Z.of_nat OUTPUTS_RECORD_SIZE) ram; sortSpends ram) tt (exactly after_sorts K).
Proof.
  eapply returns_bind.
  - apply (run_sortStream merged K "all-outputs.dat" "outputs-sorted.dat" outputs_head (born_bytes <$> all_born bs));
      [by apply length_head|done|done|unfold OUTPUTS_KEY_SIZE, OUTPUTS_RECORD_SIZE; lia|apply sized_born; intros x; apply (born_ok_all bs Hv)].
  - unfold after_sorts, sorted_outputs, sorted_spends. rewrite <- sort_born, <- sort_spent by done.
    apply (run_sortStream _ K "all-spends.dat" "spends-sorted.dat" spends_head (spent_bytes <$> all_spent bs));
      [by apply length_head|done|done|unfold SPENDS_KEY_SIZE, SPENDS_RECORD_SIZE; lia|apply sized_spent; intros x; apply (spent_ok_all bs Hv)].
Qed.

Lemma run_antiJoin K : returns (dir files_join ["all-spends.dat"] K) (antiJoinLiveUtxos args (Z.of_nat OUTPUTS_RECORD_SIZE)) tt
  (dir (("live-utxos.dat", concat (born_bytes <$> live bs)) :: files_join) ["all-spends.dat"] K).
Proof.
  unfold antiJoinLiveUtxos. eapply returns_bind; [apply returns_read; left|]. eapply returns_bind; [apply returns_read; right; left|].
  rewrite Nat2Z.id. eapply returns_bind; [apply returns_lift; by apply run_join|]. cbv beta iota.
  eapply returns_bind; [apply returns_write; cbn; set_solver|]. apply returns_ret.
Qed.

Lemma run_phaseMerge d : fresh_dir d -> exists d', phaseMerge args d = (Ok tt, d') /\ dir [] queued_outputs (seed_files (wd_keys d)) d'.
Proof.
  intros Hd. set (K := wd_keys d). enough (returns (fun d0 => d0 = d) (phaseMerge args) tt (dir [] queued_outputs (seed_files K))) as H by by apply H.
  unfold phaseMerge. eapply returns_bind; [intros ? ->; by apply run_concatOrReuse|]. fold K ram. cbv zeta.
  eapply returns_bind; [by apply read_exactly|]. eapply returns_bind; [by apply read_exactly|]. eapply returns_bind; [by apply read_exactly|].
  eapply returns_bind; [apply returns_lift, current_format|]. rewrite outputs_size, bool_decide_eq_true_2 by done. cbn [negb].
  pose proof (run_sorts K) as Hsorts. intros d1 H1. destruct (Hsorts d1 H1) as (d3 & E3 & H3). apply run_bind_inv in E3 as ([] & d2 & E2 & E3).
  rewrite (run_bind_ok _ _ _ _ _ E2), (run_bind_ok _ _ _ _ _ E3). apply after_sorts_dir in H3. revert d3 H3 E3. intros d3 H3 _. revert d3 H3.
  eapply returns_bind; [apply (returns_free_after args (("all-spends.dat", all_spends) :: files_join) files_join); [set_solver|unfold apart; cbn; set_solver]|].
  eapply returns_bind; [apply run_antiJoin|].
  eapply returns_bind; [apply (returns_free_after args _ (files_meta bs (live bs) outputs_head all_meta sorted_spends)); [|unfold apart; cbn; set_solver]|].
  { unfold files_join, files_meta. set_solver. }
  unfold deriveLevelDbKeys. eapply returns_bind; [apply returns_lift|].
  { unfold resolveDeriveOptions. rewrite Hundo. cbn [mbind res_bind]. rewrite Hrs. cbn. reflexivity. }
  apply (run_deriveKeys args bs (live bs) outputs_head all_meta sorted_spends undo ram txIndexed); try done.
  - apply (vc_blocks _ Hv).
  - intros x [Hx _]%elem_of_live. by apply (born_ok_all bs Hv).
  - apply run_readMeta; [done|apply Hcounts].
Qed.
End phase.
