(* ===== verification/DumpFacts.v ===== *)
(** Dumps of an honest node: a chunk file reads back as the blocks written, and a dump of a
    range leaves one finished file per chunk, with the node's blocks in it. *)

From S2P Require Import Prelude KeyCodec ValueCodec LevelDb Store Json Parsing Wire AuxPow ChainParams Decoder Connector ConnectorFacts.
From S2P Require Import StoreFacts Rollback Outputs Apply Spend Block RecordFiles SeedStreams StreamFacts RangeFacts Xdmp Dump.

#[local] Open Scope string_scope.
#[local] Open Scope nat_scope.
#[local] Open Scope list_scope.

(** * Chunk files *)

Definition chunk_fields (c n first last tip : Z) : list bytes :=
  [MAGIC_DUMP; [byte_of_Z c]; [byte_of_Z n]; le 2 DUMP_VERSION; le 4 first; le 4 last; le 4 (last - first + 1); le 4 tip; zeros 36].

Definition record_bytes (d : dumped) : bytes := le 4 (len (d_bytes d)) ++ le 4 (d_height d) ++ d_hash d ++ d_bytes d.

Definition chunk_file (c n first last tip : Z) (l : list dumped) : bytes :=
  concat (chunk_fields c n first last tip) ++ concat (record_bytes <$> l).

Record dumped_ok (d : dumped) : Prop := {
  dm_hash : length (d_hash d) = 32;
  dm_size : (0 < len (d_bytes d) <= MAX_BLOCK_SIZE)%Z;
  dm_height : u32 (d_height d);
}.

Lemma codes_range chain netName c n : net_codes chain netName c n -> (1 <= c <= 3)%Z /\ (1 <= n <= 3)%Z /\ CHAIN_NAMES c = Some chain /\ NETWORK_NAMES n = Some netName.
Proof.
  intros [Hc Hn]. unfold CHAIN_CODES, NETWORK_CODES in *. repeat case_bool_decide; simplify_eq; split_and!; (lia || done).
Qed.

Lemma run_writeDumpHeader chain netName c n first last tip file :
  net_codes chain netName c n -> u32 first -> u32 last -> u32 (last - first + 1) -> u32 tip ->
  writeDumpHeader chain netName first last (Some tip) file = (Ok tt, file ++ concat (chunk_fields c n first last tip)).
Proof.
  intros Hcodes Hf Hl Hcount Ht. destruct (codes_range _ _ _ _ Hcodes) as (Hc & Hn & _). destruct Hcodes as [Ec En].
  assert (E : makeHeader chain netName first last (Some tip) = Ok (concat (chunk_fields c n first last tip))).
  { unfold makeHeader, field_u8, field_u32LE_of, field_u32LE, field_if. rewrite Ec, En, !bool_decide_eq_true_2 by (done || lia). reflexivity. }
  unfold writeDumpHeader. by rewrite E.
Qed.

Section header.
Context (c n first last tip : Z) (data : bytes).

Abbreviation fields := (chunk_fields c n first last tip).

Lemma chunk_field i f a b : fields !! i = Some f -> length (concat (take i fields)) = a -> a + length f = b ->
  b <= HEADER_SIZE -> slice a b (take HEADER_SIZE (concat fields ++ data)) = f.
Proof.
  intros Hi Ha Hb Hl. assert (Ht : take HEADER_SIZE (concat fields ++ data) = concat fields).
  { apply take_app_length'. unfold fields, chunk_fields. cbn [concat]. by rewrite !length_app, !length_le. }
  rewrite Ht, <- (app_nil_r (concat fields)). rewrite <- Hb. by apply (slice_field _ i).
Qed.

Lemma openXdmp_chunk chain netName : net_codes chain netName c n -> u32 first -> u32 last -> u32 (last - first + 1) -> u32 tip ->
  openXdmp (concat fields ++ data) = Ok (mkXdmp chain netName first last (last - first + 1) tip data).
Proof.
  intros Hcodes Hf Hl Hcount Ht. destruct (codes_range _ _ _ _ Hcodes) as (Hc & Hn & Ec & En).
  assert (Hlen : length (concat fields) = HEADER_SIZE) by (unfold fields, chunk_fields; cbn [concat]; by rewrite !length_app, !length_le).
  assert (Hu : forall v, u32 v -> unle (le 4 v) = v) by (intros v Hv; apply unle_le; unfold u32 in Hv; cbn; lia).
  unfold openXdmp.
  rewrite (chunk_field 1 [byte_of_Z c] 8 9), (chunk_field 2 [byte_of_Z n] 9 10), (chunk_field 3 (le 2 DUMP_VERSION) 10 12),
    (chunk_field 4 (le 4 first) 12 16), (chunk_field 5 (le 4 last) 16 20), (chunk_field 6 (le 4 (last - first + 1)) 20 24),
    (chunk_field 7 (le 4 tip) 24 28) by (reflexivity || (vm_compute; lia)).
  rewrite (take_app_length' (concat fields)), (drop_app_length' (concat fields)) by done.
  rewrite bool_decide_eq_true_2 by done. rewrite bool_decide_eq_true_2 by reflexivity.
  replace (unle [byte_of_Z c]) with c by (unfold unle, unbe; cbn; rewrite Z_of_byte_of_Z, Z.mod_small; lia).
  replace (unle [byte_of_Z n]) with n by (unfold unle, unbe; cbn; rewrite Z_of_byte_of_Z, Z.mod_small; lia).
  rewrite Ec, En, !Hu by done. cbn [negb]. rewrite bool_decide_eq_true_2 by reflexivity. cbn [negb]. by rewrite bool_decide_eq_true_2.
Qed.
End header.

(** Heights one after the other. *)
Fixpoint consecutive (prev : Z) (l : list dumped) : Prop :=
  match l with [] => True | d :: l => d_height d = (prev + 1)%Z /\ consecutive (d_height d) l end.

Lemma read_blocks_chunk l : forall prev rest, Forall dumped_ok l -> consecutive prev l ->
  read_blocks (length l) prev (concat (record_bytes <$> l) ++ rest) = (l, Ok tt).
Proof.
  induction l as [|d l IH]; intros prev rest Hok Hc; [done|]. apply Forall_cons in Hok as [[H1 H2 H3] Hok]. destruct Hc as [Eh Hc].
  cbn [length read_blocks]. rewrite fmap_cons. cbn [concat]. set (more := concat (record_bytes <$> l) ++ rest).
  set (fs := [le 4 (len (d_bytes d)); le 4 (d_height d); d_hash d]).
  assert (E : (record_bytes d ++ concat (record_bytes <$> l)) ++ rest = concat fs ++ d_bytes d ++ more).
  { unfold record_bytes, fs, more. cbn [concat]. by rewrite app_nil_r, !app_assoc. }
  rewrite E. clear E. assert (Hfs : length (concat fs) = RECORD_PREFIX) by (unfold fs; cbn [concat]; by rewrite !length_app, !length_le, H1).
  rewrite bool_decide_eq_false_2 by (rewrite length_app; lia).
  assert (F : forall i f a b, fs !! i = Some f -> length (concat (take i fs)) = a -> a + length f = b -> slice a b (concat fs ++ d_bytes d ++ more) = f).
  { intros i f a b Hi Ha <-. by apply (slice_field _ i). }
  rewrite (F 0 (le 4 (len (d_bytes d))) 0 4), (F 1 (le 4 (d_height d)) 4 8) by reflexivity.
  rewrite (F 2 (d_hash d) 8 40) by (done || by rewrite H1). unfold MAX_BLOCK_SIZE in *. unfold u32 in H3.
  rewrite !unle_le by (cbn; lia). rewrite bool_decide_eq_false_2, bool_decide_eq_false_2 by lia. cbn [orb].
  rewrite bool_decide_eq_true_2 by done. cbn [negb]. rewrite (drop_app_length' (concat fs)) by done.
  rewrite bool_decide_eq_false_2 by (rewrite len_app; pose proof (len_nonneg more); lia).
  rewrite (take_app_length' (d_bytes d)), (drop_app_length' (d_bytes d)) by (unfold len; lia).
  unfold more. rewrite (IH _ rest Hok Hc). by destruct d.
Qed.

(** Cut short anywhere, they do not read to the end. *)
Lemma read_blocks_cut l : forall k prev, Forall dumped_ok l -> k < length (concat (record_bytes <$> l)) ->
  (read_blocks (length l) prev (take k (concat (record_bytes <$> l)))).2 <> Ok tt.
Proof.
  induction l as [|d l IH]; intros k prev Hok Hk; [cbn in Hk; lia|]. apply Forall_cons in Hok as [[H1 H2 H3] Hok].
  cbn [length read_blocks]. rewrite fmap_cons in Hk |- *. cbn [concat] in Hk |- *. set (more := concat (record_bytes <$> l)) in *.
  set (fs := [le 4 (len (d_bytes d)); le 4 (d_height d); d_hash d]).
  assert (E : record_bytes d = concat fs ++ d_bytes d) by (unfold record_bytes, fs; cbn [concat]; by rewrite app_nil_r, !app_assoc).
  assert (Hfs : length (concat fs) = RECORD_PREFIX) by (unfold fs; cbn [concat]; by rewrite !length_app, !length_le, H1).
  case_bool_decide as Hs; [done|]. rewrite length_take in Hs. rewrite E in Hk, Hs |- *. rewrite <- app_assoc in Hk, Hs |- *.
  rewrite length_app, Hfs in Hk, Hs. rewrite take_app, Hfs, firstn_all2 by lia. set (rest := take (k - RECORD_PREFIX) (d_bytes d ++ more)).
  assert (F : forall i f a b, fs !! i = Some f -> length (concat (take i fs)) = a -> a + length f = b -> slice a b (concat fs ++ rest) = f).
  { intros i f a b Hi Ha <-. by apply (slice_field _ i). }
  rewrite (F 0 (le 4 (len (d_bytes d))) 0 4), (F 1 (le 4 (d_height d)) 4 8) by reflexivity. unfold MAX_BLOCK_SIZE in *. unfold u32 in H3.
  rewrite !unle_le by (cbn; lia). rewrite bool_decide_eq_false_2, bool_decide_eq_false_2 by lia. cbn [orb]. case_bool_decide; cbn [negb]; [|done].
  rewrite (drop_app_length' (concat fs)) by done. case_bool_decide as Hl; [done|]. unfold len in Hl |- *. rewrite !Nat2Z.id.
  unfold rest in Hl |- *. rewrite length_take in Hl. rewrite skipn_firstn_comm. rewrite length_app in Hl, Hk.
  rewrite drop_app_length. specialize (IH (k - RECORD_PREFIX - length (d_bytes d)) (d_height d) Hok ltac:(lia)). fold more in IH.
  destruct (read_blocks (length l) _ _) as [l' r]. exact IH.
Qed.

(** * Heights *)

Lemma batchHeights_split a b c : (a - 1 <= b <= c)%Z -> batchHeights a c = batchHeights a b ++ batchHeights (b + 1) c.
Proof.
  intros Hb. unfold batchHeights. replace (Z.to_nat (c - a + 1)) with (Z.to_nat (b - a + 1) + Z.to_nat (c - (b + 1) + 1)) by lia.
  rewrite seq_app, fmap_app. f_equal. rewrite Nat.add_0_l, <- (Nat.add_0_r (Z.to_nat (b - a + 1))), <- fmap_add_seq, <- list_fmap_compose.
  apply list_fmap_ext. intros _ i _. cbn. lia.
Qed.

Lemma elem_of_batchHeights a b h : h ∈ batchHeights a b <-> (a <= h <= b)%Z.
Proof.
  unfold batchHeights. rewrite list_elem_of_fmap. split; [intros (i & -> & Hi%elem_of_seq); lia|].
  intros Hh. exists (Z.to_nat (h - a)). split; [lia|]. apply elem_of_seq. lia.
Qed.

Lemma length_batchHeights a b : length (batchHeights a b) = Z.to_nat (b - a + 1).
Proof. unfold batchHeights. by rewrite length_fmap, length_seq. Qed.

Lemma batchHeights_cons a b : (a <= b)%Z -> batchHeights a b = a :: batchHeights (a + 1) b.
Proof.
  intros Hab. rewrite (batchHeights_split a a b) by lia. assert (batchHeights a a = [a]) as ->; [|done].
  unfold batchHeights. replace (Z.to_nat (a - a + 1)) with 1 by lia. cbn [seq fmap list_fmap]. f_equal. lia.
Qed.

Lemma batchHeights_nil a b : (b < a)%Z -> batchHeights a b = [].
Proof. intros Hab. unfold batchHeights. by replace (Z.to_nat (b - a + 1)) with 0 by lia. Qed.

(** * The dump of a range *)

Section dumping.
Context {envs : Environment} {servers : RpcServers} {lib : Bitcoinjs} {node : Node}.
Context (N : node_view) (up : nat -> bool) (Hn : honest N up).
Context (chain netName : string) (c n tip : Z) (Hcodes : net_codes chain netName c n) (Htip : u32 tip).
Context (clean : Z -> string).

(** The block at a height as the dump holds it. *)
Definition dumped_at (h : Z) : dumped := mkDumped h (h2b (nc_hash N h)) (h2b (clean h)).

(** The node has the block, it is within the format, and [clean] is its text without the
    AuxPoW section if the chain has those. *)
Record dumpable (h : Z) : Prop := {
  du_known : (0 <= h <= nc_tip N)%Z;
  du_ok : dumped_ok (dumped_at h);
  du_clean : if is_auxpow chain then stripAuxPowFromBlockHex (nc_header N h) (nc_block N h) = Ok (clean h) else clean h = nc_block N h;
}.

Lemma run_fetchDumpBatch hs k : Forall dumpable hs -> exists k', fetchDumpBatch hs (is_auxpow chain) k = (Ok (fetched N clean <$> hs), k').
Proof.
  intros Hh. assert (Hk : Forall (known N) hs) by (apply (Forall_impl dumpable _ _ Hh); intros h H; apply (du_known h H)). unfold fetchDumpBatch.
  destruct (is_auxpow chain) eqn:Ea; cbn [negb].
  - destruct (run_getBlocksBatchWithoutAuxPow N up Hn clean hs k Hk) as (k' & E).
    { apply (Forall_impl dumpable _ _ Hh). intros h H. pose proof (du_clean h H) as Hc. by rewrite Ea in Hc. }
    exists k'. unfold try_catch. by rewrite E.
  - destruct (run_getBlocksBatch N up Hn hs k Hk) as (k' & E). exists k'. rewrite E. do 2 f_equal. apply list_fmap_ext. intros i h Hi.
    unfold fetched. pose proof (du_clean h ltac:(by eapply Forall_lookup_1)) as Hc. rewrite Ea in Hc. by rewrite Hc.
Qed.

Lemma run_writeBlockRecord h file : dumpable h -> writeBlockRecord (fetched N clean h) file = (Ok tt, file ++ record_bytes (dumped_at h)).
Proof.
  intros [_ [H1 H2 H3] _]. cbn [dumped_at d_bytes d_hash d_height] in H1, H2, H3. unfold writeBlockRecord, fetched. cbn [nb_hex nb_hash nb_height from_hex].
  rewrite (run_bind_ok _ _ file (h2b (clean h)) file) by done.
  rewrite bool_decide_eq_false_2 by (intros E; rewrite E, len_nil in H2; lia). rewrite (bool_decide_eq_false_2 (MAX_BLOCK_SIZE < _)%Z) by lia. cbn [orb].
  rewrite (run_bind_ok _ _ file (h2b (nc_hash N h)) file) by done. rewrite bool_decide_eq_true_2 by done. cbn [negb]. unfold MAX_BLOCK_SIZE in H2.
  assert (Hf : forall v, u32 v -> field_u32LE v = Ok (le 4 v)) by (intros v Hv; unfold field_u32LE, field_if; by rewrite bool_decide_eq_true_2).
  rewrite (run_bind_ok _ _ file (le 4 (len (h2b (clean h)))) file) by (unfold lift_res; rewrite Hf; [done|unfold u32; lia]).
  rewrite (run_bind_ok _ _ file (le 4 h) file) by (unfold lift_res; by rewrite Hf).
  unfold mbind, M_bind, append_file, modify, record_bytes, dumped_at. cbn [d_bytes d_height d_hash]. by rewrite <- !app_assoc.
Qed.

Lemma run_writeBlockRecords hs : forall file, Forall dumpable hs ->
  writeBlockRecords (fetched N clean <$> hs) file = (Ok tt, file ++ concat (record_bytes <$> (dumped_at <$> hs))).
Proof.
  induction hs as [|h hs IH]; intros file Hh; [by rewrite app_nil_r|]. apply Forall_cons in Hh as [H1 Hh]. rewrite !fmap_cons.
  unfold writeBlockRecords in *. cbn [forM concat]. run_ok (run_writeBlockRecord h file H1). rewrite IH by done. by rewrite app_assoc.
Qed.

Lemma run_on_file {A} name (m : M bytes A) d a old new : dp_out d !! name = Some old -> m old = (Ok a, new) ->
  on_file name m d = (Ok a, mkDumper (dp_node d) (<[name:=new]> (dp_out d))).
Proof. intros Eo Em. unfold on_file. rewrite Eo. change (default [] (Some old)) with old. by rewrite Em. Qed.

Lemma run_dump_batches tmp fuel : forall a b d old, Z.to_nat (b - a + 1) <= fuel -> Forall dumpable (batchHeights a b) -> dp_out d !! tmp = Some old ->
  exists k', dump_batches fuel (is_auxpow chain) tmp a b d
    = (Ok tt, mkDumper k' (<[tmp := old ++ concat (record_bytes <$> (dumped_at <$> batchHeights a b))]> (dp_out d))).
Proof.
  induction fuel as [|f IH]; intros a b [k out] old Hf Hh Ho; cbn [dp_node dp_out] in *.
  { exists k. rewrite batchHeights_nil by lia. cbn. by rewrite app_nil_r, insert_id. }
  cbn [dump_batches]. case_bool_decide as Hab; [exists k; rewrite batchHeights_nil by lia; cbn; by rewrite app_nil_r, insert_id|].
  set (e := Z.min (a + RPC_BATCH_SIZE - 1) b). assert (He : (a <= e <= b)%Z) by (unfold e, RPC_BATCH_SIZE; lia).
  rewrite (batchHeights_split a e b) in Hh by lia. apply Forall_app in Hh as [H1 H2].
  destruct (run_fetchDumpBatch (batchHeights a e) k H1) as (k1 & E1).
  rewrite (run_bind_ok _ _ _ (fetched N clean <$> batchHeights a e) (mkDumper k1 out)) by (unfold on_node; cbn; by rewrite E1).
  rewrite (run_bind_ok _ _ _ _ _ (run_on_file tmp _ (mkDumper k1 out) tt old _ Ho (run_writeBlockRecords _ old H1))).
  cbn [dp_node dp_out]. destruct (IH (e + 1)%Z b (mkDumper k1 (<[tmp := old ++ concat (record_bytes <$> (dumped_at <$> batchHeights a e))]> out))
    (old ++ concat (record_bytes <$> (dumped_at <$> batchHeights a e)))) as (k2 & E2).
  - unfold e, RPC_BATCH_SIZE in *. lia.
  - done.
  - apply lookup_insert_eq.
  - exists k2. rewrite E2. cbn [dp_out]. rewrite insert_insert_eq, (batchHeights_split a e b) by lia. by rewrite !fmap_app, concat_app, app_assoc.
Qed.

(** ** A chunk *)

Definition chunk_name (r : Z * Z) : string := chunkFileName chain netName r.1 r.2.
Definition chunk_of (r : Z * Z) : bytes := chunk_file c n r.1 r.2 tip (dumped_at <$> batchHeights r.1 r.2).

Record chunk_ok (r : Z * Z) : Prop := {
  ck_order : (r.1 <= r.2)%Z;
  ck_first : u32 r.1;
  ck_last : u32 r.2;
  ck_count : u32 (r.2 - r.1 + 1);
  ck_blocks : Forall dumpable (batchHeights r.1 r.2);
}.

Lemma run_dumpChunk job r d : dj_chain job = chain -> dj_netName job = netName -> chunk_ok r -> dp_out d !! chunk_name r = None ->
  exists k', dumpChunk job r.1 r.2 (Some tip) d
    = (Ok tt, mkDumper k' (<[chunk_name r := chunk_of r]> (delete (String.append (chunk_name r) ".tmp") (dp_out d)))).
Proof.
  intros Ec En [H1 H2 H3 H4 H5] Hd. destruct d as [k out]. cbn [dp_out] in *. unfold dumpChunk. rewrite Ec, En.
  change (chunkFileName chain netName r.1 r.2) with (chunk_name r). set (tmp := String.append (chunk_name r) ".tmp").
  rewrite (run_bind_ok _ _ _ false (mkDumper k out)) by (unfold reuseChunk, mbind, M_bind, get; cbn [dp_out]; by rewrite Hd). cbn iota.
  rewrite (run_bind_ok _ _ _ tt (mkDumper k (<[tmp := []]> out))) by done.
  rewrite (run_bind_ok _ _ _ _ _ (run_on_file tmp _ (mkDumper k (<[tmp := []]> out)) tt [] _ (lookup_insert_eq _ _ _)
    (run_writeDumpHeader chain netName c n r.1 r.2 tip [] Hcodes H2 H3 H4 Htip))). cbn [dp_node dp_out app].
  destruct (run_dump_batches tmp (Z.to_nat (r.2 - r.1 + 1)) r.1 r.2 (mkDumper k (<[tmp := concat (chunk_fields c n r.1 r.2 tip)]> (<[tmp := []]> out)))
    (concat (chunk_fields c n r.1 r.2 tip)) ltac:(lia) H5 (lookup_insert_eq _ _ _)) as (k' & E). run_ok E. cbn [dp_out].
  exists k'. unfold mbind, M_bind, get, on_out, modify. cbn [dp_out dp_node]. rewrite lookup_insert_eq. cbn [default from_option id].
  by rewrite !delete_insert_eq.
Qed.

(** ** The chunks *)

Fixpoint chunk_ranges (fuel : nat) (size a b : Z) : list (Z * Z) :=
  match fuel with
  | O => []
  | S f => if bool_decide (b < a)%Z then [] else (a, Z.min (a + size - 1) b) :: chunk_ranges f size (Z.min (a + size - 1) b + 1) b
  end.

Lemma run_dump_chunks job fuel : forall a b d, dj_chain job = chain -> dj_netName job = netName -> (0 < dj_chunkSize job)%Z ->
  Forall chunk_ok (chunk_ranges fuel (dj_chunkSize job) a b) -> NoDup (chunk_name <$> chunk_ranges fuel (dj_chunkSize job) a b) ->
  (forall r, r ∈ chunk_ranges fuel (dj_chunkSize job) a b -> dp_out d !! chunk_name r = None
    /\ forall r', r' ∈ chunk_ranges fuel (dj_chunkSize job) a b -> chunk_name r' <> String.append (chunk_name r) ".tmp") ->
  exists k' out', dump_chunks fuel job a b (Some tip) d = (Ok tt, mkDumper k' out')
    /\ (forall r, r ∈ chunk_ranges fuel (dj_chunkSize job) a b -> out' !! chunk_name r = Some (chunk_of r))
    /\ (forall m, (forall r, r ∈ chunk_ranges fuel (dj_chunkSize job) a b -> m <> chunk_name r /\ m <> String.append (chunk_name r) ".tmp") ->
        out' !! m = dp_out d !! m).
Proof.
  induction fuel as [|f IH]; intros a b d Ec En Hs Hok Hnd Hno; cbn [chunk_ranges dump_chunks] in *.
  { exists (dp_node d), (dp_out d). destruct d. split_and!; [done|by intros r ?%elem_of_nil|done]. }
  case_bool_decide as Hab; [exists (dp_node d), (dp_out d); destruct d; split_and!; [done|by intros r ?%elem_of_nil|done]|].
  set (e := Z.min (a + dj_chunkSize job - 1) b) in *. set (rest := chunk_ranges f (dj_chunkSize job) (e + 1) b) in *.
  apply Forall_cons in Hok as [H1 Hok]. rewrite fmap_cons in Hnd. apply NoDup_cons in Hnd as [Hnd1 Hnd].
  destruct (Hno (a, e) ltac:(left)) as [Hfree Htmp].
  destruct (run_dumpChunk job (a, e) d Ec En H1 Hfree) as (k1 & E1). cbn [fst snd] in E1. run_ok E1.
  destruct (IH (e + 1)%Z b (mkDumper k1 (<[chunk_name (a, e) := chunk_of (a, e)]> (delete (String.append (chunk_name (a, e)) ".tmp") (dp_out d)))) Ec En Hs Hok Hnd)
    as (k2 & out' & E2 & H3 & H4).
  { intros r Hr. destruct (Hno r ltac:(by right)) as [F1 F2]. cbn [dp_out]. split; [|intros r' Hr'; apply F2; by right].
    rewrite lookup_insert_ne by (intros E; apply Hnd1; rewrite E; by apply list_elem_of_fmap_2).
    by rewrite lookup_delete_ne by (intros E; symmetry in E; revert E; apply Htmp; by right). }
  exists k2, out'. split_and!; [done| |].
  - intros r [->|Hr]%elem_of_cons; [|by apply H3]. rewrite H4; [apply lookup_insert_eq|]. intros r Hr. split; [|apply (Hno r ltac:(by right)); left].
    intros E. apply Hnd1. rewrite E. by apply list_elem_of_fmap_2.
  - intros m Hm. destruct (Hm (a, e) ltac:(left)) as [M1 M2]. rewrite H4 by (intros r Hr; apply Hm; by right). cbn [dp_out].
    by rewrite lookup_insert_ne, lookup_delete_ne by done.
Qed.
End dumping.
