(* ===== verification/SeedParity.v ===== *)
(** The seeded store and the indexed one: the records the key files put, kind by kind,
    are those that indexing the same chain block by block leaves, but for what a seeding
    never writes ([kept]): recovery records of spent outputs, indexes by block below the
    undo window, and transactions when they are not indexed. *)

From S2P Require Import Prelude KeyCodec LevelDb ValueCodec Store Outputs StoreFacts Rollback Parsing Apply Spend Block Roundtrip Tracker Window Reorg.
From S2P Require Import SyncLoop Batch Chain Forward Indexing Utxo Undo ChainParams Startup Wire AuxPow Decoder RecordFiles Heap ExternalSort SortFacts.
From S2P Require Import AntiJoin SeedStreams WorkDir DeriveKeys Loader LoadFacts Seeder StreamFacts RangeFacts SeedChain DeriveFacts.
From S2P Require Import MergeFacts PhaseFacts.

#[local] Open Scope string_scope.
#[local] Open Scope nat_scope.
#[local] Open Scope list_scope.

(** * Blocks that can be undone *)

Section window.
Context {node : Node}.
Context (hash0 : string) (h0 : Z) (bs : list block_data) (Hlinked : linked hash0 h0 bs) (Hh0 : (-1 <= h0)%Z).
Context (undo : Z) (Hpos : (0 < undo)%Z).

Lemma linked_lookup hash h l i b : linked hash h l -> l !! i = Some b -> bd_height b = (h + 1 + Z.of_nat i)%Z.
Proof.
  induction l as [|a l IH] in hash, h, i |- *; [done|]. intros (_ & Ha & Hl). destruct i as [|i]; cbn; [intros [= ->]; lia|].
  intros Hi. rewrite (IH _ _ _ Hl Hi). lia.
Qed.

Lemma tip_linked : bs <> [] -> tip_of bs = (h0 + Z.of_nat (length bs))%Z.
Proof.
  intros Hne. unfold tip_of. destruct (last bs) as [b|] eqn:E; [|by apply last_None in E]. rewrite last_lookup in E.
  cbn. rewrite (linked_lookup _ _ _ _ _ Hlinked E). destruct bs; [done|cbn [length]; lia].
Qed.

(** The hashes of the last blocks. *)
Definition seed_window : list bytes := last_n undo ((fun b => h2b (bd_hash b)) <$> bs).

Lemma in_seed_window b : valid_chain bs -> b ∈ bs -> h2b (bd_hash b) ∈ seed_window <-> (wMin bs undo <= bd_height b)%Z.
Proof.
  intros Hv Hb. assert (Hne : bs <> []) by (intros ->; by apply elem_of_nil in Hb). unfold wMin. rewrite tip_linked by done.
  pose proof Hb as [i Hi]%list_elem_of_lookup. pose proof (linked_lookup _ _ _ _ _ Hlinked Hi) as Hh. unfold seed_window, last_n. rewrite length_fmap.
  set (k := Z.to_nat (Z.of_nat (length bs) - undo)). split.
  - intros [j Hj]%list_elem_of_lookup. rewrite lookup_drop, list_lookup_fmap in Hj. destruct (bs !! (k + j)) as [c|] eqn:Ec; [|done].
    cbn in Hj. injection Hj as E. assert (c = b) as -> by (apply (same_hash bs); [done|by eapply list_elem_of_lookup_2|done..]).
    pose proof (linked_lookup _ _ _ _ _ Hlinked Ec). lia.
  - intros Hw. apply list_elem_of_lookup. exists (i - k). rewrite lookup_drop, list_lookup_fmap. replace (k + (i - k)) with i by lia. by rewrite Hi.
Qed.
End window.

(** * Entries of the key files *)

Section entries.
Context {node : Node}.
Context (bs : list block_data) (undo : Z) (txIndex : bool).

Abbreviation B := (all_born bs).
Abbreviation recent_only := (filter (recent (wMin bs undo))).

Definition b_entries : list (key * bytes) := (fun b => (KBlock (h2b (bd_hash b)), block_record b)) <$> bs.
Definition h_entries : list (key * bytes) := (fun x => (KOutHint (n_txid x) (n_vout x), n_script x)) <$> live bs.
Definition n_entries : list (key * bytes) := (fun h => (KStoredBlk h, [])) <$> seed_window bs undo.
Definition o_entries : list (key * bytes) := (fun x => (KOutput (n_script x) (n_txid x) (n_vout x), c_v (born_rec x))) <$> live bs.
Definition s_entries : list (key * bytes) := (fun p => (KScriptBlk (n_script p.2), be 4 (n_height p.2))) <$> firsts B.
Definition t_entries : list (key * bytes) := (fun x => (KTx (n_txid x), n_block x ++ n_txid x)) <$> tx_heads B.
Definition w_entries : list (key * bytes) := (fun x => (KOutBlk (n_block x) (n_txid x) (n_vout x), n_script x)) <$> recent_only B.
Definition x_entries : list (key * bytes) := (fun x => (KTxExact (n_txid x), n_block x)) <$> tx_heads B.
Definition y_entries : list (key * bytes) := (fun x => (KTxBlockRecovery (n_block x) (n_txid x), n_txid x)) <$> recent_only (tx_heads B).
Definition z_entries : list (key * bytes) :=
  (fun p => (KBlkScript (n_block p.2) (n_script p.2), [])) <$> filter (recent_row (wMin bs undo)) (firsts B).

Definition entries (pfx : string) : list (key * bytes) :=
  if bool_decide (pfx = "B") then b_entries else if bool_decide (pfx = "H") then h_entries
  else if bool_decide (pfx = "N") then n_entries else if bool_decide (pfx = "O") then o_entries
  else if bool_decide (pfx = "S") then s_entries else if bool_decide (pfx = "W") then w_entries
  else if bool_decide (pfx = "Z") then z_entries else if bool_decide (pfx = "T") then t_entries
  else if bool_decide (pfx = "X") then x_entries else if bool_decide (pfx = "Y") then y_entries else [].

(** The records a seeded store keeps of an indexed one: all but the recovery records of
    spent outputs; those that only serve an undo for the last blocks; transactions when
    the seeding indexes them. *)
Definition kept (k : key) : Prop :=
  match k with
  | KOutDel _ _ _ _ | KHintDel _ _ _ => False
  | KTx _ | KTxExact _ => txIndex = true
  | KTxBlockRecovery bh _ => txIndex = true /\ bh ∈ seed_window bs undo
  | _ => match index_of k with Some bh => bh ∈ seed_window bs undo | None => True end
  end.

#[global] Instance kept_dec k : Decision (kept k).
Proof. destruct k; cbn; apply _. Defined.

Context (hash0 : string) (h0 : Z) (Hlinked : linked hash0 h0 bs) (Hh0 : (-1 <= h0)%Z) (Hpos : (0 < undo)%Z) (Hv : valid_chain bs).
Context (Hcount : (Z.of_nat (length B) <= 2 ^ 32)%Z).

Lemma recent_window x : x ∈ B -> recent (wMin bs undo) x <-> n_block x ∈ seed_window bs undo.
Proof.
  intros (b & Hb & Hx)%elem_of_all_born. apply born_height in Hx as (Eh & Ek & _). unfold recent. rewrite Eh, Ek. symmetry. by apply (in_seed_window hash0 h0).
Qed.

Lemma Houts b tx : b ∈ bs -> tx ∈ bd_txs b -> outs tx <> [].
Proof. intros Hb Htx. by apply (bk_txs _ (vc_blocks _ Hv b Hb)). Qed.

(** Every transaction has its entry, of its block. *)
Lemma tx_head t b : b ∈ bs -> t ∈ txids b -> exists x, x ∈ tx_heads B /\ n_txid x = t /\ n_block x = h2b (bd_hash b).
Proof.
  intros Hb Ht. pose proof Ht as (tx & Et & Htx)%list_elem_of_fmap. pose proof (Houts b tx Hb Htx) as Ho.
  assert (Hx : exists x, x ∈ born_of b /\ n_txid x = t).
  { destruct (outs tx) as [|o os] eqn:E; [done|]. exists (mkBorn (txid32 tx) 0 (to_value o) (bd_height b) (sha256 (to_script o)) (h2b (bd_hash b)) (isCoinbaseTransaction tx)).
    split; [|done]. apply elem_of_flat_map. exists tx. split; [done|].
    unfold born_tx. rewrite E. left. }
  destruct Hx as (x & Hx & Ex). assert (HxB : x ∈ B) by (apply elem_of_all_born; by exists b).
  destruct (heads_cover n_txid None B x HxB) as [?|(y & Hy & Ey)]; [done|]. exists y. split; [done|]. split; [congruence|].
  pose proof (heads_sub _ _ _ _ Hy) as (c & Hc & Hyc)%elem_of_all_born. apply born_height in Hyc as (_ & -> & Hyt).
  assert (b = c) as ->; [|done]. apply (same_tx bs b c t); [done..|]. by rewrite <- Ex, <- Ey.
Qed.

Lemma tx_head_inv x : x ∈ tx_heads B -> exists b, b ∈ bs /\ n_txid x ∈ txids b /\ n_block x = h2b (bd_hash b) /\ x ∈ B.
Proof. intros Hx%heads_sub. pose proof Hx as (b & Hb & Hxb)%elem_of_all_born. exists b. by apply born_height in Hxb as (_ & ? & ?). Qed.

(** ** The records, kind by kind *)

Lemma kept_block bh v : (KBlock bh, v) ∈ b_entries <-> indexed bs (KBlock bh) = Some v.
Proof.
  rewrite indexed_block by done. unfold b_entries. rewrite list_elem_of_fmap. split.
  - intros (b & [= -> ->] & Hb). by exists b.
  - intros (b & Hb & -> & ->). by exists b.
Qed.

Lemma kept_stored bh v : (KStoredBlk bh, v) ∈ n_entries <-> bh ∈ seed_window bs undo /\ indexed bs (KStoredBlk bh) = Some v.
Proof.
  rewrite indexed_stored by done. unfold n_entries. rewrite list_elem_of_fmap. split.
  - intros (h & [= -> ->] & Hh). split; [done|]. unfold seed_window in Hh. apply last_n_sub, list_elem_of_fmap in Hh as (b & -> & Hb). by exists b.
  - intros (Hw & b & Hb & -> & ->). by eexists.
Qed.

Lemma kept_hint t i v : (KOutHint t i, v) ∈ h_entries <-> indexed bs (KOutHint t i) = Some v.
Proof.
  rewrite indexed_hint by done. unfold h_entries. rewrite list_elem_of_fmap. split.
  - intros (x & [= -> -> ->] & Hx%elem_of_live). by exists x.
  - intros (x & Hx & [= <- <-] & <-). exists x. split; [done|]. by apply elem_of_live.
Qed.

Lemma kept_output sh t i v : (KOutput sh t i, v) ∈ o_entries <-> indexed bs (KOutput sh t i) = Some v.
Proof.
  rewrite indexed_output by done. unfold o_entries. rewrite list_elem_of_fmap. split.
  - intros (x & [= -> -> -> ->] & Hx%elem_of_live). by exists x.
  - intros (x & Hx & [= <- <-] & <- & ->). exists x. split; [done|]. by apply elem_of_live.
Qed.

Lemma kept_out_block bh t i v : (KOutBlk bh t i, v) ∈ w_entries <-> bh ∈ seed_window bs undo /\ indexed bs (KOutBlk bh t i) = Some v.
Proof.
  rewrite indexed_out_block by done. unfold w_entries. rewrite list_elem_of_fmap. split.
  - intros (x & [= -> -> -> ->] & [Hr Hx]%list_elem_of_filter). split; [by apply recent_window|].
    pose proof Hx as (b & Hb & Hxb)%elem_of_all_born. exists b, x. by pose proof (born_height _ _ Hxb) as (_ & ? & _).
  - intros (Hw & b & x & Hb & -> & Hx & [= <- <-] & ->). pose proof (born_height _ _ Hx) as (_ & E & _).
    assert (HxB : x ∈ B) by (apply elem_of_all_born; by exists b). exists x. rewrite E. split; [done|]. apply list_elem_of_filter. split; [|done].
    apply recent_window; [done|]. by rewrite E.
Qed.

Lemma kept_script sh v : (KScriptBlk sh, v) ∈ s_entries <-> indexed bs (KScriptBlk sh) = Some v.
Proof.
  rewrite indexed_script. unfold s_entries. rewrite list_elem_of_fmap. split.
  - intros (p & [= -> ->] & Hp%(firsts_first B (born_ok_all bs Hv) Hcount)). by rewrite Hp.
  - intros Hs. destruct (first_with sh B) as [x|] eqn:E; [|done]. injection Hs as <-. pose proof (first_with_some _ _ _ E) as [_ <-].
    destruct (first_firsts B (born_ok_all bs Hv) Hcount _ _ E) as (p & Hp & <-). by exists p.
Qed.

Lemma kept_block_script bh sh v : (KBlkScript bh sh, v) ∈ z_entries <-> bh ∈ seed_window bs undo /\ indexed bs (KBlkScript bh sh) = Some v.
Proof.
  rewrite indexed_block_script by done. unfold z_entries. rewrite list_elem_of_fmap. split.
  - intros (p & [= -> -> ->] & [Hr Hp]%list_elem_of_filter). apply (firsts_first B (born_ok_all bs Hv) Hcount) in Hp.
    pose proof (first_with_some _ _ _ Hp) as [Hin _]. split; [by apply recent_window|]. by exists p.2.
  - intros (Hw & x & E & <- & ->). pose proof (first_with_some _ _ _ E) as [Hin <-].
    destruct (first_firsts B (born_ok_all bs Hv) Hcount _ _ E) as (p & Hp & <-). exists p. split; [done|]. apply list_elem_of_filter. split; [|done].
    by apply recent_window.
Qed.

Lemma kept_tx t v : (KTx t, v) ∈ t_entries <-> indexed bs (KTx t) = Some v.
Proof.
  rewrite indexed_tx by done. unfold t_entries. rewrite list_elem_of_fmap. split.
  - intros (x & [= -> ->] & (b & Hb & Ht & -> & _)%tx_head_inv). by exists b.
  - intros (b & Hb & Ht & ->). destruct (tx_head t b Hb Ht) as (x & Hx & <- & <-). by exists x.
Qed.

Lemma kept_tx_exact t v : (KTxExact t, v) ∈ x_entries <-> indexed bs (KTxExact t) = Some v.
Proof.
  rewrite indexed_tx_exact by done. unfold x_entries. rewrite list_elem_of_fmap. split.
  - intros (x & [= -> ->] & (b & Hb & Ht & -> & _)%tx_head_inv). by exists b.
  - intros (b & Hb & Ht & ->). destruct (tx_head t b Hb Ht) as (x & Hx & <- & <-). by exists x.
Qed.

Lemma kept_tx_block bh t v : (KTxBlockRecovery bh t, v) ∈ y_entries <-> bh ∈ seed_window bs undo /\ indexed bs (KTxBlockRecovery bh t) = Some v.
Proof.
  rewrite indexed_tx_block by done. unfold y_entries. rewrite list_elem_of_fmap. split.
  - intros (x & [= -> -> ->] & [Hr (b & Hb & Ht & E & HxB)%tx_head_inv]%list_elem_of_filter). split; [by apply recent_window|]. exists b. by rewrite E.
  - intros (Hw & b & Hb & [-> Ht] & ->). destruct (tx_head t b Hb Ht) as (x & Hx & <- & E). exists x. rewrite E. split; [done|].
    apply list_elem_of_filter. split; [|done]. apply recent_window; [by apply elem_of_tx_heads|]. by rewrite E.
Qed.

(** Everything a load puts. *)
Definition loaded : list (key * bytes) := concat (entries <$> selectPrefixes true txIndex).

Lemma loaded_prefixes : selectPrefixes true txIndex = if txIndex then ["B"; "H"; "N"; "O"; "S"; "T"; "W"; "X"; "Y"; "Z"] else ["B"; "H"; "N"; "O"; "S"; "W"; "Z"].
Proof. by destruct txIndex. Qed.

Lemma loaded_lists : loaded
  = b_entries ++ h_entries ++ n_entries ++ o_entries ++ s_entries ++ (if txIndex then t_entries else []) ++ w_entries
    ++ (if txIndex then x_entries ++ y_entries else []) ++ z_entries.
Proof. unfold loaded. rewrite loaded_prefixes. destruct txIndex; cbn [fmap list_fmap concat]; unfold entries; cbn; by rewrite ?app_nil_r, <- ?app_assoc. Qed.

Ltac other_kind := let E := fresh in intros (? & E & _)%list_elem_of_fmap; discriminate E.

(** One kind of key is in one kind of entries. *)
Ltac of_kind Hin := repeat match type of Hin with _ \/ _ => destruct Hin as [Hin|Hin] end; try (exfalso; revert Hin; first [by intros ?%elem_of_nil|other_kind]).

Lemma loaded_iff k v : is_meta k = false -> (k, v) ∈ loaded <-> kept k /\ indexed bs k = Some v.
Proof.
  intros Hm. rewrite loaded_lists, !elem_of_app. destruct k as [bh|t|t i|sh t i|t i|t pt i|sh|bh sh|bh sh t i|bh t i|bh|bh t i|t|bh t|m]; try discriminate Hm;
    unfold kept; cbn [index_of key_block]; case_eq txIndex; intros _; rewrite ?elem_of_app;
    (split; [intros Hin; of_kind Hin|intros [Hk Hi]; try discriminate Hk]); try done.
  all: try by rewrite indexed_inputs in Hi by eauto.
  all: try match goal with
    | Hin : _ ∈ b_entries |- _ => by apply kept_block in Hin
    | Hi : indexed bs (KBlock _) = _ |- _ => apply kept_block in Hi; tauto
    | Hin : _ ∈ h_entries |- _ => by apply kept_hint in Hin
    | Hi : indexed bs (KOutHint _ _) = _ |- _ => apply kept_hint in Hi; tauto
    | Hin : _ ∈ o_entries |- _ => by apply kept_output in Hin
    | Hi : indexed bs (KOutput _ _ _) = _ |- _ => apply kept_output in Hi; tauto
    | Hin : _ ∈ s_entries |- _ => by apply kept_script in Hin
    | Hi : indexed bs (KScriptBlk _) = _ |- _ => apply kept_script in Hi; tauto
    | Hin : _ ∈ t_entries |- _ => by apply kept_tx in Hin
    | Hi : indexed bs (KTx _) = _ |- _ => apply kept_tx in Hi; tauto
    | Hin : _ ∈ x_entries |- _ => by apply kept_tx_exact in Hin
    | Hi : indexed bs (KTxExact _) = _ |- _ => apply kept_tx_exact in Hi; tauto
    | Hin : _ ∈ n_entries |- _ => by apply kept_stored in Hin
    | Hk : _, Hi : indexed bs (KStoredBlk _) = _ |- _ => pose proof (proj2 (kept_stored _ _) (conj Hk Hi)); tauto
    | Hin : _ ∈ w_entries |- _ => by apply kept_out_block in Hin
    | Hk : _, Hi : indexed bs (KOutBlk _ _ _) = _ |- _ => pose proof (proj2 (kept_out_block _ _ _ _) (conj Hk Hi)); tauto
    | Hin : _ ∈ z_entries |- _ => by apply kept_block_script in Hin
    | Hk : _, Hi : indexed bs (KBlkScript _ _) = _ |- _ => pose proof (proj2 (kept_block_script _ _ _) (conj Hk Hi)); tauto
    | Hin : _ ∈ y_entries |- _ => apply kept_tx_block in Hin; tauto
    | Hk : _, Hi : indexed bs (KTxBlockRecovery _ _) = _ |- _ => pose proof (proj2 (kept_tx_block _ _ _) (conj (proj2 Hk) Hi)); tauto
    end.
  by destruct Hk.
Qed.

(** ** Files of entries *)

Definition encoded (e : key * bytes) : bytes * bytes := (enc e.1, e.2).

(** A key file whose records load as the given entries, in some order. *)
Definition holds_entries (d : key_files) (pfx : string) (l : list (key * bytes)) : Prop :=
  exists es, key_file_of d txIndex pfx es /\ es ≡ₚ encoded <$> l.

Lemma file_of_items {A} (d : key_files) pfx p (g : A -> bytes) (kv : A -> key * bytes) (items items' : list A) :
  preparePrefixLoad d pfx txIndex = Ok p -> pl_file p = concat (g <$> items') -> items' ≡ₚ items ->
  (forall x, x ∈ items -> length (g x) = pl_recordSize p /\ loads_as (pl_keySize p) (pl_valueTransform p) (pl_recordValidator p) (g x) (encoded (kv x))) ->
  holds_entries d pfx (kv <$> items).
Proof.
  intros Ep Ef Hi Hg. exists ((fun x => encoded (kv x)) <$> items'). split.
  - split. exists p, (g <$> items'). split_and!; [done|done|apply sized_fmap; intros x Hx; apply Hg; by rewrite <- Hi|].
    apply Forall2_fmap_2, Forall_Forall2_diag, Forall_forall. intros x Hx. apply Hg. by rewrite <- Hi.
  - rewrite <- list_fmap_compose. by rewrite Hi.
Qed.

Lemma file_of_sorted {A} (d : key_files) pfx p n (g : A -> bytes) (kv : A -> key * bytes) (items : list A) :
  preparePrefixLoad d pfx txIndex = Ok p -> pl_file p = sorted_file n (g <$> items) ->
  (forall x, x ∈ items -> length (g x) = pl_recordSize p /\ loads_as (pl_keySize p) (pl_valueTransform p) (pl_recordValidator p) (g x) (encoded (kv x))) ->
  holds_entries d pfx (kv <$> items).
Proof.
  intros Ep Ef. apply (file_of_items d pfx p g kv items (stable_sort (fun x => take n (g x)) items)); [done| |apply stable_sort_Permutation].
  rewrite Ef. unfold sorted_file. f_equal. by apply stable_sort_fmap.
Qed.

Context {DB : Type} `{LevelDbLaws DB}.
Context (K : key_files).

Abbreviation d := (derived bs (live bs) undo txIndex K).

Ltac found := unfold preparePrefixLoad, derived, put_file; destruct txIndex; cbn [kf_dat]; simplify_map_eq; reflexivity.

Lemma live_ok x : x ∈ live bs -> born_ok x.
Proof. intros [Hx _]%elem_of_live. by apply (born_ok_all bs Hv). Qed.

Lemma heads_ok x : x ∈ tx_heads B -> born_ok x.
Proof. intros Hx%heads_sub. by apply (born_ok_all bs Hv). Qed.

Lemma firsts_ok p : p ∈ firsts B -> born_ok p.2.
Proof. intros Hp%heads_sub. by apply (elem_of_script_rows B (born_ok_all bs Hv)). Qed.

Lemma b_holds : holds_entries d "B" b_entries.
Proof.
  apply (file_of_sorted d "B" (mkPrefixLoad 33 73 (b_file bs) None None) 33 (fun b => b_record (meta_of b)) (fun b => (KBlock (h2b (bd_hash b)), block_record b))); [found|done|].
  intros b Hb%(vc_blocks _ Hv). split; [by apply length_b|]. rewrite b_record_of by done. apply loads_plain. cbn [enc]. by rewrite length_app, (h2b_hash32 _ (bk_hash _ Hb)).
Qed.

Lemma n_holds : holds_entries d "N" n_entries.
Proof.
  apply (file_of_sorted d "N" (mkPrefixLoad 33 33 (n_file bs undo) None None) 33 n_record (fun h => (KStoredBlk h, []))); [found|done|].
  intros h (b & -> & Hb)%last_n_sub%list_elem_of_fmap. apply (vc_blocks _ Hv) in Hb. pose proof (h2b_hash32 _ (bk_hash _ Hb)) as Hh.
  split; [by apply length_n|]. rewrite n_record_of by done. apply loads_plain. cbn [enc]. by rewrite length_app, Hh.
Qed.

Lemma h_holds : holds_entries d "H" h_entries.
Proof.
  apply (file_of_items d "H" (mkPrefixLoad 37 69 (h_file (live bs)) None None) (fun x => h_record (born_bytes x)) (fun x => (KOutHint (n_txid x) (n_vout x), n_script x)) _ (live bs)); [found|done|done|].
  intros x Hx%live_ok. split; [by apply length_h|]. rewrite h_record_born by done. apply loads_plain. fields.
Qed.

Lemma o_holds : holds_entries d "O" o_entries.
Proof.
  apply (file_of_sorted d "O" (mkPrefixLoad 69 114 (o_file (live bs)) (Some transformOValue) None) 69 (fun x => o_record (born_bytes x))
    (fun x => (KOutput (n_script x) (n_txid x) (n_vout x), c_v (born_rec x)))); [found|done|].
  intros x Hx%live_ok. split; [by apply length_o|by apply loads_o].
Qed.

Lemma s_holds : holds_entries d "S" s_entries.
Proof.
  apply (file_of_items d "S" (mkPrefixLoad 33 37 (s_file bs) None None) (fun p => s_record (cand_bytes p))
    (fun p => (KScriptBlk (n_script p.2), be 4 (n_height p.2))) _ (firsts B)); [found|done|done|].
  intros p Hp%firsts_ok. split; [by apply length_s|]. rewrite s_record_of by done. apply loads_plain. fields.
Qed.

Lemma w_holds : holds_entries d "W" w_entries.
Proof.
  apply (file_of_sorted d "W" (mkPrefixLoad 69 101 (w_file bs undo) None (Some validateWRecord)) 69 (fun x => w_record (born_bytes x))
    (fun x => (KOutBlk (n_block x) (n_txid x) (n_vout x), n_script x))); [found|done|].
  intros x [_ Hx%(born_ok_all bs Hv)]%list_elem_of_filter. split; [by apply length_w|by apply loads_w].
Qed.

Lemma z_holds : holds_entries d "Z" z_entries.
Proof.
  apply (file_of_sorted d "Z" (mkPrefixLoad 65 65 (z_file bs undo) None None) 65 (fun p => z_record (cand_bytes p))
    (fun p => (KBlkScript (n_block p.2) (n_script p.2), []))); [found|done|].
  intros p [_ Hp%firsts_ok]%list_elem_of_filter. split; [by apply length_z|]. rewrite z_record_of by done. apply loads_plain. fields.
Qed.

Lemma t_holds : txIndex = true -> holds_entries d "T" t_entries.
Proof.
  intros Ht. apply (file_of_sorted d "T" (mkPrefixLoad 33 101 (t_file bs) (Some (fun v => Ok (dropTHeight v))) None) 37 (fun x => t_record (born_bytes x))
    (fun x => (KTx (n_txid x), n_block x ++ n_txid x))); [rewrite Ht; found|done|].
  intros x Hx%heads_ok. split; [by apply length_t|by apply loads_t].
Qed.

Lemma x_holds : txIndex = true -> holds_entries d "X" x_entries.
Proof.
  intros Ht. apply (file_of_sorted d "X" (mkPrefixLoad 33 65 (x_file bs) None None) 33 (fun x => x_record (born_bytes x))
    (fun x => (KTxExact (n_txid x), n_block x))); [rewrite Ht; found|done|].
  intros x Hx%heads_ok. split; [by apply length_x|]. rewrite x_record_born by done. apply loads_plain. fields.
Qed.

Lemma y_holds : txIndex = true -> holds_entries d "Y" y_entries.
Proof.
  intros Ht. apply (file_of_sorted d "Y" (mkPrefixLoad 65 97 (y_file bs undo) None None) 65 (fun x => y_record (born_bytes x))
    (fun x => (KTxBlockRecovery (n_block x) (n_txid x), n_txid x))); [rewrite Ht; found|done|].
  intros x [_ Hx%heads_ok]%list_elem_of_filter. split; [by apply length_y|]. rewrite y_record_born by done. apply loads_plain. fields.
Qed.

Lemma all_hold pfx : pfx ∈ selectPrefixes true txIndex -> holds_entries d pfx (entries pfx).
Proof.
  rewrite loaded_prefixes. intros Hp. destruct (Bool.bool_dec txIndex true) as [Ht|Ht%not_true_is_false]; rewrite Ht in Hp; repeat (apply elem_of_cons in Hp as [->|Hp]); try by apply elem_of_nil in Hp.
  all: first [exact b_holds|exact h_holds|exact n_holds|exact o_holds|exact s_holds|exact w_holds|exact z_holds
             |exact (t_holds Ht)|exact (x_holds Ht)|exact (y_holds Ht)].
Qed.

Lemma elem_of_concat {A} (x : A) ls : x ∈ concat ls <-> exists l, x ∈ l /\ l ∈ ls.
Proof. rewrite list_elem_of_In, in_concat. setoid_rewrite list_elem_of_In. naive_solver. Qed.

(** One list of entries for every prefix. *)
Lemma choose_entries (P : string -> list (bytes * bytes) -> Prop) (l : list string) :
  (forall pfx, pfx ∈ l -> exists es, P pfx es) -> exists f, forall pfx, pfx ∈ l -> P pfx (f pfx).
Proof.
  induction l as [|p l IH]; intros Hl; [exists (fun _ => []); by intros ? ?%elem_of_nil|]. destruct IH as [f Hf]; [intros q Hq; apply Hl; by right|].
  destruct (Hl p ltac:(left)) as [es Hes]. exists (fun q => if decide (q = p) then es else f q). intros q Hq. case_decide as E; [by subst|].
  apply Hf. set_solver.
Qed.

(** ** The store after the load *)

Implicit Type s : load (DB := DB).

Lemma entry_keys e : e ∈ loaded -> wf_key e.1 /\ is_meta e.1 = false.
Proof.
  rewrite loaded_lists, !elem_of_app. intros He. repeat match type of He with _ \/ _ => destruct He as [He|He] end.
  all: try (case_eq txIndex; intros Ht; rewrite Ht in He; rewrite ?elem_of_app in He; [|by apply elem_of_nil in He]; repeat match type of He with _ \/ _ => destruct He as [He|He] end).
  all: apply list_elem_of_fmap in He as (x & -> & Hx); (split; [|done]); cbn [wf_key fst].
  - apply h2b_hash32. by apply (vc_blocks _ Hv).
  - apply live_ok in Hx. split; apply Hx.
  - apply last_n_sub, list_elem_of_fmap in Hx as (b & -> & Hb). apply h2b_hash32. by apply (vc_blocks _ Hv).
  - apply live_ok in Hx. split_and!; apply Hx.
  - apply firsts_ok in Hx. apply Hx.
  - apply heads_ok in Hx. apply Hx.
  - apply list_elem_of_filter in Hx as [_ Hx%(born_ok_all bs Hv)]. split_and!; apply Hx.
  - apply heads_ok in Hx. apply Hx.
  - apply list_elem_of_filter in Hx as [_ Hx%heads_ok]. split; apply Hx.
  - apply list_elem_of_filter in Hx as [_ Hx%firsts_ok]. split; apply Hx.
Qed.

Lemma entry_vals e : e ∈ loaded -> wf_val e.1 e.2.
Proof.
  rewrite loaded_lists, !elem_of_app. intros He. repeat match type of He with _ \/ _ => destruct He as [He|He] end.
  all: try (case_eq txIndex; intros Ht; rewrite Ht in He; rewrite ?elem_of_app in He; [|by apply elem_of_nil in He]; repeat match type of He with _ \/ _ => destruct He as [He|He] end).
  all: apply list_elem_of_fmap in He as (x & -> & Hx); cbn [wf_val fst snd]; try done.
  - apply live_ok in Hx. apply Hx.
  - apply list_elem_of_filter in Hx as [_ Hx%(born_ok_all bs Hv)]. apply Hx.
Qed.

Lemma not_populated k v s : ~ populated (ld_db s) -> db_get (ld_db s) k = Some v -> k = PREFIX_LAYOUT_VERSION.
Proof. intros Hp Hk. destruct (decide (k = PREFIX_LAYOUT_VERSION)) as [?|Hn]; [done|]. destruct Hp. exists k, v. auto. Qed.

Lemma not_meta k m : wf_key k -> is_meta k = false -> enc k <> enc (KMeta m).
Proof. intros Hk Hm E. apply enc_inj in E; [|done..]. by subst k. Qed.

Lemma elem_of_final L n e : e ∈ final_entries L n -> exists m, e.1 = enc (KMeta m).
Proof.
  unfold final_entries. intros [He|He]%elem_of_app; [|case_bool_decide; [apply list_elem_of_singleton in He as ->; by exists UNDO_WATERMARK|by apply elem_of_nil in He]].
  repeat (apply elem_of_cons in He as [->|He]); [by exists LAST_BLOCK_HEIGHT|by exists LAST_BLOCK_HASH|by exists LAYOUT_VERSION|by apply elem_of_nil in He].
Qed.

Lemma run_seed_load batchSize s b : last bs = Some b -> no_faults s -> ~ populated (ld_db s) ->
  exists s', loadKeys d batchSize (Some true) None s = (Ok (Z.of_nat (length (seed_window bs undo))), s')
    /\ (forall k, wf_key k -> is_meta k = false -> dk (ld_db s') k = if decide (kept k) then indexed bs k else None)
    /\ db_wf (ld_db s')
    /\ dk (ld_db s') (KMeta LAST_BLOCK_HEIGHT) = Some (from_latin1 (to_radix 16 (bd_height b)))
    /\ dk (ld_db s') (KMeta LAST_BLOCK_HASH) = Some (from_latin1 (bd_hash b))
    /\ dk (ld_db s') (KMeta LAYOUT_VERSION) = Some (from_latin1 (to_radix 10 STORE_LAYOUT_VERSION))
    /\ dk (ld_db s') (KMeta UNDO_WATERMARK) = Some (from_latin1 (to_radix 10 (Z.of_nat (length (seed_window bs undo))))).
Proof.
  intros Hb Hs Hp. destruct (choose_entries (fun pfx es => key_file_of d txIndex pfx es /\ es ≡ₚ encoded <$> entries pfx) _ all_hold) as [es Hes].
  assert (HL : kf_L d = Some (mkMarkers (to_radix 16 (bd_height b)) (b2h (h2b (bd_hash b))) (Some txIndex))) by (unfold derived; cbn [kf_L]; by rewrite Hb).
  assert (Er : resolveTxIndex d None (kf_L d) = txIndex) by (by rewrite HL).
  unfold loadKeys, mbind, M_bind. rewrite Er. change (default true (Some true)) with true. set (size := if bool_decide (batchSize = 0) then _ else _).
  destruct (run_holdsNothing s) as (fresh & -> & Hf). rewrite (proj2 Hf Hp). cbn [negb].
  destruct (run_loadPrefixes d txIndex size es (selectPrefixes true txIndex) 0%Z s)
    as (s1 & -> & Hs1 & Hg1); [intros pfx Hpfx; by apply Hes|done|].
  assert (HN : "N" ∈ selectPrefixes true txIndex) by (rewrite loaded_prefixes; destruct (txIndex : bool); do 2 right; left).
  rewrite decide_True by done. rewrite writeFinalMarkers_puts, HL.
  assert (Hlen : length (es "N") = length (seed_window bs undo)).
  { rewrite (proj2 (Hes "N" HN)), length_fmap. change (entries "N") with n_entries. unfold n_entries. by rewrite length_fmap. }
  rewrite Hlen. set (L := mkMarkers _ _ _). destruct (run_load_batch (final_entries L (Z.of_nat (length (seed_window bs undo)))) s1 Hs1) as (s2 & -> & Hs2 & Hg2).
  exists s2. split; [done|]. pose proof (final_entries_stored L (Z.of_nat (length (seed_window bs undo))) (fun k => db_get (ld_db s1) k)) as (F1 & F2 & F3 & F4).
  assert (Hpos' : (0 < Z.of_nat (length (seed_window bs undo)))%Z).
  { unfold seed_window, last_n. rewrite length_drop, length_fmap. destruct bs; [done|]. cbn [length]. lia. }
  assert (Hmem : forall e, e ∈ concat (es <$> selectPrefixes true txIndex) <-> exists kv, kv ∈ loaded /\ e = encoded kv).
  { intros e. unfold loaded. setoid_rewrite elem_of_concat. setoid_rewrite list_elem_of_fmap. split.
    - intros (l & He & pfx & -> & Hpfx). rewrite (proj2 (Hes pfx Hpfx)) in He. apply list_elem_of_fmap in He as (kv & -> & Hkv).
      exists kv. split; [|done]. by exists (entries pfx); eauto.
    - intros (kv & (l & Hkv & pfx & -> & Hpfx) & ->). exists (es pfx). split; [|by eauto]. rewrite (proj2 (Hes pfx Hpfx)). by apply list_elem_of_fmap_2. }
  assert (Hwf : db_wf (ld_db s2)).
  { intros k v. rewrite Hg2. intros [Hk|Hk]%putting_in.
    - apply elem_of_final in Hk as [m Em]. exists (KMeta m). done.
    - rewrite Hg1 in Hk. apply putting_in in Hk as [Hk|Hk].
      + apply Hmem in Hk as (kv & Hkv & [= -> ->]). exists kv.1. split_and!; [done|by apply entry_keys|by apply entry_vals].
      + apply (not_populated _ _ _ Hp) in Hk as ->. by exists (KMeta LAYOUT_VERSION). }
  unfold dk. cbn [enc enc_meta]. rewrite !Hg2, F1, F2, F3, F4 by done. unfold L. cbn [l_height l_hash].
  assert (Hbw : block_wf b) by (apply (vc_blocks _ Hv); by apply last_Some_elem_of).
  rewrite b2h_h2b by apply Hbw. split_and!; try done. clear F1 F2 F3 F4.
  intros k Hk Hm. rewrite Hg2, putting_none.
  2:{ intros e He E. apply elem_of_final in He as [m Em]. rewrite Em in E. by apply (not_meta k m). }
  rewrite Hg1.
  assert (Hkey : forall kv, kv ∈ loaded -> enc kv.1 = enc k -> kv.1 = k /\ kept k /\ indexed bs k = Some kv.2).
  { intros [k' v'] Hkv E. cbn in E. apply enc_inj in E as ->; [|by apply (entry_keys _ Hkv)|done]. split; [done|]. by apply loaded_iff. }
  case_decide as Hkept.
  - destruct (indexed bs k) as [v|] eqn:Ev.
    + apply putting_some.
      * apply Hmem. exists (k, v). split; [by apply loaded_iff|done].
      * intros e (kv & Hkv & ->)%Hmem E. destruct (Hkey kv Hkv E) as (_ & _ & Ei). cbn. congruence.
    + rewrite putting_none; [|intros e (kv & Hkv & ->)%Hmem E; by destruct (Hkey kv Hkv E) as (_ & _ & ?)].
      destruct (db_get (ld_db s) (enc k)) as [v|] eqn:Eg; [|done]. apply (not_populated _ _ _ Hp) in Eg. by apply (not_meta k LAYOUT_VERSION) in Eg.
  - rewrite putting_none; [|intros e (kv & Hkv & ->)%Hmem E; by destruct (Hkey kv Hkv E) as (_ & ? & _)].
    destruct (db_get (ld_db s) (enc k)) as [v|] eqn:Eg; [|done]. apply (not_populated _ _ _ Hp) in Eg. by apply (not_meta k LAYOUT_VERSION) in Eg.
Qed.
End entries.

(** * The seeder from the dumps to the loaded store *)

Section seeding.
Context {envs : Environment} {node : Node} {hash : TxHash} {hashlaws : TxHashLaws} {lib : Bitcoinjs} {DB : Type} `{LevelDbLaws DB}.

(** A chain within what the formats of the streams hold. *)
Record fits (bs : list block_data) : Prop := {
  ft_meta : forall b, b ∈ bs -> meta_ok b;
  ft_counts : counts_ok bs;
  ft_rows : (Z.of_nat (length (all_born bs)) <= 2 ^ 32)%Z;
}.

(** The dump of each range holds its blocks. *)
Definition dumps_of (wireFormat : string) (rds : list (span * list dumped)) : Prop :=
  forall r ds, (r, ds) ∈ rds -> Forall2 (carries wireFormat) ds (sn_blocks r).

Definition parse_of (chain netName : string) (rd : span * list dumped) : res parsed :=
  parseRange chain netName (sn_first rd.1) (sn_last rd.1) rd.2.

(** A directory that holds the parsed ranges and nothing merged. *)
Record holds_parsed (ps : list parsed) (d : work_dir) : Prop := {
  hp_merge : wd_merge d = ∅;
  hp_queue : wd_queue d = [];
  hp_outputs : findFiles (wd_parsed d) "outputs-" ".dat" = p_outputs <$> ps;
  hp_spends : findFiles (wd_parsed d) "spends-" ".dat" = p_spends <$> ps;
  hp_meta : findFiles (wd_parsed d) "meta-" ".dat" = p_meta <$> ps;
}.

(** The records of [bs] as a seeded store has them, and its tip. *)
Record seeded (bs : list block_data) (undo : Z) (txIndex : bool) (d : DB) : Prop := {
  sd_records : forall k, wf_key k -> is_meta k = false -> dk d k = if decide (kept bs undo txIndex k) then indexed bs k else None;
  sd_wf : db_wf d;
  sd_tip : forall b, last bs = Some b ->
    dk d (KMeta LAST_BLOCK_HEIGHT) = Some (from_latin1 (to_radix 16 (bd_height b))) /\ dk d (KMeta LAST_BLOCK_HASH) = Some (from_latin1 (bd_hash b));
  sd_layout : dk d (KMeta LAYOUT_VERSION) = Some (from_latin1 (to_radix 10 STORE_LAYOUT_VERSION));
  sd_watermark : dk d (KMeta UNDO_WATERMARK) = Some (from_latin1 (to_radix 10 (Z.of_nat (length (seed_window bs undo)))));
}.

Implicit Types rds : list (span * list dumped).

Lemma counts_part bs1 bs2 : counts_ok (bs1 ++ bs2) -> counts_ok bs1 /\ counts_ok bs2.
Proof. unfold counts_ok, u64. rewrite !flat_map_app, !length_app. lia. Qed.

Lemma span_ok rds r ds o : (r, ds) ∈ rds -> spans_ok o rds.*1 -> u32 (sn_first r) /\ u32 (sn_last r).
Proof.
  induction rds as [|[r' ds'] rds IH] in o |- *; [by intros ?%elem_of_nil|]. intros [[= -> ->]|Hin]%elem_of_cons (H1 & H2 & _ & _ & H5); [done|]. by eapply IH.
Qed.

Lemma part_of rds r ds : (r, ds) ∈ rds -> exists l1 l2, blocks_of rds.*1 = l1 ++ sn_blocks r ++ l2.
Proof.
  intros (l1 & l2 & ->)%list_elem_of_split. unfold blocks_of. rewrite fmap_app, flat_map_app. cbn. by eexists _, _.
Qed.

Lemma files_of (f : parsed -> bytes) c n rds :
  f <$> ((fun rd => range_files c n rd.1) <$> rds) = (fun r => f (range_files c n r)) <$> rds.*1.
Proof. induction rds as [|rd rds IH]; [done|]. cbn [fmap list_fmap]. by rewrite IH. Qed.

(** Parse, merge and load. *)
Lemma run_seeding args chain netName c n wireFormat rds undo warns hash0 h0 :
  let bs := blocks_of rds.*1 in
  let txIndex := negb (is_bitcoin (ar_network args)) in
  ar_network args = String.append chain (String.append "-" netName) -> net_codes chain netName c n ->
  newDecoder (ar_network args) = Ok wireFormat -> ar_removeSpent args = true ->
  resolveUndoBlocks (ar_network args) None = Ok (undo, warns) -> (0 < undo)%Z ->
  valid_chain bs -> linked hash0 h0 bs -> (-1 <= h0)%Z -> fits bs -> bs <> [] ->
  spans_ok None rds.*1 -> dumps_of wireFormat rds ->
  exists ps, Forall2 (fun rd p => parse_of chain netName rd = Ok p) rds ps
    /\ forall d, holds_parsed ps d -> exists d', phaseMerge args d = (Ok tt, d')
    /\ forall s, ld_faults s = [] -> ~ populated (ld_db s) ->
       exists s', phaseLoad args d' s = (Ok (Z.of_nat (length (seed_window bs undo))), s') /\ seeded bs undo txIndex (ld_db s').
Proof.
  intros bs txIndex Hnet Hcodes Hdec Hrs Hundo Hpos Hv Hlinked Hh0 Hfits Hne Hspans Hdumps.
  exists ((fun rd => range_files c n rd.1) <$> rds). split.
  { apply Forall2_fmap_r, Forall_Forall2_diag, Forall_forall. intros [r ds] Hin. destruct (part_of _ _ _ Hin) as (l1 & l2 & E).
    destruct (span_ok _ _ _ _ Hin Hspans) as [Hf Hl]. rewrite Hnet in Hdec.
    change (parseRange chain netName (sn_first r) (sn_last r) ds = Ok (parsed_of c n (sn_first r) (sn_last r) (sn_blocks r))).
    apply (run_parseRange wireFormat chain netName c n); [exact Hdec|exact Hcodes|exact Hf|exact Hl|exact (Hdumps r ds Hin)| |].
    - intros b Hb. apply (ft_meta _ Hfits). unfold bs. rewrite E, !elem_of_app. auto.
    - pose proof (ft_counts _ Hfits) as Hc. unfold bs in Hc. rewrite E in Hc. apply counts_part in Hc as [_ Hc]. by apply counts_part in Hc as [Hc _]. }
  intros d [Hm Hq Ho Hs Ht]. destruct rds as [|[r ds] rds]; [done|].
  destruct (run_phaseMerge args c n r rds.*1 Hspans (ft_counts _ Hfits) Hv (ft_meta _ Hfits) (ft_rows _ Hfits) Hrs undo warns Hundo Hpos Hne d) as (d' & Em & Hd').
  { split; [exact Hm|exact Hq|rewrite Ho|rewrite Hs|rewrite Ht]; apply (files_of _ c n ((r, ds) :: rds)). }
  exists d'. split; [done|]. intros s Hf Hp. destruct (last bs) as [b|] eqn:Eb; [|by apply last_None in Eb].
  destruct (run_seed_load bs undo txIndex hash0 h0 Hlinked Hh0 Hpos Hv (ft_rows _ Hfits) (wd_keys d) (ar_batchSize args) s b Eb Hf Hp)
    as (s' & El & Hrec & Hwf & Hhe & Hha & Hla & Hw).
  exists s'. split.
  - unfold phaseLoad. rewrite Hrs, (dr_keys _ _ _ _ Hd'). exact El.
  - split; [done|done| |done|done]. rewrite Eb. by intros ? [= <-].
Qed.
End seeding.
