(* ===== verification/RunFacts.v ===== *)
(** The names of the dump and parse files: heights padded to eight digits, so that the
    order of the names is the order of the heights, and a directory listing sorted by name
    finds the files of consecutive ranges in chain order. *)

From S2P Require Import Prelude KeyCodec LevelDb ValueCodec Store Outputs StoreFacts Rollback Parsing Apply Spend Block ChainParams Json Startup Wire.
From S2P Require Import AuxPow Decoder Connector RecordFiles Heap ExternalSort AntiJoin SeedStreams Xdmp Dump ValidateChain ConnectorFacts WorkDir.
From S2P Require Import DeriveKeys Loader Seeder Orchestrator StreamFacts RangeFacts DeriveFacts PhaseFacts DumpFacts.

#[local] Open Scope string_scope.
#[local] Open Scope nat_scope.
#[local] Open Scope list_scope.

(** * Padded numbers *)

(** The last [k] decimal digits of [n]. *)
Fixpoint digits_of (k : nat) (n : Z) : bytes :=
  match k with O => [] | S k => digits_of k (n / 10) ++ [Ascii.byte_of_ascii (hex_digit (n mod 10))] end.

Lemma length_digits_of k n : length (digits_of k n) = k.
Proof. induction k as [|k IH] in n |- *; [done|]. cbn [digits_of]. rewrite length_app, IH. cbn. lia. Qed.

Lemma from_latin1_app a b : from_latin1 (String.append a b) = from_latin1 a ++ from_latin1 b.
Proof. induction a as [|c a IH]; [done|]. exact (f_equal (cons _) IH). Qed.

Lemma length_from_latin1 s : length (from_latin1 s) = String.length s.
Proof. induction s as [|c s IH]; [done|]. cbn. by rewrite IH. Qed.

Lemma iter_S_r {A} n (f : A -> A) x : Nat.iter (S n) f x = Nat.iter n f (f x).
Proof. induction n as [|n IH]; [done|]. change (f (Nat.iter (S n) f x) = f (Nat.iter n f (f x))). by rewrite IH. Qed.

Lemma digits_zero k s : from_latin1 (Nat.iter k (String.String "0"%char) s) = digits_of k 0 ++ from_latin1 s.
Proof.
  induction k as [|k IH] in s |- *; [done|]. rewrite iter_S_r, IH. cbn [digits_of]. rewrite <- app_assoc. done.
Qed.

Lemma radix_digits_padded k : forall fuel n acc, (0 <= n < 10 ^ Z.of_nat k)%Z -> (n < 2 ^ Z.of_nat fuel)%Z -> 0 < fuel -> 0 < k ->
  exists m, 0 < m <= k /\ String.length (radix_digits fuel 10 n acc) = m + String.length acc
    /\ from_latin1 (Nat.iter (k - m) (String.String "0"%char) (radix_digits fuel 10 n acc)) = digits_of k n ++ from_latin1 acc.
Proof.
  induction k as [|k IH]; intros fuel n acc Hn Hlt Hf Hk; [lia|]. destruct fuel as [|fuel]; [lia|]. cbn [radix_digits digits_of].
  case_bool_decide as Hs.
  - exists 1. split_and!; [lia|lia|done|]. replace (S k - 1) with k by lia. rewrite digits_zero. cbn [from_latin1]. rewrite <- app_assoc. cbn [app].
    by rewrite (Z.div_small n) by lia.
  - rewrite Nat2Z.inj_succ, Z.pow_succ_r in Hn by lia. rewrite Nat2Z.inj_succ, Z.pow_succ_r in Hlt by lia.
    assert (Hk0 : 0 < k) by (destruct k; [cbn in Hn; lia|lia]).
    assert (Hd : (1 <= n / 10)%Z) by (apply Z.div_le_lower_bound; lia).
    assert (Hd2 : (n / 10 < 2 ^ Z.of_nat fuel)%Z) by (apply Z.div_lt_upper_bound; lia).
    destruct (IH fuel (n / 10)%Z (String.String (hex_digit (n mod 10)) acc)) as (m & Hm & Hl & E).
    + split; [lia|apply Z.div_lt_upper_bound; lia].
    + done.
    + destruct fuel; [cbn in Hd2; lia|lia].
    + done.
    + exists (S m). split_and!; [lia|lia|rewrite Hl; cbn; lia|]. replace (S k - S m) with (k - m) by lia. rewrite E. cbn [from_latin1]. by rewrite <- app_assoc.
Qed.

Definition padded_ok (n : Z) : Prop := (0 <= n < 100000000)%Z.

Lemma padStart0_digits n : padded_ok n -> from_latin1 (padStart0 8 (to_radix 10 n)) = digits_of 8 n.
Proof.
  intros Hn. unfold padStart0, to_radix. unfold padded_ok in Hn. rewrite bool_decide_eq_false_2 by lia.
  destruct (radix_digits_padded 8 (S (Z.to_nat (Z.log2 n))) n "") as (m & Hm & Hl & E).
  - split; [lia|]. change (10 ^ Z.of_nat 8)%Z with 100000000%Z. lia.
  - rewrite Nat2Z.inj_succ, Z2Nat.id by apply Z.log2_nonneg. destruct (decide (n = 0)%Z) as [->|]; [done|]. apply Z.log2_spec. lia.
  - lia.
  - lia.
  - rewrite Hl. cbn [String.length]. rewrite Nat.add_0_r, E. apply app_nil_r.
Qed.

(** ** Their order *)

Lemma ble_app_same p a b : ble (p ++ a) (p ++ b) = ble a b.
Proof.
  induction p as [|x p IH]; [done|]. cbn [app]. destruct (ble a b) eqn:E.
  - apply ble_cons. right. split; [done|]. exact IH.
  - destruct (ble (x :: p ++ a) (x :: p ++ b)) eqn:E'; [|done]. apply ble_cons in E' as [?|[_ E']]; [lia|]. by rewrite IH in E'.
Qed.

Lemma digit_code d : (0 <= d < 16)%Z -> (d < 10)%Z -> Z_of_byte (Ascii.byte_of_ascii (hex_digit d)) = (48 + d)%Z.
Proof.
  intros Hd Hl. revert Hl. apply (bool_decide_eq_true ((d < 10)%Z -> _)). revert d Hd. by apply hex_digit_all.
Qed.

Lemma ble_digits k : forall a b r1 r2, (0 <= a)%Z -> (a < b)%Z -> (b < 10 ^ Z.of_nat k)%Z ->
  ble (digits_of k a ++ r1) (digits_of k b ++ r2) = true.
Proof.
  induction k as [|k IH]; intros a b r1 r2 Ha Hab Hb; [cbn in Hb; lia|]. rewrite Nat2Z.inj_succ, Z.pow_succ_r in Hb by lia.
  cbn [digits_of]. rewrite <- !app_assoc. pose proof (Z.div_mod a 10 ltac:(lia)). pose proof (Z.div_mod b 10 ltac:(lia)).
  pose proof (Z.mod_pos_bound a 10 ltac:(lia)). pose proof (Z.mod_pos_bound b 10 ltac:(lia)).
  destruct (decide (a / 10 = b / 10)%Z) as [E|Hne].
  - rewrite E, ble_app_same. cbn [app]. apply ble_cons. left. rewrite !digit_code by lia. lia.
  - apply IH; [apply Z.div_pos; lia| |apply Z.div_lt_upper_bound; lia]. assert (a / 10 <= b / 10)%Z by (apply Z.div_le_mono; lia). lia.
Qed.

Lemma digits_inj k : forall a b, (0 <= a < 10 ^ Z.of_nat k)%Z -> (0 <= b < 10 ^ Z.of_nat k)%Z -> digits_of k a = digits_of k b -> a = b.
Proof.
  induction k as [|k IH]; intros a b Ha Hb; [cbn in *; lia|]. rewrite Nat2Z.inj_succ, Z.pow_succ_r in Ha, Hb by lia.
  cbn [digits_of]. intros [E1 E2]%app_inj_tail. apply IH in E1; [|split; [apply Z.div_pos; lia|apply Z.div_lt_upper_bound; lia]..].
  pose proof (Z.mod_pos_bound a 10 ltac:(lia)). pose proof (Z.mod_pos_bound b 10 ltac:(lia)).
  apply (f_equal Z_of_byte) in E2. rewrite !digit_code in E2 by lia.
  rewrite (Z.div_mod a 10), (Z.div_mod b 10) by lia. lia.
Qed.

(** * Listings *)

Definition matches (prefix suffix f : string) : bool := starts_with prefix f && ends_with suffix f.

Lemma from_latin1_inj a b : from_latin1 a = from_latin1 b -> a = b.
Proof. intros E. by rewrite <- (to_from_latin1 a), E, to_from_latin1. Qed.

#[local] Instance name_order_antisymm : AntiSymm (=) (fun a b => ble (from_latin1 a) (from_latin1 b) = true).
Proof. intros a b H1 H2. by apply from_latin1_inj, ble_antisym. Qed.

(** The matching files are [nf], in the order of their names. *)
Lemma findFiles_are (m : gmap string bytes) prefix suffix (nf : list (string * bytes)) :
  NoDup nf.*1 -> key_sorted from_latin1 nf.*1 -> (forall n f, (n, f) ∈ nf <-> m !! n = Some f /\ matches prefix suffix n = true) ->
  findFiles m prefix suffix = nf.*2.
Proof.
  intros Hnd Hs Hm. unfold findFiles.
  set (P := fun f => starts_with prefix f && starts_with (rev_string suffix "") (rev_string f "") = true).
  assert (E : stable_sort from_latin1 (filter P (map_to_list m).*1) = nf.*1).
  { apply (StronglySorted_unique (fun a b => ble (from_latin1 a) (from_latin1 b) = true)); [apply stable_sort_sorted|done|].
    rewrite stable_sort_Permutation. apply NoDup_Permutation; [apply NoDup_filter, NoDup_fst_map_to_list|done|]. intros n.
    rewrite list_elem_of_filter, !list_elem_of_fmap. split.
    - intros [HP ([n' f] & -> & Hf)]. exists (n', f). split; [done|]. apply Hm. split; [by apply elem_of_map_to_list|exact HP].
    - intros ([n' f] & -> & [Hf HP]%Hm). split; [exact HP|]. exists (n', f). split; [done|]. by apply elem_of_map_to_list. }
  change (omap (fun f => m !! f) (stable_sort from_latin1 (filter P (map_to_list m).*1)) = nf.*2). rewrite E.
  assert (Hin : forall n f, (n, f) ∈ nf -> m !! n = Some f) by (intros n f Hnf; by apply Hm in Hnf as [? _]). clear -Hin.
  induction nf as [|[n f] nf IH]; [done|]. cbn [fmap list_fmap fst snd omap list_omap]. rewrite (Hin n f) by left. f_equal. apply IH. intros n' f' H. apply Hin. by right.
Qed.

(** * A seeding run over an honest node, phase by phase *)

(** * Chunks of a range *)

Lemma chunk_ranges_in size fuel : forall a b r, (0 < size)%Z -> r ∈ chunk_ranges fuel size a b -> (a <= r.1)%Z /\ (r.1 <= r.2)%Z /\ (r.2 <= b)%Z.
Proof.
  induction fuel as [|f IH]; intros a b r Hs; cbn [chunk_ranges]; [by intros ?%elem_of_nil|]. case_bool_decide; [by intros ?%elem_of_nil|].
  intros [->|Hr]%elem_of_cons; [cbn; lia|]. apply IH in Hr; [lia|done].
Qed.

Lemma chunk_ranges_sorted size fuel : forall a b, (0 < size)%Z -> StronglySorted (fun r r' => (r.1 < r'.1)%Z) (chunk_ranges fuel size a b).
Proof.
  induction fuel as [|f IH]; intros a b Hs; cbn [chunk_ranges]; [constructor|]. case_bool_decide; [constructor|]. constructor; [by apply IH|].
  apply Forall_forall. intros r Hr%chunk_ranges_in; [|done]. cbn. lia.
Qed.

Lemma chunk_ranges_heights size fuel : forall a b, (0 < size)%Z -> Z.to_nat (b - a + 1) <= fuel ->
  concat ((fun r => batchHeights r.1 r.2) <$> chunk_ranges fuel size a b) = batchHeights a b.
Proof.
  induction fuel as [|f IH]; intros a b Hs Hf; cbn [chunk_ranges]; [by rewrite batchHeights_nil by lia|].
  case_bool_decide; [by rewrite batchHeights_nil by lia|]. rewrite fmap_cons. cbn [concat fst snd]. rewrite IH by lia. symmetry. apply batchHeights_split. lia.
Qed.

(** * File names *)

Section names.
Context (name : Z * Z -> string) (P : bytes) (rest : Z * Z -> bytes).
Context (Hname : forall r, padded_ok r.1 -> from_latin1 (name r) = P ++ digits_of 8 r.1 ++ rest r).

Lemma names_sorted l : StronglySorted (fun r r' => (r.1 < r'.1)%Z) l -> Forall (fun r => padded_ok r.1) l ->
  key_sorted from_latin1 (name <$> l) /\ NoDup (name <$> l).
Proof.
  induction 1 as [|r l Hs IH Hr]; intros Hp; [split; constructor|]. apply Forall_cons in Hp as [Hp1 Hp]. destruct (IH Hp) as [H1 H2].
  rewrite fmap_cons. rewrite Forall_forall in Hr, Hp. split.
  - constructor; [done|]. apply Forall_forall. intros n (r' & -> & Hin)%list_elem_of_fmap. specialize (Hr r' Hin). specialize (Hp r' Hin).
    rewrite !Hname, ble_app_same by done. apply ble_digits; unfold padded_ok in *; [lia|lia|]. change (10 ^ Z.of_nat 8)%Z with 100000000%Z. lia.
  - constructor; [|done]. intros (r' & E & Hin)%list_elem_of_fmap. specialize (Hr r' Hin). specialize (Hp r' Hin).
    apply (f_equal from_latin1) in E. rewrite !Hname in E by done. apply app_inv_head in E.
    apply app_inj_1 in E as [E _]; [|by rewrite !length_digits_of]. unfold padded_ok in *. apply digits_inj in E; change (10 ^ Z.of_nat 8)%Z with 100000000%Z; lia.
Qed.
End names.

Lemma rev_string_app a b acc : rev_string (String.append a b) acc = rev_string b (rev_string a acc).
Proof. induction a as [|c a IH] in acc |- *; [done|]. exact (IH (String.String c acc)). Qed.

Lemma rev_string_acc s acc : rev_string s acc = String.append (rev_string s "") acc.
Proof.
  induction s as [|c s IH] in acc |- *; [done|]. cbn [rev_string]. rewrite IH, (IH (String.String c "")).
  generalize (rev_string s ""). intros t. induction t as [|d t IHt]; [done|]. exact (f_equal (String.String d) IHt).
Qed.

Lemma starts_with_app p s t : starts_with p s = true -> starts_with p (String.append s t) = true.
Proof.
  revert s. induction p as [|a p IH]; intros [|b s]; try done. cbn. intros [H1 H2]%andb_true_iff. apply andb_true_iff. split; [done|by apply IH].
Qed.

Lemma ends_with_app suffix a s : ends_with suffix s = true -> ends_with suffix (String.append a s) = true.
Proof.
  unfold ends_with. rewrite rev_string_app. intros E. rewrite (rev_string_acc s (rev_string a "")). by apply starts_with_app.
Qed.

Lemma tmp_no_match prefix a : matches prefix ".xdmp" (String.append a ".tmp") = false.
Proof. unfold matches, ends_with. rewrite rev_string_app. apply andb_false_iff. by right. Qed.

Section chunk_names.
Context (chain netName : string).

Lemma chunk_name_bytes r : padded_ok r.1 -> from_latin1 (chunk_name chain netName r)
  = from_latin1 (String.append "blocks-" (String.append chain (String.append "-" (String.append netName "-"))))
    ++ digits_of 8 r.1 ++ from_latin1 (String.append "-" (String.append (padStart0 8 (to_radix 10 r.2)) (String.append ".xdmp" ""))).
Proof.
  intros Hr. unfold chunk_name, chunkFileName. cbn [foldr]. rewrite !from_latin1_app, padStart0_digits by done.
  by rewrite <- !app_assoc.
Qed.

Lemma chunk_name_matches r : matches "blocks-" ".xdmp" (chunk_name chain netName r) = true.
Proof.
  unfold matches. apply andb_true_iff. split; [done|]. unfold chunk_name, chunkFileName. cbn [foldr].
  do 8 apply ends_with_app. reflexivity.
Qed.
End chunk_names.

(** The names of a parse stream. *)
Definition stream_name (stream : string) (r : Z * Z) : string := outPath stream r.1 r.2.

Lemma stream_name_bytes stream r : padded_ok r.1 -> from_latin1 (stream_name stream r)
  = from_latin1 (String.append stream "-h") ++ digits_of 8 r.1
    ++ from_latin1 (String.append "-h" (String.append (h8 r.2) (String.append ".dat" ""))).
Proof.
  intros Hr. unfold stream_name, outPath, h8. cbn [foldr]. rewrite !from_latin1_app, padStart0_digits by done. by rewrite <- !app_assoc.
Qed.

Lemma stream_name_ends stream r : ends_with ".dat" (stream_name stream r) = true.
Proof. unfold stream_name, outPath. cbn [foldr]. do 5 apply ends_with_app. reflexivity. Qed.

Section run.
Context {envs : Environment} {servers : RpcServers} {lib : Bitcoinjs} {node : Node} {hash : TxHash} {hashlaws : TxHashLaws}.
Context (N : node_view) (up : nat -> bool) (Hn : honest N up).
Context (chain netName : string) (c n : Z) (Hcodes : net_codes chain netName c n).
Context (clean : Z -> string).

Abbreviation network := (String.append chain (String.append "-" netName)).
Abbreviation tip := (nc_tip N).
Abbreviation chunk := (chunk_of N c n tip clean).
Abbreviation at_height := (dumped_at N clean).

(** * The dump *)

(** The process's environment names a node. *)
Record env_ready : Prop := {
  er_vars : exists u p, set_env "NODE_URL" = Ok u /\ set_env "NODE_PORT" = Ok p /\ forall now, exists k, newConnector u p now = Ok k;
  er_user : exists v, set_env "NODE_USER" = Ok v;
  er_password : exists v, set_env "NODE_PASSWORD" = Ok v;
}.

Lemma run_probe ch k : exists r k', probeDumpTxIndex ch k = (Ok r, k').
Proof.
  unfold probeDumpTxIndex. destruct (is_auxpow ch); [|by eexists _, _]. unfold warnIfTxIndexMissing, try_catch.
  destruct (probeTxIndex k) as [[r|e] k']; by eexists _, _.
Qed.

(** A range of heights that can be dumped: [a] to [e], below the eight digits of a file
    name. *)
Record range_ok (a e : Z) : Prop := {
  ro_first : (0 <= a <= e)%Z;
  ro_last : (e < 100000000)%Z;
  ro_tip : u32 tip;
  ro_blocks : forall h, (a <= h <= e)%Z -> dumpable N chain clean h;
}.

Definition chunks (size a e : Z) : list (Z * Z) := chunk_ranges (Z.to_nat (e - a + 1)) size a e.

Lemma chunks_in size a e r : (0 < size)%Z -> range_ok a e -> r ∈ chunks size a e ->
  (a <= r.1)%Z /\ (r.1 <= r.2)%Z /\ (r.2 <= e)%Z /\ padded_ok r.1 /\ padded_ok r.2 /\ chunk_ok N chain clean r.
Proof.
  intros Hs [H1 H2 _ H4] Hr%chunk_ranges_in; [|done]. unfold padded_ok. split_and!; try lia.
  split; unfold u32; try lia. apply Forall_forall. intros h Hh%elem_of_batchHeights. apply H4. lia.
Qed.

Lemma chunks_padded size a e : (0 < size)%Z -> range_ok a e -> Forall (fun r => padded_ok r.1) (chunks size a e).
Proof. intros Hs Hr. apply Forall_forall. intros r H. by apply (chunks_in size a e r Hs Hr) in H as (_ & _ & _ & H & _). Qed.

(** No finished dump file. *)
Definition no_dumps (out : gmap string bytes) : Prop := forall m f, out !! m = Some f -> matches "blocks-" ".xdmp" m = false.

Lemma run_dump_main argv args job d a e :
  parseDumpArgs argv default_dump_args = Ok args -> validateArgs args = Ok job -> env_ready ->
  dj_chain job = chain -> dj_netName job = netName -> dj_from job = a -> (0 < dj_chunkSize job)%Z ->
  resolveDumpEnd job (Some tip) = Ok (Some e) -> range_ok a e -> no_dumps (dp_out d) ->
  exists k' out', dump_main argv d = (Ok tt, mkDumper k' out')
    /\ findFiles out' "blocks-" ".xdmp" = chunk <$> chunks (dj_chunkSize job) a e.
Proof.
  intros Ea Ej [(u & p & E1 & E2 & E3) [us E4] [pw E5]] Ec En Ef Hs Ee Hr Hno. destruct d as [k0 out]. cbn [dp_out] in Hno.
  destruct (E3 (rpc_now (posts k0))) as (k1 & Ek). destruct (run_getBlockchainInfo N up Hn (new_process k0 k1)) as (info & k2 & Ei & Etip).
  destruct (run_probe chain k2) as (pr & k3 & Epr).
  destruct (names_sorted (chunk_name chain netName) _ _ (chunk_name_bytes chain netName) (chunks (dj_chunkSize job) a e)) as [Hsort Hnd];
    [by apply chunk_ranges_sorted|by apply chunks_padded|].
  destruct (run_dump_chunks N up Hn chain netName c n tip Hcodes (ro_tip _ _ Hr) clean job (Z.to_nat (e - a + 1)) a e (mkDumper k3 out) Ec En Hs) as (k4 & out' & E6 & H1 & H2).
  { apply Forall_forall. intros r H. by apply (chunks_in _ a e r Hs Hr) in H as (_ & _ & _ & _ & _ & H). }
  { done. }
  { intros r _. split.
    - cbn [dp_out]. destruct (out !! chunk_name chain netName r) eqn:E; [|done]. apply Hno in E. by rewrite chunk_name_matches in E.
    - intros r' _ E. pose proof (chunk_name_matches chain netName r') as Hm. by rewrite E, tmp_no_match in Hm. }
  destruct (run_getBlockchainInfo N up Hn k4) as (info' & k5 & Ei' & _).
  exists k5, out'. split.
  - unfold dump_main. rewrite Ea, (run_bind_ok _ _ (mkDumper k0 out) args (mkDumper k0 out)) by done.
    rewrite Ej, (run_bind_ok _ _ (mkDumper k0 out) job (mkDumper k0 out)) by done.
    rewrite E1, (run_bind_ok _ _ (mkDumper k0 out) u (mkDumper k0 out)) by done.
    rewrite E2, (run_bind_ok _ _ (mkDumper k0 out) p (mkDumper k0 out)) by done.
    rewrite E4, (run_bind_ok _ _ (mkDumper k0 out) us (mkDumper k0 out)) by done.
    rewrite E5, (run_bind_ok _ _ (mkDumper k0 out) pw (mkDumper k0 out)) by done.
    rewrite (run_bind_ok _ _ (mkDumper k0 out) (mkDumper k0 out) (mkDumper k0 out)) by done. cbn [dp_node].
    rewrite Ek, (run_bind_ok _ _ (mkDumper k0 out) k1 (mkDumper k0 out)) by done.
    rewrite (run_bind_ok _ _ (mkDumper k0 out) tt (mkDumper (new_process k0 k1) out)) by done.
    rewrite (run_bind_ok _ _ _ info (mkDumper k2 out)) by (unfold on_node; cbn [dp_node dp_out]; by rewrite Ei).
    unfold blocks_of_info. rewrite Etip, Ec.
    rewrite (run_bind_ok _ _ _ pr (mkDumper k3 out)) by (unfold on_node; cbn [dp_node dp_out]; by rewrite Epr).
    rewrite Ee, (run_bind_ok _ _ (mkDumper k3 out) (Some e) (mkDumper k3 out)) by done. rewrite Ef. run_ok E6.
    rewrite (run_bind_ok _ _ _ info' (mkDumper k5 out')) by (unfold on_node; cbn [dp_node dp_out]; by rewrite Ei'). done.
  - set (nf := (fun r => (chunk_name chain netName r, chunk r)) <$> chunks (dj_chunkSize job) a e).
    assert (F1 : nf.*1 = chunk_name chain netName <$> chunks (dj_chunkSize job) a e) by (unfold nf; by rewrite <- list_fmap_compose).
    assert (F2 : nf.*2 = chunk <$> chunks (dj_chunkSize job) a e) by (unfold nf; by rewrite <- list_fmap_compose).
    rewrite <- F2. apply findFiles_are; [by rewrite F1|by rewrite F1|]. intros m f. unfold nf. rewrite list_elem_of_fmap. split.
    + intros (r & [= -> ->] & Hr'). split; [by apply H1|apply chunk_name_matches].
    + intros [Hm Hmatch]. destruct (decide (m ∈ chunk_name chain netName <$> chunks (dj_chunkSize job) a e)) as [(r & -> & Hin)%list_elem_of_fmap|Hni].
      * exists r. split; [|done]. rewrite (H1 r Hin) in Hm. by injection Hm as <-.
      * exfalso. rewrite H2 in Hm; [cbn [dp_out] in Hm; apply Hno in Hm; by rewrite Hmatch in Hm|]. intros r Hin. split.
        -- intros ->. apply Hni. by apply list_elem_of_fmap_2.
        -- intros ->. by rewrite tmp_no_match in Hmatch.
Qed.

(** ** What the command line says *)

Lemma parse_to_radix z : parseInt (to_radix 10 z) 10 = Some z.
Proof. apply parseInt_to_radix. lia. Qed.

Lemma known_network : split_dashes network = [chain; netName] /\ network <> "".
Proof.
  destruct Hcodes as [Ec En]. unfold CHAIN_CODES, NETWORK_CODES in *. repeat case_bool_decide; simplify_eq; done.
Qed.

(** Without [--to]. *)
Lemma tip_mode_job args tipSafety : ar_network (ra_seed args) = network -> ar_to (ra_seed args) = None ->
  (0 <= ar_from (ra_seed args))%Z -> (0 < ra_chunkSize args)%Z -> (0 <= tipSafety)%Z ->
  exists da, parseDumpArgs (dumpArgv args tipSafety) default_dump_args = Ok da
    /\ validateArgs da = Ok (mkJob network chain netName (ar_from (ra_seed args)) None (ra_chunkSize args) tipSafety false).
Proof.
  intros Enet Eto Hf Hc Ht. destruct known_network as [Es Hne]. destruct Hcodes as [Ec En].
  exists (mkDumpArgs (Some network) (Some (Some (ar_from (ra_seed args)))) None (Some (ra_chunkSize args)) (Some tipSafety) true false (Some "dumps")). split.
  - unfold dumpArgv. rewrite Enet, Eto. pose proof (parse_to_radix (ar_from (ra_seed args))) as P1.
    pose proof (parse_to_radix (ra_chunkSize args)) as P2. pose proof (parse_to_radix tipSafety) as P3.
    revert P1 P2 P3. generalize (to_radix 10 (ar_from (ra_seed args))), (to_radix 10 (ra_chunkSize args)), (to_radix 10 tipSafety). intros s1 s2 s3 P1 P2 P3.
    rewrite <- P1, <- P2, <- P3. reflexivity.
  - unfold validateArgs. cbn [da_network da_out da_from da_to da_tipSafetyExplicit da_chunkSize da_tipSafety da_allowUndoWindow default from_option id].
    destruct network as [|x y] eqn:E; [done|]. rewrite <- E in *. clear E x y.
    rewrite bool_decide_eq_false_2 by lia. cbn [is_Some andb]. rewrite (bool_decide_eq_false_2 (is_Some None)) by (by intros [? ?]). cbn [andb].
    rewrite bool_decide_eq_false_2 by lia. rewrite bool_decide_eq_false_2 by lia. rewrite Es.
    rewrite bool_decide_eq_false_2 by (by rewrite Ec). rewrite bool_decide_eq_false_2 by (by rewrite En). done.
Qed.

(** * The check of the dump *)

Lemma run_readers size a e : (0 < size)%Z -> range_ok a e ->
  map_res openXdmp (chunk <$> chunks size a e)
  = Ok ((fun r => mkXdmp chain netName r.1 r.2 (r.2 - r.1 + 1) tip (concat (record_bytes <$> (at_height <$> batchHeights r.1 r.2)))) <$> chunks size a e).
Proof.
  intros Hs Hr. assert (Hin : forall r, r ∈ chunks size a e -> chunk_ok N chain clean r) by (intros r H; by apply (chunks_in size a e r Hs Hr) in H as (_ & _ & _ & _ & _ & H)).
  induction (chunks size a e) as [|r rs IH]; [done|]. rewrite !fmap_cons. cbn [map_res]. rewrite IH by (intros r' H; apply Hin; by right).
  destruct (Hin r ltac:(left)) as [H1 H2 H3 H4 _]. unfold chunk_of at 1, chunk_file. by rewrite (openXdmp_chunk c n r.1 r.2 tip _ chain netName Hcodes H2 H3 H4 (ro_tip _ _ Hr)).
Qed.

Lemma at_heights_consecutive a : forall k s, consecutive (a + Z.of_nat s - 1) (at_height <$> ((fun i => a + Z.of_nat i)%Z <$> seq s k)).
Proof.
  induction k as [|k IH]; intros s; [done|]. cbn [seq fmap list_fmap consecutive dumped_at d_height]. split; [lia|].
  replace (a + Z.of_nat s)%Z with (a + Z.of_nat (S s) - 1)%Z at 1 by lia. apply IH.
Qed.

Lemma chunk_blocks r : chunk_ok N chain clean r ->
  xdmp_blocks (mkXdmp chain netName r.1 r.2 (r.2 - r.1 + 1) tip (concat (record_bytes <$> (at_height <$> batchHeights r.1 r.2))))
  = (at_height <$> batchHeights r.1 r.2, Ok tt).
Proof.
  intros [H1 H2 H3 H4 H5]. unfold xdmp_blocks. cbn [x_blockCount x_firstHeight x_data].
  rewrite <- (app_nil_r (concat _)). replace (Z.to_nat (r.2 - r.1 + 1)) with (length (at_height <$> batchHeights r.1 r.2)) by (rewrite length_fmap; apply length_batchHeights).
  apply read_blocks_chunk.
  - apply Forall_fmap. apply (Forall_impl (dumpable N chain clean) _ _ H5). intros h Hh. apply (du_ok _ _ _ _ Hh).
  - pose proof (at_heights_consecutive r.1 (Z.to_nat (r.2 - r.1 + 1)) 0) as Hc. by replace (r.1 + Z.of_nat 0 - 1)%Z with (r.1 - 1)%Z in Hc by lia.
Qed.

Lemma all_blocks rs : Forall (chunk_ok N chain clean) rs ->
  allBlocks ((fun r => mkXdmp chain netName r.1 r.2 (r.2 - r.1 + 1) tip (concat (record_bytes <$> (at_height <$> batchHeights r.1 r.2)))) <$> rs)
  = (at_height <$> concat ((fun r => batchHeights r.1 r.2) <$> rs), Ok tt).
Proof.
  induction 1 as [|r rs Hr _ IH]; [done|]. rewrite !fmap_cons. unfold allBlocks in *. cbn [foldr concat]. rewrite IH, chunk_blocks by done.
  unfold yields_app. cbn [fst snd]. by rewrite fmap_app.
Qed.

(** The block at a height of a chain from [a]: its hash is its header's, its header names
    the block before it, and its merkle root is its transactions' where that is checked. *)
Record sound_block (merkleFormat : option string) (a h : Z) : Prop := {
  sb_header : HEADER_BYTES <= length (d_bytes (at_height h));
  sb_hash : reverse32 (hash256 (take HEADER_BYTES (d_bytes (at_height h)))) = d_hash (at_height h);
  sb_merkle : match merkleFormat with Some wf => verifyMerkleRoot (d_bytes (at_height h)) wf = true | None => True end;
  sb_prev : (a < h)%Z -> reverse32 (slice PREV_OFF (PREV_OFF + 32) (take HEADER_BYTES (d_bytes (at_height h)))) = d_hash (at_height (h - 1));
  sb_genesis : h = 0%Z -> reverse32 (slice PREV_OFF (PREV_OFF + 32) (take HEADER_BYTES (d_bytes (at_height h)))) = ZERO32;
}.

Lemma run_verify_blocks wf a k : forall s checked first prev,
  (forall h, (a + Z.of_nat s <= h < a + Z.of_nat (s + k))%Z -> sound_block wf a h /\ length (d_hash (at_height h)) = 32) ->
  prev = (if bool_decide (s = 0%nat) then None else Some (a + Z.of_nat s - 1, d_hash (at_height (a + Z.of_nat s - 1))))%Z ->
  exists v, verify_blocks wf (at_height <$> ((fun i => a + Z.of_nat i)%Z <$> seq s k)) (Ok tt) checked first prev = Ok v /\ vd_ok v = true.
Proof.
  induction k as [|k IH]; intros s checked first prev Hh Ep; [by eexists|]. cbn [seq fmap list_fmap verify_blocks].
  destruct (Hh (a + Z.of_nat s)%Z ltac:(lia)) as [[H1 H2 H3 H4 H5] H6].
  assert (Hc : block_checks wf (at_height (a + Z.of_nat s)) prev = true).
  { unfold block_checks. rewrite !bool_decide_eq_true_2 by done. cbn [andb].
    assert ((match wf with Some wf => verifyMerkleRoot (d_bytes (at_height (a + Z.of_nat s))) wf | None => true end) = true) as -> by (destruct wf; done). cbn [andb].
    unfold verifyBackwardLink. rewrite Ep. case_bool_decide as Es; [subst s|].
    - case_bool_decide as E0; [|done]. by rewrite bool_decide_eq_true_2 by (apply H5; cbn in E0; lia).
    - rewrite !bool_decide_eq_true_2; [done|apply H4; lia|cbn; lia]. }
  rewrite Hc. cbn [negb]. apply IH.
  - intros h Hr. apply Hh. lia.
  - rewrite bool_decide_eq_false_2 by lia. replace (a + Z.of_nat (S s) - 1)%Z with (a + Z.of_nat s)%Z by lia. done.
Qed.

(** Which decoder checks the merkle roots. *)
Definition merkle_format (merkle : bool) (wf : option string) : Prop :=
  if merkle then exists w, newDecoder (String.append chain "-any") = Ok w /\ wf = Some w else wf = None.

Lemma run_validate size a e merkle wf : (0 < size)%Z -> range_ok a e -> merkle_format merkle wf ->
  (forall h, (a <= h <= e)%Z -> sound_block wf a h) ->
  exists v, validateChainFiles (chunk <$> chunks size a e) merkle = Ok v /\ vd_ok v = true.
Proof.
  intros Hs Hr Hm Hsound. set (rd := fun r : Z * Z => mkXdmp chain netName r.1 r.2 (r.2 - r.1 + 1) tip (concat (record_bytes <$> (at_height <$> batchHeights r.1 r.2)))).
  assert (Hne : exists r rs, chunks size a e = r :: rs).
  { unfold chunks. destruct Hr as [H1 _ _ _]. destruct (Z.to_nat (e - a + 1)) eqn:E; [lia|]. cbn [chunk_ranges]. rewrite bool_decide_eq_false_2 by lia. by eexists _, _. }
  assert (Hck : forall r, r ∈ chunks size a e -> chunk_ok N chain clean r) by (intros r H; by apply (chunks_in size a e r Hs Hr) in H as (_ & _ & _ & _ & _ & H)).
  assert (Hsorted : stable_sort (fun x => be 4 (x_firstHeight x)) (rd <$> chunks size a e) = rd <$> chunks size a e).
  { apply sort_id. pose proof (chunk_ranges_sorted size (Z.to_nat (e - a + 1)) a e Hs) as Hst. fold (chunks size a e) in Hst. clear Hne.
    induction Hst as [|r rs Hst IH Hlt]; [constructor|]. rewrite fmap_cons. constructor; [apply IH; intros r' H; apply Hck; by right|].
    apply Forall_forall. intros x (r' & -> & Hin)%list_elem_of_fmap. rewrite Forall_forall in Hlt. specialize (Hlt r' Hin).
    apply ble_be4; [apply (ck_first _ _ _ _ (Hck r ltac:(left)))|apply (ck_first _ _ _ _ (Hck r' ltac:(by right)))|cbn; lia]. }
  assert (Hcont : forall fuel b, contiguous (rd <$> chunk_ranges fuel size b e) = true).
  { intros fuel. induction fuel as [|f IH]; intros b; [done|]. cbn [chunk_ranges]. case_bool_decide; [done|]. rewrite fmap_cons. specialize (IH (Z.min (b + size - 1) e + 1)%Z).
    destruct f as [|f]; [done|]. cbn [chunk_ranges] in IH |- *. case_bool_decide; [done|]. rewrite fmap_cons in IH |- *. cbn [contiguous]. rewrite bool_decide_eq_true_2 by done. exact IH. }
  unfold validateChainFiles. destruct Hne as (r & rs & Er). rewrite bool_decide_eq_false_2 by (rewrite Er; done).
  rewrite (run_readers size a e Hs Hr). cbn [mbind res_bind]. fold rd. rewrite Hsorted. assert (Hc : contiguous (rd <$> chunks size a e) = true) by apply Hcont. rewrite Hc. cbn [negb].
  assert (Hall : allBlocks (rd <$> chunks size a e) = (at_height <$> batchHeights a e, Ok tt)).
  { unfold rd. rewrite all_blocks by (by apply Forall_forall). unfold chunks. by rewrite chunk_ranges_heights by lia. }
  rewrite Hall, Er. cbn [fmap list_fmap head from_option]. unfold verifyBlockSequence. cbn [fst snd].
  destruct (run_verify_blocks wf a (Z.to_nat (e - a + 1)) 0 0 None None) as (v & Ev & Hv).
  { intros h Hh. assert (Hin : (a <= h <= e)%Z) by lia. split; [by apply Hsound|]. apply (du_ok _ _ _ _ (ro_blocks _ _ Hr h Hin)). }
  { done. }
  exists v. split; [|done]. unfold merkle_format in Hm. destruct merkle.
  - destruct Hm as (w & Ew & ->). change (x_chain (rd r)) with chain. rewrite Ew. cbn [mbind res_bind]. unfold batchHeights. by rewrite Ev.
  - subst wf. cbn [mbind res_bind]. unfold batchHeights. by rewrite Ev.
Qed.
End run.
