(* ===== verification/BulkFacts.v ===== *)
(** The whole seeding run over an honest node: the parse phase, and the composition of all
    phases. *)

From S2P Require Import Prelude KeyCodec ValueCodec LevelDb Store Json Startup Parsing Wire AuxPow ChainParams Decoder Connector ConnectorFacts.
From S2P Require Import StoreFacts Rollback Outputs Apply Spend Block Roundtrip Tracker Window Reorg SyncLoop Batch Undo Chain Forward Indexing Utxo.
From S2P Require Import RecordFiles Heap ExternalSort AntiJoin SeedStreams StreamFacts RangeFacts SeedChain.
From S2P Require Import Xdmp Dump ValidateChain WorkDir DeriveKeys Loader LoadFacts Seeder Orchestrator RunFacts DeriveFacts MergeFacts PhaseFacts SeedParity.
From S2P Require Import DumpFacts.

#[local] Open Scope string_scope.
#[local] Open Scope nat_scope.
#[local] Open Scope list_scope.

Section bulk.
Context {envs : Environment} {servers : RpcServers} {lib : Bitcoinjs} {node : Node} {hash : TxHash} {hashlaws : TxHashLaws}.
Context (N : node_view) (up : nat -> bool) (Hn : honest N up).
Context (chain netName : string) (c n : Z) (Hcodes : net_codes chain netName c n).
Context (clean : Z -> string) (blk : Z -> block_data).

Abbreviation network := (String.append chain (String.append "-" netName)).
Abbreviation tip := (nc_tip N).
Abbreviation chunk := (chunk_of N c n tip clean).
Abbreviation at_height := (dumped_at N clean).

(** The blocks of a range, and what parsing it leaves. *)
Definition blocks_in (a e : Z) : list block_data := blk <$> batchHeights a e.
Definition span_of (r : Z * Z) : span := mkSpan r.1 r.2 (blocks_in r.1 r.2).
Definition files_of_chunk (r : Z * Z) : parsed := range_files c n (span_of r).

Definition add_parsed (dir : gmap string bytes) (r : Z * Z) : gmap string bytes :=
  <[stream_name "meta" r := p_meta (files_of_chunk r)]> (<[stream_name "spends" r := p_spends (files_of_chunk r)]>
    (<[stream_name "outputs" r := p_outputs (files_of_chunk r)]> dir)).

(** * The parse phase *)

Lemma run_parse_main wf r dir : newDecoder network = Ok wf -> u32 tip -> chunk_ok N chain clean r ->
  (forall h, (r.1 <= h <= r.2)%Z -> carries wf (at_height h) (blk h) /\ meta_ok (blk h)) -> counts_ok (blocks_in r.1 r.2) ->
  dir !! stream_name "outputs" r = None -> parse_main (chunk r) dir = (Ok tt, add_parsed dir r).
Proof.
  intros Hwf Htip Hr Hb Hc Hd. pose proof Hr as [H1 H2 H3 H4 _]. unfold parse_main.
  erewrite run_bind_ok; [|unfold lift_res, chunk_of, chunk_file; rewrite (openXdmp_chunk c n r.1 r.2 tip _ chain netName Hcodes H2 H3 H4 Htip); done].
  cbn [x_firstHeight x_lastHeight x_chain x_network]. rewrite (run_bind_ok _ _ dir dir dir) by done.
  change (outPath "outputs" r.1 r.2) with (stream_name "outputs" r). rewrite Hd. cbn [existingDatLooksComplete andb].
  rewrite (chunk_blocks N chain netName clean r Hr).
  assert (Ep : parseRange chain netName r.1 r.2 (at_height <$> batchHeights r.1 r.2) = Ok (files_of_chunk r)).
  { apply (run_parseRange wf chain netName c n); [done|done|done|done| | |done].
    - unfold span_of, blocks_in. cbn [sn_blocks]. apply Forall2_fmap_2, Forall_Forall2_diag, Forall_forall. intros h Hh%elem_of_batchHeights. by apply Hb.
    - intros b (h & -> & Hh%elem_of_batchHeights)%list_elem_of_fmap. by apply Hb. }
  rewrite Ep. reflexivity.
Qed.

Context {DB : Type} {db : LevelDb DB}.

Definition with_parsed (p : gmap string bytes) (r : @run DB) : run :=
  let d := rn_dir r in
  mkRun (rn_node r) (rn_dumps r) (mkWorkDir p (wd_merge d) (wd_manifests d) (wd_keys d) (wd_queue d) (wd_pressure d)) (rn_load r).

Lemma run_parse_all wf rs : forall (s : @run DB), newDecoder network = Ok wf -> u32 tip -> Forall (chunk_ok N chain clean) rs ->
  (forall r h, r ∈ rs -> (r.1 <= h <= r.2)%Z -> carries wf (at_height h) (blk h) /\ meta_ok (blk h)) ->
  (forall r, r ∈ rs -> counts_ok (blocks_in r.1 r.2)) ->
  (forall r, r ∈ rs -> wd_parsed (rn_dir s) !! stream_name "outputs" r = None) ->
  NoDup (stream_name "outputs" <$> rs) -> (forall r r', stream_name "outputs" r <> stream_name "spends" r' /\ stream_name "outputs" r <> stream_name "meta" r') ->
  forM (chunk <$> rs) (fun file => in_parsed (runChild (parse_main file))) s = (Ok tt, with_parsed (foldl add_parsed (wd_parsed (rn_dir s)) rs) s).
Proof.
  induction rs as [|r rs IH]; intros s Hwf Ht Hok Hb Hc Hd Hnd Hne; [by destruct s as [? ? [] ?]|]. apply Forall_cons in Hok as [Hr Hok].
  rewrite fmap_cons in Hnd. rewrite fmap_cons. apply NoDup_cons in Hnd as [Hnd1 Hnd]. cbn [forM foldl].
  rewrite (run_bind_ok _ _ s tt (with_parsed (add_parsed (wd_parsed (rn_dir s)) r) s)).
  2: { unfold in_parsed, runChild. rewrite (run_parse_main wf); [done|done|done|done| | |apply Hd; left]; [|apply Hc; left].
       intros h. apply Hb. left. }
  rewrite IH; [done|done|done|done|intros r' h Hr'; apply Hb; by right|intros r' Hr'; apply Hc; by right| |done|done].
  intros r' Hr'. cbn [with_parsed rn_dir wd_parsed]. unfold add_parsed. destruct (Hne r' r) as [N1 N2]. rewrite !lookup_insert_ne by done.
  rewrite lookup_insert_ne by (intros E; apply Hnd1; rewrite E; by apply list_elem_of_fmap_2). apply Hd. by right.
Qed.

(** ** What the merge finds *)

(** The three streams: their names and files. *)
Inductive stream_is : string -> (parsed -> bytes) -> Prop :=
  | is_outputs : stream_is "outputs" p_outputs
  | is_spends : stream_is "spends" p_spends
  | is_meta : stream_is "meta" p_meta.

Lemma stream_matches s f s' f' r : stream_is s f -> stream_is s' f' ->
  matches (String.append s "-") ".dat" (stream_name s' r) = bool_decide (s = s').
Proof.
  intros Hs Hs'. unfold matches. rewrite stream_name_ends, andb_true_r. destruct Hs, Hs'; reflexivity.
Qed.

Lemma stream_names_differ s f s' f' r r' : stream_is s f -> stream_is s' f' -> s <> s' -> stream_name s r <> stream_name s' r'.
Proof.
  intros Hs Hs' Hne E. pose proof (stream_matches s f s f r Hs Hs) as H1. pose proof (stream_matches s f s' f' r' Hs Hs') as H2.
  rewrite E in H1. rewrite H1, bool_decide_eq_true_2, bool_decide_eq_false_2 in H2 by done. done.
Qed.

Lemma lookup_parsed s f rs dir r : stream_is s f -> NoDup (stream_name s <$> rs) -> r ∈ rs ->
  foldl add_parsed dir rs !! stream_name s r = Some (f (files_of_chunk r)).
Proof.
  intros Hs. induction rs as [|r' rs IH] using rev_ind; [by intros _ ?%elem_of_nil|]. rewrite fmap_app. intros Hnd Hr. rewrite foldl_app. cbn [foldl].
  assert (Hdiff : forall s' f', stream_is s' f' -> s <> s' -> stream_name s' r' <> stream_name s r) by (intros s' f' H1 H2; by apply (stream_names_differ s' f' s f)).
  destruct (decide (stream_name s r' = stream_name s r)) as [E|E].
  - assert (r' = r) as ->.
    { apply NoDup_app in Hnd as (_ & Hnd & _). apply elem_of_app in Hr as [Hr|Hr]; [|by apply list_elem_of_singleton in Hr].
      destruct (Hnd (stream_name s r)); [by apply list_elem_of_fmap_2|]. rewrite <- E. apply list_elem_of_singleton. done. }
    unfold add_parsed. destruct Hs.
    + rewrite lookup_insert_ne by (by apply (Hdiff _ _ is_meta)). rewrite lookup_insert_ne by (by apply (Hdiff _ _ is_spends)). apply lookup_insert_eq.
    + rewrite lookup_insert_ne by (by apply (Hdiff _ _ is_meta)). apply lookup_insert_eq.
    + apply lookup_insert_eq.
  - assert (Hin : r ∈ rs) by (apply elem_of_app in Hr as [Hr|Hr]; [done|]; apply list_elem_of_singleton in Hr as ->; done).
    apply NoDup_app in Hnd as (Hnd & _ & _). unfold add_parsed.
    assert (Hk : forall s' f', stream_is s' f' -> stream_name s' r' <> stream_name s r).
    { intros s' f' Hs'. destruct (decide (s = s')) as [<-|Hne]; [done|by apply (Hdiff s' f')]. }
    rewrite !lookup_insert_ne by eauto using stream_is. by apply IH.
Qed.

Lemma lookup_parsed_none rs dir m : (forall s f r, stream_is s f -> r ∈ rs -> m <> stream_name s r) -> foldl add_parsed dir rs !! m = dir !! m.
Proof.
  intros Hm. induction rs as [|r rs IH] using rev_ind; [done|]. rewrite foldl_app. cbn [foldl]. unfold add_parsed.
  assert (Hr : forall s f, stream_is s f -> stream_name s r <> m) by (intros s f Hs E; symmetry in E; revert E; apply (Hm s f r Hs); apply elem_of_app; right; left).
  rewrite !lookup_insert_ne by eauto using stream_is. apply IH. intros s f r' Hs Hr'. apply (Hm s f r' Hs). apply elem_of_app. by left.
Qed.

(** No parsed file of the current names. *)
Definition nothing_parsed (dir : gmap string bytes) : Prop := forall m f, dir !! m = Some f -> ends_with ".dat" m = false.

Lemma find_stream s f size a e dir : stream_is s f -> (0 < size)%Z -> Forall (fun r => padded_ok r.1) (chunks size a e) -> nothing_parsed dir ->
  findFiles (foldl add_parsed dir (chunks size a e)) (String.append s "-") ".dat" = (fun r => f (files_of_chunk r)) <$> chunks size a e.
Proof.
  intros Hs Hsize Hp Hdir. destruct (names_sorted (stream_name s) _ _ (stream_name_bytes s) (chunks size a e)) as [Hsort Hnd]; [by apply chunk_ranges_sorted|done|].
  set (nf := (fun r => (stream_name s r, f (files_of_chunk r))) <$> chunks size a e).
  assert (F1 : nf.*1 = stream_name s <$> chunks size a e) by (unfold nf; by rewrite <- list_fmap_compose).
  assert (F2 : nf.*2 = (fun r => f (files_of_chunk r)) <$> chunks size a e) by (unfold nf; by rewrite <- list_fmap_compose).
  rewrite <- F2. apply findFiles_are; [by rewrite F1|by rewrite F1|]. intros m x. unfold nf. rewrite list_elem_of_fmap. split.
  - intros (r & [= -> ->] & Hr). split; [by apply lookup_parsed|]. rewrite (stream_matches s f s f) by done. by apply bool_decide_eq_true_2.
  - intros [Hm Hmatch]. destruct (decide (m ∈ stream_name s <$> chunks size a e)) as [(r & -> & Hin)%list_elem_of_fmap|Hni].
    + exists r. split; [|done]. rewrite (lookup_parsed s f) in Hm by done. by injection Hm as <-.
    + exfalso. rewrite lookup_parsed_none in Hm.
      * apply Hdir in Hm. unfold matches in Hmatch. by rewrite Hm, andb_false_r in Hmatch.
      * intros s' f' r Hs' Hr ->. rewrite (stream_matches s f s' f') in Hmatch by done. apply bool_decide_eq_true in Hmatch as ->. apply Hni. by apply list_elem_of_fmap_2.
Qed.

(** * All phases *)

Lemma chunk_spans size fuel : forall a e o, (0 < size)%Z -> (0 <= a)%Z -> (e < 100000000)%Z -> (forall h, o = Some h -> a = (h + 1)%Z) ->
  spans_ok o (span_of <$> chunk_ranges fuel size a e).
Proof.
  induction fuel as [|f IH]; intros a e o Hs Ha He Ho; [done|]. cbn [chunk_ranges]. case_bool_decide; [done|].
  rewrite fmap_cons. cbn [spans_ok span_of sn_first sn_last fst snd]. unfold u32. split_and!; try lia; [done|]. apply IH; try lia. intros h [= <-]. lia.
Qed.

Lemma chunk_blocks_of rs : blocks_of (span_of <$> rs) = blk <$> concat ((fun r => batchHeights r.1 r.2) <$> rs).
Proof. induction rs as [|r rs IH]; [done|]. rewrite !fmap_cons. unfold blocks_of in *. cbn [flat_map concat]. by rewrite IH, fmap_app. Qed.

(** What a run with these arguments asks of the node, the blocks and the store. *)
Record bulk_ok (args : run_args) (wf : string) (undo : Z) (warns : bool) (a e : Z) : Prop := {
  bo_network : ar_network (ra_seed args) = network;
  bo_decoder : newDecoder network = Ok wf;
  bo_to : ar_to (ra_seed args) = None;
  bo_from : ar_from (ra_seed args) = a;
  bo_chunkSize : (0 < ra_chunkSize args)%Z;
  bo_tipSafety : (0 <= ra_tipSafety args)%Z;
  bo_phases : ra_skipDump args = false /\ ra_skipParse args = false;
  bo_removeSpent : ar_removeSpent (ra_seed args) = true;
  bo_undo : resolveUndoBlocks network None = Ok (undo, warns) /\ (0 < undo)%Z;
  bo_end : e = (tip - Z.max (ra_tipSafety args) undo)%Z;
  bo_env : env_ready;
  bo_range : range_ok N chain clean a e;
  bo_carries : forall h, (a <= h <= e)%Z -> carries wf (at_height h) (blk h);
  bo_sound : (resolveVerifyDefaults args).1 = true -> exists mf, merkle_format chain (resolveVerifyDefaults args).2 mf
    /\ forall h, (a <= h <= e)%Z -> sound_block N clean mf a h;
}.

(** A directory and a store to start from: leftovers under temporary names only, and a
    store that holds nothing but at most its layout stamp. *)
Record fresh_run (s : @run DB) : Prop := {
  fr_dumps : no_dumps (rn_dumps s);
  fr_parsed : nothing_parsed (wd_parsed (rn_dir s));
  fr_merge : wd_merge (rn_dir s) = ∅;
  fr_queue : wd_queue (rn_dir s) = [];
  fr_faults : ld_faults (rn_load s) = [];
  fr_empty : ~ populated (ld_db (rn_load s));
}.

Lemma run_phaseDump args wf undo warns a e s : bulk_ok args wf undo warns a e -> fresh_run s ->
  exists s', phaseDump args (Z.max (ra_tipSafety args) undo) s = (Ok (chunk <$> chunks (ra_chunkSize args) a e), s')
    /\ rn_dir s' = rn_dir s /\ rn_load s' = rn_load s.
Proof.
  intros [B1 B2 B3 B4 B5 B6 _ _ [B8 B8'] B9 B10 B11 _ _] [F1 _ _ _ _ _].
  destruct (tip_mode_job chain netName c n Hcodes args (Z.max (ra_tipSafety args) undo) B1 B3) as (da & Ea & Ej); [destruct B11; lia|done|lia|].
  set (job := mkJob _ _ _ _ _ _ _ _) in Ej.
  destruct (run_dump_main N up Hn chain netName c n Hcodes clean _ da job (mkDumper (rn_node s) (rn_dumps s)) a e Ea Ej B10 eq_refl eq_refl B4 B5) as (k' & out' & Em & Ef).
  { unfold resolveDumpEnd, job. cbn [dj_to dj_tipSafety dj_from]. rewrite <- B9, B4. destruct B11. by rewrite bool_decide_eq_false_2 by lia. }
  { done. }
  { done. }
  exists (mkRun k' out' (rn_dir s) (rn_load s)). split_and!; [|reflexivity|reflexivity]. unfold phaseDump.
  rewrite (run_bind_ok _ _ s tt (mkRun k' out' (rn_dir s) (rn_load s))) by (unfold in_dump, runChild; by rewrite Em).
  unfold gets. cbn [rn_dumps]. by rewrite Ef.
Qed.

Context {dblaws : LevelDbLaws DB}.

(** The dumps of the chunks. *)
Definition dumps_in (rs : list (Z * Z)) : list (span * list dumped) := (fun r => (span_of r, at_height <$> batchHeights r.1 r.2)) <$> rs.

Lemma dumps_spans rs : (dumps_in rs).*1 = span_of <$> rs.
Proof. unfold dumps_in. by rewrite <- list_fmap_compose. Qed.

Lemma dumps_carry wf size a e : (0 < size)%Z -> range_ok N chain clean a e -> (forall h, (a <= h <= e)%Z -> carries wf (at_height h) (blk h)) ->
  dumps_of wf (dumps_in (chunks size a e)).
Proof.
  intros Hs Hr Hc r ds (x & [= -> ->] & Hx)%list_elem_of_fmap. unfold span_of, blocks_in. cbn [sn_blocks].
  apply Forall2_fmap_2, Forall_Forall2_diag, Forall_forall. intros h Hh%elem_of_batchHeights. apply Hc.
  destruct (chunks_in N chain clean size a e x Hs Hr Hx) as (H1 & H2 & H3 & _). lia.
Qed.

Lemma chunk_counts size a e r : (0 < size)%Z -> (a <= e)%Z -> counts_ok (blocks_in a e) -> r ∈ chunks size a e -> counts_ok (blocks_in r.1 r.2).
Proof.
  intros Hs Hae Hc Hr. destruct (chunk_ranges_in size _ a e r Hs Hr) as (H1 & H2 & H3). unfold blocks_in in *.
  rewrite (batchHeights_split a (r.1 - 1) e) in Hc by lia. replace (r.1 - 1 + 1)%Z with r.1 in Hc by lia.
  rewrite (batchHeights_split r.1 r.2 e), !fmap_app in Hc by lia. apply counts_part in Hc as [_ Hc]. by apply counts_part in Hc as [Hc _].
Qed.

Lemma run_orchestrate args wf undo warns a e hash0 h0 s : bulk_ok args wf undo warns a e -> fresh_run s ->
  valid_chain (blocks_in a e) -> linked hash0 h0 (blocks_in a e) -> (-1 <= h0)%Z -> fits (blocks_in a e) ->
  exists s', orchestrate args s = (Ok tt, s') /\ seeded (blocks_in a e) undo (negb (is_bitcoin network)) (ld_db (rn_load s')).
Proof.
  intros B F Hv Hl Hh0 Hfits. pose proof B as [B1 B2 B3 B4 B5 B6 [B7 B7'] B8 [B9 B9'] B10 B11 B12 B13 B14]. pose proof F as [F1 F2 F3 F4 F5 F6].
  pose proof (ro_first _ _ _ _ _ B12) as Hae. set (rs := chunks (ra_chunkSize args) a e).
  assert (Hspans : spans_ok None (dumps_in rs).*1).
  { rewrite dumps_spans. apply chunk_spans; [done|lia|apply B12|done]. }
  assert (Hbs : blocks_of (dumps_in rs).*1 = blocks_in a e).
  { rewrite dumps_spans, chunk_blocks_of. unfold rs, chunks. by rewrite chunk_ranges_heights by lia. }
  assert (Hne : blocks_in a e <> []).
  { unfold blocks_in. rewrite batchHeights_cons by lia. done. }
  destruct (run_phaseDump args wf undo warns a e s B F) as (s1 & E1 & Ed1 & El1). fold rs in E1.
  assert (Hcount : forall r, r ∈ rs -> counts_ok (blocks_in r.1 r.2)) by (intros r Hr; exact (chunk_counts (ra_chunkSize args) a e r B5 (proj2 Hae) (ft_counts _ Hfits) Hr)).
  assert (Hmeta : forall h, (a <= h <= e)%Z -> meta_ok (blk h)).
  { intros h Hh. apply (ft_meta _ Hfits). apply list_elem_of_fmap_2. by apply elem_of_batchHeights. }
  assert (Hin : forall r, r ∈ rs -> (a <= r.1)%Z /\ (r.2 <= e)%Z /\ padded_ok r.1 /\ chunk_ok N chain clean r).
  { intros r Hr. destruct (chunks_in N chain clean _ a e r B5 B12 Hr) as (? & ? & ? & ? & ? & ?). split_and!; assumption. }
  assert (Hp : Forall (fun r => padded_ok r.1) rs) by (apply Forall_forall; intros r Hr; by apply Hin).
  assert (E2 : forM (chunk <$> rs) (fun file => in_parsed (runChild (parse_main file))) s1 = (Ok tt, with_parsed (foldl add_parsed (wd_parsed (rn_dir s1)) rs) s1)).
  { apply (run_parse_all wf); [done|apply B12|apply Forall_forall; intros r Hr; by apply Hin| |done| | |].
    - intros r h Hr Hh. destruct (Hin r Hr) as (? & ? & _). split; [apply B13; lia|apply Hmeta; lia].
    - intros r _. destruct (wd_parsed (rn_dir s1) !! stream_name "outputs" r) eqn:Ex; [|done]. rewrite Ed1 in Ex. apply F2 in Ex. by rewrite stream_name_ends in Ex.
    - by apply (names_sorted (stream_name "outputs") _ _ (stream_name_bytes "outputs") rs); [apply chunk_ranges_sorted|].
    - intros r r'. split; [apply (stream_names_differ _ _ _ _ _ _ is_outputs is_spends)|apply (stream_names_differ _ _ _ _ _ _ is_outputs is_meta)]; done. }
  set (s2 := mkRun (rn_node s1) ∅ (rn_dir (with_parsed (foldl add_parsed (wd_parsed (rn_dir s1)) rs) s1)) (rn_load s1)).
  pose proof (run_seeding (ra_seed args) chain netName c n wf (dumps_in rs) undo warns hash0 h0) as Hseeding. cbv zeta in Hseeding. rewrite Hbs, B1 in Hseeding.
  destruct (Hseeding eq_refl Hcodes B2 B8 B9 B9' Hv Hl Hh0 Hfits Hne Hspans (dumps_carry wf (ra_chunkSize args) a e B5 B12 B13)) as (ps & Hps & Hrun). clear Hseeding.
  assert (Eps : ps = files_of_chunk <$> rs).
  { assert (Hfiles : forall r, r ∈ rs -> parse_of chain netName (span_of r, at_height <$> batchHeights r.1 r.2) = Ok (files_of_chunk r)).
    { intros r Hr. destruct (Hin r Hr) as (? & ? & _ & [K1 K2 K3 _ _]). apply (run_parseRange wf chain netName c n _ _ _ _ B2 Hcodes K2 K3); [| |by apply Hcount].
      - apply Forall2_fmap_2, Forall_Forall2_diag, Forall_forall. intros h Hh%elem_of_batchHeights. apply B13. lia.
      - intros b (h & -> & Hh%elem_of_batchHeights)%list_elem_of_fmap. apply Hmeta. lia. }
    clear -Hps Hfiles. revert ps Hps. induction rs as [|r rs IH]; intros ps Hps; [by apply Forall2_nil_inv_l in Hps as ->|].
    apply Forall2_cons_inv_l in Hps as (p & ps' & Ep & Hps & ->). rewrite fmap_cons. f_equal; [|apply IH; [intros r' Hr'; apply Hfiles; by right|done]].
    rewrite (Hfiles r) in Ep by left. by injection Ep. }
  destruct (Hrun (rn_dir s2)) as (d' & Em & Hload).
  { assert (Hfind : forall st f, stream_is st f -> findFiles (wd_parsed (rn_dir s2)) (String.append st "-") ".dat" = f <$> ps).
    { intros st f Hst. rewrite Eps, <- list_fmap_compose. unfold s2. cbn [rn_dir with_parsed wd_parsed]. unfold rs. apply find_stream; [done|done|done|]. by rewrite Ed1. }
    unfold s2 in *. cbn [rn_dir with_parsed] in *. split; cbn [wd_merge wd_queue]; [by rewrite Ed1|by rewrite Ed1|by apply (Hfind _ _ is_outputs)|by apply (Hfind _ _ is_spends)|by apply (Hfind _ _ is_meta)]. }
  destruct (Hload (rn_load s2)) as (l' & El & Hseed); [unfold s2; cbn; by rewrite El1|unfold s2; cbn; by rewrite El1|].
  exists (mkRun (rn_node s2) (rn_dumps s2) d' l'). split; [|exact Hseed].
  unfold orchestrate.
  assert (Ec : clampTipSafety args = Ok (Z.max (ra_tipSafety args) undo)) by (unfold clampTipSafety, effectiveTipSafety; rewrite B1, B3, B9; reflexivity).
  rewrite Ec, (run_bind_ok _ _ s (Z.max (ra_tipSafety args) undo) s) by done. rewrite B7, B7'. cbn [orb]. run_ok E1.
  assert (Ev : verifyDumpChain args (chunk <$> rs) = Ok tt).
  { unfold verifyDumpChain. destruct (resolveVerifyDefaults args) as [vc vm] eqn:Eflags. cbn [fst snd] in B14. destruct vc; [|done].
    destruct (B14 eq_refl) as (mf & Hmf & Hsound). destruct (run_validate N chain netName c n Hcodes clean (ra_chunkSize args) a e vm mf B5 B12 Hmf Hsound) as (v & Ev & Hok).
    unfold rs. rewrite Ev. cbn [mbind res_bind]. by rewrite Hok. }
  rewrite Ev, (run_bind_ok _ _ s1 tt s1) by done.
  rewrite (run_bind_ok _ _ s1 tt s2) by (unfold phaseParse; run_ok E2; reflexivity).
  rewrite (run_bind_ok _ _ s2 tt (mkRun (rn_node s2) (rn_dumps s2) d' (rn_load s2))) by (unfold in_dir; by rewrite Em).
  set (s3 := mkRun _ _ d' _). rewrite (run_bind_ok _ _ s3 s3 s3) by done. unfold mbind, M_bind, in_load. cbn [rn_dir s3]. unfold s3 at 1. cbn [rn_load rn_dir].
  by rewrite El.
Qed.
End bulk.
