(* ===== verification/Concrete.v ===== *)
(** A concrete environment the theorems are instantiated at: a node whose allocator
    hands out memory that is not zeroed, a stand-in for the digest, sample hashes, and a
    small chain over a database written out as records. *)

From S2P Require Import Prelude KeyCodec ValueCodec LevelDb Store Outputs StoreFacts.
From S2P Require Import Rollback Parsing Apply Spend Block Roundtrip Tracker Window Reorg SyncLoop.
From S2P Require Import Batch Undo Chain Forward Indexing Utxo.
From stdpp Require Import gmap.
From Stdlib Require QArith_base.

#[local] Open Scope string_scope.
#[local] Open Scope nat_scope.
#[local] Open Scope list_scope.

Definition digest0 (b : bytes) : bytes := take 32 (b ++ replicate 32 x00).

Lemma length_digest0 b : length (digest0 b) = 32.
Proof. unfold digest0. rewrite length_take, length_app, length_replicate. lia. Qed.

#[global] Instance node0 : Node := {
  allocUnsafe n := replicate n xaa;
  length_allocUnsafe n := length_replicate n xaa;
  sha256 := digest0;
  length_sha256 := length_digest0;
}.

(** 32 times the same byte, as raw bytes and in hex. *)
Definition raw (b : byte) : bytes := replicate 32 b.
Definition hx (b : byte) : string := b2h (raw b).

Lemma raw_hash32 b : hash32 (raw b).
Proof. apply length_replicate. Qed.

Lemma hx_is_hash b : is_hash (hx b).
Proof. apply b2h_is_hash, raw_hash32. Qed.

Lemma h2b_hx b : h2b (hx b) = raw b.
Proof. apply h2b_b2h. Qed.

(** * A database written out as records *)

(** The store of a list of records, the first of equal keys winning. *)
Definition kdb (l : list (key * bytes)) : mapdb := list_to_map ((fun x => (enc x.1, x.2)) <$> l).

Lemma kdb_lookup l b v : kdb l !! b = Some v -> exists k, b = enc k /\ (k, v) ∈ l.
Proof.
  intros E. apply elem_of_list_to_map_2 in E. apply list_elem_of_fmap in E as ([k v'] & [= -> ->] & Hin).
  by exists k.
Qed.

Lemma kdb_record l k v :
  (forall x, x ∈ l -> wf_key x.1) -> wf_key k -> dk (kdb l) k = Some v -> (k, v) ∈ l.
Proof.
  intros Hl Hk (k' & E & Hin)%kdb_lookup. apply enc_inj in E as <-; [done|done|by apply (Hl (k', v))].
Qed.

Lemma kdb_wf l : (forall x, x ∈ l -> wf_key x.1 /\ wf_val x.1 x.2) -> db_wf (kdb l).
Proof.
  intros Hl b v (k & -> & Hin)%kdb_lookup. exists k. split; [done|]. by apply (Hl (k, v)).
Qed.

(** Checks a property of the elements of a literal list one by one. *)
Ltac each_elem_in H :=
  first [ apply elem_of_nil in H; destruct H
        | apply elem_of_cons in H; destruct H as [->|H]; [|each_elem_in H] ].
Ltac each_elem := let x := fresh "x" in let H := fresh "H" in intros x H; each_elem_in H.

(** * A small chain

    A stored block at height 100, and two more on top of it: the first mints an output,
    the second spends it, so that the spend meets an output of the same batch. *)

Definition genesis : list (key * bytes) :=
  [ (KBlock (raw xb0), block_val 100 900 (raw xaf));
    (KStoredBlk (raw xb0), []);
    (KMeta LAST_BLOCK_HASH, from_latin1 (hx xb0));
    (KMeta LAST_BLOCK_HEIGHT, from_latin1 (to_radix 16 100)) ].

Definition disk0 : mapdb := kdb genesis.

Definition coinbase_in : tx_in := mkTxIn (raw x00) COINBASE_INDEX None.

Definition mint (id : byte) : transaction := mkTx (hx id) [coinbase_in] [mkTxOut [x51] 5000000000].

Definition spend_minted : transaction :=
  mkTx (hx x13) [mkTxIn (raw x11) 0 None] [mkTxOut [x52] 3000000000; mkTxOut [x53] 1999990000].

Definition block1 : block_data := mkBlock (hx xb1) 101 1000 (hx xb0) [mint x11].
Definition block2 : block_data := mkBlock (hx xb2) 102 1600 (hx xb1) [mint x12; spend_minted].

Definition store0 (d : mapdb) : store mapdb := mkStore d None None ∅ ∅ [].

Definition window0 (l : list string) : window := mkWindow l [] 12 1 (Some 1%Z).

Definition status0 : status :=
  mkStatus false false (Some 102%Z) (Some 102%Z) false false 0 0 0 0 None None None.

Definition tracker0 : tracker mapdb :=
  mkTracker (store0 disk0) (store0 ∅) (window0 [hx xb0]) status0 0 "regtest".

Definition sync0 : sync_state :=
  mkSync (Some 100%Z) (Some (hx xb0)) None 0 empty_batch (mkFetching [] no_streak no_streak)
    (mkLatches false false false).

Definition loop0 : loop mapdb := mkLoop tracker0 sync0.

(** The node's chain shares the stored block and has another one on top of it. *)
Definition node_chain (h : Z) : string :=
  if bool_decide (h = 100)%Z then hx xb0 else hx xc1.

#[global] Instance rpc0 : NodeRpc := {
  rpc_getBlockHash _ h := Ok (node_chain h);
  rpc_getBlockchainInfo _ := Ok (Some (mkInfo (Some 102%Z) (Some (QArith_base.inject_Z 1)) (Some false)));
}.

Definition unavailable : js_error := Error (EMsg "unavailable").

#[global] Instance env0 : LoopEnv := {
  rpc_getBlock _ _ := Err unavailable;
  rpc_getBlockWithoutAuxPow _ _ := Err unavailable;
  rpc_getBlockReassembled _ _ := Err unavailable;
  rpc_getBlocksBatch _ _ := Err unavailable;
  rpc_getBlocksBatchWithoutAuxPow _ _ := Err unavailable;
  blockFromHex _ := Err unavailable;
  date_now n := Z.of_nat n;
  heap_pressure _ := false;
  auxPow := false;
  MAX_BLOCK_FETCH_RETRIES := 20;
}.

(** ** Its hypotheses *)

Lemma genesis_wf x : x ∈ genesis -> wf_key x.1 /\ wf_val x.1 x.2.
Proof. revert x. each_elem; by vm_compute. Qed.

Lemma disk0_record k v : wf_key k -> dk disk0 k = Some v -> (k, v) ∈ genesis.
Proof. apply kdb_record. intros x Hx. by apply genesis_wf. Qed.

Lemma disk0_wf : db_wf disk0.
Proof. apply kdb_wf, genesis_wf. Qed.

Lemma disk0_none k :
  wf_key k -> k <> KBlock (raw xb0) -> k <> KStoredBlk (raw xb0) -> is_meta k = false -> dk disk0 k = None.
Proof.
  intros Hk H1 H2 Hm. destruct (dk disk0 k) as [v|] eqn:E; [|done]. exfalso.
  apply disk0_record in E; [|done]. unfold genesis in E.
  repeat (apply elem_of_cons in E as [[= -> _]|E]; [done|]). by apply elem_of_nil in E.
Qed.

Lemma disk0_hints : hints_ok (dk disk0).
Proof. intros t i sh Ht Hi. by rewrite disk0_none. Qed.

Lemma disk0_fresh b : block_wf b -> bd_hash b <> hx xb0 -> fresh_in (dk disk0) b.
Proof.
  intros Hb Hne.
  assert (Hbh : h2b (bd_hash b) <> raw xb0).
  { intros E. apply Hne. rewrite <- (h2b_hx xb0) in E.
    apply h2b_inj in E; [done|apply (bk_hash _ Hb)|apply hx_is_hash]. }
  split.
  - intros k Hk E. apply disk0_none; [done|intros ->|intros ->|by destruct k]; injection E as E; by destruct Hbh.
  - intros t Ht. assert (hash32 t).
    { apply list_elem_of_fmap in Ht as (tx & -> & Htx). apply h2b_hash32. by apply (bk_txs _ Hb), Htx. }
    by rewrite !disk0_none.
  - intros r Hr. destruct (created_recs_wf b Hb r Hr) as (? & ? & ?). split; [by rewrite disk0_none|].
    intros sh Hsh. by rewrite disk0_none.
Qed.

Lemma mint_ok id : tx_ok (mint id).
Proof.
  split; [apply hx_is_hash| |vm_compute; congruence|].
  - each_elem. vm_compute. split; congruence.
  - each_elem. split; [apply raw_hash32|vm_compute; split; congruence].
Qed.

Lemma spend_minted_ok : tx_ok spend_minted.
Proof.
  split; [apply hx_is_hash| |vm_compute; congruence|].
  - each_elem; vm_compute; split; congruence.
  - each_elem. split; [apply raw_hash32|vm_compute; split; congruence].
Qed.

Lemma block1_wf : block_wf block1.
Proof.
  split; try apply hx_is_hash; try (vm_compute; split; congruence).
  - each_elem. split; [apply mint_ok|done].
  - by apply (bool_decide_unpack _); vm_compute.
  - by apply (bool_decide_unpack _); vm_compute.
Qed.

Lemma block2_wf : block_wf block2.
Proof.
  split; try apply hx_is_hash; try (vm_compute; split; congruence).
  - each_elem; (split; [|done]); [apply mint_ok|apply spend_minted_ok].
  - by apply (bool_decide_unpack _); vm_compute.
  - by apply (bool_decide_unpack _); vm_compute.
Qed.

Lemma blocks_disjoint : disjoint_blocks block1 block2.
Proof.
  split; [by vm_compute|].
  each_elem; intros E; apply (bool_decide_unpack _) in E || idtac; vm_compute in E;
    repeat (apply elem_of_cons in E as [[=]|E]); by apply elem_of_nil in E.
Qed.
