(* ===== verification/ConnectorTheorems.v ===== *)
(** The node connector: batches are answered by id, every fetch makes boundedly many
    requests, and failures of an endpoint move on to one that answers. *)

From S2P Require Import Prelude KeyCodec LevelDb Store Json Parsing Wire AuxPow ChainParams Decoder Connector ConnectorFacts.
From S2P Require Import Concrete.

#[local] Open Scope string_scope.
#[local] Open Scope nat_scope.
#[local] Open Scope list_scope.

(** * Batches *)

Section batches.
Context {servers : RpcServers}.

(** C12 Whatever the servers answer, blocks that a batch fetch returns are of the heights asked
    for, in that order: the hash at each place is the result of the one answer to the
    first batch whose id is that place, and the block that of the one answer to the batch
    that asked for these hashes.  An answer with a missing, repeated or foreign id, too few
    or too many items, or an empty result is an error. *)
Theorem batches_are_answered_by_id hs c bs c' : getBlocksBatch hs c = (Ok bs, c') -> hs <> [] -> batch_fetched hs bs.
Proof. intros E. destruct (asks_getBlocksBatch hs c) as [_ H]. rewrite E in H. by apply H. Qed.
End batches.

(** * Bounds *)

Section bounds.
Context {servers : RpcServers} {envs : Environment} {lib : Bitcoinjs}.

(** C14 Whatever the servers answer and however often they time out, a batch fetch makes at
    most 20 requests, one with its headers at most 30, a fetch of a single block at most
    20 and of a raw transaction at most 10; a block put together from its transactions
    takes at most 20 and ten more for each transaction the node lists in it. *)
Theorem fetches_make_bounded_requests c :
  (forall hs, posts (getBlocksBatch hs c).2 <= posts c + 20)
  /\ (forall hs, posts (getBlocksBatchWithoutAuxPow hs c).2 <= posts c + 30)
  /\ (forall h, posts (getBlockWithoutAuxPow h c).2 <= posts c + 20)
  /\ (forall t, posts (getRawTransaction t c).2 <= posts c + 10)
  /\ (forall h m, (forall v l, result_to (mkCall "getblock" [h; JBool true] 1) v -> tx_list v = Ok l -> length l <= m) ->
       posts (getBlockReassembled h c).2 <= posts c + (20 + m * 10)).
Proof.
  assert (H : forall A k (m : CM A) P, asks k m P -> posts (m c).2 <= posts c + k) by (intros A k m P Hm; apply (Hm c)).
  split_and!; intros.
  - eapply H, asks_getBlocksBatch.
  - eapply H, asks_getBlocksBatchWithoutAuxPow.
  - eapply H, asks_getBlockWithoutAuxPow.
  - eapply H, asks_getRawTransaction.
  - by eapply H, asks_getBlockReassembled.
Qed.
End bounds.

(** * Failover *)

Section failover.
Context {servers : RpcServers}.

(** C13 Where one of several endpoints answers and the others refuse connections, then
    whatever is asked, after as many requests as the failures of all other endpoints take
    the connector has moved to the one that answers; it stays there, and every request
    from then on succeeds. *)
Theorem failover_reaches_the_live_endpoint u c ds ds' d :
  failover_ok c -> only_alive u (endpoints c) -> u ∈ endpoints c ->
  (failoverThreshold c * (Z.of_nat (length (endpoints c)) - 1) <= Z.of_nat (length ds))%Z ->
  url (post_all (ds ++ ds') c) = u /\ exists r, (rpcPost d (post_all (ds ++ ds') c)).1 = Ok r.
Proof.
  intros Hc Ha (k & Hk)%list_elem_of_lookup Hl. pose proof (failures_left_bound c k Hc (lookup_lt_Some _ _ _ Hk)).
  destruct (reaches_alive u k (ds ++ ds') c Ha Hc Hk) as [Hc' Hu]; [rewrite length_app; lia|]. split; [done|].
  destruct (post_alive u (endpoints c) _ d Ha Hc' Hu) as (r & E). exists r. by rewrite E.
Qed.

Lemma newConnector_ok `{Environment} nodeUrl port now c : newConnector nodeUrl port now = Ok c -> 2 <= length (endpoints c) -> failover_ok c.
Proof.
  unfold newConnector. destruct (normalizeEndpoint nodeUrl port) as [first|]; [|done]. cbn [mbind res_bind].
  destruct (mapM _ _) as [rest|]; [|done]. cbn [mbind res_bind]. intros [= <-] Hl. split; cbn [endpoints activeEndpointIndex connectionFailures failoverThreshold] in *; [done|lia|].
  split; [done|]. unfold envInt, intKnob. destruct (ir_absent _); [done|]. destruct (ir_value _) as [v|]; [|done]. case_bool_decide; lia.
Qed.
End failover.

(** * A node

    Its tip is at 103.  Every other batch times out, and the answers of a batch come back
    to front. *)

Definition hash_at (h : Z) : string := hx (byte_of_Z (h + 76)).
Definition height_of_hash (s : string) : Z := unbe (take 1 (h2b s)) - 76.
Definition text_at (h : Z) : string := if bool_decide (h = 101)%Z then "01" else "02".
Definition chain_run : node_view := mkView 103 hash_at (fun _ => "00") text_at.

Definition reply_to (c : call) : json :=
  if bool_decide (c_method c = "getblockchaininfo") then JObj [("blocks", JInt 103)]
  else match c_params c with
  | [JInt h] => JStr (hash_at h)
  | [JStr s; JBool true] => JObj [("tx", JArr [JStr "tx1"])]
  | [JStr s] => JStr "0102"
  | [JStr s; _] => JStr (if bool_decide (c_method c = "getblockheader") then "00" else text_at (height_of_hash s))
  | _ => JNull
  end.

Definition servers_run : RpcServers := {|
  client_post := fun n u r =>
    match r with
    | One c => Replied 200 (JObj [("result", reply_to c); ("id", JInt (c_id c))])
    | Many cs => if Nat.even n then Replied 200 (JArr (rev ((fun c => JObj [("id", JInt (c_id c)); ("result", reply_to c)]) <$> cs)))
                 else Failed (Some "ECONNABORTED") None
    end;
  rpc_now := fun n => Z.of_nat n;
|}.

#[local] Existing Instance servers_run.

Lemma height_of_hash_at h : (0 <= h <= 103)%Z -> height_of_hash (hash_at h) = h.
Proof.
  intros Hh. unfold height_of_hash, hash_at. rewrite h2b_hx. unfold raw. cbn [replicate take]. unfold unbe. cbn [unbe_acc].
  rewrite Z_of_byte_of_Z, Z.mod_small; lia.
Qed.

Lemma reply_to_replies c v : replies chain_run c v -> reply_to c = v.
Proof.
  destruct 1 as [h id Hh|h id Hh|h id Hh]; cbn [nc_tip chain_run] in *; [reflexivity..|].
  unfold reply_to. cbn [c_method c_params]. rewrite !bool_decide_eq_false_2 by done. cbn [nc_hash chain_run]. by rewrite height_of_hash_at.
Qed.

Lemma hash_at_nonempty h : hash_at h <> "".
Proof. discriminate. Qed.

Lemma even_soon n : exists k, k < 10 /\ Nat.even (n + k) = true.
Proof.
  destruct (Nat.even n) eqn:E; [exists 0; split; [lia|by rewrite Nat.add_0_r]|].
  exists 1. split; [lia|]. by rewrite Nat.even_add, E.
Qed.

Lemma chain_run_honest : honest chain_run Nat.even.
Proof.
  split.
  - intros n u id. by eexists _, _, _.
  - intros n u cs vs Hup Hcs. exists 200%Z, (rev ((fun c => JObj [("id", JInt (c_id c)); ("result", reply_to c)]) <$> cs)).
    eexists. split_and!; [cbn; by rewrite Hup|apply Permutation_sym, Permutation_rev|].
    induction Hcs as [|c v cs vs Hc _ IH]; [constructor|]. cbn [zip zip_with fmap list_fmap]. constructor; [|exact IH].
    split; [done|]. by rewrite <- (reply_to_replies c v Hc).
  - intros n u cs Hup. cbn. by rewrite Hup.
  - exact even_soon.
  - intros h Hh. split_and!; [apply hash_at_nonempty|done|]. cbn. unfold text_at. by case_bool_decide.
Qed.


Definition connector0 : connector := mkConnector ["node:8332"] 0 0 3 0 0 0 1.

Lemma batches_are_answered_by_id_witness :
  exists bs c', getBlocksBatch [102; 101]%Z connector0 = (Ok bs, c') /\ batch_fetched [102; 101]%Z bs
    /\ nb_hex <$> bs = [JStr "02"; JStr "01"].
Proof.
  destruct (getBlocksBatch [102; 101]%Z connector0) as [r c'] eqn:E. assert (Er := E). vm_compute in Er. injection Er as Er _.
  destruct r as [bs|]; [|discriminate Er]. exists bs, c'. split; [done|]. split.
  - exact (batches_are_answered_by_id [102; 101]%Z connector0 bs c' E ltac:(discriminate)).
  - injection Er as <-. reflexivity.
Defined.

#[local] Instance env_knobs : Environment := fun name =>
  if bool_decide (name = "NODE_URL_FALLBACK") then Some "spare, http://other:1" else None.

#[local] Instance lib_none : Bitcoinjs := {
  Block_fromBuffer _ := Err (parse_error "");
  Block_byteLength _ := 0%Z;
  calculateMerkleRoot _ := [];
  Transaction_fromBuffer _ _ := Err (parse_error "");
  Transaction_getId _ _ _ _ := "";
  varuint_decode _ _ := Err (parse_error "");
}.

Lemma fetches_make_bounded_requests_witness : posts (getBlockReassembled (JStr (hash_at 101)) connector0).2 <= 31
  /\ (getBlockReassembled (JStr (hash_at 101)) connector0).1 = Ok "00010102".
Proof.
  split; [|vm_compute; reflexivity].
  apply (proj2 (proj2 (proj2 (proj2 (fetches_make_bounded_requests connector0)))) (JStr (hash_at 101)) 1).
  intros v l (data & missing & (n & u & status & E) & Ev) El. cbn in E. injection E as _ <-. cbn in Ev. injection Ev as <-. cbn in El. injection El as <-. done.
Defined.

(** The last of three endpoints answers. *)
Definition servers_spare : RpcServers := {|
  client_post := fun _ u _ => if bool_decide (u = "http://other:1") then Replied 200 JNull else Failed (Some "ECONNREFUSED") None;
  rpc_now := fun n => Z.of_nat n;
|}.

Definition connector3 : connector := match newConnector "node" "8332" 0 with Ok c => c | Err _ => connector0 end.

Lemma failover_reaches_the_live_endpoint_witness : endpoints connector3 = ["http://node:8332"; "http://spare:8332"; "http://other:1"]
  /\ url (post_all (servers := servers_spare) (replicate 6 (Many [])) connector3) = "http://other:1".
Proof.
  assert (Ee : endpoints connector3 = ["http://node:8332"; "http://spare:8332"; "http://other:1"]) by (vm_compute; reflexivity).
  split; [exact Ee|]. rewrite <- (app_nil_r (replicate 6 (Many []))).
  apply (failover_reaches_the_live_endpoint (servers := servers_spare) "http://other:1" connector3 (replicate 6 (Many [])) [] (Many [])).
  - apply (newConnector_ok "node" "8332" 0); [vm_compute; reflexivity|rewrite Ee; cbn; lia].
  - split; [by intros n d; eexists _, _|]. intros u' n d _ Hne. exists "ECONNREFUSED". split; [apply elem_of_cons; by left|]. cbn. by rewrite bool_decide_eq_false_2.
  - rewrite Ee. apply (bool_decide_unpack _). vm_compute. reflexivity.
  - vm_compute. discriminate.
Defined.
