(* ===== verification/CodecTheorems.v ===== *)
(** What the key schema and the value encodings guarantee. *)

From S2P Require Import Prelude KeyCodec LevelDb ValueCodec Concrete.

#[local] Open Scope string_scope.
#[local] Open Scope nat_scope.
#[local] Open Scope list_scope.

(** The transaction hash an output record answers with: the field's zeros stand for none. *)
Definition stored_txid (tx : option string) : option string :=
  match tx with
  | Some s => if bool_decide (s = "" \/ s = ZERO_HASH) then None else Some s
  | None => None
  end.

(** The builder call for a record of the schema. *)
Definition build {node : Node} (k : key) : res bytes :=
  match k with
  | KBlock bh => kBlock (b2h bh)
  | KTx t => kTx (b2h t)
  | KInput t i => kInput (b2h t) i
  | KOutput sh t i => kOutput (b2h sh) (b2h t) i
  | KOutHint t i => kOutHint (b2h t) i
  | KInHint t pt i => kInHint (b2h t) (b2h pt) i
  | KScriptBlk sh => kScriptBlk (b2h sh)
  | KBlkScript bh sh => kBlkScript (b2h bh) (b2h sh)
  | KOutDel bh sh t i => kOutDel (b2h bh) (b2h sh) (b2h t) i
  | KHintDel bh t i => kHintDel (b2h bh) (b2h t) i
  | KStoredBlk bh => kStoredBlk (b2h bh)
  | KOutBlk bh t i => kOutBlk (b2h bh) (b2h t) i
  | KTxExact t => kTxExact (b2h t)
  | KTxBlockRecovery bh t => kTxBlockRecovery (b2h bh) (b2h t)
  | KMeta m => Ok (enc_meta m)
  end.

(** The same call with the script hash as a buffer, where such a builder exists. *)
Definition build_from_buf {node : Node} (k : key) : res bytes :=
  match k with
  | KOutput sh t i => kOutputFromBuf sh (b2h t) i
  | KScriptBlk sh => kScriptBlkFromBuf sh
  | KBlkScript bh sh => kBlkScriptFromBuf (b2h bh) sh
  | KOutDel bh sh t i => kOutDelFromBuf (b2h bh) sh (b2h t) i
  | k => build k
  end.

Section builders.
Context {node : Node}.

Lemma build_enc k : wf_key k -> build k = Ok (enc k).
Proof.
  assert (HH : forall b, hash32 b -> is_hash (b2h b)) by (intros; by apply b2h_is_hash).
  destruct k; cbn [wf_key build enc]; intros Hk; destruct_and?;
    rewrite ?kBlock_ok, ?kTx_ok, ?kInput_ok, ?kOutput_ok, ?kOutHint_ok, ?kInHint_ok, ?kScriptBlk_ok,
      ?kBlkScript_ok, ?kOutDel_ok, ?kHintDel_ok, ?kStoredBlk_ok, ?kOutBlk_ok, ?kTxExact_ok,
      ?kTxBlockRecovery_ok by auto; rewrite ?h2b_b2h, ?ushr0_id by done; done.
Qed.

Lemma build_from_buf_enc k : wf_key k -> build_from_buf k = Ok (enc k).
Proof.
  intros Hk. assert (HH : forall b, hash32 b -> is_hash (b2h b)) by (intros; by apply b2h_is_hash).
  destruct k; cbn [build_from_buf]; try (by apply build_enc); cbn [wf_key enc] in *; destruct_and?;
    rewrite ?kOutputFromBuf_ok, ?kScriptBlkFromBuf_ok, ?kBlkScriptFromBuf_ok, ?kOutDelFromBuf_ok by auto;
    rewrite ?h2b_b2h, ?ushr0_id by done; done.
Qed.
End builders.

(** C39 Every key builder writes exactly the bytes of its record, whatever the
    uninitialised memory it starts from held, and the builders that take a script hash
    as a buffer write the same key as the ones that take it as hex. *)
Theorem builders_follow_the_schema {node : Node} (k : key) :
  wf_key k -> build k = Ok (enc k) /\ build_from_buf k = Ok (enc k) /\ length (enc k) <= MAX_KEY_LEN.
Proof. intros Hk. split_and!; [by apply build_enc|by apply build_from_buf_enc|by apply length_enc]. Qed.

Lemma builders_follow_the_schema_witness :
  let k := KOutDel (raw x01) (raw x02) (raw x03) 7 in
  wf_key k /\ build k = Ok (enc k).
Proof.
  split; [by vm_compute|].
  apply (builders_follow_the_schema (KOutDel (raw x01) (raw x02) (raw x03) 7)). by vm_compute.
Defined.

(** Two builder calls produce the same key only for the same record with the same
    fields: no record of one type can overwrite or be read as another. *)
Theorem keys_are_unambiguous {node : Node} (k1 k2 : key) :
  wf_key k1 -> wf_key k2 -> build k1 = build k2 -> k1 = k2.
Proof. intros H1 H2. rewrite !build_enc by done. intros [= E]. by apply enc_inj. Qed.

Lemma keys_are_unambiguous_witness :
  KTx (raw x01) = KTx (raw x01).
Proof. apply (keys_are_unambiguous (KTx (raw x01)) (KTx (raw x01))); vm_compute; reflexivity. Defined.

(** A field of the wrong width is refused by every builder instead of being cut or
    padded into another key. *)
Theorem builders_refuse_a_wrong_width {node : Node} (bad good : string) (buf : bytes) (i : Z) :
  String.length bad <> 64 -> is_hash good -> length buf <> 32 ->
  (exists b f, kBlock bad = Err (width_error b f))
  /\ (exists b f, kTx bad = Err (width_error b f))
  /\ (exists b f, kInput bad i = Err (width_error b f))
  /\ (exists b f, kOutput bad good i = Err (width_error b f))
  /\ (exists b f, kOutput good bad i = Err (width_error b f))
  /\ (exists b f, kOutHint bad i = Err (width_error b f))
  /\ (exists b f, kInHint good bad i = Err (width_error b f))
  /\ (exists b f, kOutDel good good bad i = Err (width_error b f))
  /\ (exists b f, kTxExact bad = Err (width_error b f))
  /\ (exists b f, kTxBlockRecovery good bad = Err (width_error b f))
  /\ (exists b f, kOutputFromBuf buf good i = Err (width_error b f))
  /\ (exists b f, kOutDelFromBuf good buf good i = Err (width_error b f))
  /\ (exists b f, kScriptBlkFromBuf buf = Err (width_error b f))
  /\ (exists b f, kBlkScriptFromBuf good buf = Err (width_error b f)).
Proof.
  intros Hbad Hgood Hbuf.
  assert (B64 : forall b f, guard64 b f bad = Err (width_error b f))
    by (intros; unfold guard64; by rewrite bool_decide_eq_false_2).
  assert (B32 : forall b f, guard32 b f buf = Err (width_error b f))
    by (intros; unfold guard32; by rewrite bool_decide_eq_false_2).
  assert (G : forall b f, guard64 b f good = Ok tt) by (intros; by apply guard64_ok).
  split_and!; eexists _, _;
    unfold kBlock, kTx, kInput, kOutput, kOutHint, kInHint, kOutDel, kTxExact, kTxBlockRecovery,
      kOutputFromBuf, kOutDelFromBuf, kScriptBlkFromBuf, kBlkScriptFromBuf, assertTxid;
    rewrite ?G; cbn [mbind res_bind]; rewrite ?B64, ?B32; reflexivity.
Qed.

Lemma builders_refuse_a_wrong_width_witness :
  exists b f, kTx "abcd" = Err (width_error b f).
Proof.
  apply (builders_refuse_a_wrong_width "abcd" (hx x01) [x01] 0); [done|apply hx_is_hash|done].
Defined.

Lemma sorted_key_le (l : list (bytes * bytes)) :
  StronglySorted (fun a b => ble a.1 b.1 = true /\ a.1 <> b.1) l -> StronglySorted key_le l.
Proof.
  induction 1 as [|x l _ IH Hx]; constructor; [done|]. eapply Forall_impl; [exact Hx|]. by intros y [? _].
Qed.

(** A scan from a prefix to its [rangeEnd] meets every stored key with the prefix and
    no other, each once, in key order. *)
Theorem prefix_scan_is_exact {DB : Type} `{LevelDbLaws DB} (d : DB) (p : bytes) :
  keys_bounded d ->
  let rows := db_iterator d (mkRange None (Some p) (Some (rangeEnd p)) None) in
  (forall k v, (k, v) ∈ rows <-> db_get d k = Some v /\ p `prefix_of` k)
  /\ NoDup rows.*1 /\ StronglySorted key_le rows.
Proof.
  intros Hd rows. split_and!.
  - intros k v. by apply elem_of_prefix_scan.
  - apply (NoDup_prefix_scan d p).
  - by apply sorted_key_le, iterator_sorted.
Qed.

Lemma prefix_scan_is_exact_witness :
  let d : mapdb := {[ [x42; x01] := [x05] ]} in
  ([x42; x01], [x05]) ∈ db_iterator d (mkRange None (Some [x42]) (Some (rangeEnd [x42])) None).
Proof.
  apply (prefix_scan_is_exact ({[ [x42; x01] := [x05] ]} : mapdb) [x42]).
  - intros k v. change (({[ [x42; x01] := [x05] ]} : mapdb) !! k = Some v -> length k <= MAX_KEY_LEN).
    intros [<- _]%lookup_singleton_Some. vm_compute. lia.
  - split; [reflexivity|]. by exists [x01].
Defined.

(** *** Helpers of the value round trips *)

Lemma output_round_trip v oh tx cb :
  u64 v -> i32 (default (-1)%Z oh) -> (forall s, tx = Some s -> s <> "" -> is_hash s) ->
  (b ← encodeOutput v oh tx cb; decodeOutput b)
  = Ok (mkOutputRec v (default (-1)%Z oh) (stored_txid tx) cb).
Proof.
  intros Hv Hh Htx. assert (Hc : (tx = None \/ tx = Some "") \/ exists s, tx = Some s /\ s <> "" /\ is_hash s).
  { destruct tx as [s|]; [|by left; left]. destruct (decide (s = "")) as [->|Hs]; [by left; right|].
    right. exists s. eauto. }
  destruct Hc as [Hnone|(s & -> & Hs & Hx)].
  - rewrite encodeOutput_no_txid by done. cbn [mbind res_bind]. rewrite decodeOutput_val by done.
    rewrite bool_decide_eq_true_2 by done. f_equal. f_equal. by destruct Hnone as [->| ->].
  - replace (encodeOutput v oh (Some s) cb) with (encodeOutput v (Some (default (-1)%Z oh)) (Some s) cb)
      by reflexivity.
    rewrite encodeOutput_ok by done. cbn [mbind res_bind].
    rewrite decodeOutput_val by (done || by apply h2b_hash32). rewrite b2h_h2b by done.
    f_equal. f_equal. unfold stored_txid. repeat case_bool_decide; naive_solver.
Qed.

Lemma tx_round_trip bh : is_hash bh -> (b ← encodeTx (Some bh); Ok (decodeTx b)) = Ok bh.
Proof.
  intros Hp. unfold encodeTx. rewrite bool_decide_eq_false_2 by (intros ->; by destruct Hp).
  rewrite guard64_ok by done. cbn [mbind res_bind]. f_equal. unfold decodeTx, slice.
  rewrite drop_0, take_ge by (rewrite length_h2b by done; lia). by apply b2h_h2b.
Qed.

Lemma wrong_width_refused bad : String.length bad <> 64 -> forall h t v oh cb,
  encodeBlock h t bad = Err (width_error "encodeBlock" "previousHash")
  /\ encodeInputVal bad = Err (width_error "encodeInputVal" "txid")
  /\ encodeOutHint bad = Err (width_error "encodeOutHint" "scriptPubKey")
  /\ (bad <> "" -> encodeTx (Some bad) = Err (width_error "encodeTx" "blockHash"))
  /\ (bad <> "" -> u64 v /\ i32 (default (-1)%Z oh) ->
     encodeOutput v oh (Some bad) cb = Err (width_error "encodeOutput" "fullTxHash")).
Proof.
  intros Hb h t v oh cb.
  assert (G : forall b f, guard64 b f bad = Err (width_error b f))
    by (intros; unfold guard64; by rewrite bool_decide_eq_false_2).
  split_and!; [unfold encodeBlock|unfold encodeInputVal|unfold encodeOutHint| |]; try by rewrite G.
  - intros Hne. unfold encodeTx. by rewrite bool_decide_eq_false_2, G.
  - intros Hne [Hv Hh]. unfold encodeOutput, write_u64, write_i32.
    rewrite (bool_decide_eq_true_2 (u64 v)), (bool_decide_eq_true_2 (i32 _)) by done. cbn [mbind res_bind].
    by rewrite bool_decide_eq_false_2, G.
Qed.

(** C40 The stored values decode to what was encoded exactly when every integer fits its
    field, and are refused otherwise. A block record round-trips for every height and
    timestamp of 32 unsigned bits, an output record for every value of 64 unsigned bits,
    every height of 32 signed bits (-1 when none is given), with or without a transaction
    hash and the coinbase flag, a first-seen record for every height of 32 unsigned bits;
    for every other integer the encoder throws the range error, so nothing is written
    wrapped. A transaction record keeps its block hash (zeros for none). Whatever the
    integers, a hash that is not 64 characters long is refused with the width error. *)
Theorem values_round_trip (h t v : Z) (oh : option Z) (ph : string) (tx : option string)
    (cb : bool) :
  is_hash ph -> (forall s, tx = Some s -> s <> "" -> is_hash s) ->
  let vh := default (-1)%Z oh in
  (u32 h /\ u32 t -> (b ← encodeBlock h t ph; decodeBlock b) = Ok (mkBlockRec h t ph))
  /\ (~ (u32 h /\ u32 t) -> encodeBlock h t ph = Err (Error ERange))
  /\ (u64 v /\ i32 vh ->
      (b ← encodeOutput v oh tx cb; decodeOutput b) = Ok (mkOutputRec v vh (stored_txid tx) cb))
  /\ (~ (u64 v /\ i32 vh) -> encodeOutput v oh tx cb = Err (Error ERange))
  /\ (u32 h -> (b ← encodeScriptBlk h; decodeScriptBlk b) = Ok h)
  /\ (~ u32 h -> encodeScriptBlk h = Err (Error ERange))
  /\ (b ← encodeTx (Some ph); Ok (decodeTx b)) = Ok ph
  /\ (forall none, none = None \/ none = Some "" -> (b ← encodeTx none; Ok (decodeTx b)) = Ok ZERO_HASH)
  /\ (forall bad, String.length bad <> 64 ->
      encodeBlock h t bad = Err (width_error "encodeBlock" "previousHash")
      /\ encodeInputVal bad = Err (width_error "encodeInputVal" "txid")
      /\ encodeOutHint bad = Err (width_error "encodeOutHint" "scriptPubKey")
      /\ (bad <> "" -> encodeTx (Some bad) = Err (width_error "encodeTx" "blockHash"))
      /\ (bad <> "" -> u64 v /\ i32 vh ->
         encodeOutput v oh (Some bad) cb = Err (width_error "encodeOutput" "fullTxHash"))).
Proof.
  intros Hp Htx vh. split_and!.
  - intros [Hh Ht]. rewrite encodeBlock_ok by done. cbn [mbind res_bind].
    rewrite decodeBlock_val by (done || by apply h2b_hash32). by rewrite b2h_h2b.
  - intros Hn. apply encodeBlock_refuses; [apply Hp|done].
  - intros [Hv Hvh]. by apply output_round_trip.
  - apply encodeOutput_refuses.
  - apply scriptBlk_round_trip.
  - intros Hh. unfold encodeScriptBlk, write_u32. by rewrite bool_decide_eq_false_2.
  - by apply tx_round_trip.
  - intros none [->| ->]; vm_compute; done.
  - intros bad Hb. apply (wrong_width_refused bad Hb).
Qed.

Lemma values_round_trip_witness :
  (b ← encodeOutput 5000000000 None (Some (hx x07)) true; decodeOutput b)
  = Ok (mkOutputRec 5000000000 (-1) (Some (hx x07)) true)
  /\ encodeBlock (-1) 1 (hx x01) = Err (Error ERange)
  /\ encodeOutput 5000000000 None (Some "ab") true = Err (width_error "encodeOutput" "fullTxHash").
Proof.
  pose proof (values_round_trip (-1) 1 5000000000 None (hx x01) (Some (hx x07)) true
                (hx_is_hash x01) ltac:(intros s [= <-] _; apply hx_is_hash))
    as (_ & Eb & Eo & _ & _ & _ & _ & _ & Ew).
  split_and!.
  - rewrite Eo; [by vm_compute|split; by vm_compute].
  - apply Eb. intros [H _]. by apply H.
  - apply (Ew "ab"); by vm_compute.
Defined.

(** ** The pagination cursor *)

(** A property of characters that holds of all 256 is checked on each. *)
Ltac each_ascii c := destruct c as [[] [] [] [] [] [] [] []]; vm_compute; try done.

Lemma lower_hex_facts c :
  is_lower_hex c = true -> c <> ":"%char /\ is_Some (nib c) /\ lower c = c.
Proof. each_ascii c; intros _; (split; [done|]); split; eauto. Qed.

Lemma digit_facts c : is_Some (digit_val 10 c) -> c <> ":"%char.
Proof. intros [d Hd] ->. by vm_compute in Hd. Qed.

Lemma all_hex_lower s : all_lower_hex s = true -> all_hex s = true /\ toLowerCase s = s.
Proof.
  induction s as [|c s IH]; [done|]. cbn [all_lower_hex all_hex toLowerCase].
  intros [Hc Hs]%andb_true_iff. destruct (lower_hex_facts c Hc) as (_ & Hn & ->).
  destruct (IH Hs) as [-> ->]. by rewrite bool_decide_eq_true_2.
Qed.

Lemma split_colon_hex s r : all_lower_hex s = true -> split_colon (String.append s (String.String ":"%char r)) = Some (s, r).
Proof.
  induction s as [|c s IH]; [done|]. cbn [all_lower_hex]. intros [Hc Hs]%andb_true_iff.
  change (String.append (String.String c s) (String.String ":"%char r))
    with (String.String c (String.append s (String.String ":"%char r))).
  cbn [split_colon]. rewrite bool_decide_eq_false_2 by apply (lower_hex_facts c Hc).
  by rewrite IH.
Qed.

Lemma all_digits_radix fuel n acc :
  all_digits acc = true -> (0 <= n)%Z -> all_digits (radix_digits fuel 10 n acc) = true.
Proof.
  revert n acc. induction fuel as [|f IH]; intros n acc Ha Hn; [done|]. cbn [radix_digits].
  pose proof (Z.mod_pos_bound n 10 ltac:(lia)).
  assert (Hd : all_digits (String.String (hex_digit (n mod 10)) acc) = true).
  { cbn [all_digits]. rewrite Ha, digit_val_hex_digit by lia. by rewrite bool_decide_eq_true_2. }
  case_bool_decide; [done|]. apply IH; [done|]. by apply Z.div_pos.
Qed.

Lemma toLowerCase_hex s : all_hex s = true -> all_lower_hex (toLowerCase s) = true.
Proof.
  induction s as [|c s IH]; [done|]. cbn [all_hex toLowerCase all_lower_hex].
  intros [Hc Hs]%andb_true_iff. rewrite IH by done.
  assert (E : is_lower_hex (lower c) = true); [|by rewrite E].
  apply bool_decide_eq_true in Hc as [d Hd]. revert Hd. each_ascii c.
Qed.

Lemma length_toLowerCase s : String.length (toLowerCase s) = String.length s.
Proof. induction s as [|c s IH]; cbn; [done|]. by rewrite IH. Qed.

Lemma parse_print_cursor txid vout :
  is_hash txid -> u32 vout -> parseOutputCursor (Some (print_cursor txid vout)) = Some (txid, vout).
Proof.
  intros [Hl Hx] Hv.
  unfold parseOutputCursor, print_cursor.
  change (String.append ":" (to_radix 10 vout)) with (String.String ":"%char (to_radix 10 vout)).
  rewrite split_colon_hex by done. destruct (all_hex_lower txid Hx) as [-> ->].
  rewrite bool_decide_eq_false_2 by (intros ->; done). rewrite bool_decide_eq_true_2 by done. cbn [andb negb].
  unfold u32 in Hv. unfold to_radix. rewrite (bool_decide_eq_false_2 (vout < 0)%Z) by lia.
  set (f := S _). assert (Hf : (vout < 2 ^ Z.of_nat f)%Z).
  { unfold f. rewrite Nat2Z.inj_succ, Z2Nat.id by apply Z.log2_nonneg.
    destruct (decide (vout = 0)%Z) as [->|]; [done|]. apply Z.log2_spec. lia. }
  rewrite all_digits_radix by (done || lia).
  rewrite bool_decide_eq_true_2.
  2:{ destruct (radix_digits_head f 10 vout "" ltac:(lia) ltac:(lia)) as (d & r & _ & E). by rewrite E. }
  cbn [andb negb]. rewrite parse_run_digits by lia. cbn [parse_run].
  by rewrite bool_decide_eq_false_2 by lia.
Qed.

(** The cursor a page hands out reads back as the outpoint it was made from, and any
    cursor that is accepted at all names a 64-digit lower-case txid and an output index
    of 32 bits. *)
Theorem cursor_round_trips (txid : string) (vout : Z) (s : string) (t : string) (n : Z) :
  is_hash txid -> u32 vout ->
  parseOutputCursor (Some (print_cursor txid vout)) = Some (txid, vout)
  /\ (parseOutputCursor (Some s) = Some (t, n) -> is_hash t /\ u32 n).
Proof.
  intros Ht Hv. split; [by apply parse_print_cursor|].
  unfold parseOutputCursor. destruct (split_colon s) as [[a b]|]; [|done].
  case_bool_decide; [done|].
  destruct (bool_decide (String.length a = 64) && all_hex a) eqn:Ea; [|done].
  destruct (bool_decide (b <> "") && all_digits b); [|done]. cbn [negb].
  destruct (parse_run 10 0 false b) as [m|]; [|done].
  destruct (decide (m < 0 \/ 4294967295 < m)%Z) as [Hm|Hm];
    [by rewrite bool_decide_eq_true_2|rewrite bool_decide_eq_false_2 by done].
  intros [= <- <-].
  apply andb_true_iff in Ea as [El%bool_decide_eq_true Eh].
  split; [split; [by rewrite length_toLowerCase|by apply toLowerCase_hex]|unfold u32; lia].
Qed.

Lemma cursor_round_trips_witness :
  parseOutputCursor (Some (print_cursor (hx xab) 4294967295)) = Some (hx xab, 4294967295%Z).
Proof.
  apply (cursor_round_trips (hx xab) 4294967295 "" "" 0); [apply hx_is_hash|vm_compute; split; congruence].
Defined.
