(* ===== verification/ChainTheorems.v ===== *)
(** The chain the tracker keeps: blocks in, blocks out.  Indexing a batch commits the
    unspent outputs of its blocks; the reorg walk takes the store back to the fork
    point it shares with the node; what cannot be done is refused with the store left
    as it was. *)

From S2P Require Import Prelude KeyCodec ValueCodec LevelDb Store Outputs StoreFacts.
From S2P Require Import Rollback Parsing Apply Spend Block Roundtrip Tracker Window Reorg SyncLoop.
From S2P Require Import Batch Undo Chain Forward Indexing Utxo Concrete.
From stdpp Require Import gmap.

#[local] Open Scope string_scope.
#[local] Open Scope nat_scope.
#[local] Open Scope list_scope.

(** C1 Indexing a batch: blocks staged one after the other, the last one triggering the
    flush, leave on the disk exactly the records of the chain with the aged blocks'
    recovery records pruned, the tip pointers on the last block, its hash and height as
    the cursor, the mined transactions gone from the mempool store; and the unspent
    outputs are the ones the specification computes, outputs created and spent inside
    the batch included. *)
Theorem batch_commits_the_chain {node : Node} {rpcs : NodeRpc} {env : LoopEnv} {DB : Type} `{LevelDbLaws DB}
    (hm : Z) (l0 : loop DB) (bs : list block_data) (b : block_data) :
  idle hm l0 -> batch_ok (dk (disk (db (trk l0)))) hm (bs ++ [b]) -> window_hashes (win (trk l0)) ->
  db_wf (disk (mempoolDb (trk l0))) -> commit_ok (mempoolDb (trk l0)) ->
  exists l, index_batch bs b l0 = (Ok tt, l)
    /\ indexed l0 (bs ++ [b]) (bd_hash b) (bd_height b) l
    /\ same_utxos (live_outputs (dk (disk (db (trk l)))))
         (apply_chain (live_outputs (dk (disk (db (trk l0))))) (bs ++ [b])).
Proof.
  intros Hid Hbs Hw Hm Hc.
  destruct (run_index_batch hm l0 bs b Hid Hbs Hw Hm Hc) as (l & E & Hl).
  exists l. split_and!; [done|done|]. rewrite <- live_chain.
  rewrite (live_agree _ _ (disk_hints_hash _ (sv_wf _ (ix_store _ _ _ _ _ Hl))) (ix_records _ _ _ _ _ Hl)).
  apply live_pruned.
Qed.

(** The two blocks on top of the stored one, the second spending what the first mints. *)
Lemma loop0_idle : idle 100 loop0.
Proof.
  split; [|done|by vm_compute|done]. split.
  - apply disk0_wf.
  - apply disk0_hints.
  - intros t i sh v _ _. cbn. by rewrite lookup_empty.
  - intros k Hk. cbn in Hk. set_solver.
Qed.

Lemma next_ok_0 V hm b :
  block_wf b -> (hm < bd_height b)%Z -> bd_hash b <> hx xb0 -> fresh_in V b -> next_ok (dk disk0) V hm b.
Proof.
  intros Hb Hh Hne Hf. split; [done|done|by apply disk0_fresh|done|].
  intros t i Hin. destruct (spent_op_wf b t i Hb Hin). rewrite disk0_none by done. by intros [].
Qed.

Lemma batch0_ok : batch_ok (dk disk0) 100 [block1; block2].
Proof.
  apply (batch_snoc _ _ [block1]); [apply (batch_snoc _ _ [])|]; [constructor| |].
  - apply next_ok_0; [apply block1_wf|by vm_compute|by vm_compute|]. apply disk0_fresh; [apply block1_wf|by vm_compute].
  - apply next_ok_0; [apply block2_wf|by vm_compute|by vm_compute|].
    apply fresh_committed; [apply disk0_fresh; [apply block2_wf|by vm_compute]|apply blocks_disjoint].
Qed.

Lemma window0_hashes : window_hashes (window0 [hx xb0]).
Proof.
  intros x Hx. change (x ∈ [hx xb0]) in Hx. apply list_elem_of_singleton in Hx as ->. apply hx_is_hash.
Qed.

Lemma empty_wf : db_wf (∅ : mapdb).
Proof. intros b v. cbn. by rewrite lookup_empty. Qed.

Lemma batch_commits_the_chain_witness :
  exists l, index_batch [block1] block2 loop0 = (Ok tt, l)
    /\ indexed loop0 [block1; block2] (hx xb2) 102 l
    /\ same_utxos (live_outputs (dk (disk (db (trk l))))) (apply_chain (live_outputs (dk disk0)) [block1; block2]).
Proof.
  apply (batch_commits_the_chain 100 loop0 [block1] block2);
    [apply loop0_idle|apply batch0_ok|apply window0_hashes|apply empty_wf|done].
Defined.

(** The tracker the batch leaves, sealed: what follows needs only that it is [indexed]. *)
Lemma loop1_sig : {l | indexed loop0 [block1; block2] (hx xb2) 102 l}.
Proof.
  exists (index_batch [block1] block2 loop0).2.
  destruct (run_index_batch 100 loop0 [block1] block2) as (l & E & Hl);
    [apply loop0_idle|apply batch0_ok|apply window0_hashes|apply empty_wf|done|].
  by rewrite E.
Qed.

Definition loop1 : loop mapdb := proj1_sig loop1_sig.

Lemma loop1_indexed : indexed loop0 [block1; block2] (hx xb2) 102 loop1.
Proof. exact (proj2_sig loop1_sig). Qed.

Definition tracker1 : tracker mapdb := trk loop1.

(** What is known of it does not depend on how it came about. *)
Lemma indexed_holds l :
  indexed loop0 [block1; block2] (hx xb2) 102 l ->
  holds (disk (db (trk l))) (chain_records (dk disk0) [block1; block2]) (hx xb2) 102.
Proof.
  intros Hl. split.
  - exact (sv_wf _ (ix_store _ _ _ _ _ Hl)).
  - intros k Hk Hm. rewrite (ix_records _ _ _ _ _ Hl k Hk Hm). unfold pruned.
    destruct (index_of k); [|done]. rewrite decide_False; [done|]. apply not_elem_of_nil.
  - exact (ix_hash _ _ _ _ _ Hl).
  - exact (ix_height _ _ _ _ _ Hl).
Qed.

Lemma chain0_ok : chain_ok (dk disk0) [block1; block2].
Proof.
  apply chain_ok_disjoint; [apply disk0_hints| |].
  - each_elem; (split; [|apply disk0_fresh]); try apply block1_wf; try apply block2_wf; by vm_compute.
  - intros [|a [|c bs1]] b bs2 E x Hx; [by apply elem_of_nil in Hx| |].
    + injection E as <- <- <-. apply list_elem_of_singleton in Hx as ->. apply blocks_disjoint.
    + by destruct bs1.
Qed.

Lemma indexed_window l :
  indexed loop0 [block1; block2] (hx xb2) 102 l -> lastBlocks (win (trk l)) = [hx xb0; hx xb1; hx xb2].
Proof. intros Hl. rewrite (ix_window _ _ _ _ _ Hl). by vm_compute. Qed.

Lemma indexed_state l :
  indexed loop0 [block1; block2] (hx xb2) 102 l ->
  chain_state (trk l) (dk disk0) (hx xb0) 100 [hx xb0] [block1; block2].
Proof.
  intros Hl. split.
  - apply chain0_ok.
  - by vm_compute.
  - by apply indexed_holds.
  - unfold commit_ok. by rewrite (id_faults _ _ (ix_idle _ _ _ _ _ Hl)).
  - by rewrite (indexed_window l Hl).
  - rewrite (indexed_window l Hl). by apply (bool_decide_unpack _); vm_compute.
Qed.

Lemma tracker1_state : chain_state tracker1 (dk disk0) (hx xb0) 100 [hx xb0] [block1; block2].
Proof. exact (indexed_state loop1 loop1_indexed). Qed.

Lemma tracker1_undo : undoBlocks (win tracker1) = 12%Z.
Proof. change tracker1 with (trk loop1). rewrite (ix_window _ _ _ _ _ loop1_indexed). by vm_compute. Qed.

(** C5 The reorg walk takes a tracker back to the block its chain shares with the node's:
    every record is as it was before the blocks the node does not have were indexed, the
    tip pointers name the shared block, the window ends with it, and the counters count
    one reorg of that depth, none when there was nothing to roll back. *)
Theorem reorg_restores_the_fork_point {node : Node} {rpcs : NodeRpc} {DB : Type} `{LevelDbLaws DB}
    (node_hash : Z -> string) (t : tracker DB) (V0 : records) (hash0 : string) (h0 : Z) (l0 : list string)
    (bs : list block_data) (tip : option Z) (fuel : nat) :
  chain_state t V0 hash0 h0 l0 bs -> fork_point V0 hash0 h0 -> forked node_hash tip hash0 h0 bs ->
  (Z.of_nat (length bs) <= undoBlocks (win t))%Z -> length bs < fuel ->
  exists t', verifyReorg fuel tip t = (Ok (Some true), t')
    /\ holds (disk (db t')) V0 hash0 h0 /\ win t' = set_lastBlocks l0 (win t)
    /\ reorgRollbacksThisProcess (stat t') = (reorgRollbacksThisProcess (stat t) + Z.of_nat (length bs))%Z
    /\ (reorgCount (stat t'), lastReorgDepth (stat t'))
       = match bs with
         | [] => (reorgCount (stat t), lastReorgDepth (stat t))
         | _ => (reorgCount (stat t) + 1, Z.of_nat (length bs))%Z
         end.
Proof.
  intros Ht Hfp Hfk Hdepth Hfuel.
  destruct (run_verifyReorg node_hash t V0 hash0 h0 l0 bs tip fuel Ht Hfp Hfk Hdepth Hfuel) as (s' & c & E & Ht').
  pose proof (cs_holds _ _ _ _ _ _ Ht') as Hd. unfold tip_height, tip_hash in Hd. cbn [length] in Hd.
  rewrite Z.add_0_r in Hd. destruct bs as [|b bs]; eexists; by split_and!.
Qed.

Lemma fork0 : fork_point (dk disk0) (hx xb0) 100.
Proof.
  split; [apply hx_is_hash|by vm_compute|]. exists 900%Z, (hx xaf).
  split_and!; [by vm_compute|apply hx_is_hash|by vm_compute].
Qed.

Lemma forked0 : forked node_chain (Some 102%Z) (hx xb0) 100 [block1; block2].
Proof. split; [done|done|done|]. each_elem; right; by vm_compute. Qed.

Lemma reorg_restores_the_fork_point_witness :
  exists t', verifyReorg 3 (Some 102%Z) tracker1 = (Ok (Some true), t')
    /\ holds (disk (db t')) (dk disk0) (hx xb0) 100 /\ win t' = set_lastBlocks [hx xb0] (win tracker1)
    /\ reorgRollbacksThisProcess (stat t') = (reorgRollbacksThisProcess (stat tracker1) + 2)%Z
    /\ (reorgCount (stat t'), lastReorgDepth (stat t')) = (reorgCount (stat tracker1) + 1, 2)%Z.
Proof.
  apply (reorg_restores_the_fork_point node_chain tracker1 (dk disk0) (hx xb0) 100 [hx xb0] [block1; block2]
           (Some 102%Z) 3 tracker1_state fork0 forked0); [|cbn; lia].
  rewrite tracker1_undo. cbn. lia.
Defined.

(** C6 Rolling back the block on top undoes it: the records, spent outputs restored and
    created ones gone, are the ones before the block was committed, the tip pointers are
    on its parent, and the block is off the window. *)
Theorem rollback_undoes_a_block {node : Node} {rpcs : NodeRpc} {DB : Type} `{LevelDbLaws DB}
    (t : tracker DB) (V : records) (b : block_data) (l : list string) (retry : nat) :
  on_top t V b l ->
  exists t', rollBackTipBlock (bd_hash b) (rec_of b) retry t = (Ok true, t')
    /\ holds (disk (db t')) V (bd_prev b) (bd_height b - 1)
    /\ same_utxos (live_outputs (dk (disk (db t')))) (live_outputs V)
    /\ win t' = set_lastBlocks l (win t) /\ stat t' = stat t.
Proof.
  intros Ht. destruct (run_rollBackTipBlock t V b l retry Ht) as (s' & E & Hd & _).
  eexists. split_and!; [exact E|exact Hd| |done|done].
  apply live_agree; [apply disk_hints_hash, Hd|exact (hd_records _ _ _ _ Hd)].
Qed.

Lemma tracker1_top : on_top tracker1 (committed block1 (dk disk0)) block2 [hx xb0; hx xb1].
Proof. exact (proj1 (chain_state_top tracker1 (dk disk0) (hx xb0) 100 [hx xb0] [block1] block2 tracker1_state)). Qed.

Lemma rollback_undoes_a_block_witness :
  exists t', rollBackTipBlock (hx xb2) (rec_of block2) 0 tracker1 = (Ok true, t')
    /\ holds (disk (db t')) (committed block1 (dk disk0)) (hx xb1) 101
    /\ same_utxos (live_outputs (dk (disk (db t')))) (live_outputs (committed block1 (dk disk0)))
    /\ win t' = set_lastBlocks [hx xb0; hx xb1] (win tracker1) /\ stat t' = stat tracker1.
Proof. exact (rollback_undoes_a_block tracker1 _ block2 [hx xb0; hx xb1] 0 tracker1_top). Defined.

(** C29 A rollback whose batch the database refuses leaves the disk as it was, with no
    batch open; the walk retries it, and the tenth refusal in a row is an error. *)
Theorem refused_rollback_changes_nothing {node : Node} {rpcs : NodeRpc} {DB : Type} `{LevelDbLaws DB}
    (t : tracker DB) (bhs : string) (l : list string) (lb : block_rec) (retry : nat) (fs : list bool) :
  is_hash bhs -> db_wf (disk (db t)) -> lastBlocks (win t) = l ++ [bhs] -> bhs ∉ l ->
  faults (db t) = true :: fs ->
  exists r t', rollBackTipBlock bhs lb retry t = (r, t')
    /\ disk (db t') = disk (db t) /\ transactionArray (db t') = None
    /\ (retry < 9 -> r = Ok false) /\ (9 <= retry -> exists e, r = Err e).
Proof.
  intros Hbh Hd Hl Hn Hf.
  destruct (run_rollBackTipBlock_refused t bhs l lb retry fs Hbh Hd Hl Hn Hf) as (t' & E & Hdk & Htx & _).
  do 2 eexists. split_and!; [exact E|done|done|..]; intros Hr; case_bool_decide; try lia; eauto.
Qed.

Definition tracker_faulty : tracker mapdb :=
  mkTracker (mkStore disk0 None None ∅ ∅ [true]) (store0 ∅) (window0 [hx xb0]) status0 0 "regtest".

Lemma refused_rollback_changes_nothing_witness :
  exists r t', rollBackTipBlock (hx xb0) (mkBlockRec 100 900 (hx xaf)) 3 tracker_faulty = (r, t')
    /\ disk (db t') = disk0 /\ transactionArray (db t') = None
    /\ (3 < 9 -> r = Ok false) /\ (9 <= 3 -> exists e, r = Err e).
Proof.
  apply (refused_rollback_changes_nothing tracker_faulty (hx xb0) [] (mkBlockRec 100 900 (hx xaf)) 3 []);
    [apply hx_is_hash|apply disk0_wf|done|apply not_elem_of_nil|done].
Defined.

(** The cleanup after a flush drops the recovery records of exactly the aged blocks:
    those listed as pending and not back in the window.  Every other record stays, the
    unspent outputs are untouched, and the list of pending blocks is gone from the disk
    and from memory. *)
Theorem cleanup_prunes_aged_blocks_only {node : Node} {rpcs : NodeRpc} {DB : Type} `{LevelDbLaws DB} (t : tracker DB) :
  let w := win t in
  pendingKMCleanup w <> [] -> (forall x, x ∈ pendingKMCleanup w -> is_hash x) ->
  db_wf (disk (db t)) -> commit_ok (db t) ->
  exists t', cleanupAgedBlocks t = (Ok tt, t')
    /\ win t' = set_pending [] w
    /\ dk (disk (db t')) (KMeta PENDING_CLEANUP) = None
    /\ (forall k, wf_key k -> k <> KMeta PENDING_CLEANUP ->
         dk (disk (db t')) k = None
         \/ dk (disk (db t')) k = dk (disk (db t)) k)
    /\ (forall k, wf_key k -> k <> KMeta PENDING_CLEANUP ->
         dk (disk (db t')) k <> dk (disk (db t)) k ->
         exists x, x ∈ pendingKMCleanup w /\ x ∉ lastBlocks w /\ index_of k = Some (h2b x))
    /\ (forall k x, wf_key k -> x ∈ pendingKMCleanup w -> x ∉ lastBlocks w -> index_of k = Some (h2b x) ->
         dk (disk (db t')) k = None)
    /\ same_utxos (live_outputs (dk (disk (db t')))) (live_outputs (dk (disk (db t)))).
Proof.
  intros w Hne Hh Hd Hc.
  destruct (run_cleanupAgedBlocks t Hne Hh Hd Hc) as (s' & E & Hv & Hd' & _).
  assert (Hp : forall k, wf_key k -> k <> KMeta PENDING_CLEANUP ->
    dk (disk s') k = pruned (h2b <$> blocksToClean (lastBlocks w) [] (pendingKMCleanup w)) (dk (disk (db t))) k).
  { intros k Hk Hn. by rewrite Hv, decide_False. }
  eexists. split; [exact E|]. change (db (set_win (set_pending [] (win t)) (set_db s' t))) with s'.
  split_and!.
  - done.
  - rewrite Hv by done. by rewrite decide_True.
  - intros k Hk Hn. rewrite Hp by done. unfold pruned.
    destruct (index_of k); [|by right]. case_decide; [by left|by right].
  - intros k Hk Hn. rewrite Hp by done. unfold pruned.
    destruct (index_of k) as [bh|]; [|done]. case_decide as Hin; [|done]. intros _.
    apply list_elem_of_fmap in Hin as (x & -> & (? & ? & _)%blocksToClean_spec). by exists x.
  - intros k x Hk Hx Hl Hi. rewrite Hp by (done || by intros ->). unfold pruned. rewrite Hi, decide_True; [done|].
    apply list_elem_of_fmap. exists x. split; [done|]. apply blocksToClean_spec. split_and!; [done|done|].
    apply not_elem_of_nil.
  - eapply transitivity; [apply live_agree|apply live_pruned]; [by apply disk_hints_hash|].
    intros k Hk Hm. apply Hp; [done|]. by intros ->.
Qed.

Definition tracker_aged : tracker mapdb :=
  mkTracker (store0 disk0) (store0 ∅) (set_pending [hx xb1; hx xb0; hx xb1] (window0 [hx xb0])) status0 0 "regtest".

Lemma cleanup_prunes_aged_blocks_only_witness :
  exists t', cleanupAgedBlocks tracker_aged = (Ok tt, t')
    /\ win t' = window0 [hx xb0]
    /\ dk (disk (db t')) (KMeta PENDING_CLEANUP) = None
    /\ same_utxos (live_outputs (dk (disk (db t')))) (live_outputs (dk disk0)).
Proof.
  destruct (cleanup_prunes_aged_blocks_only tracker_aged) as (t' & E & Hw & Hp & _ & _ & _ & Hu).
  - discriminate.
  - change (forall x, x ∈ [hx xb1; hx xb0; hx xb1] -> is_hash x). each_elem; apply hx_is_hash.
  - exact disk0_wf.
  - discriminate.
  - exact (ex_intro _ t' (conj E (conj Hw (conj Hp Hu)))).
Defined.
