(* ===== verification/ReorgTheorems.v ===== *)
(** How far a reorg walk may go.  The budget bounds the blocks a walk rolls back whatever
    the store and the node answer; a reorg deeper than the window is refused at its end;
    a node tip too far below the committed one is refused before anything is deleted;
    and a lower tip is believed only once the node has repeated it. *)

From S2P Require Import Prelude KeyCodec ValueCodec LevelDb Store Outputs StoreFacts.
From S2P Require Import Rollback Parsing Apply Spend Block Roundtrip Tracker Window Reorg SyncLoop.
From S2P Require Import Batch Undo Chain Forward Indexing Utxo Concrete ChainTheorems.
From stdpp Require Import gmap.

#[local] Open Scope string_scope.
#[local] Open Scope nat_scope.
#[local] Open Scope list_scope.

(** * Operations that leave the counters alone *)

Create HintDb keeps.

Section keeps.
Context {node : Node} {rpcs : NodeRpc} {DB : Type} `{LevelDb DB}.
Implicit Types (t : tracker DB).

Definition keeps {A} (m : M (tracker DB) A) : Prop := forall t, stat (m t).2 = stat t.

Lemma keeps_pure {A} (r : res A) : keeps (fun t => (r, t)).
Proof. done. Qed.

Lemma keeps_bind {A B} (m : M (tracker DB) A) (f : A -> M (tracker DB) B) :
  keeps m -> (forall a, keeps (f a)) -> keeps (m ≫= f).
Proof.
  intros Hm Hf t. unfold mbind, M_bind. specialize (Hm t). destruct (m t) as [[a|e] t']; [|done].
  cbn in Hm. by rewrite <- Hm, (Hf a t').
Qed.

Lemma keeps_try {A} (m : M (tracker DB) A) h : keeps m -> (forall e, keeps (h e)) -> keeps (try_catch m h).
Proof.
  intros Hm Hh t. unfold try_catch. specialize (Hm t). destruct (m t) as [[a|e] t']; [done|].
  cbn in Hm. by rewrite <- Hm, (Hh e t').
Qed.

Lemma keeps_on_db {A} (m : M (store DB) A) : keeps (on_db m).
Proof. intros t. unfold on_db. by destruct (m (db t)). Qed.

Lemma keeps_rpc {A} (f : nat -> res A) : keeps (rpc f).
Proof. done. Qed.

Lemma keeps_win f : keeps (modify_win f).
Proof. done. Qed.

Lemma keeps_when (b : bool) m : keeps m -> keeps (when b m).
Proof. intros Hm. by destruct b. Qed.

Lemma keeps_mapM {A B} (l : list A) (f : A -> M (tracker DB) B) : (forall a, keeps (f a)) -> keeps (mapM_list l f).
Proof.
  intros Hf. induction l as [|x l IH]; [done|]. cbn [mapM_list].
  apply keeps_bind; [done|]. intros b. by apply keeps_bind.
Qed.
End keeps.

#[export] Hint Resolve keeps_bind keeps_try keeps_on_db keeps_rpc keeps_win keeps_when keeps_mapM : keeps.
#[export] Hint Extern 1 (keeps (mret _)) => apply keeps_pure : keeps.
#[export] Hint Extern 1 (keeps (throw _)) => apply keeps_pure : keeps.
#[export] Hint Extern 1 (keeps (gets _)) => intros ?; reflexivity : keeps.

(** Goes through the binds, the branches and the handlers of a body. *)
Ltac keeps :=
  repeat first
    [ progress (eauto 3 with keeps; try done)
    | apply keeps_bind; [|intros ?]
    | apply keeps_try; [|intros ?]
    | match goal with |- keeps (if ?b then _ else _) => destruct b end
    | match goal with |- keeps (match ?x with _ => _ end) => destruct x end
    | progress cbv zeta ].

Section budget.
Context {node : Node} {rpcs : NodeRpc} {DB : Type} `{LevelDb DB}.
Implicit Types (t : tracker DB).

Lemma keeps_reload : keeps (DB:=DB) reloadLastBlocks.
Proof. unfold reloadLastBlocks, loadLastBlocksSortedByHeight, heightOf. keeps. Qed.

Lemma keeps_removeFromLastBlocks h : keeps (DB:=DB) (removeFromLastBlocks h).
Proof.
  pose proof keeps_reload. unfold removeFromLastBlocks, getw. keeps.
Qed.

Lemma keeps_rollBackTipBlock h lb n : keeps (DB:=DB) (rollBackTipBlock h lb n).
Proof.
  pose proof keeps_reload. pose proof (keeps_removeFromLastBlocks h).
  unfold rollBackTipBlock, rollBackBatch, swallow. keeps.
Qed.

Lemma keeps_readWalkTip : keeps (DB:=DB) readWalkTip.
Proof. unfold readWalkTip. keeps. Qed.

Lemma keeps_settleLoop r p n : keeps (DB:=DB) (settleLoop r p n).
Proof.
  revert p n. induction r as [|r IH]; intros p n; cbn [settleLoop]; [done|].
  pose proof keeps_readWalkTip. keeps.
Qed.

Lemma keeps_nodeBlockHashOrRetry h tip : keeps (DB:=DB) (nodeBlockHashOrRetry h tip).
Proof.
  pose proof keeps_readWalkTip. pose proof keeps_settleLoop.
  unfold nodeBlockHashOrRetry, refreshWalkTip, settleWalkTip. keeps.
Qed.

Lemma keeps_repair lb : keeps (DB:=DB) (repairLastBlockPointerFromScan lb).
Proof. unfold repairLastBlockPointerFromScan, commitLastBlockPointerRepair. keeps. Qed.

(** What a turn does to the count of rolled-back blocks. *)
Definition turn_counts (u : undo_window) (n : nat) t (r : res (option (nat * nat * option Z))) t' : Prop :=
  (exists n' retry tip, r = Ok (Some (n', retry, tip)) /\ n' = S n /\ (Z.of_nat n < budget u)%Z
     /\ reorgRollbacksThisProcess (stat t') = (reorgRollbacksThisProcess (stat t) + 1)%Z)
  \/ (stat t' = stat t /\ forall n' retry tip, r = Ok (Some (n', retry, tip)) -> n' = n).

Lemma turn_counts_kept u n t (m : M (tracker DB) (option (nat * nat * option Z))) :
  keeps m -> (forall t0 n' retry tip, (m t0).1 = Ok (Some (n', retry, tip)) -> n' = n) ->
  turn_counts u n t (m t).1 (m t).2.
Proof. intros Hm Hn. right. split; [apply Hm|]. apply Hn. Qed.

Lemma turn_counts_bind {A} u n t (m : M (tracker DB) A) f :
  keeps m -> (forall a t0, m t = (Ok a, t0) -> turn_counts u n t0 (f a t0).1 (f a t0).2) ->
  turn_counts u n t ((m ≫= f) t).1 ((m ≫= f) t).2.
Proof.
  intros Hm Hf. specialize (Hm t). unfold mbind, M_bind. destruct (m t) as [[a|e] t0]; cbn in Hm.
  - unfold turn_counts in *. rewrite <- Hm. by apply Hf.
  - right. split; [done|]. intros ? ? ? [=].
Qed.

Lemma walkStep_counts u n retry tip t :
  turn_counts u n t (walkStep u n retry tip t).1 (walkStep u n retry tip t).2.
Proof.
  assert (Hrep : forall t0 lb, turn_counts u n t0
    ((_ ← repairLastBlockPointerFromScan lb; mret (Some (n, retry, tip))) t0).1
    ((_ ← repairLastBlockPointerFromScan lb; mret (Some (n, retry, tip))) t0).2).
  { intros t0 lb. apply turn_counts_bind; [apply keeps_repair|]. intros a t1 _. right.
    split; [done|]. by intros ? ? ? [= ->]. }
  unfold walkStep.
  apply turn_counts_bind; [apply keeps_on_db|]. intros h t1 _.
  apply turn_counts_bind; [apply keeps_on_db|]. intros hash t2 _.
  apply turn_counts_bind; [apply keeps_on_db|]. intros [lb|] t3 _; [|apply Hrep].
  case_bool_decide; [|apply Hrep]. cbv zeta.
  apply turn_counts_bind; [unfold refuseAboveTipWalkPastBudget; keeps|]. intros _ t4 _.
  apply turn_counts_bind; [pose proof keeps_nodeBlockHashOrRetry; keeps|]. intros [tip'|nh] t5 _.
  { right. split; [done|]. by intros ? ? ? [= ->]. }
  destruct (_ || _); [|right; split; [done|]; intros ? ? ? [=]].
  apply turn_counts_bind; [unfold refuseRollbackPastWindow; keeps|]. intros [] t6 E.
  apply turn_counts_bind; [apply keeps_rollBackTipBlock|]. intros [|] t7 _; cbn [negb].
  - left. do 3 eexists. split_and!; [reflexivity|done| |done].
    unfold refuseRollbackPastWindow in E. repeat case_bool_decide; try discriminate E. lia.
  - right. split; [done|]. by intros ? ? ? [= ->].
Qed.

Lemma walkLoop_counts fuel u : forall n retry tip t,
  exists k, reorgRollbacksThisProcess (stat (walkLoop fuel u n retry tip t).2)
            = (reorgRollbacksThisProcess (stat t) + Z.of_nat k)%Z
    /\ (k = 0 \/ (Z.of_nat (n + k) <= budget u)%Z).
Proof.
  induction fuel as [|fuel IH]; intros n retry tip t; cbn [walkLoop].
  - exists 0. split; [cbn; lia|by left].
  - pose proof (walkStep_counts u n retry tip t) as Hs. unfold mbind, M_bind.
    destruct (walkStep u n retry tip t) as [[[[[n' retry'] tip']|]|e] t']; cbn [fst snd] in Hs.
    + destruct Hs as [(? & ? & ? & [= <- <- <-] & -> & Hb & Hr)|[Hst Hn]].
      * destruct (IH (S n) retry' tip' t') as (k & Ek & Hk). exists (S k). rewrite Ek, Hr. split; [lia|].
        right. destruct Hk as [->|]; lia.
      * rewrite (Hn _ _ _ eq_refl). rewrite <- Hst. apply IH.
    + destruct Hs as [(? & ? & ? & ? & _)|[Hst _]]; [done|]. exists 0. cbn. rewrite Hst. split; [lia|by left].
    + destruct Hs as [(? & ? & ? & ? & _)|[Hst _]]; [done|]. exists 0. cbn. rewrite Hst. split; [lia|by left].
Qed.
End budget.

(** C24 Whatever the store holds and the node answers, a walk rolls back no more blocks
    than the window holds, and no more than the undo depth, however it ends. *)
Theorem walk_stays_within_the_window {node : Node} {rpcs : NodeRpc} {DB : Type} `{LevelDb DB}
    (fuel : nat) (tip : option Z) (t : tracker DB) :
  let rolledBack := (reorgRollbacksThisProcess (stat (verifyReorg fuel tip t).2)
                     - reorgRollbacksThisProcess (stat t))%Z in
  (0 <= rolledBack)%Z
  /\ (rolledBack <= Z.of_nat (length (lastBlocks (win t))))%Z
  /\ (rolledBack <= Z.max 0 (undoBlocks (win t)))%Z.
Proof.
  intros rolledBack. subst rolledBack. set (u := rollbackBudget (win t) (reorgRollbacksThisProcess (stat t))).
  assert (Hb : (budget u <= Z.of_nat (length (lastBlocks (win t))) /\ budget u <= Z.max 0 (undoBlocks (win t)))%Z).
  { unfold u, rollbackBudget. cbn [budget]. case_bool_decide; lia. }
  destruct (walkLoop_counts fuel u 0 0 tip t) as (k & Ek & Hk).
  assert (E : reorgRollbacksThisProcess (stat (verifyReorg fuel tip t).2)
              = (reorgRollbacksThisProcess (stat t) + Z.of_nat k)%Z).
  { rewrite <- Ek. unfold verifyReorg, mbind, M_bind. cbn [get]. fold u.
    destruct (walkLoop fuel u 0 0 tip t) as [[[m|]|e] t']; [|done|done].
    unfold recordReorg, when. by case_bool_decide. }
  rewrite E. destruct Hk as [->|Hk]; lia.
Qed.

(** * Refusals *)

Section refusals.
Context {node : Node} {rpcs : NodeRpc} {DB : Type} `{LevelDbLaws DB}.
Implicit Types (t : tracker DB) (V : records).

(** The tip the store has, as the head of a turn reads it. *)
Record stored_tip V (hash : string) (h : Z) (lb : block_rec) : Prop := {
  st_hash : is_hash hash;
  st_height : u32 h;
  st_time : u32 (b_t lb);
  st_prev : is_hash (b_ph lb);
  st_rec : b_h lb = h;
  st_record : V (KBlock (h2b hash)) = Some (block_val h (b_t lb) (h2b (b_ph lb)));
}.

Lemma walkStep_reads u n retry tip t V hash h lb :
  holds (disk (db t)) V hash h -> stored_tip V hash h lb ->
  walkStep u n retry tip t
  = (let aboveNodeTip := above (Some h) tip in
     _ ← refuseAboveTipWalkPastBudget aboveNodeTip (default 0%Z tip) (b_h lb) n u;
     fromNode ← (if aboveNodeTip then mret (inr None)
                 else r ← nodeBlockHashOrRetry (b_h lb) tip;
                      mret (match r with inl tip => inl tip | inr h => inr (Some h) end));
     match fromNode with
     | inl walkTip' => mret (Some (n, retry, walkTip'))
     | inr blockHashFromNode =>
         if aboveNodeTip || negb (bool_decide (Some hash = blockHashFromNode)) then
           _ ← refuseRollbackPastWindow u n;
           done ← rollBackTipBlock hash lb retry;
           if negb done then mret (Some (n, S retry, tip))
           else
             m ← recordRolledBackBlock n;
             mret (Some (m, 0, tip))
         else mret None
     end) t.
Proof.
  intros Hd [Hh Hhh Htm Hph Hlb HV]. destruct lb as [h' tm ph]. cbn in *. subst h'.
  destruct (run_read_tip (db t) V hash h tm ph) as (Eh & Ehash & Eblk); try done.
  assert (Edb : set_db (db t) t = t) by by destruct t.
  unfold walkStep.
  rewrite (run_bind_ok _ _ _ _ _ (run_on_db_ok _ t _ _ Eh)), Edb.
  rewrite (run_bind_ok _ _ _ _ _ (run_on_db_ok _ t _ _ Ehash)), Edb. cbn [default].
  rewrite (run_bind_ok _ _ _ _ _ (run_on_db_ok _ t _ _ Eblk)), Edb. cbn [b_h].
  by rewrite bool_decide_eq_true_2.
Qed.

(** A block the node has not, at the end of the budget. *)
Lemma run_walkStep_refuse u n retry tip t V hash h lb x :
  holds (disk (db t)) V hash h -> stored_tip V hash h lb ->
  above (Some h) tip = false -> (forall m, rpc_getBlockHash m h = Ok x) -> x <> hash ->
  (budget u <= Z.of_nat n)%Z ->
  walkStep u n retry tip t = (Err reorgExceedsWindow, set_calls (S (calls t)) t).
Proof.
  intros Hd Hst Ha Hx Hne Hb. rewrite (walkStep_reads _ _ _ _ _ _ _ _ _ Hd Hst), Ha. cbv zeta.
  rewrite (run_bind_ok _ _ t tt t) by done.
  unfold nodeBlockHashOrRetry, try_catch, rpc, mbind, M_bind. rewrite (st_rec _ _ _ _ Hst), Hx.
  cbn [mret M_ret orb]. rewrite bool_decide_eq_false_2 by congruence. cbn [negb].
  unfold refuseRollbackPastWindow. by rewrite (bool_decide_eq_true_2 _ Hb), orb_true_r.
Qed.

(** The walk on a chain the node has none of, as deep as the budget. *)
Lemma run_walkLoop_deep node_hash u bs : forall t V0 hash0 h0 l0 lb n retry tip fuel,
  chain_state t V0 hash0 h0 l0 bs -> stored_tip V0 hash0 h0 lb ->
  node_serves node_hash h0 (tip_height h0 bs) -> above (Some (tip_height h0 bs)) tip = false ->
  node_hash h0 <> hash0 -> (forall b, b ∈ bs -> node_hash (bd_height b) <> bd_hash b) ->
  Z.of_nat (n + length bs) = budget u -> (bs <> [] -> windowAtEntry u <> 0%Z) -> length bs < fuel ->
  exists s' c, walkLoop fuel u n retry tip t = (Err reorgExceedsWindow, walked t s' l0 (length bs) c)
    /\ chain_state (walked t s' l0 (length bs) c) V0 hash0 h0 l0 [].
Proof.
  induction bs as [|b bs IH] using rev_ind; intros t V0 hash0 h0 l0 lb n retry tip fuel Ht Hst Hsv Ha Hne Hdis Hbud Hwin Hfuel.
  - destruct fuel as [|fuel]; [cbn in Hfuel; lia|]. cbn [walkLoop].
    unfold tip_height in *. cbn [length] in *. rewrite Z.add_0_r in *. rewrite Nat.add_0_r in Hbud.
    pose proof (cs_holds _ _ _ _ _ _ Ht) as Hd. unfold tip_height in Hd. cbn in Hd. rewrite Z.add_0_r in Hd.
    rewrite (run_bind_err _ _ _ _ _ (run_walkStep_refuse u n retry tip t V0 hash0 h0 lb (node_hash h0) Hd Hst Ha
      (fun m => Hsv m h0 ltac:(lia)) Hne ltac:(lia))).
    exists (db t), (S (calls t)).
    destruct Ht as [Hc Hl Hd' Hf Hw Hnd]. cbn in Hw. rewrite app_nil_r in Hw.
    assert (Et : set_calls (S (calls t)) t = walked t (db t) l0 0 (S (calls t))).
    { destruct t as [? ? [] [] ? ?]. cbn in *. subst. unfold walked, set_stat, set_calls, set_win, set_db, set_rollbacks.
      cbn. do 2 f_equal. lia. }
    rewrite <- Et. split; [done|]. split; try done. cbn. by rewrite app_nil_r.
  - destruct fuel as [|fuel]; [lia|]. cbn [walkLoop].
    destruct (chain_state_top t V0 hash0 h0 l0 bs b Ht) as (Htop & Hp & Hh).
    rewrite length_app in *. cbn [length] in *. rewrite tip_height_snoc in *.
    assert (Hh0 : (h0 <= tip_height h0 bs)%Z) by (unfold tip_height; lia).
    destruct (run_walkStep_back node_hash u t (chain_records V0 bs) b (l0 ++ (bd_hash <$> bs)) n retry tip)
      as (s1 & c1 & E1 & Hd1 & Hf1).
    + done.
    + intros m h Hmh. apply Hsv. lia.
    + right. apply Hdis, elem_of_app. right. by left.
    + lia.
    + apply Hwin. by destruct bs.
    + intros x -> Hx. unfold above in Ha. apply bool_decide_eq_false in Ha. lia.
    + rewrite (run_bind_ok _ _ _ _ _ E1).
      rewrite Hp, Hh in Hd1. replace (tip_height h0 bs + 1 - 1)%Z with (tip_height h0 bs) in Hd1 by lia.
      assert (Hf1' : faults s1 = []) by by rewrite Hf1, (cs_faults _ _ _ _ _ _ Ht).
      pose proof (chain_state_back t V0 hash0 h0 l0 bs b s1 c1 Ht Hd1 Hf1') as Ht1.
      destruct (IH _ V0 hash0 h0 l0 lb (S n) 0 tip fuel Ht1 Hst) as (s2 & c2 & E2 & Ht2).
      * intros m h Hmh. apply Hsv. lia.
      * destruct tip as [x|]; [|done]. unfold above in *. apply bool_decide_eq_false in Ha. apply bool_decide_eq_false. lia.
      * done.
      * intros c Hc. apply Hdis, elem_of_app. by left.
      * lia.
      * intros _. apply Hwin. by destruct bs.
      * lia.
      * exists s2, c2. rewrite walked_walked in E2, Ht2.
        replace (length bs + 1) with (1 + length bs) by lia. done.
Qed.
End refusals.

(** C25 A reorg deeper than the undo window is refused, and only once the window is spent:
    the walk rolls back every block the window allows and throws before the first one
    beyond it, the store left on that block with the records as they were when it was
    the tip, and no reorg counted. *)
Theorem deep_reorg_stops_at_the_window {node : Node} {rpcs : NodeRpc} {DB : Type} `{LevelDbLaws DB}
    (node_hash : Z -> string) (t : tracker DB) (V0 : records) (hash0 : string) (h0 : Z) (l0 : list string)
    (lb : block_rec) (bs : list block_data) (tip : option Z) (fuel : nat) :
  chain_state t V0 hash0 h0 l0 bs -> stored_tip V0 hash0 h0 lb ->
  node_serves node_hash h0 (tip_height h0 bs) -> above (Some (tip_height h0 bs)) tip = false ->
  node_hash h0 <> hash0 -> (forall b, b ∈ bs -> node_hash (bd_height b) <> bd_hash b) ->
  Z.of_nat (length bs) = Z.min (Z.of_nat (length (lastBlocks (win t)))) (undoBlocks (win t)) ->
  length bs < fuel ->
  exists t', verifyReorg fuel tip t = (Err reorgExceedsWindow, t')
    /\ holds (disk (db t')) V0 hash0 h0 /\ win t' = set_lastBlocks l0 (win t)
    /\ reorgRollbacksThisProcess (stat t') = (reorgRollbacksThisProcess (stat t) + Z.of_nat (length bs))%Z
    /\ reorgCount (stat t') = reorgCount (stat t).
Proof.
  intros Ht Hst Hsv Ha Hne Hdis Hdepth Hfuel.
  set (u := rollbackBudget (win t) (reorgRollbacksThisProcess (stat t))).
  assert (Hu : budget u = Z.of_nat (length bs)).
  { unfold u, rollbackBudget. cbn [budget]. case_bool_decide; lia. }
  assert (Hlen : length (lastBlocks (win t)) = length l0 + length bs)
    by by rewrite (cs_window _ _ _ _ _ _ Ht), length_app, length_fmap.
  destruct (run_walkLoop_deep node_hash u bs t V0 hash0 h0 l0 lb 0 0 tip fuel) as (s' & c & E & Ht'); try done.
  - intros Hbs. unfold u, rollbackBudget. cbn [windowAtEntry]. rewrite Hlen. destruct bs; [done|cbn; lia].
  - exists (walked t s' l0 (length bs) c). pose proof (cs_holds _ _ _ _ _ _ Ht') as Hd.
    unfold tip_height, tip_hash in Hd. cbn [length] in Hd. rewrite Z.add_0_r in Hd.
    split_and!; [|done|done|done|done].
    unfold verifyReorg. rewrite (run_bind_ok _ _ t t t) by done. fold u. cbv zeta. by rewrite (run_bind_err _ _ _ _ _ E).
Qed.

(** A node on another chain altogether, and the tracker with the stored block aged out
    of its window. *)
Definition foreign_chain (_ : Z) : string := hx xc1.

Definition rpc_foreign : NodeRpc := {|
  rpc_getBlockHash _ h := Ok (foreign_chain h);
  rpc_getBlockchainInfo _ := Ok None;
|}.

Definition tracker1_short : tracker mapdb :=
  set_win (set_lastBlocks [hx xb1; hx xb2] (win tracker1)) tracker1.

(** The blocks before the chain may leave the window. *)
Lemma chain_state_short {node : Node} {DB : Type} `{LevelDbLaws DB} (t : tracker DB) V0 hash0 h0 l0 bs :
  chain_state t V0 hash0 h0 l0 bs ->
  chain_state (set_win (set_lastBlocks (bd_hash <$> bs) (win t)) t) V0 hash0 h0 [] bs.
Proof.
  intros [Hc Hl Hd Hf Hw Hnd]. split; try done. cbn. rewrite Hw in Hnd. by apply NoDup_app in Hnd as (_ & _ & ?).
Qed.

Lemma tracker1_short_state : chain_state tracker1_short (dk disk0) (hx xb0) 100 [] [block1; block2].
Proof. exact (chain_state_short tracker1 _ _ _ _ _ tracker1_state). Qed.

Lemma stored0 : stored_tip (dk disk0) (hx xb0) 100 (mkBlockRec 100 900 (hx xaf)).
Proof. split; try apply hx_is_hash; by vm_compute. Qed.

Lemma deep_reorg_stops_at_the_window_witness :
  exists t', verifyReorg (rpcs := rpc_foreign) 3 None tracker1_short = (Err reorgExceedsWindow, t')
    /\ holds (disk (db t')) (dk disk0) (hx xb0) 100 /\ win t' = set_lastBlocks [] (win tracker1_short)
    /\ reorgRollbacksThisProcess (stat t') = (reorgRollbacksThisProcess (stat tracker1_short) + 2)%Z
    /\ reorgCount (stat t') = reorgCount (stat tracker1_short).
Proof.
  apply (deep_reorg_stops_at_the_window (rpcs := rpc_foreign) foreign_chain tracker1_short (dk disk0) (hx xb0) 100 []
           (mkBlockRec 100 900 (hx xaf)) [block1; block2] None 3 tracker1_short_state stored0).
  - intros n h Hh. reflexivity.
  - reflexivity.
  - by vm_compute.
  - each_elem; by vm_compute.
  - unfold tracker1_short. cbn [set_win win set_lastBlocks lastBlocks undoBlocks]. by rewrite tracker1_undo.
  - cbn. lia.
Defined.

(** A node tip further below the committed tip than the window reaches is refused
    before anything is deleted: the tracker is as it was. *)
Theorem tip_far_below_deletes_nothing {node : Node} {rpcs : NodeRpc} {DB : Type} `{LevelDbLaws DB}
    (t : tracker DB) (V : records) (hash : string) (h : Z) (lb : block_rec) (x : Z) (fuel : nat) :
  holds (disk (db t)) V hash h -> stored_tip V hash h lb ->
  (x < h)%Z -> (Z.min (Z.of_nat (length (lastBlocks (win t)))) (undoBlocks (win t)) < h - x)%Z ->
  (0 <= undoBlocks (win t))%Z -> 0 < fuel ->
  verifyReorg fuel (Some x) t = (Err tipBelowCommitted, t).
Proof.
  intros Hd Hst Hx Hb Hu Hfuel. destruct fuel as [|fuel]; [lia|].
  unfold verifyReorg. rewrite (run_bind_ok _ _ t t t) by done. cbv zeta. cbn [walkLoop].
  set (u := rollbackBudget _ _).
  assert (Hbu : (budget u < h - x)%Z) by (unfold u, rollbackBudget; cbn [budget]; case_bool_decide; lia).
  assert (E : walkStep u 0 0 (Some x) t = (Err tipBelowCommitted, t)).
  { rewrite (walkStep_reads _ _ _ _ _ _ _ _ _ Hd Hst). cbv zeta.
    unfold above. rewrite bool_decide_eq_true_2 by done. cbn [default].
    unfold refuseAboveTipWalkPastBudget. rewrite (st_rec _ _ _ _ Hst).
    rewrite bool_decide_eq_true_2 by (unfold id; lia). done. }
  unfold mbind at 1, M_bind at 1. unfold mbind at 1, M_bind at 1. by rewrite E.
Qed.

Lemma tip_far_below_deletes_nothing_witness :
  verifyReorg 1 (Some 90%Z) tracker0 = (Err tipBelowCommitted, tracker0).
Proof.
  apply (tip_far_below_deletes_nothing tracker0 (dk disk0) (hx xb0) 100 (mkBlockRec 100 900 (hx xaf)) 90 1).
  - split; [apply disk0_wf|done|by vm_compute|by vm_compute].
  - apply stored0.
  - lia.
  - by vm_compute.
  - by vm_compute.
  - lia.
Defined.

(** * A lower tip is repeated before it is believed *)

Section settle.
Context {node : Node} {rpcs : NodeRpc} {DB : Type} `{LevelDb DB}.
Implicit Types (t : tracker DB).

(** Call [n] reads a usable tip [x]. *)
Definition reads_tip (net : string) (n : nat) (x : option Z) : Prop :=
  exists i, rpc_getBlockchainInfo n = Ok (Some i) /\ i_blocks i = x
    /\ nodeTipIsParseable (Some i) net = true /\ nodeStillCatchingUp (Some i) = false.

Lemma run_readWalkTip t :
  exists r, readWalkTip t = (Ok r, set_calls (S (calls t)) t)
    /\ (forall x, r = Some x -> reads_tip (consensusNetwork t) (calls t) (Some x)).
Proof.
  unfold readWalkTip, gets, try_catch, rpc, mbind, M_bind, mret, M_ret.
  destruct (rpc_getBlockchainInfo (calls t)) as [[i|]|e] eqn:E; try (eexists; split; [done|by intros x [=]]).
  destruct (i_blocks i) as [b|] eqn:Eb; [|eexists; split; [done|by intros x [=]]].
  destruct (nodeTipIsParseable (Some i) (consensusNetwork t)) eqn:Ep; [|eexists; split; [done|by intros x [=]]].
  destruct (nodeStillCatchingUp (Some i)) eqn:Ec; (eexists; split; [done|]); [by intros x [=]|].
  intros x [= ->]. by exists i.
Qed.

(** [k] calls in a row, ending before call [n], read [x]. *)
Definition steady (net : string) (n k : nat) (x : option Z) : Prop :=
  forall i, n - k <= i < n -> reads_tip net i x.

Lemma steady_0 net n x : steady net n 0 x.
Proof. intros i Hi. lia. Qed.

Lemma steady_S net n k x : k <= n -> steady net n k x -> reads_tip net n x -> steady net (S n) (S k) x.
Proof. intros Hk Hs Hr i Hi. destruct (decide (i = n)) as [->|]; [done|]. apply Hs. lia. Qed.

Lemma run_settleLoop reads : forall previous k t r t',
  k <= calls t -> steady (consensusNetwork t) (calls t) k (Some previous) ->
  settleLoop reads previous k t = (r, t') ->
  exists c, t' = set_calls c t /\ c <= calls t + reads
    /\ exists o, r = Ok o
    /\ forall x, o = Some x -> TIP_SETTLE_STABLE_READS <= c /\ steady (consensusNetwork t) c TIP_SETTLE_STABLE_READS (Some x).
Proof.
  induction reads as [|reads IH]; intros previous k t r t' Hk Hs; cbn [settleLoop].
  - intros [= <- <-]. exists (calls t). split_and!; [by destruct t|lia|]. by exists None.
  - destruct (run_readWalkTip t) as (o & E & Ho). unfold mbind at 1, M_bind at 1. rewrite E.
    destruct o as [tip|].
    2:{ intros [= <- <-]. exists (S (calls t)). split_and!; [done|lia|]. by exists None. }
    pose proof (Ho tip eq_refl) as Hr. set (t1 := set_calls _ t).
    case_bool_decide as Ht.
    + subst tip. case_bool_decide as Hst.
      * intros [= <- <-]. exists (S (calls t)). split_and!; [done|lia|]. eexists. split; [done|].
        intros x [= <-]. rewrite <- Hst. split; [lia|]. by apply steady_S.
      * intros Hrun. destruct (IH previous (S k) t1 r t') as (c & -> & Hc & Hp).
        { cbn. lia. } { by apply steady_S. } { done. }
        exists c. split_and!; [by destruct t|cbn in Hc; lia|done].
    + intros Hrun. destruct (IH tip 0 t1 r t') as (c & -> & Hc & Hp).
      { lia. } { apply steady_0. } { done. }
      exists c. split_and!; [by destruct t|cbn in Hc; lia|done].
Qed.

Lemma run_info t :
  try_catch (i ← rpc rpc_getBlockchainInfo; mret (Some i)) (fun _ => mret None) t
  = (Ok (match rpc_getBlockchainInfo (calls t) with Ok i => Some i | Err _ => None end), set_calls (S (calls t)) t).
Proof. unfold try_catch, rpc, mbind, M_bind, mret, M_ret. by destruct (rpc_getBlockchainInfo (calls t)). Qed.

(** What the loop's settling ends with. *)
Definition settled_below (ourHeight : Z) (most : nat) t (r : res (bool * option chain_info)) t' : Prop :=
  exists b i, r = Ok (b, i) /\ calls t' <= most /\ db t' = db t /\ win t' = win t
    /\ (b = true -> exists x, (x < ourHeight)%Z /\ blockchainInfoLastBlock (stat t') = Some x
         /\ TIP_SETTLE_STABLE_READS <= calls t'
         /\ steady (consensusNetwork t) (calls t') TIP_SETTLE_STABLE_READS (Some x)).

Lemma run_settleBelowLoop reads : forall ourHeight previous k t r t',
  k <= calls t -> steady (consensusNetwork t) (calls t) k previous ->
  settleBelowLoop reads ourHeight previous k t = (r, t') ->
  settled_below ourHeight (calls t + reads) t r t'.
Proof.
  induction reads as [|reads IH]; intros our previous k t r t' Hk Hs; cbn [settleBelowLoop].
  - intros [= <- <-]. exists false, None. split_and!; try done. lia.
  - rewrite (run_bind_ok _ _ t (consensusNetwork t) t) by done.
    rewrite (run_bind_ok _ _ _ _ _ (run_info t)). set (t1 := set_calls _ t).
    assert (Hnone : forall r t', (Ok (false, None : option chain_info), t1) = (r, t') ->
      settled_below our (calls t + S reads) t r t').
    { intros r0 t0 [= <- <-]. exists false, None. split_and!; try done. cbn. lia. }
    assert (Hnext : forall t'', settled_below our (calls t1 + reads) t1 r t'' ->
      settled_below our (calls t + S reads) t r t'').
    { intros t'' (b & j & Hr & Hc & Hp). exists b, j. cbn in Hc. split_and!; [done|lia|apply Hp..]. }
    destruct (rpc_getBlockchainInfo (calls t)) as [[i|]|e] eqn:E; [|apply Hnone..].
    destruct (nodeTipIsParseable (Some i) (consensusNetwork t)) eqn:Ep; [|apply Hnone].
    destruct (nodeStillCatchingUp (Some i)) eqn:Ec; [apply Hnone|].
    change (negb true || false) with false. cbv iota.
    assert (Hr : reads_tip (consensusNetwork t) (calls t) (i_blocks i)) by by exists i.
    case_bool_decide as Ht.
    + subst previous. case_bool_decide as Hst.
      * intros [= <- <-]. do 2 eexists. split; [done|]. split_and!; [cbn; lia|done|done|].
        intros Hb. destruct (i_blocks i) as [x|] eqn:Ex; [|done]. exists x.
        split_and!; [by apply bool_decide_eq_true in Hb|done|cbn; lia|].
        rewrite <- Hst. by apply steady_S.
      * intros Hrun. apply Hnext, (IH our (i_blocks i) (S k)); [cbn; lia|by apply steady_S|done].
    + intros Hrun. apply Hnext, (IH our (i_blocks i) 0); [lia|apply steady_0|done].
Qed.
End settle.

(** The loop rolls back for a tip below its own only after the node has repeated it:
    the verdict is positive only when the last five replies were usable and named the
    same height, one below ours; it comes within ten calls and touches neither the store
    nor the window. *)
Theorem lower_tip_is_repeated {node : Node} {rpcs : NodeRpc} {DB : Type} `{LevelDb DB}
    (t : tracker DB) (ourHeight : Z) :
  exists below reply t', settleNodeTipBelow ourHeight t = (Ok (below, reply), t')
    /\ calls t' <= calls t + 10 /\ db t' = db t /\ win t' = win t
    /\ (below = true -> exists x, (x < ourHeight)%Z /\ blockchainInfoLastBlock (stat t') = Some x
         /\ 5 <= calls t' /\ steady (consensusNetwork t) (calls t') 5 (Some x)).
Proof.
  unfold settleNodeTipBelow, gets. unfold mbind, M_bind.
  destruct (settleBelowLoop TIP_SETTLE_MAX_READS ourHeight (blockchainInfoLastBlock (stat t)) 0 t) as [r t'] eqn:E.
  apply run_settleBelowLoop in E as (b & i & -> & Hp); [|lia|apply steady_0]. by exists b, i, t'.
Qed.

(** A walk lowers its tip only to a height the node has repeated: the settled tip is
    the one of the last five replies, and the reads leave the tracker alone. *)
Theorem walk_tip_is_repeated {node : Node} {rpcs : NodeRpc} {DB : Type} `{LevelDb DB} (t : tracker DB) (first : Z) :
  exists o c, settleWalkTip first t = (Ok o, set_calls c t) /\ c <= calls t + 10
    /\ forall x, o = Some x -> 5 <= c /\ steady (consensusNetwork t) c 5 (Some x).
Proof.
  destruct (settleWalkTip first t) as [r t'] eqn:E.
  apply run_settleLoop in E as (c & -> & Hc & o & -> & Hp); [|lia|apply steady_0]. by exists o, c.
Qed.
