(* ===== verification/WindowTheorems.v ===== *)
(** The undo window: what adding a block to it does, the order it is loaded in, and the
    list of blocks awaiting cleanup across a restart. *)

From S2P Require Import Prelude KeyCodec ValueCodec LevelDb Store Outputs StoreFacts.
From S2P Require Import Rollback Parsing Apply Spend Block Roundtrip Tracker Window Reorg SyncLoop.
From S2P Require Import Batch Undo Chain Concrete.
From S2P Require Startup.
From stdpp Require Import gmap sorting.

#[local] Open Scope string_scope.
#[local] Open Scope nat_scope.
#[local] Open Scope list_scope.

(** Adding a block slides the window: it ends with the block, holds at most
    [undoBlocks] blocks, drops only its oldest ones, which join the blocks awaiting
    cleanup in order, and its high-water mark never goes down. *)
Theorem adding_a_block_slides_the_window {node : Node} {DB : Type} `{LevelDbLaws DB} (h : string) (t : tracker DB) :
  is_hash h -> in_batch (db t) -> is_Some (deletedTransactionArray (db t)) -> (0 < undoBlocks (win t))%Z ->
  exists t' old, addToLastBlocks h t = (Ok tt, t')
    /\ lastBlocks (win t) ++ [h] = old ++ lastBlocks (win t')
    /\ pendingKMCleanup (win t') = pendingKMCleanup (win t) ++ old
    /\ last (lastBlocks (win t')) = Some h
    /\ Z.of_nat (length (lastBlocks (win t')))
       = Z.min (Z.of_nat (length (lastBlocks (win t))) + 1) (undoBlocks (win t))
    /\ (undoWindowWatermark (win t) <= undoWindowWatermark (win t'))%Z
    /\ (Z.of_nat (length (lastBlocks (win t'))) <= undoWindowWatermark (win t'))%Z
    /\ disk (db t') = disk (db t).
Proof.
  intros Hh Hb Hd Hu. destruct (run_addToLastBlocks h t Hh Hb Hd ltac:(lia)) as [dt E].
  set (l := lastBlocks (win t) ++ [h]). set (n := aged (undoBlocks (win t)) l).
  assert (Hl : length l = S (length (lastBlocks (win t)))) by (unfold l; rewrite length_app; cbn; lia).
  assert (Hlen : length (drop n l) = Nat.min (S (length (lastBlocks (win t)))) (Z.to_nat (undoBlocks (win t)))).
  { rewrite length_drop. unfold n, aged. lia. }
  assert (Hn : n < length l) by (unfold n, aged; lia).
  eexists _, (take n l). split; [exact E|].
  cbn [set_win win db set_db window_after lastBlocks pendingKMCleanup undoWindowWatermark].
  change (lastBlocks (window_after h (win t))) with (drop n l).
  change (pendingKMCleanup (window_after h (win t))) with (pendingKMCleanup (win t) ++ take n l).
  split_and!.
  - symmetry. apply take_drop.
  - done.
  - change (last (drop n (lastBlocks (win t) ++ [h])) = Some h). rewrite drop_app_le by lia. apply last_snoc.
  - change (Z.of_nat (length (drop n l)) = Z.min (Z.of_nat (length (lastBlocks (win t))) + 1) (undoBlocks (win t))).
    rewrite Hlen. lia.
  - lia.
  - change (Z.of_nat (length (drop n l))
      <= Z.max (undoWindowWatermark (win t)) (Z.min (Z.of_nat (length (drop n l))) (undoBlocks (win t))))%Z.
    rewrite Hlen. lia.
  - apply disk_stage.
Qed.

Definition batch_tracker : tracker mapdb := set_db (opened (store0 disk0)) tracker0.

Lemma adding_a_block_slides_the_window_witness :
  exists t' old, addToLastBlocks (hx xb1) (set_win (mkWindow [hx xaf; hx xb0] [] 2 2 None) batch_tracker) = (Ok tt, t')
    /\ [hx xaf; hx xb0; hx xb1] = old ++ lastBlocks (win t')
    /\ last (lastBlocks (win t')) = Some (hx xb1)
    /\ Z.of_nat (length (lastBlocks (win t'))) = 2%Z.
Proof.
  destruct (adding_a_block_slides_the_window (hx xb1) (set_win (mkWindow [hx xaf; hx xb0] [] 2 2 None) batch_tracker))
    as (t' & old & E & Hs & _ & Hl & Hn & _).
  - apply hx_is_hash.
  - apply in_batch_begin.
  - by eexists.
  - reflexivity.
  - exact (ex_intro _ t' (ex_intro _ old (conj E (conj Hs (conj Hl Hn))))).
Defined.

(** * The order of the window *)

Definition by_height (a b : string * Z) : Prop := (a.2 <= b.2)%Z.

Lemma insert_by_height_perm x l : insert_by_height x l ≡ₚ x :: l.
Proof.
  induction l as [|y l IH]; cbn [insert_by_height]; [done|]. case_bool_decide; [done|].
  rewrite IH. apply perm_swap.
Qed.

Lemma sort_by_height_perm l : sort_by_height l ≡ₚ l.
Proof. induction l as [|x l IH]; [done|]. cbn. rewrite insert_by_height_perm. by constructor. Qed.

Lemma insert_by_height_sorted x l : StronglySorted by_height l -> StronglySorted by_height (insert_by_height x l).
Proof.
  induction 1 as [|y l Hs IH Hy]; cbn [insert_by_height]; [by repeat constructor|].
  case_bool_decide as Hle.
  - constructor; [by constructor|]. constructor; [done|]. eapply Forall_impl; [done|].
    intros z Hz. unfold by_height in *. lia.
  - constructor; [done|]. rewrite insert_by_height_perm. constructor; [|done]. unfold by_height. lia.
Qed.

Lemma sort_by_height_sorted l : StronglySorted by_height (sort_by_height l).
Proof. induction l as [|x l IH]; [constructor|]. by apply insert_by_height_sorted. Qed.

(** Two lists sorted by distinct heights with the same elements are one. *)
Lemma by_height_unique l l' :
  StronglySorted (fun a b : string * Z => (a.2 < b.2)%Z) l -> StronglySorted by_height l' -> l' ≡ₚ l -> l' = l.
Proof.
  intros Hs. revert l'. induction Hs as [|x l Hs IH Hx]; intros l' Hs' Hp.
  - by apply Permutation_nil_r in Hp.
  - inversion Hs' as [|y r Hr Hy E1]; subst; [by apply Permutation_nil_cons in Hp|].
    assert (y = x) as ->.
    { assert (Hin : y ∈ x :: l) by (rewrite <- Hp; by left).
      apply elem_of_cons in Hin as [->|Hin]; [done|]. exfalso.
      rewrite Forall_forall in Hx, Hy. specialize (Hx y Hin).
      assert (Hin' : x ∈ y :: r) by (rewrite Hp; by left).
      apply elem_of_cons in Hin' as [->|Hin']; [lia|]. specialize (Hy x Hin'). unfold by_height in Hy. lia. }
    f_equal. apply IH; [done|]. by apply Permutation_cons_inv in Hp.
Qed.

Section load.
Context {node : Node} {DB : Type} `{LevelDbLaws DB}.
Implicit Types (t : tracker DB).

(** The block [x] is stored at height [h]. *)
Definition stored_at (d : DB) (x : string) (h : Z) : Prop :=
  is_hash x /\ exists tm ph, u32 h /\ u32 tm /\ is_hash ph
    /\ dk d (KBlock (h2b x)) = Some (block_val h tm (h2b ph)).

Lemma run_heightOf t x h : stored_at (disk (db t)) x h -> heightOf x t = (Ok (x, h), t).
Proof.
  intros (Hx & tm & ph & Hh & Htm & Hph & E). unfold heightOf.
  rewrite (run_bind_ok _ _ _ _ _ (run_on_db_ok _ t _ _ (run_getBlock (db t) x h tm ph Hx Hh Htm Hph E))).
  by destruct t.
Qed.

Lemma run_heights t (l : list (string * Z)) :
  (forall x h, (x, h) ∈ l -> stored_at (disk (db t)) x h) -> mapM_list l.*1 heightOf t = (Ok l, t).
Proof.
  induction l as [|[x h] l IH]; intros Hl; [done|]. cbn [fmap list_fmap mapM_list fst].
  rewrite (run_bind_ok _ _ _ _ _ (run_heightOf t x h ltac:(apply Hl; by left))).
  rewrite (run_bind_ok _ _ _ _ _ (IH ltac:(intros; apply Hl; by right))). done.
Qed.

(** The list the stored-block scan yields. *)
Definition stored_hashes (d : DB) : list string :=
  (fun e => b2h (drop 1 e.1)) <$> prefix_scan d (pb P_STORED_BLK).

Lemma stored_hashes_spec (d : DB) x :
  db_wf d -> x ∈ stored_hashes d <-> is_hash x /\ is_Some (dk d (KStoredBlk (h2b x))).
Proof.
  intros Hd. unfold stored_hashes. rewrite list_elem_of_fmap. split.
  - intros ([b v] & -> & (k & -> & Hk & _ & E & Hp)%elem_of_scan); [|done].
    apply prefix_stored_blk in Hp as [bh ->]; [|done]. cbn [fst enc app drop].
    rewrite h2b_b2h. split; [by apply b2h_is_hash|by exists v].
  - intros [Hx [v E]]. pose proof (h2b_hash32 x Hx) as H32. exists (enc (KStoredBlk (h2b x)), v). split.
    + change (x = b2h (drop 0 (h2b x))). by rewrite drop_0, b2h_h2b.
    + apply elem_of_scan; [done|]. exists (KStoredBlk (h2b x)). split_and!; try done. by exists (h2b x).
Qed.

Lemma stored_hashes_NoDup (d : DB) : db_wf d -> NoDup (stored_hashes d).
Proof.
  intros Hd. unfold stored_hashes. apply NoDup_fmap_2_strong.
  - intros [b v] [b' v'] (k & -> & Hk & _ & E & Hp)%elem_of_scan (k' & -> & Hk' & _ & E' & Hp')%elem_of_scan;
      [|done..].
    apply prefix_stored_blk in Hp as [bh ->]; [|done]. apply prefix_stored_blk in Hp' as [bh' ->]; [|done].
    cbn [fst enc app drop]. intros Eb. apply (f_equal h2b) in Eb. rewrite !h2b_b2h, !drop_0 in Eb. subst bh'.
    rewrite E in E'. by injection E' as ->.
  - by eapply NoDup_fmap_1, NoDup_prefix_scan.
Qed.
(** Stored blocks with their heights, as the scan meets them. *)
Lemma with_heights (d : DB) xs :
  (forall x, x ∈ xs -> exists h, stored_at d x h) ->
  exists L, L.*1 = xs /\ forall x h, (x, h) ∈ L -> stored_at d x h.
Proof.
  induction xs as [|x xs IH]; intros Hx; [exists []; split; [done|]; intros ? ? []%elem_of_nil|].
  destruct (Hx x ltac:(by left)) as [h Hh]. destruct IH as (L & E & HL); [intros y Hy; apply Hx; by right|].
  exists ((x, h) :: L). split; [by rewrite fmap_cons, E|].
  intros y k [[= -> ->]|Hin]%elem_of_cons; [done|by apply HL].
Qed.

Lemma run_load t :
  (forall x, x ∈ stored_hashes (disk (db t)) -> exists h, stored_at (disk (db t)) x h) ->
  exists L, loadLastBlocksSortedByHeight t = (Ok L.*1, t)
    /\ L.*1 ≡ₚ stored_hashes (disk (db t)) /\ StronglySorted by_height L
    /\ forall x h, (x, h) ∈ L -> stored_at (disk (db t)) x h.
Proof.
  intros Hs. destruct (with_heights _ _ Hs) as (L & EL & HL).
  exists (sort_by_height L). split_and!.
  - unfold loadLastBlocksSortedByHeight.
    assert (E : on_db getLastStoredBlocks t = (Ok (stored_hashes (disk (db t))), t)) by by destruct t.
    rewrite (run_bind_ok _ _ _ _ _ E). rewrite <- EL.
    by rewrite (run_bind_ok _ _ _ _ _ (run_heights t L HL)).
  - rewrite <- EL. by rewrite sort_by_height_perm.
  - apply sort_by_height_sorted.
  - intros x h. rewrite sort_by_height_perm. apply HL.
Qed.

(** With distinct heights there is one such order. *)
Lemma run_load_unique t (L : list (string * Z)) :
  L.*1 ≡ₚ stored_hashes (disk (db t)) ->
  (forall x h, (x, h) ∈ L -> stored_at (disk (db t)) x h) ->
  StronglySorted (fun a b : string * Z => (a.2 < b.2)%Z) L ->
  loadLastBlocksSortedByHeight t = (Ok L.*1, t).
Proof.
  intros Hp HL Hs. unfold loadLastBlocksSortedByHeight.
  assert (E : on_db getLastStoredBlocks t = (Ok (stored_hashes (disk (db t))), t)) by by destruct t.
  rewrite (run_bind_ok _ _ _ _ _ E). symmetry in Hp.
  apply Permutation_map_inv in Hp as (L' & -> & Hp).
  change (List.map fst L') with L'.*1.
  rewrite (run_bind_ok _ _ _ _ _ (run_heights t L' ltac:(intros x h; rewrite <- Hp; apply HL))).
  rewrite (by_height_unique L (sort_by_height L')); [done|done|apply sort_by_height_sorted|].
  by rewrite sort_by_height_perm, <- Hp.
Qed.
End load.

(** Loading the window finds exactly the blocks the store lists, each once, in
    ascending order of height, and changes nothing. *)
Theorem loading_sorts_the_window {node : Node} {DB : Type} `{LevelDbLaws DB} (t : tracker DB) :
  db_wf (disk (db t)) ->
  (forall x, is_hash x -> is_Some (dk (disk (db t)) (KStoredBlk (h2b x))) -> exists h, stored_at (disk (db t)) x h) ->
  exists L : list (string * Z), loadLastBlocksSortedByHeight t = (Ok L.*1, t)
    /\ (forall x, x ∈ L.*1 <-> is_hash x /\ is_Some (dk (disk (db t)) (KStoredBlk (h2b x))))
    /\ NoDup L.*1
    /\ StronglySorted (fun a b => (a.2 <= b.2)%Z) L
    /\ forall x h, (x, h) ∈ L -> stored_at (disk (db t)) x h.
Proof.
  intros Hd Hs. destruct (run_load t) as (L & E & Hp & Hsort & HL).
  { intros x [Hx Hst]%stored_hashes_spec; [|done]. by apply Hs. }
  exists L. split_and!; [done| | |exact Hsort|exact HL].
  - intros x. rewrite Hp. by apply stored_hashes_spec.
  - rewrite Hp. by apply stored_hashes_NoDup.
Qed.

Lemma stored0_at : stored_at disk0 (hx xb0) 100.
Proof.
  split; [apply hx_is_hash|]. exists 900%Z, (hx xaf).
  split_and!; [by vm_compute|by vm_compute|apply hx_is_hash|by vm_compute].
Qed.

(** The one block [disk0] lists. *)
Lemma disk0_stored x : is_hash x -> is_Some (dk disk0 (KStoredBlk (h2b x))) -> x = hx xb0.
Proof.
  intros Hx [v E]. apply disk0_record in E; [|by apply h2b_hash32]. unfold genesis in E.
  assert (Ex : h2b x = raw xb0).
  { apply elem_of_cons in E as [E|E]; [discriminate E|].
    apply elem_of_cons in E as [E|E]; [by injection E|].
    repeat (apply elem_of_cons in E as [E|E]; [discriminate E|]). by apply elem_of_nil in E. }
  rewrite <- (h2b_hx xb0) in Ex. by apply h2b_inj in Ex; [|done|apply hx_is_hash].
Qed.

Lemma loading_sorts_the_window_witness :
  exists L : list (string * Z), loadLastBlocksSortedByHeight tracker0 = (Ok L.*1, tracker0)
    /\ forall x h, (x, h) ∈ L -> stored_at disk0 x h.
Proof.
  destruct (loading_sorts_the_window tracker0) as (L & E & _ & _ & _ & HL).
  - exact disk0_wf.
  - intros x Hx Hs. exists 100%Z. rewrite (disk0_stored x Hx Hs). exact stored0_at.
  - exact (ex_intro _ L (conj E HL)).
Defined.

(** * The list of blocks awaiting cleanup *)

Section json.
Lemma append_assoc a b c : String.append (String.append a b) c = String.append a (String.append b c).
Proof. induction a as [|x a IH]; [done|]. apply (f_equal (String.String x)), IH. Qed.

(** No quote in the text. *)
Fixpoint plain (s : string) : bool :=
  match s with
  | String.EmptyString => true
  | String.String c r => negb (bool_decide (c = quote)) && plain r
  end.

Lemma read_quoted_plain s r :
  plain s = true -> read_quoted (String.append s (String.String quote r)) = Some (s, r).
Proof.
  induction s as [|c s IH]; [done|]. intros [Hc Hs]%andb_true_iff. apply negb_true_iff in Hc.
  assert (E : forall X, read_quoted (String.String c X)
    = if bool_decide (c = quote) then Some (String.EmptyString, X)
      else '(a, b) ← read_quoted X; Some (String.String c a, b)) by done.
  change (String.append (String.String c s) ?X) with (String.String c (String.append s X)).
  by rewrite E, Hc, IH.
Qed.

Lemma read_quoted_item s r : plain s = true -> read_string (String.append (quoted s) r) = Some (s, r).
Proof.
  intros Hs. unfold quoted.
  change (read_quoted (String.append (String.append s (String.String quote String.EmptyString)) r) = Some (s, r)).
  rewrite append_assoc. by apply read_quoted_plain.
Qed.

Lemma parse_json_items l fuel :
  (forall x, x ∈ l -> plain x = true) -> length l < fuel -> parse_items fuel (json_items l) = Some l.
Proof.
  revert fuel. induction l as [|x l IH]; intros [|fuel] Hl Hf; cbn in Hf; try lia; [done|].
  cbn [json_items]. change (parse_items (S fuel) (String.append "," ?r)) with
    ('(a, r') ← read_string r; l ← parse_items fuel r'; Some (a :: l)).
  rewrite read_quoted_item by (apply Hl; by left). cbn [mbind option_bind].
  rewrite IH; [done|intros y Hy; apply Hl; by right|lia].
Qed.

Lemma length_json_items l : length l < String.length (json_items l).
Proof.
  induction l as [|x l IH]; [cbn; lia|]. cbn [json_items]. rewrite !length_append. cbn [length String.length].
  unfold quoted. cbn [String.length]. lia.
Qed.

Lemma JSON_round_trip l : (forall x, x ∈ l -> plain x = true) -> JSON_parse (JSON_stringify l) = Some l.
Proof.
  destruct l as [|x l]; intros Hl; [done|]. cbn [JSON_stringify].
  assert (E : JSON_parse (String.append "[" (String.append (quoted x) (json_items l)))
    = ('(a, r') ← read_string (String.append (quoted x) (json_items l));
       l ← parse_items (String.length (String.append (quoted x) (json_items l))) r'; Some (a :: l))) by done.
  rewrite E, read_quoted_item by (apply Hl; by left). cbn [mbind option_bind].
  rewrite parse_json_items; [done|intros y Hy; apply Hl; by right|].
  rewrite length_append. pose proof (length_json_items l). lia.
Qed.

Lemma hash_plain x : is_hash x -> plain x = true.
Proof.
  intros [_ Hx]. revert Hx. induction x as [|c x IH]; [done|]. cbn [all_lower_hex plain].
  intros [Hc Hx]%andb_true_iff. rewrite IH by done. rewrite andb_true_r.
  apply negb_true_iff, bool_decide_eq_false. intros ->. by vm_compute in Hc.
Qed.
End json.

(** The blocks awaiting cleanup survive a restart: what [putPendingCleanup] writes is
    what the next start takes up, in the same order, and the write touches nothing else. *)
Theorem pending_cleanup_round_trips {DB : Type} `{LevelDbLaws DB} (t : tracker DB) :
  pendingKMCleanup (win t) <> [] -> (forall x, x ∈ pendingKMCleanup (win t) -> is_hash x) ->
  exists t1, putPendingCleanup t = (Ok tt, t1)
    /\ win t1 = win t
    /\ (forall k, k <> P_PENDING_CLEANUP_KEY -> db_get (disk (db t1)) k = db_get (disk (db t)) k)
    /\ forall t2 : tracker DB, Startup.recoverPendingCleanup (db_get (disk (db t1)) P_PENDING_CLEANUP_KEY) t2
         = (Ok tt, set_win (set_pending (pendingKMCleanup (win t)) (win t2)) t2).
Proof.
  intros Hne Hh. unfold putPendingCleanup, getw. rewrite (run_bind_ok _ _ t (pendingKMCleanup (win t)) t) by done.
  rewrite bool_decide_eq_true_2 by (destruct (pendingKMCleanup (win t)); [done|cbn; lia]).
  eexists. split_and!; [reflexivity|done|..].
  - intros k Hk. cbn. rewrite get_put. by rewrite decide_False.
  - intros t2. cbn. rewrite get_put, decide_True by done. cbn. rewrite to_from_latin1, JSON_round_trip; [done|].
    intros x Hx. by apply hash_plain, Hh.
Qed.

Lemma pending_cleanup_round_trips_witness :
  let t := set_win (set_pending [hx xb1; hx xaf] (win tracker0)) tracker0 in
  exists t1, putPendingCleanup t = (Ok tt, t1)
    /\ Startup.recoverPendingCleanup (db_get (disk (db t1)) P_PENDING_CLEANUP_KEY) tracker0 = (Ok tt, t).
Proof.
  intros t. destruct (pending_cleanup_round_trips t) as (t1 & E & _ & _ & Hr).
  - discriminate.
  - change (forall x, x ∈ [hx xb1; hx xaf] -> is_hash x). each_elem; apply hx_is_hash.
  - exact (ex_intro _ t1 (conj E (Hr tracker0))).
Defined.
