(* ===== verification/LifecycleTheorems.v ===== *)
(** Starting, halting and stopping: a restart takes up the tracker where its store left
    it, a store of another layout is refused untouched, a halt outlives the process, and
    a stop that fails changes nothing. *)

From S2P Require Import Prelude KeyCodec ValueCodec LevelDb Store Outputs StoreFacts.
From S2P Require Import Rollback Parsing Apply Spend Block Roundtrip Tracker Window Reorg SyncLoop.
From S2P Require Import Batch Undo Chain Concrete WindowTheorems Startup.
From S2P Require Json.
From stdpp Require Import gmap.

#[local] Open Scope string_scope.
#[local] Open Scope nat_scope.
#[local] Open Scope list_scope.

(** * The layout gate *)

(** A store whose layout stamp is not the current version is refused, and an unstamped
    store that holds any record counts as the oldest layout: the open throws and the
    store is as it was.  A current stamp passes without a write. *)
Theorem old_layout_is_refused {DB : Type} `{LevelDbLaws DB} (s : store DB) (stamp : bool) :
  let version := getLayoutVersion s in
  version.2 = s
  /\ (version.1 = Ok (Layout STORE_LAYOUT_VERSION) -> ensureLayoutVersion stamp s = (Ok "current", s))
  /\ (forall v, v <> STORE_LAYOUT_VERSION -> version.1 = Ok (Layout v) ->
        exists e, ensureLayoutVersion stamp s = (Err e, s))
  /\ (version.1 = Ok BadLayout -> exists e, ensureLayoutVersion stamp s = (Err e, s))
  /\ (db_get (disk s) PREFIX_LAYOUT_VERSION = None -> (exists k v, db_get (disk s) k = Some v) ->
        exists e, ensureLayoutVersion stamp s = (Err e, s)).
Proof.
  intros version.
  assert (Hv : version.2 = s).
  { unfold version, getLayoutVersion, dbGet, dbIterator, gets, mbind, M_bind.
    by destruct (db_get (disk s) PREFIX_LAYOUT_VERSION). }
  assert (Hrun : forall v, version.1 = Ok v -> getLayoutVersion s = (Ok v, s)).
  { intros v Ev. fold version. by destruct version; cbn in *; subst. }
  assert (Hbad : forall v, v <> STORE_LAYOUT_VERSION -> version.1 = Ok (Layout v) ->
    exists e, ensureLayoutVersion stamp s = (Err e, s)).
  { intros v Hne Ev. unfold ensureLayoutVersion. rewrite (run_bind_ok _ _ _ _ _ (Hrun _ Ev)).
    rewrite bool_decide_eq_false_2 by done. by eexists. }
  split_and!; [done| |done| |].
  - intros Ev. unfold ensureLayoutVersion. rewrite (run_bind_ok _ _ _ _ _ (Hrun _ Ev)).
    by rewrite bool_decide_eq_true_2.
  - intros Ev. unfold ensureLayoutVersion. rewrite (run_bind_ok _ _ _ _ _ (Hrun _ Ev)). by eexists.
  - intros Hn (k & v & Hk). apply (Hbad LEGACY_LAYOUT_VERSION); [done|].
    unfold version, getLayoutVersion, dbGet, dbIterator, gets, mbind, M_bind. rewrite Hn.
    rewrite bool_decide_eq_false_2; [done|]. rewrite iterator_limit. cbn [r_limit take_limit].
    assert (Hin : (k, v) ∈ db_iterator (disk s) (mkRange None None None None)) by by apply iterator_elem.
    by destruct (db_iterator (disk s) _) as [|x l]; [apply elem_of_nil in Hin|].
Qed.

Lemma old_layout_is_refused_witness : exists e, ensureLayoutVersion true (store0 disk0) = (Err e, store0 disk0).
Proof.
  apply (proj2 (proj2 (proj2 (proj2 (old_layout_is_refused (store0 disk0) true))))).
  - reflexivity.
  - exists (enc (KStoredBlk (raw xb0))), []. reflexivity.
Defined.

(** * The halt marker *)

Section halt.
Context {node : Node} {rpcs : NodeRpc} {env : LoopEnv} {DB : Type} `{LevelDbLaws DB}.
Implicit Types (p : process DB).

Definition marker_text (m : halt_marker) : Prop :=
  Json.ascii_text (hm_reason m) = true
  /\ match hm_at m with Some a => Json.ascii_text a = true | None => True end.

Lemma marker_round_trip m : marker_text m -> marker_of_json (marker_json m) = Some m.
Proof. destruct m as [reason [h|] [a|]]; done. Qed.

Lemma marker_parses m : marker_text m -> (v ← Json.parse (Json.stringify (marker_json m)); marker_of_json v) = Some m.
Proof.
  intros Hm. pose proof (marker_round_trip m Hm) as Hr. unfold marker_json in *.
  rewrite Json.parse_stringify; [done|].
  destruct m as [reason [h|] [a|]], Hm as [H1 H2]; cbn in *; by rewrite H1, ?H2.
Qed.

Lemma getHaltMarker_eq s :
  getHaltMarker s
  = (Ok (raw ← db_get (disk s) HALT_MARKER_KEY; v ← Json.parse (to_latin1 raw); marker_of_json v), s).
Proof. reflexivity. Qed.

(** Reading a marker that was written. *)
Lemma run_getHaltMarker s m :
  marker_text m -> db_get (disk s) HALT_MARKER_KEY = Some (from_latin1 (Json.stringify (marker_json m))) ->
  getHaltMarker s = (Ok (Some m), s).
Proof.
  intros Hm. pose proof (marker_parses m Hm) as Hp. revert Hp. generalize (Json.stringify (marker_json m)).
  intros text Hp E. rewrite getHaltMarker_eq, E. cbn [mbind option_bind]. rewrite to_from_latin1.
  by rewrite <- Hp.
Qed.
End halt.

(** * Booting *)

Section boot.
Context {node : Node} {rpcs : NodeRpc} {env : LoopEnv} {DB : Type} `{LevelDbLaws DB}.
Implicit Types (p : process DB) (t : tracker DB) (d : DB).

(** The store carries the current layout's stamp. *)
Definition stamped d : Prop :=
  db_get d PREFIX_LAYOUT_VERSION = Some (from_latin1 (to_radix 10 STORE_LAYOUT_VERSION)).

Lemma run_ensureLayoutVersion (s : store DB) : stamped (disk s) -> ensureLayoutVersion true s = (Ok "current", s).
Proof.
  intros E. unfold ensureLayoutVersion, getLayoutVersion.
  rewrite (run_bind_ok _ _ s (Layout STORE_LAYOUT_VERSION) s); [by rewrite bool_decide_eq_true_2|].
  rewrite (run_bind_ok _ _ s (Some (from_latin1 (to_radix 10 STORE_LAYOUT_VERSION))) s) by (by rewrite run_dbGet, E).
  cbv zeta. by rewrite to_from_latin1.
Qed.

(** The tracker once its stores are open. *)
Definition opened_on d (empty : DB) t : tracker DB :=
  set_mempoolDb (mkStore empty (Some ∅) (Some ∅) ∅ ∅ (faults (mempoolDb t)))
    (set_db (mkStore d (Some ∅) (Some ∅) ∅ ∅ (faults (db t))) t).

Lemma boot_opens d empty p :
  stamped d ->
  boot d empty p
  = (resumed ← resumeHaltFromMarker;
     if resumed : bool then mret false
     else
       cursor ← on_tracker loadSyncCursor;
       _ ← on_tracker (recoverPendingCleanup (sc_pending cursor));
       sync ← on_tracker (newSyncLoopState cursor);
       _ ← modify (set_sync (Some sync));
       _ ← modify (set_flow true false false);
       mret true) (set_open true (set_trk (opened_on d empty (p_trk p)) p)).
Proof.
  intros Hst. set (p1 := set_open true (set_trk (opened_on d empty (p_trk p)) p)).
  assert (El : on_tracker (on_db (ensureLayoutVersion true)) p1 = (Ok "current", p1)).
  { unfold on_tracker, on_db. rewrite run_ensureLayoutVersion by exact Hst. reflexivity. }
  unfold boot. do 4 (erewrite run_bind_ok by reflexivity). by erewrite run_bind_ok by exact El.
Qed.

(** Resuming a halt the store records. *)
Lemma run_resume p m :
  storeOpen p = true -> marker_text m ->
  db_get (disk (db (p_trk p))) HALT_MARKER_KEY = Some (from_latin1 (Json.stringify (marker_json m))) ->
  resumeHaltFromMarker p
  = (_ ← enterHaltedState (Some (hm_reason m)) (hm_at m) (hm_height m); mret true) p.
Proof.
  intros Ho Hm E. unfold resumeHaltFromMarker, on_open_db.
  assert (Er : try_catch (open ← gets storeOpen;
      if open : bool then on_tracker (on_db getHaltMarker) else throw (Error (EMsg "Database is not open")))
      (fun _ => mret None) p = (Ok (Some m), p)).
  { unfold try_catch. rewrite (run_bind_ok _ _ p true p) by (unfold gets; by rewrite Ho).
    unfold on_tracker, on_db. rewrite (run_getHaltMarker _ m Hm E).
    destruct p as [t0 ? ? ? ? ? ? ? ? ?]. by destruct t0. }
  by rewrite (run_bind_ok _ _ _ _ _ Er).
Qed.

Lemma run_resume_none p :
  storeOpen p = true -> db_get (disk (db (p_trk p))) HALT_MARKER_KEY = None ->
  resumeHaltFromMarker p = (Ok false, p).
Proof.
  intros Ho E. unfold resumeHaltFromMarker, on_open_db.
  assert (Er : try_catch (open ← gets storeOpen;
      if open : bool then on_tracker (on_db getHaltMarker) else throw (Error (EMsg "Database is not open")))
      (fun _ => mret None) p = (Ok None, p)).
  { unfold try_catch. rewrite (run_bind_ok _ _ p true p) by (unfold gets; by rewrite Ho).
    unfold on_tracker, on_db. rewrite getHaltMarker_eq, E.
    destruct p as [t0 ? ? ? ? ? ? ? ? ?]. by destruct t0. }
  by rewrite (run_bind_ok _ _ _ _ _ Er).
Qed.
End boot.

Definition halt_text (reason : option string) : string :=
  match reason with
  | Some r => if bool_decide (r = "") then "unrecoverable reorg (rolled back past the recovery window)" else r
  | None => "unrecoverable reorg (rolled back past the recovery window)"
  end.

Lemma db_set_stat {DB} (f : status -> status) (t : tracker DB) : db (modify_stat f t).2 = db t.
Proof. done. Qed.

(** Halting, its marker written. *)
Lemma run_haltForResync {node : Node} {rpcs : NodeRpc} {DB : Type} `{LevelDbLaws DB} (reason : option string)
    (now : string) (p : process DB) (V : records) (hash : string) (h : Z) :
  storeOpen p = true -> holds (disk (db (p_trk p))) V hash h -> now <> "" ->
  exists p', haltForResync reason now p = (Ok (Some (mkMarker (halt_text reason) (Some h) (Some now))), p')
    /\ halted p' = true /\ haltReason p' = Some (halt_text reason) /\ haltedAt p' = Some now
    /\ haltedHeight p' = Some h /\ parsingAborted p' = true
    /\ synced (stat (p_trk p')) = false /\ mempoolReconverged (stat (p_trk p')) = false
    /\ disk (db (p_trk p')) = db_put (disk (db (p_trk p))) HALT_MARKER_KEY
         (from_latin1 (Json.stringify (marker_json (mkMarker (halt_text reason) (Some h) (Some now))))).
Proof.
  intros Ho Hd Hnow. unfold haltForResync. fold (halt_text reason). cbv zeta.
  set (p1 := set_flow (keepParsing p) false true
    (set_halt true (Some (halt_text reason)) (Some now) None
       (set_trk (modify_stat (fun s => set_reconverged false (set_synced false (set_interval false s))) (p_trk p)).2 p))).
  assert (E1 : enterHaltedState (Some (halt_text reason)) (Some now) None p = (Ok tt, p1)) by reflexivity.
  rewrite (run_bind_ok _ _ _ _ _ E1).
  set (p2 := set_halt true (Some (halt_text reason)) (Some now) (Some h) p1).
  assert (E2 : (h ← on_open_db getLastBlockHeight;
      modify (fun p => set_halt (halted p) (haltReason p) (haltedAt p) h p)) p1 = (Ok tt, p2)).
  { rewrite (run_bind_ok _ _ p1 (Some h) p1); [reflexivity|].
    unfold on_open_db. rewrite (run_bind_ok _ _ p1 true p1) by (unfold gets; cbn; by rewrite Ho).
    unfold on_tracker, on_db. by rewrite (run_getLastBlockHeight _ V hash h) by exact Hd. }
  set (m := mkMarker (halt_text reason) (Some h) (Some now)).
  set (p3 := set_trk (set_db (set_disk (db_put (disk (db (p_trk p2))) HALT_MARKER_KEY
      (from_latin1 (Json.stringify (marker_json m)))) (db (p_trk p2))) (p_trk p2)) p2).
  assert (E3 : on_open_db (setHaltMarker (String_of (haltReason p2)) (haltedHeight p2) (haltedAt p2) now) p2
    = (Ok m, p3)).
  { unfold on_open_db. rewrite (run_bind_ok _ _ p2 true p2) by (unfold gets; cbn; by rewrite Ho).
    change (String_of (haltReason p2)) with (halt_text reason).
    change (haltedHeight p2) with (Some h). change (haltedAt p2) with (Some now).
    unfold setHaltMarker. rewrite (bool_decide_eq_false_2 (now = "")) by done. reflexivity. }
  exists p3. split; [|done].
  unfold persistHaltMarker, try_catch. rewrite (run_bind_ok _ _ p1 p1 p1) by done.
  change (haltedHeight p1) with (@None Z). cbv iota.
  rewrite (run_bind_ok _ _ _ _ _ E2). rewrite (run_bind_ok _ _ p2 p2 p2) by done.
  by rewrite (run_bind_ok _ _ _ _ _ E3).
Qed.

(** C27 A halt outlives the process: halting writes the marker, and the next start over the
    same store, whatever else it was told, comes up halted with the same reason, time and
    height, not ready, and without entering the sync loop. *)
Theorem halt_survives_a_restart {node : Node} {rpcs : NodeRpc} {env : LoopEnv} {DB : Type} `{LevelDbLaws DB}
    (reason : option string) (now : string) (p : process DB) (V : records) (hash : string) (h : Z) :
  storeOpen p = true -> holds (disk (db (p_trk p))) V hash h -> stamped (disk (db (p_trk p))) ->
  Json.ascii_text (halt_text reason) = true -> Json.ascii_text now = true -> now <> "" ->
  exists m p', haltForResync reason now p = (Ok (Some m), p') /\ halted p' = true
    /\ forall (empty : DB) (p2 : process DB), exists p3,
         boot (disk (db (p_trk p'))) empty p2 = (Ok false, p3)
         /\ halted p3 = true /\ haltReason p3 = Some (halt_text reason) /\ haltedAt p3 = Some now
         /\ haltedHeight p3 = Some h /\ p_sync p3 = p_sync p2
         /\ synced (stat (p_trk p3)) = false /\ mempoolReconverged (stat (p_trk p3)) = false.
Proof.
  intros Ho Hd Hst Hr Hn Hne.
  destruct (run_haltForResync reason now p V hash h Ho Hd Hne) as (p' & E & Hh & _ & _ & _ & _ & _ & _ & Edk).
  set (m := mkMarker (halt_text reason) (Some h) (Some now)) in *.
  exists m, p'. split_and!; [done|done|]. intros empty p2.
  eexists. rewrite boot_opens.
  2:{ unfold stamped. rewrite Edk, get_put, decide_False; [done|]. by vm_compute. }
  set (p2' := set_open true _).
  assert (Er : resumeHaltFromMarker p2'
    = (_ ← enterHaltedState (Some (hm_reason m)) (hm_at m) (hm_height m); mret true) p2').
  { apply run_resume; [done|by split|]. change (disk (db (p_trk p2'))) with (disk (db (p_trk p'))).
    by rewrite Edk, get_put, decide_True. }
  split; [|shelve].
  erewrite run_bind_ok by (rewrite Er; reflexivity). reflexivity.
  Unshelve. by split_and!.
Qed.

Definition process0 (d : mapdb) : process mapdb :=
  mkProcess (set_db (store0 d) tracker0) None false None None None true false false true.

Definition disk0_stamped : mapdb := db_put disk0 PREFIX_LAYOUT_VERSION (from_latin1 "2").

Lemma disk0_stamped_get k : wf_key k -> k <> KMeta LAYOUT_VERSION -> dk disk0_stamped k = dk disk0 k.
Proof.
  intros Hk Hne. unfold dk, disk0_stamped. rewrite get_put, decide_False; [done|].
  intros E. apply (enc_inj (KMeta LAYOUT_VERSION) k) in E; [by subst|done|done].
Qed.

Lemma disk0_stamped_wf : db_wf disk0_stamped.
Proof.
  intros b v. unfold disk0_stamped. rewrite get_put. case_decide as E; [|apply disk0_wf].
  intros [= <-]. exists (KMeta LAYOUT_VERSION). by split_and!.
Qed.

Lemma disk0_stamped_holds : holds disk0_stamped (dk disk0) (hx xb0) 100.
Proof.
  split; [apply disk0_stamped_wf| |by vm_compute|by vm_compute].
  intros k Hk Hm. apply disk0_stamped_get; [done|]. by intros ->.
Qed.

Lemma halt_survives_a_restart_witness :
  exists m p', haltForResync None "2026-01-01T00:00:00.000Z" (process0 disk0_stamped) = (Ok (Some m), p')
    /\ exists p3, boot (disk (db (p_trk p'))) ∅ (process0 ∅) = (Ok false, p3) /\ halted p3 = true.
Proof.
  destruct (halt_survives_a_restart None "2026-01-01T00:00:00.000Z" (process0 disk0_stamped) (dk disk0) (hx xb0) 100)
    as (m & p' & E & _ & Hb).
  - reflexivity.
  - exact disk0_stamped_holds.
  - by vm_compute.
  - reflexivity.
  - reflexivity.
  - discriminate.
  - destruct (Hb ∅ (process0 ∅)) as (p3 & E3 & Hh & _).
    exact (ex_intro _ m (ex_intro _ p' (conj E (ex_intro _ p3 (conj E3 Hh))))).
Defined.

(** * Restarting *)

(** What a stopped tracker left on the disk: the stamp, no halt, the tip pointers, the
    blocks of the window with their heights, the mark, and the blocks still to clean. *)
Record resumable {node : Node} {DB : Type} `{LevelDb DB} (d : DB) (L : list (string * Z)) (hash : string) (h mark : Z)
    (pending : list string) : Prop := {
  rs_wf : db_wf d;
  rs_stamp : stamped d;
  rs_halt : db_get d HALT_MARKER_KEY = None;
  rs_hash : db_get d PREFIX_LAST_BLOCK_HASH = Some (from_latin1 hash);
  rs_height : db_get d PREFIX_LAST_BLOCK_HEIGHT = Some (from_latin1 (to_radix 16 h));
  rs_listed : forall x, x ∈ L.*1 <-> is_hash x /\ is_Some (dk d (KStoredBlk (h2b x)));
  rs_stored : forall x k, (x, k) ∈ L -> stored_at d x k;
  rs_order : StronglySorted (fun a b : string * Z => (a.2 < b.2)%Z) L;
  rs_distinct : NoDup L.*1;
  rs_positive : (0 < mark)%Z;
  rs_mark : db_get d Q_UNDO_WATERMARK_KEY = Some (from_latin1 (to_radix 10 mark));
  rs_pending : db_get d P_PENDING_CLEANUP_KEY
               = match pending with [] => None | _ => Some (from_latin1 (JSON_stringify pending)) end;
  rs_hashes : forall x, x ∈ pending -> is_hash x;
}.

(** C26 A restart takes the tracker up where its store left it: the cursor on the stored
    tip, the window in height order, the high-water mark capped by the undo depth, the
    blocks still to clean; a fresh batch, nothing prefetched, and readiness to be earned
    again. *)
Theorem restart_takes_up_the_store {node : Node} {rpcs : NodeRpc} {env : LoopEnv} {DB : Type} `{LevelDbLaws DB}
    (d empty : DB) (p : process DB) (L : list (string * Z)) (hash : string) (h mark : Z) (pending : list string) :
  resumable d L hash h mark pending ->
  exists p' y, boot d empty p = (Ok true, p')
    /\ p_sync p' = Some y /\ lastProcessedBlockIndex y = Some h /\ lastProcessedBlockHash y = Some hash
    /\ s_batch y = empty_batch /\ prefetchQueue (s_fetch y) = []
    /\ win (p_trk p') = mkWindow L.*1 pending (undoBlocks (win (p_trk p)))
         (Z.min mark (undoBlocks (win (p_trk p)))) (Some mark)
    /\ disk (db (p_trk p')) = d /\ outputCache (db (p_trk p')) = ∅ /\ knownScripts (db (p_trk p')) = ∅
    /\ keepParsing p' = true /\ storeOpen p' = true
    /\ synced (stat (p_trk p')) = false /\ mempoolReconverged (stat (p_trk p')) = false.
Proof.
  intros [Hwf Hst Hhalt Hhash Hheight Hlist Hstored Hord Hnd Hpos Hmark Hpend Hpendh].
  rewrite boot_opens by done. set (p1 := set_open true _). set (t1 := opened_on d empty (p_trk p)).
  rewrite (run_bind_ok _ _ _ _ _ (run_resume_none p1 eq_refl Hhalt)). cbv iota.
  assert (Eh : on_db getLastBlockHeight t1 = (Ok (Some h), t1)).
  { unfold on_db, getLastBlockHeight. rewrite (run_bind_ok _ _ (db t1) (Some (from_latin1 (to_radix 16 h))) (db t1))
      by (by rewrite run_dbGet; f_equal; rewrite <- Hheight).
    rewrite to_from_latin1, parseInt_to_radix by lia. reflexivity. }
  assert (Eha : on_db getLastBlockHash t1 = (Ok (Some hash), t1)).
  { unfold on_db, getLastBlockHash. rewrite (run_bind_ok _ _ (db t1) (Some (from_latin1 hash)) (db t1))
      by (by rewrite run_dbGet; f_equal; rewrite <- Hhash).
    cbn [fmap option_fmap option_map]. by rewrite to_from_latin1. }
  assert (El : loadLastBlocksSortedByHeight t1 = (Ok L.*1, t1)).
  { apply run_load_unique; [|done|done]. apply NoDup_Permutation; [done|by apply stored_hashes_NoDup|].
    intros x. rewrite Hlist. change (disk (db t1)) with d. by rewrite stored_hashes_spec. }
  set (w := win (p_trk p)). set (m := Z.min mark (undoBlocks w)).
  set (t2 := set_win (mkWindow L.*1 (pendingKMCleanup w) (undoBlocks w) m (Some mark)) t1).
  assert (Em : loadUndoWindowWatermark (set_win (set_lastBlocks L.*1 w) t1) = (Ok m, t2)).
  { unfold loadUndoWindowWatermark.
    rewrite (run_bind_ok _ _ _ (Some (from_latin1 (to_radix 10 mark))) (set_win (set_lastBlocks L.*1 w) t1))
      by (unfold on_db; rewrite run_dbGet; change (disk (db (set_win (set_lastBlocks L.*1 w) t1))) with d; by rewrite Hmark).
    rewrite to_from_latin1, parseInt_to_radix by lia. rewrite !bool_decide_eq_true_2 by done. reflexivity. }
  set (t3 := set_win (set_pending [] (win t2)) t2).
  set (c := mkCursor (Some h) (Some hash) (db_get d P_PENDING_CLEANUP_KEY)).
  assert (Ec : loadSyncCursor t1 = (Ok c, t3)).
  { unfold loadSyncCursor. rewrite (run_bind_ok _ _ _ _ _ Eh), (run_bind_ok _ _ _ _ _ Eha), (run_bind_ok _ _ _ _ _ El).
    rewrite (run_bind_ok _ _ t1 tt (set_win (set_lastBlocks L.*1 w) t1)) by done.
    rewrite (run_bind_ok _ _ _ _ _ Em). reflexivity. }
  set (t4 := set_win (set_pending pending (win t3)) t3).
  assert (Er : recoverPendingCleanup (sc_pending c) t3 = (Ok tt, t4)).
  { change (sc_pending c) with (db_get d P_PENDING_CLEANUP_KEY). rewrite Hpend. unfold recoverPendingCleanup.
    destruct pending as [|x l]; [reflexivity|]. rewrite to_from_latin1.
    rewrite (JSON_round_trip (x :: l) (fun y Hy => hash_plain y (Hpendh y Hy))). reflexivity. }
  assert (lift : forall A (mm : M (tracker DB) A) a t t' q, mm t = (Ok a, t') ->
    on_tracker mm (set_open true (set_trk t q)) = (Ok a, set_open true (set_trk t' q))).
  { intros A mm a t t' q Et. unfold on_tracker. change (p_trk (set_open true (set_trk t q))) with t. by rewrite Et. }
  rewrite (run_bind_ok _ _ _ _ _ (lift _ _ _ _ _ p Ec)). rewrite (run_bind_ok _ _ _ _ _ (lift _ _ _ _ _ p Er)).
  do 2 eexists. split; [reflexivity|]. by split_and!.
Qed.

Definition disk0_resumable : mapdb :=
  db_put (db_put disk0_stamped Q_UNDO_WATERMARK_KEY (from_latin1 (to_radix 10 1)))
    P_PENDING_CLEANUP_KEY (from_latin1 (JSON_stringify [hx xaf])).

Lemma disk0_resumable_get k :
  wf_key k -> is_meta k = false -> dk disk0_resumable k = dk disk0 k.
Proof.
  intros Hk Hm. unfold dk, disk0_resumable. rewrite !get_put, !decide_False.
  - change (dk disk0_stamped k = dk disk0 k). apply disk0_stamped_get; [done|]. by intros ->.
  - intros E. by apply (enc_inj (KMeta UNDO_WATERMARK) k) in E; [subst k|done|done].
  - intros E. by apply (enc_inj (KMeta PENDING_CLEANUP) k) in E; [subst k|done|done].
Qed.

Lemma disk0_resumes : resumable disk0_resumable [(hx xb0, 100%Z)] (hx xb0) 100 1 [hx xaf].
Proof.
  split.
  - intros b v. unfold disk0_resumable. rewrite !get_put. case_decide as E1; [|case_decide as E2].
    + intros [= <-]. exists (KMeta PENDING_CLEANUP). by split_and!.
    + intros [= <-]. exists (KMeta UNDO_WATERMARK). by split_and!.
    + apply disk0_stamped_wf.
  - by vm_compute.
  - by vm_compute.
  - by vm_compute.
  - by vm_compute.
  - intros x. change ([(hx xb0, 100%Z)].*1) with [hx xb0]. rewrite list_elem_of_singleton. split.
    + intros ->. split; [apply hx_is_hash|]. rewrite disk0_resumable_get; [by eexists|apply h2b_hash32, hx_is_hash|done].
    + intros [Hx Hs]. rewrite disk0_resumable_get in Hs by (try apply h2b_hash32; done). by apply disk0_stored.
  - intros x k [= -> ->]%list_elem_of_singleton. destruct stored0_at as (H1 & tm & ph & H2 & H3 & H4 & E).
    split; [exact H1|]. exists tm, ph. split_and!; [exact H2|exact H3|exact H4|].
    exact (eq_trans (disk0_resumable_get (KBlock (h2b (hx xb0))) (h2b_hash32 _ (hx_is_hash xb0)) eq_refl) E).
  - by repeat constructor.
  - apply NoDup_singleton.
  - lia.
  - by vm_compute.
  - by vm_compute.
  - each_elem. apply hx_is_hash.
Qed.

Lemma restart_takes_up_the_store_witness :
  exists p' y, boot disk0_resumable ∅ (process0 ∅) = (Ok true, p') /\ p_sync p' = Some y
    /\ lastProcessedBlockIndex y = Some 100%Z /\ lastProcessedBlockHash y = Some (hx xb0).
Proof.
  destruct (restart_takes_up_the_store disk0_resumable ∅ (process0 ∅) [(hx xb0, 100%Z)] (hx xb0) 100 1 [hx xaf] disk0_resumes)
    as (p' & y & E & Ey & Eh & Ehh & _).
  exact (ex_intro _ p' (ex_intro _ y (conj E (conj Ey (conj Eh Ehh))))).
Defined.

(** * Stopping *)

Section stopping.
Context {node : Node} {rpcs : NodeRpc} {env : LoopEnv} {DB : Type} `{LevelDb DB}.
Implicit Types (p : process DB).

(** The process after [n] seconds of the wait. *)
Fixpoint waited (wait : nat -> process DB -> process DB) (n : nat) p : process DB :=
  match n with O => p | S m => wait m (waited wait m p) end.

(** The stop was asked for. *)
Definition asked p : process DB :=
  set_trk (modify_stat (set_interval false) (p_trk p)).2 (set_flow false (parsingStopped p) (parsingAborted p) p).

(** The loop runs on and the poller is armed. *)
Definition rearmed p : process DB :=
  set_trk (modify_stat (set_interval true) (p_trk p)).2 (set_flow true (parsingStopped p) (parsingAborted p) p).

Lemma run_waitStopped wait p : forall tries done,
  done + tries = 10 -> (forall i, i < done -> parsingStopped (waited wait i p) = false) ->
  (exists i, done <= i <= 10 /\ parsingStopped (waited wait i p) = true
     /\ (forall j, j < i -> parsingStopped (waited wait j p) = false)
     /\ waitStopped wait tries (waited wait done p) = (Ok (10 - i), waited wait i p))
  \/ ((forall i, i <= 10 -> parsingStopped (waited wait i p) = false)
     /\ waitStopped wait tries (waited wait done p) = (Ok 0, waited wait 10 p)).
Proof.
  induction tries as [|tries IH]; intros k Hk Hb; cbn [waitStopped].
  - assert (k = 10) as -> by lia. destruct (parsingStopped (waited wait 10 p)) eqn:E.
    + left. exists 10. split_and!; [lia|lia|done|done|done].
    + right. split; [|done]. intros i Hi. destruct (decide (i = 10)) as [->|]; [done|]. apply Hb. lia.
  - destruct (parsingStopped (waited wait k p)) eqn:E.
    + left. exists k. split_and!; [lia|lia|done|done|].
      rewrite (run_bind_ok _ _ _ true (waited wait k p)) by (unfold gets; by rewrite E).
      replace (10 - k) with (S tries) by lia. done.
    + rewrite (run_bind_ok _ _ _ false (waited wait k p)) by (unfold gets; by rewrite E).
      replace (10 - S tries) with k by lia.
      rewrite (run_bind_ok _ _ _ tt (waited wait (S k) p)) by done.
      destruct (IH (S k)) as [(i & Hi & Hs & Hj & Er)|Hn]; [lia| | |by right].
      * intros i Hi. destruct (decide (i = k)) as [->|]; [done|]. apply Hb. lia.
      * left. exists i. split_and!; [lia|lia|done|done|done].
Qed.
End stopping.

(** A stop ends in one of three ways.  A tracker whose loop aborted is finished off: its
    store is closed at once.  A loop that stops within ten seconds resolves the call.
    Otherwise the call fails and, apart from what the process itself did meanwhile,
    changes nothing: the loop goes on parsing and the mempool poller is armed. *)
Theorem stop_finishes_or_changes_nothing {node : Node} {rpcs : NodeRpc} {env : LoopEnv} {DB : Type} `{LevelDb DB}
    (wait : nat -> process DB -> process DB) (p : process DB) :
  let q n := waited wait n (asked p) in
  let r := stopParsing wait p in
  if parsingAborted p && negb (parsingStopped p) then
    r.1 = Ok true /\ storeOpen r.2 = false /\ parsingStopped r.2 = true /\ db (p_trk r.2) = db (p_trk p)
  else
    (exists n, n <= 10 /\ parsingStopped (q n) = true /\ r = (Ok true, q n))
    \/ ((forall n, n <= 10 -> parsingStopped (q n) = false) /\ (exists e, r.1 = Err e) /\ r.2 = rearmed (q 10)).
Proof.
  intros q r. unfold r, stopParsing.
  rewrite (run_bind_ok _ _ p tt (set_flow false (parsingStopped p) (parsingAborted p) p)) by done.
  rewrite (run_bind_ok _ _ _ tt (asked p)) by done.
  rewrite (run_bind_ok _ _ (asked p) (asked p) (asked p)) by done.
  change (parsingAborted (asked p) && negb (parsingStopped (asked p)))
    with (parsingAborted p && negb (parsingStopped p)).
  destruct (parsingAborted p && negb (parsingStopped p)) eqn:Ea; [done|].
  destruct (run_waitStopped wait (asked p) 10 0) as [(i & Hi & Hs & _ & Er)|[Hn Er]]; [done|lia| |].
  - left. exists i. split_and!; [lia|done|]. change (waited wait 0 (asked p)) with (asked p) in Er.
    rewrite (run_bind_ok _ _ _ _ _ Er).
    rewrite (run_bind_ok _ _ _ true (q i)) by (unfold gets; by rewrite Hs).
    by rewrite andb_false_r.
  - right. split; [done|]. change (waited wait 0 (asked p)) with (asked p) in Er.
    rewrite (run_bind_ok _ _ _ _ _ Er).
    rewrite (run_bind_ok _ _ _ false (q 10)) by (unfold gets; by rewrite Hn).
    by split; [eexists|].
Qed.
