(* ===== verification/LoopTheorems.v ===== *)
(** The sync loop's own state: the size of the open batch, the prefetch queue and the
    failure streaks stay within their bounds through any pass, and a block that cannot
    be fetched is retried a fixed number of times. *)

From S2P Require Import Prelude KeyCodec ValueCodec LevelDb Store Outputs StoreFacts Tracker Window Parsing Reorg SyncLoop.
From S2P Require Import Concrete Startup.

#[local] Open Scope string_scope.
#[local] Open Scope nat_scope.
#[local] Open Scope list_scope.

(** * The invariant *)

(** Heights [h, h+1, ...]. *)
Fixpoint consecutive (h : Z) (l : list Z) : Prop :=
  match l with [] => True | x :: r => x = h /\ consecutive (h + 1) r end.

Definition ascending (l : list Z) : Prop := match l with [] => True | h :: _ => consecutive h l end.

Record sync_bounds {env : LoopEnv} (y : sync_state) : Prop := {
  sb_quantity : (0 <= blocksQuantity (s_batch y) < DB_TRANSACTION_BLOCKS_QUANTITY)%Z;
  sb_queue : length (prefetchQueue (s_fetch y)) <= PREFETCH_SIZE;
  sb_heights : ascending (prefetchQueue (s_fetch y)).*1;
  sb_failures : (0 <= sk_count (blockFetch (s_fetch y)) < MAX_BLOCK_FETCH_RETRIES)%Z;
  sb_reassembly : (0 <= sk_count (auxPowParse (s_fetch y)))%Z;
}.

Lemma consecutive_app h l k :
  consecutive h l -> consecutive (h + Z.of_nat (length l)) k -> consecutive h (l ++ k).
Proof.
  revert h. induction l as [|x l IH]; intros h; cbn [app consecutive length].
  - by rewrite Z.add_0_r.
  - intros [-> Hl] Hk. split; [done|]. apply IH; [done|].
    by replace (h + 1 + Z.of_nat (length l))%Z with (h + Z.of_nat (S (length l)))%Z by lia.
Qed.

Lemma heightsToQueue_consecutive room m tip : consecutive (m + 1) (heightsToQueue room m tip).
Proof.
  revert m. induction room as [|room IH]; intros m; cbn [heightsToQueue]; [done|].
  case_bool_decide; [|done]. split; [done|]. apply IH.
Qed.

Lemma heightsToQueue_length room m tip : length (heightsToQueue room m tip) <= room.
Proof.
  revert m. induction room as [|room IH]; intros m; cbn [heightsToQueue]; [done|].
  case_bool_decide; cbn [length]; [|lia]. specialize (IH (m + 1)%Z). lia.
Qed.

Lemma consecutive_last h l : consecutive h l -> forall x, last l = Some x -> (x + 1 = h + Z.of_nat (length l))%Z.
Proof.
  revert h. induction l as [|y l IH]; intros h; [done|]. intros [-> Hl] x Hx.
  destruct l as [|z l]; [injection Hx as <-; cbn; lia|].
  rewrite last_cons_cons in Hx. specialize (IH _ Hl x Hx). cbn [length] in *. lia.
Qed.

Lemma ascending_tail h (l : list Z) : ascending (h :: l) -> ascending l.
Proof. intros [_ Hl]. destruct l as [|x l]; [done|]. destruct Hl as [-> Hl]. by split. Qed.

Lemma fst_imap {A B} (f : nat -> A -> B) (l : list A) : (imap (fun i h => (h, f i h)) l).*1 = l.
Proof.
  revert f. induction l as [|x l IH]; intros f; [done|]. cbn. f_equal.
  apply (IH (fun i h => f (S i) h)).
Qed.

Section bounds.
Context {node : Node} {rpcs : NodeRpc} {env : LoopEnv} {DB : Type} `{LevelDb DB}.
Context (fuel : nat).
Implicit Types (l : loop DB).

(** From [l], the body keeps the bounds. *)
Definition keeps_at {A} (m : M (loop DB) A) l : Prop := sync_bounds (syn l) -> sync_bounds (syn (m l).2).
Definition bounded {A} (m : M (loop DB) A) : Prop := forall l, keeps_at m l.

Lemma at_bind {A B} (m : M (loop DB) A) (f : A -> M (loop DB) B) l :
  keeps_at m l -> (forall a l', m l = (Ok a, l') -> keeps_at (f a) l') -> keeps_at (m ≫= f) l.
Proof.
  intros Hm Hf Hl. unfold mbind, M_bind. unfold keeps_at in Hm. destruct (m l) as [[a|e] l'] eqn:E; [|by apply Hm].
  apply (Hf a l' eq_refl). by apply Hm.
Qed.

Lemma bounded_bind {A B} (m : M (loop DB) A) (f : A -> M (loop DB) B) :
  bounded m -> (forall a, bounded (f a)) -> bounded (m ≫= f).
Proof. intros Hm Hf l. apply at_bind; [apply Hm|]. intros a l' _. apply Hf. Qed.

Lemma bounded_try {A} (m : M (loop DB) A) h : bounded m -> (forall e, bounded (h e)) -> bounded (try_catch m h).
Proof.
  intros Hm Hh l Hl. unfold try_catch. specialize (Hm l Hl).
  destruct (m l) as [[a|e] l']; [done|]. by apply Hh.
Qed.

Lemma bounded_finally {A} (m : M (loop DB) A) f : bounded m -> bounded f -> bounded (finally m f).
Proof.
  intros Hm Hf l Hl. unfold finally. specialize (Hm l Hl). destruct (m l) as [r l']. specialize (Hf l' Hm).
  destruct (f l') as [[a|e] l'']; [by destruct r|done].
Qed.

Lemma bounded_settled {A} (m : M (loop DB) A) : bounded m -> bounded (settled m).
Proof. intros Hm l Hl. unfold settled. specialize (Hm l Hl). by destruct (m l). Qed.

Lemma bounded_on_trk {A} (m : M (tracker DB) A) : bounded (on_trk m).
Proof. intros l Hl. unfold on_trk. by destruct (m (trk l)). Qed.

Lemma bounded_on_store {A} (m : M (store DB) A) : bounded (on_store m).
Proof. apply bounded_on_trk. Qed.

Lemma bounded_stat f : bounded (stat_mod f).
Proof. apply bounded_on_trk. Qed.

Lemma bounded_pure {A} (r : res A) : bounded (fun l => (r, l)).
Proof. intros l Hl. exact Hl. Qed.

Lemma bounded_get {A} (f : sync_state -> A) : bounded (sync_get f).
Proof. intros l Hl. exact Hl. Qed.

Lemma bounded_when (b : bool) m : bounded m -> bounded (when b m).
Proof. destruct b; intros Hm; [done|]. intros l Hl. exact Hl. Qed.

Lemma bounded_mod f : (forall y, sync_bounds y -> sync_bounds (f y)) -> bounded (sync_mod f).
Proof. intros Hf l Hl. exact (Hf _ Hl). Qed.

Lemma at_get {A B} (f : sync_state -> A) (k : A -> M (loop DB) B) l :
  keeps_at (k (f (syn l))) l -> keeps_at (sync_get f ≫= k) l.
Proof. intros Hk Hl. exact (Hk Hl). Qed.

(** Updates of the other fields. *)
Lemma sync_bounds_same y y' :
  blocksQuantity (s_batch y') = blocksQuantity (s_batch y) -> s_fetch y' = s_fetch y -> sync_bounds y -> sync_bounds y'.
Proof. intros E1 E2 []. split; by rewrite ?E1, ?E2. Qed.
End bounds.

Create HintDb bounded.
#[export] Hint Resolve bounded_bind bounded_try bounded_finally bounded_settled bounded_on_trk bounded_on_store
  bounded_stat bounded_get bounded_when : bounded.
#[export] Hint Extern 1 (bounded (mret _)) => apply bounded_pure : bounded.
#[export] Hint Extern 1 (bounded (throw _)) => apply bounded_pure : bounded.
#[export] Hint Extern 1 (bounded (lift_res _)) => apply bounded_pure : bounded.
#[export] Hint Extern 2 (bounded (sync_mod _)) =>
  apply bounded_mod; intros ?; by apply sync_bounds_same : bounded.

Ltac bounded :=
  repeat first
    [ progress (eauto 3 with bounded; try done)
    | apply bounded_bind; [|intros ?]
    | apply bounded_try; [|intros ?]
    | apply bounded_finally
    | match goal with |- bounded (if ?b then _ else _) => destruct b end
    | match goal with |- bounded (match ?x with _ => _ end) => destruct x end
    | progress cbv zeta ].

Section passes.
Context {node : Node} {rpcs : NodeRpc} {env : LoopEnv} {DB : Type} `{LevelDb DB}.
Context (fuel : nat) (Hmax : (0 < MAX_BLOCK_FETCH_RETRIES)%Z).
Implicit Types (l : loop DB).

Lemma bounded_fetching f :
  (forall y, sync_bounds y -> sync_bounds (set_fetch (f (s_fetch y)) y)) ->
  bounded (DB:=DB) (sync_mod (fun y => set_fetch (f (s_fetch y)) y)).
Proof. intros Hf. by apply bounded_mod. Qed.

Lemma bounds_no_queue b y :
  sync_bounds y -> (0 <= sk_count (blockFetch b) < MAX_BLOCK_FETCH_RETRIES)%Z ->
  (0 <= sk_count (auxPowParse b))%Z -> prefetchQueue b = [] -> sync_bounds (set_fetch b y).
Proof. intros [] ? ? E. split; cbn; rewrite ?E; cbn; try done; lia. Qed.

Lemma bounded_clearQueue : bounded (DB:=DB) clearQueue.
Proof. apply bounded_mod. intros y Hy. apply bounds_no_queue; try apply Hy; done. Qed.

Lemma bounded_empty_batch : bounded (DB:=DB) (sync_mod (set_batch empty_batch)).
Proof. apply bounded_mod. intros y []. by split. Qed.

Lemma bounded_fillPrefetchQueue from tip : bounded (DB:=DB) (fillPrefetchQueue from tip).
Proof.
  intros l. unfold fillPrefetchQueue. apply at_get. cbv zeta.
  set (q := prefetchQueue (s_fetch (syn l))).
  set (mq := match last q with Some e => e.1 | None => (from - 1)%Z end).
  set (hs := match tip with Some t => _ | None => [] end).
  case_bool_decide; [apply bounded_pure|].
  assert (Hc : consecutive (mq + 1) hs) by (unfold hs; destruct tip; [apply heightsToQueue_consecutive|done]).
  assert (Hn : length hs <= PREFETCH_SIZE - length q) by (unfold hs; destruct tip; [apply heightsToQueue_length|cbn; lia]).
  unfold keeps_at. intros Hl.
  assert (E : exists r t, (settled (on_trk (rpc (fun n =>
      if auxPow then rpc_getBlocksBatchWithoutAuxPow n hs else rpc_getBlocksBatch n hs))) l)
      = (Ok r, mkLoop t (syn l))) by (do 2 eexists; reflexivity).
  destruct E as (r & t & E). rewrite (run_bind_ok _ _ _ _ _ E). cbn [sync_mod modify snd syn].
  destruct Hl as [Hq Hlen Hasc Hf Ha]. split; cbn; try done.
  - rewrite length_app, length_imap. fold q. fold q in Hlen. lia.
  - rewrite fmap_app, fst_imap. fold q. fold q in Hasc.
    destruct q as [|e q']; [|].
    + cbn. destruct hs as [|x hs']; [done|]. destruct Hc as [-> Hc]. by split.
    + cbn [fmap list_fmap app ascending]. cbn [fmap list_fmap ascending] in Hasc.
      change (e.1 :: (fst <$> q') ++ hs) with ((fst <$> (e :: q')) ++ hs).
      apply consecutive_app; [done|]. rewrite length_fmap.
      assert (Hlast : exists z, last (e :: q') = Some z) by (apply last_is_Some; done).
      destruct Hlast as [z Hz]. unfold mq in Hc. rewrite Hz in Hc.
      pose proof (consecutive_last _ _ Hasc z.1) as Hz1.
      change (e.1 :: (fst <$> q')) with (fst <$> (e :: q')) in Hz1. rewrite fmap_last, Hz, length_fmap in Hz1.
      rewrite <- (Hz1 eq_refl). done.
Qed.

Lemma bounded_noteBlockFetchFailure_ok h k l r l' :
  (0 <= sk_count k)%Z -> noteBlockFetchFailure h k l = (r, l') ->
  syn l' = syn l /\ (forall k', r = Ok k' -> (0 <= sk_count k' < MAX_BLOCK_FETCH_RETRIES)%Z).
Proof.
  intros Hk. unfold noteBlockFetchFailure. cbv zeta. set (c := (if bool_decide (sk_height k = Some h) then sk_count k + 1 else 1)%Z).
  assert (Hc : (0 <= c)%Z) by (unfold c; case_bool_decide; lia).
  case_bool_decide.
  - intros [= <- <-]. split; [done|]. by intros k' [=].
  - intros [= <- <-]. split; [done|]. intros k' [= <-]. cbn. lia.
Qed.

Lemma noteAuxPowParseFailure_count h k e : (0 <= sk_count k)%Z -> (0 <= sk_count (noteAuxPowParseFailure h k e))%Z.
Proof.
  intros Hk. unfold noteAuxPowParseFailure. case_bool_decide; cbn [negb].
  - destruct (e_auxPowParseFailure e); cbn; lia.
  - destruct (e_auxPowParseFailure e); cbn; lia.
Qed.

Lemma bounded_fetchBlock h : bounded (DB:=DB) (fetchBlock h).
Proof. unfold fetchBlock. bounded. Qed.

Lemma bounded_fetchNextBlock h : bounded (DB:=DB) (fetchNextBlock h).
Proof.
  pose proof bounded_clearQueue as Hclear. pose proof bounded_fetchBlock as Hfetch.
  apply bounded_try.
  - intros l. apply at_get. set (f := s_fetch (syn l)).
    apply at_bind.
    + destruct (shouldReassembleBlock h (auxPowParse f)); [apply bounded_bind; [done|]; intros; bounded|].
      destruct (prefetchQueue f) as [|[h' promise] rest] eqn:Eq; [apply bounded_bind; [done|]; intros; bounded|].
      case_bool_decide; [|apply bounded_bind; [done|]; intros; bounded].
      apply at_bind; [|intros ? l' _; apply bounded_pure].
      intros [Hq Hlen Hasc Hf Ha]. fold f in Hlen, Hasc. rewrite Eq in Hlen, Hasc.
      split; cbn; try done; [cbn in Hlen; lia|]. by eapply ascending_tail.
    + intros fetched l' _. apply bounded_bind; [|intros; bounded].
      apply bounded_mod. intros y []. split; cbn; try done; lia.
  - intros e. apply bounded_bind; [done|]. intros _ l. apply at_get. cbv zeta.
    set (f := s_fetch (syn l)). set (p := noteAuxPowParseFailure h (auxPowParse f) e).
    unfold keeps_at. intros Hl.
    assert (Hp : (0 <= sk_count p)%Z) by (apply noteAuxPowParseFailure_count, Hl).
    set (l1 := mkLoop (trk l) (set_fetch (mkFetching [] (blockFetch f) p) (syn l))).
    assert (Hl1 : sync_bounds (syn l1)).
    { apply bounds_no_queue; [done|apply Hl|done|done]. }
    rewrite (run_bind_ok _ _ l tt l1) by done.
    destruct (noteBlockFetchFailure h (blockFetch f) l1) as [r l2] eqn:E.
    destruct (bounded_noteBlockFetchFailure_ok h (blockFetch f) l1 r l2) as [Es Hk]; [apply Hl|done|].
    unfold mbind, M_bind. rewrite E. destruct r as [k|e'].
    + specialize (Hk k eq_refl). cbn. rewrite Es. by apply bounds_no_queue.
    + cbn [snd]. by rewrite Es.
Qed.

(** Staging leaves the size of the batch alone. *)
Definition same_size {A} (m : M (loop DB) A) : Prop := forall l,
  s_fetch (syn (m l).2) = s_fetch (syn l) /\ blocksQuantity (s_batch (syn (m l).2)) = blocksQuantity (s_batch (syn l)).

Lemma same_bind {A B} (m : M (loop DB) A) (f : A -> M (loop DB) B) :
  same_size m -> (forall a, same_size (f a)) -> same_size (m ≫= f).
Proof.
  intros Hm Hf l. unfold mbind, M_bind. specialize (Hm l). destruct (m l) as [[a|e] l']; [|done].
  destruct Hm as [<- <-]. apply Hf.
Qed.

Lemma same_on_trk {A} (m : M (tracker DB) A) : same_size (on_trk m).
Proof. intros l. unfold on_trk. by destruct (m (trk l)). Qed.

Lemma stageBlock_keeps block hash height prev : same_size (stageBlock block hash height prev).
Proof.
  assert (Hmod : forall f, (forall y, s_fetch (f y) = s_fetch y /\ blocksQuantity (s_batch (f y)) = blocksQuantity (s_batch y)) ->
    same_size (sync_mod f)) by (intros f Hf l; apply Hf).
  unfold stageBlock, on_store. apply same_bind; [done|]. intros b.
  apply same_bind; [unfold when; case_bool_decide; [apply same_on_trk|done]|]. intros _.
  apply same_bind; [apply same_on_trk|]. intros _. apply same_bind; [by apply Hmod|]. intros _.
  apply same_bind; [apply same_on_trk|]. intros [c n]. apply same_bind; [by apply Hmod|]. intros _. apply same_on_trk.
Qed.

Lemma bounded_stageBlock block hash height prev : bounded (DB:=DB) (stageBlock block hash height prev).
Proof.
  intros l. destruct (stageBlock_keeps block hash height prev l) as [E1 E2].
  exact (sync_bounds_same _ _ E2 E1).
Qed.

Lemma bounded_commit h : bounded (DB:=DB) (commitWithMempoolCleanup h).
Proof. unfold commitWithMempoolCleanup, commitSection. bounded. Qed.

Lemma bounded_finishFlushedBlock hash h : bounded (DB:=DB) (finishFlushedBlock hash h).
Proof.
  intros l []. unfold finishFlushedBlock, advanceCursor, sync_mod, modify, mbind, M_bind. by split.
Qed.

Lemma bounded_flushBatch hash h : bounded (DB:=DB) (flushBatch hash h).
Proof.
  pose proof (bounded_commit h). pose proof (bounded_finishFlushedBlock hash (Some h)).
  unfold flushBatch. bounded.
Qed.

(** The cursor moves on only while the batch has room. *)
Lemma at_advanceCursor hash h l :
  blocksQuantity (s_batch (syn l)) <> (DB_TRANSACTION_BLOCKS_QUANTITY - 1)%Z -> keeps_at (advanceCursor hash h) l.
Proof.
  intros Hn [Hq ? ? ? ?]. unfold advanceCursor, sync_mod, modify, mbind, M_bind.
  split; cbn; try done. unfold DB_TRANSACTION_BLOCKS_QUANTITY in *. lia.
Qed.

Lemma bounded_rereadCursor : bounded (DB:=DB) rereadCursor.
Proof. unfold rereadCursor. bounded. Qed.

Lemma bounded_resetBatch : bounded (DB:=DB) resetBatchAfterReorg.
Proof. pose proof bounded_empty_batch. unfold resetBatchAfterReorg, resyncMempoolAfterReorg. bounded. Qed.

Lemma bounded_runVerifyReorg tip : bounded (DB:=DB) (runVerifyReorg fuel tip).
Proof. unfold runVerifyReorg. bounded. Qed.

Lemma bounded_discardAndWalk : bounded (DB:=DB) (discardAndWalk fuel).
Proof.
  pose proof bounded_clearQueue. pose proof bounded_rereadCursor. pose proof bounded_resetBatch.
  pose proof bounded_runVerifyReorg.
  unfold discardAndWalk, verifyReorgHandingBackTipRefusal, countRefusedWalk. bounded.
Qed.

Lemma bounded_indexNextBlock : bounded (DB:=DB) (indexNextBlock fuel).
Proof.
  pose proof bounded_fillPrefetchQueue. pose proof bounded_fetchNextBlock. pose proof bounded_discardAndWalk.
  pose proof bounded_stageBlock.
  unfold indexNextBlock, rollBackOnPrevHashMismatch.
  apply bounded_bind; [bounded|]. intros info. apply bounded_bind; [bounded|]. intros idx.
  apply bounded_bind; [bounded|]. intros _. destruct idx as [idx|]; [|bounded]. cbv zeta.
  apply bounded_bind; [done|]. intros _. apply bounded_bind; [done|]. intros [fetched|]; [|bounded].
  apply bounded_bind; [bounded|]. intros block. apply bounded_bind; [bounded|]. intros ourHash.
  destruct (_ && _); [done|].
  intros l. apply at_bind; [apply bounded_stageBlock|]. intros _ l1 _.
  apply at_get. set (q := blocksQuantity (s_batch (syn l1))).
  apply at_bind; [apply bounded_on_trk|]. intros info' l2 E2.
  apply at_bind; [apply bounded_on_trk|]. intros n l3 E3.
  assert (Es : syn l3 = syn l1) by (injection E2 as _ <-; by injection E3 as _ <-).
  unfold flushTrigger. destruct (num_eq _ _); [apply bounded_flushBatch|].
  case_bool_decide as Hfull; [apply bounded_flushBatch|].
  destruct (heap_pressure n); [apply bounded_flushBatch|].
  apply at_advanceCursor. by rewrite Es.
Qed.

Lemma bounded_pollAtChainTip : bounded (DB:=DB) (pollAtChainTip fuel).
Proof.
  pose proof bounded_discardAndWalk. pose proof bounded_flushBatch.
  unfold pollAtChainTip, rollBackSameHeightTipSwap, flushPendingAtTip. bounded.
Qed.

Lemma bounded_pollAtTipOrIndex : bounded (DB:=DB) (pollAtTipOrIndex fuel).
Proof. pose proof bounded_pollAtChainTip. pose proof bounded_indexNextBlock. unfold pollAtTipOrIndex. bounded. Qed.

Lemma bounded_recover t i : bounded (DB:=DB) (recoverFromTipBelowOurs fuel t i).
Proof.
  pose proof bounded_rereadCursor. pose proof bounded_empty_batch. pose proof bounded_runVerifyReorg.
  unfold recoverFromTipBelowOurs, waitOnCatchingUpNode, rollBackToNodeTip, repairLastBlockPointer,
    countRefusedWalk, resyncMempoolAfterReorg. bounded.
Qed.

Lemma bounded_pollSyncLoop : bounded (DB:=DB) (pollSyncLoop fuel).
Proof.
  pose proof bounded_pollAtTipOrIndex. pose proof bounded_recover.
  unfold pollSyncLoop, refreshNodeTip, reconcileRefreshedTip. bounded.
Qed.
End passes.

(** C28 Through any pass of the sync loop, failing ones included, the open batch stays
    below its 200 blocks, at most ten blocks are queued ahead and at consecutive
    heights, and the streak of failed fetches stays below the count that stops the
    loop; a loop that starts is within these bounds. *)
Theorem loop_stays_within_its_bounds {node : Node} {rpcs : NodeRpc} {env : LoopEnv} {DB : Type} `{LevelDb DB}
    (fuel : nat) (l : loop DB) :
  (0 < MAX_BLOCK_FETCH_RETRIES)%Z ->
  (forall (c : sync_cursor) (t t' : tracker DB) y, newSyncLoopState c t = (Ok y, t') -> sync_bounds y)
  /\ (sync_bounds (syn l) -> sync_bounds (syn (pollSyncLoop fuel l).2)).
Proof.
  intros Hmax. split.
  - intros c t t' y [= <- _]. split; cbn; try done; lia.
  - by apply bounded_pollSyncLoop.
Qed.

Lemma loop_stays_within_its_bounds_witness : sync_bounds (syn (pollSyncLoop 5 loop0).2).
Proof.
  apply (loop_stays_within_its_bounds 5 loop0); [reflexivity|].
  split; cbn; try done; lia.
Defined.

(** * Blocks that cannot be fetched *)

Section fetch.
Context {node : Node} {rpcs : NodeRpc} {env : LoopEnv} {DB : Type} `{LevelDb DB}.
Implicit Types (l : loop DB).

(** The failures in a row at height [h], one more counted. *)
Definition one_more (h : Z) (k : streak) : Z :=
  if bool_decide (sk_height k = Some h) then (sk_count k + 1)%Z else 1%Z.

(** A body that leaves the streak of failed fetches alone. *)
Definition same_streak {A} (m : M (loop DB) A) : Prop :=
  forall l, blockFetch (s_fetch (syn (m l).2)) = blockFetch (s_fetch (syn l)).

Lemma streak_bind {A B} (m : M (loop DB) A) (f : A -> M (loop DB) B) :
  same_streak m -> (forall a, same_streak (f a)) -> same_streak (m ≫= f).
Proof.
  intros Hm Hf l. unfold mbind, M_bind. specialize (Hm l). destruct (m l) as [[a|e] l']; [|done].
  cbn in Hm. rewrite <- Hm. apply Hf.
Qed.

Lemma streak_on_trk {A} (m : M (tracker DB) A) : same_streak (on_trk m).
Proof. intros l. unfold on_trk. by destruct (m (trk l)). Qed.

Lemma streak_clear : same_streak clearQueue.
Proof. done. Qed.

Lemma streak_fetchBlock h : same_streak (fetchBlock h).
Proof.
  unfold fetchBlock. apply streak_bind; [apply streak_on_trk|]. intros hash.
  apply streak_bind; [apply streak_on_trk|]. done.
Qed.

(** The body of the [try]. *)
Definition fetchBody (h : Z) : M (loop DB) fetched_block :=
  f ← sync_get s_fetch;
  if shouldReassembleBlock h (auxPowParse f) then
    _ ← clearQueue;
    hash ← on_trk (rpc (fun n => rpc_getBlockHash n h));
    hex ← on_trk (rpc (fun n => rpc_getBlockReassembled n hash));
    mret (mkFetched hash hex)
  else
    match prefetchQueue f with
    | (h', promise) :: rest =>
        if bool_decide (h' = h) then
          _ ← sync_mod (fun y => set_fetch (set_queue rest (s_fetch y)) y);
          lift_res promise
        else _ ← clearQueue; fetchBlock h
    | [] => _ ← clearQueue; fetchBlock h
    end.

Lemma streak_fetchBody h : same_streak (fetchBody h).
Proof.
  pose proof (streak_fetchBlock h) as Hf.
  apply streak_bind; [done|]. intros f. destruct (shouldReassembleBlock _ _).
  - apply streak_bind; [done|]. intros _. apply streak_bind; [apply streak_on_trk|]. intros hash.
    apply streak_bind; [apply streak_on_trk|]. done.
  - destruct (prefetchQueue f) as [|[h' r] rest]; [by apply streak_bind|].
    case_bool_decide; by apply streak_bind.
Qed.

Lemma fetchNextBlock_body h :
  fetchNextBlock h
  = try_catch
      (b ← fetchBody h;
       _ ← sync_mod (fun y => set_fetch (mkFetching (prefetchQueue (s_fetch y)) no_streak no_streak) y);
       mret (Some b))
      (fun e =>
         _ ← clearQueue;
         f ← sync_get s_fetch;
         let p := noteAuxPowParseFailure h (auxPowParse f) e in
         _ ← sync_mod (fun y => set_fetch (mkFetching [] (blockFetch f) p) y);
         k ← noteBlockFetchFailure h (blockFetch f);
         _ ← sync_mod (fun y => set_fetch (mkFetching [] k p) y);
         mret None).
Proof. reflexivity. Qed.
End fetch.

(** A fetch has three outcomes.  A block resets both failure streaks.  A failure below
    the limit is swallowed, to be retried: the queue is emptied and the streak at this
    height is one longer.  The failure that reaches the limit throws, the height and the
    number of failures published. *)
Theorem fetch_failures_count_to_a_halt {node : Node} {rpcs : NodeRpc} {env : LoopEnv} {DB : Type} `{LevelDb DB}
    (h : Z) (l : loop DB) :
  let n := one_more h (blockFetch (s_fetch (syn l))) in
  let '(r, l') := fetchNextBlock h l in
  match r with
  | Ok (Some _) => blockFetch (s_fetch (syn l')) = no_streak /\ auxPowParse (s_fetch (syn l')) = no_streak
  | Ok None => (n < MAX_BLOCK_FETCH_RETRIES)%Z /\ blockFetch (s_fetch (syn l')) = mkStreak (Some h) n
               /\ prefetchQueue (s_fetch (syn l')) = []
  | Err e => (MAX_BLOCK_FETCH_RETRIES <= n)%Z /\ e = fetch_desync
             /\ blockFetchDesync (stat (trk l')) = Some (h, n)
  end.
Proof.
  intros n. rewrite fetchNextBlock_body. unfold try_catch.
  pose proof (streak_fetchBody h l) as Hs. unfold mbind at 1, M_bind at 1.
  destruct (fetchBody h l) as [[b|e] l1]; [done|]. cbn [snd] in Hs.
  set (l2 := mkLoop (trk l1) (set_fetch (set_queue [] (s_fetch (syn l1))) (syn l1))).
  rewrite (run_bind_ok _ _ l1 tt l2) by done.
  rewrite (run_bind_ok _ _ l2 (s_fetch (syn l2)) l2) by done. cbv zeta.
  change (blockFetch (s_fetch (syn l2))) with (blockFetch (s_fetch (syn l1))). rewrite Hs.
  set (p := noteAuxPowParseFailure _ _ _). set (k := blockFetch (s_fetch (syn l))) in *.
  set (l3 := mkLoop (trk l2) (set_fetch (mkFetching [] k p) (syn l2))).
  rewrite (run_bind_ok _ _ l2 tt l3) by done.
  unfold noteBlockFetchFailure. fold (one_more h k). fold n. cbv zeta.
  destruct (decide (MAX_BLOCK_FETCH_RETRIES <= n)%Z) as [Hle|Hgt].
  - rewrite (bool_decide_eq_true_2 _ Hle). by split_and!.
  - rewrite (bool_decide_eq_false_2 _ Hgt). split_and!; [lia|done|done].
Qed.
