(* ===== verification/RecoveryTheorems.v ===== *)
(** The loop's recovery from a reorg it meets while a batch is open: the batch is
    discarded, the window read back, the walk taken to the fork point and the blocks
    awaiting cleanup pruned, only those that did not come back. *)

From S2P Require Import Prelude KeyCodec ValueCodec LevelDb Store Outputs StoreFacts.
From S2P Require Import Rollback Parsing Apply Spend Block Roundtrip Tracker Window Reorg SyncLoop.
From S2P Require Import Batch Undo Chain Forward Indexing Utxo Concrete ChainTheorems ReorgTheorems.
From S2P Require Import WindowTheorems.
From stdpp Require Import gmap.

#[local] Open Scope string_scope.
#[local] Open Scope nat_scope.
#[local] Open Scope list_scope.

Section recovery.
Context {node : Node} {rpcs : NodeRpc} {env : LoopEnv} {DB : Type} `{LevelDbLaws DB}.
Implicit Types (l : loop DB) (t : tracker DB) (d : DB) (V : records).

(** Nothing of a block of the chain is in the records below it. *)
Lemma chain_own V bs b k :
  chain_ok V bs -> NoDup (bd_hash <$> bs) -> b ∈ bs -> wf_key k -> key_block k = Some (h2b (bd_hash b)) -> V k = None.
Proof.
  intros Hc. induction Hc as [|bs c Hc IH Hcw Hfr _]; intros Hnd Hb Hk Hkb; [by apply elem_of_nil in Hb|].
  rewrite fmap_app in Hnd. apply NoDup_app in Hnd as (Hnd & Hdis & _).
  apply elem_of_app in Hb as [Hb|Hb]; [by apply IH|].
  apply list_elem_of_singleton in Hb as ->.
  pose proof (fr_block _ _ Hfr k Hk Hkb) as E.
  assert (Hout : forall cs, (forall x, x ∈ cs -> x ∈ bs) -> chain_records V cs k = V k).
  { intros cs. induction cs as [|x cs IHc] using rev_ind; intros Hcs; [done|].
    rewrite chain_records_snoc. rewrite (committed_other_block _ x k (h2b (bd_hash c))); [apply IHc; set_solver|done|].
    intros Eh. assert (Hx : x ∈ bs) by (apply Hcs; set_solver).
    assert (Hxw : is_hash (bd_hash x)).
    { clear - Hc Hx. induction Hc as [|bs y Hc IH Hyw _ _]; [by apply elem_of_nil in Hx|].
      apply elem_of_app in Hx as [Hx|Hx]; [by apply IH|]. apply list_elem_of_singleton in Hx as ->. apply Hyw. }
    apply h2b_inj in Eh; [|apply Hcw|done].
    apply (Hdis (bd_hash x)); [by apply list_elem_of_fmap_2|]. rewrite <- Eh. by left. }
  rewrite <- E. symmetry. by apply Hout.
Qed.

(** ** The store, window and counters on the way *)

Lemma holds_meta d d' V hash h :
  holds d V hash h -> db_wf d' ->
  (forall k, wf_key k -> k <> KMeta PENDING_CLEANUP -> dk d' k = dk d k) -> holds d' V hash h.
Proof.
  intros [Hw Hr Hh Hhh] Hw' He. split; [done| |by rewrite He|by rewrite He].
  intros k Hk Hm. rewrite He; [by apply Hr|done|]. by intros ->.
Qed.

Lemma db_wf_put_pending d v : db_wf d -> db_wf (db_put d P_PENDING_CLEANUP_KEY v).
Proof.
  intros Hw b x. rewrite get_put. case_decide as E; [|apply Hw]. intros [= <-].
  exists (KMeta PENDING_CLEANUP). by split_and!.
Qed.

Lemma run_putPending t V hash h :
  holds (disk (db t)) V hash h ->
  exists d', putPendingCleanup t = (Ok tt, set_db (set_disk d' (db t)) t) /\ holds d' V hash h
    /\ (forall k, wf_key k -> k <> KMeta PENDING_CLEANUP -> dk d' k = dk (disk (db t)) k).
Proof.
  intros Hd. unfold putPendingCleanup, getw.
  rewrite (run_bind_ok _ _ t (pendingKMCleanup (win t)) t) by done. case_bool_decide.
  - eexists. split; [reflexivity|].
    assert (He : forall v k, wf_key k -> k <> KMeta PENDING_CLEANUP ->
      dk (db_put (disk (db t)) P_PENDING_CLEANUP_KEY v) k = dk (disk (db t)) k).
    { intros v k Hk Hne. unfold dk. rewrite get_put, decide_False; [done|].
      intros E. apply Hne. symmetry. by apply (enc_inj (KMeta PENDING_CLEANUP) k). }
    split; [|apply He]. eapply holds_meta; [done|apply db_wf_put_pending, Hd|apply He].
  - exists (disk (db t)). split_and!; [|done|done]. by destruct t as [[] ? ? ? ? ?].
Qed.

(** The blocks the disk lists, with their heights, are the window [W]. *)
Record listed d (W : list (string * Z)) : Prop := {
  ls_blocks : forall x, x ∈ W.*1 <-> is_hash x /\ is_Some (dk d (KStoredBlk (h2b x)));
  ls_stored : forall x h, (x, h) ∈ W -> stored_at d x h;
  ls_order : StronglySorted (fun a b : string * Z => (a.2 < b.2)%Z) W;
  ls_nodup : NoDup W.*1;
}.

Lemma listed_same d d' W :
  (forall k, wf_key k -> is_meta k = false -> dk d' k = dk d k) -> listed d W -> listed d' W.
Proof.
  intros He [Hb Hs Ho Hn]. split; [| |done|done].
  - intros x. rewrite Hb. split; intros [Hx E]; (split; [done|]);
      [rewrite He|rewrite <- He]; try done; by apply h2b_hash32.
  - intros x h Hin. destruct (Hs x h Hin) as (Hx & tm & ph & ? & ? & ? & E). split; [done|].
    exists tm, ph. split_and!; [done..|]. rewrite He; [done|by apply h2b_hash32|done].
Qed.

Lemma run_reload t W : db_wf (disk (db t)) -> listed (disk (db t)) W ->
  reloadLastBlocks t = (Ok tt, set_win (set_lastBlocks W.*1 (win t)) t).
Proof.
  intros Hd [Hb Hs Ho Hn]. unfold reloadLastBlocks.
  assert (E : loadLastBlocksSortedByHeight t = (Ok W.*1, t)).
  { apply run_load_unique; [|done|done]. apply NoDup_Permutation; [done|by apply stored_hashes_NoDup|].
    intros x. rewrite Hb. by rewrite stored_hashes_spec. }
  by rewrite (run_bind_ok _ _ _ _ _ E).
Qed.

(** The window over a chain: the blocks below it, in height order, and the chain's. *)
Record window_below V (L0 : list (string * Z)) (h0 : Z) : Prop := {
  wb_blocks : forall x, x ∈ L0.*1 <-> is_hash x /\ is_Some (V (KStoredBlk (h2b x)));
  wb_stored : forall x h, (x, h) ∈ L0 -> is_hash x /\ (h <= h0)%Z
    /\ exists tm ph, u32 h /\ u32 tm /\ is_hash ph /\ V (KBlock (h2b x)) = Some (block_val h tm (h2b ph));
  wb_order : StronglySorted (fun a b : string * Z => (a.2 < b.2)%Z) L0;
  wb_nodup : NoDup L0.*1;
}.

Definition entries (bs : list block_data) : list (string * Z) := (fun b => (bd_hash b, bd_height b)) <$> bs.

Lemma entries_fst bs : (entries bs).*1 = bd_hash <$> bs.
Proof. unfold entries. by rewrite <- list_fmap_compose. Qed.

Lemma window_below_snoc V L0 h0 b :
  block_wf b -> fresh_in V b -> (bd_height b = h0 + 1)%Z ->
  window_below V L0 h0 -> window_below (committed b V) (L0 ++ [(bd_hash b, bd_height b)]) (bd_height b).
Proof.
  intros Hb Hfr Hh [Hbl Hst Ho Hn]. pose proof (bk_hash _ Hb) as Hhb.
  assert (Hnew : bd_hash b ∉ L0.*1).
  { intros [_ [v E]]%Hbl. rewrite (fr_block _ _ Hfr) in E; [done|by apply h2b_hash32|done]. }
  assert (Hold : forall x, is_hash x -> x <> bd_hash b -> h2b x <> h2b (bd_hash b)) by (intros x Hx Hne E; by apply h2b_inj in E).
  split.
  - intros x. rewrite fmap_app. change ([(bd_hash b, bd_height b)].*1) with [bd_hash b].
    rewrite elem_of_app, list_elem_of_singleton, Hbl. cbn [committed]. split.
    + intros [[Hx E]| ->]; (split; [done|]); case_decide; done.
    + intros [Hx E]. case_decide as Ex; [right; by apply h2b_inj in Ex|by left].
  - intros x h [Hin|[= -> ->]%list_elem_of_singleton]%elem_of_app.
    + destruct (Hst x h Hin) as (Hx & Hle & tm & ph & ? & ? & ? & E). split_and!; [done|lia|].
      exists tm, ph. split_and!; [done..|]. cbn [committed]. rewrite decide_False; [done|].
      apply Hold; [done|]. intros ->. apply Hnew. apply list_elem_of_fmap. by exists (bd_hash b, h).
    + split_and!; [done|lia|]. exists (bd_time b), (bd_prev b).
      split_and!; [apply height_ok_u32, Hb|apply Hb|apply Hb|]. cbn [committed]. by rewrite decide_True.
  - apply StronglySorted_app_2; [|done|repeat constructor].
    intros [x h] [x' h'] Hin [= -> ->]%list_elem_of_singleton. destruct (Hst x h Hin) as (_ & Hle & _). cbn. lia.
  - rewrite fmap_app. change ([(bd_hash b, bd_height b)].*1) with [bd_hash b].
    apply NoDup_app. split_and!; [done| |apply NoDup_singleton].
    intros x Hx ->%list_elem_of_singleton. done.
Qed.

Lemma window_below_chain V bs : forall L0 hash0 h0,
  chain_ok V bs -> linked hash0 h0 bs -> window_below V L0 h0 ->
  window_below (chain_records V bs) (L0 ++ entries bs) (tip_height h0 bs).
Proof.
  induction bs as [|b bs IH] using rev_ind; intros L0 hash0 h0 Hc Hl Hw.
  - unfold entries, tip_height. cbn. by rewrite app_nil_r, Z.add_0_r.
  - inversion Hc as [E|bs' b' Hc' Hb Hfr Hh E]; [by destruct bs|]. apply app_inj_tail in E as [-> ->].
    apply linked_snoc in Hl as (Hl & _ & Hbh).
    rewrite chain_records_snoc, tip_height_snoc. unfold entries. rewrite fmap_app, app_assoc. fold (entries bs).
    rewrite <- Hbh. apply (window_below_snoc _ _ (tip_height h0 bs)); [done|done|done|by eapply IH].
Qed.

Lemma listed_holds d V hash h W : holds d V hash h -> window_below V W h -> listed d W.
Proof.
  intros Hd [Hb Hs Ho Hn]. split; [| |done|done].
  - intros x. rewrite Hb. split; intros [Hx E]; (split; [done|]);
      [rewrite (hd_records _ _ _ _ Hd)|rewrite <- (hd_records _ _ _ _ Hd)]; try done; by apply h2b_hash32.
  - intros x k Hin. destruct (Hs x k Hin) as (Hx & _ & tm & ph & ? & ? & ? & E). split; [done|].
    exists tm, ph. split_and!; [done..|]. rewrite (hd_records _ _ _ _ Hd); [done|by apply h2b_hash32|done].
Qed.

(** ** The walk and what follows it *)

(** The store the loop is on before the walk: the committed chain, whatever batch is
    open, and a window the batch may have moved. *)
Record met_reorg (node_hash : Z -> string) l V0 (hash0 : string) (h0 : Z) (L0 : list (string * Z))
    (bs : list block_data) : Prop := {
  mr_chain : chain_ok V0 bs;
  mr_linked : linked hash0 h0 bs;
  mr_holds : holds (disk (db (trk l))) (chain_records V0 bs) (tip_hash hash0 bs) (tip_height h0 bs);
  mr_faults : faults (db (trk l)) = [];
  mr_window : window_below V0 L0 h0;
  mr_pending : forall x, x ∈ pendingKMCleanup (win (trk l)) -> is_hash x /\ x ∈ L0.*1 ++ (bd_hash <$> bs);
  mr_depth : (Z.of_nat (length bs) <= undoBlocks (win (trk l)))%Z;
  mr_fork : fork_point V0 hash0 h0;
  mr_forked : forked node_hash None hash0 h0 bs;
}.

(** Recovered: back at the fork point with nothing in flight. *)
Record recovered l V0 (hash0 : string) (h0 : Z) (l0 : list string) (n : nat) l' : Prop := {
  rc_holds : holds (disk (db (trk l'))) V0 hash0 h0;
  rc_window : win (trk l') = set_pending [] (set_lastBlocks l0 (win (trk l)));
  rc_cursor : lastProcessedBlockIndex (syn l') = Some h0 /\ lastProcessedBlockHash (syn l') = Some hash0;
  rc_batch : s_batch (syn l') = empty_batch;
  rc_queue : prefetchQueue (s_fetch (syn l')) = [];
  rc_info : lastBlockchainInfo (syn l') = None;
  rc_unsynced : synced (stat (trk l')) = false;
  rc_mempool : mempoolInterval (stat (trk l)) = true -> mempoolReconverged (stat (trk l')) = false;
  rc_counts : (reorgCount (stat (trk l')) = reorgCount (stat (trk l)) + Z.of_nat (Nat.min 1 n))%Z;
}.

(** Pruning blocks of the chain above leaves the records below alone. *)
Lemma pruned_above V0 bs A :
  chain_ok V0 bs -> NoDup (bd_hash <$> bs) -> (forall x, x ∈ A -> exists b, b ∈ bs /\ x = h2b (bd_hash b)) ->
  agree (pruned A V0) V0.
Proof.
  intros Hc Hnd HA k Hk Hm. unfold pruned. destruct (index_of k) as [bh|] eqn:Ei; [|done].
  case_decide as Hin; [|done]. destruct (HA bh Hin) as (b & Hb & ->). symmetry.
  apply (chain_own V0 bs b); try done. by destruct k.
Qed.

(** The cleanup that ends the recovery. *)
Lemma run_cleanup_after t V0 hash0 h0 bs :
  chain_ok V0 bs -> NoDup (bd_hash <$> bs) ->
  holds (disk (db t)) V0 hash0 h0 -> faults (db t) = [] ->
  (forall x, x ∈ pendingKMCleanup (win t) -> is_hash x /\ x ∈ lastBlocks (win t) ++ (bd_hash <$> bs)) ->
  exists s', cleanupAgedBlocks t = (Ok tt, set_win (set_pending [] (win t)) (set_db s' t))
    /\ holds (disk s') V0 hash0 h0.
Proof.
  intros Hc Hnd Hd Hf Hp. destruct (decide (pendingKMCleanup (win t) = [])) as [E|Hne].
  - exists (db t). split; [|done]. unfold cleanupAgedBlocks. rewrite (run_bind_ok _ _ t (win t) t) by done.
    rewrite E. destruct t as [? ? [] ? ? ?]. cbn in *. by subst.
  - destruct (run_cleanupAgedBlocks t) as (s' & Er & Hv & Hw & _); [done|by apply Hp|apply Hd| |].
    + unfold commit_ok. by rewrite Hf.
    + exists s'. split; [done|]. destruct Hd as [Hw0 Hr Hh Hhh]. split; [done| | |].
      * intros k Hk Hm. rewrite Hv, decide_False by (done || by intros ->).
        set (A := h2b <$> _). transitivity (pruned A V0 k); [unfold pruned; by rewrite Hr|].
        apply (pruned_above V0 bs A); [done|done| |done|done].
        intros x (y & -> & (Hy & Hyl & _)%blocksToClean_spec)%list_elem_of_fmap.
        destruct (Hp y Hy) as [_ [?|(b & -> & Hb)%list_elem_of_fmap]%elem_of_app]; [done|by exists b].
      * by rewrite Hv.
      * by rewrite Hv.
Qed.

Lemma run_discardAndWalk node_hash fuel l V0 hash0 h0 L0 bs :
  met_reorg node_hash l V0 hash0 h0 L0 bs -> length bs < fuel ->
  exists l', discardAndWalk fuel l = (Ok tt, l') /\ recovered l V0 hash0 h0 L0.*1 (length bs) l'.
Proof.
  intros [Hc Hln Hd Hf Hwb Hp Hdep Hfp Hfk] Hfuel. unfold discardAndWalk.
  set (W := L0 ++ entries bs).
  assert (EW : W.*1 = L0.*1 ++ (bd_hash <$> bs)) by (unfold W; by rewrite fmap_app, entries_fst).
  assert (HW : listed (disk (db (trk l))) W) by (eapply listed_holds; [exact Hd|by eapply window_below_chain]).
  set (t0 := trk l) in *. set (t1 := set_stat (set_synced false (stat t0)) t0).
  rewrite (run_bind_ok _ _ l tt (mkLoop t1 (syn l))) by done.
  set (y1 := set_fetch (set_queue [] (s_fetch (syn l))) (syn l)).
  rewrite (run_bind_ok _ _ _ tt (mkLoop t1 y1)) by done.
  set (s2 := set_dtx None (set_tx None (set_known ∅ (db t1)))). set (t2 := set_db s2 t1).
  rewrite (run_bind_ok _ _ _ tt (mkLoop t2 y1)) by done.
  destruct (run_putPending t2 _ _ _ Hd) as (d3 & E3 & Hd3 & He3). set (t3 := set_db (set_disk d3 s2) t2) in *.
  rewrite (run_bind_ok _ _ _ tt (mkLoop t3 y1)) by (by apply run_on_trk_ok).
  assert (HW3 : listed d3 W) by (eapply listed_same; [|exact HW]; intros k Hk Hm; apply He3; [done|by intros ->]).
  pose proof (run_reload t3 W (hd_wf _ _ _ _ Hd3) HW3) as E4.
  set (t4 := set_win (set_lastBlocks W.*1 (win t3)) t3) in *.
  rewrite (run_bind_ok _ _ _ tt (mkLoop t4 y1)) by (by apply run_on_trk_ok).
  assert (Hcs : chain_state t4 V0 hash0 h0 L0.*1 bs).
  { split; try done. cbn. apply (ls_nodup _ _ HW). }
  assert (Hndb : NoDup (bd_hash <$> bs)).
  { pose proof (ls_nodup _ _ HW) as Hn. rewrite EW in Hn. by apply NoDup_app in Hn as (_ & _ & ?). }
  destruct (run_verifyReorg node_hash t4 V0 hash0 h0 L0.*1 bs None fuel Hcs Hfp Hfk Hdep Hfuel) as (s5 & c5 & E5 & Hcs5).
  set (t5 := counted (length bs) (walked t4 s5 L0.*1 (length bs) c5)) in *.
  assert (E5' : verifyReorgHandingBackTipRefusal fuel (mkLoop t4 y1) = (Ok tt, mkLoop t5 y1)).
  { unfold verifyReorgHandingBackTipRefusal. rewrite (run_bind_ok _ _ _ (reorgRollbacksThisProcess (stat t4)) (mkLoop t4 y1)) by done.
    unfold try_catch, runVerifyReorg. by rewrite (run_bind_ok _ _ _ _ _ (run_on_trk_ok _ (mkLoop t4 y1) _ _ E5)). }
  rewrite (run_bind_ok _ _ _ _ _ E5').
  assert (Hd5 : holds (disk (db t5)) V0 hash0 h0).
  { pose proof (cs_holds _ _ _ _ _ _ Hcs5) as Hd5. unfold tip_height, tip_hash in Hd5. cbn [length] in Hd5.
    rewrite Z.add_0_r in Hd5. unfold t5, counted. by case_bool_decide. }
  assert (Hx5 : faults (db t5) = [] /\ lastBlocks (win t5) = L0.*1 /\ pendingKMCleanup (win t5) = pendingKMCleanup (win t0)
    /\ win t5 = set_lastBlocks L0.*1 (win t0)).
  { pose proof (cs_faults _ _ _ _ _ _ Hcs5). unfold t5, counted. by case_bool_decide. }
  destruct Hx5 as (Hf5 & Hw5 & Hp5 & Hwin5).
  assert (E6 : rereadCursor (mkLoop t5 y1) = (Ok tt, mkLoop t5 (set_cursor (Some h0) (Some hash0) y1))).
  { assert (Edb : set_db (db t5) t5 = t5) by by destruct t5.
    unfold rereadCursor.
    rewrite (run_bind_ok _ _ _ _ _ (run_on_store_ok _ (mkLoop t5 y1) _ _ (run_getLastBlockHeight _ _ _ _ Hd5))). cbn [trk syn]. rewrite Edb.
    rewrite (run_bind_ok _ _ _ _ _ (run_on_store_ok _ (mkLoop t5 y1) _ _ (run_getLastBlockHash _ _ _ _ Hd5))). cbn [trk syn]. by rewrite Edb. }
  rewrite (run_bind_ok _ _ _ _ _ E6). set (y6 := set_cursor _ _ y1).
  destruct (run_cleanup_after t5 V0 hash0 h0 bs Hc Hndb Hd5 Hf5) as (s7 & E7 & Hd7).
  { rewrite Hp5, Hw5. exact Hp. }
  rewrite (run_bind_ok _ _ _ _ _ (run_on_trk_ok _ (mkLoop t5 y6) _ _ E7)).
  set (t7 := set_win (set_pending [] (win t5)) (set_db s7 t5)).
  eexists. split; [reflexivity|].
  assert (Hs5 : synced (stat t5) = false /\ mempoolInterval (stat t5) = mempoolInterval (stat t0)
    /\ (reorgCount (stat t5) = reorgCount (stat t0) + Z.of_nat (Nat.min 1 (length bs)))%Z).
  { unfold t5, counted. case_bool_decide; (split_and!; [done|done|]).
    - change (reorgCount (stat t0) + 1 = reorgCount (stat t0) + Z.of_nat (Nat.min 1 (length bs)))%Z. lia.
    - change (reorgCount (stat t0) = reorgCount (stat t0) + Z.of_nat (Nat.min 1 (length bs)))%Z. lia. }
  destruct Hs5 as (Hs5 & Hi5 & Hr5).
  split; cbn; try done.
  - by rewrite Hwin5.
  - rewrite Hi5. by destruct (mempoolInterval (stat t0)).
  - intros Hi. rewrite Hi5. fold t0 in Hi. by rewrite Hi.
  - rewrite Hi5. by destruct (mempoolInterval (stat t0)).
Qed.
End recovery.

(** C4 A block that does not name our tip as its parent starts a recovery: the open batch is
    thrown away, the walk takes the store back to the block both chains share, the loop's
    cursor and window follow, nothing stays in flight and the tracker is not ready; and the
    blocks the thrown-away batch had pushed out of the window, which are back in it, keep
    their recovery records. *)
Theorem mismatch_recovers_to_the_fork_point {node : Node} {rpcs : NodeRpc} {env : LoopEnv} {DB : Type} `{LevelDbLaws DB}
    (node_hash : Z -> string) (fuel : nat) (l : loop DB) (V0 : records) (hash0 : string) (h0 : Z)
    (L0 : list (string * Z)) (bs : list block_data) :
  met_reorg node_hash l V0 hash0 h0 L0 bs -> length bs < fuel ->
  exists l', rollBackOnPrevHashMismatch fuel l = (Ok tt, l') /\ recovered l V0 hash0 h0 L0.*1 (length bs) l'.
Proof. apply run_discardAndWalk. Qed.

(** [loop1] with a batch open that has pushed the stored block out of the window. *)
Definition loop_open : loop mapdb :=
  mkLoop (set_db (opened (db tracker1))
            (set_win (set_pending [hx xb0] (set_lastBlocks [hx xb1; hx xb2; hx xc2] (win tracker1))) tracker1))
    (set_batch (set_quantity 1 empty_batch) (syn loop1)).

Lemma window0_below : window_below (dk disk0) [(hx xb0, 100%Z)] 100.
Proof.
  split.
  - intros x. change ([(hx xb0, 100%Z)].*1) with [hx xb0]. rewrite list_elem_of_singleton. split.
    + intros ->. split; [apply hx_is_hash|]. by eexists.
    + intros [Hx Hs]. by apply disk0_stored.
  - intros x k [= -> ->]%list_elem_of_singleton. destruct stored0_at as (H1 & H2).
    exact (conj H1 (conj (Z.le_refl 100) H2)).
  - by repeat constructor.
  - apply NoDup_singleton.
Qed.

Lemma loop_open_met : met_reorg node_chain loop_open (dk disk0) (hx xb0) 100 [(hx xb0, 100%Z)] [block1; block2].
Proof.
  destruct tracker1_state as [Hc Hl Hd Hf _ _]. split.
  - exact Hc.
  - exact Hl.
  - exact Hd.
  - exact Hf.
  - exact window0_below.
  - intros x Hx. change (x ∈ [hx xb0]) in Hx. apply list_elem_of_singleton in Hx as ->.
    split; [apply hx_is_hash|]. change (hx xb0 ∈ [hx xb0; hx xb1; hx xb2]). by left.
  - change (undoBlocks (win (trk loop_open))) with (undoBlocks (win tracker1)). rewrite tracker1_undo. cbn. lia.
  - exact fork0.
  - split; [done|done|done|]. each_elem; right; by vm_compute.
Qed.

Lemma mismatch_recovers_to_the_fork_point_witness :
  exists l', rollBackOnPrevHashMismatch 3 loop_open = (Ok tt, l')
    /\ recovered loop_open (dk disk0) (hx xb0) 100 [hx xb0] 2 l'.
Proof.
  apply (mismatch_recovers_to_the_fork_point node_chain 3 loop_open (dk disk0) (hx xb0) 100 [(hx xb0, 100%Z)]
           [block1; block2] loop_open_met).
  cbn. lia.
Defined.
