(* ===== verification/QueryTheorems.v ===== *)
(** The answers to an address query: amounts are exact, the pages of an address follow
    each other without gap or repeat, and only outputs that can be spent are served. *)

From S2P Require Import Prelude KeyCodec ValueCodec LevelDb Store Outputs StoreFacts Tracker Queries.
From S2P Require Import CodecTheorems Concrete.
From S2P Require Json.
From stdpp Require Import gmap.

#[local] Open Scope string_scope.
#[local] Open Scope nat_scope.
#[local] Open Scope list_scope.

(** * Amounts *)

Fixpoint undot (s : string) : string :=
  match s with
  | String.EmptyString => String.EmptyString
  | String.String c r => if bool_decide (c = "."%char) then undot r else String.String c (undot r)
  end.

Lemma undot_append a b : undot (String.append a b) = String.append (undot a) (undot b).
Proof.
  induction a as [|c a IH]; [done|]. change (String.append (String.String c a) b) with (String.String c (String.append a b)).
  cbn [undot]. rewrite IH. by case_bool_decide.
Qed.

Lemma undot_digits s : all_digits s = true -> undot s = s.
Proof.
  induction s as [|c s IH]; [done|]. cbn [all_digits undot]. intros [Hc Hs]%andb_true_iff.
  rewrite bool_decide_eq_false_2; [by rewrite IH|]. intros ->. by apply bool_decide_eq_true in Hc as [d Hd].
Qed.

Lemma digits_radix10 n : (0 <= n)%Z -> all_digits (to_radix 10 n) = true.
Proof.
  intros Hn. unfold to_radix. rewrite bool_decide_eq_false_2 by lia. by apply all_digits_radix.
Qed.

Lemma all_digits_repeat0 k s : all_digits s = true -> all_digits (repeat0 k s) = true.
Proof. intros Hs. by induction k as [|k IH]; [|cbn [repeat0 all_digits]]. Qed.

Lemma length_repeat0 k s : String.length (repeat0 k s) = k + String.length s.
Proof. induction k as [|k IH]; [done|]. cbn [repeat0 String.length]. by rewrite IH. Qed.

(** Reading digits after others. *)
Lemma parse_run_tail s :
  all_digits s = true ->
  exists v, forall a, parse_run 10 a true s = Some (a * 10 ^ Z.of_nat (String.length s) + v)%Z.
Proof.
  induction s as [|c s IH]; cbn [all_digits]; [intros _; exists 0%Z; intros a; cbn; f_equal; lia|].
  intros [[d Hd]%bool_decide_eq_true Hs]%andb_true_iff. destruct (IH Hs) as [v Hv].
  exists (d * 10 ^ Z.of_nat (String.length s) + v)%Z. intros a. cbn [parse_run]. rewrite Hd, Hv.
  f_equal. cbn [String.length]. rewrite Nat2Z.inj_succ, Z.pow_succ_r by lia. ring.
Qed.

Lemma parse_run_repeat0 k s a : parse_run 10 a true (repeat0 k s) = parse_run 10 (a * 10 ^ Z.of_nat k) true s.
Proof.
  revert a. induction k as [|k IH]; intros a; [cbn; f_equal; lia|].
  cbn [repeat0 parse_run]. change (digit_val 10 "0"%char) with (Some 0%Z). cbv iota beta. rewrite IH.
  f_equal. rewrite Nat2Z.inj_succ, Z.pow_succ_r by lia. ring.
Qed.

Lemma length_radix_digits fuel m n acc :
  (0 <= n < 10 ^ Z.of_nat (S m))%Z -> String.length (radix_digits fuel 10 n acc) <= S m + String.length acc.
Proof.
  revert m n acc. induction fuel as [|f IH]; intros m n acc Hn; cbn [radix_digits]; [lia|].
  case_bool_decide as Hs; [cbn; lia|]. destruct m as [|m]; [cbn in Hn; lia|].
  assert (Hd : (0 <= n / 10 < 10 ^ Z.of_nat (S m))%Z).
  { split; [apply Z.div_pos; lia|]. apply Z.div_lt_upper_bound; [lia|].
    rewrite Nat2Z.inj_succ, Z.pow_succ_r in Hn by lia. lia. }
  specialize (IH m (n / 10)%Z (String.String (hex_digit (n mod 10)) acc) Hd). cbn [String.length] in IH. lia.
Qed.

Lemma radix_value n a :
  (0 <= n)%Z -> parse_run 10 a true (to_radix 10 n) = Some (a * 10 ^ Z.of_nat (String.length (to_radix 10 n)) + n)%Z.
Proof.
  intros Hn. destruct (parse_run_tail _ (digits_radix10 n Hn)) as [v Hv]. rewrite Hv.
  assert (E : parse_run 10 0 true (to_radix 10 n) = Some n).
  { unfold to_radix. rewrite bool_decide_eq_false_2 by lia.
    rewrite parse_run_digits by (try apply Json.log2_fuel; lia). done. }
  rewrite Hv in E. injection E as <-. f_equal.
Qed.

(** The eight digits after the point. *)
Lemma frac_value f a :
  (0 <= f < SATOSHI_BIGINT)%Z ->
  let s := padStart0 8 (to_radix 10 f) in
  String.length s = 8 /\ all_digits s = true
  /\ parse_run 10 a true s = Some (a * SATOSHI_BIGINT + f)%Z.
Proof.
  intros Hf s. unfold s, padStart0, SATOSHI_BIGINT in *.
  assert (Hl : String.length (to_radix 10 f) <= 8).
  { unfold to_radix. rewrite bool_decide_eq_false_2 by lia.
    pose proof (length_radix_digits (S (Z.to_nat (Z.log2 f))) 7 f "") as Hl. cbn [String.length] in Hl.
    specialize (Hl ltac:(lia)). lia. }
  rewrite length_repeat0. split_and!; [lia|apply all_digits_repeat0, digits_radix10; lia|].
  rewrite parse_run_repeat0, radix_value by lia. f_equal. f_equal.
  rewrite <- Z.mul_assoc, <- Z.pow_add_r by lia.
  replace (Z.of_nat (8 - String.length (to_radix 10 f)) + Z.of_nat (String.length (to_radix 10 f)))%Z with 8%Z by lia.
  done.
Qed.

(** An amount is printed exactly, of any size and sign: eight digits after the point,
    and reading the string without the point gives the satoshis back. *)
Theorem amounts_are_exact (v : Z) :
  (exists whole frac, satoshiToDecimalString v = String.append whole (String.append "." frac)
     /\ String.length frac = 8 /\ all_digits frac = true)
  /\ parseInt (undot (satoshiToDecimalString v)) 10 = Some v.
Proof.
  set (w := (Z.abs v / SATOSHI_BIGINT)%Z). set (f := (Z.abs v mod SATOSHI_BIGINT)%Z).
  assert (Hf : (0 <= f < SATOSHI_BIGINT)%Z) by (apply Z.mod_pos_bound; done).
  assert (Hw : (0 <= w)%Z) by (apply Z.div_pos; [lia|done]).
  assert (Hv : Z.abs v = (w * SATOSHI_BIGINT + f)%Z) by (unfold w, f; rewrite Z.mul_comm; apply Z.div_mod; done).
  set (fs := padStart0 8 (to_radix 10 f)).
  destruct (frac_value f w Hf) as (Hl & Hd & Hp). fold fs in Hl, Hd, Hp.
  set (sign := if bool_decide (v < 0)%Z then "-" else "").
  assert (E : satoshiToDecimalString v = String.append sign (String.append (to_radix 10 w) (String.append "." fs))) by done.
  split.
  - exists (String.append sign (to_radix 10 w)), fs. split_and!; [|done|done].
    rewrite E. generalize (to_radix 10 w) (String.append "." fs). intros a b. clear.
    induction sign as [|c s IH]; [done|]. apply (f_equal (String.String c)), IH.
  - rewrite E, !undot_append, (undot_digits fs Hd), (undot_digits _ (digits_radix10 w Hw)).
    change (String.append (undot ".") fs) with fs.
    assert (Er : String.append (to_radix 10 w) fs = radix_digits (S (Z.to_nat (Z.log2 w))) 10 w fs).
    { unfold to_radix. rewrite bool_decide_eq_false_2 by lia. by rewrite Json.radix_digits_append. }
    assert (Hrun : parse_run 10 0 false (String.append (to_radix 10 w) fs) = Some (Z.abs v)).
    { rewrite Er, parse_run_digits by (try apply Json.log2_fuel; lia). by rewrite Hp, Hv. }
    unfold sign. case_bool_decide as Hneg.
    + change (String.append (undot "-") ?s) with (String.String "-"%char s). unfold parseInt. cbn [trim_start].
      replace (is_space "-"%char) with false by (vm_compute; done). cbv iota.
      rewrite Hrun. cbn. f_equal. lia.
    + change (String.append (undot "") ?s) with s.
      destruct (radix_digits_head (S (Z.to_nat (Z.log2 w))) 10 w fs) as (d & r & Hdd & Ed); [lia|lia|].
      rewrite Er in *. rewrite Ed in *. unfold parseInt, trim_start. rewrite (is_space_hex_digit d Hdd).
      assert (Hdash : forall c, nib c = None -> hex_digit d <> c)
        by (intros c Hc Heq; rewrite <- Heq, nib_hex_digit in Hc by done; done).
      pose proof (Hdash "-"%char eq_refl). pose proof (Hdash "+"%char eq_refl).
      repeat case_match; simplify_eq; rewrite Hrun; f_equal; lia.
Qed.

(** * Pages *)

Section pages.
Context {node : Node} {DB : Type} `{LevelDbLaws DB}.
Implicit Types (s : store DB) (d : DB).

(** The decoding of every entry, in order. *)
Fixpoint decodeRows (l : list (bytes * bytes)) : res (list utxo_row) :=
  match l with
  | [] => Ok []
  | e :: r => x ← decodeRow e; xs ← decodeRows r; Ok (x :: xs)
  end.

Lemma rowsLoop_free l n : rowsLoop None l n = decodeRows l.
Proof. revert n. induction l as [|e l IH]; intros n; [done|]. cbn [rowsLoop decodeRows].
  destruct (decodeRow e); [|done]. cbn [mbind res_bind]. by rewrite IH. Qed.

Lemma decodeRows_length l rows : decodeRows l = Ok rows -> length rows = length l.
Proof.
  revert rows. induction l as [|e l IH]; intros rows; cbn [decodeRows]; [by intros [= <-]|].
  destruct (decodeRow e) as [x|]; [|done]. cbn [mbind res_bind].
  destruct (decodeRows l) as [xs|]; [|done]. intros [= <-]. cbn. by rewrite (IH xs).
Qed.

Lemma decodeRows_take n l rows : decodeRows l = Ok rows -> decodeRows (take n l) = Ok (take n rows).
Proof.
  revert n rows. induction l as [|e l IH]; intros n rows; cbn [decodeRows].
  - intros [= <-]. by rewrite !take_nil.
  - destruct (decodeRow e) as [x|] eqn:E; [|done]. cbn [mbind res_bind].
    destruct (decodeRows l) as [xs|] eqn:El; [|done]. intros [= <-]. destruct n as [|n]; [done|].
    cbn [take decodeRows]. rewrite E. cbn [mbind res_bind]. by rewrite (IH n xs).
Qed.

Lemma decodeRows_split l rows p r rest :
  decodeRows l = Ok rows -> rows = p ++ r :: rest ->
  exists lp e lr, l = lp ++ e :: lr /\ decodeRow e = Ok r /\ decodeRows lr = Ok rest.
Proof.
  revert rows p. induction l as [|e l IH]; intros rows p; cbn [decodeRows].
  - intros [= <-]. by destruct p.
  - destruct (decodeRow e) as [x|] eqn:E; [|done]. cbn [mbind res_bind].
    destruct (decodeRows l) as [xs|] eqn:El; [|done]. intros [= <-] Ep.
    destruct p as [|y p]; cbn in Ep; injection Ep as -> Ep.
    + subst xs. by exists [], e, l.
    + destruct (IH xs p eq_refl Ep) as (lp & e' & lr & -> & Hr). by exists (e :: lp), e', lr.
Qed.

(** Under a ceiling the same rows come, or none. *)
Lemma rowsLoop_ceiling c l rows : forall n,
  decodeRows l = Ok rows -> (0 <= n)%Z ->
  rowsLoop (Some c) l n
  = if bool_decide (n + Z.of_nat (length rows) <= Z.max c n)%Z then Ok rows else Err (Error (EAddressTooLarge c)).
Proof.
  revert rows. induction l as [|e l IH]; intros rows n; cbn [decodeRows rowsLoop].
  - intros [= <-] Hn. rewrite bool_decide_eq_true_2; [done|]. cbn. lia.
  - destruct (decodeRow e) as [x|] eqn:E; [|done]. cbn [mbind res_bind].
    destruct (decodeRows l) as [xs|] eqn:El; [|done]. intros [= <-] Hn. cbn [length].
    case_bool_decide as Hc.
    + rewrite bool_decide_eq_false_2 by lia. done.
    + rewrite (IH xs) by (done || lia).
      destruct (decide (n + 1 + Z.of_nat (length xs) <= Z.max c (n + 1))%Z) as [Hd|Hd].
      * rewrite bool_decide_eq_true_2 by done. rewrite bool_decide_eq_true_2 by lia. done.
      * rewrite bool_decide_eq_false_2 by done. rewrite bool_decide_eq_false_2 by lia. done.
Qed.

(** The entries after one of them. *)
Lemma iterator_after d P lp k v lr :
  prefix_scan d P = lp ++ (k, v) :: lr ->
  db_iterator d (mkRange (Some k) None (Some (rangeEnd P)) None) = lr.
Proof.
  intros E. pose proof (iterator_sorted d (prefix_range P)) as Hs.
  change (db_iterator d (prefix_range P)) with (prefix_scan d P) in Hs. rewrite E in Hs.
  assert (Hall : forall x y, (x, y) ∈ prefix_scan d P <-> db_get d x = Some y /\ in_range (prefix_range P) x = true)
    by (intros x y; by apply iterator_elem).
  eapply StronglySorted_unique_strong; [|apply iterator_sorted| |].
  - intros x1 x2 _ _ [H1 Hne] [H2 _]. exfalso. by apply Hne, ble_antisym.
  - apply StronglySorted_app in Hs as (_ & _ & Hs). by inversion Hs.
  - apply NoDup_Permutation; [eapply NoDup_fmap_1, strictly_sorted_NoDup, iterator_sorted| |].
    { apply StronglySorted_app in Hs as (_ & _ & Hs). inversion Hs; subst. by eapply NoDup_fmap_1, strictly_sorted_NoDup. }
    apply StronglySorted_app in Hs as (Hp & _ & Hs). inversion Hs as [|? ? _ Hk]; subst. rewrite Forall_forall in Hk.
    assert (Hkin : in_range (prefix_range P) k = true) by (apply (Hall k v); rewrite E; set_solver).
    intros [x y]. rewrite iterator_elem by done. unfold in_range, prefix_range in *. cbn [r_gt r_gte r_lte andb] in *.
    apply andb_true_iff in Hkin as [Hk1 Hk2]. split.
    + intros [Hg [[Hlt _]%andb_true_iff Hle]%andb_true_iff].
      apply andb_true_iff in Hlt as [Hlt Hne%negb_true_iff%bool_decide_eq_false].
      assert (Hin : (x, y) ∈ prefix_scan d P).
      { apply Hall. split; [done|]. rewrite andb_true_iff. split; [|done]. by eapply ble_trans. }
      rewrite E in Hin. apply elem_of_app in Hin as [Hin|[[= -> ->]|Hin]%elem_of_cons]; [|done|done].
      destruct (Hp (x, y) (k, v) Hin ltac:(by left)) as [Hle' Hne']. exfalso. apply Hne. by apply ble_antisym.
    + intros Hin. destruct (Hk (x, y) Hin) as [Hle Hne]. cbn [fst] in *.
      assert (Hx : (x, y) ∈ prefix_scan d P) by (rewrite E; set_solver).
      apply Hall in Hx as [Hg Hr]. split; [done|]. apply andb_true_iff in Hr as [_ Hr].
      rewrite Hr. unfold blt. rewrite Hle. by rewrite bool_decide_eq_false_2.
Qed.

(** The key a row was read from. *)
Lemma decodeRow_key d sh k v r :
  db_wf d -> hash32 sh -> (k, v) ∈ prefix_scan d (pb P_OUTPUT ++ sh) -> decodeRow (k, v) = Ok r ->
  is_hash (u_txid r) /\ u32 (u_vout r) /\ k = pb P_OUTPUT ++ sh ++ h2b (u_txid r) ++ idxBuf (u_vout r).
Proof.
  intros Hd Hsh (k' & -> & Hk & _ & _ & Hp)%elem_of_scan; [|done].
  apply prefix_output in Hp as (t & i & ->); [|done|done]. destruct Hk as (_ & Ht & Hi).
  unfold decodeRow.
  assert (Er : read_u32 (enc (KOutput sh t i)) 65 = Ok i).
  { change (enc (KOutput sh t i)) with (pb P_OUTPUT ++ sh ++ t ++ be 4 i).
    unfold read_u32. rewrite <- (app_nil_r (be 4 i)).
    rewrite (app_assoc sh t), (app_assoc (pb P_OUTPUT)).
    rewrite (read_field_mid (pb P_OUTPUT ++ sh ++ t) (be 4 i) [] 65 4).
    - cbn [mbind res_bind]. by rewrite unbe_be4.
    - unfold hash32 in *. rewrite !length_app. cbn. lia.
    - apply length_be. }
  rewrite Er. cbn [mbind res_bind]. destruct (decodeOutput v) as [o|]; [|done]. intros [= <-]. cbn [u_txid u_vout].
  change (enc (KOutput sh t i)) with (P_OUTPUT :: sh ++ t ++ be 4 i).
  rewrite slice_33_65 by done. rewrite h2b_b2h. split_and!; [by apply b2h_is_hash|done|].
  unfold idxBuf. by rewrite ushr0_id.
Qed.
End pages.

(** The read without limit. *)
Definition all_rows {node : Node} {DB : Type} `{LevelDb DB} (sh : string) (s : store DB) : res (list utxo_row) :=
  (getOutputsScriptPubKey sh None None None s).1.

(** C38 The pages of an address are its outputs cut in order: the first page is the first
    [n] rows, the page after the cursor of any row is the [n] rows that follow that row,
    so that pages read one after the other give every row once and in order; and a read
    under a ceiling gives all the rows, or refuses an address that has more. *)
Theorem pages_partition_the_outputs {node : Node} {DB : Type} `{LevelDbLaws DB} (s : store DB) (sh : string)
    (rows : list utxo_row) (n c : Z) :
  is_hash sh -> db_wf (disk s) -> all_rows sh s = Ok rows -> (0 < n)%Z -> (0 <= c)%Z ->
  getOutputsScriptPubKey sh (Some n) None None s = (Ok (take (Z.to_nat n) rows), s)
  /\ (forall before r rest, rows = before ++ r :: rest ->
        getOutputsScriptPubKey sh (Some n) (Some (print_cursor (u_txid r) (u_vout r))) None s
        = (Ok (take (Z.to_nat n) rest), s))
  /\ getOutputsScriptPubKey sh None None (Some c) s
     = (if bool_decide (Z.of_nat (length rows) <= c)%Z then Ok rows else Err (Error (EAddressTooLarge c)), s).
Proof.
  intros Hsh Hd Hall Hn Hc. pose proof (h2b_hash32 sh Hsh) as Hsh32.
  set (P := pb P_OUTPUT ++ h2b sh).
  assert (Hrows : decodeRows (prefix_scan (disk s) P) = Ok rows).
  { rewrite <- (rowsLoop_free _ 0). exact Hall. }
  assert (Hlim : page_limit (Some n) = Some (Z.to_nat n)) by (unfold page_limit; by rewrite bool_decide_eq_true_2).
  split_and!.
  - unfold getOutputsScriptPubKey. rewrite (run_bind_ok _ _ s (None, Some P) s) by done.
    rewrite Hlim. cbn [fst snd].
    rewrite (run_bind_ok _ _ s (take (Z.to_nat n) (prefix_scan (disk s) P)) s).
    2:{ unfold dbIterator, gets. by rewrite iterator_limit. }
    unfold lift_res. rewrite rowsLoop_free. by rewrite (decodeRows_take _ _ _ Hrows).
  - intros before r rest Er. destruct (decodeRows_split _ _ _ _ _ Hrows Er) as (lp & [k v] & lr & El & Ee & Elr).
    destruct (decodeRow_key (disk s) (h2b sh) k v r Hd Hsh32) as (Ht & Hv & Ek); [fold P; rewrite El; set_solver|done|].
    unfold getOutputsScriptPubKey. rewrite (parse_print_cursor _ _ Ht Hv).
    rewrite (run_bind_ok _ _ s (Some k, None) s) by (rewrite Ek, <- app_assoc; done).
    rewrite Hlim. cbn [fst snd].
    rewrite (run_bind_ok _ _ s (take (Z.to_nat n) lr) s).
    2:{ unfold dbIterator, gets. rewrite iterator_limit. cbn [r_limit take_limit r_gt r_gte r_lte].
        pose proof (iterator_after _ _ _ _ _ _ El) as Ei. unfold P in Ei. by rewrite Ei. }
    unfold lift_res. rewrite rowsLoop_free. by rewrite (decodeRows_take _ _ _ Elr).
  - unfold getOutputsScriptPubKey. rewrite (run_bind_ok _ _ s (None, Some P) s) by done.
    rewrite (run_bind_ok _ _ s (prefix_scan (disk s) P) s) by done.
    unfold lift_res. cbn [page_limit]. rewrite (rowsLoop_ceiling c _ rows) by (done || lia).
    rewrite Z.max_l, Z.add_0_l by lia. done.
Qed.

(** Three outputs of one script. *)
Definition rows_disk : mapdb :=
  kdb [ (KOutput (raw x51) (raw x11) 0, output_val 5000000000 101 (raw x11) true);
        (KOutput (raw x51) (raw x11) 7, output_val 1 101 (raw x11) false);
        (KOutput (raw x51) (raw x12) 1, output_val 250 102 (raw x12) false) ].

Definition three_rows : list utxo_row :=
  [ mkRow (hx x11) (Some (hx x11)) 0 5000000000 101 true;
    mkRow (hx x11) (Some (hx x11)) 7 1 101 false;
    mkRow (hx x12) (Some (hx x12)) 1 250 102 false ].

Lemma rows_disk_wf : db_wf rows_disk.
Proof. apply kdb_wf. each_elem; by vm_compute. Qed.

Lemma pages_partition_the_outputs_witness :
  getOutputsScriptPubKey (hx x51) (Some 2%Z) (Some (print_cursor (hx x11) 0)) None (store0 rows_disk)
  = (Ok [mkRow (hx x11) (Some (hx x11)) 7 1 101 false; mkRow (hx x12) (Some (hx x12)) 1 250 102 false],
     store0 rows_disk)
  /\ getOutputsScriptPubKey (hx x51) None None (Some 2%Z) (store0 rows_disk)
     = (Err (Error (EAddressTooLarge 2)), store0 rows_disk).
Proof.
  destruct (pages_partition_the_outputs (store0 rows_disk) (hx x51) three_rows 2 2) as (_ & Hp & Hc).
  - apply hx_is_hash.
  - apply rows_disk_wf.
  - by vm_compute.
  - lia.
  - lia.
  - split; [exact (Hp [] _ _ eq_refl)|exact Hc].
Defined.

(** * What is served *)

(** The whole txid of a row. *)
Definition full (r : utxo_row) : string := default (u_txid r) (u_fullTxid r).

Record row_ok (r : utxo_row) : Prop := {
  ro_txid : is_hash (u_txid r);
  ro_full : forall f, u_fullTxid r = Some f -> is_hash f;
}.

Lemma row_full r : row_ok r -> is_hash (full r).
Proof. intros [Ht Hf]. unfold full. destruct (u_fullTxid r) as [f|]; [by apply Hf|done]. Qed.

Lemma run_requireFullTxid r : row_ok r -> requireFullTxid r = Ok (full r).
Proof.
  intros Hr. pose proof (row_full r Hr) as [Hl _]. destruct Hr as [_ Hf]. unfold requireFullTxid, full in *.
  destruct (u_fullTxid r) as [f|]; cbn [default] in *.
  - rewrite (bool_decide_eq_false_2 (f = "")) by (intros ->; done). by rewrite bool_decide_eq_true_2.
  - by rewrite bool_decide_eq_true_2.
Qed.

Section serving.
Context {node : Node} {lib : AddressLib} {cfg : ChainConfig} {DB : Type} `{LevelDbLaws DB}.
Implicit Types (t : tracker DB).

(** A read changes nothing a read sees. *)
Definition unread t t' : Prop :=
  db t' = db t /\ disk (mempoolDb t') = disk (mempoolDb t) /\ stat t' = stat t /\ win t' = win t.

Lemma unread_refl t : unread t t.
Proof. done. Qed.

Lemma unread_trans t1 t2 t3 : unread t1 t2 -> unread t2 t3 -> unread t1 t3.
Proof. intros (E1 & E2 & E3 & E4) (F1 & F2 & F3 & F4). split_and!; congruence. Qed.

(** A transaction of the mempool spends the row's output. *)
Definition spent_by_mempool t (r : utxo_row) : bool :=
  bool_decide (is_Some (dk (disk (mempoolDb t)) (KInput (h2b (full r)) (ushr0 (u_vout r))))).

(** The confirmed store has the row's output. *)
Definition confirmed_output t (r : utxo_row) : bool :=
  bool_decide (is_Some (dk (disk (db t)) (KOutHint (h2b (full r)) (ushr0 (u_vout r))))).

Lemma unread_spent t t' r : unread t t' -> spent_by_mempool t' r = spent_by_mempool t r.
Proof. intros (_ & E & _). unfold spent_by_mempool. by rewrite E. Qed.

Lemma run_mempool_input t r :
  is_hash (full r) -> exists v t', on_mempool (getInput (full r) (u_vout r)) t = (Ok v, t') /\ unread t t'
    /\ bool_decide (is_Some v) = spent_by_mempool t r.
Proof.
  intros Hf. unfold on_mempool, getInput. rewrite kInput_ok by done.
  do 2 eexists. split; [reflexivity|]. split; [|done]. split_and!; try done. cbn. by destruct (db t).
Qed.

Lemma run_confirmed_output t r :
  is_hash (full r) -> on_db (hasOutputForTx (full r) (u_vout r)) t = (Ok (confirmed_output t r), t).
Proof. intros Hf. unfold on_db, hasOutputForTx. rewrite kOutHint_ok by done. by destruct t. Qed.

(** The depth of a row under the node's tip. *)
Definition depth t (r : utxo_row) : option Z :=
  (fun tip => tip - u_height r + 1)%Z <$> blockchainInfoLastBlock (stat t).

Definition shallow t (r : utxo_row) (n : Z) : bool :=
  match depth t r with Some c => bool_decide (c < n)%Z | None => false end.

(** A confirmed row that may be spent now. *)
Definition spendable t (r : utxo_row) : bool :=
  negb (spent_by_mempool t r) && negb (shallow t r 0)
  && negb (u_coinbase r && bool_decide (0 < coinbaseMaturity)%Z && shallow t r coinbaseMaturity).

Definition confirmed_row t (hex : string) (r : utxo_row) : served :=
  mkServed (full r) (u_fullTxid r) (u_vout r) (u_value r) (Some (u_height r)) (u_coinbase r) (depth t r)
    (satoshiToDecimalString (u_value r)) hex.

Definition key_of (r : utxo_row) : string := outpoint (full r) (u_vout r).

(** A mempool row that may be spent: no store confirms it, nothing spends it. *)
Definition pending_row t (keys : gset string) (paged : bool) (r : utxo_row) : bool :=
  negb (bool_decide (key_of r ∈ keys)) && negb (paged && confirmed_output t r) && negb (spent_by_mempool t r).

(** Rows are judged alike after a read. *)
Lemma unread_depth t t' r : unread t t' -> depth t' r = depth t r.
Proof. intros (_ & _ & E & _). unfold depth. by rewrite E. Qed.

Lemma unread_spendable t t' r : unread t t' -> spendable t' r = spendable t r.
Proof. intros Hu. unfold spendable, shallow. by rewrite (unread_spent t t'), (unread_depth t t'). Qed.

Lemma unread_pending t t' keys paged r : unread t t' -> pending_row t' keys paged r = pending_row t keys paged r.
Proof.
  intros Hu. unfold pending_row. rewrite (unread_spent t t') by done.
  unfold confirmed_output. by rewrite (proj1 Hu).
Qed.

Definition served_confirmed t hex (rows : list utxo_row) : list served :=
  confirmed_row t hex <$> filter (fun r => spendable t r = true) rows.

Lemma unread_served t t' hex rows : unread t t' -> served_confirmed t' hex rows = served_confirmed t hex rows.
Proof.
  intros Hu. unfold served_confirmed.
  rewrite (list_filter_iff _ (fun r => spendable t r = true)) by (intros x; by rewrite (unread_spendable t t')).
  apply list_fmap_ext. intros i x _. unfold confirmed_row. by rewrite (unread_depth t t').
Qed.

Lemma served_confirmed_cons t hex r rows :
  served_confirmed t hex (r :: rows)
  = (if spendable t r then [confirmed_row t hex r] else []) ++ served_confirmed t hex rows.
Proof.
  unfold served_confirmed. rewrite filter_cons. destruct (spendable t r); [by rewrite decide_True|by rewrite decide_False].
Qed.

Lemma run_addServable results r hex t :
  addServableConfirmedUtxo results r (full r) hex t
  = (Ok (if negb (shallow t r 0) && negb (u_coinbase r && bool_decide (0 < coinbaseMaturity)%Z && shallow t r coinbaseMaturity)
         then results ++ [confirmed_row t hex r] else results), t).
Proof.
  unfold addServableConfirmedUtxo, confirmed_row, shallow, depth, gets, mbind, M_bind. cbv zeta.
  destruct (match _ <$> _ with Some c => bool_decide (c < 0)%Z | None => false end); [done|].
  by destruct (u_coinbase r && _ && _).
Qed.

Lemma run_serveConfirmed rows : forall t keys results hex,
  (forall r, r ∈ rows -> row_ok r) ->
  exists t', serveConfirmed rows keys results hex t
    = (Ok (list_to_set (key_of <$> rows) ∪ keys, results ++ served_confirmed t hex rows), t') /\ unread t t'.
Proof.
  induction rows as [|r rows IH]; intros t keys results hex Hr; cbn [serveConfirmed].
  - exists t. split; [|done]. unfold mret, M_ret. rewrite app_nil_r. do 3 f_equal. set_solver.
  - pose proof (Hr r ltac:(by left)) as Hrow. pose proof (row_full r Hrow) as Hf.
    unfold claimConfirmedOutpoint. rewrite (run_requireFullTxid r Hrow). cbn [mbind res_bind].
    rewrite (run_bind_ok _ _ t (full r, {[key_of r]} ∪ keys) t) by done.
    destruct (run_mempool_input t r Hf) as (v & t1 & E & Hu & Hv). rewrite (run_bind_ok _ _ _ _ _ E), Hv.
    assert (Hkeys : list_to_set (key_of <$> r :: rows) ∪ keys
      = list_to_set (key_of <$> rows) ∪ ({[key_of r]} ∪ keys)) by (rewrite fmap_cons, list_to_set_cons; set_solver).
    rewrite Hkeys, served_confirmed_cons, app_assoc, <- (unread_served t t1 hex rows Hu).
    assert (Hrest : forall res1, exists t', serveConfirmed rows ({[key_of r]} ∪ keys) res1 hex t1
      = (Ok (list_to_set (key_of <$> rows) ∪ ({[key_of r]} ∪ keys), res1 ++ served_confirmed t1 hex rows), t')
      /\ unread t t').
    { intros res1. destruct (IH t1 ({[key_of r]} ∪ keys) res1 hex) as (t' & E' & Hu'); [intros x Hx; apply Hr; by right|].
      exists t'. split; [done|]. by eapply unread_trans. }
    destruct (spent_by_mempool t r) eqn:Es.
    + assert (Esp : spendable t r = false) by (unfold spendable; by rewrite Es). rewrite Esp, app_nil_r. apply Hrest.
    + rewrite (run_bind_ok _ _ _ _ _ (run_addServable results r hex t1)).
      assert (Esp : spendable t1 r = negb (shallow t1 r 0)
        && negb (u_coinbase r && bool_decide (0 < coinbaseMaturity)%Z && shallow t1 r coinbaseMaturity)).
      { unfold spendable. by rewrite (unread_spent t t1), Es. }
      rewrite <- Esp, (unread_spendable t t1) by done.
      assert (Ec : confirmed_row t1 hex r = confirmed_row t hex r) by (unfold confirmed_row; by rewrite (unread_depth t t1)).
      rewrite Ec. destruct (spendable t r); [apply Hrest|rewrite app_nil_r; apply Hrest].
Qed.

Definition served_pending t hex keys paged (rows : list utxo_row) : list served :=
  (fun r => mempoolUtxo r (full r) hex) <$> filter (fun r => pending_row t keys paged r = true) rows.

Lemma served_pending_cons t hex keys paged r rows :
  served_pending t hex keys paged (r :: rows)
  = (if pending_row t keys paged r then [mempoolUtxo r (full r) hex] else []) ++ served_pending t hex keys paged rows.
Proof.
  unfold served_pending. rewrite filter_cons.
  destruct (pending_row t keys paged r); [by rewrite decide_True|by rewrite decide_False].
Qed.

Lemma unread_served_pending t t' hex keys paged rows :
  unread t t' -> served_pending t' hex keys paged rows = served_pending t hex keys paged rows.
Proof.
  intros Hu. unfold served_pending.
  by rewrite (list_filter_iff _ (fun r => pending_row t keys paged r = true))
    by (intros x; by rewrite (unread_pending t t')).
Qed.

Lemma run_addPending results r keys paged hex t :
  row_ok r ->
  exists t', addServableMempoolUtxo results r keys paged hex t
    = (Ok (if pending_row t keys paged r then results ++ [mempoolUtxo r (full r) hex] else results), t') /\ unread t t'.
Proof.
  intros Hrow. pose proof (row_full r Hrow) as Hf. unfold addServableMempoolUtxo, pending_row.
  rewrite (run_requireFullTxid r Hrow). rewrite (run_bind_ok _ _ t (full r) t) by done.
  change (outpoint (full r) (u_vout r)) with (key_of r).
  destruct (bool_decide (key_of r ∈ keys)); [by exists t|]. cbn [negb andb].
  assert (Es : (if paged then on_db (hasOutputForTx (full r) (u_vout r)) else mret false) t
    = (Ok (paged && confirmed_output t r), t)) by (destruct paged; [by apply run_confirmed_output|done]).
  rewrite (run_bind_ok _ _ _ _ _ Es). destruct (paged && confirmed_output t r); [by exists t|]. cbn [negb andb].
  destruct (run_mempool_input t r Hf) as (v & t1 & E & Hu & Hv). rewrite (run_bind_ok _ _ _ _ _ E), Hv.
  exists t1. split; [|done]. by destruct (spent_by_mempool t r).
Qed.

Lemma run_serveMempool rows : forall t keys paged results hex,
  (forall r, r ∈ rows -> row_ok r) ->
  exists t', serveMempool rows keys paged results hex t
    = (Ok (results ++ served_pending t hex keys paged rows), t') /\ unread t t'.
Proof.
  induction rows as [|r rows IH]; intros t keys paged results hex Hr; cbn [serveMempool].
  - exists t. by rewrite app_nil_r.
  - destruct (run_addPending results r keys paged hex t) as (t1 & E & Hu); [apply Hr; by left|].
    rewrite (run_bind_ok _ _ _ _ _ E), served_pending_cons, app_assoc, <- (unread_served_pending t t1) by done.
    set (res1 := if pending_row t keys paged r then _ else _).
    destruct (IH t1 keys paged res1 hex) as (t' & E' & Hu'); [intros x Hx; apply Hr; by right|].
    exists t'. split; [|by eapply unread_trans]. rewrite E'. unfold res1.
    destruct (pending_row t keys paged r); [done|by rewrite app_nil_r].
Qed.
End serving.

(** * The answers *)

Section answers.
Context {node : Node} {lib : AddressLib} {cfg : ChainConfig} {DB : Type} `{LevelDbLaws DB}.
Implicit Types (t : tracker DB).

(** A read of outputs depends on what the disk holds, and changes nothing. *)
Definition rows_of (d : DB) (sh : string) (limit : option Z) (after : option string) (max : option Z)
    : res (list utxo_row) :=
  (getOutputsScriptPubKey sh limit after max (mkStore d None None ∅ ∅ [])).1.

Lemma run_rows (s : store DB) sh limit after max :
  getOutputsScriptPubKey sh limit after max s = (rows_of (disk s) sh limit after max, s).
Proof.
  unfold rows_of, getOutputsScriptPubKey. destruct after as [c|]; [|reflexivity].
  by destruct (parseOutputCursor (Some c)) as [[x v]|].
Qed.

Lemma run_db_rows t sh limit after max :
  on_db (getOutputsScriptPubKey sh limit after max) t = (rows_of (disk (db t)) sh limit after max, t).
Proof. unfold on_db. rewrite run_rows. by destruct t. Qed.

Lemma run_mempool_rows t sh limit after max :
  exists t', on_mempool (getOutputsScriptPubKey sh limit after max) t
    = (rows_of (disk (mempoolDb t)) sh limit after max, t') /\ unread t t'.
Proof.
  unfold on_mempool. rewrite run_rows. eexists. split; [reflexivity|].
  split_and!; try done. cbn. by destruct (db t).
Qed.

Lemma run_snapshot t :
  exists sn, readCommittedSnapshot t = (Ok sn, t)
    /\ sn_reorgCount sn = reorgCount (stat t) /\ sn_mempoolEpoch sn = mempoolEpoch (stat t)
    /\ on_db getLastBlockHeight t = (Ok (sn_committedHeight sn), t) /\ on_db getLastBlockHash t = (Ok (sn_committedHash sn), t).
Proof.
  assert (Edb : set_db (db t) t = t) by by destruct t.
  assert (E1 : exists h, on_db getLastBlockHeight t = (Ok h, t)).
  { assert (E : exists h, getLastBlockHeight (db t) = (Ok h, db t)).
    { unfold getLastBlockHeight, dbGet, gets, mbind, M_bind.
      destruct (db_get (disk (db t)) PREFIX_LAST_BLOCK_HEIGHT); by eexists. }
    destruct E as [h E]. exists h. by rewrite (run_on_db_ok _ t _ _ E), Edb. }
  assert (E2 : exists h, on_db getLastBlockHash t = (Ok h, t)).
  { assert (E : exists h, getLastBlockHash (db t) = (Ok h, db t)) by by eexists.
    destruct E as [h E]. exists h. by rewrite (run_on_db_ok _ t _ _ E), Edb. }
  destruct E1 as [h E1], E2 as [x E2]. unfold readCommittedSnapshot.
  rewrite (run_bind_ok _ _ _ _ _ E1), (run_bind_ok _ _ _ _ _ E2). eexists. split; [reflexivity|]. by split_and!.
Qed.
End answers.

(** C7 What an address query serves is the outputs that can be spent: of the page of confirmed
    outputs the ones no mempool transaction spends, deep enough to be valid and mature, in
    order; then, on the first page, the mempool's own outputs that are in no confirmed store
    and that nothing spends.  The snapshot is the committed tip the rows were read at, and
    the read changes nothing. *)
Theorem only_spendable_outputs_are_served {node : Node} {lib : AddressLib} {cfg : ChainConfig} {DB : Type} `{LevelDbLaws DB}
    (t : tracker DB) (address : option string) (limit : option Z) (after : option string) (script : bytes)
    (confirmed pending : list utxo_row) :
  let sh := script_hash script in
  let hex := b2h script in
  let paged := bool_decide (is_Some (page_limit limit)) in
  addressToScript address chain_network = Ok script ->
  (if paged then rows_of (disk (db t)) sh (Z.of_nat <$> page_limit limit) after None
   else rows_of (disk (db t)) sh None None (Some MAX_ADDRESS_OUTPUTS)) = Ok confirmed ->
  rows_of (disk (mempoolDb t)) sh None None (Some MAX_ADDRESS_OUTPUTS) = Ok pending ->
  (forall r, r ∈ confirmed ++ pending -> row_ok r) ->
  exists page t', getUtxosAddress address limit after t = (Ok page, t') /\ unread t t'
    /\ pg_rows page = served_confirmed t hex confirmed
         ++ (if negb paged || bool_decide (after = None)
             then served_pending t hex (list_to_set (key_of <$> confirmed)) paged pending else [])
    /\ pg_nextCursor page = (if paged then Some (nextPageCursor confirmed (page_limit limit)) else None)
    /\ on_db getLastBlockHeight t = (Ok (sn_committedHeight (pg_snapshot page)), t)
    /\ on_db getLastBlockHash t = (Ok (sn_committedHash (pg_snapshot page)), t)
    /\ sn_mempoolReconverged (pg_snapshot page) = mempoolReconverged (stat t).
Proof.
  intros sh hex paged Ha Hc Hm Hok. unfold getUtxosAddress, readUtxosAddress, utxoQueryPlan. rewrite Ha.
  cbn [mbind res_bind]. rewrite (run_bind_ok _ _ t (mkPlan sh hex (page_limit limit)) t) by done.
  cbn [qp_scriptHash qp_scriptPubKeyHex qp_pageLimit]. fold paged.
  destruct (run_snapshot t) as (sn & Es & _ & _ & Eh & Ex). rewrite (run_bind_ok _ _ _ _ _ Es).
  rewrite (run_bind_ok _ _ t confirmed t).
  2:{ rewrite <- Hc. destruct paged; apply run_db_rows. }
  cbv zeta. set (first := negb paged || bool_decide (after = None)).
  assert (Em : exists t1, (if first then on_mempool (getOutputsScriptPubKey sh None None (Some MAX_ADDRESS_OUTPUTS))
      else mret []) t = (Ok (if first then pending else []), t1) /\ unread t t1).
  { destruct first; [|by exists t]. destruct (run_mempool_rows t sh None None (Some MAX_ADDRESS_OUTPUTS)) as (t1 & E & Hu).
    exists t1. by rewrite E, Hm. }
  destruct Em as (t1 & Em & Hu1). rewrite (run_bind_ok _ _ _ _ _ Em).
  destruct (run_serveConfirmed confirmed t1 ∅ [] hex) as (t2 & E2 & Hu2); [intros r Hr; apply Hok; set_solver|].
  rewrite (run_bind_ok _ _ _ _ _ E2). cbv iota beta. rewrite union_empty_r_L, app_nil_l.
  destruct (run_serveMempool (if first then pending else []) t2 (list_to_set (key_of <$> confirmed)) paged
    (served_confirmed t1 hex confirmed) hex) as (t3 & E3 & Hu3); [intros r Hr; apply Hok; destruct first; set_solver|].
  rewrite (run_bind_ok _ _ _ _ _ E3). rewrite (run_bind_ok _ _ t3 (stat t3) t3) by done.
  assert (Hu : unread t t3) by (eapply unread_trans; [done|by eapply unread_trans]).
  eexists _, t3. split; [reflexivity|]. cbn [pg_rows pg_nextCursor pg_snapshot stamp_reconverged
    sn_committedHeight sn_committedHash sn_mempoolReconverged].
  split_and!; [done| |done|done|done|by (destruct Hu as (_ & _ & -> & _))].
  rewrite (unread_served t t1) by done.
  rewrite (unread_served_pending t t2) by exact (unread_trans _ _ _ Hu1 Hu2). by destruct first.
Qed.

(** Two confirmed outputs of one script beside a coinbase that is not mature, one of
    them spent in the mempool, which pays the script again. *)
Definition served_script : bytes := [x51].
Definition served_hash : bytes := digest0 served_script.

Definition served_disk : mapdb :=
  kdb [ (KOutput served_hash (raw x11) 0, output_val 5000000000 101 (raw x11) true);
        (KOutput served_hash (raw x12) 7, output_val 1 101 (raw x12) false);
        (KOutput served_hash (raw x13) 1, output_val 250 102 (raw x13) false);
        (KMeta LAST_BLOCK_HASH, from_latin1 (hx xb2));
        (KMeta LAST_BLOCK_HEIGHT, from_latin1 (to_radix 16 102)) ].

Definition served_mempool : mapdb :=
  kdb [ (KInput (raw x12) 7, raw x21);
        (KOutput served_hash (raw x21) 0, output_val 77 0 (raw x21) false) ].

Definition serving0 : tracker mapdb :=
  mkTracker (store0 served_disk) (store0 served_mempool) (window0 []) status0 0 "regtest".

#[global] Instance lib0 : AddressLib := {
  toOutputScript a _ := if bool_decide (a = "addr") then Ok served_script else Err (Error (EMsg "no matching Script"));
  fromBase58Check _ := None;
  toBase58Check _ _ := "";
  payments _ _ _ := false;
}.

#[global] Instance chain0 : ChainConfig := {
  chain_network := mkNetwork "bcrt" 196;
  coinbaseMaturity := 100;
  MAX_ADDRESS_OUTPUTS := 1000;
}.

Definition confirmed0 : list utxo_row :=
  [ mkRow (hx x11) (Some (hx x11)) 0 5000000000 101 true;
    mkRow (hx x12) (Some (hx x12)) 7 1 101 false;
    mkRow (hx x13) (Some (hx x13)) 1 250 102 false ].

Definition pending0 : list utxo_row := [ mkRow (hx x21) (Some (hx x21)) 0 77 0 false ].

Lemma rows0_ok r : r ∈ confirmed0 ++ pending0 -> row_ok r.
Proof. revert r. each_elem; (split; [apply hx_is_hash|]; intros f [= <-]; apply hx_is_hash). Qed.

Lemma only_spendable_outputs_are_served_witness :
  exists page, (getUtxosAddress (Some "addr") (Some 3%Z) None serving0).1 = Ok page
    /\ pg_rows page
       = [ mkServed (hx x13) (Some (hx x13)) 1 250 (Some 102%Z) false (Some 1%Z) "0.00000250" "51";
           mkServed (hx x21) (Some (hx x21)) 0 77 None false (Some 0%Z) "0.00000077" "51" ].
Proof.
  destruct (only_spendable_outputs_are_served serving0 (Some "addr") (Some 3%Z) None served_script confirmed0 pending0)
    as (page & t' & E & _ & Hr & _).
  - by vm_compute.
  - by vm_compute.
  - by vm_compute.
  - apply rows0_ok.
  - exists page. split; [by rewrite E|]. rewrite Hr. by vm_compute.
Defined.

(** * The balance *)

(** The satoshis of some rows. *)
Definition value_sum (rows : list utxo_row) : Z := foldr (fun r a => (u_value r + a)%Z) 0%Z rows.

Lemma value_sum_cons r rows : value_sum (r :: rows) = (u_value r + value_sum rows)%Z.
Proof. done. Qed.

Section balances.
Context {node : Node} {lib : AddressLib} {cfg : ChainConfig} {DB : Type} `{LevelDbLaws DB}.
Implicit Types (t : tracker DB).

(** The confirmed rows the mempool spends, and the mempool's rows that count. *)
Definition leaving t (rows : list utxo_row) : list utxo_row := filter (fun r => spent_by_mempool t r = true) rows.
Definition arriving t keys (rows : list utxo_row) : list utxo_row :=
  filter (fun r => pending_row t keys false r = true) rows.

Lemma leaving_cons t r rows :
  leaving t (r :: rows) = (if spent_by_mempool t r then [r] else []) ++ leaving t rows.
Proof. unfold leaving. rewrite filter_cons. by destruct (spent_by_mempool t r). Qed.

Lemma arriving_cons t keys r rows :
  arriving t keys (r :: rows) = (if pending_row t keys false r then [r] else []) ++ arriving t keys rows.
Proof. unfold arriving. rewrite filter_cons. by destruct (pending_row t keys false r). Qed.

Lemma unread_leaving t t' rows : unread t t' -> leaving t' rows = leaving t rows.
Proof.
  intros Hu. unfold leaving. apply list_filter_iff. intros r. by rewrite (unread_spent t t').
Qed.

Lemma unread_arriving t t' keys rows : unread t t' -> arriving t' keys rows = arriving t keys rows.
Proof.
  intros Hu. unfold arriving. apply list_filter_iff. intros r. by rewrite (unread_pending t t').
Qed.

Lemma run_confirmedBalances rows : forall t keys b,
  (forall r, r ∈ rows -> row_ok r) ->
  exists t', confirmedBalances rows keys b t
    = (Ok (list_to_set (key_of <$> rows) ∪ keys,
        mkBalances (ba_confirmed b + value_sum rows) (ba_pending b - value_sum (leaving t rows))
          (ba_received b + value_sum rows) (ba_utxosConfirmed b + Z.of_nat (length rows)) (ba_utxosPending b)), t')
    /\ unread t t'.
Proof.
  induction rows as [|r rows IH]; intros t keys [c p rc uc up] Hr; cbn [confirmedBalances].
  - exists t. split; [|done]. unfold mret, M_ret. cbn. rewrite !Z.add_0_r, Z.sub_0_r. do 3 f_equal. set_solver.
  - pose proof (Hr r ltac:(by left)) as Hrow. rewrite (run_requireFullTxid r Hrow).
    rewrite (run_bind_ok _ _ t (full r) t) by done. cbv zeta. change (outpoint (full r) (u_vout r)) with (key_of r).
    destruct (run_mempool_input t r (row_full r Hrow)) as (v & t1 & E & Hu & Hv).
    rewrite (run_bind_ok _ _ _ _ _ E), Hv.
    destruct (IH t1 ({[key_of r]} ∪ keys) (mkBalances (c + u_value r)
      (if spent_by_mempool t r then p - u_value r else p) (rc + u_value r) (uc + 1) up)%Z) as (t' & E' & Hu');
      [intros x Hx; apply Hr; by right|].
    exists t'. split; [|by eapply unread_trans]. cbn [ba_confirmed ba_pending ba_received ba_utxosConfirmed ba_utxosPending] in *.
    rewrite E', leaving_cons, (unread_leaving t t1), value_sum_cons by done. cbn [length].
    assert (Hkeys : list_to_set (key_of <$> rows) ∪ ({[key_of r]} ∪ keys)
      = list_to_set (C:=gset string) (key_of <$> r :: rows) ∪ keys) by (rewrite fmap_cons, list_to_set_cons; set_solver).
    rewrite Hkeys. do 3 f_equal. f_equal; [lia| |lia|lia].
    destruct (spent_by_mempool t r); [cbn [app]; rewrite value_sum_cons; lia|cbn [app]; lia].
Qed.

Lemma run_pendingBalances rows : forall t keys b,
  (forall r, r ∈ rows -> row_ok r) ->
  exists t', pendingBalances rows keys b t
    = (Ok (mkBalances (ba_confirmed b) (ba_pending b + value_sum (arriving t keys rows)) (ba_received b)
        (ba_utxosConfirmed b) (ba_utxosPending b + Z.of_nat (length (arriving t keys rows)))), t')
    /\ unread t t'.
Proof.
  induction rows as [|r rows IH]; intros t keys [c p rc uc up] Hr; cbn [pendingBalances].
  - exists t. split; [|done]. unfold mret, M_ret. cbn. by rewrite !Z.add_0_r.
  - pose proof (Hr r ltac:(by left)) as Hrow. rewrite (run_requireFullTxid r Hrow).
    rewrite (run_bind_ok _ _ t (full r) t) by done. change (outpoint (full r) (u_vout r)) with (key_of r).
    assert (Hrest : forall x, x ∈ rows -> row_ok x) by (intros x Hx; apply Hr; by right).
    rewrite arriving_cons. unfold pending_row. case_bool_decide as Hk; cbn [negb andb]; [by apply IH|].
    destruct (run_mempool_input t r (row_full r Hrow)) as (v & t1 & E & Hu & Hv).
    rewrite (run_bind_ok _ _ _ _ _ E), Hv. rewrite <- (unread_arriving t t1) by done.
    destruct (spent_by_mempool t r); cbn [negb app].
    + destruct (IH t1 keys (mkBalances c p rc uc up) Hrest) as (t' & E' & Hu'). exists t'.
      split; [done|by eapply unread_trans].
    + destruct (IH t1 keys (mkBalances c (p + u_value r) rc uc (up + 1))%Z Hrest) as (t' & E' & Hu'). exists t'.
      split; [|by eapply unread_trans]. cbn [ba_confirmed ba_pending ba_received ba_utxosConfirmed ba_utxosPending] in *.
      rewrite E', value_sum_cons. cbn [length]. do 2 f_equal. f_equal; lia.
Qed.
End balances.

(** C8 The balance of an address counts every output once: the confirmed amount is the sum of
    the confirmed outputs; the pending amount is what the mempool brings, an output that the
    confirmed store has or that the mempool spends not counted, less the confirmed outputs the
    mempool spends; the counts are those of the rows summed, and the read changes nothing. *)
Theorem balance_counts_every_output_once {node : Node} {lib : AddressLib} {cfg : ChainConfig} {DB : Type} `{LevelDbLaws DB}
    (t : tracker DB) (address : string) (script : bytes) (confirmed pending : list utxo_row) :
  let sh := script_hash script in
  let keys := list_to_set (key_of <$> confirmed) in
  addressToScript (Some address) chain_network = Ok script ->
  rows_of (disk (db t)) sh None None (Some MAX_ADDRESS_OUTPUTS) = Ok confirmed ->
  rows_of (disk (mempoolDb t)) sh None None (Some MAX_ADDRESS_OUTPUTS) = Ok pending ->
  (forall r, r ∈ confirmed ++ pending -> row_ok r) ->
  exists info t', getBalanceInfo (Some address) t = (Ok info, t') /\ unread t t'
    /\ bi_address info = address
    /\ bi_confirmed info = satoshiToDecimalString (value_sum confirmed)
    /\ bi_received info = bi_confirmed info
    /\ bi_pending info = satoshiToDecimalString (value_sum (arriving t keys pending) - value_sum (leaving t confirmed))
    /\ bi_utxosConfirmed info = Z.of_nat (length confirmed)
    /\ bi_utxosPending info = Z.of_nat (length (arriving t keys pending)).
Proof.
  intros sh keys Ha Hc Hm Hok. unfold getBalanceInfo, readBalanceInfo, readBalanceOutputs. rewrite Ha.
  rewrite (run_bind_ok _ _ t script t) by done. cbv zeta. fold sh.
  destruct (run_snapshot t) as (sn & Es & _). rewrite (run_bind_ok _ _ _ _ _ Es).
  destruct (run_mempool_rows t sh None None (Some MAX_ADDRESS_OUTPUTS)) as (t1 & Em & Hu1). rewrite Hm in Em.
  rewrite (run_bind_ok _ _ t (confirmed, pending) t1).
  2:{ rewrite (run_bind_ok _ _ t confirmed t) by (rewrite <- Hc; apply run_db_rows).
      by rewrite (run_bind_ok _ _ _ _ _ Em). }
  cbv iota beta.
  destruct (run_confirmedBalances confirmed t1 ∅ (mkBalances 0 0 0 0 0)) as (t2 & E2 & Hu2);
    [intros r Hr; apply Hok; set_solver|].
  rewrite (run_bind_ok _ _ _ _ _ E2). cbv iota beta. rewrite union_empty_r_L. fold keys.
  cbn [ba_confirmed ba_pending ba_received ba_utxosConfirmed ba_utxosPending]. rewrite !Z.add_0_l, Z.sub_0_l.
  rewrite (unread_leaving t t1) by done.
  match goal with |- context [pendingBalances pending keys ?b] =>
    destruct (run_pendingBalances pending t2 keys b) as (t3 & E3 & Hu3); [intros r Hr; apply Hok; set_solver|] end.
  rewrite (run_bind_ok _ _ _ _ _ E3). rewrite (run_bind_ok _ _ t3 (stat t3) t3) by done.
  pose proof (unread_trans _ _ _ Hu1 Hu2) as Hu. rewrite (unread_arriving t t2) by done.
  eexists _, t3. split; [reflexivity|]. cbn [ba_confirmed ba_pending ba_received ba_utxosConfirmed ba_utxosPending
    balanceInfoResult bi_address bi_confirmed bi_received bi_pending bi_utxosConfirmed bi_utxosPending].
  split_and!; try reflexivity; [exact (unread_trans _ _ _ Hu Hu3)|f_equal; lia].
Qed.

Lemma balance_counts_every_output_once_witness :
  exists info, (getBalanceInfo (Some "addr") serving0).1 = Ok info
    /\ bi_confirmed info = "50.00000251" /\ bi_pending info = "0.00000076"
    /\ bi_utxosConfirmed info = 3%Z /\ bi_utxosPending info = 1%Z.
Proof.
  destruct (balance_counts_every_output_once serving0 "addr" served_script confirmed0 pending0)
    as (info & t' & E & _ & _ & Hc & _ & Hp & Huc & Hup).
  - by vm_compute.
  - by vm_compute.
  - by vm_compute.
  - apply rows0_ok.
  - exists info. rewrite E, Hc, Hp, Huc, Hup. split_and!; by vm_compute.
Defined.
