(* ===== verification/Staging.v ===== *)
(** What the mempool path of [parseTransaction] can do to a store, whatever the node
    served: relations between the states before and after a computation, closed under
    the monad's combinators, and the one that matters here: only puts of records of the
    schema are staged. *)

From S2P Require Import Prelude KeyCodec ValueCodec LevelDb Store Outputs StoreFacts.
From S2P Require Import Rollback Parsing Apply.
From stdpp Require Import gmap.

#[local] Open Scope string_scope.
#[local] Open Scope nat_scope.
#[local] Open Scope list_scope.

(** * Computations within a relation *)

Section within.
Context {S : Type} (R : relation S) `{!PreOrder R}.

(** Whatever [m] answers, it moves the state along [R]. *)
Definition within {A} (m : M S A) : Prop := forall s, R s (m s).2.

Lemma within_pure {A} (r : res A) : within (fun s => (r, s)).
Proof. intros s. reflexivity. Qed.

Lemma within_get : within get.
Proof. intros s. reflexivity. Qed.

Lemma within_gets {A} (f : S -> A) : within (gets f).
Proof. intros s. reflexivity. Qed.

Lemma within_bind {A B} (m : M S A) (f : A -> M S B) : within m -> (forall a, within (f a)) -> within (m ≫= f).
Proof.
  intros Hm Hf s. unfold mbind, M_bind. specialize (Hm s). destruct (m s) as [[a|e] s']; [|done].
  etrans; [exact Hm|apply Hf].
Qed.

Lemma within_try {A} (m : M S A) h : within m -> (forall e, within (h e)) -> within (try_catch m h).
Proof.
  intros Hm Hh s. unfold try_catch. specialize (Hm s). destruct (m s) as [[a|e] s']; [done|].
  etrans; [exact Hm|apply Hh].
Qed.

Lemma within_when (b : bool) m : within m -> within (when b m).
Proof. intros Hm. destruct b; [done|apply within_pure]. Qed.

Lemma within_mapM {A B} (l : list A) (f : A -> M S B) : (forall a, within (f a)) -> within (mapM_list l f).
Proof.
  intros Hf. induction l as [|x l IH]; [apply within_pure|]. cbn [mapM_list].
  apply within_bind; [done|]. intros b. apply within_bind; [done|]. intros ?. apply within_pure.
Qed.

Lemma within_forM {A} (l : list A) (f : A -> M S unit) : (forall a, within (f a)) -> within (forM l f).
Proof. intros Hf. induction l as [|x l IH]; [apply within_pure|]. cbn [forM]. by apply within_bind. Qed.
End within.

Create HintDb within.
#[export] Hint Resolve within_get within_gets within_bind within_try within_when within_mapM within_forM : within.
#[export] Hint Extern 1 (within _ (mret _)) => apply within_pure; apply _ : within.
#[export] Hint Extern 1 (within _ (throw _)) => apply within_pure; apply _ : within.
#[export] Hint Extern 1 (within _ (lift_res _)) => apply within_pure; apply _ : within.

(** * The builders hand out keys of the schema, whatever they are given *)

Section built.
Context {node : Node}.

(** A buffer with prefix [p] and [n] more bytes. *)
Definition prefixed (p : byte) (n : nat) (b : bytes) : Prop := exists r, b = p :: r /\ length r = n.

Lemma prefixed_alloc p n : prefixed p n (alloc_prefixed (S n) p).
Proof. destruct (alloc_prefixed_split n p) as (r & -> & Hr). by exists r. Qed.

Lemma prefixed_write p n b off src : prefixed p n b -> prefixed p n (buf_write b (S off) src).
Proof.
  intros (r & -> & <-). exists (buf_write r off src). split; [done|apply length_buf_write].
Qed.

(** The index goes to the last four bytes. *)
Lemma prefixed_index p n b i :
  prefixed p (n + 4) b -> exists r, writeUInt32BE b (S n) i = p :: r ++ be 4 (ushr0 i) /\ length r = n.
Proof.
  intros (r & -> & Hr). exists (take n r). split; [|rewrite length_take; lia].
  unfold writeUInt32BE, buf_write. rewrite length_be. cbn [take drop length app].
  rewrite (take_ge (be 4 _)) by (rewrite length_be; lia).
  rewrite (drop_ge (p :: r)) by (cbn; lia). by rewrite app_nil_r.
Qed.

Lemma guard64_inv {A} b f hex (k : res A) r : (_ ← guard64 b f hex; k) = Ok r -> k = Ok r.
Proof. unfold guard64. by case_bool_decide. Qed.

Ltac built := repeat match goal with H : (_ ← _; _) = Ok _ |- _ => apply guard64_inv in H end.

Lemma kTx_built txid b : kTx txid = Ok b -> exists k, b = enc k /\ wf_key k /\ exists t, k = KTx t.
Proof.
  unfold kTx, assertTxid. intros E. built. injection E as <-.
  destruct (prefixed_write _ _ _ 0 (h2b txid) (prefixed_alloc P_TX 32)) as (r & E & Hr).
  unfold write_hex. rewrite E. exists (KTx r). split_and!; [done|exact Hr|by exists r].
Qed.

Lemma kInput_built txid i b : kInput txid i = Ok b -> exists t, b = enc (KInput t (ushr0 i)) /\ hash32 t.
Proof.
  unfold kInput, assertTxid. intros E. built. injection E as <-.
  destruct (prefixed_index _ 32 _ i (prefixed_write _ _ _ 0 (h2b txid) (prefixed_alloc P_INPUT 36))) as (r & E & Hr).
  exists r. split; [exact E|exact Hr].
Qed.

Lemma kOutHint_built txid i b : kOutHint txid i = Ok b -> exists t, b = enc (KOutHint t (ushr0 i)) /\ hash32 t.
Proof.
  unfold kOutHint, assertTxid. intros E. built. injection E as <-.
  destruct (prefixed_index _ 32 _ i (prefixed_write _ _ _ 0 (h2b txid) (prefixed_alloc P_OUT_HINT 36))) as (r & E & Hr).
  exists r. split; [exact E|exact Hr].
Qed.

Lemma split64 (r : bytes) : length r = 64 -> exists a b, r = a ++ b /\ hash32 a /\ hash32 b.
Proof.
  intros Hr. exists (take 32 r), (drop 32 r). unfold hash32.
  rewrite take_drop, length_take, length_drop. split; [done|lia].
Qed.

Lemma kInHint_built txid ptxid i b :
  kInHint txid ptxid i = Ok b -> exists t pt, b = enc (KInHint t pt (ushr0 i)) /\ hash32 t /\ hash32 pt.
Proof.
  unfold kInHint, assertTxid. intros E. built. injection E as <-.
  destruct (prefixed_index _ 64 _ i (prefixed_write _ _ _ 32 (h2b ptxid)
    (prefixed_write _ _ _ 0 (h2b txid) (prefixed_alloc P_IN_HINT 68)))) as (r & E & Hr).
  destruct (split64 r Hr) as (t & pt & -> & Ht & Hp). exists t, pt. split; [|done].
  unfold write_hex. rewrite E. cbn [enc app]. by rewrite <- app_assoc.
Qed.

Lemma kOutput_built sh txid i b :
  kOutput sh txid i = Ok b -> exists s t, b = enc (KOutput s t (ushr0 i)) /\ hash32 s /\ hash32 t.
Proof.
  unfold kOutput, assertTxid. intros E. built. injection E as <-.
  destruct (prefixed_index _ 64 _ i (prefixed_write _ _ _ 32 (h2b txid)
    (prefixed_write _ _ _ 0 (h2b sh) (prefixed_alloc P_OUTPUT 68)))) as (r & E & Hr).
  destruct (split64 r Hr) as (s & t & -> & Hs & Ht). exists s, t. split; [|done].
  unfold write_hex. rewrite E. cbn [enc app]. by rewrite <- app_assoc.
Qed.
End built.

(** * The mempool path stages puts of records *)

Section puts.
Context {node : Node} {DB : Type} `{LevelDbLaws DB}.
Implicit Type s : store DB.

Definition put_ok (w : write) : Prop :=
  exists k v, w = (enc k, Some v) /\ wf_key k /\ wf_val k v.

(** From an open batch, nothing but puts of records, and caches. *)
Definition puts s s' : Prop :=
  in_batch s -> exists ws c kn, s' = with_caches c kn (stage ws s) /\ Forall put_ok ws.

#[export] Instance puts_preorder : PreOrder puts.
Proof.
  split.
  - intros s _. exists [], (outputCache s), (knownScripts s). by rewrite stage_nil, with_caches_id.
  - intros s1 s2 s3 H1 H2 Hb. destruct (H1 Hb) as (ws1 & c1 & kn1 & -> & Hw1).
    destruct H2 as (ws2 & c2 & kn2 & -> & Hw2); [by apply in_batch_with_caches, in_batch_stage|].
    exists (ws1 ++ ws2), c2, kn2. rewrite stage_app, stage_with_caches. split; [done|]. by apply Forall_app.
Qed.

Lemma puts_put k b v : b = enc k -> wf_key k -> wf_val k v -> within puts (addTransaction put b (Some v)).
Proof.
  intros -> Hk Hv s Hb. rewrite run_put by done. exists [(enc k, Some v)], (outputCache s), (knownScripts s).
  split; [|constructor; [by exists k, v|done]].
  cbn [snd]. rewrite <- (cache_stage [(enc k, Some v)] s) at 1. rewrite <- (known_stage [(enc k, Some v)] s) at 1.
  by rewrite with_caches_id.
Qed.

Lemma puts_caches f :
  (forall s, f s = with_caches (outputCache (f s)) (knownScripts (f s)) s) -> within puts (modify f).
Proof. intros Hf s _. exists [], (outputCache (f s)), (knownScripts (f s)). rewrite stage_nil. by split; [apply Hf|]. Qed.

(** A builder's answer, used only if it is one. *)
Lemma puts_lift {A B} (r : res A) (f : A -> M (store DB) B) :
  (forall a, r = Ok a -> within puts (f a)) -> within puts (a ← lift_res r; f a).
Proof. intros Hf s. destruct r as [a|e]; [exact (Hf a eq_refl s)|reflexivity]. Qed.

Lemma puts_insertTransaction txid : within puts (insertTransaction (mkTxArg txid None)).
Proof.
  unfold insertTransaction. cbn [ta_hash ta_blockHash].
  apply puts_lift. intros k (k' & -> & Hk & t & ->)%kTx_built. apply puts_lift. intros bh _.
  apply within_bind; [apply _|by eapply puts_put|]. intros b. apply within_pure. apply _.
Qed.

Lemma puts_insertInput inp : within puts (insertInput inp).
Proof.
  apply puts_lift. intros k (t & -> & Ht)%kInput_built. apply puts_lift. intros v _.
  eapply puts_put; [done|split; [done|apply ushr0_u32]|done].
Qed.

Lemma puts_insertInputHint inp : within puts (insertInputHint inp).
Proof.
  apply puts_lift. intros k (t & pt & -> & Ht & Hp)%kInHint_built.
  eapply puts_put; [done|split_and!; [done|done|apply ushr0_u32]|done].
Qed.

Lemma puts_cacheOutput o v : within puts (cacheOutput o v).
Proof.
  unfold cacheOutput. destruct (oa_height o); [|apply within_pure; apply _]. case_bool_decide; [|apply within_pure; apply _].
  apply within_bind; [apply _|apply within_gets, _|]. intros c. apply puts_caches. intros s.
  by destruct s.
Qed.

(** The outputs of the mempool path carry their script hash as hex. *)
Lemma puts_insertOutput o sh : oa_scriptPubKey o = SHex sh -> within puts (insertOutput o).
Proof.
  intros Es. apply puts_lift. intros v _. apply within_bind; [apply _|apply puts_cacheOutput|]. intros _.
  rewrite Es. apply puts_lift. intros k (s & t & -> & Hs & Ht)%kOutput_built.
  eapply puts_put; [done|split_and!; [done|done|apply ushr0_u32]|done].
Qed.

Lemma puts_insertOutputHint o b :
  hash32 b -> oa_scriptPubKey o = SHex (b2h b) -> within puts (insertOutputHint o).
Proof.
  intros Hb Es. unfold insertOutputHint. rewrite Es. apply puts_lift. intros v Ev.
  apply guard64_inv in Ev. injection Ev as <-. rewrite h2b_b2h.
  apply puts_lift. intros k (t & -> & Ht)%kOutHint_built.
  eapply puts_put; [done|split; [done|apply ushr0_u32]|exact Hb].
Qed.

Lemma puts_parseInput txid i : within puts (parseInput None txid true false i).
Proof.
  unfold parseInput. destruct (skip_input i); [apply within_pure; apply _|].
  apply within_bind; [apply _|apply puts_insertInput|]. intros _.
  apply within_bind; [apply _|apply puts_insertInputHint|]. intros _. apply within_pure. apply _.
Qed.

Lemma puts_parseTransactionOutputs tx h txid cb :
  within puts (parseTransactionOutputs tx None h txid cb true false).
Proof.
  unfold parseTransactionOutputs. apply within_forM; [apply _|]. intros [i o].
  apply within_bind; [apply _|by eapply puts_insertOutput|]. intros _. cbn [orb when].
  apply within_bind; [apply _|by apply (puts_insertOutputHint _ (sha256 (to_script o))); [apply length_sha256|]|].
  intros _. apply within_bind; [apply _|apply within_pure; apply _|]. intros _.
  apply within_bind; [apply _|apply within_pure; apply _|]. intros _. apply within_pure. apply _.
Qed.

(** [parseTransaction] past the transaction's own record. *)
Lemma puts_parseRest tx :
  within puts (
    inputCounts ← parseTransactionInputs tx None (getId tx) true false;
    _ ← parseTransactionOutputs tx None (-1) (getId tx) (isCoinbaseTransaction tx) true false;
    mret (mkParse (sum_list inputCounts) (length (outs tx)))).
Proof.
  apply within_bind; [apply _|apply within_mapM; [apply _|intros i; apply puts_parseInput]|]. intros ns.
  apply within_bind; [apply _|apply puts_parseTransactionOutputs|]. intros _. apply within_pure. apply _.
Qed.

(** An unconfirmed transaction is staged as puts of records, however malformed. *)
Lemma puts_parseTransaction tx : within puts (parseTransaction tx None (-1) true false).
Proof.
  unfold parseTransaction. apply within_bind; [apply _|apply puts_insertTransaction|]. intros _. apply puts_parseRest.
Qed.

(** ** What staged puts leave of what was there *)

Lemma last_write_put ws b o : Forall put_ok ws -> last_write ws b = Some o ->
  exists k v, b = enc k /\ o = Some v /\ wf_key k /\ wf_val k v.
Proof.
  intros Hw Hin%last_write_in. rewrite Forall_forall in Hw. destruct (Hw _ Hin) as (k & v & [= -> ->] & ?). by exists k, v.
Qed.

Lemma puts_batch s s' : puts s s' -> in_batch s -> in_batch s' /\ disk s' = disk s /\ faults s' = faults s.
Proof.
  intros Hp Hb. destruct (Hp Hb) as (ws & c & kn & -> & _). split_and!.
  - by apply in_batch_with_caches, in_batch_stage.
  - apply (disk_stage ws s).
  - apply (faults_stage ws s).
Qed.

Lemma puts_grow s s' b : puts s s' -> in_batch s -> is_Some (view s b) -> is_Some (view s' b).
Proof.
  intros Hp Hb Hv. destruct (Hp Hb) as (ws & c & kn & -> & Hw). rewrite view_with_caches, view_stage by done.
  destruct (last_write ws b) as [o|] eqn:E; [|done].
  destruct (last_write_put ws b o Hw E) as (k & v & _ & -> & _). by exists v.
Qed.

Definition view_wf s : Prop := forall b v, view s b = Some v -> exists k, b = enc k /\ wf_key k /\ wf_val k v.

Lemma puts_wf s s' : puts s s' -> in_batch s -> view_wf s -> view_wf s'.
Proof.
  intros Hp Hb Hv b v. destruct (Hp Hb) as (ws & c & kn & -> & Hw). rewrite view_with_caches, view_stage by done.
  destruct (last_write ws b) as [o|] eqn:E; [|apply Hv].
  destruct (last_write_put ws b o Hw E) as (k & v' & -> & -> & Hk). cbn. intros [= <-]. by exists k.
Qed.

(** Once its record is staged, a transaction is there. *)
Lemma insertTransaction_stages txid s a s' :
  in_batch s -> insertTransaction (mkTxArg txid None) s = (Ok a, s') ->
  exists k, kTx txid = Ok k /\ is_Some (view s' k).
Proof.
  intros Hb. unfold insertTransaction. cbn [ta_hash ta_blockHash]. unfold mbind at 1, M_bind at 1, lift_res at 1.
  destruct (kTx txid) as [k|e]; [|done]. unfold mbind at 1, M_bind at 1, lift_res at 1.
  destruct (encodeTx None) as [bh|e]; [|done].
  rewrite (run_bind_ok _ _ s true (stage [(k, Some (bh ++ h2b txid))] s)) by by apply run_put.
  intros [= _ <-]. exists k. split; [done|]. rewrite view_stage by done. cbn. rewrite decide_True by done. by eexists.
Qed.

Lemma parseTransaction_stages tx s a s' :
  in_batch s -> parseTransaction tx None (-1) true false s = (Ok a, s') ->
  exists k, kTx (getId tx) = Ok k /\ is_Some (view s' k).
Proof.
  intros Hb. unfold parseTransaction. unfold mbind at 1, M_bind at 1.
  destruct (insertTransaction _ s) as [[b|e] s1] eqn:E1; [|done].
  pose proof (puts_insertTransaction (getId tx) s) as Hp. rewrite E1 in Hp. cbn [snd] in Hp.
  destruct (insertTransaction_stages _ _ _ _ Hb E1) as (k & Ek & Hk). intros E2. exists k. split; [done|].
  destruct (puts_batch s s1 Hp Hb) as [Hb1 _].
  pose proof (puts_parseRest tx s1) as Hr. rewrite E2 in Hr.
  exact (puts_grow s1 s' k Hr Hb1 Hk).
Qed.
End puts.
