(* ===== verification/MempoolTheorems.v ===== *)
(** How the mempool poller's store side runs: the order of the txids and what the
    binary search is good for, the listing, and the prune as one batch of deletes,
    committed or refused. *)

From S2P Require Import Prelude KeyCodec LevelDb ValueCodec Store Outputs StoreFacts Rollback Parsing Apply Tracker Batch Forward Mempool Concrete.
From S2P Require Import Staging.
From stdpp Require Import gmap sorting.

#[local] Open Scope string_scope.
#[local] Open Scope nat_scope.
#[local] Open Scope list_scope.

(** * The order of the txids *)

Lemma compare_refl a : String.compare a a = Eq.
Proof.
  pose proof (Stdlib.Strings.String.compare_antisym a a) as E. by destruct (String.compare a a).
Qed.

Lemma str_lt_irrefl a : ~ str_lt a a.
Proof. unfold str_lt. by rewrite compare_refl. Qed.

Lemma str_lt_spec a b : str_lt a b <-> String.le a b /\ a <> b.
Proof.
  unfold str_lt, String.le, String.leb. destruct (String.compare a b) eqn:E.
  - apply Stdlib.Strings.String.compare_eq_iff in E as ->. naive_solver.
  - split; [|done]. intros _. split; [done|]. intros ->. by rewrite compare_refl in E.
  - split; [done|]. by intros [[] _].
Qed.

#[local] Instance str_lt_trans : Transitive str_lt.
Proof.
  intros a b c [H1 N1]%str_lt_spec [H2 N2]%str_lt_spec. apply str_lt_spec. split; [by etrans|].
  intros ->. apply N1. by apply (anti_symm String.le).
Qed.

Lemma StronglySorted_filter {A} (R : A -> A -> Prop) (P : A -> Prop) `{!forall x, Decision (P x)} (l : list A) :
  StronglySorted R l -> StronglySorted R (filter P l).
Proof.
  induction 1 as [|x l Hl IH Hx]; [constructor|]. rewrite filter_cons. case_decide; [|done].
  constructor; [done|]. apply Forall_forall. intros y [_ Hy]%list_elem_of_filter. by eapply Forall_forall.
Qed.

Section search.
Context {search : BinarySearch} {laws : BinarySearchLaws}.

(** A search that misses, misses an element that is not there. *)
Lemma bs_not_in l x : StronglySorted str_lt l -> (bs l x localeCompare < 0)%Z -> x ∉ l.
Proof.
  intros Hs Hm Hin. destruct (bs_missing l x Hs Hm) as (_ & Hlt & Hgt).
  rewrite <- (take_drop (Z.to_nat (- bs l x localeCompare - 1)) l) in Hin.
  apply elem_of_app in Hin as [Hin|Hin]; [apply Hlt in Hin|apply Hgt in Hin]; by eapply str_lt_irrefl.
Qed.

Lemma bs_in l x : StronglySorted str_lt l -> (0 <= bs l x localeCompare)%Z -> x ∈ l.
Proof. intros Hs Hf. apply list_elem_of_lookup. eexists. by apply bs_found. Qed.

(** ** Listing *)

Lemma insertSorted_spec l x :
  StronglySorted str_lt l ->
  StronglySorted str_lt (insertSorted l x) /\ forall y, y ∈ insertSorted l x <-> y = x \/ y ∈ l.
Proof.
  intros Hs. unfold insertSorted. case_bool_decide as Hb.
  - destruct (bs_missing l x Hs Hb) as (_ & Hlt & Hgt). set (i := Z.to_nat _) in *.
    rewrite <- (take_drop i l) in Hs. apply StronglySorted_app in Hs as (Hx & H1 & H2).
    unfold splice_in. split.
    + apply StronglySorted_app. split_and!; [|done|].
      * intros a b Ha [->|Hb']%elem_of_cons; [by apply Hlt|by apply Hx].
      * constructor; [done|]. by apply Forall_forall.
    + intros y. rewrite elem_of_app, elem_of_cons. rewrite <- (take_drop i l) at 3. rewrite elem_of_app. naive_solver.
  - split; [done|]. intros y. split; [by right|]. intros [->|?]; [|done]. apply bs_in; [done|lia].
Qed.

Lemma insertSortedTxids_spec l raw :
  StronglySorted str_lt l ->
  StronglySorted str_lt (insertSortedTxids l raw) /\ forall y, y ∈ insertSortedTxids l raw <-> y ∈ raw \/ y ∈ l.
Proof.
  unfold insertSortedTxids. revert l. induction raw as [|x raw IH]; intros l Hs; cbn [foldl].
  - split; [done|]. set_solver.
  - destruct (insertSorted_spec l x Hs) as [Hs' Hin']. destruct (IH _ Hs') as [Hss Hin]. split; [done|].
    intros y. rewrite Hin, Hin'. set_solver.
Qed.

(** ** Taking out what is found *)

Lemma splice_out_found l x :
  StronglySorted str_lt l -> (0 <= bs l x localeCompare)%Z ->
  splice_out (Z.to_nat (bs l x localeCompare)) l = filter (fun y => y <> x) l.
Proof.
  intros Hs Hf. pose proof (bs_found l x Hs Hf) as Hl. set (i := Z.to_nat _) in *.
  pose proof (take_drop_middle _ _ _ Hl) as E. unfold splice_out. rewrite <- E in Hs at 1.
  apply StronglySorted_app in Hs as (Hx & _ & H2). inversion H2 as [|? ? _ Hgt]; subst. rewrite Forall_forall in Hgt.
  rewrite <- E at 3. rewrite filter_app, filter_cons_False by (by intros []).
  f_equal; symmetry; apply filter_id; intros y Hy ->;
    eapply str_lt_irrefl; [by apply (Hx x x Hy ltac:(left))|by apply Hgt].
Qed.
End search.

(** * The prune *)

Section prune.
Context {node : Node} {search : BinarySearch} {laws : BinarySearchLaws} {DB : Type} `{LevelDbLaws DB}.
Implicit Types (s : store DB) (d : DB).

(** The txid of a [T] row. *)
Definition row_txid (e : bytes * bytes) : string := b2h (drop 1 e.1).

(** The transactions a store holds, in key order. *)
Definition stored_txids d : list string := row_txid <$> prefix_scan d (pb P_TX).

Lemma stored_txids_spec d x :
  db_wf d -> x ∈ stored_txids d <-> is_hash x /\ is_Some (dk d (KTx (h2b x))).
Proof.
  intros Hd. unfold stored_txids. rewrite list_elem_of_fmap. split.
  - intros ([b v] & -> & (k & -> & Hk & _ & Hg & Hp)%elem_of_scan); [|done].
    apply prefix_tx in Hp as (t & ->); [|done]. change (row_txid _) with (b2h t).
    split; [by apply b2h_is_hash|]. rewrite h2b_b2h. by eexists.
  - intros (Hx & v & Hv). exists (enc (KTx (h2b x)), v). split; [symmetry; by apply b2h_h2b|].
    apply elem_of_scan; [done|]. assert (Hk : wf_key (KTx (h2b x))) by by apply h2b_hash32.
    exists (KTx (h2b x)). split_and!; try done. by exists (h2b x).
Qed.

Lemma stored_rows d e : db_wf d -> e ∈ prefix_scan d (pb P_TX) -> exists t, hash32 t /\ e.1 = enc (KTx t).
Proof.
  intros Hd. destruct e as [b v]. intros (k & -> & Hk & _ & _ & Hp)%elem_of_scan; [|done].
  apply prefix_tx in Hp as (t & ->); [|done]. by exists t.
Qed.

Lemma NoDup_stored_txids d : db_wf d -> NoDup (stored_txids d).
Proof.
  intros Hd. unfold stored_txids. apply NoDup_fmap_2_strong.
  - intros e1 e2 H1 H2 E. destruct (stored_rows d e1 Hd H1) as (t1 & _ & E1), (stored_rows d e2 Hd H2) as (t2 & _ & E2).
    unfold row_txid in E. rewrite E1, E2 in E. apply b2h_inj in E. assert (t1 = t2) as -> by exact E.
    pose proof (NoDup_prefix_scan d (pb P_TX)) as Hnd. destruct e1 as [k1 v1], e2 as [k2 v2]. cbn in *. subst.
    apply elem_of_prefix_scan in H1 as [G1 _]; [|by apply db_wf_bounded].
    apply elem_of_prefix_scan in H2 as [G2 _]; [|by apply db_wf_bounded]. congruence.
  - eapply NoDup_fmap_1, NoDup_prefix_scan.
Qed.

(** The writes that delete a transaction's own records. *)
Definition tx_dels (x : string) : list write := [(enc (KTxExact (h2b x)), None); (enc (KTx (h2b x)), None)].

(** The stored transactions the node does not list. *)
Definition gone (L ids : list string) : list string := filter (fun x => x ∉ L) ids.

Lemma run_compareLoop keep rows : forall L del s,
  in_batch s -> StronglySorted str_lt L ->
  (forall e, e ∈ rows -> exists t, hash32 t /\ e.1 = enc (KTx t)) -> NoDup (row_txid <$> rows) ->
  let ids := row_txid <$> rows in
  let lost := if keep : bool then [] else gone L ids in
  compareLoop keep rows L del s
  = (Ok (filter (fun x => x ∉ ids) L, del ++ lost), stage (flat_map tx_dels lost) s).
Proof.
  induction rows as [|[k v] rows IH]; intros L del s Hb HL Hr Hnd; cbn [compareLoop].
  - cbv zeta. change (row_txid <$> []) with (@nil string).
    assert (E : (if keep then [] else gone L []) = []) by by destruct keep. rewrite E, app_nil_r.
    cbn [flat_map]. rewrite stage_nil, filter_id; [done|]. intros x _ Hx. by apply elem_of_nil in Hx.
  - destruct (Hr (k, v) ltac:(by left)) as (t & Ht & Ek). cbn in Ek. subst k.
    change (b2h (drop 1 (P_TX :: t))) with (b2h t). rewrite fmap_cons in *.
    change (row_txid (P_TX :: t, v)) with (b2h t) in *. apply NoDup_cons in Hnd as [Hx Hnd].
    assert (Hr' : forall e, e ∈ rows -> exists t, hash32 t /\ e.1 = enc (KTx t)) by (intros e He; apply Hr; by right).
    set (ids := row_txid <$> rows) in *. case_bool_decide as Hm.
    + pose proof (bs_not_in L (b2h t) HL Hm) as Hn.
      assert (EL : filter (fun x => x ∉ b2h t :: ids) L = filter (fun x => x ∉ ids) L).
      { apply filter_ext_elem. intros y Hy. rewrite not_elem_of_cons. naive_solver. }
      cbv zeta. rewrite EL. destruct keep; [by apply (IH L del s)|].
      rewrite (run_bind_ok _ _ _ _ _ (run_deleteTransaction s t Hb Ht)).
      rewrite (IH L (del ++ [b2h t]) _ (in_batch_stage _ _ Hb) HL Hr' Hnd). cbv zeta. fold ids.
      unfold gone at 3 4. rewrite filter_cons_True by done. fold (gone L ids). cbn [flat_map].
      rewrite stage_app, <- app_assoc. unfold tx_dels at 3. by rewrite h2b_b2h.
    + rewrite splice_out_found by (done || lia). set (L' := filter _ L).
      rewrite (IH L' del s Hb (StronglySorted_filter _ _ _ HL) Hr' Hnd). cbv zeta. fold ids.
      assert (Hin : b2h t ∈ L) by (apply bs_in; [done|lia]).
      assert (E1 : filter (fun x => x ∉ ids) L' = filter (fun x => x ∉ b2h t :: ids) L).
      { unfold L'. rewrite list_filter_filter. apply filter_ext_elem. intros y _. rewrite not_elem_of_cons. naive_solver. }
      assert (E2 : gone L' ids = gone L (b2h t :: ids)).
      { unfold gone. rewrite (filter_cons_False (fun x => x ∉ L)) by (intros Hf; by apply Hf).
        apply filter_ext_elem. intros y Hy. unfold L'. rewrite list_elem_of_filter. naive_solver. }
      by rewrite E1, E2.
Qed.

Lemma run_mapM_stage {A B} (l : list A) (f : A -> M (store DB) B) (g : A -> list write) : forall s,
  in_batch s ->
  (forall x s', x ∈ l -> in_batch s' -> disk s' = disk s -> exists b, f x s' = (Ok b, stage (g x) s')) ->
  exists bs, mapM_list l f s = (Ok bs, stage (flat_map g l) s).
Proof.
  induction l as [|x l IH]; intros s Hb Hf; cbn [mapM_list flat_map].
  - exists []. by rewrite stage_nil.
  - destruct (Hf x s ltac:(by left) Hb eq_refl) as [b E]. rewrite (run_bind_ok _ _ _ _ _ E).
    destruct (IH _ (in_batch_stage (g x) _ Hb)) as [bs E'].
    { intros y s' Hy Hs' Hd. apply Hf; [by right|done|]. by rewrite Hd, disk_stage. }
    rewrite (run_bind_ok _ _ _ _ _ E'). exists (b :: bs). by rewrite stage_app.
Qed.

(** What the prune deletes, in the order it stages it. *)
Definition prune_writes d (lost : list string) : list write :=
  flat_map tx_dels lost ++ flat_map (fun x => wJ d (h2b x)) lost ++ flat_map (fun x => wH d (h2b x)) lost.

Lemma prune_writes_mined d lost w : w ∈ prune_writes d lost <-> w ∈ mined_all d lost.
Proof.
  unfold prune_writes, mined_all, mined_writes. rewrite !elem_of_app, !elem_of_flat_map.
  setoid_rewrite elem_of_app. setoid_rewrite elem_of_app. unfold tx_dels. naive_solver.
Qed.

Lemma run_deleteAndCompare s L keep :
  in_batch s -> StronglySorted str_lt L -> db_wf (disk s) ->
  let ids := stored_txids (disk s) in
  let lost := if keep : bool then [] else gone L ids in
  exists info, deleteAndCompareTxsNotInList L keep s
    = (Ok (filter (fun x => x ∉ ids) L, info), stage (prune_writes (disk s) lost) s)
    /\ transactionsDeleted info = length lost.
Proof.
  intros Hb HL Hd ids lost. unfold deleteAndCompareTxsNotInList.
  rewrite (run_bind_ok _ _ s (prefix_scan (disk s) (pb P_TX)) s) by done.
  pose proof (run_compareLoop keep (prefix_scan (disk s) (pb P_TX)) L [] s Hb HL
    (fun e => stored_rows (disk s) e Hd) (NoDup_stored_txids _ Hd)) as E. cbv zeta in E.
  change (row_txid <$> prefix_scan (disk s) (pb P_TX)) with ids in E. fold lost in E. rewrite app_nil_l in E.
  rewrite (run_bind_ok _ _ _ _ _ E). cbv iota beta. set (s1 := stage _ s).
  assert (Hb1 : in_batch s1) by by apply in_batch_stage.
  assert (Hd1 : disk s1 = disk s) by apply disk_stage.
  destruct (run_mapM_stage lost deleteInputsByHint (fun x => wJ (disk s) (h2b x)) s1 Hb1) as [n1 E1].
  { intros x s' _ Hs' Hds. rewrite <- Hd1, <- Hds. by apply run_deleteInputsByHint. }
  set (s2 := stage _ s1) in *. assert (Hb2 : in_batch s2) by by apply in_batch_stage.
  assert (Hd2 : disk s2 = disk s) by (unfold s2; by rewrite disk_stage).
  destruct (run_mapM_stage lost deleteOutputsByHint (fun x => wH (disk s) (h2b x)) s2 Hb2) as [n2 E2].
  { intros x s' _ Hs' Hds. rewrite <- Hd2, <- Hds. by apply run_deleteOutputsByHint. }
  unfold deleteInputsByHints, deleteOutputsByHints.
  rewrite (run_bind_ok _ _ s1 (sum_list n1) s2) by (by rewrite (run_bind_ok _ _ _ _ _ E1)).
  rewrite (run_bind_ok _ _ s2 (sum_list n2) (stage (flat_map (fun x => wH (disk s) (h2b x)) lost) s2))
    by (by rewrite (run_bind_ok _ _ _ _ _ E2)).
  exists (mkDeleted (length lost) (sum_list n2) (sum_list n1)). split; [|done].
  unfold mret, M_ret, prune_writes. rewrite !stage_app. by fold s1 s2.
Qed.

(** Lists of deletes of the same keys act alike. *)
Lemma last_write_dels ws1 ws2 k :
  (forall w, w ∈ ws1 <-> w ∈ ws2) -> (forall w, w ∈ ws2 -> w.2 = None) -> last_write ws1 k = last_write ws2 k.
Proof.
  intros Hw Hn. destruct (last_write ws2 k) as [o|] eqn:E.
  - apply last_write_in in E. apply last_write_uniform; [by apply Hw|].
    intros o' Ho'%Hw. apply Hn in Ho', E. cbn in *. congruence.
  - apply last_write_none. intros ([k' o] & -> & Hin%Hw)%list_elem_of_fmap.
    assert (Hne : last_write ws2 k' <> None); [|by apply Hne]. cbn in E.
    rewrite (last_write_uniform _ _ o); [done|done|]. intros o' Ho'. apply Hn in Ho', Hin. cbn in *. congruence.
Qed.

Lemma prune_writes_del s lost b v :
  in_batch s -> db_wf (disk s) -> (forall x, x ∈ lost -> is_hash x) ->
  view (stage (prune_writes (disk s) lost) s) b = Some v -> view s b = Some v.
Proof.
  intros Hb Hd Hl. rewrite view_stage by done. destruct (last_write _ b) as [o|] eqn:E; [|done].
  apply last_write_in in E. apply prune_writes_mined in E.
  apply elem_of_flat_map in E as (x & Hx & (k' & _ & _ & -> & _)%(mined_writes_rel _ _ Hd (h2b_hash32 x (Hl x Hx)))).
  done.
Qed.

Lemma view_prune s lost k :
  in_batch s -> (forall b, view s b = db_get (disk s) b) -> db_wf (disk s) ->
  (forall x, x ∈ lost -> is_hash x) -> wf_key k ->
  view (stage (prune_writes (disk s) lost) s) (enc k) = view (stage (mined_all (disk s) lost) s) (enc k).
Proof.
  intros Hb Hv Hd Hl Hk. rewrite !view_stage by done. f_equal. apply last_write_dels.
  - apply prune_writes_mined.
  - intros [b o] (x & Hx & (k' & _ & _ & -> & _)%(mined_writes_rel _ _ Hd (h2b_hash32 x (Hl x Hx))))%elem_of_flat_map. done.
Qed.
End prune.

Section pruned.
Context {node : Node} {search : BinarySearch} {laws : BinarySearchLaws} {DB : Type} `{LevelDbLaws DB}.
Implicit Types (x : refresh DB) (t : tracker DB).

Definition with_trk t x : refresh DB := mkRefresh t (mempoolRpcFailures x) (rf_counts x).

Lemma run_on_track_ok {A} (m : M (tracker DB) A) x a t :
  m (rf_trk x) = (Ok a, t) -> on_track m x = (Ok a, with_trk t x).
Proof. intros E. unfold on_track. by rewrite E. Qed.

(** The writes of one mempool batch, committed. *)
Lemma run_mempool_commit t s :
  in_batch s -> commit_ok s -> outputCache s = outputCache (db t) -> knownScripts s = knownScripts (db t) ->
  exists m, on_mempool (endTransaction true) (set_mempoolDb s t) = (Ok tt, set_mempoolDb m t)
    /\ (forall k, db_get (disk m) k = view s k).
Proof.
  intros Hb Hc Eca Ekn. destruct (run_endTransaction_commit s Hb Hc) as (m & E & Hv & _ & _ & Hca & Hkn & _).
  exists m. split; [|done]. set (t1 := set_mempoolDb s t).
  assert (Es : shared t1 = s) by by apply shared_set. rewrite <- Es in E at 1.
  rewrite (run_on_mempool_ok _ t1 _ _ E); [done|by rewrite Hca|by rewrite Hkn].
Qed.

Lemma gone_hash (L : list string) (d : DB) y : db_wf d -> y ∈ gone L (stored_txids d) -> is_hash y.
Proof. intros Hd [_ Hy]%list_elem_of_filter. apply (stored_txids_spec d y Hd) in Hy. apply Hy. Qed.

(** What the prune takes out. *)
Definition lost_txids L (mayDelete : bool) (d : DB) : list string :=
  if mayDelete then gone L (stored_txids d) else [].

(** What a prune leaves behind. *)
Record pruned_to x (L : list string) (mayDelete : bool) x' : Prop := {
  pt_confirmed : db (rf_trk x') = db (rf_trk x);
  pt_window : win (rf_trk x') = win (rf_trk x);
  pt_records :
    let d := disk (mempoolDb (rf_trk x)) in
    mined_out (lost_txids L mayDelete d) d (disk (mempoolDb (rf_trk x')));
  pt_shrinks : forall b v, db_get (disk (mempoolDb (rf_trk x'))) b = Some v ->
    db_get (disk (mempoolDb (rf_trk x))) b = Some v;
  pt_calls : calls (rf_trk x') = calls (rf_trk x);
  pt_count : transactionsDeleted (ct_deleted (rf_counts x'))
    = length (lost_txids L mayDelete (disk (mempoolDb (rf_trk x))));
  pt_stat : stat (rf_trk x')
    = (let st := set_epoch (mempoolEpoch (stat (rf_trk x)) + 1) (stat (rf_trk x)) in
       if bool_decide (filter (fun y => y ∉ stored_txids (disk (mempoolDb (rf_trk x)))) L = [])
       then st else set_reconverged false st);
}.

Lemma try_bind_ok {S A B} (m : M S A) (f : A -> M S B) h (s : S) a s' :
  m s = (Ok a, s') -> try_catch (m ≫= f) h s = try_catch (f a) h s'.
Proof. intros E. unfold try_catch. by rewrite (run_bind_ok _ _ _ _ _ E). Qed.

(** The batch it stages for that. *)
Definition pruned_store L mayDelete t : store DB :=
  stage (prune_writes (disk (mempoolDb t)) (lost_txids L mayDelete (disk (mempoolDb t)))) (opened (shared t)).

Lemma lost_hash L mayDelete (d : DB) y : db_wf d -> y ∈ lost_txids L mayDelete d -> is_hash y.
Proof. intros Hd. unfold lost_txids. destruct mayDelete; [by apply gone_hash|]. by intros Hy%elem_of_nil. Qed.

(** The prune up to its commit. *)
Lemma prune_to_commit x L mayDelete :
  StronglySorted str_lt L -> db_wf (disk (mempoolDb (rf_trk x))) ->
  let t := rf_trk x in
  let new := filter (fun y => y ∉ stored_txids (disk (mempoolDb t))) L in
  exists info, transactionsDeleted info = length (lost_txids L mayDelete (disk (mempoolDb t)))
    /\ pruneMempoolStore L mayDelete x
       = try_catch
           (_ ← on_track (on_mempool (endTransaction true));
            _ ← mod_status (fun s => set_epoch (mempoolEpoch s + 1) s);
            _ ← when (bool_decide (0 < length new)) (mod_status (set_reconverged false));
            _ ← modify (fun x => set_counts (mkCounts (ct_transactions (rf_counts x)) (ct_inputs (rf_counts x))
                  (ct_outputs (rf_counts x)) info) x);
            mret new)
           discard_and_throw (with_trk (set_mempoolDb (pruned_store L mayDelete t) t) x).
Proof.
  intros HL Hd t new. unfold pruneMempoolStore. set (s0 := opened (shared t)).
  rewrite (run_bind_ok _ _ x tt (with_trk (set_mempoolDb s0 t) x))
    by (apply run_on_track_ok, (run_on_mempool_ok beginTransaction t tt s0); done).
  destruct (run_deleteAndCompare s0 L (negb mayDelete) (in_batch_begin _) HL Hd) as (info & E & Hn).
  assert (El : (if negb mayDelete then [] else gone L (stored_txids (disk s0))) = lost_txids L mayDelete (disk s0))
    by by destruct mayDelete.
  rewrite El in E, Hn. exists info. split; [exact Hn|].
  set (t1 := set_mempoolDb s0 t). assert (Es0 : shared t1 = s0) by by apply shared_set.
  rewrite <- Es0 in E at 1. apply run_on_mempool_ok in E; [|by rewrite cache_stage|by rewrite known_stage].
  by rewrite (try_bind_ok _ _ _ _ _ _ (run_on_track_ok _ (with_trk t1 x) _ _ E)).
Qed.

Lemma run_pruneMempoolStore x L mayDelete :
  StronglySorted str_lt L -> db_wf (disk (mempoolDb (rf_trk x))) -> commit_ok (mempoolDb (rf_trk x)) ->
  exists x', pruneMempoolStore L mayDelete x
    = (Ok (filter (fun y => y ∉ stored_txids (disk (mempoolDb (rf_trk x)))) L), x') /\ pruned_to x L mayDelete x'.
Proof.
  intros HL Hd Hc. destruct (prune_to_commit x L mayDelete HL Hd) as (info & Hn & E). rewrite E. clear E.
  set (t := rf_trk x) in *. set (d := disk (mempoolDb t)) in *. set (lost := lost_txids L mayDelete d) in *.
  set (s0 := opened (shared t)). set (new := filter _ L) in *. set (s1 := pruned_store L mayDelete t).
  assert (Hb0 : in_batch s0) by apply in_batch_begin.
  assert (Hb1 : in_batch s1) by by apply in_batch_stage.
  assert (Hc1 : commit_ok s1) by (unfold commit_ok, s1, pruned_store; by rewrite faults_stage).
  destruct (run_mempool_commit t s1 Hb1 Hc1) as (m & E2 & Hv);
    [unfold s1, pruned_store; by rewrite cache_stage|unfold s1, pruned_store; by rewrite known_stage|].
  rewrite (try_bind_ok _ _ _ _ _ _ (run_on_track_ok _ (with_trk (set_mempoolDb s1 t) x) _ _ E2)). unfold try_catch.
  set (st1 := set_epoch (mempoolEpoch (stat t) + 1) (stat t)).
  rewrite (run_bind_ok _ _ _ tt (with_trk (set_stat st1 (set_mempoolDb m t)) x)) by done.
  set (st2 := if bool_decide (new = []) then st1 else set_reconverged false st1).
  rewrite (run_bind_ok _ _ _ tt (with_trk (set_stat st2 (set_mempoolDb m t)) x)).
  2:{ unfold st2, when. destruct new; [done|]. by rewrite bool_decide_eq_true_2, bool_decide_eq_false_2 by (done || cbn; lia). }
  assert (Hl : forall y, y ∈ lost -> is_hash y) by (intros y; by apply lost_hash).
  assert (Hv0 : forall b, view s0 b = db_get (disk s0) b) by (intros b; exact (view_begin (shared t) b)).
  eexists. split; [reflexivity|]. split; cbn; try done; fold t d.
  - intros k Hk. assert (Em : dk (disk m) k = view s1 (enc k)) by apply Hv.
    rewrite Em. unfold s1, pruned_store. fold d lost s0. change d with (disk s0). rewrite view_prune by done.
    by apply (view_mined s0 lost k).
  - intros b v. rewrite Hv. intros E. apply (prune_writes_del s0 lost) in E; [by rewrite Hv0 in E|done..].
Qed.
End pruned.

(** * The mempool poller *)

(** * A pass, step by step *)

Section pass.
Context {node : Node} {search : BinarySearch} {laws : BinarySearchLaws} {env : MempoolEnv}.
Context {DB : Type} `{LevelDbLaws DB}.
Implicit Types (x : refresh DB) (t : tracker DB) (s : store DB).

Definition memDb x : store DB := mempoolDb (rf_trk x).
Definition memDisk x : DB := disk (memDb x).

(** What a pass leaves alone: the confirmed database, the window, the flag the next
    pass looks at; node calls only accumulate. *)
Record aside x x' : Prop := {
  as_disk : disk (db (rf_trk x')) = disk (db (rf_trk x));
  as_win : win (rf_trk x') = win (rf_trk x);
  as_busy : mempoolBusy (stat (rf_trk x')) = mempoolBusy (stat (rf_trk x));
  as_calls : calls (rf_trk x) <= calls (rf_trk x');
}.

#[local] Instance aside_preorder : PreOrder aside.
Proof.
  split; [intros x; by split|]. intros x y z [H1 H2 H3 H4] [G1 G2 G3 G4]. split; [congruence..|lia].
Qed.

(** The mempool database grows by records. *)
Record fed x x' : Prop := {
  fed_aside : aside x x';
  fed_grow : forall b, is_Some (db_get (memDisk x) b) -> is_Some (db_get (memDisk x') b);
  fed_wf : db_wf (memDisk x) -> db_wf (memDisk x');
}.

#[local] Instance fed_preorder : PreOrder fed.
Proof.
  split; [intros x; by split|]. intros x y z [H1 H2 H3] [G1 G2 G3]. split; [by etrans|auto..].
Qed.

(** A batch open on the mempool store takes puts of records. *)
Record feeding x x' : Prop := {
  fe_disk : disk (db (rf_trk x')) = disk (db (rf_trk x));
  fe_win : win (rf_trk x') = win (rf_trk x);
  fe_stat : stat (rf_trk x') = stat (rf_trk x);
  fe_calls : calls (rf_trk x') = calls (rf_trk x);
  fe_puts : puts (shared (rf_trk x)) (shared (rf_trk x'));
}.

#[local] Instance feeding_preorder : PreOrder feeding.
Proof.
  split; [intros x; split; try done; apply puts_preorder|].
  intros x y z [H1 H2 H3 H4 H5] [G1 G2 G3 G4 G5]. split; [congruence..|by eapply puts_preorder].
Qed.

Lemma run_on_track_mempool {A} (m : M (store DB) A) x :
  let x' := (on_track (on_mempool m) x).2 in
  (on_track (on_mempool m) x).1 = (m (shared (rf_trk x))).1
  /\ shared (rf_trk x') = (m (shared (rf_trk x))).2
  /\ memDb x' = (m (shared (rf_trk x))).2
  /\ disk (db (rf_trk x')) = disk (db (rf_trk x)) /\ win (rf_trk x') = win (rf_trk x)
  /\ stat (rf_trk x') = stat (rf_trk x) /\ calls (rf_trk x') = calls (rf_trk x).
Proof.
  unfold on_track, on_mempool. fold (shared (rf_trk x)). destruct (m (shared (rf_trk x))) as [r s]. cbn.
  split_and!; try done. unfold shared. cbn. by destruct s.
Qed.

Lemma feeding_mempool {A} (m : M (store DB) A) : within puts m -> within feeding (on_track (on_mempool m)).
Proof.
  intros Hm x. destruct (run_on_track_mempool m x) as (_ & Es & _ & ? & ? & ? & ?).
  split; try done. rewrite Es. apply Hm.
Qed.

Lemma feeding_counts f : within feeding (modify (fun x => set_counts (f x) x)).
Proof. intros x. by split. Qed.

Lemma feeding_stageMempoolTx e : within feeding (stageMempoolTx e).
Proof.
  unfold stageMempoolTx. destruct e.1 as [hex|]; [|apply within_pure; apply _].
  apply within_bind; [apply _|apply within_pure; apply _|]. intros tx.
  apply within_bind; [apply _|apply within_pure; apply _|]. intros [|]; [|apply within_pure; apply _].
  apply within_bind; [apply _|apply feeding_mempool, puts_parseTransaction|]. intros c. apply feeding_counts.
Qed.

(** ** Landing *)

(** The node's reply for a txid holds nothing for the store: no entry, a null, or a
    transaction without inputs and outputs. *)
Definition nothing_in (h : option (option string)) : Prop :=
  match h with
  | Some (Some hex) => exists tx, txFromHex hex = Ok tx /\ ins tx = [] /\ outs tx = []
  | _ => True
  end.

Definition held (d : DB) (y : string) : Prop := exists k, kTx y = Ok k /\ is_Some (db_get d k).

(** Staged in the batch open on the mempool store. *)
Definition staged_tx x (y : string) : Prop := exists k, kTx y = Ok k /\ is_Some (view (shared (rf_trk x)) k).

Lemma stageMempoolTx_lands h y x x' :
  in_batch (shared (rf_trk x)) -> stageMempoolTx (h, y) x = (Ok tt, x') ->
  nothing_in (Some h) \/ staged_tx x' y.
Proof.
  intros Hb. unfold stageMempoolTx. cbn [fst snd]. destruct h as [hex|]; [|by left].
  unfold mbind at 1, M_bind at 1, lift_res at 1. destruct (txFromHex hex) as [tx|e] eqn:Etx; [|done].
  unfold mbind at 1, M_bind at 1, lift_res at 1. unfold isStageableMempoolTx.
  destruct (bool_decide (length (ins tx) = 0) && bool_decide (length (outs tx) = 0)) eqn:Emp.
  - intros _. left. apply andb_prop in Emp as [Hi Ho]. apply bool_decide_eq_true in Hi, Ho.
    exists tx. split_and!; [done|by apply nil_length_inv|by apply nil_length_inv].
  - destruct (bool_decide (getId tx = y)) eqn:Eid; [apply bool_decide_eq_true in Eid|intros [=]]. unfold mbind at 1, M_bind at 1.
    pose proof (run_on_track_mempool (parseTransaction tx None (-1) true false) x) as Hrun. cbv zeta in Hrun.
    destruct (on_track _ x) as [[c|e] x1]; [|done]. intros [= <-]. right.
    destruct Hrun as (E1 & E2 & _). cbn [fst snd] in E1, E2.
    destruct (parseTransaction tx None (-1) true false (shared (rf_trk x))) as [r s1] eqn:Ep. cbn [fst snd] in E1, E2. subst r.
    destruct (parseTransaction_stages _ _ _ _ Hb Ep) as (k & Ek & Hk). rewrite Eid in Ek. exists k. split; [done|].
    by rewrite <- E2 in Hk.
Qed.

Lemma stageMempoolTxs_land es : forall x x',
  in_batch (shared (rf_trk x)) -> forM es stageMempoolTx x = (Ok tt, x') ->
  forall h y, (h, y) ∈ es -> nothing_in (Some h) \/ staged_tx x' y.
Proof.
  induction es as [|[h0 y0] es IH]; intros x x' Hb; cbn [forM]; [by intros _ h y Hn%elem_of_nil|].
  unfold mbind at 1, M_bind at 1. pose proof (feeding_stageMempoolTx (h0, y0) x) as [_ _ _ _ Hp].
  destruct (stageMempoolTx (h0, y0) x) as [[[]|e] x1] eqn:E1; [|done]. intros E2 h y [[= -> ->]|Hin]%elem_of_cons.
  - destruct (stageMempoolTx_lands _ _ _ _ Hb E1) as [?|(k & Ek & Hk)]; [by left|]. right. exists k. split; [done|].
    pose proof (within_forM feeding es _ feeding_stageMempoolTx x1) as [_ _ _ _ Hp2]. rewrite E2 in Hp2.
    apply (puts_grow _ _ _ Hp2); [|done]. by apply (puts_batch _ _ Hp).
  - apply (IH x1 x'); [|done|done]. by apply (puts_batch _ _ Hp).
Qed.

(** ** Closing the batch *)

(** Past a step on the mempool store that leaves its disk. *)
Lemma fed_mempool {A} (m : M (store DB) A) x :
  disk (m (shared (rf_trk x))).2 = memDisk x -> fed x (on_track (on_mempool m) x).2.
Proof.
  intros Hd. destruct (run_on_track_mempool m x) as (_ & _ & Em & Ed & Ew & Est & Ec).
  split; [split; [done|done|by rewrite Est|by rewrite Ec]|unfold memDisk at 2; by rewrite Em, Hd..].
Qed.

Lemma run_discard {A} e x : exists x', discard_and_throw (A:=A) e x = (Err e, x') /\ fed x x'.
Proof.
  pose proof (fed_mempool (endTransaction false) x eq_refl) as Hf.
  unfold discard_and_throw, mbind, M_bind, on_track, try_catch in *.
  destruct (on_mempool (endTransaction false) (rf_trk x)) as [[[]|e'] t']; by eexists.
Qed.

Lemma fed_stat f x : mempoolBusy (f (stat (rf_trk x))) = mempoolBusy (stat (rf_trk x)) -> fed x (mod_status f x).2.
Proof. intros Hf. by split; [split|..]. Qed.

(** The commit: refused, or the disk takes the batch whole. *)
Lemma fed_commit x :
  in_batch (shared (rf_trk x)) -> (forall b, is_Some (db_get (memDisk x) b) -> is_Some (view (shared (rf_trk x)) b)) ->
  (db_wf (memDisk x) -> view_wf (shared (rf_trk x))) ->
  let r := on_track (on_mempool (endTransaction true)) x in
  fed x r.2 /\ (r.1 = Ok tt -> forall k, db_get (memDisk r.2) k = view (shared (rf_trk x)) k).
Proof.
  intros Hb Hg Hw r. destruct (run_on_track_mempool (endTransaction true) x) as (E1 & _ & Em & Ed & Ew & Est & Ec).
  fold r in E1, Em, Ed, Ew, Est, Ec. set (s := shared (rf_trk x)) in *.
  assert (Ha : aside x r.2) by (split; [done|done|by rewrite Est|by rewrite Ec]).
  assert (Hcase : (forall k, db_get (memDisk r.2) k = view s k) \/ (r.1 <> Ok tt /\ memDisk r.2 = memDisk x)).
  { unfold memDisk at 1 2. rewrite Em, E1. destruct (faults s) as [|[] fs] eqn:Ef.
    1,3: left; destruct (run_endTransaction_commit s Hb) as (s' & -> & Hv & _);
      [unfold commit_ok; by rewrite Ef|exact Hv].
    right. by rewrite (run_endTransaction_refused s fs Hb Ef). }
  destruct Hcase as [Hv|[Hr Hd]]; (split; [split; [done|..]|done || by intros ?]).
  - intros b Hs. rewrite Hv. auto.
  - intros Hwf b v. rewrite Hv. by apply Hw.
  - by rewrite Hd.
  - by rewrite Hd.
Qed.

Lemma feeding_fed x x' : in_batch (shared (rf_trk x)) -> feeding x x' -> fed x x'.
Proof.
  intros Hb [H1 H2 H3 H4 H5]. destruct (puts_batch _ _ H5 Hb) as (_ & Hd & _).
  change (memDisk x' = memDisk x) in Hd. split; [split; [done|done|by rewrite H3|by rewrite H4]|by rewrite Hd..].
Qed.

(** ** One chunk *)

Lemma fed_stageMempoolBatch txs chunk x r x' :
  stageMempoolBatch txs chunk x = (r, x') ->
  fed x x' /\ (r = Ok tt -> forall h y, (h, y) ∈ pair_txids txs chunk -> nothing_in (Some h) \/ held (memDisk x') y).
Proof.
  unfold stageMempoolBatch. unfold mbind at 1, M_bind at 1.
  destruct (run_on_track_mempool beginTransaction x) as (E1 & E2 & _).
  pose proof (fed_mempool beginTransaction x eq_refl) as Hf0.
  destruct (on_track (on_mempool beginTransaction) x) as [r0 x0]. cbn [fst snd] in E1, E2, Hf0.
  change (r0 = Ok tt) in E1. subst r0. change (shared (rf_trk x0) = opened (shared (rf_trk x))) in E2.
  assert (Hb0 : in_batch (shared (rf_trk x0))) by (rewrite E2; apply in_batch_begin).
  assert (Hv0 : forall b, view (shared (rf_trk x0)) b = db_get (memDisk x0) b).
  { intros b. change (memDisk x0) with (disk (shared (rf_trk x0))). rewrite E2.
    exact (view_begin (shared (rf_trk x)) b). }
  unfold try_catch, mbind, M_bind.
  pose proof (within_forM feeding (pair_txids txs chunk) _ feeding_stageMempoolTx x0) as Hfe.
  pose proof (stageMempoolTxs_land (pair_txids txs chunk) x0) as Hland.
  destruct (forM _ _ x0) as [[[]|e] x1]; cbn [snd] in Hfe; pose proof (feeding_fed _ _ Hb0 Hfe) as Hf1.
  2:{ destruct (run_discard (A:=unit) e x1) as (x2 & -> & Hf2). intros [= <- <-]. split; [|done]. by do 2 (etrans; [eassumption|]). }
  specialize (Hland x1 Hb0 eq_refl). destruct Hfe as [_ _ _ _ Hp]. destruct (puts_batch _ _ Hp Hb0) as (Hb1 & Hd1 & _).
  change (memDisk x1 = memDisk x0) in Hd1. destruct (fed_commit x1 Hb1) as [Hf2 Hc].
  { intros b. rewrite Hd1, <- Hv0. by apply puts_grow. }
  { rewrite Hd1. intros Hwf. apply (puts_wf _ _ Hp Hb0). intros b v. rewrite Hv0. apply Hwf. }
  destruct (on_track (on_mempool (endTransaction true)) x1) as [[[]|e] x2]; cbn [fst snd] in Hf2, Hc.
  - specialize (Hc eq_refl). intros [= <- <-]. split.
    + do 3 (etrans; [eassumption|]). by apply fed_stat.
    + intros _ h y Hin. destruct (Hland h y Hin) as [?|(k & Ek & Hk)]; [by left|]. right.
      exists k. split; [done|]. change (is_Some (db_get (memDisk x2) k)). by rewrite Hc.
  - destruct (run_discard (A:=unit) e x2) as (x3 & -> & Hf3). intros [= <- <-]. split; [|done].
    by do 3 (etrans; [eassumption|]).
Qed.

(** ** The listing, chunk by chunk *)

(** Between calls [a] and [b] the node was asked for [y] and served nothing to store. *)
Definition nothing_served (a b : nat) (y : string) : Prop :=
  exists n chunk txs i, a <= n < b /\ rpc_getRawTransactions n chunk = Ok txs
    /\ chunk !! i = Some y /\ nothing_in (txs !! i).

(** What became of a listed transaction by [x'], since [x]. *)
Definition accounted x x' (y : string) : Prop :=
  held (memDisk x') y \/ nothing_served (calls (rf_trk x)) (calls (rf_trk x')) y.

Lemma accounted_later x0 x x' x2 y :
  calls (rf_trk x0) <= calls (rf_trk x) -> calls (rf_trk x') <= calls (rf_trk x2) ->
  (forall b, is_Some (db_get (memDisk x') b) -> is_Some (db_get (memDisk x2) b)) ->
  accounted x x' y -> accounted x0 x2 y.
Proof.
  intros Hc Hc' Hg [(k & Ek & Hk)|(n & chunk & txs & i & Hn & E)].
  - left. exists k. auto.
  - right. exists n, chunk, txs, i. split; [lia|done].
Qed.

Lemma run_noteTxFetchFailure n x : exists r x', noteTxFetchFailure n x = (r, x') /\ rf_trk x' = rf_trk x.
Proof.
  unfold noteTxFetchFailure. unfold mbind, M_bind, modify. case_bool_decide; by do 2 eexists.
Qed.

Lemma same_tracker_fed x x' : rf_trk x' = rf_trk x -> fed x x'.
Proof. intros E. split; [split|..]; unfold memDisk, memDb; by rewrite E. Qed.

Lemma run_fetchChunk tries chunk : forall fails x r x',
  fetchChunk tries chunk fails x = (r, x') ->
  fed x x' /\ match r with
             | Ok txs => exists n, calls (rf_trk x) <= n < calls (rf_trk x') /\ rpc_getRawTransactions n chunk = Ok txs
             | Err _ => True
             end.
Proof.
  induction tries as [|tries IH]; intros fails x r x'; cbn [fetchChunk]; unfold mbind at 1, M_bind at 1, settle at 1;
    (assert (Hf : fed x (with_trk (set_calls (S (calls (rf_trk x))) (rf_trk x)) x)) by (split; [split|..]; try done; cbn; lia));
    change (on_track _ x) with (rpc_getRawTransactions (calls (rf_trk x)) chunk,
      with_trk (set_calls (S (calls (rf_trk x))) (rf_trk x)) x); cbv iota beta;
    destruct (rpc_getRawTransactions _ chunk) as [txs|e] eqn:Er.
  1,3: intros [= <- <-]; split; [exact Hf|]; exists (calls (rf_trk x)); split; [cbn; lia|exact Er].
  all: unfold mbind, M_bind; destruct (run_noteTxFetchFailure (fails + 1) (with_trk (set_calls (S (calls (rf_trk x))) (rf_trk x)) x))
    as ([[]|e'] & x2 & -> & E2); apply same_tracker_fed in E2.
  1,2,4: intros [= <- <-]; split; [by etrans|done].
  intros E. destruct (IH _ _ _ _ E) as [Hf2 Hr]. assert (Hf3 : fed x x2) by by etrans.
  split; [by etrans|]. destruct r as [txs|e0]; [|done]. destruct Hr as (n & Hn & En). exists n. split; [|done].
  destruct Hf3 as [[_ _ _ ?] _ _]. lia.
Qed.

Lemma elem_of_pair_txids txs chunk i h y :
  txs !! i = Some h -> chunk !! i = Some y -> (h, y) ∈ pair_txids txs chunk.
Proof.
  intros Ht Hc. apply list_elem_of_lookup. exists i. unfold pair_txids. by rewrite list_lookup_imap, Ht, Hc.
Qed.

Lemma run_batchLoop fuel : forall L x r x',
  batchLoop fuel L x = (r, x') ->
  fed x x' /\ (r = Ok tt -> length L <= fuel -> forall y, y ∈ L -> accounted x x' y).
Proof.
  induction fuel as [|fuel IH]; intros L x r x'; cbn [batchLoop].
  { intros [= <- <-]. split; [reflexivity|]. intros _ HL y Hy. destruct L; [by apply elem_of_nil in Hy|cbn in HL; lia]. }
  destruct L as [|y0 L0] eqn:EL; [intros [= <- <-]; split; [reflexivity|]; by intros _ _ y Hy%elem_of_nil|].
  rewrite <- EL. assert (HLpos : 0 < length L) by (rewrite EL; cbn; lia). clear EL y0 L0.
  set (chunk := take MEMPOOL_BATCH_SIZE L). unfold mbind at 1, M_bind at 1.
  destruct (fetchChunk _ chunk 0 x) as [r1 x1] eqn:E1. destruct (run_fetchChunk _ _ _ _ _ _ E1) as [Hf1 Hr1].
  destruct r1 as [txs|e]; [|by intros [= <- <-]]. destruct Hr1 as (n & Hn & En).
  unfold mbind, M_bind. destruct (stageMempoolBatch txs chunk x1) as [r2 x2] eqn:E2.
  destruct (fed_stageMempoolBatch _ _ _ _ _ E2) as [Hf2 Hr2].
  destruct r2 as [[]|e]; [|intros [= <- <-]; split; [by etrans|done]].
  intros E3. destruct (IH _ _ _ _ E3) as [Hf3 Hr3]. split; [by do 2 (etrans; [eassumption|])|].
  intros -> HL y Hy. specialize (Hr2 eq_refl). destruct Hf1 as [[_ _ _ Hc1] _ _].
  pose proof Hf2 as [[_ _ _ Hc2] _ _]. rewrite <- (take_drop MEMPOOL_BATCH_SIZE L) in Hy. apply elem_of_app in Hy as [Hy|Hy].
  - apply (accounted_later x x x2); [done|apply Hf3|apply Hf3|]. apply list_elem_of_lookup in Hy as [i Hi].
    assert (Hnone : nothing_in (txs !! i) -> accounted x x2 y).
    { intros Hno. right. exists n, chunk, txs, i. split; [lia|done]. }
    destruct (txs !! i) as [h|] eqn:Et; [|by apply Hnone].
    destruct (Hr2 h y (elem_of_pair_txids _ _ _ _ _ Et Hi)) as [Hno|Hh]; [by apply Hnone|by left].
  - apply (accounted_later x x2 x'); [lia|done|done|]. apply Hr3; [done| |done].
    rewrite length_drop. unfold MEMPOOL_BATCH_SIZE in *. lia.
Qed.

(** ** The prune and the listing *)

Lemma stored_held (d : DB) y : is_hash y -> is_Some (dk d (KTx (h2b y))) -> held d y.
Proof. intros Hy Hk. exists (enc (KTx (h2b y))). split; [by apply kTx_ok|done]. Qed.

(** A listed transaction the store holds survives the prune. *)
Lemma pruned_keeps L mayDelete x x' y :
  db_wf (memDisk x) -> pruned_to x L mayDelete x' -> y ∈ L -> y ∈ stored_txids (memDisk x) -> held (memDisk x') y.
Proof.
  intros Hd [_ _ Hrec _ _ _ _] HyL Hy. apply (stored_txids_spec _ _ Hd) in Hy as [Hy Hs].
  assert (Hk : wf_key (KTx (h2b y))) by by apply h2b_hash32. destruct (Hrec _ Hk) as [_ Hkeep].
  apply stored_held; [done|]. unfold memDisk, memDb. rewrite Hkeep; [exact Hs|].
  intros z Hz Em. cbn in Em. pose proof (lost_hash _ _ _ _ Hd Hz) as Hzh. apply h2b_inj in Em as ->; [|done..].
  unfold lost_txids in Hz. destruct mayDelete; [|by apply elem_of_nil in Hz].
  by apply list_elem_of_filter in Hz as [[] _].
Qed.

Lemma run_prune_refused L mayDelete x :
  StronglySorted str_lt L -> db_wf (memDisk x) -> ~ commit_ok (memDb x) ->
  exists e x', pruneMempoolStore L mayDelete x = (Err e, x') /\ fed x x'.
Proof.
  intros HL Hd Hc. destruct (prune_to_commit x L mayDelete HL Hd) as (info & _ & E). rewrite E. clear E.
  set (s1 := pruned_store L mayDelete (rf_trk x)). set (x1 := with_trk _ x).
  assert (Es : shared (rf_trk x1) = s1)
    by (apply shared_set; unfold s1, pruned_store; [by rewrite cache_stage|by rewrite known_stage]).
  assert (Hd1 : disk s1 = memDisk x) by (unfold s1, pruned_store; by rewrite disk_stage).
  assert (Hf1 : fed x x1) by (split; [split; done|..]; change (memDisk x1) with (disk s1); by rewrite Hd1).
  assert (Hf : exists fs, faults s1 = true :: fs).
  { unfold s1, pruned_store. rewrite faults_stage. change (faults (opened _)) with (faults (memDb x)).
    unfold commit_ok in Hc. destruct (faults (memDb x)) as [|[] fs]; [|by exists fs|]; by destruct Hc. }
  destruct Hf as [fs Hf]. pose proof (run_endTransaction_refused s1 fs (in_batch_stage _ _ (in_batch_begin _)) Hf) as Er.
  destruct (run_on_track_mempool (endTransaction true) x1) as (E1 & _).
  pose proof (fed_mempool (endTransaction true) x1) as Hf2. rewrite Es, Er in E1, Hf2. specialize (Hf2 eq_refl).
  unfold try_catch. unfold mbind at 1, M_bind at 1.
  destruct (on_track (on_mempool (endTransaction true)) x1) as [r x2]. cbn [fst snd] in E1, Hf2. subst r.
  destruct (run_discard (A:=list string) (Error EBatch) x2) as (x3 & -> & Hf3). eexists _, x3. split; [reflexivity|].
  by do 2 (etrans; [eassumption|]).
Qed.

Lemma run_prune L mayDelete x r x' :
  StronglySorted str_lt L -> db_wf (memDisk x) -> pruneMempoolStore L mayDelete x = (r, x') ->
  aside x x' /\ db_wf (memDisk x')
  /\ match r with Ok new => forall y, y ∈ L -> y ∈ new \/ held (memDisk x') y | Err _ => True end.
Proof.
  intros HL Hd E. destruct (decide (commit_ok (memDb x))) as [Hc|Hc].
  - destruct (run_pruneMempoolStore x L mayDelete HL Hd Hc) as (x1 & E1 & Hp). rewrite E1 in E. injection E as <- <-.
    pose proof Hp as [Hdb Hw _ Hs Hn _ Hst]. split_and!.
    + split; [by rewrite Hdb|done| |by rewrite Hn]. rewrite Hst. cbv zeta. by case_bool_decide.
    + intros b v Hg. apply Hs in Hg. by apply Hd.
    + intros y Hy. destruct (decide (y ∈ stored_txids (memDisk x))) as [Hin|Hin].
      * right. by eapply pruned_keeps.
      * left. by apply list_elem_of_filter.
  - destruct (run_prune_refused L mayDelete x HL Hd Hc) as (e & x1 & E1 & [Ha _ Hwf]). rewrite E1 in E. injection E as <- <-.
    split_and!; [done|auto|done].
Qed.

(** ** The pass *)

Lemma run_reconverge L mayDelete x :
  StronglySorted str_lt L -> db_wf (memDisk x) ->
  exists x', reconvergeMempool L mayDelete x = (Ok tt, x')
    /\ disk (db (rf_trk x')) = disk (db (rf_trk x)) /\ win (rf_trk x') = win (rf_trk x)
    /\ calls (rf_trk x) <= calls (rf_trk x')
    /\ mempoolBusy (stat (rf_trk x')) = false /\ db_wf (memDisk x')
    /\ (mempoolReconverged (stat (rf_trk x')) = true -> forall y, y ∈ L -> accounted x x' y).
Proof.
  intros HL Hd. unfold reconvergeMempool. set (x0 := set_counts no_counts x).
  rewrite (run_bind_ok _ _ x tt x0) by done. unfold try_catch, mbind, M_bind.
  destruct (pruneMempoolStore L mayDelete x0) as [r1 x1] eqn:E1.
  destruct (run_prune L mayDelete x0 r1 x1 HL Hd E1) as ([A1 A2 A3 A4] & Hw1 & Hr1).
  destruct r1 as [new|e]; [|eexists; split; [reflexivity|]; by split_and!].
  destruct (batchLoop (length new) new x1) as [r2 x2] eqn:E2.
  destruct (run_batchLoop _ _ _ _ _ E2) as [Hf2 Hr2]. pose proof Hf2 as [[H1 H2 H3 H4] _ Hw2].
  destruct r2 as [[]|e]; (eexists; split; [reflexivity|]; split_and!;
    [exact (eq_trans H1 A1)|exact (eq_trans H2 A2)|cbn in *; lia|done|by apply Hw2|]); [|done].
  intros _ y Hy. destruct (Hr1 y Hy) as [Hn|Hh].
  - apply (accounted_later x x1 x2); [exact A4|done|done|by apply Hr2].
  - left. destruct Hh as (k & Ek & Hk). exists k. split; [done|]. exact (fed_grow _ _ Hf2 k Hk).
Qed.

Lemma run_committedTip x :
  exists b, on_track committedTipIsNodeTip x = (Ok b, with_trk (set_calls (S (calls (rf_trk x))) (rf_trk x)) x).
Proof.
  assert (E : exists b, committedTipIsNodeTip (rf_trk x) = (Ok b, set_calls (S (calls (rf_trk x))) (rf_trk x))).
  { unfold committedTipIsNodeTip, try_catch, mbind, M_bind, rpc. destruct (rpc_tip _) as [i|e]; [|by eexists].
    set (t := set_calls _ _). assert (Et : set_db (db t) t = t) by by destruct t.
    assert (Eh : exists h, getLastBlockHeight (db t) = (Ok h, db t))
      by (unfold getLastBlockHeight, mbind, M_bind, dbGet, gets; destruct (db_get _ _); by eexists).
    destruct Eh as [h Eh]. rewrite (run_on_db_ok _ t _ _ Eh), Et. cbv iota beta.
    rewrite (run_on_db_ok getLastBlockHash t (to_latin1 <$> db_get (disk (db t)) PREFIX_LAST_BLOCK_HASH) (db t)), Et by done.
    by eexists. }
  destruct E as [b E]. exists b. unfold on_track. by rewrite E.
Qed.
End pass.

(** The prune drops from the mempool store exactly what the node no longer lists, with
    every output and spend of it, and only when told that it may delete; it hands back the
    listed transactions the store lacks; readiness is withdrawn while any is missing; and
    the confirmed store is untouched. *)
Theorem prune_keeps_what_is_listed {node : Node} {search : BinarySearch} {laws : BinarySearchLaws} {DB : Type} `{LevelDbLaws DB}
    (x : refresh DB) (listing : list string) (mayDelete : bool) :
  let L := insertSortedTxids [] listing in
  let stored d y := is_hash y /\ is_Some (dk d (KTx (h2b y))) in
  let d := disk (mempoolDb (rf_trk x)) in
  db_wf d -> commit_ok (mempoolDb (rf_trk x)) ->
  exists new x', pruneMempoolStore L mayDelete x = (Ok new, x')
    /\ (forall y, y ∈ new <-> y ∈ listing /\ ~ stored d y)
    /\ (forall y, stored (disk (mempoolDb (rf_trk x'))) y <-> stored d y /\ (mayDelete = true -> y ∈ listing))
    /\ (mayDelete = false -> forall k, wf_key k -> dk (disk (mempoolDb (rf_trk x'))) k = dk d k)
    /\ (forall k, wf_key k -> (forall y, y ∉ listing -> stored d y -> ~ mined_key d (h2b y) k) ->
          dk (disk (mempoolDb (rf_trk x'))) k = dk d k)
    /\ (new <> [] -> mempoolReconverged (stat (rf_trk x')) = false)
    /\ db (rf_trk x') = db (rf_trk x).
Proof.
  intros L stored d Hd Hc. destruct (insertSortedTxids_spec [] listing ltac:(constructor)) as [HL HinL]. fold L in HL, HinL.
  assert (Hin : forall y, y ∈ L <-> y ∈ listing) by (intros y; rewrite HinL; set_solver).
  assert (Hstored : forall y, y ∈ stored_txids d <-> stored d y) by (intros y; by apply stored_txids_spec).
  destruct (run_pruneMempoolStore x L mayDelete HL Hd Hc) as (x' & E & [Hdb _ Hrec _ _ _ Hst]). cbv zeta in Hrec. fold d in E, Hrec, Hst.
  set (new := filter _ L) in *. set (lost := lost_txids L mayDelete d) in *.
  assert (Hlost : forall y, y ∈ lost <-> mayDelete = true /\ y ∉ listing /\ stored d y).
  { intros y. unfold lost, lost_txids. destruct mayDelete; [unfold gone; rewrite list_elem_of_filter, Hin, Hstored; naive_solver|].
    rewrite elem_of_nil. naive_solver. }
  exists new, x'. split_and!; [done| | | | | |done].
  - intros y. unfold new. rewrite list_elem_of_filter, Hin, Hstored. naive_solver.
  - intros y. unfold stored at 1 2. destruct (decide (is_hash y)) as [Hy|]; [|naive_solver].
    assert (Hk : wf_key (KTx (h2b y))) by by apply h2b_hash32. destruct (Hrec _ Hk) as [H1 H2].
    destruct (decide (y ∈ lost)) as [Hyl|Hyl].
    + rewrite (H1 y Hyl) by done. apply Hlost in Hyl as (-> & Hn & _). split; [by intros [_ []%is_Some_None]|naive_solver].
    + rewrite H2.
      * rewrite Hlost in Hyl. unfold stored in Hyl. destruct mayDelete; [|naive_solver].
        destruct (decide (y ∈ listing)); [naive_solver|]. split; [|naive_solver]. intros Hh. exfalso. naive_solver.
      * intros z Hz Em. cbn in Em. apply h2b_inj in Em as ->; [done|done|]. by apply Hlost in Hz as (_ & _ & [? _]).
  - intros -> k Hk. apply (Hrec k Hk). intros y Hy. by apply Hlost in Hy as [? _].
  - intros k Hk Hn. apply (Hrec k Hk). intros y (_ & Hy1 & Hy2)%Hlost. by apply Hn.
  - intros Hne. rewrite Hst. by rewrite bool_decide_eq_false_2.
Qed.

(** C23 A pass of the poller, whatever the node and the decoder answer and whichever commits
    the database refuses, returns with the poller released, the confirmed store and the
    window as they were and the mempool store well-formed.  If the listing failed nothing
    changed; if the pass left the mempool published as reconverged, every listed
    transaction is in the store, or the node was asked for it in this pass and served
    nothing that could be stored. *)
Theorem ready_means_complete {node : Node} {search : BinarySearch} {laws : BinarySearchLaws} {env : MempoolEnv}
    {DB : Type} `{LevelDbLaws DB} (x : refresh DB) :
  mempoolBusy (stat (rf_trk x)) = false -> db_wf (memDisk x) ->
  exists x', updateMempool x = (Ok tt, x')
    /\ mempoolBusy (stat (rf_trk x')) = false
    /\ disk (db (rf_trk x')) = disk (db (rf_trk x)) /\ win (rf_trk x') = win (rf_trk x)
    /\ db_wf (memDisk x')
    /\ match rpc_getRawMempool (calls (rf_trk x)) with
       | Err _ => memDisk x' = memDisk x
           /\ mempoolReconverged (stat (rf_trk x')) = mempoolReconverged (stat (rf_trk x))
       | Ok listing => mempoolReconverged (stat (rf_trk x')) = true -> forall y, y ∈ listing -> accounted x x' y
       end.
Proof.
  intros Hb Hd. unfold updateMempool. rewrite (run_bind_ok _ _ x x x) by done. rewrite Hb.
  set (x1 := with_trk (set_stat (set_busy true (stat (rf_trk x))) (rf_trk x)) x).
  rewrite (run_bind_ok _ _ x tt x1) by done.
  set (x2 := with_trk (set_calls (S (calls (rf_trk x))) (rf_trk x1)) x1).
  rewrite (run_bind_ok _ _ x1 (rpc_getRawMempool (calls (rf_trk x))) x2) by done.
  destruct (rpc_getRawMempool (calls (rf_trk x))) as [listing|e]; [|eexists; split; [reflexivity|by split_and!]].
  destruct (insertSortedTxids_spec [] listing ltac:(constructor)) as [HL Hin].
  destruct (run_committedTip x2) as [mayDelete E]. rewrite (run_bind_ok _ _ _ _ _ E). clear E. set (x3 := with_trk _ x2).
  destruct (run_reconverge (insertSortedTxids [] listing) mayDelete x3 HL Hd) as (x' & E & Hdb & Hw & Hc & Hbusy & Hwf & Hacc).
  exists x'. split_and!; [exact E|done|done|done|done|]. intros Hr y Hy.
  apply (accounted_later x x3 x'); [cbn; lia|done|done|]. apply Hacc; [done|]. apply Hin. by left.
Qed.

(** * A concrete pass *)

(** A linear scan for the binary search. *)
Fixpoint linear_search (i : Z) (l : list string) (x : string) (cmp : string -> string -> Z) : Z :=
  match l with
  | [] => (- i - 1)%Z
  | y :: l =>
      let c := cmp y x in
      if bool_decide (c = 0)%Z then i
      else if bool_decide (0 < c)%Z then (- i - 1)%Z
      else linear_search (i + 1) l x cmp
  end.

#[global] Instance search0 : BinarySearch := linear_search 0.

Lemma localeCompare_spec a b :
  match String.compare a b with
  | Lt => localeCompare a b = (-1)%Z /\ str_lt a b
  | Eq => localeCompare a b = 0%Z /\ a = b
  | Gt => localeCompare a b = 1%Z /\ str_lt b a
  end.
Proof.
  unfold localeCompare, str_lt. destruct (String.compare a b) eqn:E; [|done|].
  - by apply Stdlib.Strings.String.compare_eq_iff in E.
  - rewrite Stdlib.Strings.String.compare_antisym. by rewrite E.
Qed.

(** Where the scan stops: on the needle, or between the smaller and the larger. *)
Lemma linear_search_spec l x : forall i, (0 <= i)%Z -> StronglySorted str_lt l ->
  let r := linear_search i l x localeCompare in
  ((i <= r)%Z /\ l !! Z.to_nat (r - i) = Some x)
  \/ exists j, r = (- (i + Z.of_nat j) - 1)%Z /\ j <= length l
      /\ (forall y, y ∈ take j l -> str_lt y x) /\ (forall y, y ∈ drop j l -> str_lt x y).
Proof.
  induction l as [|y l IH]; intros i Hi Hs; cbn [linear_search].
  { right. exists 0. split_and!; [lia|done|by intros y Hy%elem_of_nil..]. }
  inversion Hs as [|? ? Hs' Hy]; subst. pose proof (localeCompare_spec y x) as Hc.
  destruct (String.compare y x); destruct Hc as [-> Hc]; cbn [bool_decide decide_rel].
  - left. rewrite bool_decide_eq_true_2 by done. split; [lia|]. by rewrite Z.sub_diag, Hc.
  - rewrite !bool_decide_eq_false_2 by lia. destruct (IH (i + 1)%Z ltac:(lia) Hs') as [[Hr Hl]|(j & Hr & Hj & H1 & H2)].
    + left. split; [lia|]. set (r := linear_search _ _ _ _) in *.
      replace (Z.to_nat (r - i)) with (S (Z.to_nat (r - (i + 1)))) by lia. done.
    + right. exists (S j). split_and!; [lia|cbn; lia| |done]. intros z [->|Hz]%elem_of_cons; auto.
  - rewrite bool_decide_eq_false_2, bool_decide_eq_true_2 by lia. right. exists 0. split_and!; [lia|lia|by intros z Hz%elem_of_nil|].
    intros z [->|Hz]%elem_of_cons; [done|]. rewrite Forall_forall in Hy. apply (str_lt_trans x y z); [exact Hc|by apply Hy].
Qed.

#[global] Instance search0_laws : BinarySearchLaws.
Proof.
  split; intros l x Hs Hr; unfold bs, search0 in *; destruct (linear_search_spec l x 0 ltac:(lia) Hs) as [[Hi Hl]|(j & E & Hj & H1 & H2)]; cbv zeta in *.
  - by rewrite Z.sub_0_r in Hl.
  - lia.
  - lia.
  - rewrite E. replace (Z.to_nat _) with j by lia. done.
Qed.

(** Two transactions stored; the node has dropped the first and lists a third. *)
Definition mem_records : list (key * bytes) :=
  [ (KTx (raw x21), replicate 32 x00 ++ raw x21);
    (KOutHint (raw x21) 0, raw x51);
    (KOutput (raw x51) (raw x21) 0, output_val 7 (-1) (raw x21) false);
    (KTx (raw x22), replicate 32 x00 ++ raw x22) ].

Definition listing0 : list string := [hx x23; hx x22].

#[global] Instance mempool_env0 : MempoolEnv := {
  rpc_getRawMempool _ := Ok listing0;
  rpc_getRawTransactions _ chunk := Ok (Some <$> chunk);
  rpc_tip _ := Ok (Some (Some 100%Z, Some (hx xb0)));
  txFromHex y := Ok (mkTx y [mkTxIn (raw x11) 0 None] [mkTxOut [x51] 7]);
}.

Definition refresh0 : refresh mapdb :=
  mkRefresh (set_mempoolDb (store0 (kdb mem_records)) tracker0) 0 no_counts.

Lemma refresh0_wf : db_wf (memDisk refresh0).
Proof. apply kdb_wf. each_elem; by vm_compute. Qed.

Lemma prune_keeps_what_is_listed_witness :
  exists new x', pruneMempoolStore (insertSortedTxids [] listing0) true refresh0 = (Ok new, x')
    /\ hx x23 ∈ new /\ mempoolReconverged (stat (rf_trk x')) = false.
Proof.
  destruct (prune_keeps_what_is_listed refresh0 listing0 true refresh0_wf) as (new & x' & E & Hn & _ & _ & _ & Hr & _).
  - discriminate.
  - assert (H3 : hx x23 ∈ new).
    { apply Hn. split; [left|]. intros [_ [v Hv]]. vm_compute in Hv. discriminate Hv. }
    exists new, x'. split; [exact E|split; [exact H3|]]. apply Hr. intros ->. by apply elem_of_nil in H3.
Defined.

Lemma ready_means_complete_witness :
  mempoolReconverged (stat (rf_trk (updateMempool refresh0).2)) = true
  /\ accounted refresh0 (updateMempool refresh0).2 (hx x23).
Proof.
  assert (Hr : mempoolReconverged (stat (rf_trk (updateMempool refresh0).2)) = true) by by vm_compute.
  split; [exact Hr|].
  destruct (ready_means_complete refresh0 eq_refl refresh0_wf) as (x' & E & _ & _ & _ & _ & Hacc).
  rewrite E in Hr |- *. apply (Hacc Hr). left.
Defined.
