(* ===== verification/DecoderTheorems.v ===== *)
(** Byte-level decoding: the strip of a merge-mined block leaves exactly the header and
    the transactions, whichever daemon answered. *)

From S2P Require Import Prelude Parsing Wire AuxPow Decoder ChainParams.

#[local] Open Scope string_scope.
#[local] Open Scope list_scope.
#[local] Open Scope Z_scope.

(** * Hex texts *)

Lemma b2h_app a b : b2h (a ++ b) = String.append (b2h a) (b2h b).
Proof. induction a as [|x a IH]; [done|]. cbn [b2h app String.append]. by rewrite IH. Qed.

Lemma substring_all s : String.substring 0 (String.length s) s = s.
Proof. induction s as [|c s IH]; [done|]. cbn. by rewrite IH. Qed.

Lemma substring_prefix a b : String.substring 0 (String.length a) (String.append a b) = a.
Proof. induction a as [|c a IH]; [by destruct b|]. change (String.String c (String.substring 0 (String.length a) (String.append a b)) = String.String c a). by rewrite IH. Qed.

Lemma substring_suffix a b m : String.substring (String.length a) m (String.append a b) = String.substring 0 m b.
Proof. induction a as [|c a IH]; [done|]. cbn [String.length String.append String.substring]. exact IH. Qed.

(** The first [n] bytes of a hex text, and what follows them. *)
Lemma substring_b2h a b n : n = (2 * length a)%nat -> substring 0 n (b2h (a ++ b)) = b2h a.
Proof. intros ->. unfold substring. rewrite Nat.sub_0_r, b2h_app, <- length_b2h. apply substring_prefix. Qed.

Lemma substring_from_b2h a b n : n = (2 * length a)%nat -> substring_from n (b2h (a ++ b)) = b2h b.
Proof.
  intros ->. unfold substring_from. rewrite b2h_app, length_append, <- length_b2h, substring_suffix.
  replace (_ + _ - _)%nat with (String.length (b2h b)) by lia. apply substring_all.
Qed.

(** ** The version field *)

Lemma parse_run_b2h b acc seen :
  b <> [] -> parse_run 16 acc seen (b2h b) = Some (acc * 256 ^ Z.of_nat (length b) + unbe b).
Proof.
  revert acc seen. induction b as [|x b IH]; intros acc seen Hb; [done|]. cbn [b2h parse_run].
  pose proof (Z_of_byte_range x). rewrite digit_val_hex_digit
    by first [lia|split; [apply Z.div_pos; lia|apply Z.div_lt_upper_bound; lia]].
  cbn [parse_run]. rewrite digit_val_hex_digit by first [lia|apply Z.mod_pos_bound; lia].
  replace ((acc * 16 + Z_of_byte x / 16) * 16 + Z_of_byte x mod 16) with (acc * 256 + Z_of_byte x)
    by (pose proof (Z.div_mod (Z_of_byte x) 16 ltac:(lia)); lia).
  assert (Eu : unbe (x :: b) = Z_of_byte x * 256 ^ Z.of_nat (length b) + unbe b)
    by (unfold unbe; cbn [unbe_acc]; rewrite unbe_acc_split; lia).
  destruct b as [|y b]; [cbn [b2h parse_run length]; f_equal; rewrite Eu; cbn; lia|].
  rewrite IH by done. f_equal. rewrite Eu. cbn [length]. rewrite !Nat2Z.inj_succ, !Z.pow_succ_r by lia. nia.
Qed.

Lemma hex_digit_not d c : 0 <= d < 16 -> nib c = None -> hex_digit d <> c.
Proof. intros Hd Hc E. by rewrite <- E, nib_hex_digit in Hc. Qed.

Lemma strip0x_hex c d r : 0 <= d < 16 -> strip0x (String.String c (String.String (hex_digit d) r)) = String.String c (String.String (hex_digit d) r).
Proof.
  intros Hd. pose proof (hex_digit_not d "x" Hd eq_refl). pose proof (hex_digit_not d "X" Hd eq_refl).
  unfold strip0x. repeat case_match; simplify_eq; done.
Qed.

Lemma parseHex_b2h b : b <> [] -> parseHex (b2h b) = unbe b.
Proof.
  intros Hb. pose proof (parse_run_b2h b 0 false Hb) as E. destruct b as [|x b]; [done|]. cbn [b2h] in E |- *.
  pose proof (Z_of_byte_range x) as Hx.
  assert (Hh : 0 <= Z_of_byte x / 16 < 16) by (split; [apply Z.div_pos; lia|apply Z.div_lt_upper_bound; lia]).
  assert (Hl : 0 <= Z_of_byte x mod 16 < 16) by (apply Z.mod_pos_bound; lia).
  unfold parseHex. cbn [trim_start]. rewrite is_space_hex_digit by done.
  pose proof (hex_digit_not _ "-" Hh eq_refl). pose proof (hex_digit_not _ "+" Hh eq_refl).
  pose proof (strip0x_hex (hex_digit (Z_of_byte x / 16)) _ (b2h b) Hl) as Es.
  set (s := String.String _ (String.String _ (b2h b))) in *. rewrite <- Es in E. unfold s in *.
  repeat case_match; simplify_eq; try done; rewrite E; cbn; lia.
Qed.

Lemma land_256 v : bool_decide (Z.land v 0x100 = 0) = negb (Z.testbit v 8).
Proof.
  destruct (Z.testbit v 8) eqn:E; cbn.
  - apply bool_decide_eq_false_2. intros H0. apply (f_equal (fun z => Z.testbit z 8)) in H0.
    rewrite Z.land_spec, E in H0. by cbn in H0.
  - apply bool_decide_eq_true_2. apply Z.bits_inj'. intros n Hn. rewrite Z.land_spec, Z.bits_0.
    change 0x100 with (2 ^ 8). destruct (decide (n = 8)) as [->|Hne]; [by rewrite E|].
    rewrite Z.pow2_bits_false by lia. by rewrite andb_false_r.
Qed.

(** The bit tested is the low bit of the version's second byte. *)
Lemma swap32_bit v : Z.testbit (swap32 v) 8 = Z.testbit v 16.
Proof.
  unfold swap32. rewrite !Z.lor_spec, !Z.shiftl_spec by lia.
  rewrite (fun a => Z.testbit_neg_r a (8 - 24) eq_refl), (fun a => Z.testbit_neg_r a (8 - 16) eq_refl). rewrite !Z.land_spec, !Z.shiftr_spec by lia.
  replace (8 - 8 + 16) with 16 by lia.
  replace (Z.testbit 0xFF (8 - 8)) with true by done. replace (Z.testbit 0xFF 8) with false by done.
  by rewrite !andb_false_r, !andb_true_r, !orb_false_r.
Qed.

Lemma version_bit h rest v1 : (8 <= length h)%nat -> h !! 1%nat = Some v1 ->
  bool_decide (Z.land (swap32 (parseHex (substring 0 8 (b2h (h ++ rest))))) 0x100 = 0) = negb (Z.odd (Z_of_byte v1)).
Proof.
  intros Hh H1. rewrite land_256, swap32_bit. f_equal.
  destruct h as [|x0 [|x1 [|x2 [|x3 h]]]]; cbn [length] in Hh; try lia. injection H1 as ->.
  replace ((x0 :: v1 :: x2 :: x3 :: h) ++ rest) with ([x0; v1; x2; x3] ++ (h ++ rest)) by done.
  rewrite (substring_b2h _ _ 8) by done. rewrite parseHex_b2h by done.
  rewrite Z.testbit_odd, Z.shiftr_div_pow2 by lia.
  assert (E : unbe [x0; v1; x2; x3] = (Z_of_byte x0 * 256 + Z_of_byte v1) * 2 ^ 16 + (Z_of_byte x2 * 256 + Z_of_byte x3))
    by (unfold unbe; cbn [unbe_acc]; lia).
  pose proof (Z_of_byte_range x2). pose proof (Z_of_byte_range x3).
  rewrite E, Z.div_add_l, (Z.div_small (_ * 256 + _)) by lia. rewrite Z.add_0_r, Z.odd_add, Z.odd_mul.
  by rewrite andb_false_r.
Qed.

(** * The strip *)

Section strip.
Context {lib : Bitcoinjs}.

Lemma length_len b n : len b = Z.of_nat n -> length b = n.
Proof. unfold len. lia. Qed.

Lemma enc_auxpow_pos a : auxpow_ok a -> 80 <= len (enc_auxpow a).
Proof. intros [_ _ _ _ Hh]. unfold enc_auxpow. lens. Qed.

(** The AuxPoW bytes came with the header: their number is the difference. *)
Lemma strip_by_header h aux body headerHex :
  length h = 80%nat -> (0 < length aux)%nat -> String.length headerHex = (160 + 2 * length aux)%nat ->
  stripAuxPowFromBlockHex headerHex (b2h (h ++ aux ++ body)) = whole (b2h (h ++ body)).
Proof.
  intros Hh Ha Hl. unfold stripAuxPowFromBlockHex. rewrite bool_decide_eq_true_2 by lia.
  rewrite (substring_b2h h (aux ++ body)) by lia. rewrite app_assoc.
  rewrite (substring_from_b2h (h ++ aux) body) by (rewrite length_app; lia). by rewrite <- b2h_app.
Qed.

(** The header came bare: the section is walked. *)
Lemma strip_by_walk h v1 a body headerHex :
  length h = 80%nat -> h !! 1%nat = Some v1 -> Z.odd (Z_of_byte v1) = true -> auxpow_ok a ->
  (String.length headerHex <= 160)%nat ->
  stripAuxPowFromBlockHex headerHex (b2h (h ++ enc_auxpow a ++ body)) = whole (b2h (h ++ body)).
Proof.
  intros Hh Hv Hodd Ha Hl. unfold stripAuxPowFromBlockHex. rewrite bool_decide_eq_false_2 by lia.
  rewrite bool_decide_eq_true_2 by (rewrite length_b2h, length_app; lia).
  rewrite (version_bit h _ v1) by (done || lia). rewrite Hodd. cbn [negb]. rewrite h2b_b2h.
  assert (H80 : len h = 80) by (unfold len; lia).
  rewrite (spans_at _ _ _ _ h body (spans_skipAuxPow a Ha)) by done. cbn [mbind res_bind].
  rewrite (substring_b2h h (enc_auxpow a ++ body)) by lia. rewrite app_assoc.
  rewrite (substring_from_b2h (h ++ enc_auxpow a) body) by (rewrite length_app; unfold len in *; lia).
  by rewrite <- b2h_app.
Qed.

Lemma whole_inv s r : whole s = Ok r -> assertWholeBlock r = Ok tt.
Proof. unfold whole. destruct (assertWholeBlock s) as [[]|] eqn:E; [|done]. by intros [= <-]. Qed.
End strip.

(** C30 A merge-mined block loses exactly its AuxPoW section: for an 80-byte header whose
    version has the merge-mining bit, any well-formed section and any body, the strip of
    the block's hex is the header and the body, checked to be one whole block, and it is
    the same whether the daemon's header answer was bare or carried the section.  Whatever
    the input, an answer is the block untouched, its header being bare and the bit
    clear, or a text that passed that check. *)
Theorem strip_cuts_the_auxpow {lib : Bitcoinjs} :
  (forall h v1 a body headerHex,
     length h = 80%nat -> h !! 1%nat = Some v1 -> Z.odd (Z_of_byte v1) = true -> auxpow_ok a ->
     String.length headerHex = 160%nat \/ String.length headerHex = (160 + 2 * length (enc_auxpow a))%nat ->
     stripAuxPowFromBlockHex headerHex (b2h (h ++ enc_auxpow a ++ body))
     = (_ ← assertWholeBlock (b2h (h ++ body)); Ok (b2h (h ++ body))))
  /\ (forall headerHex blockHex r, stripAuxPowFromBlockHex headerHex blockHex = Ok r ->
       assertWholeBlock r = Ok tt
       \/ (r = blockHex /\ (String.length headerHex <= 160)%nat
           /\ ((8 <= String.length blockHex)%nat -> Z.land (swap32 (parseHex (substring 0 8 blockHex))) 0x100 = 0))).
Proof.
  split.
  - intros h v1 a body headerHex Hh Hv Hodd Ha [Hl|Hl]; [apply (strip_by_walk h v1); try done; lia|].
    apply strip_by_header; [done| |done]. pose proof (enc_auxpow_pos a Ha). unfold len in *. lia.
  - intros headerHex blockHex r. unfold stripAuxPowFromBlockHex. case_bool_decide as Hd; [intros E; left; by eapply whole_inv|].
    destruct (bool_decide (8 <= String.length blockHex)%nat) eqn:E8; [|intros [= <-]; right; split_and!; [done|lia|]].
    2:{ apply bool_decide_eq_false in E8. intros. lia. }
    destruct (bool_decide (Z.land _ 0x100 = 0)) eqn:Ev; cbn [negb].
    + intros [= <-]. right. apply bool_decide_eq_true in Ev. split_and!; [done|lia|done].
    + destruct (skipAuxPow _ _) as [z|e]; [|done]. intros E. left. by eapply whole_inv.
Qed.

(** * A merge-mined block *)

(** A coinbase with one input and one output, empty branches but for one hash. *)
Definition zeros (n : nat) : bytes := replicate n x00.

Definition coinbase0 : coinbase_tx :=
  mkCoinbase (zeros 4) (Some (x01, [[[x51]]]))
    [mkWireIn (zeros 36) [x51; x52] (zeros 4)] [mkWireOut (zeros 8) [x53]] (zeros 4).

Definition auxpow0 : auxpow :=
  mkAuxPow coinbase0 (zeros 32) (mkBranch [zeros 32] (zeros 4)) (mkBranch [] (zeros 4)) (zeros 80).

Definition header0 : bytes := [x04; x01; x62; x00] ++ zeros 76.

(** A library that takes any bytes for one block or one transaction. *)
#[global] Instance lib_whole : Bitcoinjs := {
  Block_fromBuffer b := Ok (mkLibBlock 0 [] (replicate 32 x00) (len b) 0 0 [mkTx "" [] []]);
  Block_byteLength := bl_timestamp;
  calculateMerkleRoot _ := replicate 32 x00;
  Transaction_fromBuffer b _ := Ok (mkTx (b2h b) [] [], len b);
  Transaction_getId _ _ _ _ := "";
  varuint_decode := readVarint;
}.

Lemma auxpow0_ok : auxpow_ok auxpow0.
Proof.
  split; [split| | | |]; try done; cbn [ap_coinbase auxpow0 coinbase0 cb_ins cb_outs cb_segwit].
  - by intros i ->%list_elem_of_singleton.
  - by intros o ->%list_elem_of_singleton.
  - split; [done|]. intros st ->%list_elem_of_singleton. split; [done|]. by intros b ->%list_elem_of_singleton.
  - split_and!; [done| |done]. by intros b ->%list_elem_of_singleton.
  - split_and!; [done| |done]. by intros b Hb%elem_of_nil.
Qed.

Lemma strip_cuts_the_auxpow_witness :
  stripAuxPowFromBlockHex (b2h header0) (b2h (header0 ++ enc_auxpow auxpow0 ++ [x01; x02])) = Ok (b2h (header0 ++ [x01; x02])).
Proof.
  rewrite (proj1 strip_cuts_the_auxpow header0 x01 auxpow0 [x01; x02] (b2h header0)); [reflexivity|reflexivity|reflexivity|reflexivity| |].
  - exact auxpow0_ok.
  - left. reflexivity.
Defined.

(** * The block decoder *)

(** * The reader's steps span what they skip *)

Lemma skipMwebBytes_ok buf n off : n <= len buf - off -> skipMwebBytes buf n off = Ok (off + n).
Proof. intros Hn. unfold skipMwebBytes. by rewrite bool_decide_eq_false_2 by lia. Qed.

Lemma spans_mwebBytes b n : len b = n -> spans (fun buf => skipMwebBytes buf n) b.
Proof. intros <- pre rest. rewrite skipMwebBytes_ok by lens. done. Qed.

Lemma readMweb_at buf off pre v rest :
  buf = pre ++ compact v ++ rest -> off = len pre -> fits32 v ->
  readMwebCompactSize buf off = Ok (v, off + len (compact v)).
Proof.
  intros -> -> Hv. pose proof (compact_len_pos v) as Hc. unfold readMwebCompactSize.
  rewrite bool_decide_eq_false_2 by lens. unfold fits32 in Hv.
  assert (Htag : forall x n, 0 <= v < 256 ^ Z.of_nat n ->
    readUIntLE n (pre ++ (x :: le n v) ++ rest) (len pre + 1) = Ok v).
  { intros x n Hn. replace (pre ++ (x :: le n v) ++ rest) with ((pre ++ [x]) ++ le n v ++ rest) by reassoc.
    replace (len pre + 1) with (len (pre ++ [x])) by lens. by apply readUIntLE_app. }
  revert Hc. unfold compact.
  destruct (bool_decide (v < 0xFD)) eqn:E1; [|destruct (bool_decide (v <= 0xFFFF)) eqn:E2]; intros Hc;
    rewrite ?bool_decide_eq_true, ?bool_decide_eq_false in *; cbn [app]; rewrite byte_at_app; cbn [default from_option id]; rewrite Z_of_byte_small by lia.
  - by rewrite bool_decide_eq_true_2.
  - rewrite (bool_decide_eq_false_2 (0xFD < 0xFD)), (bool_decide_eq_true_2 (0xFD = 0xFD)) by lia. rewrite skipMwebBytes_ok by (rewrite ?len_app, ?len_cons, ?len_app, ?len_le; lens).
    cbn [mbind res_bind]. specialize (Htag (byte_of_Z 0xFD) 2%nat ltac:(lia)). cbn [app] in Htag. rewrite Htag. cbn [mbind res_bind].
    rewrite len_cons, len_le. cbn. do 2 f_equal. lia.
  - rewrite (bool_decide_eq_false_2 (0xFE < 0xFD)), (bool_decide_eq_false_2 (0xFE = 0xFD)), (bool_decide_eq_true_2 (0xFE = 0xFE)) by lia. rewrite skipMwebBytes_ok by (rewrite ?len_app, ?len_cons, ?len_app, ?len_le; lens).
    cbn [mbind res_bind]. specialize (Htag (byte_of_Z 0xFE) 4%nat ltac:(lia)). cbn [app] in Htag. rewrite Htag. cbn [mbind res_bind].
    rewrite len_cons, len_le. cbn. do 2 f_equal. lia.
Qed.

Lemma spans_mwebVar b : fits32 (len b) -> spans skipMwebVarBytes (enc_bytes b).
Proof.
  intros Hb pre rest. unfold skipMwebVarBytes, enc_bytes.
  rewrite (readMweb_at _ _ pre (len b) (b ++ rest)) by (done || reassoc). cbn [mbind res_bind].
  rewrite skipMwebBytes_ok by lens. f_equal. lens.
Qed.

Lemma spans_mwebIn i : wire_in_ok i -> spans skipMwebIn (enc_in i).
Proof.
  intros (Hp & Hs & Hq) pre rest. unfold skipMwebIn, enc_in. rewrite skipMwebBytes_ok by lens. cbn [mbind res_bind].
  rewrite (spans_at _ _ _ _ (pre ++ wi_prevout i) (wi_sequence i ++ rest) (spans_mwebVar _ Hs)) by (reassoc || lens).
  cbn [mbind res_bind]. rewrite skipMwebBytes_ok by lens. f_equal. lens.
Qed.

Lemma spans_mwebOut o : wire_out_ok o -> spans skipMwebOut (enc_out o).
Proof.
  intros (Hv & Hs) pre rest. unfold skipMwebOut, enc_out. rewrite skipMwebBytes_ok by lens. cbn [mbind res_bind].
  rewrite (spans_at _ _ _ _ (pre ++ wo_value o) rest (spans_mwebVar _ Hs)) by (reassoc || lens). f_equal. lens.
Qed.

Lemma spans_mwebStack st : stack_ok st -> spans skipMwebStack (enc_stack st).
Proof.
  intros [Hn Hb] pre rest. unfold skipMwebStack, enc_stack, enc_list.
  rewrite (readMweb_at _ _ pre (Z.of_nat (length st)) (concat (enc_bytes <$> st) ++ rest)) by (done || reassoc). cbn [mbind res_bind].
  rewrite (spans_at _ _ _ _ (pre ++ compact (Z.of_nat (length st))) rest
    (spans_times skipMwebVarBytes enc_bytes st (fun b Hin => spans_mwebVar b (Hb b Hin)))) by (reassoc || lens).
  f_equal. lens.
Qed.

(** * Flagged transactions as they are serialized *)

Record mweb_tx := mkMwebTx {
  mw_version : bytes;
  mw_ins : list wire_in;
  mw_outs : list wire_out;
  mw_witness : option (list (list bytes));
  mw_body : option (byte * bytes);
  mw_locktime : bytes;
}.

Definition mw_flag (t : mweb_tx) : byte := if mw_witness t then byte_of_Z 9 else byte_of_Z 8.

Definition enc_witness (t : mweb_tx) : bytes :=
  match mw_witness t with Some stacks => concat (enc_stack <$> stacks) | None => [] end.

(** The tag is zero for no MWEB part, else it begins the part. *)
Definition enc_body (t : mweb_tx) : bytes :=
  match mw_body t with Some (tag, b) => tag :: b | None => [byte_of_Z 0] end.

Definition enc_middle (t : mweb_tx) : bytes := enc_list enc_in (mw_ins t) ++ enc_list enc_out (mw_outs t) ++ enc_witness t.

Definition enc_mweb (t : mweb_tx) : bytes :=
  mw_version t ++ [byte_of_Z 0; mw_flag t] ++ enc_middle t ++ enc_body t ++ mw_locktime t.

(** The same transaction without its MWEB part. *)
Definition enc_plain (t : mweb_tx) : bytes :=
  mw_version t ++ (if mw_witness t then [byte_of_Z 0; byte_of_Z 1] else []) ++ enc_middle t ++ mw_locktime t.

Record mweb_ok (t : mweb_tx) : Prop := {
  mwo_version : len (mw_version t) = 4;
  mwo_ins : forall i, i ∈ mw_ins t -> wire_in_ok i;
  mwo_nins : fits32 (Z.of_nat (length (mw_ins t)));
  mwo_outs : forall o, o ∈ mw_outs t -> wire_out_ok o;
  mwo_nouts : fits32 (Z.of_nat (length (mw_outs t)));
  mwo_witness : forall stacks, mw_witness t = Some stacks ->
    length stacks = length (mw_ins t) /\ forall st, st ∈ stacks -> stack_ok st;
  mwo_body : forall tag b, mw_body t = Some (tag, b) -> Z_of_byte tag <> 0;
  mwo_locktime : len (mw_locktime t) = 4;
}.

(** What the library is given, or what is built when there is no input. *)
Definition read_out (o : wire_out) : tx_out := mkTxOut (wo_script o) (unle (wo_value o)).

Definition int32 (b : bytes) : Z := if bool_decide (unle b < 2147483648) then unle b else unle b - 4294967296.

Definition decoded {lib : Bitcoinjs} (t : mweb_tx) : res transaction :=
  if bool_decide (mw_ins t = []) then
    let outs := read_out <$> mw_outs t in
    Ok (mkTx (Transaction_getId (int32 (mw_version t)) [] outs (unle (mw_locktime t))) [] outs)
  else '(tx, _) ← Transaction_fromBuffer (enc_plain t) false; Ok tx.

Section flagged.
Context {lib : Bitcoinjs}.

Lemma subarray_at buf a b pre mid rest :
  buf = pre ++ mid ++ rest -> a = len pre -> b = len pre + len mid -> subarray buf a b = mid.
Proof. intros -> -> ->. apply subarray_app. Qed.

Lemma readUIntLE_bytes n buf off pre b rest :
  buf = pre ++ b ++ rest -> off = len pre -> len b = Z.of_nat n -> readUIntLE n buf off = Ok (unle b).
Proof.
  intros -> -> Hb. unfold readUIntLE. rewrite bool_decide_eq_true_2 by lens. rewrite <- Hb. by rewrite subarray_app.
Qed.

Lemma byte_at_at buf off pre x rest : buf = pre ++ x :: rest -> off = len pre -> byte_at buf off = Some (Z_of_byte x).
Proof. intros -> ->. apply byte_at_app. Qed.

(** The outputs, read one after the other. *)
Lemma run_readOuts outs pre rest acc :
  (forall o, o ∈ outs -> wire_out_ok o) ->
  times (readOut (pre ++ concat (enc_out <$> outs) ++ rest)) (Z.of_nat (length outs)) (len pre, acc)
  = Ok (len pre + len (concat (enc_out <$> outs)), acc ++ (read_out <$> outs)).
Proof.
  rewrite times_reps. revert pre acc. induction outs as [|o outs IH]; intros pre acc Ho; cbn [length reps fmap list_fmap concat].
  - rewrite len_nil, Z.add_0_r, app_nil_r. done.
  - destruct (Ho o ltac:(left)) as [Hv Hs]. set (buf := pre ++ _ ++ rest).
    assert (E1 : readOut buf (len pre, acc) = Ok (len (pre ++ enc_out o), acc ++ [read_out o])).
    { unfold readOut.
      rewrite (readUIntLE_bytes 8 buf _ pre (wo_value o) (enc_bytes (wo_script o) ++ concat (enc_out <$> outs) ++ rest))
        by (try done; unfold buf, enc_out; reassoc). cbn [mbind res_bind].
      rewrite (readMweb_at buf _ (pre ++ wo_value o) (len (wo_script o)) (wo_script o ++ concat (enc_out <$> outs) ++ rest))
        by (done || (unfold buf, enc_out, enc_bytes; reassoc) || lens). cbn [mbind res_bind].
      rewrite (subarray_at buf _ _ (pre ++ wo_value o ++ compact (len (wo_script o))) (wo_script o) (concat (enc_out <$> outs) ++ rest))
        by ((unfold buf, enc_out, enc_bytes; reassoc) || lens).
      unfold read_out. do 2 f_equal. unfold enc_out, enc_bytes. lens. }
    rewrite E1. cbn [mbind res_bind].
    replace buf with ((pre ++ enc_out o) ++ concat (enc_out <$> outs) ++ rest) by (unfold buf; reassoc).
    rewrite IH by (intros y Hy; apply Ho; by right). rewrite <- app_assoc. do 2 f_equal. lens.
Qed.

(** The counts and the end of the inputs and outputs. *)
Lemma run_insAndOuts t buf pre rest :
  mweb_ok t -> buf = pre ++ (enc_list enc_in (mw_ins t) ++ enc_list enc_out (mw_outs t)) ++ rest ->
  skipMwebInsAndOuts buf (len pre)
  = Ok (len pre + len (enc_list enc_in (mw_ins t) ++ enc_list enc_out (mw_outs t)),
        len pre + len (enc_list enc_in (mw_ins t)), Z.of_nat (length (mw_ins t))).
Proof.
  intros [_ Hi Hn Ho Hm _ _ _] Eb. unfold skipMwebInsAndOuts, enc_list in *. set (li := mw_ins t) in *. set (lo := mw_outs t) in *.
  rewrite (readMweb_at buf _ pre (Z.of_nat (length li)) (concat (enc_in <$> li) ++ (compact (Z.of_nat (length lo)) ++ concat (enc_out <$> lo)) ++ rest))
    by (try done; rewrite Eb; reassoc). cbn [mbind res_bind].
  rewrite (spans_at _ _ buf _ (pre ++ compact (Z.of_nat (length li))) ((compact (Z.of_nat (length lo)) ++ concat (enc_out <$> lo)) ++ rest)
    (spans_times skipMwebIn enc_in li (fun i Hin => spans_mwebIn i (Hi i Hin)))) by ((rewrite Eb; reassoc) || lens). cbn [mbind res_bind].
  rewrite (readMweb_at buf _ (pre ++ compact (Z.of_nat (length li)) ++ concat (enc_in <$> li)) (Z.of_nat (length lo)) (concat (enc_out <$> lo) ++ rest))
    by (try done; (rewrite Eb; reassoc) || lens). cbn [mbind res_bind].
  rewrite (spans_at _ _ buf _ (pre ++ compact (Z.of_nat (length li)) ++ concat (enc_in <$> li) ++ compact (Z.of_nat (length lo))) rest
    (spans_times skipMwebOut enc_out lo (fun o Hin => spans_mwebOut o (Ho o Hin)))) by ((rewrite Eb; reassoc) || lens). cbn [mbind res_bind].
  match goal with |- Ok (?a, ?b, ?c) = Ok (?a', ?b', _) => replace a with a' by lens; replace b with b' by lens; reflexivity end.
Qed.

Lemma run_witness t buf pre rest :
  mweb_ok t -> buf = pre ++ enc_witness t ++ rest ->
  (if bool_decide (is_Some (mw_witness t)) then skipMwebWitness buf (len pre) (Z.of_nat (length (mw_ins t))) else Ok (len pre))
  = Ok (len pre + len (enc_witness t)).
Proof.
  intros Ht Eb. unfold enc_witness in *. destruct (mw_witness t) as [stacks|] eqn:Ew.
  - rewrite bool_decide_eq_true_2 by done. destruct (mwo_witness t Ht stacks Ew) as [Hl Hst]. rewrite <- Hl.
    exact (spans_at _ _ buf _ pre rest (spans_times skipMwebStack enc_stack stacks (fun st Hin => spans_mwebStack st (Hst st Hin))) Eb eq_refl).
  - rewrite bool_decide_eq_false_2 by by intros []. by rewrite len_nil, Z.add_0_r.
Qed.

Lemma flag_bit t : Z.odd (Z_of_byte (mw_flag t)) = bool_decide (is_Some (mw_witness t)).
Proof. unfold mw_flag. by destruct (mw_witness t). Qed.

Definition mweb_head (t : mweb_tx) : bytes := mw_version t ++ [byte_of_Z 0; mw_flag t].

Lemma len_head t : mweb_ok t -> len (mweb_head t) = 6.
Proof. intros [Hv]. unfold mweb_head. rewrite len_app, Hv. done. Qed.

(** Built field by field when there are no inputs. *)
Lemma run_inputless t buf pre rest lockTimeAt :
  mweb_ok t -> mw_ins t = [] -> buf = pre ++ mweb_head t ++ enc_middle t ++ rest ->
  readUIntLE 4 buf lockTimeAt = Ok (unle (mw_locktime t)) ->
  buildInputlessTransaction buf (len pre) (len (pre ++ mweb_head t) + len (enc_list enc_in (mw_ins t))) lockTimeAt = decoded t.
Proof.
  intros Ht Ei Eb El. pose proof (mwo_nouts t Ht) as Hn. unfold decoded. rewrite bool_decide_eq_true_2 by done.
  unfold buildInputlessTransaction, readInt32LE.
  rewrite (readUIntLE_bytes 4 buf (len pre) pre (mw_version t) ([byte_of_Z 0; mw_flag t] ++ enc_middle t ++ rest))
    by (done || (rewrite Eb; unfold mweb_head; reassoc) || exact (mwo_version t Ht)). cbn [mbind res_bind].
  fold (int32 (mw_version t)). set (lo := mw_outs t) in *. set (li := enc_list enc_in (mw_ins t)) in *.
  rewrite (readMweb_at buf _ ((pre ++ mweb_head t) ++ li) (Z.of_nat (length lo)) (concat (enc_out <$> lo) ++ enc_witness t ++ rest))
    by (try done; (rewrite Eb; unfold enc_middle; fold lo li; unfold enc_list; reassoc) || lens). cbn [mbind res_bind].
  assert (Eoff : len (pre ++ mweb_head t) + len li + len (compact (Z.of_nat (length lo)))
    = len (pre ++ mweb_head t ++ li ++ compact (Z.of_nat (length lo)))) by lens.
  rewrite Eoff. replace buf with ((pre ++ mweb_head t ++ li ++ compact (Z.of_nat (length lo))) ++ concat (enc_out <$> lo) ++ (enc_witness t ++ rest)) at 1
    by (rewrite Eb; unfold enc_middle; fold lo li; unfold enc_list; reassoc).
  rewrite run_readOuts by apply (mwo_outs t Ht). cbn [mbind res_bind]. rewrite El. done.
Qed.

Lemma decoded_lib t : mw_ins t <> [] -> decoded t = ('(tx, _) ← Transaction_fromBuffer (enc_plain t) false; Ok tx).
Proof. intros Hi. unfold decoded. by rewrite bool_decide_eq_false_2. Qed.

(** The reader up to the tag. *)
Lemma run_to_tag t pre rest standalone :
  mweb_ok t ->
  let buf := pre ++ enc_mweb t ++ rest in
  readMwebFlaggedTransaction buf (len pre) standalone
  = readFromTag buf (len pre) standalone (bool_decide (is_Some (mw_witness t)))
      (len (pre ++ mweb_head t) + len (enc_list enc_in (mw_ins t))) (Z.of_nat (length (mw_ins t)))
      (len (pre ++ mweb_head t ++ enc_middle t)).
Proof.
  intros Ht buf. pose proof (len_head t Ht) as H6. pose proof (mwo_version t Ht) as Hv.
  assert (Eb : buf = pre ++ mweb_head t ++ enc_middle t ++ enc_body t ++ mw_locktime t ++ rest)
    by (unfold buf, enc_mweb, mweb_head; reassoc).
  unfold readMwebFlaggedTransaction.
  rewrite (byte_at_at buf _ (pre ++ mw_version t ++ [byte_of_Z 0]) (mw_flag t) (enc_middle t ++ enc_body t ++ mw_locktime t ++ rest))
    by ((rewrite Eb; unfold mweb_head; reassoc) || lens). cbn [default from_option id]. rewrite flag_bit.
  replace (len pre + 6) with (len (pre ++ mweb_head t)) by lens.
  rewrite (run_insAndOuts t buf (pre ++ mweb_head t) (enc_witness t ++ enc_body t ++ mw_locktime t ++ rest) Ht)
    by (rewrite Eb; unfold enc_middle; reassoc). cbn [mbind res_bind].
  set (io := enc_list enc_in (mw_ins t) ++ enc_list enc_out (mw_outs t)).
  replace (len (pre ++ mweb_head t) + len io) with (len ((pre ++ mweb_head t) ++ io)) by lens.
  rewrite (run_witness t buf ((pre ++ mweb_head t) ++ io) (enc_body t ++ mw_locktime t ++ rest) Ht)
    by (rewrite Eb; unfold enc_middle, io; reassoc). cbn [mbind res_bind].
  f_equal. unfold enc_middle, io. lens.
Qed.

(** The flagged transaction, read where it stands. *)
Lemma run_flagged t pre rest standalone :
  mweb_ok t -> mw_body t = None \/ (standalone = true /\ rest = []) ->
  readMwebFlaggedTransaction (pre ++ enc_mweb t ++ rest) (len pre) standalone
  = (tx ← decoded t; Ok (tx, len (enc_mweb t))).
Proof.
  intros Ht Hb. rewrite run_to_tag by done. pose proof (mwo_locktime t Ht) as Hlt. pose proof (mwo_version t Ht) as Hv.
  pose proof (len_head t Ht) as H6.
  set (buf := pre ++ enc_mweb t ++ rest). set (W := pre ++ mweb_head t ++ enc_middle t).
  assert (Eb : buf = pre ++ mweb_head t ++ enc_middle t ++ enc_body t ++ mw_locktime t ++ rest)
    by (unfold buf, enc_mweb, mweb_head; reassoc).
  unfold readFromTag. replace (len pre + 6) with (len (pre ++ mweb_head t)) by lens.
  assert (Hbody : 1 <= len (enc_body t)) by (unfold enc_body; destruct (mw_body t) as [[]|]; lens).
  assert (Hlen : len buf = len W + len (enc_body t) + 4 + len rest) by (rewrite Eb; unfold W; lens).
  pose proof (len_nonneg rest) as Hrest. rewrite skipMwebBytes_ok by lia. cbn [mbind res_bind].
  assert (Elock : (if negb (bool_decide (byte_at buf (len W) = Some 0)) then
                  if negb standalone
                  then Err (parse_error "MWEB tx parse: a non-null MWEB part inside a block has no recorded length")
                  else if bool_decide (len buf - 4 < len W + 1) then Err mwebShortError
                  else Ok (len buf - 4)
                else Ok (len W + 1)) = Ok (len W + len (enc_body t))).
  { unfold enc_body in *. destruct (mw_body t) as [[tag b]|] eqn:Ebody.
    - destruct Hb as [Hb|[-> ->]]; [done|].
      rewrite (byte_at_at buf _ W tag (b ++ mw_locktime t)) by (done || (rewrite Eb; unfold W; rewrite app_nil_r; reassoc)).
      rewrite bool_decide_eq_false_2 by (intros [= E]; by apply (mwo_body t Ht tag b Ebody)). cbn [negb].
      rewrite len_nil in Hlen. rewrite bool_decide_eq_false_2 by lia. f_equal. lia.
    - rewrite (byte_at_at buf _ W (byte_of_Z 0) (mw_locktime t ++ rest)) by (done || (rewrite Eb; unfold W; reassoc)).
      by rewrite bool_decide_eq_true_2. }
  rewrite Elock. cbn [mbind res_bind]. clear Elock. rewrite skipMwebBytes_ok by lia. cbn [mbind res_bind].
  assert (Efin : len W + len (enc_body t) + 4 - len pre = len (enc_mweb t)) by (unfold W, enc_mweb, mweb_head; lens).
  assert (Er : readUIntLE 4 buf (len W + len (enc_body t)) = Ok (unle (mw_locktime t))).
  { apply (readUIntLE_bytes 4 buf _ (W ++ enc_body t) (mw_locktime t) rest); [rewrite Eb; unfold W; reassoc|lens|done]. }
  rewrite Efin. destruct (decide (mw_ins t = [])) as [Ei|Ei].
  - rewrite bool_decide_eq_true_2 by (rewrite Ei; done).
    by rewrite (run_inputless t buf pre (enc_body t ++ mw_locktime t ++ rest) _ Ht Ei Eb Er).
  - rewrite bool_decide_eq_false_2 by (destruct (mw_ins t); [done|cbn; lia]). rewrite decoded_lib by done.
    assert (Ep : subarray buf (len pre) (len pre + 4)
      ++ (if bool_decide (is_Some (mw_witness t)) then [byte_of_Z 0; byte_of_Z 1] else [])
      ++ subarray buf (len (pre ++ mweb_head t)) (len W)
      ++ subarray buf (len W + len (enc_body t)) (len W + len (enc_body t) + 4) = enc_plain t).
    { rewrite (subarray_at buf _ _ pre (mw_version t) ([byte_of_Z 0; mw_flag t] ++ enc_middle t ++ enc_body t ++ mw_locktime t ++ rest))
        by (done || (rewrite Eb; unfold mweb_head; reassoc) || lens).
      rewrite (subarray_at buf _ (len W) (pre ++ mweb_head t) (enc_middle t) (enc_body t ++ mw_locktime t ++ rest))
        by (done || (rewrite Eb; reassoc) || (unfold W; lens)).
      rewrite (subarray_at buf _ _ (W ++ enc_body t) (mw_locktime t) rest) by ((rewrite Eb; unfold W; reassoc) || lens).
      unfold enc_plain. destruct (mw_witness t); [by rewrite bool_decide_eq_true_2|by rewrite bool_decide_eq_false_2 by (by intros [])]. }
    rewrite Ep. by destruct (Transaction_fromBuffer (enc_plain t) false) as [[tx b]|e].
Qed.
End flagged.

Section entry.
Context {lib : Bitcoinjs}.

(** A body inside a block has no recorded length: refused. *)
Lemma run_flagged_body t pre rest tag b :
  mweb_ok t -> mw_body t = Some (tag, b) ->
  exists e, readMwebFlaggedTransaction (pre ++ enc_mweb t ++ rest) (len pre) false = Err e.
Proof.
  intros Ht Ebody. rewrite run_to_tag by done.
  set (buf := pre ++ enc_mweb t ++ rest). set (W := pre ++ mweb_head t ++ enc_middle t).
  assert (Eb : buf = W ++ tag :: b ++ mw_locktime t ++ rest)
    by (unfold buf, enc_mweb, W, mweb_head, enc_body; rewrite Ebody; reassoc).
  unfold readFromTag.
  assert (Hlen : len buf = len W + (1 + len b) + len (mw_locktime t) + len rest) by (rewrite Eb, len_app, len_cons, !len_app; lia).
  pose proof (len_nonneg rest). pose proof (len_nonneg b). pose proof (len_nonneg (mw_locktime t)).
  rewrite skipMwebBytes_ok by lia. cbn [mbind res_bind].
  rewrite (byte_at_at buf _ W tag (b ++ mw_locktime t ++ rest) Eb eq_refl).
  rewrite (bool_decide_eq_false_2 (Some (Z_of_byte tag) = Some 0)) by (intros [= E]; by apply (mwo_body t Ht tag b Ebody)). by eexists.
Qed.

Lemma flag_value t : Z_of_byte (mw_flag t) = LITECOIN_HOGEX_FLAG \/ Z_of_byte (mw_flag t) = LITECOIN_MWEB_SEGWIT_FLAG.
Proof. unfold mw_flag. destruct (mw_witness t); [by right|by left]. Qed.

Lemma hasMwebFlag_enc t pre rest :
  mweb_ok t -> unle (mw_version t) = 1 \/ unle (mw_version t) = 2 -> hasMwebFlag (pre ++ enc_mweb t ++ rest) (len pre) = true.
Proof.
  intros Ht Hver. pose proof (mwo_version t Ht) as Hv. unfold hasMwebFlag, enc_mweb.
  set (tl := enc_middle t ++ enc_body t ++ mw_locktime t).
  rewrite bool_decide_eq_false_2 by (unfold tl; lens).
  rewrite (readUIntLE_bytes 4 _ (len pre) pre (mw_version t) ([byte_of_Z 0; mw_flag t] ++ tl ++ rest)) by (done || reassoc).
  rewrite (byte_at_at _ (len pre + 4) (pre ++ mw_version t) (byte_of_Z 0) ([mw_flag t] ++ tl ++ rest)) by (reassoc || lens).
  rewrite (byte_at_at _ (len pre + 5) (pre ++ mw_version t ++ [byte_of_Z 0]) (mw_flag t) (tl ++ rest)) by (reassoc || lens).
  rewrite (bool_decide_eq_true_2 (Z_of_byte (byte_of_Z 0) = 0)) by done.
  destruct Hver as [Hv1|Hv1], (flag_value t) as [Hf|Hf]; rewrite Hv1, Hf; done.
Qed.

Lemma all_hex_b2h b : allHexDigits (b2h b) = true.
Proof.
  induction b as [|x b IH]; [done|]. cbn [b2h allHexDigits]. pose proof (Z_of_byte_range x).
  rewrite !nib_hex_digit; [by rewrite IH|apply Z.mod_pos_bound; lia|split; [apply Z.div_pos; lia|apply Z.div_lt_upper_bound; lia]].
Qed.

Lemma txFromHex_flagged t :
  mweb_ok t -> unle (mw_version t) = 1 \/ unle (mw_version t) = 2 ->
  txFromHex "mweb" (b2h (enc_mweb t)) = transactionParseError (decoded t).
Proof.
  intros Ht Hver. unfold txFromHex. rewrite h2b_b2h, all_hex_b2h, length_b2h.
  pose proof (mwo_version t Ht) as Hv. set (e := enc_mweb t) in *.
  assert (He : 4 <= len e) by (unfold e, enc_mweb; lens).
  assert (Hne : b2h e <> "") by (intros E; apply (f_equal String.length) in E; rewrite length_b2h in E; cbn in E; unfold len in He; lia).
  rewrite bool_decide_eq_false_2 by done. rewrite Nat.odd_even. cbn [orb negb].
  pose proof (hasMwebFlag_enc t [] [] Ht Hver) as Hf. cbn [app] in Hf. rewrite app_nil_r in Hf. fold e in Hf.
  rewrite bool_decide_eq_true_2 by done. rewrite len_nil in Hf. rewrite Hf. cbn [andb].
  pose proof (run_flagged t [] [] true Ht (or_intror (conj eq_refl eq_refl))) as Hr. cbn [app] in Hr.
  rewrite app_nil_r, len_nil in Hr. fold e in Hr. rewrite Hr. unfold transactionParseError.
  destruct (decoded t) as [tx|err]; cbn [mbind res_bind]; [|done]. by rewrite bool_decide_eq_true_2.
Qed.

(** ** Blocks *)

Lemma run_readMwebTransactions buf n : forall off acc txs fin ext,
  readMwebTransactions buf n off acc = Ok (txs, fin, ext) ->
  length txs = (length acc + n)%nat
  /\ (ext = true -> exists off' tx consumed, hasMwebFlag buf off' = true /\ last txs = Some tx
        /\ readMwebFlaggedTransaction buf off' false = Ok (tx, consumed) /\ fin = off' + consumed).
Proof.
  induction n as [|n IH]; intros off acc txs fin ext; cbn [readMwebTransactions]; [intros [= <- <- <-]; split; [lia|done]|].
  destruct (bool_decide (n = O) && hasMwebFlag buf off) eqn:Ef.
  - apply andb_prop in Ef as [->%bool_decide_eq_true Ef].
    destruct (readMwebFlaggedTransaction buf off false) as [[tx c]|e] eqn:Er; cbn [mbind res_bind]; [|done].
    intros [= <- <- <-]. rewrite length_app. split; [done|]. intros _. exists off, tx, c. by rewrite last_snoc.
  - destruct (readMwebTransaction buf off) as [[tx off']|e]; cbn [mbind res_bind]; [|done].
    intros E. apply IH in E as [Hl He]. rewrite length_app in Hl. split; [cbn in Hl; lia|exact He].
Qed.

Lemma intact_inv block n e ext : assertBlockBodyIntact block n e ext = Ok tt ->
  bl_transactions block <> [] /\ (e = n \/ ext = true) /\ calculateMerkleRoot (bl_transactions block) = bl_merkleRoot block.
Proof.
  unfold assertBlockBodyIntact. destruct (bool_decide (length _ < 1)%nat) eqn:E1; [done|].
  destruct (bool_decide (e = n)) eqn:E2; destruct ext; cbn [negb andb]; try done;
    destruct (bool_decide (calculateMerkleRoot _ = _)) eqn:E3; try done; intros _;
    apply bool_decide_eq_false in E1; apply bool_decide_eq_true in E3; rewrite ?bool_decide_eq_true in *;
    (split_and!; [by intros Hn; rewrite Hn in E1; cbn in E1; lia|tauto|done]).
Qed.

Lemma run_readMwebBlockHeader buf hd : readMwebBlockHeader buf = Ok hd ->
  bl_prevHash hd = subarray buf 4 36 /\ bl_merkleRoot hd = subarray buf 36 68.
Proof.
  unfold readMwebBlockHeader. destruct (bool_decide (len buf < 80)) eqn:E; [done|]. apply bool_decide_eq_false in E.
  unfold readSlice. rewrite !bool_decide_eq_false_2 by lia.
  destruct (readInt32LE buf 0); cbn [mbind res_bind]; [|done].
  destruct (readUIntLE 4 buf 68); cbn [mbind res_bind]; [|done].
  destruct (readUIntLE 4 buf 72); cbn [mbind res_bind]; [|done].
  destruct (readUIntLE 4 buf 76); cbn [mbind res_bind]; [|done]. by intros [= <-].
Qed.

Lemma parse_error_inv {A} (m : res A) a : transactionParseError m = Ok a -> m = Ok a.
Proof. by destruct m. Qed.
End entry.

(** C31 A Litecoin transaction with the MWEB flag is read whole, wherever it stands: the
    library is handed exactly its serialization without marker, flag's MWEB bit, tag and
    MWEB part, or, having no inputs, it is built from its version, outputs and locktime,
    and the bytes taken are exactly its own.  A part whose length a block does not
    record is refused.  From a node's hex the answer is that transaction or the
    parse-error class. *)
Theorem mweb_transactions_are_read_whole {lib : Bitcoinjs} (t : mweb_tx) :
  mweb_ok t ->
  (forall pre rest standalone, mw_body t = None \/ (standalone = true /\ rest = []) ->
     readMwebFlaggedTransaction (pre ++ enc_mweb t ++ rest) (len pre) standalone
     = (tx ← decoded t; Ok (tx, len (enc_mweb t))))
  /\ (forall pre rest, mw_body t <> None ->
       exists e, readMwebFlaggedTransaction (pre ++ enc_mweb t ++ rest) (len pre) false = Err e)
  /\ (unle (mw_version t) = 1 \/ unle (mw_version t) = 2 ->
       txFromHex "mweb" (b2h (enc_mweb t)) = transactionParseError (decoded t)).
Proof.
  intros Ht. split_and!.
  - intros pre rest standalone. by apply run_flagged.
  - intros pre rest Hb. destruct (mw_body t) as [[tag b]|] eqn:E; [|done]. by eapply run_flagged_body.
  - by apply txFromHex_flagged.
Qed.

(** C32 A block the decoder hands out, header-only ones apart, has at least one transaction,
    and their merkle root is the header's; nothing follows the last of them, except
    after a Litecoin block's last transaction that carries the MWEB flag and was read
    as such.  A Litecoin block's roots are the header's bytes. *)
Theorem decoded_blocks_are_intact {lib : Bitcoinjs} (wireFormat : string) (buf : bytes) (blk : lib_block) :
  blockFromBuffer wireFormat buf = Ok blk -> len buf <> 80 ->
  let txs := bl_transactions blk in
  txs <> [] /\ calculateMerkleRoot txs = bl_merkleRoot blk
  /\ (wireFormat <> "mweb" -> Block_fromBuffer buf = Ok blk /\ Block_byteLength blk = len buf)
  /\ (wireFormat = "mweb" ->
        bl_prevHash blk = subarray buf 4 36 /\ bl_merkleRoot blk = subarray buf 36 68
        /\ exists off, Z.of_nat (length txs) * 10 <= len buf - off
            /\ (readMwebTransactions buf (length txs) off [] = Ok (txs, len buf, false)
                \/ exists off' tx consumed, hasMwebFlag buf off' = true /\ last txs = Some tx
                     /\ readMwebFlaggedTransaction buf off' false = Ok (tx, consumed))).
Proof.
  intros E H80 txs. unfold blockFromBuffer in E. destruct (bool_decide (wireFormat = "mweb")) eqn:Ew.
  - apply bool_decide_eq_true in Ew. unfold mwebBlockFromBuffer in E.
    destruct (readMwebBlockHeader buf) as [hd|e] eqn:Eh; cbn [mbind res_bind] in E; [|done].
    rewrite bool_decide_eq_false_2 in E by done. destruct (transactionParseError _) as [[[ts fin] ext]|e] eqn:Ep; cbn [mbind res_bind] in E; [|done].
    apply parse_error_inv in Ep. destruct (varuint_decode buf 80) as [[n b]|e]; cbn [mbind res_bind] in Ep; [|done].
    unfold validateMwebTransactionCount in Ep. destruct (bool_decide (len buf - (80 + b) < n * 10)) eqn:Ec; cbn [mbind res_bind] in Ep; [done|].
    destruct (assertBlockBodyIntact _ _ fin ext) as [[]|e] eqn:Ei; cbn [mbind res_bind] in E; [|done]. injection E as <-.
    apply intact_inv in Ei as (Hne & Hend & Hroot). destruct (run_readMwebTransactions _ _ _ _ _ _ _ Ep) as [Hl Hext].
    cbn [with_transactions bl_transactions] in *. subst txs. split_and!; [done|done|done|]. intros _.
    destruct (run_readMwebBlockHeader buf hd Eh) as [Eprev Eroot]. split_and!; [exact Eprev|exact Eroot|]. exists (80 + b).
    cbn [length] in Hl. assert (Hpos : (0 < length ts)%nat) by (destruct ts; [done|cbn; lia]).
    apply bool_decide_eq_false in Ec. split; [lia|]. destruct ext; [right|left].
    + destruct (Hext eq_refl) as (off' & tx & c & ? & ? & ? & _). by exists off', tx, c.
    + destruct Hend as [->|]; [|done]. by rewrite Hl.
  - apply bool_decide_eq_false in Ew. unfold plainBlockFromBuffer in E.
    destruct (transactionParseError _) as [b|e] eqn:Ep; cbn [mbind res_bind] in E; [|done]. apply parse_error_inv in Ep.
    rewrite bool_decide_eq_false_2 in E by done. destruct (assertBlockBodyIntact _ _ _ _) as [[]|e] eqn:Ei; cbn [mbind res_bind] in E; [|done].
    injection E as <-. apply intact_inv in Ei as (Hne & [Hend|Hend] & Hroot); [|done]. by split_and!.
Qed.

(** * A flagged transaction and a block that ends with one *)

Definition mweb0 : mweb_tx :=
  mkMwebTx (le 4 2) [mkWireIn (zeros 36) [x51; x52] (zeros 4)] [mkWireOut (zeros 8) [x53]]
    (Some [[[x51]]]) (Some (x01, [x0a; x0b])) (zeros 4).

Definition hogex0 : mweb_tx :=
  mkMwebTx (le 4 2) [mkWireIn (zeros 36) [] (zeros 4)] [mkWireOut (zeros 8) [x53]] None None (zeros 4).

Definition mweb_block0 : bytes := zeros 80 ++ [x01] ++ enc_mweb hogex0 ++ [x01; x02; x03].

Lemma mweb0_ok : mweb_ok mweb0.
Proof.
  split; try done.
  - by intros i ->%list_elem_of_singleton.
  - by intros o ->%list_elem_of_singleton.
  - intros st [= <-]. split; [done|]. intros x ->%list_elem_of_singleton. split; [done|]. by intros b ->%list_elem_of_singleton.
  - by intros tag b [= <- <-].
Qed.

Lemma mweb_transactions_are_read_whole_witness :
  txFromHex "mweb" (b2h (enc_mweb mweb0)) = Ok (mkTx (b2h (enc_plain mweb0)) [] []).
Proof.
  rewrite (proj2 (proj2 (mweb_transactions_are_read_whole mweb0 mweb0_ok))).
  - reflexivity.
  - right. reflexivity.
Defined.

Lemma decoded_blocks_are_intact_witness :
  exists blk, blockFromBuffer "mweb" mweb_block0 = Ok blk /\ bl_merkleRoot blk = subarray mweb_block0 36 68
    /\ bl_transactions blk <> [].
Proof.
  destruct (blockFromBuffer "mweb" mweb_block0) as [blk|e] eqn:E.
  - destruct (decoded_blocks_are_intact "mweb" mweb_block0 blk E) as (Hne & _ & _ & Hm).
    + vm_compute. discriminate.
    + destruct (Hm eq_refl) as (_ & Hr & _). exact (ex_intro _ blk (conj eq_refl (conj Hr Hne))).
  - vm_compute in E. discriminate E.
Defined.
