(* ===== verification/SeedTheorems.v ===== *)
(** The bulk seeder: its external sort is a stable sort whatever memory it is given, its
    anti-join keeps exactly the unspent outputs, and a load advertises a tip only once
    everything is in. *)

From S2P Require Import Prelude KeyCodec LevelDb ValueCodec Store Outputs StoreFacts Rollback Parsing Apply Spend Block Roundtrip Tracker Window Reorg.
From S2P Require Import SyncLoop Batch Chain Forward Indexing Utxo Undo Startup Wire AuxPow Decoder RecordFiles Heap ExternalSort SortFacts AntiJoin.
From S2P Require Import SeedStreams WorkDir DeriveKeys Loader LoadFacts Seeder StreamFacts RangeFacts SeedChain DeriveFacts MergeFacts PhaseFacts.
From S2P Require Import SeedParity Concrete ChainParams.

#[local] Open Scope string_scope.
#[local] Open Scope nat_scope.
#[local] Open Scope list_scope.

(** * Sorting *)

(** C33 [externalSort] of a file of whole records, whatever the RAM budget and so however
    many runs are merged, is its header (kept or stripped as asked) followed by the records
    sorted by their key field: a permutation of the records, ascending, those with equal
    keys in their original order.  The count it reports is the number of records. *)
Theorem external_sort_is_a_stable_sort o recordSize keySize header l :
  sort_ok o recordSize keySize header -> sized recordSize l ->
  exists sorted,
    externalSort o (header ++ concat l) = Ok (kept_header o header ++ concat sorted, Z.of_nat (length l))
    /\ sorted ≡ₚ l
    /\ StronglySorted (fun a b => ble (take keySize a) (take keySize b) = true) sorted
    /\ forall k, filter (fun r => take keySize r = k) sorted = filter (fun r => take keySize r = k) l.
Proof.
  intros Ho Hl. exists (stable_sort (take keySize) l). split_and!.
  - by apply (run_externalSort o recordSize).
  - apply stable_sort_Permutation.
  - apply stable_sort_sorted.
  - intros k. apply with_key_sort.
Qed.

Definition sort0 : sort_options := mkSort 1 3 2 4 true.
Definition records0 : list bytes := [[x02; x01; xaa]; [x01; x01; xbb]; [x02; x01; xcc]; [x00; x09; xdd]; [x01; x01; xee]].

Lemma sort0_ok : sort_ok sort0 3 2 [xff].
Proof. by split; cbn; try lia. Qed.

Lemma external_sort_is_a_stable_sort_witness :
  externalSort sort0 ([xff] ++ concat records0)
    = Ok ([xff] ++ concat [[x00; x09; xdd]; [x01; x01; xbb]; [x01; x01; xee]; [x02; x01; xaa]; [x02; x01; xcc]], 5%Z)
  /\ exists sorted,
    externalSort sort0 ([xff] ++ concat records0) = Ok (kept_header sort0 [xff] ++ concat sorted, 5%Z)
    /\ sorted ≡ₚ records0
    /\ StronglySorted (fun a b => ble (take 2 a) (take 2 b) = true) sorted
    /\ forall k, filter (fun r => take 2 r = k) sorted = filter (fun r => take 2 r = k) records0.
Proof.
  split; [vm_compute; reflexivity|]. apply (external_sort_is_a_stable_sort sort0 3 2 [xff] records0); [apply sort0_ok|].
  unfold records0. each_elem; reflexivity.
Defined.

(** * Joining *)

(** C34 [leftAntiJoin] of two files sorted by a common key without duplicates emits, in
    order, exactly the left records whose key no right record has; its counters say how
    many records it read, emitted and cancelled, and how many right records met no left
    one. *)
Theorem anti_join_keeps_the_unmatched o lh rh l r :
  join_ok o lh rh l r ->
  let key := take (jo_keySize o) in
  leftAntiJoin o (lh ++ concat l) (rh ++ concat r)
  = Ok ((if jo_copyLeftHeader o then lh else []) ++ concat (filter (fun x => key x ∉ (key <$> r)) l),
        mkStats (Z.of_nat (length l)) (Z.of_nat (length r))
          (Z.of_nat (length (filter (fun x => key x ∉ (key <$> r)) l)))
          (Z.of_nat (length (filter (fun x => key x ∈ (key <$> r)) l)))
          (Z.of_nat (length (filter (fun x => key x ∉ (key <$> l)) r)))).
Proof. intros Hok key. exact (run_leftAntiJoin o lh rh l r Hok). Qed.

Definition join0 : join_options := mkJoin 1 3 0 2 1 false.
Definition left0 : list bytes := [[x01; xaa; xaa]; [x03; xbb; xbb]; [x05; xcc; xcc]].
Definition right0 : list bytes := [[x02; x00]; [x03; x00]; [x07; x00]].

Lemma join0_ok : join_ok join0 [xff] [] left0 right0.
Proof.
  split; cbn; try lia; try done.
  - unfold left0. each_elem; reflexivity.
  - unfold right0. each_elem; reflexivity.
  - repeat constructor; done.
  - repeat constructor; done.
Qed.

Lemma anti_join_keeps_the_unmatched_witness :
  leftAntiJoin join0 ([xff] ++ concat left0) (concat right0)
  = Ok ([x01; xaa; xaa; x05; xcc; xcc], mkStats 3 3 2 1 2).
Proof. exact (anti_join_keeps_the_unmatched join0 [xff] [] left0 right0 join0_ok). Defined.

(** * Loading *)

Section load.
Context {node : Node} {DB : Type} `{LevelDbLaws DB}.

(** The records that advertise a seeded store. *)
Definition tip_keys : list bytes := [PREFIX_LAST_BLOCK_HEIGHT; PREFIX_LAST_BLOCK_HASH; PREFIX_LAYOUT_VERSION; Q_UNDO_WATERMARK_KEY].

(** C35 [loadKeys] refuses a store that holds anything but the current layout stamp and
    leaves it alone; whatever else makes it throw, a missing or truncated file, an invalid
    record, a refused batch at any point, the tip pointers, the layout stamp and the
    watermark are as before, so the store does not read as seeded; and when it returns,
    the pointers are those the derivation recorded, under the current layout. *)
Theorem unfinished_load_shows_no_tip (d : key_files) batchSize removeSpent txIndexOpt s r s' :
  loadKeys d batchSize removeSpent txIndexOpt s = (r, s') ->
  (populated (ld_db s) -> (exists e, r = Err e) /\ s' = s)
  /\ match r with
     | Err _ => forall k, k ∈ tip_keys -> db_get (ld_db s') k = db_get (ld_db s) k
     | Ok countN => exists L, kf_L d = Some L
         /\ db_get (ld_db s') PREFIX_LAST_BLOCK_HEIGHT = Some (from_latin1 (l_height L))
         /\ db_get (ld_db s') PREFIX_LAST_BLOCK_HASH = Some (from_latin1 (l_hash L))
         /\ db_get (ld_db s') PREFIX_LAYOUT_VERSION = Some (from_latin1 "2")
         /\ ((0 < countN)%Z -> db_get (ld_db s') Q_UNDO_WATERMARK_KEY = Some (from_latin1 (to_radix 10 countN)))
     end.
Proof.
  unfold loadKeys, mbind, M_bind. destruct (run_holdsNothing s) as (b & -> & Hb). destruct b; cbn [negb].
  2:{ intros [= <- <-]. split; [|done]. intros _. split; [by eexists|done]. }
  intros E. split; [intros Hp; by destruct (proj1 Hb eq_refl)|]. revert E.
  destruct (loadPrefixes _ _ _ _ 0%Z s) as [[n|e] s1] eqn:El.
  - assert (Hf : forall k, k ∈ tip_keys -> db_get (ld_db s1) k = db_get (ld_db s) k).
    { intros k Hk. change s1 with (Ok n, s1).2. rewrite <- El. apply loadPrefixes_frame.
      unfold tip_keys in Hk. each_elem_in Hk; vm_compute; lia. }
    rewrite writeFinalMarkers_puts. destruct (kf_L d) as [L|]; [|by intros [= <- <-]].
    destruct (load_batch _ s1) as [r1 s2] eqn:Eb. apply load_batch_all_or_none in Eb.
    destruct r1 as [u|e]; intros [= <- <-]; [|intros k Hk; rewrite Eb; by apply Hf]. exists L. rewrite !Eb.
    destruct (final_entries_stored L n (fun k => db_get (ld_db s1) k)) as (E1 & E2 & E3 & E4). by split_and!.
  - intros [= <- <-] k Hk. change s1 with (@Err Z e, s1).2. rewrite <- El. apply loadPrefixes_frame.
    unfold tip_keys in Hk. each_elem_in Hk; vm_compute; lia.
Qed.
End load.

(** A directory with the B file alone: the load puts it and throws at the next prefix. *)
Definition files0 : key_files := mkFiles {["B" := P_BLOCK :: raw xb0 ++ block_val 100 900 (raw xaf)]} None.
Definition load0 : load := mkLoad (∅ : mapdb) [].

Lemma unfinished_load_shows_no_tip_witness :
  exists e s', loadKeys files0 10 None None load0 = (Err e, s')
    /\ db_get (ld_db s') (enc (KBlock (raw xb0))) = Some (block_val 100 900 (raw xaf))
    /\ db_get (ld_db s') PREFIX_LAST_BLOCK_HEIGHT = None.
Proof.
  destruct (loadKeys files0 10 None None load0) as [r s'] eqn:E.
  assert (Er : bool_decide (is_Some (match r with Err e => Some e | _ => None end)) = true)
    by (change r with (r, s').1; rewrite <- E; vm_compute; reflexivity).
  destruct r as [n|e]; [discriminate Er|]. exists e, s'. split; [reflexivity|]. split.
  - change s' with (@Err Z e, s').2. rewrite <- E. vm_compute. reflexivity.
  - pose proof (proj2 (unfinished_load_shows_no_tip files0 10 None None load0 (Err e) s' E) PREFIX_LAST_BLOCK_HEIGHT) as Hk.
    rewrite Hk by left. reflexivity.
Defined.

(** * Reuse *)

(** C36 The pipeline never reuses its own concatenation.  The meta stream is written with
    record size 0, as its records have no fixed size, and [validateConcatArtifact] takes a
    record size of 0 for a foreign file: whatever the run and whatever else is in the
    directory, a meta stream the pipeline wrote is refused. *)
Theorem own_meta_is_never_reused {node : Node} args d c n first last bs :
  wd_merge d !! "all-meta.dat" = Some (piece_file MAGIC_META c n 0 (meta_piece first last bs)) -> concatReusableForRun args d <> Ok true.
Proof.
  intros Hm. unfold concatReusableForRun. rewrite Hm. destruct (wd_merge d !! "all-outputs.dat") as [o|], (wd_merge d !! "all-spends.dat") as [s|]; try done.
  destruct (networkToCodes (ar_network args)) as [codes|e]; [|done]. cbn [mbind res_bind].
  assert (Hn : validateConcatArtifact (piece_file MAGIC_META c n 0 (meta_piece first last bs)) codes (Some (ar_from args)) (ar_to args) = None).
  { unfold validateConcatArtifact, parseDatHeader, piece_file. rewrite bool_decide_eq_false_2 by (rewrite length_app, length_dat_header by done; lia).
    cbn [dh_recordSize]. rewrite header_recordSize by done. rewrite (bool_decide_eq_true_2 (unle (Wire.le 4 0) = 0%Z)) by done. by repeat case_match. }
  rewrite Hn. by repeat case_match.
Qed.

(** Of a range without blocks: outputs and spends pass, and the meta stream is refused. *)
Definition resumed0 : work_dir :=
  mkWorkDir ∅
    {["all-outputs.dat" := piece_file MAGIC_OUTPUTS 1 3 113 (outputs_piece 5 5 []);
      "all-spends.dat" := piece_file MAGIC_SPENDS 1 3 68 (spends_piece 5 5 []);
      "all-meta.dat" := piece_file MAGIC_META 1 3 0 (meta_piece 5 5 [])]}
    ∅ (mkFiles ∅ None) [] [].

Definition resumed_args : seed_args := mkSeedArgs "bitcoin-regtest" 5 (Some 5%Z) 1 10 true 0.

Lemma own_meta_is_never_reused_witness :
  is_Some (validateConcatArtifact (piece_file MAGIC_OUTPUTS 1 3 113 (outputs_piece 5 5 [])) (1, 3)%Z (Some 5%Z) (Some 5%Z))
  /\ concatReusableForRun resumed_args resumed0 <> Ok true.
Proof. split; [vm_compute; by eexists|]. exact (own_meta_is_never_reused resumed_args resumed0 1 3 5 5 [] ltac:(vm_compute; reflexivity)). Defined.

(** * The bulk seeder and the block-by-block path agree *)

Section parity.
Context {envs : Environment} {node : Node} {hash : TxHash} {hashlaws : TxHashLaws} {lib : Bitcoinjs} {DB : Type} `{LevelDbLaws DB}.

Implicit Types rds : list (span * list dumped).

(** ** What a seeded store gives the next block *)

Lemma seeded_none bs undo txIndex (d : DB) k : seeded bs undo txIndex d -> wf_key k -> is_meta k = false -> indexed bs k = None -> dk d k = None.
Proof. intros Hs Hk Hm E. rewrite (sd_records _ _ _ _ Hs) by done. by case_decide. Qed.

Lemma seeded_hint bs undo txIndex (d : DB) t i : seeded bs undo txIndex d -> hash32 t -> u32 i -> dk d (KOutHint t i) = indexed bs (KOutHint t i).
Proof. intros Hs Ht Hi. rewrite (sd_records _ _ _ _ Hs) by done. by rewrite decide_True. Qed.

Lemma seeded_output bs undo txIndex (d : DB) sh t i : seeded bs undo txIndex d -> hash32 sh -> hash32 t -> u32 i ->
  dk d (KOutput sh t i) = indexed bs (KOutput sh t i).
Proof. intros Hs Hsh Ht Hi. rewrite (sd_records _ _ _ _ Hs) by done. by rewrite decide_True. Qed.

Lemma seeded_hint_hash bs undo txIndex (d : DB) t i sh : seeded bs undo txIndex d -> hash32 t -> u32 i -> dk d (KOutHint t i) = Some sh -> hash32 sh.
Proof. intros Hs Ht Hi E. by apply (db_wf_val d (KOutHint t i) sh (sd_wf _ _ _ _ Hs)). Qed.

Lemma nothing_hints : hints_ok nothing.
Proof. by intros t i sh. Qed.

Lemma seeded_hints bs undo txIndex (d : DB) : seeded bs undo txIndex d -> hints_ok (dk d).
Proof.
  intros Hs t i sh Ht Hi E. pose proof (seeded_hint_hash _ _ _ _ _ _ _ Hs Ht Hi E) as Hsh. rewrite (seeded_output bs undo txIndex) by done.
  apply (chain_hints nothing bs nothing_hints t i sh Ht Hi). by rewrite (seeded_hint bs undo txIndex) in E.
Qed.

Lemma seeded_live bs undo txIndex (d : DB) : seeded bs undo txIndex d -> same_utxos (live_outputs (dk d)) (apply_chain (fun _ => None) bs).
Proof.
  intros Hs. transitivity (live_outputs (indexed bs)); [|exact (live_chain nothing bs)]. intros t i Ht Hi. unfold live_outputs. cbn [fst snd].
  pose proof (fun sh => seeded_hint_hash _ _ _ _ t i sh Hs Ht Hi) as Hh. rewrite (seeded_hint bs undo txIndex) in * by done.
  destruct (indexed bs (KOutHint t i)) as [sh|]; [|done]. cbn [mbind option_bind]. by rewrite (seeded_output bs undo txIndex) by eauto.
Qed.

(** *** What a seeding leaves out

    The records of indexing that no seeding writes: the recovery records of spent outputs
    of every block, and on Bitcoin the transaction records. *)
Definition left_out (bitcoin : bool) (k : key) : bool :=
  match k with
  | KOutDel _ _ _ _ | KHintDel _ _ _ => true
  | KTx _ | KTxExact _ | KTxBlockRecovery _ _ => bitcoin
  | _ => false
  end.

(** The blocks that left the undo window, whose indexes a tracker prunes. *)
Definition aged_of (bs : list block_data) (undo : Z) : list bytes :=
  take (Z.to_nat (Z.of_nat (length bs) - undo)) ((fun b => h2b (bd_hash b)) <$> bs).

Lemma aged_window bs undo : aged_of bs undo ++ seed_window bs undo = (fun b => h2b (bd_hash b)) <$> bs.
Proof. unfold aged_of, seed_window, last_n. rewrite length_fmap. apply take_drop. Qed.

Lemma raw_hashes_NoDup bs : valid_chain bs -> NoDup ((fun b => h2b (bd_hash b)) <$> bs).
Proof.
  induction bs as [|b bs IH] using rev_ind; intros Hv; [constructor|]. rewrite fmap_app. apply NoDup_app. split_and!.
  - apply IH. by eapply valid_snoc.
  - intros x (c & -> & Hc)%list_elem_of_fmap Hx%list_elem_of_singleton. by eapply valid_new_hash.
  - apply NoDup_singleton.
Qed.

(** Only a block of the chain leaves records under its hash. *)
Lemma indexed_absent bs k bh :
  key_block k = Some bh -> bh ∉ (fun b => h2b (bd_hash b)) <$> bs -> indexed bs k = None.
Proof.
  intros Hk. induction bs as [|b bs IH] using rev_ind; [done|]. rewrite fmap_app, not_elem_of_app. intros [H1 H2].
  unfold indexed, chain_records. rewrite foldl_app. cbn [foldl]. rewrite (committed_other_block _ _ _ bh); [by apply IH|done|].
  intros ->. apply H2. by apply list_elem_of_singleton.
Qed.

(** A record that is not left out is the one indexing leaves and pruning keeps. *)
Lemma seeded_records bs undo bitcoin (d : DB) k :
  seeded bs undo (negb bitcoin) d -> valid_chain bs -> wf_key k -> is_meta k = false ->
  dk d k = if left_out bitcoin k then None else pruned (aged_of bs undo) (indexed bs) k.
Proof.
  intros Hs Hv Hk Hm. rewrite (sd_records _ _ _ _ Hs) by done.
  assert (Hi : forall bh, index_of k = Some bh ->
    (if decide (bh ∈ seed_window bs undo) then indexed bs k else None)
    = (if decide (bh ∈ aged_of bs undo) then None else indexed bs k)).
  { intros bh E. pose proof (raw_hashes_NoDup bs Hv) as Hn. rewrite <- (aged_window bs undo) in Hn.
    apply NoDup_app in Hn as (_ & Hn & _). repeat case_decide; try done; [by edestruct Hn|].
    symmetry. apply (indexed_absent _ _ bh); [by destruct k|]. rewrite <- (aged_window bs undo). by rewrite not_elem_of_app. }
  unfold pruned. destruct k; cbn [left_out kept index_of key_block] in *; try (by rewrite decide_False by tauto);
    try (by rewrite decide_True); try (destruct bitcoin; cbn [negb]; [by rewrite decide_False by naive_solver|]);
    try (by rewrite decide_True); rewrite <- Hi by reflexivity; apply decide_ext; naive_solver.
Qed.

Lemma later_disjoint l1 a l2 b l3 : valid_chain (l1 ++ a :: l2 ++ b :: l3) -> disjoint_blocks a b.
Proof.
  intros Hv. split.
  - intros E. apply (raw_hash_inj a b) in E; [|apply (vc_blocks _ Hv); rewrite !elem_of_app, !elem_of_cons, !elem_of_app, !elem_of_cons; tauto..].
    pose proof (vc_hashes _ Hv) as Hn. rewrite fmap_app in Hn. apply NoDup_app in Hn as (_ & _ & Hn). rewrite fmap_cons, fmap_app, fmap_cons in Hn.
    apply NoDup_cons in Hn as [Hn _]. apply Hn. rewrite E. apply elem_of_app. right. left.
  - intros t Htb Hta. pose proof (vc_txids _ Hv) as Hn. unfold all_txids in Hn. rewrite flat_map_app in Hn. apply NoDup_app in Hn as (_ & _ & Hn).
    cbn [flat_map] in Hn. apply NoDup_app in Hn as (_ & Hn & _). apply (Hn t Hta). rewrite flat_map_app. apply elem_of_app. right. cbn [flat_map]. apply elem_of_app. by left.
Qed.

Lemma spent_once l1 a l2 b l3 op : valid_chain (l1 ++ a :: l2 ++ b :: l3) -> op ∈ spent_ops b -> op ∉ spent_ops a.
Proof.
  intros Hv Hb Ha. pose proof (vc_spends _ Hv) as Hn. unfold all_spent in Hn. rewrite flat_map_app, fmap_app in Hn. apply NoDup_app in Hn as (_ & _ & Hn).
  cbn [flat_map] in Hn. rewrite fmap_app in Hn. apply NoDup_app in Hn as (_ & Hn & _). rewrite spent_ops_of in Ha, Hb. apply (Hn op Ha).
  rewrite flat_map_app. cbn [flat_map]. rewrite !fmap_app, !elem_of_app. auto.
Qed.

Lemma hint_stays V l t i : (forall a, a ∈ l -> (t, i) ∉ spent_ops a) -> is_Some (V (KOutHint t i)) -> is_Some (chain_records V l (KOutHint t i)).
Proof.
  intros Hl HV. induction l as [|a l IH] using rev_ind; [done|]. rewrite chain_records_snoc, committed_hint. rewrite decide_False by (apply Hl, elem_of_app; right; left).
  destruct (created_at _ _); [by eexists|]. apply IH. intros c Hc. apply Hl, elem_of_app. by left.
Qed.

(** The blocks after a seeded chain may be indexed on it. *)
Lemma seeded_batch bs undo txIndex (d : DB) hash0 h0 more l2 : seeded bs undo txIndex d -> bs <> [] ->
  valid_chain (bs ++ more ++ l2) -> linked hash0 h0 (bs ++ more ++ l2) -> batch_ok (dk d) (tip_of bs) more.
Proof.
  intros Hs Hne. induction more as [|b more IH] using rev_ind in l2 |- *; intros Hv Hl; [constructor|]. rewrite <- app_assoc in Hv, Hl. cbn [app] in Hv, Hl.
  constructor; [by apply (IH (b :: l2))|].
  assert (Hdis : forall a, a ∈ bs ++ more -> disjoint_blocks a b).
  { intros a (k1 & k2 & E)%list_elem_of_split. rewrite app_assoc, E, <- app_assoc in Hv. by apply later_disjoint in Hv. }
  assert (Hwf : block_wf b) by (apply (vc_blocks _ Hv); rewrite !elem_of_app, elem_of_cons; auto).
  assert (Hin : fresh_in (indexed bs) b).
  { apply fresh_chain; [by split|]. intros a Ha. apply Hdis, elem_of_app. auto. }
  assert (Hfresh : fresh_in (dk d) b).
  { destruct Hin as [F1 F2 F3]. split.
    - intros k Hk E. apply (seeded_none bs undo txIndex); [done|done|by destruct k|by apply F1].
    - intros t Ht. pose proof (txids_hash b t Hwf Ht). split; apply (seeded_none bs undo txIndex); try done; by apply F2.
    - intros r Hr. destruct (created_recs_wf b Hwf r Hr) as (? & ? & ?). split; [|intros sh Hsh]; apply (seeded_none bs undo txIndex); try done; by apply F3. }
  split; [done| |done| |].
  - assert (Hh : forall i c, (bs ++ more ++ b :: l2) !! i = Some c -> bd_height c = (h0 + 1 + Z.of_nat i)%Z) by (intros i c; by apply (linked_lookup hash0)).
    assert (Eb : (bs ++ more ++ b :: l2) !! (length bs + length more) = Some b).
    { rewrite lookup_app_r by lia. replace (length bs + length more - length bs) with (length more) by lia. by rewrite lookup_app_r, Nat.sub_diag by lia. }
    rewrite (Hh _ _ Eb). unfold top_height. destruct (last more) as [c|] eqn:Ec.
    + rewrite last_lookup in Ec. assert (Hlen : length more <> 0) by by destruct more.
      rewrite (Hh (length bs + pred (length more)) c); [lia|]. rewrite lookup_app_r by lia.
      replace (length bs + pred (length more) - length bs) with (pred (length more)) by lia. by rewrite lookup_app_l by lia.
    + unfold tip_of. destruct (last bs) as [c|] eqn:Eb'; [|by apply last_None in Eb']. rewrite last_lookup in Eb'. assert (Hlen : length bs <> 0) by by destruct bs.
      cbn. rewrite (Hh (pred (length bs)) c); [lia|]. by rewrite lookup_app_l by lia.
  - apply fresh_chain; [done|]. intros a Ha. apply Hdis, elem_of_app. auto.
  - intros t i Hsp Hv0. apply hint_stays; [|done]. intros a (k1 & k2 & E)%list_elem_of_split. rewrite E, <- app_assoc in Hv. cbn [app] in Hv.
    rewrite app_assoc in Hv. by eapply spent_once.
Qed.

(** Seeding against indexing.  The dumps of consecutive ranges that hold a valid chain are
    all parsed; a merge over the parsed ranges succeeds, whatever files it frees when
    space runs short; and a load of the result into a store that holds nothing but at
    most the layout stamp, in batches of any size, succeeds.  Of the records that indexing
    the same chain block by block leaves the store then holds blocks, unspent outputs and
    first seen scripts in full, the indexes by block for the blocks that can still be
    undone, and transactions if the coin indexes them (Bitcoin's does not); it holds no
    recovery record of a spent output of any block ([seeded_records] says so key by key).
    The chain's last block is the tip, the layout is the current one, and the number of
    blocks that can be undone is the watermark. *)
Theorem seeding_matches_indexing args chain netName c n wireFormat rds undo warns hash0 h0 :
  let bs := blocks_of rds.*1 in
  let txIndex := negb (is_bitcoin (ar_network args)) in
  ar_network args = String.append chain (String.append "-" netName) -> net_codes chain netName c n ->
  newDecoder (ar_network args) = Ok wireFormat -> ar_removeSpent args = true ->
  resolveUndoBlocks (ar_network args) None = Ok (undo, warns) -> (0 < undo)%Z ->
  valid_chain bs -> linked hash0 h0 bs -> (-1 <= h0)%Z -> fits bs -> bs <> [] ->
  spans_ok None rds.*1 -> dumps_of wireFormat rds ->
  exists ps, Forall2 (fun rd p => parse_of chain netName rd = Ok p) rds ps
    /\ forall d, holds_parsed ps d -> exists d', phaseMerge args d = (Ok tt, d')
    /\ forall s, ld_faults s = [] -> ~ populated (ld_db s) ->
       exists s', phaseLoad args d' s = (Ok (Z.of_nat (length (seed_window bs undo))), s') /\ seeded bs undo txIndex (ld_db s').
Proof. exact (run_seeding args chain netName c n wireFormat rds undo warns hash0 h0). Qed.

(** A tracker that has just come up over a store, with nothing staged or cached. *)
Record just_started {rpcs : NodeRpc} {env : LoopEnv} (l : loop DB) : Prop := {
  js_batch : s_batch (syn l) = empty_batch;
  js_cache : outputCache (db (trk l)) = ∅;
  js_scripts : knownScripts (db (trk l)) = ∅;
  js_faults : faults (db (trk l)) = [];
  js_undo : (0 <= undoBlocks (win (trk l)))%Z;
  js_window : window_hashes (win (trk l));
  js_mempool : db_wf (disk (mempoolDb (trk l))) /\ commit_ok (mempoolDb (trk l));
}.

(** C3 A seeded store can be indexed on.  When the tracker comes up over a store that a
    seeding of the chain [bs] left, any further blocks of the chain, outputs of seeded
    blocks spent in them included, are staged and committed as over a store indexed from
    the start: the batch succeeds, its records are committed with the pointers on its last
    block, and the unspent outputs are those the specification computes for the whole
    chain from nothing. *)
Theorem seeded_store_indexes_on {rpcs : NodeRpc} {env : LoopEnv} (l0 : loop DB) bs undo txIndex hash0 h0 more b :
  seeded bs undo txIndex (disk (db (trk l0))) -> bs <> [] ->
  valid_chain (bs ++ more ++ [b]) -> linked hash0 h0 (bs ++ more ++ [b]) -> just_started l0 ->
  exists l, index_batch more b l0 = (Ok tt, l) /\ Indexing.indexed l0 (more ++ [b]) (bd_hash b) (bd_height b) l
    /\ same_utxos (live_outputs (dk (disk (db (trk l))))) (apply_chain (fun _ => None) (bs ++ more ++ [b])).
Proof.
  intros Hs Hne Hv Hl [J1 J2 J3 J4 J5 J6 [J7 J8]].
  assert (Hid : idle (tip_of bs) l0).
  { split; [|done..]. split; [apply Hs|by eapply seeded_hints| |].
    - intros t i sh v _ _. by rewrite J2, lookup_empty.
    - intros k. rewrite J3. by intros ?%not_elem_of_empty. }
  assert (Hbatch : batch_ok (dk (disk (db (trk l0)))) (tip_of bs) (more ++ [b])).
  { apply (seeded_batch bs undo txIndex _ hash0 h0 (more ++ [b]) []); [done|done|by rewrite app_nil_r..]. }
  destruct (run_index_batch (tip_of bs) l0 more b Hid Hbatch J6 J7 J8) as (l & E & Hi). exists l. split_and!; [done|done|].
  rewrite (live_agree _ _ (disk_hints_hash _ (sv_wf _ (ix_store _ _ _ _ _ Hi))) (ix_records _ _ _ _ _ Hi)), live_pruned, live_chain.
  unfold apply_chain at 2. rewrite foldl_app. fold (apply_chain (fun _ => None) bs).
  apply (apply_chain_proper (more ++ [b])). by eapply seeded_live.
Qed.
End parity.

(** * A small chain, seeded

    The two blocks of [Concrete], dumped in two ranges: the first mints an output, the
    second spends it.  Only the last block can be undone. *)

#[local] Instance env_seed : Environment := fun name => if bool_decide (name = "XCHAIN_UNDO_BLOCKS_DOGE") then Some "1" else None.
#[local] Instance hash_seed : TxHash := { getHash tx := rev (txid32 tx) }.
#[local] Instance hash_seed_laws : TxHashLaws.
Proof. by split. Qed.

Definition lib_block_of (b : block_data) : lib_block := mkLibBlock 0 (rev (h2b (bd_prev b))) [] (bd_time b) 0 0 (bd_txs b).

(** A library whose blocks are written as one byte. *)
#[local] Instance lib_seed : Bitcoinjs := {
  Block_fromBuffer b := Ok (lib_block_of (if bool_decide (b = [x01]) then block1 else block2));
  Block_byteLength _ := 1%Z;
  calculateMerkleRoot _ := [];
  Transaction_fromBuffer _ _ := Err (parse_error "");
  Transaction_getId _ _ _ _ := "";
  varuint_decode _ _ := Err (parse_error "");
}.

Definition args0 : seed_args := mkSeedArgs "dogecoin-regtest" 101 (Some 102%Z) 1 3 true 100.

Definition range1 : span * list dumped := (mkSpan 101 101 [block1], [mkDumped 101 (raw xb1) [x01]]).
Definition range2 : span * list dumped := (mkSpan 102 102 [block2], [mkDumped 102 (raw xb2) [x02]]).

Definition parsed0 (rd : span * list dumped) : parsed :=
  match parse_of "dogecoin" "regtest" rd with Ok p => p | Err _ => mkParsed [] [] [] end.

(** The directory after the parse; space runs short whenever it is looked at. *)
Definition dir0 (rds : list (span * list dumped)) : work_dir :=
  mkWorkDir (list_to_map (concat (imap (fun i rd =>
      let name pre := String.append pre (String.append (to_radix 10 (Z.of_nat i)) ".dat") in
      [(name "outputs-", p_outputs (parsed0 rd)); (name "spends-", p_spends (parsed0 rd)); (name "meta-", p_meta (parsed0 rd))]) rds)))
    ∅ ∅ (mkFiles ∅ None) [] [[true]; [true; true]; [true]; [false]; [true; true]].

Definition empty_load : load := mkLoad (∅ : mapdb) [].

Lemma blocks_known bs1 b bs2 : [block1; block2] = bs1 ++ b :: bs2 -> forall op, op ∈ spent_ops b -> op ∈ born_op <$> all_born (bs1 ++ [b]).
Proof.
  destruct bs1 as [|b1 [|b2 [|b3 bs1]]]; cbn [app].
  - intros [= <- _] op Hop. vm_compute in Hop. by apply elem_of_nil in Hop.
  - intros [= <- <- _] op Hop. assert (E : spent_ops block2 = [(raw x11, 0%Z)]) by (vm_compute; reflexivity). rewrite E in Hop.
    apply list_elem_of_singleton in Hop as ->. apply (bool_decide_unpack _). vm_compute. reflexivity.
  - by intros [=].
  - by intros [=].
Qed.

Lemma chain0_valid : valid_chain [block1; block2].
Proof.
  split; [|apply (bool_decide_unpack _); vm_compute; reflexivity..|exact blocks_known].
  intros b Hb. each_elem_in Hb; [apply block1_wf|apply block2_wf].
Qed.

Lemma chain0_fits bs : bs = [block1] \/ bs = [block1; block2] -> fits bs.
Proof.
  intros Hbs. split.
  - intros b Hb. destruct Hbs as [->| ->]; each_elem_in Hb; (split; [apply block1_wf || apply block2_wf|vm_compute; split; congruence]).
  - destruct Hbs as [->| ->]; unfold counts_ok; split_and!; vm_compute; split; congruence.
  - destruct Hbs as [->| ->]; vm_compute; congruence.
Qed.

Lemma dumps0 : dumps_of "auxpow" [range1; range2].
Proof.
  intros r ds Hin. repeat (apply elem_of_cons in Hin as [[= -> ->]|Hin]); [| |by apply elem_of_nil in Hin];
    (constructor; [|constructor]); (split; [reflexivity|vm_compute; reflexivity|]); eexists; (split; [vm_compute; reflexivity|by split]).
Qed.

Lemma parsed0_only rds ps : Forall2 (fun rd p => parse_of "dogecoin" "regtest" rd = Ok p) rds ps -> ps = parsed0 <$> rds.
Proof. intros Hp. induction Hp as [|rd p rds ps E Hp IH]; [done|]. cbn [fmap list_fmap]. f_equal; [unfold parsed0; by rewrite E|exact IH]. Qed.

Lemma dir0_holds : holds_parsed (parsed0 <$> [range1; range2]) (dir0 [range1; range2]).
Proof. split; vm_compute; reflexivity. Qed.

Lemma empty_load_empty : ~ populated (ld_db empty_load).
Proof. intros (k & v & E & _). cbn in E. by rewrite lookup_empty in E. Qed.

Lemma seeding_matches_indexing_witness : exists d' s',
  phaseMerge args0 (dir0 [range1; range2]) = (Ok tt, d') /\ phaseLoad args0 d' empty_load = (Ok 1%Z, s')
  /\ dk (ld_db s') (KBlock (raw xb1)) = Some (block_record block1)
  /\ dk (ld_db s') (KStoredBlk (raw xb1)) = None
  /\ dk (ld_db s') (KOutHint (raw x11) 0) = None
  /\ dk (ld_db s') (KOutHint (raw x13) 1) = Some (digest0 [x53])
  /\ dk (ld_db s') (KMeta LAST_BLOCK_HASH) = Some (from_latin1 (hx xb2)).
Proof.
  destruct (seeding_matches_indexing (DB := mapdb) args0 "dogecoin" "regtest" 3 3 "auxpow" [range1; range2] 1 false (hx xb0) 100) as (ps & Hps & Hrun).
  - reflexivity.
  - split; reflexivity.
  - vm_compute. reflexivity.
  - reflexivity.
  - vm_compute. reflexivity.
  - lia.
  - exact chain0_valid.
  - vm_compute. auto 10.
  - lia.
  - apply chain0_fits. by right.
  - discriminate.
  - cbn. unfold u32. split_and!; try lia; try done; intros h [= <-]; lia.
  - exact dumps0.
  - apply parsed0_only in Hps as ->. destruct (Hrun _ dir0_holds) as (d' & Em & Hload). destruct (Hload empty_load eq_refl empty_load_empty) as (s' & El & [Hr _ Ht _ _]).
    exists d', s'. split; [exact Em|]. split; [exact El|].
    rewrite !Hr by (reflexivity || (split; [reflexivity|vm_compute; split; congruence])). split_and!; [vm_compute; reflexivity..|].
    exact (proj2 (Ht block2 eq_refl)).
Defined.

(** The first block seeded, the second one indexed on top. *)
Definition seeded0 : mapdb := ld_db (phaseLoad args0 (phaseMerge args0 (dir0 [range1])).2 empty_load).2.

Lemma seeded0_ok : seeded [block1] 1 true seeded0.
Proof.
  destruct (run_seeding (DB := mapdb) args0 "dogecoin" "regtest" 3 3 "auxpow" [range1] 1 false (hx xb0) 100) as (ps & Hps & Hrun).
  - reflexivity.
  - split; reflexivity.
  - vm_compute. reflexivity.
  - reflexivity.
  - vm_compute. reflexivity.
  - lia.
  - exact (valid_snoc [block1] block2 chain0_valid).
  - vm_compute. auto 10.
  - lia.
  - apply chain0_fits. by left.
  - discriminate.
  - cbn. unfold u32. split_and!; try lia; done.
  - intros r ds Hin. apply dumps0. apply list_elem_of_singleton in Hin as ->. left.
  - apply parsed0_only in Hps as ->. destruct (Hrun (dir0 [range1])) as (d' & Em & Hload).
    { split; vm_compute; reflexivity. }
    destruct (Hload empty_load eq_refl empty_load_empty) as (s' & El & Hs). unfold seeded0. rewrite Em. cbn [snd]. rewrite El. exact Hs.
Qed.

Definition started0 : loop mapdb :=
  mkLoop (mkTracker (store0 seeded0) (store0 ∅) (window0 [hx xb1]) status0 0 "regtest") sync0.

Lemma started0_ok : just_started started0.
Proof.
  split; [reflexivity..| | |].
  - by vm_compute.
  - intros x Hx. change (x ∈ [hx xb1]) in Hx. apply list_elem_of_singleton in Hx as ->. apply hx_is_hash.
  - split; [|done]. intros b v. cbn. by rewrite lookup_empty.
Qed.

Lemma seeded_store_indexes_on_witness :
  exists l, index_batch [] block2 started0 = (Ok tt, l)
    /\ Indexing.indexed started0 [block2] (hx xb2) 102 l
    /\ same_utxos (live_outputs (dk (disk (db (trk l))))) (apply_chain (fun _ => None) [block1; block2]).
Proof.
  apply (seeded_store_indexes_on started0 [block1] 1 true (hx xb0) 100 [] block2);
    [exact seeded0_ok|discriminate|exact chain0_valid|vm_compute; auto 10|exact started0_ok].
Defined.
