(* ===== verification/BulkTheorems.v ===== *)
(** The bulk seeder end to end: a run from an honest node's RPC to the loaded store, the
    offline check of a dump, and the files in between. *)

From S2P Require Import Prelude KeyCodec ValueCodec LevelDb Store Json Startup Parsing Wire AuxPow ChainParams Decoder Connector ConnectorFacts.
From S2P Require Import StoreFacts Rollback Outputs Apply Spend Block Roundtrip Tracker Window Reorg SyncLoop Batch Undo Chain Forward Indexing Utxo.
From S2P Require Import RecordFiles Heap ExternalSort AntiJoin SeedStreams StreamFacts ValidateFacts RangeFacts SeedChain.
From S2P Require Import Xdmp Dump ValidateChain WorkDir DeriveKeys Loader LoadFacts Seeder Orchestrator RunFacts DeriveFacts MergeFacts PhaseFacts SeedParity.
From S2P Require Import DumpFacts BulkFacts Concrete SeedTheorems ConnectorTheorems.

#[local] Open Scope string_scope.
#[local] Open Scope nat_scope.
#[local] Open Scope list_scope.

(** * The run *)

Section run.
Context {envs : Environment} {servers : RpcServers} {lib : Bitcoinjs} {node : Node} {hash : TxHash} {hashlaws : TxHashLaws}.
Context {DB : Type} {db : LevelDb DB} {dblaws : LevelDbLaws DB}.

(** C2 What a bulk sync leaves, against indexing.  Against a node that serves its chain
    (answering the calls of a batch in any order, timing out up to nine times in a row), a
    run without [--to] and from a work directory without finished files dumps the blocks
    from [--from] up to the tip less the larger of the margin asked for and the undo
    window, in chunks of any size, with the AuxPoW sections cut out where the coin has
    them; its check, where the network or a flag asks for one, passes if every block hashes
    to its hash and links to the one before it; and parse, merge and load succeed.  The
    empty store then holds, key by key, exactly what indexing these blocks one by one
    leaves once the blocks below the undo window are pruned, with two exceptions: it holds
    no recovery record (K, M) of a spent output, not even of the window's blocks, and on
    Bitcoin no transaction record (T, X, Y).  Its unspent outputs are those the abstract
    specification computes for the blocks; the tip pointers name the last of them, the
    layout stamp is the current one, and the watermark is the size of the window
    ([seeded]). *)
Theorem bulk_sync_matches_indexing N up chain netName c n clean blk args wf undo warns a e hash0 h0 (s : @run DB) :
  honest N up -> net_codes chain netName c n ->
  bulk_ok N chain netName clean blk args wf undo warns a e -> fresh_run s ->
  valid_chain (blocks_in blk a e) -> linked hash0 h0 (blocks_in blk a e) -> (-1 <= h0)%Z -> fits (blocks_in blk a e) ->
  let bs := blocks_in blk a e in
  let bitcoin := is_bitcoin (String.append chain (String.append "-" netName)) in
  exists s', orchestrate args s = (Ok tt, s')
    /\ (forall k, wf_key k -> Roundtrip.is_meta k = false ->
        dk (ld_db (rn_load s')) k = if left_out bitcoin k then None else pruned (aged_of bs undo) (indexed bs) k)
    /\ same_utxos (live_outputs (dk (ld_db (rn_load s')))) (apply_chain (fun _ => None) bs)
    /\ seeded bs undo (negb bitcoin) (ld_db (rn_load s')).
Proof.
  intros Hn Hc Hb Hf Hv Hl Hh0 Hfit bs bitcoin.
  destruct (run_orchestrate N up Hn chain netName c n Hc clean blk args wf undo warns a e hash0 h0 s Hb Hf Hv Hl Hh0 Hfit)
    as (s' & E & Hs).
  exists s'. split_and!; [exact E| |by eapply seeded_live|exact Hs].
  intros k Hk Hm. by apply seeded_records.
Qed.
End run.

(** ** A small run

    Two blocks of a node whose tip is at 103, dumped one per file.  Every other batch
    times out, and the answers of a batch come back to front. *)

#[local] Instance env_run : Environment := fun name =>
  if bool_decide (name = "XCHAIN_UNDO_BLOCKS_BTC") then Some "1"
  else if bool_decide (name = "NODE_URL") then Some "node"
  else if bool_decide (name = "NODE_PORT") then Some "8332"
  else if bool_decide (name = "NODE_USER") then Some "user"
  else if bool_decide (name = "NODE_PASSWORD") then Some "secret"
  else None.

#[local] Instance hash_run : TxHash := { getHash tx := rev (txid32 tx) }.
#[local] Instance hash_run_laws : TxHashLaws.
Proof. by split. Qed.

Definition plain_block (b : block_data) : lib_block := mkLibBlock 0 (rev (h2b (bd_prev b))) [] (bd_time b) 0 0 (bd_txs b).

#[local] Instance lib_run : Bitcoinjs := {
  Block_fromBuffer b := Ok (plain_block (if bool_decide (b = [x01]) then block1 else block2));
  Block_byteLength _ := 1%Z;
  calculateMerkleRoot _ := [];
  Transaction_fromBuffer _ _ := Err (parse_error "");
  Transaction_getId _ _ _ _ := "";
  varuint_decode _ _ := Err (parse_error "");
}.

#[local] Existing Instance servers_run.

Definition args_run : run_args :=
  mkRunArgs (mkSeedArgs "bitcoin-regtest" 101 None 1 3 true 100) 0 false 1 false false None None.

Definition blk_run (h : Z) : block_data := if bool_decide (h = 101)%Z then block1 else block2.

(** Nothing on disk yet; space runs short whenever it is looked at. *)
Definition run0 : @run mapdb :=
  mkRun (mkConnector [] 0 0 0 0 0 0 0) ∅ (mkWorkDir ∅ ∅ ∅ (mkFiles ∅ None) [] [[true]; [true; true]; [true]; [false]; [true; true]])
    (mkLoad ∅ []).

Lemma heights_run (P : Z -> Prop) : P 101%Z -> P 102%Z -> forall h, (101 <= h <= 102)%Z -> P h.
Proof. intros H1 H2 h Hh. assert (h = 101 \/ h = 102)%Z as [->| ->] by lia; done. Qed.

Lemma carried_run h : (101 <= h <= 102)%Z -> carries "default" (dumped_at chain_run text_at h) (blk_run h).
Proof.
  revert h. apply heights_run; (split; [reflexivity|vm_compute; reflexivity|]); eexists; (split; [vm_compute; reflexivity|by split]).
Qed.

Lemma range_run : range_ok chain_run "bitcoin" text_at 101 102.
Proof.
  split; [lia|lia|by vm_compute|]. apply heights_run; (split; [by vm_compute| |reflexivity]); by vm_compute.
Qed.

Lemma bulk_run_ok : bulk_ok chain_run "bitcoin" "regtest" text_at blk_run args_run "default" 1 false 101 102.
Proof.
  split; [done|vm_compute; reflexivity|done|done|cbn; lia|cbn; lia|done|done| |done| |exact range_run|exact carried_run|].
  - split; [vm_compute; reflexivity|lia].
  - split; [|by eexists|by eexists]. exists "node", "8332". split_and!; [reflexivity..|]. intros now. eexists. vm_compute. reflexivity.
  - intros E. vm_compute in E. discriminate.
Qed.

Lemma run0_fresh : fresh_run run0.
Proof.
  split; [| |done|done|done|]; cbn.
  - intros m f E. by rewrite lookup_empty in E.
  - intros m f E. by rewrite lookup_empty in E.
  - exact empty_load_empty.
Qed.

Lemma bulk_sync_matches_indexing_witness : exists s', orchestrate args_run run0 = (Ok tt, s')
  /\ dk (ld_db (rn_load s')) (KBlock (raw xb1)) = Some (block_record block1)
  /\ dk (ld_db (rn_load s')) (KStoredBlk (raw xb1)) = None
  /\ dk (ld_db (rn_load s')) (KOutHint (raw x11) 0) = None
  /\ dk (ld_db (rn_load s')) (KOutHint (raw x13) 1) = Some (digest0 [x53])
  /\ (dk (ld_db (rn_load s')) (KTxExact (raw x13)) = None
      /\ indexed [block1; block2] (KTxExact (raw x13)) = Some (raw xb2))
  /\ (dk (ld_db (rn_load s')) (KHintDel (raw xb2) (raw x11) 0) = None
      /\ indexed [block1; block2] (KHintDel (raw xb2) (raw x11) 0) <> None)
  /\ live_outputs (dk (ld_db (rn_load s'))) (raw x11, 0%Z) = None
  /\ dk (ld_db (rn_load s')) (KMeta LAST_BLOCK_HASH) = Some (from_latin1 (hx xb2)).
Proof.
  assert (Eb : blocks_in blk_run 101 102 = [block1; block2]) by reflexivity.
  destruct (bulk_sync_matches_indexing (DB := mapdb) chain_run Nat.even "bitcoin" "regtest" 1 3 text_at blk_run args_run "default" 1 false 101 102 (hx xb0) 100 run0)
    as (s' & Er & Hr & Hu & [_ _ Ht _ _]).
  - exact chain_run_honest.
  - split; reflexivity.
  - exact bulk_run_ok.
  - exact run0_fresh.
  - rewrite Eb. exact chain0_valid.
  - rewrite Eb. vm_compute. auto 10.
  - lia.
  - rewrite Eb. apply chain0_fits. by right.
  - exists s'. split; [exact Er|]. rewrite Eb in Hr, Hu, Ht.
    rewrite (Hu (raw x11) 0%Z) by (reflexivity || (vm_compute; split; congruence)).
    rewrite !Hr by (reflexivity || (split; [reflexivity|vm_compute; split; congruence])
                    || (split_and!; [reflexivity..|vm_compute; split; congruence])).
    split_and!; [vm_compute; (reflexivity || done)..|]. exact (proj2 (Ht block2 eq_refl)).
Defined.

(** * The end of a dump *)

Section ends.
Context {envs : Environment}.

(** The arguments the orchestrator hands to the dump. *)
Lemma parse_dumpArgv args tipSafety : parseDumpArgs (dumpArgv args tipSafety) default_dump_args
  = Ok (mkDumpArgs (Some (ar_network (ra_seed args))) (Some (Some (ar_from (ra_seed args)))) (Some <$> ar_to (ra_seed args)) (Some (ra_chunkSize args))
         (Some (match ar_to (ra_seed args) with Some _ => DEFAULT_TIP_SAFETY | None => tipSafety end))
         (match ar_to (ra_seed args) with Some _ => false | None => true end)
         (match ar_to (ra_seed args) with Some _ => ra_allowUndoWindow args | None => false end) (Some "dumps")).
Proof.
  unfold dumpArgv. pose proof (parse_to_radix (ar_from (ra_seed args))) as P1. pose proof (parse_to_radix (ra_chunkSize args)) as P2.
  destruct (ar_to (ra_seed args)) as [to|].
  - pose proof (parse_to_radix to) as P3. revert P1 P2 P3. generalize (to_radix 10 (ar_from (ra_seed args))), (to_radix 10 (ra_chunkSize args)), (to_radix 10 to).
    intros s1 s2 s3 P1 P2 P3. cbn [fmap option_fmap option_map]. rewrite <- P1, <- P2, <- P3. by destruct (ra_allowUndoWindow args).
  - pose proof (parse_to_radix tipSafety) as P3. revert P1 P2 P3. generalize (to_radix 10 (ar_from (ra_seed args))), (to_radix 10 (ra_chunkSize args)), (to_radix 10 tipSafety).
    intros s1 s2 s3 P1 P2 P3. cbn [fmap option_fmap option_map]. rewrite <- P1, <- P2, <- P3. reflexivity.
Qed.

Lemma validated da job : validateArgs da = Ok job -> da_network da = Some (dj_network job) /\ dj_to job = (da_to da ≫= id)
  /\ Some (dj_tipSafety job) = da_tipSafety da /\ dj_allowUndoWindow job = da_allowUndoWindow da
  /\ (0 <= dj_from job)%Z /\ (0 < dj_chunkSize job)%Z /\ (0 <= dj_tipSafety job)%Z
  /\ (forall to, dj_to job = Some to -> (dj_from job <= to)%Z).
Proof.
  destruct da as [net from to chunk safety explicit allow out]. unfold validateArgs. cbn [da_network da_out da_from da_to da_tipSafetyExplicit da_chunkSize da_tipSafety da_allowUndoWindow].
  intros E. repeat (match type of E with
    | context [match ?x with _ => _ end] => is_var x; destruct x
    | context [if ?b then _ else _] => let B := fresh "B" in destruct b eqn:B
    | context [match ?x with _ => _ end] => let B := fresh "B" in destruct x eqn:B
    end; try discriminate E).
  all: injection E as <-; repeat match goal with H : bool_decide _ = false |- _ => apply bool_decide_eq_false in H end.
  all: cbn; split_and!; try done; try lia. all: intros to [= <-]; lia.
Qed.

(** C22 A seeding run without a last block of its own never dumps a block of the undo
    window: the margin the orchestrator hands down covers it.  With [--to] the dump ends
    there, never beyond the tip, and inside the window only if that was asked for.  The
    dump never ends before it begins. *)
Theorem dumps_stay_below_the_undo_window args safety undo warns da job tip e :
  resolveUndoBlocks (ar_network (ra_seed args)) None = Ok (undo, warns) -> clampTipSafety args = Ok safety ->
  parseDumpArgs (dumpArgv args safety) default_dump_args = Ok da -> validateArgs da = Ok job ->
  resolveDumpEnd job (Some tip) = Ok (Some e) ->
  (dj_from job <= e <= tip)%Z
  /\ ((e <= tip - undo)%Z \/ (is_Some (ar_to (ra_seed args)) /\ ra_allowUndoWindow args = true)).
Proof.
  intros Eu Ec Ea Ej Ee. rewrite parse_dumpArgv in Ea. injection Ea as <-. destruct (validated _ _ Ej) as (Jn & Jt & Js & Ja & J1 & _ & J3 & J4).
  cbn [da_network da_to da_tipSafety da_allowUndoWindow] in *. injection Jn as Jn. injection Js as Js. unfold clampTipSafety, effectiveTipSafety in Ec. rewrite Eu in Ec. cbn [mbind res_bind] in Ec.
  unfold resolveDumpEnd, assertExplicitToOutsideUndoWindow in Ee. rewrite <- Jn, Eu in Ee. cbn [mbind res_bind] in Ee.
  destruct (ar_to (ra_seed args)) as [to|]; cbn in Jt; rewrite Jt in Ee.
  - specialize (J4 to Jt). case_bool_decide; [done|]. rewrite Ja in Ee. case_bool_decide; cbn [mbind res_bind] in Ee.
    + injection Ee as <-. split; [lia|by left].
    + destruct (ra_allowUndoWindow args); [|done]. injection Ee as <-. split; [lia|by right].
  - injection Ec as Ec. case_bool_decide; [done|]. injection Ee as <-. split; [lia|left; lia].
Qed.
End ends.

Lemma dumps_stay_below_the_undo_window_witness : (101 <= 102 <= 103)%Z
  /\ ((102 <= 103 - 1)%Z \/ (is_Some (ar_to (ra_seed args_run)) /\ ra_allowUndoWindow args_run = true)).
Proof.
  eapply (dumps_stay_below_the_undo_window args_run 1 1 false _ (mkJob "bitcoin-regtest" "bitcoin" "regtest" 101 None 1 1 false) 103 102);
    [vm_compute; reflexivity|vm_compute; reflexivity|apply parse_dumpArgv|vm_compute; reflexivity|vm_compute; reflexivity].
Defined.

(** * Dump files *)

Definition hex_of (v : json) : bytes := match v with JStr s => h2b s | _ => [] end.

(** A block as a dump holds it. *)
Definition dumped_of (b : node_block) : dumped := mkDumped (nb_height b) (hex_of (nb_hash b)) (hex_of (nb_hex b)).

Lemma field_u32LE_ok v f : field_u32LE v = Ok f -> u32 v /\ f = Wire.le 4 v.
Proof. unfold field_u32LE, field_if. case_bool_decide; [|done]. by intros [= <-]. Qed.

Lemma field_u8_ok o f : field_u8 o = Ok f -> exists v, o = Some v /\ f = [byte_of_Z v].
Proof. unfold field_u8, field_if. destruct o as [v|]; [|done]. case_bool_decide; [|done]. intros [= <-]. by exists v. Qed.

Lemma header_written chain netName first last tip f f' : writeDumpHeader chain netName first last (Some tip) f = (Ok tt, f') ->
  exists c n, net_codes chain netName c n /\ u32 first /\ u32 last /\ u32 (last - first + 1) /\ u32 tip
    /\ f' = f ++ concat (chunk_fields c n first last tip).
Proof.
  unfold writeDumpHeader, makeHeader, field_u32LE_of. destruct (field_u8 (CHAIN_CODES chain)) as [fc|] eqn:Ec; [|done].
  destruct (field_u8 (NETWORK_CODES netName)) as [fn|] eqn:En; [|done]. destruct (field_u32LE first) as [f1|] eqn:E1; [|done].
  destruct (field_u32LE last) as [f2|] eqn:E2; [|done]. destruct (field_u32LE (last - first + 1)) as [f3|] eqn:E3; [|done].
  destruct (field_u32LE tip) as [f4|] eqn:E4; [|done].
  apply field_u8_ok in Ec as (c & Ec & ->). apply field_u8_ok in En as (n & En & ->).
  apply field_u32LE_ok in E1 as [? ->]. apply field_u32LE_ok in E2 as [? ->]. apply field_u32LE_ok in E3 as [? ->]. apply field_u32LE_ok in E4 as [? ->].
  intros [= <-]. exists c, n. by split_and!.
Qed.

Lemma record_written b f f' : writeBlockRecord b f = (Ok tt, f') -> dumped_ok (dumped_of b) /\ f' = f ++ record_bytes (dumped_of b).
Proof.
  destruct b as [h hash hex]. unfold writeBlockRecord, dumped_of. cbn [nb_height nb_hash nb_hex]. destruct hex as [| | |hex| |]; try done. cbn [hex_of from_hex].
  rewrite (run_bind_ok _ _ f (h2b hex) f) by done. destruct (bool_decide (h2b hex = []) || _) eqn:Es; [done|].
  apply orb_false_iff in Es as [Es1%bool_decide_eq_false Es2%bool_decide_eq_false]. destruct hash as [| | |hash| |]; try done. cbn [hex_of from_hex].
  rewrite (run_bind_ok _ _ f (h2b hash) f) by done. case_bool_decide as Hl; cbn [negb]; [|done].
  destruct (field_u32LE (len (h2b hex))) as [f1|] eqn:E1; [|done]. rewrite (run_bind_ok _ _ f f1 f) by done.
  destruct (field_u32LE h) as [f2|] eqn:E2; [|done]. rewrite (run_bind_ok _ _ f f2 f) by done.
  apply field_u32LE_ok in E1 as [_ ->]. apply field_u32LE_ok in E2 as [Hh ->]. intros [= <-]. split.
  - split; cbn; [done| |done]. pose proof (len_nonneg (h2b hex)). destruct (h2b hex) eqn:E; [done|]. unfold len in *. cbn [length] in *. lia.
  - unfold record_bytes. cbn [d_bytes d_height d_hash]. by rewrite <- !app_assoc.
Qed.

Lemma records_written bs : forall f f', writeBlockRecords bs f = (Ok tt, f') ->
  Forall dumped_ok (dumped_of <$> bs) /\ f' = f ++ concat (record_bytes <$> (dumped_of <$> bs)).
Proof.
  unfold writeBlockRecords. induction bs as [|b bs IH]; intros f f'; cbn [forM].
  { intros [= <-]. split; [constructor|by rewrite app_nil_r]. }
  unfold mbind, M_bind. destruct (writeBlockRecord b f) as [[[]|] f1] eqn:E1; [|done]. intros E2.
  apply record_written in E1 as [H1 ->]. apply IH in E2 as [H2 ->]. split; [by constructor|]. rewrite !fmap_cons. cbn [concat]. by rewrite app_assoc.
Qed.

Lemma heights_consecutive (bs : list node_block) : forall a b, nb_height <$> bs = batchHeights a b -> consecutive (a - 1) (dumped_of <$> bs).
Proof.
  induction bs as [|x bs IH]; intros a b E; [done|]. destruct (decide (a <= b)%Z) as [H|H].
  - rewrite batchHeights_cons in E by done. rewrite fmap_cons in E. injection E as Ex E. rewrite fmap_cons. cbn [consecutive dumped_of d_height].
    split; [lia|]. replace (nb_height x) with (a + 1 - 1)%Z by lia. by apply (IH _ b).
  - rewrite batchHeights_nil in E by lia. done.
Qed.

(** C21 A finished dump file reads back as what was dumped: if the header and the records of
    consecutive blocks were written without an error, the reader opens the file with the
    range and the tip it was written with and yields these blocks, in order, byte by byte.
    Cut short anywhere, by a crash or a full disk, the file is refused or its reading
    ends in an error. *)
Theorem dump_files_round_trip chain netName first last tip bs file :
  (_ ← writeDumpHeader chain netName first last (Some tip); writeBlockRecords bs) [] = (Ok tt, file) ->
  nb_height <$> bs = batchHeights first last ->
  (exists x, openXdmp file = Ok x /\ x_chain x = chain /\ x_network x = netName /\ x_firstHeight x = first /\ x_lastHeight x = last
    /\ x_chainTip x = tip /\ xdmp_blocks x = (dumped_of <$> bs, Ok tt))
  /\ forall k x, k < length file -> openXdmp (take k file) = Ok x -> (xdmp_blocks x).2 <> Ok tt.
Proof.
  intros E Hh. unfold mbind, M_bind in E. destruct (writeDumpHeader _ _ _ _ _ []) as [[[]|] f] eqn:Ef; [|done].
  apply header_written in Ef as (c & n & Hcodes & U1 & U2 & U3 & U4 & ->). apply records_written in E as [Hok ->]. cbn [app].
  assert (Hlen : length (dumped_of <$> bs) = Z.to_nat (last - first + 1)).
  { rewrite length_fmap, <- (length_fmap nb_height), Hh. apply length_batchHeights. }
  pose proof (heights_consecutive bs _ _ Hh) as Hc. split.
  - eexists. split; [by apply openXdmp_chunk|]. split_and!; [done..|]. unfold xdmp_blocks. cbn [x_blockCount x_firstHeight x_data].
    rewrite <- Hlen, <- (app_nil_r (concat (record_bytes <$> _))). by apply read_blocks_chunk.
  - intros k x Hk Ex. assert (Hf : length (concat (chunk_fields c n first last tip)) = HEADER_SIZE) by (unfold chunk_fields; cbn [concat]; by rewrite !length_app, !length_le).
    destruct (decide (k < HEADER_SIZE)) as [Hs|Hs].
    + unfold openXdmp in Ex. rewrite bool_decide_eq_false_2 in Ex; [done|]. rewrite !length_take. lia.
    + rewrite take_app, Hf, firstn_all2 in Ex by lia. rewrite (openXdmp_chunk _ _ _ _ _ _ chain netName) in Ex by done. injection Ex as <-.
      unfold xdmp_blocks. cbn [x_blockCount x_firstHeight x_data]. rewrite <- Hlen. apply read_blocks_cut; [done|]. rewrite length_app in Hk. lia.
Qed.

Definition dumped_run : list node_block := [mkNodeBlock 7 (JStr (hx xb1)) (JStr "0102"); mkNodeBlock 8 (JStr (hx xb2)) (JStr "03")].

Lemma dump_files_round_trip_witness : exists file x,
  (_ ← writeDumpHeader "litecoin" "testnet" 7 8 (Some 20%Z); writeBlockRecords dumped_run) [] = (Ok tt, file)
  /\ openXdmp file = Ok x /\ xdmp_blocks x = ([mkDumped 7 (raw xb1) [x01; x02]; mkDumped 8 (raw xb2) [x03]], Ok tt)
  /\ length file = 147 /\ (forall y, openXdmp (take 146 file) = Ok y -> (xdmp_blocks y).2 <> Ok tt).
Proof.
  destruct ((_ ← writeDumpHeader "litecoin" "testnet" 7 8 (Some 20%Z); writeBlockRecords dumped_run) []) as [r file] eqn:E.
  assert (Er := E). vm_compute in Er. injection Er as <- Ef. assert (El : length file = 147) by (rewrite <- Ef; reflexivity). clear Ef.
  destruct (dump_files_round_trip "litecoin" "testnet" 7 8 20 dumped_run file E eq_refl) as [(x & Ex & _ & _ & _ & _ & _ & Eb) Hcut].
  exists file, x. split; [done|]. split; [done|]. split; [rewrite Eb; vm_compute; reflexivity|]. split; [done|].
  intros y. apply Hcut. rewrite El. lia.
Defined.

(** * The check of a dump *)

Section check.
Context {node : Node} {hash : TxHash} {lib : Bitcoinjs}.

(** C10 A dump that passes the check is a chain, whatever its files claim: read in the order
    of their first heights, they end without an error; every block hashes to the hash
    stored with it, names the block before it as its predecessor and is one higher, across
    files too; block 0 has no predecessor; with the merkle check, every block parses and
    its header names the root of its transactions, with no repeated pair among them; and
    the report counts these blocks. *)
Theorem checked_dump_is_a_chain files merkle v : validateChainFiles files merkle = Ok v -> vd_ok v = true ->
  exists l wf, dump_of files l /\ Forall (sound wf) l /\ (merkle = true -> is_Some wf)
    /\ (forall i d d', l !! i = Some d -> l !! S i = Some d' -> follows d d')
    /\ (forall d, head l = Some d -> d_height d = 0%Z -> prev_of d = ZERO32)
    /\ vd_blocksChecked v = Z.of_nat (length l) /\ vd_firstHeight v = d_height <$> head l /\ vd_lastHeight v = d_height <$> last l.
Proof.
  intros E Hv. destruct (accepted files merkle v E Hv) as (l & wf & Hd & Hs & Hl & Hw & Hrest). exists l, wf. split_and!; try done; try apply Hrest.
  - intros i d d'. by apply (linked_follows l None).
  - intros d Hh. destruct l as [|x l]; [done|]. injection Hh as ->. apply Hl.
Qed.

(** C11 The hash of the last block pins a whole dump: where two dumps that pass the check end
    in the same hash, and no two of their headers collide, they have, counted from the
    end, the same hashes and headers as far as both reach.  If both were checked with
    merkle roots, such blocks also have the same transactions, unless two inputs of their
    trees collide or the trees differ in depth. *)
Theorem last_hash_pins_the_dump files1 files2 merkle1 merkle2 v1 v2 l1 l2 :
  validateChainFiles files1 merkle1 = Ok v1 -> vd_ok v1 = true -> dump_of files1 l1 ->
  validateChainFiles files2 merkle2 = Ok v2 -> vd_ok v2 = true -> dump_of files2 l2 ->
  d_hash <$> last l1 = d_hash <$> last l2 -> no_collision (header_of <$> l1) (header_of <$> l2) ->
  forall i d1 d2, reverse l1 !! i = Some d1 -> reverse l2 !! i = Some d2 ->
    d_hash d1 = d_hash d2 /\ header_of d1 = header_of d2
    /\ (merkle1 = true -> merkle2 = true -> exists wf1 wf2 b1 b2, blockFromBuffer wf1 (d_bytes d1) = Ok b1 /\ blockFromBuffer wf2 (d_bytes d2) = Ok b2
         /\ (comparable (txids_of b1) (txids_of b2) -> txids_of b1 = txids_of b2)).
Proof.
  intros E1 V1 D1 E2 V2 D2 Hlast Hc i d1 d2 I1 I2.
  destruct (accepted _ _ _ E1 V1) as (l1' & wf1 & D1' & S1 & L1 & W1 & _). rewrite <- (dump_of_fun _ _ _ D1 D1') in *. clear D1' l1'.
  destruct (accepted _ _ _ E2 V2) as (l2' & wf2 & D2' & S2 & L2 & W2 & _). rewrite <- (dump_of_fun _ _ _ D2 D2') in *. clear D2' l2'.
  destruct (pinned _ _ _ _ S1 S2 L1 L2 Hlast Hc i d1 d2 I1 I2) as [Hh Hd]. split_and!; [done|done|]. intros M1 M2.
  destruct (W1 M1) as (w1 & ->). destruct (W2 M2) as (w2 & ->). apply rev_lookup_last in I1 as [I1 _]. apply rev_lookup_last in I2 as [I2 _].
  rewrite Forall_lookup in S1, S2. destruct (so_merkle _ _ (S1 _ _ I1) w1 eq_refl) as (b1 & B1 & R1). destruct (so_merkle _ _ (S2 _ _ I2) w2 eq_refl) as (b2 & B2 & R2).
  exists w1, w2, b1, b2. split_and!; [done|done|]. rewrite <- header_root, Hd, header_root in R1. by apply (root_pins _ _ _ R1 R2).
Qed.
End check.

(** ** Two blocks, checked twice

    Once as two files in the wrong order, with merkle roots; once as one file, whose bodies
    differ and are not looked at. *)

#[local] Instance lib_check : Bitcoinjs := {
  Block_fromBuffer b := Ok (plain_block (if bool_decide (slice 36 68 b = raw x11) then block1 else block2));
  Block_byteLength _ := 81%Z;
  calculateMerkleRoot _ := [];
  Transaction_fromBuffer _ _ := Err (parse_error "");
  Transaction_getId _ _ _ _ := "";
  varuint_decode _ _ := Err (parse_error "");
}.

Definition header_a : bytes := Wire.le 4 1 ++ raw xb0 ++ raw x11 ++ zeros 12.
Definition header_b : bytes := Wire.le 4 1 ++ hash256 header_a ++ raw x12 ++ zeros 12.
Definition block_at (h : Z) (header body : bytes) : dumped := mkDumped h (rev (hash256 header)) (header ++ body).

Definition reader_of (file : bytes) : list xdmp := match openXdmp file with Ok x => [x] | Err _ => [] end.

Definition files_two : list bytes :=
  [chunk_file 1 3 8 8 20 [block_at 8 header_b [x02]]; chunk_file 1 3 7 7 20 [block_at 7 header_a [x01]]].
Definition files_one : list bytes := [chunk_file 1 3 7 8 20 [block_at 7 header_a [x03]; block_at 8 header_b []]].

Lemma files_two_checked : exists v, validateChainFiles files_two true = Ok v /\ vd_ok v = true /\ vd_blocksChecked v = 2%Z.
Proof. exists (mkVerdict true 2 (Some 7%Z) (Some 8%Z)). split; [vm_compute; reflexivity|by split]. Qed.

Lemma files_two_blocks : dump_of files_two [block_at 7 header_a [x01]; block_at 8 header_b [x02]].
Proof. exists (flat_map reader_of files_two). split; vm_compute; reflexivity. Qed.

Lemma checked_dump_is_a_chain_witness : exists v l wf, validateChainFiles files_two true = Ok v
  /\ dump_of files_two l /\ Forall (sound wf) l /\ is_Some wf /\ length l = 2.
Proof.
  destruct files_two_checked as (v & E & Hv & Hn).
  destruct (checked_dump_is_a_chain files_two true v E Hv) as (l & wf & Hd & Hs & Hw & _ & _ & Hc & _).
  exists v, l, wf. split; [exact E|]. split; [exact Hd|]. split; [exact Hs|]. split; [exact (Hw eq_refl)|]. lia.
Defined.

Lemma last_hash_pins_the_dump_witness : exists v1 v2, validateChainFiles files_two true = Ok v1 /\ validateChainFiles files_one false = Ok v2
  /\ d_bytes (block_at 7 header_a [x01]) <> d_bytes (block_at 7 header_a [x03])
  /\ header_of (block_at 7 header_a [x01]) = header_of (block_at 7 header_a [x03]).
Proof.
  destruct files_two_checked as (v1 & E1 & V1 & _).
  assert (E2 : exists v, validateChainFiles files_one false = Ok v /\ vd_ok v = true) by (exists (mkVerdict true 2 (Some 7%Z) (Some 8%Z)); split; [vm_compute; reflexivity|done]).
  destruct E2 as (v2 & E2 & V2). exists v1, v2. split; [exact E1|]. split; [exact E2|]. split; [vm_compute; discriminate|].
  apply (last_hash_pins_the_dump files_two files_one true false v1 v2 _ [block_at 7 header_a [x03]; block_at 8 header_b []] E1 V1 files_two_blocks E2 V2) with (i := 1).
  - exists (flat_map reader_of files_one). split; vm_compute; reflexivity.
  - vm_compute. reflexivity.
  - apply no_collision_dec. vm_compute. reflexivity.
  - reflexivity.
  - reflexivity.
Defined.
